(* ===== verification/_CoqProject ===== *)
-Q . S2P
Prelude.v
FixedPoint.v
ListSpec.v
KList.v
KListThm.v
Kstate.v
Interrupt.v
Thread.v
Synch.v
Timer.v
Machine.v
KernelInv.v
KernelStep.v
KernelCall.v
KernelTick.v
KernelThm.v
TimerThm.v
Arith.v
Bytes.v
Random.v
Bitmap.v
Hash.v
CStdlib.v
CStdlibThm.v
CString.v
CStringThm.v
Words.v
Vaddr.v
Palloc.v
PageMem.v
Pagedir.v
PagedirThm.v
PagedirOps.v
PagedirFree.v
PagedirInit.v
PagedirSpec.v
Malloc.v
MallocThm.v
Block.v
Swap.v
Vm.v
Page.v
VmInv.v
VmEvict.v
VmFault.v
VmUser.v
VmAccess.v
VmThm.v
Args.v
Process.v
ProcessThm.v
BlockThm.v
Inode.v
FileSys.v
InodeThm.v
FsInv.v
FsAlloc.v
FsOpen.v
FsFile.v
FsDir.v
FsOps.v
FsIo.v
FsSpec.v
FsMount.v
FsFormat.v
FsThm.v
