(* ===== verification/Prelude.v ===== *)
(** * The teaching kernel under src/src, verified

    The program is a Pintos kernel for the 80x86: a scheduler with priorities,
    aging and a multi-level feedback queue (threads/), the devices it drives
    (devices/), a C library of its own (lib/), and on top of them a file system
    (filesys/), virtual memory (vm/) and user processes (userprog/).  This
    development translates the parts listed below into executable definitions,
    function by function under the names of the C code, and proves that they
    do what they are for.

    ** How C is modelled

    Integers are [Z], wrapped at their C width where an operation can leave it
    ([u32], [i32], [u64], [i64] below); pointers are addresses, or names of
    objects where the code does no arithmetic on them.  A function that can go
    wrong returns an [outcome]: a failed [ASSERT], a [PANIC], a bad pointer and
    a division trap are errors ([fault]), and a theorem about an operation says
    that it returns [Ok].  Stateful code is written in the monad [ST] over the
    state of its component.

    A C loop that is not structural recursion takes fuel, and running out of it
    is the fault [OutOfFuel]; each such function is proved to end within the
    fuel its caller gives it.  The fuels: the number of cells of the memory for
    the walks of list.c, the number of bytes of the memory for string loops
    (a longer walk would visit an unmapped byte first), the length of the sleep
    queue for [thread_wake_up], 32 for the loops that shift a 32-bit number
    (calibration, [is_power_of_2] rounding, the descent in a heap), 10 for the
    descriptors of [malloc_init], and the number of candidates for bitmap
    scans, hash chains and binary search.

    ** The threaded kernel

    - [Kstate]: thread blocks, the scheduler's lists, semaphores, locks and
      condition variables, the interrupt flag; [Interrupt]: interrupt.c;
      [Thread]: thread.c; [Synch]: synch.c; [Timer]: timer.c; [FixedPoint]:
      fixed-point.h.  A thread that is suspended inside a C function has a
      stack of [frame]s which say what that function does when it continues.
    - [Machine]: the kernel as a step relation.  The running thread executes
      the frame on top of its stack, or makes a call; a timer interrupt arrives
      between any two steps that have interrupts on.  So the theorems cover
      every interleaving at the points where interrupts are on.
    - [KernelInv]: the invariant; [KernelStep], [KernelCall], [KernelTick]: the
      frames, the calls and the interrupt keep it and do not fault.
    - [KernelThm] and [TimerThm]: what follows for every reachable state.  No
      step faults and the machine is never stuck; the thread that runs has the
      highest priority; the queues hold exactly the ready and the sleeping
      threads, sorted, and no thread is lost; a lock has one holder; no wake-up is lost, [sema_up] wakes the waiter of
      the highest priority and condition variables are first in, first out; a
      tick wakes exactly the threads that are due; the feedback queue's
      priority is its formula; calibration finds the best ten bits.

    ** Lists, tables and bits

    - [ListSpec]: what list.c does to sequences; [KList] and [KListThm]: list.c
      on a store of linked cells, shown to implement [ListSpec] (sorting is
      stable, removal and insertion are inverse).  The scheduler, the hash
      buckets and the free lists are written with the sequences.
    - [Hash]: hash.c, which refines a finite map whatever [malloc] answers when
      the table is resized; iteration meets each element once.
    - [Bitmap]: bitmap.c on packed words, which refines a list of booleans;
      the file round trip.

    ** The C library

    - [Bytes]: words as bytes and arrays; [CString], [CStringThm]: string.c on
      a byte-addressed memory; [CStdlib], [CStdlibThm]: atoi, heap sort and
      binary search; [Arith]: 64-bit division out of 32-bit instructions;
      [Random]: the RC4 generator.

    ** Memory and devices

    - [Vaddr]: vaddr.h and pte.h; [Palloc]: the page allocator over two
      bitmaps; [Malloc], [MallocThm]: the block allocator over pages, with an
      invariant that makes live blocks disjoint, large enough and returned to
      the arena they came from.
    - [Block]: block.c and partition.c over any disk driver, an instance of the
      class [Device] whose laws ([DeviceLaws]) say that it stores sectors;
      [BlockThm]: reads and writes reach the right sector of the right disk,
      partitions are those of the table, and a block of a well-formed device
      table is itself a [Device].

    ** The file system

    - [Inode] and [FileSys]: inode.c, free-map.c, file.c, directory.c and
      filesys.c over any [Device].  The objects that the code allocates are in
      maps by address; [out_of_memory] says which allocations fail.
    - [InodeThm]: the bytes of an inode.  [FsInv]: the invariant ([core]: what
      the disk, the free map, the root directory and the open objects have to
      do with each other; [saved]: the free map on the disk is the one in
      memory).  [FsAlloc], [FsOpen], [FsFile], [FsIo], [FsDir], [FsOps]: every
      operation keeps it and does what it should, when memory suffices.
    - [FsSpec]: the specification, a map from names to numbered files, their
      contents and the open handles, with a step relation for the calls of a
      client; filesys.c and file.c refine it.  A removed file lives until its
      last handle is closed.
    - [FsMount], [FsFormat]: the image that a device must hold, mounting and
      formatting.  [FsThm]: adaptive client programs see the specification;
      formatting makes an empty file system; what was there is there after
      a restart; creation succeeds when there is room, and what a failed
      creation loses.

    The fuel of the loops of [inode_read_at] and [inode_write_at] is one more
    than the number of bytes asked for (a turn moves at least one), of the
    directory's loops one more than the length of its file, and of the nesting
    of block devices one more than the number of devices (a partition is on an
    older one).


    ** Page tables and swap

    - [Words]: 32-bit words in the memory of bytes.  [Vaddr]: addresses and the
      entries of directories and tables.  [PageMem]: pages, their allocation,
      and memories that agree outside of them.
    - [Pagedir]: pagedir.c and paging_init on those words, and the processor:
      its walk through the tables, the accessed and dirty bits it sets, the TLB.
      [PagedirThm], [PagedirOps], [PagedirFree], [PagedirInit]: the invariant
      [dirs_ok] (which page is whose directory, table or free) and every
      operation; [PagedirSpec]: the directories refine maps from pages to
      mappings ([repr]), accesses of the processor included, so no entry in the
      TLB is stale.
    - [Swap]: swap.c over any [Device]; a page swapped out comes back.

    ** Virtual memory

    - [Vm]: frame.c, the frame table with its clock, over the page tables, swap
      and an abstract file layer (class [FileStore], laws [FileStoreLaws]);
      [Page]: page.c, and the part of page_fault that decides what a fault is.
      Every section of code under Frame_lock is one step.
    - [VmInv]: the invariant [vm_ok], which ties the supplemental page tables,
      the frame table, the page directories, the free pages and the swap slots
      to each other, and [value], the contents of a page wherever it is.
      [VmEvict]: the clock, eviction and what it leaves alone; [VmFault]:
      bringing a page in; [VmUser]: adding one.
    - [VmAccess]: a load or a store of a program is a walk of the processor
      that may fault, the handler, and the instruction again; two attempts
      always suffice, so the fuel of [user_access] is 2.
    - [VmThm]: programs see the contents of their own pages and nothing else,
      whatever is evicted meanwhile; the victim is that of the second-chance
      rule.

    The fuel of [evict_loop] is the bound of the C loop, and that of [page_pin]
    is 2, since the page that handle_mm_fault brings in stays pinned or
    resident until the next step.

    ** User processes

    - [Args]: construct_stack of process.c, the initial stack of a program, on
      the memory of [CString].  The fuel of [argv_loop] is one more than the 64
      words that 127 characters can hold, that of [align_loop] the size of a
      word.
    - [Process]: process_execute, start_process, process_wait and process_exit
      as a machine of its own: a structure per process, a program counter, and
      one step for each operation on a semaphore and each access to another
      process's structure, in any interleaving.  What load, the program and the
      memory do is a [choice] of the step.  [ProcessThm]: the invariant, the
      histories of calls and returns ([lawful]), safety of the shared
      structures, and progress, for processes that get a page directory;
      without one, exec_out_of_memory_dangling shows what goes wrong.
    ** What is not modelled

    The threaded kernel and the allocators are proved separately: [Palloc] and
    [Malloc] take each critical section as one step, which is what the lock
    theorem of [KernelThm] gives them, and [Machine] takes the answer of
    [palloc_get_page] in [thread_create] as an argument of the call.  Port I/O,
    the programming of the PIC and PIT, the disk, keyboard, display and serial
    drivers, the boot code, assembly stubs and descriptor tables are hardware;
    console output and formatting only print.  The theorems on the
    file system suppose that memory does not run out; the definitions cover
    the other case.  [malloc] does not store the headers of arenas and the links
    of free blocks in the bytes of the pages but in maps of their own.  Of
    userprog/, the dispatch of system calls, the file descriptors and the ELF
    loader are not modelled; of exception.c only what a page fault decides is.
    [filesys_init] takes the device that has the role of the file system, if
    there is one, as an argument.

    ** This file

    Machine integers at their C width, the outcomes of kernel code, the state
    monad, and the generic lemmas and tactics that the components share. *)
From stdpp Require Export base tactics numbers list gmap.
From Stdlib Require Export ZArith Lia Sorted.

(** ** Outcomes of kernel code *)

(** Why a kernel path stops: a failed [ASSERT], an explicit [PANIC], a
    reference through a null or dangling pointer, a divide trap, or (for loops
    run with fuel) an exhausted bound. *)
Inductive fault : Type :=
| AssertFail
| KernelPanic
| BadPointer
| DivideError
| OutOfFuel.

#[export] Instance fault_eq_dec : EqDecision fault.
Proof. solve_decision. Defined.

Inductive outcome (A : Type) : Type :=
| Ok (a : A)
| Err (e : fault).
Arguments Ok {A} a.
Arguments Err {A} e.

#[export] Instance outcome_ret : MRet outcome := λ A a, Ok a.
#[export] Instance outcome_bind : MBind outcome := λ A B f m,
  match m with Ok a => f a | Err e => Err e end.

(** [ASSERT (c)] of lib/debug.h. *)
Definition assert_that (c : bool) : outcome unit := if c then Ok tt else Err AssertFail.

Definition from_option_err {A} (e : fault) (o : option A) : outcome A :=
  match o with Some a => Ok a | None => Err e end.

Lemma assert_that_Ok c u : assert_that c = Ok u → c = true.
Proof. by destruct c. Qed.

Lemma outcome_bind_Ok {A B} (m : outcome A) (f : A → outcome B) b :
  m ≫= f = Ok b → ∃ a, m = Ok a ∧ f a = Ok b.
Proof. destruct m; [by eauto | done]. Qed.

(** ** State-passing kernel code *)

Definition ST (S A : Type) : Type := S → outcome (A * S).

#[export] Instance st_ret {S} : MRet (ST S) := λ A a s, Ok (a, s).
#[export] Instance st_bind {S} : MBind (ST S) := λ A B f m s,
  match m s with Ok (a, s') => f a s' | Err e => Err e end.

Definition st_get {S} : ST S S := λ s, Ok (s, s).
Definition st_put {S} (s : S) : ST S unit := λ _, Ok (tt, s).
Definition st_modify {S} (f : S → S) : ST S unit := λ s, Ok (tt, f s).
Definition st_gets {S A} (f : S → A) : ST S A := λ s, Ok (f s, s).
Definition st_lift {S A} (o : outcome A) : ST S A := λ s,
  match o with Ok a => Ok (a, s) | Err e => Err e end.
Definition st_fail {S A} (e : fault) : ST S A := λ _, Err e.
Definition st_assert {S} (c : bool) : ST S unit := st_lift (assert_that c).

Lemma st_bind_Ok {S A B} (m : ST S A) (f : A → ST S B) s r :
  (m ≫= f) s = Ok r → ∃ a s', m s = Ok (a, s') ∧ f a s' = Ok r.
Proof.
  unfold mbind, st_bind. destruct (m s) as [[a s']|]; [eauto | done].
Qed.

(** Run the first step of a computation, whose result is known. *)
Lemma st_step {S A B} {m : ST S A} {s a s'} (f : A → ST S B) : m s = Ok (a, s') → (m ≫= f) s = f a s'.
Proof. unfold mbind, st_bind. by intros ->. Qed.

Lemma st_assert_true {S A} c (f : unit → ST S A) s : c = true → (st_assert c ≫= f) s = f tt s.
Proof. by intros ->. Qed.

Lemma st_lift_step {S A B} (o : outcome A) a (f : A → ST S B) s : o = Ok a → (st_lift o ≫= f) s = f a s.
Proof. by intros ->. Qed.

Lemma st_get_step {S A} (f : S → ST S A) s : (st_get ≫= f) s = f s s.
Proof. done. Qed.

Lemma st_ret_step {S A B} (a : A) (f : A → ST S B) s : (mret a ≫= f) s = f a s.
Proof. done. Qed.

Lemma st_assoc {S A B C} (m : ST S A) (f : A → ST S B) (g : B → ST S C) s :
  ((m ≫= f) ≫= g) s = (m ≫= λ a, f a ≫= g) s.
Proof. unfold mbind, st_bind. by destruct (m s) as [[]|]. Qed.

(** Split a hypothesis [m s = Ok r] into the steps of [m]. *)
Ltac run_hyp H :=
  repeat match type of H with
  | (_ ≫= _) _ = Ok _ =>
      apply st_bind_Ok in H;
      let a := fresh "a" in let s := fresh "s" in let E := fresh "E" in
      destruct H as (a & s & E & H); run_hyp E
  | st_get _ = Ok _ => unfold st_get in H; simplify_eq
  | st_put _ _ = Ok _ => unfold st_put in H; simplify_eq
  | st_modify _ _ = Ok _ => unfold st_modify in H; simplify_eq
  | st_gets _ _ = Ok _ => unfold st_gets in H; simplify_eq
  | st_fail _ _ = Ok _ => discriminate H
  | mret _ _ = Ok _ => unfold mret, st_ret in H; simplify_eq
  | st_assert ?c _ = Ok _ =>
      let C := fresh "C" in
      destruct c eqn:C; unfold st_assert, st_lift, assert_that in H; simplify_eq
  | st_lift ?o _ = Ok _ =>
      let C := fresh "C" in
      destruct o eqn:C; unfold st_lift in H; simplify_eq
  end.

(** [wp m s Q]: from [s], [m] ends without a fault, in a state and with a
    result that satisfy [Q]. *)
Definition wp {S A} (m : ST S A) (s : S) (Q : A → S → Prop) : Prop :=
  ∃ a s', m s = Ok (a, s') ∧ Q a s'.

Section wp.
Context {S : Type}.
Implicit Types s : S.

Lemma wp_ret {A} (a : A) s (Q : A → S → Prop) : Q a s → wp (mret a) s Q.
Proof. intros. by exists a, s. Qed.
Lemma wp_bind {A B} (m : ST S A) (f : A → ST S B) s Q :
  wp m s (λ a s', wp (f a) s' Q) → wp (m ≫= f) s Q.
Proof.
  intros (a & s' & E & b & s2 & E2 & H). exists b, s2.
  unfold mbind, st_bind. by rewrite E.
Qed.
Lemma wp_get s (Q : S → S → Prop) : Q s s → wp st_get s Q.
Proof. intros. by exists s, s. Qed.
Lemma wp_put s s' (Q : unit → S → Prop) : Q tt s' → wp (st_put s') s Q.
Proof. intros. by exists tt, s'. Qed.
Lemma wp_modify f s (Q : unit → S → Prop) : Q tt (f s) → wp (st_modify f) s Q.
Proof. intros. by exists tt, (f s). Qed.
Lemma wp_gets {A} (f : S → A) s (Q : A → S → Prop) : Q (f s) s → wp (st_gets f) s Q.
Proof. intros. by exists (f s), s. Qed.
Lemma wp_assert c s (Q : unit → S → Prop) : c = true → Q tt s → wp (st_assert c) s Q.
Proof. intros -> ?. by exists tt, s. Qed.
Lemma wp_lift {A} (o : outcome A) a s (Q : A → S → Prop) : o = Ok a → Q a s → wp (st_lift o) s Q.
Proof. intros -> ?. by exists a, s. Qed.
Lemma wp_mono {A} (m : ST S A) s (Q R : A → S → Prop) :
  wp m s Q → (∀ a s', Q a s' → R a s') → wp m s R.
Proof. intros (a & s' & E & H) HR. exists a, s'. eauto. Qed.
End wp.

(** One symbolic step of straight-line code. *)
Ltac wp1 := match goal with
  | |- wp (_ ≫= _) _ _ => apply wp_bind
  | |- wp (mret _) _ _ => apply wp_ret
  | |- wp st_get _ _ => apply wp_get
  | |- wp (st_put _) _ _ => apply wp_put
  | |- wp (st_modify _) _ _ => apply wp_modify
  | |- wp (st_gets _) _ _ => apply wp_gets
  end.

(** ** Machine integers *)

(** [wrap_u w z] is [z] stored in an unsigned [w]-bit variable, [wrap_s w z]
    the same for a signed (two's complement) one. *)
Definition wrap_u (w z : Z) : Z := z `mod` 2 ^ w.
Definition wrap_s (w z : Z) : Z := (z + 2 ^ (w - 1)) `mod` 2 ^ w - 2 ^ (w - 1).

Abbreviation u8 := (wrap_u 8).
Abbreviation u16 := (wrap_u 16).
Abbreviation u32 := (wrap_u 32).
Abbreviation u64 := (wrap_u 64).
Abbreviation i32 := (wrap_s 32).
Abbreviation i64 := (wrap_s 64).

Definition in_u (w z : Z) : Prop := (0 ≤ z < 2 ^ w)%Z.
Definition in_s (w z : Z) : Prop := (- 2 ^ (w - 1) ≤ z < 2 ^ (w - 1))%Z.

#[export] Instance in_u_dec w z : Decision (in_u w z).
Proof. unfold in_u. apply _. Defined.
#[export] Instance in_s_dec w z : Decision (in_s w z).
Proof. unfold in_s. apply _. Defined.

Section wrap.
Local Open Scope Z_scope.

Lemma wrap_u_range w z : 0 ≤ w → in_u w (wrap_u w z).
Proof. intros. apply Z.mod_pos_bound. lia. Qed.

Lemma wrap_u_id w z : in_u w z → wrap_u w z = z.
Proof. apply Z.mod_small. Qed.

Lemma wrap_s_range w z : 1 ≤ w → in_s w (wrap_s w z).
Proof.
  intros. unfold in_s, wrap_s.
  pose proof (Z.mod_pos_bound (z + 2 ^ (w - 1)) (2 ^ w)) as B.
  assert (2 ^ w = 2 * 2 ^ (w - 1)) by (rewrite <-Z.pow_succ_r; [f_equal; lia | lia]).
  lia.
Qed.

Lemma wrap_s_id w z : 1 ≤ w → in_s w z → wrap_s w z = z.
Proof.
  unfold in_s, wrap_s. intros.
  assert (2 ^ w = 2 * 2 ^ (w - 1)) by (rewrite <-Z.pow_succ_r; [f_equal; lia | lia]).
  rewrite Z.mod_small; lia.
Qed.

Lemma wrap_u_idem w z : wrap_u w (wrap_u w z) = wrap_u w z.
Proof. apply Zmod_mod. Qed.

Lemma i32_id z : -2147483648 ≤ z < 2147483648 → i32 z = z.
Proof. intros. apply wrap_s_id; [lia | done]. Qed.
Lemma i64_id z : -9223372036854775808 ≤ z < 9223372036854775808 → i64 z = z.
Proof. intros. apply wrap_s_id; [lia | done]. Qed.
Lemma u32_id z : 0 ≤ z < 4294967296 → u32 z = z.
Proof. intros. by apply wrap_u_id. Qed.
Lemma u64_id z : 0 ≤ z < 18446744073709551616 → u64 z = z.
Proof. intros. by apply wrap_u_id. Qed.
Lemma u8_id z : 0 ≤ z < 256 → u8 z = z.
Proof. intros. by apply wrap_u_id. Qed.
Lemma i32_range z : -2147483648 ≤ i32 z < 2147483648.
Proof. by apply (wrap_s_range 32). Qed.
Lemma i64_range z : -9223372036854775808 ≤ i64 z < 9223372036854775808.
Proof. by apply (wrap_s_range 64). Qed.
Lemma u32_range z : 0 ≤ u32 z < 4294967296.
Proof. by apply (wrap_u_range 32). Qed.
Lemma u64_range z : 0 ≤ u64 z < 18446744073709551616.
Proof. by apply (wrap_u_range 64). Qed.
Lemma u8_range z : 0 ≤ u8 z < 256.
Proof. by apply (wrap_u_range 8). Qed.
End wrap.

Create HintDb pintos discriminated.
Create Rewrite HintDb pintos.
Create Rewrite HintDb wrap.
#[export] Hint Resolve i32_range i64_range u32_range u64_range u8_range : pintos.
#[export] Hint Rewrite i32_id i64_id u32_id u64_id u8_id using lia : wrap.

(** Remove the wrap-arounds that [lia] can see are no-ops. *)
Ltac unwrap := repeat match goal with
  | |- context [wrap_s 32 ?z] => rewrite (i32_id z) by lia
  | |- context [wrap_s 64 ?z] => rewrite (i64_id z) by lia
  | |- context [wrap_u 32 ?z] => rewrite (u32_id z) by lia
  | |- context [wrap_u 64 ?z] => rewrite (u64_id z) by lia
  | |- context [wrap_u 8 ?z] => rewrite (u8_id z) by lia
  end.

(** ** Lists *)

Section lists.
Context {A : Type}.
Implicit Types l : list A.

Lemma NoDup_app_elem l1 l2 (x : A) :
  NoDup (l1 ++ (x :: l2)) → (x ∉ l1) ∧ (x ∉ l2) ∧ NoDup (l1 ++ l2).
Proof.
  intros H. apply NoDup_app in H as (H1 & H2 & H3).
  apply NoDup_cons in H3 as [H3 H4].
  split_and!; [intros ?; eapply H2; [done | left] | done |].
  apply NoDup_app. split_and!; [done | | done].
  intros y Hy Hy2. eapply H2; [done | by right].
Qed.

Lemma filter_none (P : A → Prop) `{∀ x, Decision (P x)} l :
  (∀ x, x ∈ l → ¬ P x) → filter P l = [].
Proof.
  intros Hn. induction l as [|x l IH]; [done |].
  rewrite filter_cons, decide_False by (apply Hn; left).
  apply IH. intros y Hy. apply Hn. by right.
Qed.

Lemma filter_all (P : A → Prop) `{∀ x, Decision (P x)} l :
  (∀ x, x ∈ l → P x) → filter P l = l.
Proof.
  intros Hn. induction l as [|x l IH]; [done |].
  rewrite filter_cons, decide_True by (apply Hn; left).
  rewrite IH; [done |]. intros y Hy. apply Hn. by right.
Qed.
End lists.
