(* ===== verification/FixedPoint.v ===== *)
(** threads/fixed-point.h: the 17.14 fixed-point arithmetic of the BSD
    scheduler, on 32-bit two's complement [int]s.  Every operation that the C
    code performs in [int] wraps at 32 bits; [fp_mul] and [fp_div] widen to 64
    bits first.  Division truncates toward zero ([Z.quot]) and traps on a zero
    divisor or when the quotient does not fit. *)
From S2P Require Import Prelude.
Local Open Scope Z_scope.

Definition FP_Q : Z := 14.
Definition FP_F : Z := Z.shiftl 1 FP_Q.

(** The [int] division instruction. *)
Definition idiv (w a b : Z) : outcome Z :=
  if bool_decide (b = 0) then Err DivideError
  else if bool_decide (a = - 2 ^ (w - 1) ∧ b = -1) then Err DivideError
  else Ok (Z.quot a b).

Definition fp_from_int (n : Z) : Z := i32 (n * FP_F).

Definition fp_to_int_zero (x : Z) : Z := Z.quot x FP_F.

Definition fp_to_int_nearest (x : Z) : Z :=
  if bool_decide (0 ≤ x) then Z.quot (i32 (x + Z.quot FP_F 2)) FP_F
  else Z.quot (i32 (x - Z.quot FP_F 2)) FP_F.

Definition fp_to_int_up (x : Z) : Z :=
  if bool_decide (0 ≤ x) then Z.quot (i32 (i32 (x + FP_F) - 1)) FP_F
  else Z.quot x FP_F.

Definition fp_add (x y : Z) : Z := i32 (x + y).

Definition fp_sub (x y : Z) : Z := i32 (x - y).

Definition fp_add_int (x n : Z) : Z := i32 (x + i32 (n * FP_F)).

Definition fp_sub_int (x n : Z) : Z := i32 (x - i32 (n * FP_F)).

Definition fp_mul (x y : Z) : Z := i32 (Z.quot (i64 (x * y)) FP_F).

Definition fp_mul_int (x n : Z) : Z := i32 (x * n).

Definition fp_div (x y : Z) : outcome Z :=
  q ← idiv 64 (i64 (x * FP_F)) y; Ok (i32 q).

Definition fp_div_int (x n : Z) : outcome Z := idiv 32 x n.

(** ** Reference notions: the real number a fixed-point value stands for is
    [x / 2^14]; [ceil_div] and [nearest] are stated without the code. *)

Definition ceil_div (x d : Z) : Z := - ((- x) / d).

(** [r] is an integer nearest to [x / 2^14]. *)
Definition nearest_to (x r : Z) : Prop := Z.abs (2 * (x - r * 16384)) ≤ 16384.

Lemma FP_F_eq : FP_F = 16384.
Proof. reflexivity. Qed.

Lemma quot_bounds x d : 0 < d → Z.abs (x - Z.quot x d * d) < d.
Proof.
  intros. pose proof (Z.quot_rem' x d). pose proof (Z.rem_bound_abs x d). lia.
Qed.

Lemma quot_sign x d : 0 < d → 0 ≤ x → 0 ≤ Z.quot x d * d ≤ x.
Proof.
  intros. pose proof (Z.quot_rem' x d). pose proof (Z.rem_bound_pos x d). 
  pose proof (Z.quot_pos x d). nia.
Qed.

Lemma quot_neg_sign x d : 0 < d → x ≤ 0 → x ≤ Z.quot x d * d ≤ 0.
Proof.
  intros. pose proof (quot_sign (- x) d). rewrite Z.quot_opp_l in H1 by lia. lia.
Qed.

Lemma idiv_ok w a b : 0 < b → idiv w a b = Ok (Z.quot a b).
Proof. intros. unfold idiv. rewrite !bool_decide_false; [done | lia..]. Qed.

(** [fp_to_int_up] on a non-negative value. *)
Lemma quot_up x d : 0 < d → 0 ≤ x → Z.quot (x + d - 1) d = ceil_div x d.
Proof.
  intros. unfold ceil_div. rewrite Z.quot_div_nonneg by lia.
  pose proof (Z.div_mod (x + d - 1) d). pose proof (Z.mod_pos_bound (x + d - 1) d).
  pose proof (Z.div_mod (- x) d). pose proof (Z.mod_pos_bound (- x) d). nia.
Qed.

Lemma quot_up_neg x d : 0 < d → x ≤ 0 → Z.quot x d = ceil_div x d.
Proof.
  intros. unfold ceil_div. rewrite <-(Z.opp_involutive x) at 1.
  rewrite Z.quot_opp_l by lia. by rewrite Z.quot_div_nonneg by lia.
Qed.

(** the conversions between integers and 17.14 values are exact where the
    format can represent the integer: [fp_to_int_zero] and
    [fp_to_int_nearest] and [fp_to_int_up] all invert [fp_from_int] on every
    integer of 17 bits plus sign (nearest and up need one more unit of head
    room above), and integer addition, subtraction and scaling commute with
    the conversion. *)
Theorem fp_int_roundtrip (n m : Z) :
  -131072 < n < 131071 → -131072 ≤ n + m < 131072 → -131072 ≤ m < 131072 →
  fp_to_int_zero (fp_from_int n) = n ∧
  fp_to_int_nearest (fp_from_int n) = n ∧
  fp_to_int_up (fp_from_int n) = n ∧
  fp_add_int (fp_from_int n) m = fp_from_int (n + m) ∧
  fp_sub_int (fp_from_int (n + m)) m = fp_from_int n.
Proof.
  intros Hn Hnm Hm.
  unfold fp_to_int_zero, fp_to_int_nearest, fp_to_int_up, fp_add_int, fp_sub_int, fp_from_int.
  rewrite FP_F_eq. change (Z.quot 16384 2) with 8192. unwrap.
  split_and!.
  - by rewrite Z.quot_mul.
  - case_bool_decide; unwrap.
    + rewrite Z.quot_div_nonneg by lia. Z.div_mod_to_equations; lia.
    + replace (n * 16384 - 8192) with (- (- n * 16384 + 8192)) by lia.
      rewrite Z.quot_opp_l, Z.quot_div_nonneg by lia. Z.div_mod_to_equations; lia.
  - case_bool_decide; unwrap.
    + rewrite quot_up by lia. unfold ceil_div. rewrite <-Z.mul_opp_l, Z.div_mul; lia.
    + by rewrite Z.quot_mul.
  - f_equal; lia.
  - f_equal; lia.
Qed.

Example fp_int_roundtrip_witness :
  fp_to_int_zero (fp_from_int (-7)) = -7 ∧
  fp_to_int_nearest (fp_from_int (-7)) = -7 ∧
  fp_to_int_up (fp_from_int (-7)) = -7 ∧
  fp_add_int (fp_from_int (-7)) 9 = fp_from_int (-7 + 9) ∧
  fp_sub_int (fp_from_int (-7 + 9)) 9 = fp_from_int (-7).
Proof. apply (fp_int_roundtrip (-7) 9); lia. Defined.

(** the two roundings the scheduler's getters use.  Away from the top of
    the [int] range, [fp_to_int_nearest] returns a nearest integer and
    [fp_to_int_up] the ceiling, for negative values too. *)
Theorem fp_rounding_correct (x : Z) :
  -2147483648 + 8192 ≤ x < 2147483648 - 16384 →
  nearest_to x (fp_to_int_nearest x) ∧ fp_to_int_up x = ceil_div x 16384.
Proof.
  intros Hx. unfold nearest_to, fp_to_int_nearest, fp_to_int_up.
  rewrite FP_F_eq. change (Z.quot 16384 2) with 8192.
  case_bool_decide; unwrap.
  - split.
    + rewrite Z.quot_div_nonneg by lia. Z.div_mod_to_equations; lia.
    + by rewrite quot_up.
  - split.
    + replace (x - 8192) with (- (- x + 8192)) by lia.
      rewrite Z.quot_opp_l, Z.quot_div_nonneg by lia. Z.div_mod_to_equations; lia.
    + by rewrite quot_up_neg by lia.
Qed.

Example fp_rounding_correct_witness :
  nearest_to (-24577) (fp_to_int_nearest (-24577)) ∧
  fp_to_int_up (-24577) = ceil_div (-24577) 16384.
Proof. apply (fp_rounding_correct (-24577)). lia. Defined.

(** C15: multiplication and division never overflow in their 64-bit
    intermediate, and when the result is representable they are the exact
    quotient truncated toward zero: the product and the quotient are within
    one unit in the last place of the real result. *)
Theorem fp_mul_div_accuracy (x y : Z) :
  in_s 32 x → in_s 32 y →
  (Z.abs (x * y) < 2147483648 * 16384 →
     Z.abs (fp_mul x y * 16384 - x * y) < 16384) ∧
  (y ≠ 0 → Z.abs (x * 16384) < 2147483648 * Z.abs y →
     ∃ q, fp_div x y = Ok q ∧ Z.abs (q * y - x * 16384) < Z.abs y).
Proof.
  unfold in_s, fp_mul, fp_div, idiv. rewrite FP_F_eq. cbn -[Z.mul Z.pow Z.quot].
  intros Hx Hy. split.
  - intros Hb. pose proof (quot_bounds (x * y) 16384 eq_refl) as Q.
    rewrite (i64_id (x * y)) by nia.
    assert (-2147483648 < Z.quot (x * y) 16384 < 2147483648).
    { destruct (Z_le_gt_dec 0 (x * y)).
      - pose proof (quot_sign (x * y) 16384). lia.
      - pose proof (quot_neg_sign (x * y) 16384). lia. }
    unwrap. lia.
  - intros Hy0 Hb. rewrite (i64_id (x * 16384)) by lia.
    rewrite bool_decide_false by done. rewrite bool_decide_false by lia. simpl.
    eexists; split; [done |].
    pose proof (Z.quot_rem' (x * 16384) y). pose proof (Z.rem_bound_abs (x * 16384) y Hy0).
    assert (Z.abs (Z.quot (x * 16384) y) < 2147483648).
    { rewrite <-Z.quot_abs by done. rewrite Z.quot_div_nonneg by lia.
      apply Z.div_lt_upper_bound; lia. }
    rewrite i32_id by lia. lia.
Qed.

Example fp_mul_div_accuracy_witness :
  (Z.abs (40000 * -70000) < 2147483648 * 16384 →
     Z.abs (fp_mul 40000 (-70000) * 16384 - 40000 * -70000) < 16384) ∧
  (-70000 ≠ 0 → Z.abs (40000 * 16384) < 2147483648 * Z.abs (-70000) →
     ∃ q, fp_div 40000 (-70000) = Ok q ∧
          Z.abs (q * -70000 - 40000 * 16384) < Z.abs (-70000)).
Proof. apply (fp_mul_div_accuracy 40000 (-70000)); by vm_compute. Defined.
