(* ===== verification/ListSpec.v ===== *)
(** The sequence-level view of lib/kernel/list.c: what each list operation
    does to the sequence of elements.  [KList] proves that the pointer code
    implements these functions; the scheduler, the semaphores, the frame table
    and the hash buckets are written with them. *)
From S2P Require Import Prelude.
From stdpp Require Import sorting.

Section spec.
Context {A : Type} (less : A → A → bool).
Implicit Types (l : list A) (x y : A).

(** [list_insert_ordered]: before the first element that [x] is less than. *)
Fixpoint insert_ordered x l : list A :=
  match l with
  | [] => [x]
  | y :: l' => if less x y then x :: y :: l' else y :: insert_ordered x l'
  end.

(** [find_end_of_run]: the maximal nondecreasing run that starts at [x]. *)
Fixpoint split_run x l : list A * list A :=
  match l with
  | [] => ([], [])
  | y :: l' => if less y x then ([], l)
               else let pq := split_run y l' in (y :: pq.1, pq.2)
  end.

(** [inplace_merge]. *)
Fixpoint merge_runs l1 : list A → list A :=
  fix go l2 :=
    match l1, l2 with
    | [], _ => l2
    | _, [] => l1
    | x :: l1', y :: l2' => if less y x then y :: go l2' else x :: merge_runs l1' l2
    end.

(** One pass of [list_sort]: merge adjacent pairs of runs and count the
    runs that are put out. *)
Fixpoint sort_pass (fuel : nat) l : nat * list A :=
  match fuel, l with
  | O, _ | _, [] => (0, l)
  | S fuel, x :: r =>
      match split_run x r with
      | (p, []) => (1, x :: p)
      | (p, y :: q) =>
          let pq := split_run y q in
          let rest := sort_pass fuel pq.2 in
          (S rest.1, merge_runs (x :: p) (y :: pq.1) ++ rest.2)
      end
  end.

(** The passes of [list_sort], until one of them puts out at most one run. *)
Fixpoint sort_passes (fuel : nat) l : list A :=
  match fuel with
  | O => l
  | S fuel => let p := sort_pass (length l) l in
              if decide (1 < p.1) then sort_passes fuel p.2 else p.2
  end.

Definition sort_seq l : list A := sort_passes (S (length l)) l.

(** [list_unique]: the first of each group of adjacent equal elements, and
    the duplicates in the order they are removed. *)
Fixpoint unique_from x l : list A * list A :=
  match l with
  | [] => ([x], [])
  | y :: l' =>
      if negb (less x y) && negb (less y x)
      then let r := unique_from x l' in (r.1, y :: r.2)
      else let r := unique_from y l' in (x :: r.1, r.2)
  end.

(** [list_max] and [list_min] on a nonempty list. *)
Fixpoint max_from x l : A :=
  match l with
  | [] => x
  | y :: l' => if less x y then max_from y l' else max_from x l'
  end.
Fixpoint min_from x l : A :=
  match l with
  | [] => x
  | y :: l' => if less y x then min_from y l' else min_from x l'
  end.

(** [is_sorted]: no element is less than the one before it. *)
Fixpoint sorted_from x l : bool :=
  match l with
  | [] => true
  | y :: l' => if less y x then false else sorted_from y l'
  end.

(** The order [less] leaves between two elements. *)
Definition le_of x y : Prop := less y x = false.
End spec.

(** What the callers of the list routines promise about [less]: a strict weak
    order. *)
Class StrictWeak {A} (less : A → A → bool) : Prop := {
  sw_asym x y : less x y = true → less y x = false;
  sw_ntrans x y z : less y x = false → less z y = false → less z x = false
}.

Section facts.
Context {A : Type} (less : A → A → bool) `{!StrictWeak less}.
Implicit Types (l : list A) (x y z : A).
Abbreviation le := (le_of less).
Abbreviation sorted := (StronglySorted le).

Lemma sw_irrefl x : less x x = false.
Proof. destruct (less x x) eqn:E; [by rewrite (sw_asym x x) in E | done]. Qed.

Lemma le_trans x y z : le x y → le y z → le x z.
Proof. apply sw_ntrans. Qed.

Lemma less_le x y : less x y = true → le x y.
Proof. apply sw_asym. Qed.

Lemma sorted_from_spec x l : sorted_from less x l = true ↔ sorted (x :: l).
Proof.
  revert x. induction l as [|y l IH]; intros x; simpl.
  { split; [repeat constructor | done]. }
  destruct (less y x) eqn:E.
  { split; [done |]. intros [_ H]%StronglySorted_inv.
    apply Forall_cons in H as [H _]. unfold le_of in H. congruence. }
  rewrite IH. split; intros H.
  - pose proof H as [H1 H2]%StronglySorted_inv.
    constructor; [done |]. constructor; [done |].
    eapply Forall_impl; [done |]. intros z. by apply le_trans.
  - by apply StronglySorted_inv in H as [H _].
Qed.

(** *** Ordered insertion *)

Lemma insert_ordered_split x l :
  ∃ l1 l2, l = l1 ++ l2 ∧ insert_ordered less x l = l1 ++ (x :: l2) ∧
    Forall (λ y, le y x) l1 ∧ (∀ y, head l2 = Some y → less x y = true).
Proof.
  induction l as [|y l (l1 & l2 & -> & E & F & H)]; simpl.
  { by exists [], []. }
  destruct (less x y) eqn:C.
  - exists [], (y :: l1 ++ l2). split_and!; [done..|]. intros ? [= <-]. done.
  - exists (y :: l1), l2. rewrite E. split_and!; [done..| by constructor | done].
Qed.

Lemma insert_ordered_perm x l : insert_ordered less x l ≡ₚ x :: l.
Proof.
  destruct (insert_ordered_split x l) as (l1 & l2 & -> & -> & _).
  by rewrite Permutation_middle.
Qed.

Lemma elem_of_insert_ordered x y l : y ∈ insert_ordered less x l ↔ y = x ∨ y ∈ l.
Proof. rewrite insert_ordered_perm. apply elem_of_cons. Qed.

Lemma insert_ordered_NoDup x l : NoDup (insert_ordered less x l) ↔ (x ∉ l) ∧ NoDup l.
Proof. rewrite insert_ordered_perm. apply NoDup_cons. Qed.

Lemma insert_ordered_sorted x l : sorted l → sorted (insert_ordered less x l).
Proof.
  intros Hs. induction l as [|y l IH]; simpl; [repeat constructor |].
  destruct (less x y) eqn:C.
  - constructor; [done |]. constructor; [by apply less_le |].
    apply StronglySorted_inv in Hs as [_ Hs]. eapply Forall_impl; [done |].
    intros z. apply le_trans. by apply less_le.
  - apply StronglySorted_inv in Hs as [Hs Hy]. constructor; [by apply IH |].
    rewrite Forall_forall in Hy. apply Forall_forall. intros z.
    rewrite elem_of_insert_ordered. intros [->|]; [done | by apply Hy].
Qed.

(** *** Runs and merging *)

Lemma split_run_app x l : (split_run less x l).1 ++ (split_run less x l).2 = l.
Proof.
  revert x. induction l as [|y l IH]; intros x; simpl; [done |].
  destruct (less y x); simpl; [done |]. by rewrite IH.
Qed.

Lemma split_run_sorted x l : sorted (x :: (split_run less x l).1).
Proof.
  apply sorted_from_spec. revert x.
  induction l as [|y l IH]; intros x; simpl; [done |].
  destruct (less y x) eqn:E; simpl; [done |]. by rewrite E, IH.
Qed.

Lemma merge_nil_r l : merge_runs less l [] = l.
Proof. by destruct l. Qed.

Lemma merge_runs_perm l1 l2 : merge_runs less l1 l2 ≡ₚ l1 ++ l2.
Proof.
  revert l2. induction l1 as [|x l1 IH1]; intros l2.
  { by destruct l2. }
  induction l2 as [|y l2 IH2]; simpl.
  { by rewrite app_nil_r. }
  destruct (less y x).
  - rewrite IH2. apply (Permutation_middle (x :: l1) l2 y).
  - by rewrite IH1.
Qed.

Lemma merge_runs_sorted l1 l2 :
  sorted l1 → sorted l2 → sorted (merge_runs less l1 l2).
Proof.
  revert l2. induction l1 as [|x l1 IH1]; intros l2 H1 H2.
  { by destruct l2. }
  induction l2 as [|y l2 IH2]; simpl; [done |].
  pose proof H1 as [H1' Hx]%StronglySorted_inv.
  pose proof H2 as [H2' Hy]%StronglySorted_inv.
  rewrite Forall_forall in Hx, Hy.
  destruct (less y x) eqn:C.
  - constructor; [by apply IH2 |].
    change (Forall (le y) (merge_runs less (x :: l1) l2)).
    rewrite merge_runs_perm. apply Forall_forall.
    intros z [Hz|Hz]%elem_of_app; [| by apply Hy].
    apply elem_of_cons in Hz as [->|Hz]; [by apply less_le |].
    eapply le_trans; [by apply less_le | by apply Hx].
  - constructor; [by apply IH1 |].
    rewrite merge_runs_perm. apply Forall_forall.
    intros z [Hz|Hz]%elem_of_app; [by apply Hx |].
    apply elem_of_cons in Hz as [->|Hz]; [done |].
    eapply le_trans; [done | by apply Hy].
Qed.

(** Elements neither of which is less than the other keep their order:
    [same x] selects the elements equivalent to [x]. *)
Definition same x y : Prop := less x y = false ∧ less y x = false.
#[local] Instance same_dec x y : Decision (same x y).
Proof. unfold same. apply _. Defined.

Lemma merge_runs_stable z l1 l2 :
  sorted l1 → filter (same z) (merge_runs less l1 l2) = filter (same z) (l1 ++ l2).
Proof.
  revert l2. induction l1 as [|x l1 IH1]; intros l2 H1.
  { by destruct l2. }
  pose proof H1 as [H1' Hx]%StronglySorted_inv.
  induction l2 as [|y l2 IH2].
  { simpl merge_runs. by rewrite app_nil_r. }
  change (merge_runs less (x :: l1) (y :: l2))
    with (if less y x then y :: merge_runs less (x :: l1) l2
          else x :: merge_runs less l1 (y :: l2)).
  destruct (less y x) eqn:C.
  - rewrite filter_cons, IH2. change (y :: l2) with ([y] ++ l2).
    rewrite (filter_app _ (x :: l1) ([y] ++ l2)), (filter_app _ [y] l2).
    rewrite (filter_app _ (x :: l1) l2), (filter_cons _ y []). simpl.
    case_decide as Hs; [| done].
    destruct Hs as [Hs1 Hs2].
    assert (filter (same z) (x :: l1) = []) as ->; [| done].
    rewrite Forall_forall in Hx. apply filter_none. intros w Hw [W1 W2].
    assert (le x w) as Hxw.
    { apply elem_of_cons in Hw as [->|Hw]; [apply sw_irrefl | by apply Hx]. }
    (* y < x ≤ w ~ z ~ y *)
    assert (less y x = false); [| congruence].
    unfold le_of in Hxw. eapply sw_ntrans; [exact Hxw |]. by eapply sw_ntrans.
  - rewrite <-app_comm_cons, !filter_cons, IH1; done.
Qed.

(** *** The natural merge sort *)

Lemma merge_runs_ne x l1 l2 : merge_runs less (x :: l1) l2 ≠ [].
Proof. destruct l2 as [|y l2]; [done |]. simpl. by destruct (less y x). Qed.

#[local] Arguments merge_runs : simpl never.

(** [l] is a concatenation of [k] nonempty sorted runs. *)
Definition runs (k : nat) l : Prop :=
  ∃ ls, l = concat ls ∧ Forall (λ r, sorted r ∧ r ≠ []) ls ∧ length ls = k.

Lemma runs_cons k r l : sorted r → r ≠ [] → runs k l → runs (S k) (r ++ l).
Proof.
  intros Hr Hn (ls & -> & F & <-). exists (r :: ls). by rewrite Forall_cons.
Qed.

Lemma runs_singletons l : runs (length l) l.
Proof.
  induction l as [|x l IH]; [by exists [] |].
  apply (runs_cons _ [x]); [repeat constructor | done | done].
Qed.

Lemma runs_le_1_sorted k l : runs k l → k ≤ 1 → sorted l.
Proof.
  intros (ls & -> & F & <-) Hk. destruct ls as [|r [|]]; simpl in *; [constructor | | lia].
  rewrite app_nil_r. by apply Forall_inv in F as [? _].
Qed.

Lemma runs_inv k l : runs (S k) l → ∃ y t l', l = y :: t ++ l' ∧ sorted (y :: t) ∧ runs k l'.
Proof.
  intros (ls & -> & F & Hl). destruct ls as [|[|y t] ls]; [done | |].
  { apply Forall_inv in F as [_ F]. done. }
  apply Forall_cons in F as [[Ht _] F]. exists y, t, (concat ls).
  split_and!; [done..|]. exists ls. by injection Hl.
Qed.

Lemma runs_0 l : runs 0 l → l = [].
Proof. by intros (ls & -> & _ & ->%length_zero_iff_nil). Qed.

(** The first run found covers at least the first of any given runs. *)
Lemma split_run_runs k x s r :
  sorted (x :: s) → runs k r → ∃ k', k' ≤ k ∧ runs k' (split_run less x (s ++ r)).2.
Proof.
  revert x s r. induction k as [|k IHk]; intros x s r Hs Hr; revert x Hs;
    induction s as [|y s IHs]; intros x Hs; simpl.
  2,4: apply StronglySorted_inv in Hs as [Hs [Hxy _]%Forall_cons];
    unfold le_of in Hxy; rewrite Hxy; simpl; by apply IHs.
  - exists 0. split; [lia |]. pose proof (runs_0 _ Hr) as ->. done.
  - destruct (runs_inv _ _ Hr) as (y & t & l & -> & Ht & Hl). simpl.
    destruct (less y x); simpl; [by exists (S k) |].
    destruct (IHk y t l Ht Hl) as (k' & ? & ?). exists k'. split; [lia | done].
Qed.

Lemma split_run_length x l : length (split_run less x l).2 ≤ length l.
Proof. rewrite <-(split_run_app x l) at 2. rewrite length_app. lia. Qed.

Lemma sort_pass_perm fuel l : (sort_pass less fuel l).2 ≡ₚ l.
Proof.
  revert l. induction fuel as [|fuel IH]; intros [|x l]; [done..|]. cbn [sort_pass].
  pose proof (split_run_app x l) as E.
  destruct (split_run less x l) as [p [|y q]]; cbn [fst snd] in *.
  { by rewrite app_nil_r in E; subst. }
  rewrite IH, merge_runs_perm, <-E, <-(assoc_L (++)), <-app_comm_cons.
  by rewrite <-app_comm_cons, split_run_app.
Qed.

(** A pass over [k] runs leaves at most half as many (rounded up), and the
    count it returns is a bound on the runs of its result. *)
Lemma sort_pass_runs fuel k l :
  length l ≤ fuel → runs k l →
  2 * (sort_pass less fuel l).1 ≤ k + 1 ∧
  runs (sort_pass less fuel l).1 (sort_pass less fuel l).2.
Proof.
  revert k l. induction fuel as [|fuel IH]; intros k [|x l] Hl Hk; simpl in *;
    try (split; [lia | by exists []]); [lia |].
  destruct k as [|k]; [by apply runs_0 in Hk |].
  destruct (runs_inv _ _ Hk) as (? & t & l' & [= <- ->] & Ht & Hr).
  destruct (split_run_runs k x t l' Ht Hr) as (k1 & Hk1 & Hr1).
  pose proof (split_run_sorted x (t ++ l')) as Hp.
  pose proof (split_run_length x (t ++ l')) as Hlen.
  destruct (split_run less x (t ++ l')) as [p [|y q]]; simpl in *.
  { split; [lia |]. rewrite <-(app_nil_r (x :: p)). by apply runs_cons, runs_singletons. }
  destruct k1 as [|k1]; [by apply runs_0 in Hr1 |].
  destruct (runs_inv _ _ Hr1) as (? & t2 & l2 & [= <- ->] & Ht2 & Hr2).
  destruct (split_run_runs k1 y t2 l2 Ht2 Hr2) as (k2 & Hk2 & Hr3).
  pose proof (split_run_sorted y (t2 ++ l2)) as Hp2.
  pose proof (split_run_length y (t2 ++ l2)) as Hlen2.
  destruct (split_run less y (t2 ++ l2)) as [p2 q2]; simpl in *.
  destruct (IH k2 q2 ltac:(lia) Hr3) as [H1 H2]. split; [lia |].
  apply runs_cons; [by apply merge_runs_sorted | apply merge_runs_ne | done].
Qed.

Lemma sort_passes_correct fuel k l :
  runs k l → k ≤ fuel → 0 < fuel →
  sorted (sort_passes less fuel l) ∧ sort_passes less fuel l ≡ₚ l.
Proof.
  revert k l. induction fuel as [|fuel IH]; intros k l Hk Hf H0; [lia |]. simpl.
  destruct (sort_pass_runs (length l) k l) as [H1 H2]; [done..|].
  pose proof (sort_pass_perm (length l) l) as Hp. case_decide as Hd.
  - destruct (IH _ _ H2) as [H3 H4]; [lia..|]. split; [done |]. by rewrite H4.
  - split; [| done]. eapply runs_le_1_sorted; [done | lia].
Qed.

(** More fuel than elements changes nothing. *)
Lemma sort_pass_fuel f1 f2 l :
  length l ≤ f1 → length l ≤ f2 → sort_pass less f1 l = sort_pass less f2 l.
Proof.
  revert f2 l. induction f1 as [|f1 IH]; intros f2 [|x l] H1 H2;
    simpl in *; try lia; destruct f2 as [|f2]; simpl in *; try lia; try done.
  pose proof (split_run_length x l) as Hl.
  destruct (split_run less x l) as [p [|y q]]; cbn [fst snd] in *; [done |].
  pose proof (split_run_length y q) as Hl2. simpl in Hl.
  rewrite (IH f2); [done | lia..].
Qed.

Lemma sort_passes_fuel k f1 f2 l :
  runs k l → k ≤ f1 → k ≤ f2 → 0 < f1 → 0 < f2 →
  sort_passes less f1 l = sort_passes less f2 l.
Proof.
  revert k f2 l. induction f1 as [|f1 IH]; intros k [|f2] l Hk H1 H2 P1 P2; try lia.
  simpl. destruct (sort_pass_runs (length l) k l) as [Hb Hr]; [done..|].
  case_decide; [| done]. eapply IH; [exact Hr | lia..].
Qed.

Lemma sort_seq_sorted l : sorted (sort_seq less l).
Proof. eapply sort_passes_correct; [apply runs_singletons | lia..]. Qed.

Lemma sort_seq_perm l : sort_seq less l ≡ₚ l.
Proof. eapply sort_passes_correct; [apply runs_singletons | lia..]. Qed.

Lemma sort_pass_stable z fuel l :
  filter (same z) (sort_pass less fuel l).2 = filter (same z) l.
Proof.
  revert l. induction fuel as [|fuel IH]; intros [|x l]; [done..|]. simpl sort_pass.
  pose proof (split_run_app x l) as E. pose proof (split_run_sorted x l) as Hs.
  destruct (split_run less x l) as [p [|y q]]; cbn [fst snd] in *.
  { by rewrite app_nil_r in E; subst. }
  rewrite filter_app, IH, merge_runs_stable by done. rewrite <-filter_app, <-E.
  f_equal. rewrite <-(assoc_L (++)). simpl. by rewrite split_run_app.
Qed.

Lemma sort_seq_stable z l : filter (same z) (sort_seq less l) = filter (same z) l.
Proof.
  unfold sort_seq. generalize (S (length l)). intros n. revert l.
  induction n as [|n IH]; intros l; simpl; [done |].
  case_decide; rewrite ?IH; apply sort_pass_stable.
Qed.

(** *** Maximum, minimum and duplicates *)

(** [list_unique] keeps one element of each group of adjacent equal ones:
    two neighbours of the result differ. *)
Definition distinct x y : Prop := less x y = true ∨ less y x = true.

Lemma unique_from_perm x l : (unique_from less x l).1 ++ (unique_from less x l).2 ≡ₚ x :: l.
Proof.
  revert x. induction l as [|y l IH]; intros x; simpl; [done |].
  destruct (negb (less x y) && negb (less y x)); simpl.
  - rewrite <-Permutation_middle, IH. constructor.
  - by rewrite IH.
Qed.

Lemma unique_from_head x l : ∃ r, (unique_from less x l).1 = x :: r.
Proof.
  revert x. induction l as [|y l IH]; intros x; simpl; [by eexists |].
  destruct (negb (less x y) && negb (less y x)); simpl; [apply IH | by eexists].
Qed.

Lemma unique_from_distinct x l : LocallySorted distinct (unique_from less x l).1.
Proof.
  revert x. induction l as [|y l IH]; intros x; simpl; [constructor |].
  destruct (negb (less x y) && negb (less y x)) eqn:C; simpl; [apply IH |].
  destruct (unique_from_head y l) as [r E]. pose proof (IH y) as Hy. rewrite E in *.
  constructor; [done |]. unfold distinct. destruct (less x y), (less y x); auto; done.
Qed.

(** The minimum that [list_min] keeps is the earliest one. *)
Lemma min_from_lb x l : Forall (λ y, less y (min_from less x l) = false) (x :: l).
Proof.
  revert x. induction l as [|y l IH]; intros x; simpl.
  { repeat constructor. apply sw_irrefl. }
  destruct (less y x) eqn:C.
  - pose proof (IH y) as F. pose proof F as [Fy _]%Forall_cons. constructor; [| done].
    eapply sw_ntrans; [exact Fy | by apply sw_asym].
  - pose proof (IH x) as [Fx F]%Forall_cons. repeat constructor; [done | | done].
    eapply sw_ntrans; [exact Fx | exact C].
Qed.

Lemma min_from_first x l :
  ∃ l1 l2, x :: l = l1 ++ (min_from less x l :: l2) ∧
    Forall (λ y, less (min_from less x l) y = true) l1.
Proof.
  revert x. induction l as [|y l IH]; intros x; simpl; [by exists [], [] |].
  destruct (less y x) eqn:C.
  - destruct (IH y) as (l1 & l2 & E & F). exists (x :: l1), l2.
    split; [simpl; by f_equal |]. constructor; [| done].
    pose proof (min_from_lb y l) as [Fy _]%Forall_cons.
    destruct (less (min_from less y l) x) eqn:D; [done |].
    assert (less y x = false); [by eapply sw_ntrans | congruence].
  - destruct (IH x) as ([|w l1] & l2 & E & F); injection E as E1 E2.
    + rewrite <-E1. by exists [], (y :: l).
    + subst w. exists (x :: y :: l1), l2. split; [simpl; by do 2 f_equal |].
      apply Forall_cons in F as [Fx F]. repeat constructor; [done | | done].
      destruct (less (min_from less x l) y) eqn:D; [done |].
      assert (less (min_from less x l) x = false); [by eapply sw_ntrans | congruence].
Qed.


Lemma max_from_ub x l : Forall (λ y, less (max_from less x l) y = false) (x :: l).
Proof.
  revert x. induction l as [|y l IH]; intros x; simpl.
  { repeat constructor. apply sw_irrefl. }
  destruct (less x y) eqn:C.
  - pose proof (IH y) as F. pose proof F as [Fy _]%Forall_cons. constructor; [| done].
    by eapply sw_ntrans; [apply sw_asym |].
  - pose proof (IH x) as [Fx F]%Forall_cons. repeat constructor; [done | | done].
    by eapply sw_ntrans.
Qed.

(** The earliest maximum: everything before it is strictly smaller. *)
Lemma max_from_first x l :
  ∃ l1 l2, x :: l = l1 ++ (max_from less x l :: l2) ∧
    Forall (λ y, less y (max_from less x l) = true) l1.
Proof.
  revert x. induction l as [|y l IH]; intros x; simpl; [by exists [], [] |].
  destruct (less x y) eqn:C.
  - destruct (IH y) as (l1 & l2 & E & F). exists (x :: l1), l2.
    split; [simpl; by f_equal |]. constructor; [| done].
    pose proof (max_from_ub y l) as [Fy _]%Forall_cons.
    destruct (less x (max_from less y l)) eqn:D; [done |].
    assert (less x y = false); [by eapply sw_ntrans | congruence].
  - destruct (IH x) as ([|w l1] & l2 & E & F); injection E as E1 E2.
    + rewrite <-E1. by exists [], (y :: l).
    + subst w. exists (x :: y :: l1), l2. split; [simpl; by do 2 f_equal |].
      apply Forall_cons in F as [Fx F]. repeat constructor; [done | | done].
      destruct (less y (max_from less x l)) eqn:D; [done |].
      assert (less x (max_from less x l) = false); [by eapply sw_ntrans | congruence].
Qed.
End facts.

#[global] Arguments merge_runs : simpl never.
#[export] Existing Instance same_dec.

#[export] Hint Resolve insert_ordered_sorted sort_seq_sorted split_run_sorted
  merge_runs_sorted sw_irrefl : pintos.
