(* ===== verification/KList.v ===== *)
(** lib/kernel/list.c at the level of its pointers.  A memory maps the
    addresses of [struct list_elem]s to their two links; a [struct list] is the
    pair of addresses of its two sentinels.  Every function of list.c is
    written on that memory, assertions and null dereferences included; the
    loops run with a fuel that the memory's size always covers.  The theorems
    say that on a well-formed list each function terminates without a fault
    and does to the sequence of elements what [ListSpec] says, leaving the
    rest of the memory alone. *)
From S2P Require Import Prelude ListSpec.
From stdpp Require Import sorting.

Abbreviation loc := positive.
(** A [struct list_elem *]; [None] is the null pointer. *)
Abbreviation ptr := (option positive).

Record list_elem := mk_elem { prev : ptr; next : ptr }.

Record klist := mk_list { head : loc; tail : loc }.

Abbreviation mem := (gmap positive list_elem).
Abbreviation LM := (ST mem).

Definition load (p : ptr) : LM list_elem := λ m,
  match p ≫= (m !!.) with Some e => Ok (e, m) | None => Err BadPointer end.
Definition get_prev (p : ptr) : LM ptr := e ← load p; mret (prev e).
Definition get_next (p : ptr) : LM ptr := e ← load p; mret (next e).
Definition store (p : ptr) (e : list_elem) : LM unit := λ m,
  match p with Some l => Ok (tt, <[l := e]> m) | None => Err BadPointer end.
Definition set_prev (p v : ptr) : LM unit := e ← load p; store p (mk_elem v (next e)).
Definition set_next (p v : ptr) : LM unit := e ← load p; store p (mk_elem (prev e) v).

Definition is_head (elem : ptr) : LM bool :=
  if decide (elem = None) then mret false
  else e ← load elem; mret (bool_decide (prev e = None) && bool_decide (next e ≠ None)).

Definition is_interior (elem : ptr) : LM bool :=
  if decide (elem = None) then mret false
  else e ← load elem; mret (bool_decide (prev e ≠ None) && bool_decide (next e ≠ None)).

Definition is_tail (elem : ptr) : LM bool :=
  if decide (elem = None) then mret false
  else e ← load elem; mret (bool_decide (prev e ≠ None) && bool_decide (next e = None)).

Definition list_init (L : klist) : LM unit :=
  set_prev (Some (head L)) None;;
  set_next (Some (head L)) (Some (tail L));;
  set_prev (Some (tail L)) (Some (head L));;
  set_next (Some (tail L)) None.

Definition list_begin (L : klist) : LM ptr := get_next (Some (head L)).

Definition list_next (elem : ptr) : LM ptr :=
  h ← is_head elem; i ← is_interior elem; st_assert (h || i);; get_next elem.

Definition list_end (L : klist) : ptr := Some (tail L).

Definition list_rbegin (L : klist) : LM ptr := get_prev (Some (tail L)).

Definition list_prev (elem : ptr) : LM ptr :=
  i ← is_interior elem; t ← is_tail elem; st_assert (i || t);; get_prev elem.

Definition list_rend (L : klist) : ptr := Some (head L).

Definition list_head (L : klist) : ptr := Some (head L).

Definition list_tail (L : klist) : ptr := Some (tail L).

Definition list_insert (before elem : ptr) : LM unit :=
  i ← is_interior before; t ← is_tail before; st_assert (i || t);;
  st_assert (bool_decide (elem ≠ None));;
  bp ← get_prev before;
  set_prev elem bp;;
  set_next elem before;;
  bp' ← get_prev before;
  set_next bp' elem;;
  set_prev before elem.

Definition list_splice (before first last : ptr) : LM unit :=
  i ← is_interior before; t ← is_tail before; st_assert (i || t);;
  if decide (first = last) then mret tt
  else
    last ← list_prev last;
    i1 ← is_interior first; st_assert i1;;
    i2 ← is_interior last; st_assert i2;;
    (* Cleanly remove FIRST...LAST from its current list. *)
    fp ← get_prev first; ln ← get_next last; set_next fp ln;;
    ln ← get_next last; fp ← get_prev first; set_prev ln fp;;
    (* Splice FIRST...LAST into new list. *)
    bp ← get_prev before; set_prev first bp;;
    set_next last before;;
    bp ← get_prev before; set_next bp first;;
    set_prev before last.

Definition list_push_front (L : klist) (elem : ptr) : LM unit :=
  b ← list_begin L; list_insert b elem.

Definition list_push_back (L : klist) (elem : ptr) : LM unit :=
  list_insert (list_end L) elem.

Definition list_remove (elem : ptr) : LM ptr :=
  i ← is_interior elem; st_assert i;;
  p ← get_prev elem; n ← get_next elem; set_next p n;;
  n ← get_next elem; p ← get_prev elem; set_prev n p;;
  get_next elem.

Definition list_empty (L : klist) : LM bool :=
  b ← list_begin L; mret (bool_decide (b = list_end L)).

Definition list_front (L : klist) : LM ptr :=
  e ← list_empty L; st_assert (negb e);; get_next (Some (head L)).

Definition list_back (L : klist) : LM ptr :=
  e ← list_empty L; st_assert (negb e);; get_prev (Some (tail L)).

Definition list_pop_front (L : klist) : LM ptr :=
  front ← list_front L; list_remove front;; mret front.

Definition list_pop_back (L : klist) : LM ptr :=
  back ← list_back L; list_remove back;; mret back.

Fixpoint list_size_loop (fuel : nat) (L : klist) (e : ptr) (cnt : Z) : LM Z :=
  if decide (e = list_end L) then mret cnt
  else match fuel with
       | O => st_fail OutOfFuel
       | S fuel => e' ← list_next e; list_size_loop fuel L e' (u32 (cnt + 1))
       end.

Definition list_size (L : klist) : LM Z :=
  e ← list_begin L; m ← st_get; list_size_loop (size m) L e 0.

(** [list_reverse]: its loop exchanges the two links of every interior
    element, walking through the exchanged [prev] links. *)
Definition swap_links (e : ptr) : LM unit :=
  x ← load e; store e (mk_elem (next x) (prev x)).

Fixpoint list_reverse_loop (fuel : nat) (L : klist) (e : ptr) : LM unit :=
  if decide (e = list_end L) then mret tt
  else match fuel with
       | O => st_fail OutOfFuel
       | S fuel => swap_links e;; e' ← get_prev e; list_reverse_loop fuel L e'
       end.

Definition list_reverse (L : klist) : LM unit :=
  emp ← list_empty L;
  if emp : bool then mret tt
  else
    e ← list_begin L; m ← st_get; list_reverse_loop (size m) L e;;
    hn ← get_next (Some (head L)); tp ← get_prev (Some (tail L));
    set_next (Some (head L)) tp;; set_prev (Some (tail L)) hn;;
    hn ← get_next (Some (head L)); tp ← get_prev (Some (tail L));
    a ← get_prev hn; b ← get_next tp;
    set_prev hn b;; set_next tp a.

(** The functions that take a comparison.  [less] is the C callback with its
    auxiliary data; it reads the structures that contain the elements, so a
    null argument is a fault. *)
Section less.
Context (less : loc → loc → bool).

Definition call_less (a b : ptr) : LM bool :=
  match a, b with Some x, Some y => mret (less x y) | _, _ => st_fail BadPointer end.

Fixpoint is_sorted_loop (fuel : nat) (a b : ptr) : LM bool :=
  a ← list_next a;
  if decide (a = b) then mret true
  else match fuel with
       | O => st_fail OutOfFuel
       | S fuel => p ← list_prev a; c ← call_less a p;
                   if c : bool then mret false else is_sorted_loop fuel a b
       end.

Definition is_sorted (a b : ptr) : LM bool :=
  if decide (a = b) then mret true
  else m ← st_get; is_sorted_loop (size m) a b.

Fixpoint find_end_loop (fuel : nat) (a b : ptr) : LM ptr :=
  a ← list_next a;
  if decide (a = b) then mret a
  else p ← list_prev a; c ← call_less a p;
       if c : bool then mret a
       else match fuel with
            | O => st_fail OutOfFuel
            | S fuel => find_end_loop fuel a b
            end.

Definition find_end_of_run (a b : ptr) : LM ptr :=
  st_assert (bool_decide (a ≠ None));; st_assert (bool_decide (b ≠ None));;
  st_assert (bool_decide (a ≠ b));;
  m ← st_get; find_end_loop (size m) a b.

Fixpoint inplace_merge_loop (fuel : nat) (a0 a1b0 b1 : ptr) : LM unit :=
  if decide (a0 ≠ a1b0 ∧ a1b0 ≠ b1) then
    match fuel with
    | O => st_fail OutOfFuel
    | S fuel =>
        c ← call_less a1b0 a0;
        if negb c then a0 ← list_next a0; inplace_merge_loop fuel a0 a1b0 b1
        else a1b0 ← list_next a1b0;
             p ← list_prev a1b0;
             list_splice a0 p a1b0;;
             inplace_merge_loop fuel a0 a1b0 b1
    end
  else mret tt.

Definition inplace_merge (a0 a1b0 b1 : ptr) : LM unit :=
  st_assert (bool_decide (a0 ≠ None));; st_assert (bool_decide (a1b0 ≠ None));;
  st_assert (bool_decide (b1 ≠ None));;
  s1 ← is_sorted a0 a1b0; st_assert s1;;
  s2 ← is_sorted a1b0 b1; st_assert s2;;
  m ← st_get; inplace_merge_loop (size m) a0 a1b0 b1.

(** One pass of [list_sort] from run start [a0]; returns [output_run_cnt]. *)
Fixpoint list_sort_pass (fuel : nat) (L : klist) (a0 : ptr) (cnt : nat) : LM nat :=
  if decide (a0 = list_end L) then mret cnt
  else match fuel with
  | O => st_fail OutOfFuel
  | S fuel =>
      let cnt := S cnt in
      a1b0 ← find_end_of_run a0 (list_end L);
      if decide (a1b0 = list_end L) then mret cnt
      else
        b1 ← find_end_of_run a1b0 (list_end L);
        inplace_merge a0 a1b0 b1;;
        list_sort_pass fuel L b1 cnt
  end.

Fixpoint list_sort_loop (fuel : nat) (L : klist) : LM unit :=
  match fuel with
  | O => st_fail OutOfFuel
  | S fuel =>
      b ← list_begin L; m ← st_get;
      output_run_cnt ← list_sort_pass (size m) L b 0;
      if decide (1 < output_run_cnt) then list_sort_loop fuel L else mret tt
  end.

Definition list_sort (L : klist) : LM unit :=
  m ← st_get; list_sort_loop (size m) L;;
  b ← list_begin L; s ← is_sorted b (list_end L); st_assert s.

Fixpoint insert_ordered_loop (fuel : nat) (L : klist) (elem e : ptr) : LM ptr :=
  if decide (e = list_end L) then mret e
  else match fuel with
       | O => st_fail OutOfFuel
       | S fuel => c ← call_less elem e;
                   if c : bool then mret e
                   else e' ← list_next e; insert_ordered_loop fuel L elem e'
       end.

Definition list_insert_ordered (L : klist) (elem : ptr) : LM unit :=
  st_assert (bool_decide (elem ≠ None));;
  b ← list_begin L; m ← st_get;
  e ← insert_ordered_loop (size m) L elem b;
  list_insert e elem.

Fixpoint list_unique_loop (fuel : nat) (L : klist) (duplicates : option klist)
    (elem : ptr) : LM unit :=
  next ← list_next elem;
  if decide (next = list_end L) then mret tt
  else match fuel with
  | O => st_fail OutOfFuel
  | S fuel =>
      c1 ← call_less elem next; c2 ← call_less next elem;
      if negb c1 && negb c2 then
        list_remove next;;
        match duplicates with Some D => list_push_back D next | None => mret tt end;;
        list_unique_loop fuel L duplicates elem
      else list_unique_loop fuel L duplicates next
  end.

Definition list_unique (L : klist) (duplicates : option klist) : LM unit :=
  emp ← list_empty L;
  if emp : bool then mret tt
  else e ← list_begin L; m ← st_get; list_unique_loop (size m) L duplicates e.

(** The loops of [list_max] and [list_min]; [pick] says whether [e]
    replaces the element kept so far. *)
Fixpoint extremum_loop (pick : ptr → ptr → LM bool) (fuel : nat) (L : klist)
    (best e : ptr) : LM ptr :=
  if decide (e = list_end L) then mret best
  else match fuel with
       | O => st_fail OutOfFuel
       | S fuel => c ← pick best e; e' ← list_next e;
                   extremum_loop pick fuel L (if c : bool then e else best) e'
       end.

Definition list_max (L : klist) : LM ptr :=
  max ← list_begin L;
  if decide (max = list_end L) then mret max
  else e ← list_next max; m ← st_get;
       extremum_loop (λ max e, call_less max e) (size m) L max e.

Definition list_min (L : klist) : LM ptr :=
  min ← list_begin L;
  if decide (min = list_end L) then mret min
  else e ← list_next min; m ← st_get;
       extremum_loop (λ min e, call_less e min) (size m) L min e.
End less.

(** ** The links of a memory *)

Definition nxt (m : mem) (l : loc) : ptr := m !! l ≫= next.
Definition prv (m : mem) (l : loc) : ptr := m !! l ≫= prev.
Definition valid (m : mem) (l : loc) : Prop := is_Some (m !! l).
Definition upd_next (l : loc) (v : ptr) (m : mem) : mem := alter (λ e, mk_elem (prev e) v) l m.
Definition upd_prev (l : loc) (v : ptr) (m : mem) : mem := alter (λ e, mk_elem v (next e)) l m.

(** [chain m C]: the elements of [C] are linked to each other in both
    directions. *)
Fixpoint chain (m : mem) (C : list loc) : Prop :=
  match C with
  | a :: ((b :: _) as r) => nxt m a = Some b ∧ prv m b = Some a ∧ chain m r
  | _ => True
  end.

(** [lrep m L xs]: in [m], the list [L] holds exactly the elements [xs], in
    this order. *)
Record lrep (m : mem) (L : klist) (xs : list loc) : Prop := {
  lrep_nodup : NoDup (head L :: xs ++ [tail L]);
  lrep_chain : chain m (head L :: xs ++ [tail L]);
  lrep_valid : Forall (valid m) (head L :: xs ++ [tail L]);
  lrep_head : prv m (head L) = None;
  lrep_tail : nxt m (tail L) = None
}.

(** The two memories agree outside [D]. *)
Definition frame (D : list loc) (m m' : mem) : Prop := ∀ l, l ∉ D → m' !! l = m !! l.

(** The pointer to the first element of the rest [l] of a list, and to the
    last element of its beginning [l]. *)
Definition pos (L : klist) (l : list loc) : ptr := Some (hd (tail L) l).
Definition rpos (L : klist) (l : list loc) : ptr := Some (default (head L) (last l)).

Section links.
Implicit Types (m : mem) (l x y : loc) (v : ptr) (C : list loc).

Lemma nxt_upd_next m l v : valid m l → nxt (upd_next l v m) l = v.
Proof. intros [e E]. unfold nxt, upd_next. by rewrite lookup_alter_eq, E. Qed.
Lemma nxt_upd_next_ne m l l' v : l ≠ l' → nxt (upd_next l v m) l' = nxt m l'.
Proof. intros. unfold nxt, upd_next. by rewrite lookup_alter_ne. Qed.
Lemma prv_upd_prev m l v : valid m l → prv (upd_prev l v m) l = v.
Proof. intros [e E]. unfold prv, upd_prev. by rewrite lookup_alter_eq, E. Qed.
Lemma prv_upd_prev_ne m l l' v : l ≠ l' → prv (upd_prev l v m) l' = prv m l'.
Proof. intros. unfold prv, upd_prev. by rewrite lookup_alter_ne. Qed.
Lemma nxt_upd_prev m l l' v : nxt (upd_prev l v m) l' = nxt m l'.
Proof.
  unfold nxt, upd_prev. destruct (decide (l = l')) as [->|].
  - rewrite lookup_alter_eq. by destruct (m !! l').
  - by rewrite lookup_alter_ne.
Qed.
Lemma prv_upd_next m l l' v : prv (upd_next l v m) l' = prv m l'.
Proof.
  unfold prv, upd_next. destruct (decide (l = l')) as [->|].
  - rewrite lookup_alter_eq. by destruct (m !! l').
  - by rewrite lookup_alter_ne.
Qed.
Lemma valid_upd_next m l l' v : valid (upd_next l v m) l' ↔ valid m l'.
Proof. unfold valid, upd_next. by rewrite lookup_alter_is_Some. Qed.
Lemma valid_upd_prev m l l' v : valid (upd_prev l v m) l' ↔ valid m l'.
Proof. unfold valid, upd_prev. by rewrite lookup_alter_is_Some. Qed.

Lemma run_get_next m l : valid m l → get_next (Some l) m = Ok (nxt m l, m).
Proof.
  intros [e E]. unfold get_next, load, nxt, mbind, st_bind. simpl. by rewrite E.
Qed.
Lemma run_get_prev m l : valid m l → get_prev (Some l) m = Ok (prv m l, m).
Proof.
  intros [e E]. unfold get_prev, load, prv, mbind, st_bind. simpl. by rewrite E.
Qed.
Lemma run_set_next m l v : valid m l → set_next (Some l) v m = Ok (tt, upd_next l v m).
Proof.
  intros [e E]. unfold set_next, load, mbind, st_bind. simpl. rewrite E. simpl.
  do 2 f_equal. unfold upd_next. apply map_eq. intros l'.
  rewrite lookup_alter, lookup_insert. case_decide; [subst; by rewrite E | done].
Qed.
Lemma run_set_prev m l v : valid m l → set_prev (Some l) v m = Ok (tt, upd_prev l v m).
Proof.
  intros [e E]. unfold set_prev, load, mbind, st_bind. simpl. rewrite E. simpl.
  do 2 f_equal. unfold upd_prev. apply map_eq. intros l'.
  rewrite lookup_alter, lookup_insert. case_decide; [subst; by rewrite E | done].
Qed.
Lemma run_is_interior m l : valid m l →
  is_interior (Some l) m = Ok (bool_decide (prv m l ≠ None) && bool_decide (nxt m l ≠ None), m).
Proof.
  intros [e E]. unfold is_interior, load, prv, nxt, mbind, st_bind. simpl. by rewrite E.
Qed.
Lemma run_is_tail m l : valid m l →
  is_tail (Some l) m = Ok (bool_decide (prv m l ≠ None) && bool_decide (nxt m l = None), m).
Proof.
  intros [e E]. unfold is_tail, load, prv, nxt, mbind, st_bind. simpl. by rewrite E.
Qed.
Lemma run_is_head m l : valid m l →
  is_head (Some l) m = Ok (bool_decide (prv m l = None) && bool_decide (nxt m l ≠ None), m).
Proof.
  intros [e E]. unfold is_head, load, prv, nxt, mbind, st_bind. simpl. by rewrite E.
Qed.

(** *** Chains *)

Lemma chain_cons m a C : chain m (a :: C) → chain m C.
Proof. destruct C; [done |]. by intros (_ & _ & ?). Qed.

Lemma chain_cons2 m a b C :
  chain m (a :: b :: C) ↔ nxt m a = Some b ∧ prv m b = Some a ∧ chain m (b :: C).
Proof. done. Qed.

Lemma chain_app m C1 a b C2 :
  chain m ((C1 ++ [a]) ++ (b :: C2)) ↔
  chain m (C1 ++ [a]) ∧ nxt m a = Some b ∧ prv m b = Some a ∧ chain m (b :: C2).
Proof.
  induction C1 as [|x C1 IH]; simpl.
  - tauto.
  - destruct C1 as [|y C1]; simpl in *; tauto.
Qed.

Lemma chain_app_l m C1 C2 : chain m (C1 ++ C2) → chain m C1.
Proof.
  induction C1 as [|x [|y C1] IH]; simpl; [done..|]. intros (? & ? & H).
  split_and!; [done..|]. by apply IH.
Qed.

Lemma chain_app_r m C1 C2 : chain m (C1 ++ C2) → chain m C2.
Proof. induction C1 as [|x C1 IH]; [done |]. intros H%chain_cons. by apply IH. Qed.

Lemma chain_upd_next_notin m C x v : x ∉ C → chain m C → chain (upd_next x v m) C.
Proof.
  induction C as [|a [|b C] IH]; [done..|]. intros Hx (H1 & H2 & H3). simpl.
  rewrite prv_upd_next, nxt_upd_next_ne by set_solver. split_and!; [done..|].
  apply IH; [set_solver | done].
Qed.

Lemma chain_upd_next m C a v : NoDup (C ++ [a]) →
  chain m (C ++ [a]) → chain (upd_next a v m) (C ++ [a]).
Proof.
  induction C as [|x C IH]; [done |]. intros [Hx Hn]%NoDup_cons Hc.
  destruct C as [|y C]; simpl in *.
  - rewrite prv_upd_next, nxt_upd_next_ne by set_solver. tauto.
  - rewrite prv_upd_next, nxt_upd_next_ne by set_solver. naive_solver.
Qed.

Lemma chain_upd_prev_notin m C x v : x ∉ C → chain m C → chain (upd_prev x v m) C.
Proof.
  induction C as [|a [|b C] IH]; [done..|]. intros Hx (H1 & H2 & H3). simpl.
  rewrite nxt_upd_prev, prv_upd_prev_ne by set_solver. split_and!; [done..|].
  apply IH; [set_solver | done].
Qed.

Lemma chain_upd_prev m b C v : NoDup (b :: C) → chain m (b :: C) → chain (upd_prev b v m) (b :: C).
Proof.
  destruct C as [|c C]; [done |]. intros [Hb Hn]%NoDup_cons (H1 & H2 & H3).
  change (nxt (upd_prev b v m) b = Some c ∧ prv (upd_prev b v m) c = Some b ∧
    chain (upd_prev b v m) (c :: C)).
  rewrite nxt_upd_prev, prv_upd_prev_ne by set_solver. split_and!; [done..|].
  by apply chain_upd_prev_notin.
Qed.

Lemma frame_refl D m : frame D m m.
Proof. done. Qed.
Lemma frame_trans D m1 m2 m3 : frame D m1 m2 → frame D m2 m3 → frame D m1 m3.
Proof. unfold frame. intros. rewrite <-H by done. auto. Qed.
Lemma frame_mono D D' m m' : D ⊆ D' → frame D m m' → frame D' m m'.
Proof. unfold frame. intros. apply H0. set_solver. Qed.
Lemma frame_upd_next D m x v : x ∈ D → frame D m (upd_next x v m).
Proof. intros ? l Hl. unfold upd_next. rewrite lookup_alter_ne; [done |]. by intros ->. Qed.
Lemma frame_upd_prev D m x v : x ∈ D → frame D m (upd_prev x v m).
Proof. intros ? l Hl. unfold upd_prev. rewrite lookup_alter_ne; [done |]. by intros ->. Qed.
End links.

#[export] Hint Rewrite nxt_upd_prev prv_upd_next : pintos.

(** ** Walking a well-formed list *)

Section walk.
Implicit Types (m : mem) (L : klist) (xs l k : list loc) (x e a b : loc).

Lemma pos_cons L x l : pos L (x :: l) = Some x.
Proof. done. Qed.

Lemma pos_app L l1 l2 : l1 ≠ [] → pos L (l1 ++ l2) = pos L l1.
Proof. by destruct l1. Qed.

(** The list around the boundary between [l1] and [l2]. *)
Lemma boundary L l1 l2 :
  ∃ k1 a b k2, head L :: l1 = k1 ++ [a] ∧ l2 ++ [tail L] = b :: k2 ∧
    rpos L l1 = Some a ∧ pos L l2 = Some b ∧
    head L :: (l1 ++ l2) ++ [tail L] = (k1 ++ [a]) ++ (b :: k2) ∧
    (k1 = [] ↔ l1 = []) ∧ (k2 = [] ↔ l2 = []).
Proof.
  unfold rpos, pos.
  assert (∃ k1 a, head L :: l1 = k1 ++ [a] ∧ default (head L) (last l1) = a ∧ (k1 = [] ↔ l1 = []))
    as (k1 & a & E1 & -> & N1).
  { destruct l1 as [|a l1 _] using rev_ind; [by exists [], (head L) |].
    exists (head L :: l1), a. rewrite last_snoc. split_and!; [done..|].
    split; [done |]. by intros [_ ?]%app_nil. }
  assert (∃ b k2, l2 ++ [tail L] = b :: k2 ∧ hd (tail L) l2 = b ∧ (k2 = [] ↔ l2 = []))
    as (b & k2 & E2 & -> & N2).
  { destruct l2 as [|b l2]; [by exists (tail L), [] |].
    exists b, (l2 ++ [tail L]). split_and!; [done..|].
    split; [by intros [_ ?]%app_nil | done]. }
  exists k1, a, b, k2. split_and!; [done..| | done | done].
  by rewrite <-E1, <-E2, <-(assoc_L (++) l1).
Qed.

Lemma lrep_boundary m L l1 l2 a b :
  lrep m L (l1 ++ l2) → rpos L l1 = Some a → pos L l2 = Some b →
  nxt m a = Some b ∧ prv m b = Some a ∧ valid m a ∧ valid m b.
Proof.
  intros [Hn Hc Hv _ _] Ha Hb.
  destruct (boundary L l1 l2) as (k1 & a' & b' & k2 & _ & _ & Ha' & Hb' & E & _).
  rewrite E in Hc, Hv. simplify_eq. apply chain_app in Hc as (_ & ? & ? & _).
  apply Forall_app in Hv as [[_ [? _]%Forall_cons]%Forall_app [? _]%Forall_cons]. done.
Qed.

(** The element a position points at: either the tail sentinel, or interior. *)
Lemma lrep_cell m L l1 x l2 :
  lrep m L (l1 ++ (x :: l2)) →
  valid m x ∧ prv m x = rpos L l1 ∧ nxt m x = pos L l2.
Proof.
  intros H. destruct (lrep_boundary m L l1 (x :: l2) (default (head L) (last l1)) x H)
    as (_ & H2 & _ & H3); [done..|].
  rewrite cons_middle, (assoc_L (++)) in H.
  destruct (lrep_boundary m L (l1 ++ [x]) l2 x (hd (tail L) l2) H) as (H1 & _ & _ & _);
    [unfold rpos; by rewrite last_snoc | done |].
  by rewrite H1, H2.
Qed.

Lemma lrep_tail_cell m L xs :
  lrep m L xs → valid m (tail L) ∧ prv m (tail L) = rpos L xs ∧ nxt m (tail L) = None.
Proof.
  intros H. pose proof H as [_ _ _ _ Ht]. rewrite <-(app_nil_r xs) in H.
  destruct (lrep_boundary m L xs [] (default (head L) (last xs)) (tail L) H)
    as (_ & H2 & _ & H3); [done..|].
  by rewrite H2.
Qed.

Lemma lrep_head_cell m L xs :
  lrep m L xs → valid m (head L) ∧ nxt m (head L) = pos L xs ∧ prv m (head L) = None.
Proof.
  intros H. pose proof H as [_ _ _ Hh _].
  destruct (lrep_boundary m L [] xs (head L) (hd (tail L) xs) H) as (H1 & _ & H3 & _); [done..|].
  by rewrite H1.
Qed.

Lemma pos_eq_end m L l1 l2 : lrep m L (l1 ++ l2) → pos L l2 = list_end L ↔ l2 = [].
Proof.
  intros [Hn _ _ _ _]. split; [| by intros ->].
  destruct l2 as [|x l2]; [done |]. unfold pos, list_end. simpl. intros [= ->].
  exfalso. apply NoDup_cons in Hn as [_ (_ & Hn & _)%NoDup_app].
  eapply Hn; [apply elem_of_app; right; left | left].
Qed.

(** Positions of two different suffixes differ. *)
Lemma pos_eq m L l1 l2 l3 :
  lrep m L (l1 ++ l2 ++ l3) → pos L (l2 ++ l3) = pos L l3 ↔ l2 = [].
Proof.
  intros H. split; [| by intros ->]. destruct l2 as [|x l2]; [done |]. intros E. exfalso.
  destruct l3 as [|y l3].
  - rewrite app_nil_r in *. change (pos L []) with (list_end L) in E.
    by apply (pos_eq_end _ _ _ _ H) in E.
  - injection E as ->. destruct H as [Hn _ _ _ _].
    apply NoDup_cons in Hn as [_ Hn]. apply NoDup_app in Hn as [Hn _].
    apply NoDup_app in Hn as (_ & _ & Hn). apply NoDup_cons in Hn as [Hn _].
    apply Hn, elem_of_app. right. left.
Qed.

Lemma run_begin m L xs : lrep m L xs → list_begin L m = Ok (pos L xs, m).
Proof.
  intros (? & E & _)%lrep_head_cell. unfold list_begin. by rewrite run_get_next, E.
Qed.

Lemma run_empty m L xs :
  lrep m L xs → list_empty L m = Ok (bool_decide (xs = []), m).
Proof.
  intros H. unfold list_empty, mbind, st_bind. rewrite (run_begin _ _ _ H).
  unfold mret, st_ret. do 2 f_equal. apply bool_decide_ext. by apply (pos_eq_end m L []).
Qed.

Lemma run_next m L l1 x l2 :
  lrep m L (l1 ++ (x :: l2)) → list_next (Some x) m = Ok (pos L l2, m).
Proof.
  intros (Hv & Hp & Hn)%lrep_cell. unfold list_next, mbind, st_bind.
  rewrite run_is_head, run_is_interior by done. rewrite Hp, Hn. simpl.
  by rewrite run_get_next, Hn.
Qed.

Lemma run_prev m L l1 l2 :
  lrep m L (l1 ++ l2) → list_prev (pos L l2) m = Ok (rpos L l1, m).
Proof.
  intros H. unfold list_prev, mbind, st_bind. destruct l2 as [|x l2].
  - rewrite app_nil_r in H. apply lrep_tail_cell in H as (Hv & Hp & Hn).
    unfold pos; simpl. rewrite run_is_interior, run_is_tail by done.
    rewrite Hp, Hn. simpl. by rewrite run_get_prev, Hp.
  - apply lrep_cell in H as (Hv & Hp & Hn). unfold pos at 1 2 3; simpl.
    rewrite run_is_interior, run_is_tail by done. rewrite Hp, Hn. simpl.
    by rewrite run_get_prev, Hp.
Qed.

(** The check [is_interior (p) || is_tail (p)] passes at every position. *)
Lemma run_before_check {B} m L l1 l2 (k : LM B) :
  lrep m L (l1 ++ l2) →
  (i ← is_interior (pos L l2); t ← is_tail (pos L l2); st_assert (i || t);; k) m = k m.
Proof.
  intros H. unfold mbind, st_bind. destruct l2 as [|x l2].
  - rewrite app_nil_r in H. apply lrep_tail_cell in H as (Hv & Hp & Hn).
    unfold pos; simpl. rewrite run_is_interior, run_is_tail by done. by rewrite Hp, Hn.
  - apply lrep_cell in H as (Hv & Hp & Hn). unfold pos at 1 2; simpl.
    rewrite run_is_interior, run_is_tail by done. by rewrite Hp, Hn.
Qed.

Lemma lrep_size m L xs : lrep m L xs → length xs + 2 ≤ size m.
Proof.
  intros [Hn _ Hv _ _].
  assert (list_to_set (head L :: xs ++ [tail L]) ⊆ dom m) as Hs.
  { intros x. rewrite elem_of_list_to_set. intros Hx.
    apply elem_of_dom. by eapply Forall_forall in Hv. }
  apply subseteq_size in Hs. rewrite size_list_to_set, size_dom in Hs by done.
  simpl in Hs. rewrite length_app in Hs. simpl in Hs. lia.
Qed.

Lemma lrep_frame m m' L xs :
  lrep m L xs → (∀ x, x ∈ head L :: xs ++ [tail L] → m' !! x = m !! x) → lrep m' L xs.
Proof.
  intros [Hn Hc Hv Hh Ht] Heq. split; [done | | | |].
  - clear Hn Hv Hh Ht. revert Heq Hc. generalize (head L :: xs ++ [tail L]).
    induction l as [|a [|b l] IH]; [done..|]. intros Heq (H1 & H2 & H3).
    rewrite chain_cons2. unfold nxt, prv in *. rewrite !Heq by (left || (right; left)).
    split_and!; [done..|]. apply IH; [| done]. intros. apply Heq. by right.
  - eapply Forall_forall. intros x Hx. unfold valid. rewrite Heq by done.
    by eapply Forall_forall in Hv.
  - unfold prv. rewrite Heq by left. done.
  - unfold nxt. rewrite Heq; [done |]. rewrite app_comm_cons. apply elem_of_app. right. left.
Qed.
End walk.

(** ** The primitive operations that relink *)

Ltac solve_valid := repeat (rewrite valid_upd_next || rewrite valid_upd_prev); done.

Ltac solve_upd := repeat first
  [ rewrite nxt_upd_prev | rewrite prv_upd_next
  | rewrite nxt_upd_next by solve_valid
  | rewrite prv_upd_prev by solve_valid
  | rewrite nxt_upd_next_ne by congruence
  | rewrite prv_upd_prev_ne by congruence ]; done.

Ltac solve_chain := repeat first
  [ done
  | apply chain_upd_next_notin; [done |]
  | apply chain_upd_prev_notin; [done |]
  | apply chain_upd_next; [done |]
  | apply chain_upd_prev; [done |] ].

Ltac solve_frame := repeat
  (eapply frame_trans; [| first [apply frame_upd_prev; done | apply frame_upd_next; done]]);
  apply frame_refl.

Section relink.
Implicit Types (m : mem) (L : klist) (xs l k : list loc) (x e a b : loc).

Lemma Forall_valid_upd_prev m l x v : Forall (valid m) l → Forall (valid (upd_prev x v m)) l.
Proof. intros H. eapply Forall_impl; [done |]. intros z. by rewrite valid_upd_prev. Qed.
Lemma Forall_valid_upd_next m l x v : Forall (valid m) l → Forall (valid (upd_next x v m)) l.
Proof. intros H. eapply Forall_impl; [done |]. intros z. by rewrite valid_upd_next. Qed.

#[local] Hint Resolve Forall_valid_upd_prev Forall_valid_upd_next : core.

Lemma lrep_elems m L xs x : lrep m L xs → x ∈ xs → x ≠ head L ∧ x ≠ tail L.
Proof.
  intros [Hn _ _ _ _] Hx. apply NoDup_cons in Hn as [H1 (_ & H2 & _)%NoDup_app].
  split; [set_solver |]. intros ->. apply (H2 _ Hx). left.
Qed.

Lemma NoDup_boundary k1 a b k2 :
  NoDup ((k1 ++ [a]) ++ (b :: k2)) →
  NoDup (k1 ++ [a]) ∧ NoDup (b :: k2) ∧ a ≠ b ∧ (b ∉ k1 ++ [a]) ∧ (a ∉ b :: k2).
Proof.
  intros (H1 & H2 & H3)%NoDup_app.
  assert (a ∉ b :: k2) as Ha by (apply H2, elem_of_app; right; left).
  split_and!; [done | done | by intros ->; apply Ha; left | | done].
  intros Hb. apply (H2 _ Hb). left.
Qed.

Lemma not_elem_boundary e k1 a b k2 :
  e ∉ (k1 ++ [a]) ++ (b :: k2) → (e ∉ k1 ++ [a]) ∧ (e ∉ b :: k2) ∧ e ≠ a ∧ e ≠ b.
Proof.
  intros [H1 H2]%not_elem_of_app. split_and!; [done..| |].
  - intros ->. apply H1, elem_of_app. right. left.
  - intros ->. apply H2. left.
Qed.

(** The sentinels are on their side of the boundary. *)
Lemma sentinels_boundary L l1 l2 k1 a b k2 :
  head L :: l1 = k1 ++ [a] → l2 ++ [tail L] = b :: k2 →
  (head L ∈ k1 ++ [a]) ∧ (tail L ∈ b :: k2).
Proof.
  intros <- <-. split; [left |]. apply elem_of_app. right. left.
Qed.

Lemma insert_correct m L l1 l2 e :
  lrep m L (l1 ++ l2) → valid m e → e ∉ head L :: (l1 ++ l2) ++ [tail L] →
  ∃ m', list_insert (pos L l2) (Some e) m = Ok (tt, m') ∧
    lrep m' L (l1 ++ (e :: l2)) ∧ frame (e :: head L :: (l1 ++ l2) ++ [tail L]) m m'.
Proof.
  intros H Hve He.
  destruct (boundary L l1 l2) as (k1 & a & b & k2 & E1 & E2 & Ha & Hb & E & _).
  destruct (lrep_boundary m L l1 l2 a b H Ha Hb) as (Hab & Hba & Hva & Hvb).
  destruct (sentinels_boundary _ _ _ _ _ _ _ E1 E2) as [Sh St].
  exists (upd_prev b (Some e) (upd_next a (Some e)
           (upd_next e (Some b) (upd_prev e (Some a) m)))).
  pose proof H as [Hn Hc Hv Hh Ht]. rewrite E in Hn, Hc, Hv, He |- *.
  pose proof (NoDup_boundary _ _ _ _ Hn) as (Hn1 & Hn2 & Hneq & Hb1 & Ha2).
  destruct (not_elem_boundary _ _ _ _ _ He) as (He1 & He2 & Hea & Heb).
  assert (head L ≠ e ∧ head L ≠ b) as [? ?] by (split; intros Eq; rewrite Eq in Sh; done).
  assert (tail L ≠ e ∧ tail L ≠ a) as [? ?] by (split; intros Eq; rewrite Eq in St; done).
  apply chain_app in Hc as (Hc1 & _ & _ & Hc2). split_and!.
  - unfold list_insert. rewrite (run_before_check _ L l1 l2) by done.
    rewrite Hb. unfold mbind, st_bind, st_assert, st_lift. simpl.
    rewrite run_get_prev, Hba, run_set_prev, run_set_next, run_get_prev by solve_valid.
    replace (prv _ b) with (Some a) by (symmetry; solve_upd).
    by rewrite run_set_next, run_set_prev by solve_valid.
  - assert (head L :: (l1 ++ e :: l2) ++ [tail L] = (k1 ++ [a]) ++ (e :: b :: k2)) as E'.
    { rewrite <-E1, <-E2. simpl. by rewrite <-(assoc_L (++)). }
    split; rewrite ?E'; [| | | solve_upd..].
    + apply NoDup_app in Hn as (_ & Hd & _). apply NoDup_app. split_and!; [done | |].
      * intros z Hz. apply not_elem_of_cons. split; [by intros -> | by apply Hd].
      * by apply NoDup_cons.
    + apply chain_app. split_and!; [solve_chain | solve_upd | solve_upd |].
      apply chain_cons2. split_and!; [solve_upd | solve_upd | solve_chain].
    + rewrite Forall_app in Hv |- *. rewrite (Forall_cons _ e). destruct Hv.
      split_and!; auto 10. solve_valid.
  - assert (a ∈ e :: (k1 ++ [a]) ++ b :: k2) by (clear; set_solver).
    assert (b ∈ e :: (k1 ++ [a]) ++ b :: k2) by (clear; set_solver).
    assert (e ∈ e :: (k1 ++ [a]) ++ b :: k2) by left. solve_frame.
Qed.

Lemma remove_correct m L l1 x l2 :
  lrep m L (l1 ++ (x :: l2)) →
  ∃ m', list_remove (Some x) m = Ok (pos L l2, m') ∧
    lrep m' L (l1 ++ l2) ∧ m' !! x = m !! x ∧
    frame (head L :: (l1 ++ l2) ++ [tail L]) m m'.
Proof.
  intros H. pose proof (lrep_cell _ _ _ _ _ H) as (Hvx & Hpx & Hnx).
  destruct (boundary L l1 l2) as (k1 & a & b & k2 & E1 & E2 & Ha & Hb & E & _).
  destruct (sentinels_boundary _ _ _ _ _ _ _ E1 E2) as [Sh St].
  rewrite Ha in Hpx. rewrite Hb in Hnx.
  assert (head L :: (l1 ++ x :: l2) ++ [tail L] = (k1 ++ [a]) ++ (x :: b :: k2)) as E'.
  { rewrite <-E1, <-E2. simpl. by rewrite <-(assoc_L (++)). }
  exists (upd_prev b (Some a) (upd_next a (Some b) m)).
  destruct H as [Hn Hc Hv Hh Ht]. rewrite E' in Hn, Hc, Hv. rewrite E, Hb.
  assert ((x ∉ (k1 ++ [a]) ++ (b :: k2)) ∧ NoDup ((k1 ++ [a]) ++ (b :: k2))) as [Hx Hn'].
  { apply NoDup_app_elem in Hn as (? & ? & ?). by rewrite not_elem_of_app. }
  pose proof (NoDup_boundary _ _ _ _ Hn') as (Hn1 & Hn2 & Hneq & Hb1 & Ha2).
  destruct (not_elem_boundary _ _ _ _ _ Hx) as (Hx1 & Hx2 & Hxa & Hxb).
  rewrite Forall_app, !Forall_cons in Hv. destruct Hv as (Hv1 & _ & Hvb & Hv2).
  assert (valid m a) as Hva by (by apply Forall_app in Hv1 as [_ [? _]%Forall_cons]).
  assert (head L ≠ b) by (intros Eq; rewrite Eq in Sh; done).
  assert (tail L ≠ a) by (intros Eq; rewrite Eq in St; done).
  apply chain_app in Hc as (Hc1 & _ & _ & Hc2%chain_cons). split_and!.
  - unfold list_remove, mbind, st_bind, st_assert, st_lift.
    rewrite run_is_interior, Hpx, Hnx by done. simpl.
    rewrite run_get_prev, Hpx, run_get_next, Hnx, run_set_next, run_get_next by solve_valid.
    replace (nxt _ x) with (Some b) by (symmetry; solve_upd).
    rewrite run_get_prev, prv_upd_next, Hpx, run_set_prev, run_get_next by solve_valid.
    do 2 f_equal. solve_upd.
  - split; rewrite ?E; [done | | | solve_upd..].
    + apply chain_app. split_and!; [solve_chain | solve_upd | solve_upd | solve_chain].
    + rewrite Forall_app, Forall_cons. split_and!; auto 10. solve_valid.
  - unfold upd_prev, upd_next. by rewrite !lookup_alter_ne by congruence.
  - assert (a ∈ (k1 ++ [a]) ++ b :: k2) by (clear; set_solver).
    assert (b ∈ (k1 ++ [a]) ++ b :: k2) by (clear; set_solver). solve_frame.
Qed.
End relink.

(** ** Splicing a range forward within a list *)

Section splice.
#[local] Hint Resolve Forall_valid_upd_prev Forall_valid_upd_next : core.
Implicit Types (m : mem) (L : klist) (xs l k C : list loc) (x e a b : loc).

Lemma chain_join m C1 C2 a b :
  last C1 = Some a → list.head C2 = Some b →
  chain m (C1 ++ C2) ↔ chain m C1 ∧ nxt m a = Some b ∧ prv m b = Some a ∧ chain m C2.
Proof.
  intros (C & ->)%last_Some H. destruct C2 as [|b' C2]; simplify_eq/=.
  apply chain_app.
Qed.

Lemma chain_upd_last m C a v :
  NoDup C → last C = Some a → chain m C → chain (upd_next a v m) C.
Proof. intros Hn (C' & ->)%last_Some. by apply chain_upd_next. Qed.

Lemma chain_upd_first m C a v :
  NoDup C → list.head C = Some a → chain m C → chain (upd_prev a v m) C.
Proof. intros Hn H. destruct C as [|b C]; simplify_eq/=. by apply chain_upd_prev. Qed.

Lemma NoDup_app4 C1 C2 C3 C4 :
  NoDup (C1 ++ C2 ++ C3 ++ C4) →
  (NoDup C1 ∧ NoDup C2 ∧ NoDup C3 ∧ NoDup C4) ∧
  (∀ x, x ∈ C1 → x ∈ C2 → False) ∧ (∀ x, x ∈ C1 → x ∈ C3 → False) ∧
  (∀ x, x ∈ C1 → x ∈ C4 → False) ∧ (∀ x, x ∈ C2 → x ∈ C3 → False) ∧
  (∀ x, x ∈ C2 → x ∈ C4 → False) ∧ (∀ x, x ∈ C3 → x ∈ C4 → False).
Proof. rewrite !NoDup_app. setoid_rewrite elem_of_app. setoid_rewrite elem_of_app. naive_solver. Qed.

Lemma last_elem (l : list loc) x : last l = Some x → x ∈ l.
Proof. intros (l' & ->)%last_Some. apply elem_of_app. right. left. Qed.
Lemma head_elem (l : list loc) x : list.head l = Some x → x ∈ l.
Proof. destruct l; simpl; [done |]. intros [= ->]. left. Qed.

(** The memory after [list_splice] moves the range [F] in front of [A],
    where [p] precedes [A] and [r] follows [F]. *)
Definition spliced m p a1 aN f1 fN r : mem :=
  upd_prev a1 (Some fN) (upd_next p (Some f1) (upd_next fN (Some a1)
    (upd_prev f1 (Some p) (upd_prev r (Some aN) (upd_next aN (Some r) m))))).

Lemma chain_spliced m K A F K' p a1 aN f1 fN r :
  NoDup (K ++ A ++ F ++ K') →
  last K = Some p → list.head A = Some a1 → last A = Some aN →
  list.head F = Some f1 → last F = Some fN → list.head K' = Some r →
  Forall (valid m) (K ++ A ++ F ++ K') →
  chain m (K ++ A ++ F ++ K') → chain (spliced m p a1 aN f1 fN r) (K ++ F ++ A ++ K').
Proof.
  intros Hn Hp Ha1 HaN Hf1 HfN Hr Hv Hc.
  destruct (NoDup_app4 _ _ _ _ Hn) as ((NK & NA & NF & NK') & D1 & D2 & D3 & D4 & D5 & D6).
  assert (∀ C C' : list loc, list.head C = list.head (C ++ C') ∨ C = []) as Hhd
    by (intros [|? ?]; auto).
  assert (list.head (A ++ F ++ K') = Some a1) as HA by (by destruct A; simplify_eq/=).
  assert (list.head (F ++ K') = Some f1) as HF by (by destruct F; simplify_eq/=).
  assert (list.head (F ++ A ++ K') = Some f1) as HF' by (by destruct F; simplify_eq/=).
  assert (list.head (A ++ K') = Some a1) as HA' by (by destruct A; simplify_eq/=).
  apply (chain_join _ _ _ _ _ Hp HA) in Hc as (HcK & _ & _ & Hc).
  apply (chain_join _ _ _ _ _ HaN HF) in Hc as (HcA & _ & _ & Hc).
  apply (chain_join _ _ _ _ _ HfN Hr) in Hc as (HcF & _ & _ & HcK').
  rewrite !Forall_app in Hv. destruct Hv as (VK & VA & VF & VK').
  pose proof (last_elem _ _ Hp) as Ip. pose proof (head_elem _ _ Ha1) as Ia1.
  pose proof (last_elem _ _ HaN) as IaN. pose proof (head_elem _ _ Hf1) as If1.
  pose proof (last_elem _ _ HfN) as IfN. pose proof (head_elem _ _ Hr) as Ir.
  rewrite Forall_forall in VK, VA, VF, VK'.
  assert (valid m p ∧ valid m a1 ∧ valid m aN ∧ valid m f1 ∧ valid m fN ∧ valid m r)
    as (Vp & Va1 & VaN & Vf1 & VfN & Vr) by auto 10.
  assert (p ≠ aN ∧ p ≠ fN ∧ aN ≠ fN ∧ a1 ≠ f1 ∧ a1 ≠ r ∧ f1 ≠ r)
    as (? & ? & ? & ? & ? & ?) by (split_and!; intros ->; eauto).
  assert (f1 ≠ a1 ∧ fN ≠ p ∧ r ≠ a1 ∧ r ≠ f1) as (? & ? & ? & ?) by (split_and!; congruence).
  unfold spliced.
  rewrite (chain_join _ _ _ _ _ Hp HF'), (chain_join _ _ _ _ _ HfN HA'),
    (chain_join _ _ _ _ _ HaN Hr).
  split_and!; try solve_upd;
    repeat first
    [ done
    | apply chain_upd_last; [done | done |]
    | apply chain_upd_first; [done | done |]
    | apply chain_upd_next_notin; [by intros ?; eauto |]
    | apply chain_upd_prev_notin; [by intros ?; eauto |] ].
Qed.

Lemma ends (C : list loc) : C ≠ [] → ∃ h t, list.head C = Some h ∧ last C = Some t.
Proof.
  destruct C as [|h C]; [done |]. intros _.
  destruct (last_is_Some (h :: C)) as [_ [t Ht]]; [done |]. by exists h, t.
Qed.

Lemma lrep_seg m L l1 C l2 h t :
  lrep m L (l1 ++ C ++ l2) → list.head C = Some h → last C = Some t →
  valid m h ∧ valid m t ∧ prv m h = rpos L l1 ∧ nxt m t = pos L l2 ∧
  pos L (C ++ l2) = Some h ∧ rpos L (l1 ++ C) = Some t.
Proof.
  intros H Hh Ht.
  assert (pos L (C ++ l2) = Some h) as Ph by (unfold pos; by destruct C; simplify_eq/=).
  assert (rpos L (l1 ++ C) = Some t) as Pt by (unfold rpos; by rewrite last_app, Ht).
  destruct (lrep_boundary m L l1 (C ++ l2) _ h H eq_refl Ph) as (_ & H1 & _ & H2).
  rewrite (assoc_L (++)) in H.
  destruct (lrep_boundary m L (l1 ++ C) l2 t _ H Pt eq_refl) as (H3 & _ & H4 & _).
  by split_and!.
Qed.

Lemma run_interior m L xs x :
  lrep m L xs → x ∈ xs → is_interior (Some x) m = Ok (true, m).
Proof.
  intros H (l1 & l2 & ->)%list_elem_of_split. apply lrep_cell in H as (Hv & Hp & Hn).
  by rewrite run_is_interior, Hp, Hn.
Qed.

Lemma splice_correct m L P A F R :
  lrep m L (P ++ A ++ F ++ R) → A ≠ [] → F ≠ [] →
  ∃ m', list_splice (pos L (A ++ F ++ R)) (pos L (F ++ R)) (pos L R) m = Ok (tt, m') ∧
    lrep m' L (P ++ F ++ A ++ R) ∧ frame (head L :: (P ++ A ++ F ++ R) ++ [tail L]) m m'.
Proof.
  intros H NA NF. pose proof H as [Hn Hc Hv Hh Ht].
  destruct (ends A NA) as (a1 & aN & Ha1 & HaN). destruct (ends F NF) as (f1 & fN & Hf1 & HfN).
  destruct (lrep_seg m L P A (F ++ R) a1 aN H Ha1 HaN) as (Va1 & VaN & Pa1 & NaN & PosA & RA).
  pose proof H as H'. rewrite (assoc_L (++)) in H'.
  destruct (lrep_seg m L (P ++ A) F R f1 fN H' Hf1 HfN) as (Vf1 & VfN & Pf1 & NfN & PosF & RF).
  rewrite RA in Pf1. rewrite PosF in NaN.
  assert (∃ p, last (head L :: P) = Some p ∧ rpos L P = Some p) as (p & Hp & Rp).
  { unfold rpos. destruct P as [|? ? _] using rev_ind; [by eexists |].
    rewrite app_comm_cons, !last_snoc. by eexists. }
  assert (∃ r, list.head (R ++ [tail L]) = Some r ∧ pos L R = Some r) as (r & Hr & Rr).
  { destruct R as [|r R]; [by exists (tail L) | by exists r]. }
  rewrite Rp in Pa1. rewrite Rr in NfN.
  assert (head L :: (P ++ A ++ F ++ R) ++ [tail L] =
          (head L :: P) ++ A ++ F ++ R ++ [tail L]) as E
    by (simpl; by rewrite <-!(assoc_L (++))).
  rewrite E in Hn, Hc, Hv |- *.
  pose proof (NoDup_app4 _ _ _ _ Hn) as (_ & D1 & D2 & D3 & D4 & D5 & D6).
  pose proof (last_elem _ _ Hp) as Ip. pose proof (head_elem _ _ Ha1) as Ia1.
  pose proof (last_elem _ _ HaN) as IaN. pose proof (head_elem _ _ Hf1) as If1.
  pose proof (last_elem _ _ HfN) as IfN. pose proof (head_elem _ _ Hr) as Ir.
  assert (valid m p ∧ valid m r) as [Vp Vr].
  { rewrite Forall_forall in Hv. split; apply Hv; [apply elem_of_app; by left |].
    do 3 (apply elem_of_app; right). done. }
  assert (p ≠ aN ∧ p ≠ fN ∧ aN ≠ fN ∧ a1 ≠ f1 ∧ a1 ≠ r ∧ f1 ≠ r ∧ f1 ≠ aN)
    as (? & ? & ? & ? & ? & ? & ?) by (split_and!; intros ->; eauto).
  exists (spliced m p a1 aN f1 fN r). unfold spliced. split_and!.
  - unfold list_splice. rewrite (run_before_check _ L P (A ++ F ++ R)) by done.
    rewrite decide_False by (rewrite PosF, Rr; congruence).
    assert (list_prev (pos L R) m = Ok (Some fN, m)) as Rprev.
    { rewrite <-RF. apply run_prev. by rewrite <-!(assoc_L (++)). }
    rewrite PosA, PosF. unfold mbind, st_bind. rewrite Rprev.
    rewrite (run_interior m L _ f1 H) by (rewrite !elem_of_app; auto). simpl.
    rewrite (run_interior m L _ fN H) by (rewrite !elem_of_app; auto). simpl.
    rewrite run_get_prev, Pf1, run_get_next, NfN, run_set_next, run_get_next by solve_valid.
    replace (nxt _ fN) with (Some r) by (symmetry; solve_upd).
    rewrite run_get_prev, prv_upd_next, Pf1, run_set_prev, run_get_prev by solve_valid.
    replace (prv _ a1) with (Some p) by (symmetry; solve_upd).
    rewrite run_set_prev, run_set_next, run_get_prev by solve_valid.
    replace (prv _ a1) with (Some p) by (symmetry; solve_upd).
    by rewrite run_set_next, run_set_prev by solve_valid.
  - assert (head L :: (P ++ F ++ A ++ R) ++ [tail L] =
            (head L :: P) ++ F ++ A ++ R ++ [tail L]) as E'
      by (simpl; by rewrite <-!(assoc_L (++))).
    assert ((head L :: P) ++ F ++ A ++ R ++ [tail L] ≡ₚ (head L :: P) ++ A ++ F ++ R ++ [tail L])
      as Hperm by (by rewrite (Permutation_app_swap_app F)).
    split; rewrite ?E'.
    + by rewrite Hperm.
    + by apply chain_spliced.
    + rewrite Hperm. auto 10.
    + assert (head L ∈ head L :: P) as Ih by left.
      assert (head L ≠ a1 ∧ head L ≠ f1 ∧ head L ≠ r) as (? & ? & ?)
        by (split_and!; intros Eq; first [solve [eapply D1; [exact Ih | by rewrite Eq]]
          | solve [eapply D2; [exact Ih | by rewrite Eq]]
          | solve [eapply D3; [exact Ih | by rewrite Eq]]]).
      solve_upd.
    + assert (tail L ∈ R ++ [tail L]) as Htl by (apply elem_of_app; right; left).
      assert (tail L ≠ p ∧ tail L ≠ aN ∧ tail L ≠ fN) as (? & ? & ?)
        by (split_and!; intros Eq; first [solve [eapply D3; [| exact Htl]; by rewrite Eq]
          | solve [eapply D5; [| exact Htl]; by rewrite Eq]
          | solve [eapply D6; [| exact Htl]; by rewrite Eq]]).
      solve_upd.
  - assert (∀ x, x ∈ (head L :: P) ∨ x ∈ A ∨ x ∈ F ∨ x ∈ R ++ [tail L] →
      x ∈ (head L :: P) ++ A ++ F ++ R ++ [tail L]) as Hin
      by (intros x; by rewrite !elem_of_app, <-elem_of_app).
    pose proof (Hin p) as I1. pose proof (Hin a1) as I2. pose proof (Hin aN) as I3.
    pose proof (Hin f1) as I4. pose proof (Hin fN) as I5. pose proof (Hin r) as I6.
    specialize (I1 ltac:(auto)). specialize (I2 ltac:(auto)). specialize (I3 ltac:(auto)).
    specialize (I4 ltac:(auto)). specialize (I5 ltac:(auto)). specialize (I6 ltac:(auto)).
    clear - I1 I2 I3 I4 I5 I6. solve_frame.
Qed.
End splice.

(** ** The list functions *)

Section functions.
Implicit Types (m : mem) (L : klist) (xs l k : list loc) (x e a b : loc).

Lemma run_get_first m L l1 l2 : lrep m L (l1 ++ l2) → get_next (rpos L l1) m = Ok (pos L l2, m).
Proof.
  intros H. destruct (lrep_boundary m L l1 l2 _ _ H eq_refl eq_refl) as (Hn & _ & Hv & _).
  unfold rpos. by rewrite run_get_next, Hn.
Qed.

Lemma push_front_correct m L xs e :
  lrep m L xs → valid m e → e ∉ head L :: xs ++ [tail L] →
  ∃ m', list_push_front L (Some e) m = Ok (tt, m') ∧ lrep m' L (e :: xs) ∧
    frame (e :: head L :: xs ++ [tail L]) m m'.
Proof.
  intros H Hv He. destruct (insert_correct m L [] xs e H Hv He) as (m' & E & ? & ?).
  exists m'. split_and!; [| done..]. unfold list_push_front, mbind, st_bind.
  by rewrite (run_begin m L xs H).
Qed.

Lemma push_back_correct m L xs e :
  lrep m L xs → valid m e → e ∉ head L :: xs ++ [tail L] →
  ∃ m', list_push_back L (Some e) m = Ok (tt, m') ∧ lrep m' L (xs ++ [e]) ∧
    frame (e :: head L :: xs ++ [tail L]) m m'.
Proof.
  intros H Hv He. pose proof (insert_correct m L xs [] e) as Hi.
  rewrite app_nil_r in Hi. destruct (Hi H Hv He) as (m' & E & ? & ?). by exists m'.
Qed.

Lemma pop_front_correct m L x xs :
  lrep m L (x :: xs) →
  ∃ m', list_pop_front L m = Ok (Some x, m') ∧ lrep m' L xs ∧ m' !! x = m !! x ∧
    frame (head L :: xs ++ [tail L]) m m'.
Proof.
  intros H. destruct (remove_correct m L [] x xs H) as (m' & E & ? & ? & ?).
  exists m'. split_and!; [| done..].
  unfold list_pop_front, list_front, mbind, st_bind. rewrite (run_empty _ _ _ H). simpl.
  pose proof (run_get_first m L [] (x :: xs) H) as Hg. unfold rpos in Hg; simpl in Hg.
  rewrite Hg. unfold pos; simpl. by rewrite E.
Qed.

Lemma pop_back_correct m L x xs :
  lrep m L (xs ++ [x]) →
  ∃ m', list_pop_back L m = Ok (Some x, m') ∧ lrep m' L xs ∧ m' !! x = m !! x ∧
    frame (head L :: xs ++ [tail L]) m m'.
Proof.
  intros H. destruct (remove_correct m L xs x [] H) as (m' & E & H1 & ? & H2).
  rewrite app_nil_r in H1, H2. exists m'. split_and!; [| done..].
  unfold list_pop_back, list_back, mbind, st_bind. rewrite (run_empty _ _ _ H).
  rewrite bool_decide_false by (by intros [_ ?]%app_nil). simpl.
  apply lrep_tail_cell in H as (Hv & Hp & _). unfold rpos in Hp. rewrite last_snoc in Hp.
  rewrite run_get_prev, Hp by done. simpl. by rewrite E.
Qed.

Lemma size_loop_correct fuel m L l1 l2 cnt :
  lrep m L (l1 ++ l2) → length l2 ≤ fuel →
  list_size_loop fuel L (pos L l2) (u32 cnt) m = Ok (u32 (cnt + Z.of_nat (length l2)), m).
Proof.
  revert l1 l2 cnt. induction fuel as [|fuel IH]; intros l1 l2 cnt H Hf; simpl.
  { destruct l2; [| simpl in *; lia]. rewrite decide_True by done. simpl. by rewrite Z.add_0_r. }
  destruct l2 as [|x l2].
  { rewrite decide_True by done. simpl. by rewrite Z.add_0_r. }
  rewrite decide_False by (by rewrite pos_eq_end).
  unfold mbind, st_bind. unfold pos at 1; simpl. rewrite (run_next _ _ _ _ _ H).
  replace (u32 (u32 cnt + 1)) with (u32 (cnt + 1)) by apply eq_sym, Zplus_mod_idemp_l.
  rewrite cons_middle, (assoc_L (++)) in H. simpl in Hf. rewrite (IH _ _ _ H) by lia.
  do 3 f_equal. simpl. lia.
Qed.

Lemma list_size_correct m L xs : lrep m L xs → list_size L m = Ok (u32 (Z.of_nat (length xs)), m).
Proof.
  intros H. unfold list_size, mbind, st_bind. rewrite (run_begin _ _ _ H). simpl.
  pose proof (lrep_size _ _ _ H). by apply (size_loop_correct _ m L [] xs 0); [| lia].
Qed.
End functions.

(** Weaken a frame fact to a larger set of the same elements. *)
Ltac frame_by F := eapply frame_mono; [| exact F];
  intros ?; repeat (rewrite elem_of_cons || rewrite elem_of_app); tauto.

Section less_functions.
Context (less : loc → loc → bool).
Implicit Types (m : mem) (L : klist) (xs l k : list loc) (x e a b : loc).

Lemma insert_ordered_loop_correct fuel m L l1 l2 e :
  lrep m L (l1 ++ l2) → length l2 ≤ fuel →
  ∃ k1 k2, l2 = k1 ++ k2 ∧ insert_ordered less e l2 = k1 ++ (e :: k2) ∧
    Forall (λ y, less e y = false) k1 ∧ (∀ y, list.head k2 = Some y → less e y = true) ∧
    insert_ordered_loop less fuel L (Some e) (pos L l2) m = Ok (pos L k2, m).
Proof.
  revert l1 l2. induction fuel as [|fuel IH]; intros l1 l2 H Hf; simpl.
  { destruct l2; [| simpl in *; lia]. exists [], []. by rewrite decide_True. }
  destruct l2 as [|x l2].
  { exists [], []. by rewrite decide_True. }
  rewrite decide_False by (by rewrite pos_eq_end). unfold mbind, st_bind; simpl.
  destruct (less e x) eqn:C.
  { exists [], (x :: l2). split_and!; [done..| by intros ? [= <-] | done]. }
  rewrite pos_cons, (run_next _ _ _ _ _ H). rewrite cons_middle, (assoc_L (++)) in H. simpl in Hf.
  destruct (IH _ _ H) as (k1 & k2 & -> & E1 & F1 & F2 & E2); [lia |].
  exists (x :: k1), k2. rewrite E1. split_and!; [done..| by constructor | done | done].
Qed.

Lemma is_sorted_loop_correct fuel m L l1 x l2 l3 :
  lrep m L (l1 ++ (x :: (l2 ++ l3))) → length l2 ≤ fuel →
  is_sorted_loop less fuel (Some x) (pos L l3) m = Ok (sorted_from less x l2, m).
Proof.
  revert l1 x l2. induction fuel as [|fuel IH]; intros l1 x l2 H Hf;
    cbn [is_sorted_loop]; unfold mbind, st_bind; rewrite (run_next _ _ _ _ _ H).
  - destruct l2; [| simpl in *; lia]. by rewrite decide_True.
  - destruct l2 as [|y l2]; [by rewrite decide_True |].
    rewrite cons_middle, (assoc_L (++)) in H.
    pose proof (run_prev _ _ _ _ H) as Hp. unfold rpos in Hp. rewrite last_snoc in Hp.
    rewrite decide_False by (by rewrite (pos_eq m L (l1 ++ [x]) (y :: l2) l3 H)).
    rewrite Hp. simpl. destruct (less y x); [done |].
    apply (IH (l1 ++ [x])); [done | simpl in Hf; lia].
Qed.

Lemma is_sorted_correct m L l1 x l2 l3 :
  lrep m L (l1 ++ (x :: (l2 ++ l3))) →
  is_sorted less (Some x) (pos L l3) m = Ok (sorted_from less x l2, m).
Proof.
  intros H. unfold is_sorted.
  rewrite decide_False by (change (Some x) with (pos L ((x :: l2) ++ l3));
    by rewrite (pos_eq m L l1 (x :: l2) l3 H)).
  unfold mbind, st_bind; simpl. apply is_sorted_loop_correct with (1 := H).
  apply lrep_size in H. rewrite length_app in H. simpl in H. rewrite length_app in H. lia.
Qed.

Lemma find_end_loop_correct fuel m L l1 x l2 :
  lrep m L (l1 ++ (x :: l2)) → length l2 ≤ fuel →
  find_end_loop less fuel (Some x) (list_end L) m = Ok (pos L (split_run less x l2).2, m).
Proof.
  revert l1 x l2. induction fuel as [|fuel IH]; intros l1 x l2 H Hf;
    cbn [find_end_loop]; unfold mbind, st_bind; rewrite (run_next _ _ _ _ _ H).
  - destruct l2; [| simpl in *; lia]. by rewrite decide_True.
  - destruct l2 as [|y l2]; [by rewrite decide_True |].
    rewrite cons_middle, (assoc_L (++)) in H.
    pose proof (run_prev _ _ _ _ H) as Hp. unfold rpos in Hp. rewrite last_snoc in Hp.
    rewrite decide_False by (by rewrite (pos_eq_end m L (l1 ++ [x]) (y :: l2) H)).
    rewrite Hp. simpl. destruct (less y x); [done |]. simpl in Hf. rewrite pos_cons.
    rewrite (IH (l1 ++ [x]) y l2 H) by lia. by destruct (split_run less y l2).
Qed.

Lemma find_end_of_run_correct m L l1 x l2 :
  lrep m L (l1 ++ (x :: l2)) →
  find_end_of_run less (Some x) (list_end L) m = Ok (pos L (split_run less x l2).2, m).
Proof.
  intros H. unfold find_end_of_run, mbind, st_bind, st_assert, st_lift.
  rewrite !bool_decide_true; [| | done..].
  - simpl. apply find_end_loop_correct with (1 := H).
    apply lrep_size in H. rewrite length_app in H. simpl in H. lia.
  - change (Some x) with (pos L (x :: l2)). by rewrite (pos_eq_end m L l1 (x :: l2) H).
Qed.

(** Merging two adjacent ranges [A] and [B]: the elements before and after
    them stay. *)
Lemma inplace_merge_loop_correct fuel m L P A B R :
  lrep m L (P ++ A ++ B ++ R) → length A + length B ≤ fuel →
  ∃ m', inplace_merge_loop less fuel (pos L (A ++ B ++ R)) (pos L (B ++ R)) (pos L R) m
        = Ok (tt, m') ∧
    lrep m' L (P ++ merge_runs less A B ++ R) ∧
    frame (head L :: (P ++ A ++ B ++ R) ++ [tail L]) m m'.
Proof.
  revert m P A B. induction fuel as [|fuel IH]; intros m P A B H Hf.
  { destruct A, B; simpl in *; try lia. exists m. rewrite decide_False by tauto.
    split_and!; [done..| apply frame_refl]. }
  cbn [inplace_merge_loop].
  destruct A as [|x A].
  { rewrite decide_False by tauto. exists m. split_and!; [done | | apply frame_refl].
    by destruct B. }
  destruct B as [|y B].
  { rewrite decide_False by tauto. exists m. split_and!; [done | | apply frame_refl]. done. }
  rewrite decide_True.
  2:{ split.
      - rewrite (pos_eq m L P (x :: A) ((y :: B) ++ R) H). done.
      - rewrite (assoc_L (++)) in H. rewrite (pos_eq m L (P ++ (x :: A)) (y :: B) R H). done. }
  unfold mbind, st_bind. simpl call_less. cbn [mret st_ret].
  change (merge_runs less (x :: A) (y :: B)) with
    (if less y x then y :: merge_runs less (x :: A) B else x :: merge_runs less A (y :: B)).
  destruct (less y x) eqn:C; cbn [negb]; cbv iota beta.
  - (* splice [y] in front of [x] *)
    assert (lrep m L ((P ++ (x :: A)) ++ (y :: (B ++ R)))) as H1 by (by rewrite <-(assoc_L (++))).
    change (pos L ((y :: B) ++ R)) with (Some y).
    rewrite (run_next m L _ y _ H1).
    assert (lrep m L ((P ++ (x :: A) ++ [y]) ++ (B ++ R))) as H2
      by (rewrite <-!(assoc_L (++)); rewrite <-(assoc_L (++)) in H1; done).
    rewrite (run_prev m L _ _ H2).
    replace (rpos L (P ++ (x :: A) ++ [y])) with (pos L ([y] ++ B ++ R))
      by (unfold rpos; by rewrite (assoc_L (++) P (x :: A)), last_snoc).
    destruct (splice_correct m L P (x :: A) [y] (B ++ R)) as (m1 & E1 & Hl1 & F1); [done..|].
    change ((x :: A) ++ (y :: B) ++ R) with ((x :: A) ++ [y] ++ B ++ R).
    rewrite E1.
    destruct (IH m1 (P ++ [y]) (x :: A) B) as (m2 & E2 & Hl2 & F2).
    { by rewrite <-(assoc_L (++)). }
    { simpl in *. lia. }
    exists m2. split_and!.
    + exact E2.
    + by rewrite <-(assoc_L (++)) in Hl2.
    + eapply frame_trans; [exact F1 |]. frame_by F2.
  - change (pos L ((x :: A) ++ (y :: B) ++ R)) with (Some x).
    rewrite (run_next m L P x (A ++ (y :: B) ++ R) H).
    destruct (IH m (P ++ [x]) A (y :: B)) as (m2 & E2 & Hl2 & F2).
    { by rewrite <-(assoc_L (++)). }
    { simpl in *. lia. }
    exists m2. split_and!.
    + exact E2.
    + by rewrite <-(assoc_L (++)) in Hl2.
    + frame_by F2.
Qed.

Lemma frame_perm m m' L xs ys :
  xs ≡ₚ ys → frame (head L :: xs ++ [tail L]) m m' → frame (head L :: ys ++ [tail L]) m m'.
Proof. intros Hp F. eapply frame_mono; [| exact F]. intros z. by rewrite Hp. Qed.

Lemma inplace_merge_correct m L P x A y B R :
  lrep m L (P ++ (x :: A) ++ (y :: B) ++ R) →
  sorted_from less x A = true → sorted_from less y B = true →
  ∃ m', inplace_merge less (Some x) (Some y) (pos L R) m = Ok (tt, m') ∧
    lrep m' L (P ++ merge_runs less (x :: A) (y :: B) ++ R) ∧
    frame (head L :: (P ++ (x :: A) ++ (y :: B) ++ R) ++ [tail L]) m m'.
Proof.
  intros H HA HB. unfold inplace_merge.
  pose proof (is_sorted_correct m L P x A ((y :: B) ++ R) H) as SA.
  assert (lrep m L ((P ++ (x :: A)) ++ (y :: (B ++ R)))) as H' by (by rewrite <-(assoc_L (++))).
  pose proof (is_sorted_correct m L _ y B R H') as SB.
  rewrite HA in SA. rewrite HB in SB. cbn [app pos hd] in SA.
  unfold mbind, st_bind, st_assert, st_lift. rewrite !bool_decide_true by done.
  cbn [assert_that]. change (pos L (y :: (B ++ R))) with (Some y) in SA.
  rewrite SA. cbn [assert_that]. rewrite SB. cbn [assert_that st_get].
  apply (inplace_merge_loop_correct _ m L P (x :: A) (y :: B) R H).
  apply lrep_size in H. rewrite !length_app in H. lia.
Qed.

Context `{!StrictWeak less}.

(** A pass of the sort from the start of a run. *)
Lemma list_sort_pass_correct fuel m L P xs cnt :
  lrep m L (P ++ xs) → length xs ≤ fuel →
  ∃ m', list_sort_pass less fuel L (pos L xs) cnt m
        = Ok (cnt + (sort_pass less fuel xs).1, m') ∧
    lrep m' L (P ++ (sort_pass less fuel xs).2) ∧
    frame (head L :: (P ++ xs) ++ [tail L]) m m'.
Proof.
  revert m P xs cnt. induction fuel as [|fuel IH]; intros m P xs cnt H Hf.
  { destruct xs; [| simpl in *; lia]. exists m. simpl. rewrite decide_True by done.
    rewrite Nat.add_0_r. split_and!; [done..| apply frame_refl]. }
  destruct xs as [|x xs].
  { exists m. simpl. rewrite decide_True, Nat.add_0_r by done.
    split_and!; [done..| apply frame_refl]. }
  cbn [list_sort_pass sort_pass].
  rewrite decide_False by (by rewrite (pos_eq_end m L P (x :: xs) H)).
  unfold mbind, st_bind. rewrite pos_cons, (find_end_of_run_correct m L P x xs H).
  pose proof (split_run_app less x xs) as E1. pose proof (split_run_sorted less x xs) as S1.
  pose proof (split_run_length less x xs) as Len1.
  destruct (split_run less x xs) as [A [|y ys]]; cbn [fst snd] in *.
  { rewrite decide_True by done. exists m. rewrite app_nil_r in E1. subst A.
    replace (cnt + 1) with (S cnt) by lia. split_and!; [done..| apply frame_refl]. }
  subst xs. pose proof H as H1. rewrite app_comm_cons, (assoc_L (++)) in H1.
  rewrite decide_False by (by rewrite (pos_eq_end m L (P ++ (x :: A)) (y :: ys) H1)).
  rewrite pos_cons, (find_end_of_run_correct m L _ y ys H1).
  pose proof (split_run_app less y ys) as E2. pose proof (split_run_sorted less y ys) as S2.
  pose proof (split_run_length less y ys) as Len2.
  destruct (split_run less y ys) as [B R]; cbn [fst snd] in *. subst ys.
  apply sorted_from_spec in S1, S2; [| done..].
  destruct (inplace_merge_correct m L P x A y B R) as (m1 & Em & Hm & Fm); [done..|].
  rewrite Em. rewrite (assoc_L (++)) in Hm.
  destruct (IH m1 _ R (S cnt) Hm) as (m2 & E2 & Hl2 & F2).
  { simpl in *. rewrite !length_app in *. simpl in *. lia. }
  exists m2. split_and!.
  - rewrite E2. do 2 f_equal. lia.
  - by rewrite (assoc_L (++)).
  - eapply frame_trans; [exact Fm |]. eapply frame_perm; [| exact F2].
    rewrite merge_runs_perm. by rewrite <-!(assoc_L (++)).
Qed.

(** The passes of [list_sort], for any number [n] of runs that covers the
    list: they end, and [n] passes are enough. *)
Lemma list_sort_loop_correct fuel n m L xs :
  lrep m L xs → runs less n xs → n ≤ fuel → 0 < fuel →
  ∃ m', list_sort_loop less fuel L m = Ok (tt, m') ∧
    lrep m' L (sort_passes less fuel xs) ∧ frame (head L :: xs ++ [tail L]) m m'.
Proof.
  revert n m xs. induction fuel as [|fuel IH]; intros n m xs H Hk Hf H0; [lia |].
  cbn [list_sort_loop sort_passes]. unfold mbind, st_bind. rewrite (run_begin m L xs H).
  cbn [st_get].
  pose proof (lrep_size m L xs H) as Hsz.
  destruct (list_sort_pass_correct (size m) m L [] xs 0 H) as (m1 & E1 & Hl1 & F1); [lia |].
  rewrite E1, (sort_pass_fuel less (size m) (length xs)) in * by lia.
  destruct (sort_pass_runs less (length xs) n xs) as [Hb Hr]; [done..|].
  pose proof (sort_pass_perm less (length xs) xs) as Hp. cbn [app Nat.add] in *.
  case_decide as Hd; [| by exists m1].
  destruct (IH _ m1 _ Hl1 Hr) as (m2 & E2 & Hl2 & F2); [lia..|].
  exists m2. split_and!; [done..|]. eapply frame_trans; [exact F1 |].
  eapply frame_perm; [exact Hp | exact F2].
Qed.
End less_functions.
