(* ===== verification/KListThm.v ===== *)
(** The contract of lib/kernel/list.c: on a well-formed list, each operation of
    [KList] terminates without a fault and acts on the sequence of elements as
    [ListSpec] says; only the cells of the list (and the element inserted)
    change. *)
From stdpp Require Import sorting.
From S2P Require Import Prelude ListSpec KList.

(** ** Reversal *)

Section reverse.
Implicit Types (m : mem) (L : klist) (xs l k C : list loc) (x e a b : loc).

Definition swapped (e : list_elem) : list_elem := mk_elem (next e) (prev e).

(** The memory after the loop of [list_reverse] has passed [l]. *)
Definition swap_all l m : mem := foldl (λ m x, alter swapped x m) m l.

Lemma swap_all_snoc l x m : swap_all (l ++ [x]) m = alter swapped x (swap_all l m).
Proof. unfold swap_all. by rewrite foldl_app. Qed.

Lemma lookup_swap_all l m x :
  NoDup l → swap_all l m !! x = if decide (x ∈ l) then swapped <$> m !! x else m !! x.
Proof.
  induction l as [|y l IH] using rev_ind; [done |]. intros Hn.
  rewrite swap_all_snoc, lookup_alter. apply NoDup_app in Hn as (Hn & Hy & _).
  destruct (decide (y = x)) as [->|Hyx]; rewrite (IH Hn).
  - rewrite (decide_False (P := x ∈ l)) by (intros Hi; apply (Hy x Hi); left).
    by rewrite decide_True by (apply elem_of_app; right; left).
  - destruct (decide (x ∈ l)).
    + by rewrite decide_True by (apply elem_of_app; by left).
    + rewrite decide_False; [done |].
      intros [?|?%list_elem_of_singleton]%elem_of_app; congruence.
Qed.

Lemma swap_all_in l m x : NoDup l → x ∈ l →
  nxt (swap_all l m) x = prv m x ∧ prv (swap_all l m) x = nxt m x.
Proof.
  intros Hn Hx. unfold nxt, prv. rewrite lookup_swap_all, decide_True by done.
  by destruct (m !! x).
Qed.

Lemma swap_all_out l m x : NoDup l → x ∉ l → swap_all l m !! x = m !! x.
Proof. intros. by rewrite lookup_swap_all, decide_False. Qed.

Lemma valid_swap_all l m x : valid (swap_all l m) x ↔ valid m x.
Proof.
  revert x. induction l as [|y l IH] using rev_ind; [done |]. intros x.
  rewrite swap_all_snoc. unfold valid in *. by rewrite lookup_alter_is_Some.
Qed.

(** Exchanging the links of the elements reverses a chain. *)
Lemma chain_rev m m' C :
  (∀ x, x ∈ C → nxt m' x = prv m x ∧ prv m' x = nxt m x) →
  chain m C → chain m' (reverse C).
Proof.
  induction C as [|a [|b C] IH]; [done..|]. intros Hs (H1 & H2 & H3).
  rewrite !reverse_cons in *. apply chain_app.
  destruct (Hs a) as [A1 A2]; [left |]. destruct (Hs b) as [B1 B2]; [right; left |].
  split_and!; [| congruence | congruence | done].
  apply IH; [| done]. intros x Hx. apply Hs. by right.
Qed.

Lemma run_swap_links m x : valid m x → swap_links (Some x) m = Ok (tt, alter swapped x m).
Proof.
  intros [e E]. unfold swap_links, load, mbind, st_bind. simpl. rewrite E. simpl.
  do 2 f_equal. apply map_eq. intros z. rewrite lookup_alter, lookup_insert.
  case_decide; [subst; by rewrite E | done].
Qed.

Lemma reverse_loop_correct fuel m L l1 l2 :
  lrep m L (l1 ++ l2) → length l2 ≤ fuel →
  list_reverse_loop fuel L (pos L l2) (swap_all l1 m) = Ok (tt, swap_all (l1 ++ l2) m).
Proof.
  revert l1 l2. induction fuel as [|fuel IH]; intros l1 [|x l2] H Hf;
    cbn [list_reverse_loop]; try (rewrite decide_True by done; by rewrite app_nil_r);
    [simpl in Hf; lia |].
  rewrite decide_False by (by rewrite (pos_eq_end m L l1 (x :: l2) H)). rewrite pos_cons.
  pose proof (lrep_nodup _ _ _ H) as Hn. apply NoDup_cons in Hn as [_ (Hn & _)%NoDup_app].
  apply NoDup_app in Hn as (Hn1 & Hd & Hn2).
  assert (x ∉ l1) as Hx by (intros Hx; apply (Hd x Hx); left).
  destruct (lrep_cell m L l1 x l2 H) as (Hv & _ & Hnx).
  unfold mbind, st_bind. rewrite run_swap_links, <-swap_all_snoc by (by apply valid_swap_all).
  rewrite run_get_prev by (by apply valid_swap_all).
  assert (prv (swap_all (l1 ++ [x]) m) x = pos L l2) as ->.
  { rewrite <-Hnx. apply swap_all_in.
    - apply NoDup_app. split_and!; [done | | apply NoDup_singleton].
      intros y Hy ->%list_elem_of_singleton. done.
    - apply elem_of_app. right. left. }
  rewrite cons_middle, (assoc_L (++)) in H. simpl in Hf.
  rewrite (IH _ _ H) by lia. by rewrite <-(assoc_L (++)).
Qed.

(** The four sentinel links that the end of [list_reverse] sets. *)
Lemma lrep_reversed m L xs x1 xn :
  lrep m L xs → list.head xs = Some x1 → last xs = Some xn →
  lrep (upd_next x1 (Some (tail L)) (upd_prev xn (Some (head L))
         (upd_prev (tail L) (Some x1) (upd_next (head L) (Some xn) (swap_all xs m)))))
       L (reverse xs).
Proof.
  intros H H1 Hl. pose proof H as [Hn Hc Hv Hh Ht].
  pose proof Hn as [Hnh (Hnx & Hdt & _)%NoDup_app]%NoDup_cons.
  assert (NoDup (reverse xs)) as Hnr by (by rewrite reverse_Permutation).
  destruct (lrep_elems m L xs x1 H) as [? ?]; [by apply head_elem |].
  destruct (lrep_elems m L xs xn H) as [? ?]; [by apply last_elem |].
  assert (head L ≠ tail L) as ?.
  { intros E. apply Hnh, elem_of_app. right. rewrite E. left. }
  assert (head L ∉ reverse xs) as Hhr by (rewrite elem_of_reverse; set_solver).
  assert (tail L ∉ reverse xs) as Htr.
  { rewrite elem_of_reverse. intros Hi. apply (Hdt _ Hi). left. }
  assert (Forall (valid (swap_all xs m)) (head L :: xs ++ [tail L])) as Hv1.
  { eapply Forall_impl; [exact Hv |]. intros z. by rewrite valid_swap_all. }
  pose proof Hv1 as [Vh [Vx [Vt _]%Forall_cons]%Forall_app]%Forall_cons.
  rewrite Forall_forall in Vx. pose proof (Vx _ (head_elem _ _ H1)) as V1.
  pose proof (Vx _ (last_elem _ _ Hl)) as Vn.
  assert (list.head (reverse xs) = Some xn) as Hrh by (by rewrite head_reverse).
  assert (last (reverse xs) = Some x1) as Hrl by (by rewrite last_reverse).
  assert (chain (swap_all xs m) (reverse xs)) as Hcr.
  { apply chain_rev with m; [intros z Hz; by apply swap_all_in |].
    apply chain_cons in Hc. by apply chain_app_l in Hc. }
  split.
  - by rewrite reverse_Permutation.
  - change (chain (upd_next x1 (Some (tail L)) (upd_prev xn (Some (head L))
      (upd_prev (tail L) (Some x1) (upd_next (head L) (Some xn) (swap_all xs m)))))
      ([head L] ++ (reverse xs ++ [tail L]))).
    rewrite (chain_join _ [head L] _ (head L) xn)
      by (done || by destruct (reverse xs); simplify_eq/=).
    rewrite (chain_join _ (reverse xs) _ x1 (tail L)) by done.
    split_and!; [done | solve_upd | solve_upd | | solve_upd | solve_upd | done].
    apply chain_upd_last; [done..|]. apply chain_upd_first; [done..|].
    apply chain_upd_prev_notin; [done |]. by apply chain_upd_next_notin.
  - rewrite reverse_Permutation.
    eapply Forall_impl; [exact Hv1 |]. intros z Hz. by solve_valid.
  - transitivity (prv (swap_all xs m) (head L)); [solve_upd |].
    unfold prv. rewrite swap_all_out by (done || set_solver). exact Hh.
  - transitivity (nxt (swap_all xs m) (tail L)); [solve_upd |].
    unfold nxt. rewrite swap_all_out; [exact Ht | done |]. intros Hi. apply (Hdt _ Hi). left.
Qed.
End reverse.

(** ** The functions with a comparison *)

Section compare.
Context (less : loc → loc → bool) `{!StrictWeak less}.
Implicit Types (m : mem) (L : klist) (xs l k : list loc) (x e a b : loc).

(** The list that collects the duplicates, apart from the cells [C]. *)
Definition dup_at m (duplicates : option klist) (C ds : list loc) : Prop :=
  match duplicates with
  | Some D => lrep m D ds ∧ (∀ x, x ∈ C → x ∈ head D :: ds ++ [tail D] → False)
  | None => True
  end.

Definition dup_cells (duplicates : option klist) (ds : list loc) : list loc :=
  match duplicates with Some D => head D :: ds ++ [tail D] | None => [] end.

Lemma dup_push m D ds y :
  lrep m D ds → valid m y → y ∉ head D :: ds ++ [tail D] →
  ∃ m', list_push_back D (Some y) m = Ok (tt, m') ∧ lrep m' D (ds ++ [y]) ∧
    frame (y :: head D :: ds ++ [tail D]) m m'.
Proof. apply push_back_correct. Qed.

Lemma list_unique_loop_correct fuel m L duplicates P x xs ds :
  lrep m L (P ++ (x :: xs)) →
  dup_at m duplicates (head L :: (P ++ (x :: xs)) ++ [tail L]) ds → length xs ≤ fuel →
  ∃ m', list_unique_loop less fuel L duplicates (Some x) m = Ok (tt, m') ∧
    lrep m' L (P ++ (unique_from less x xs).1) ∧
    dup_at m' duplicates (head L :: (P ++ (unique_from less x xs).1) ++ [tail L])
      (ds ++ (unique_from less x xs).2) ∧
    frame ((head L :: (P ++ (x :: xs)) ++ [tail L]) ++ dup_cells duplicates ds) m m'.
Proof.
  revert m P x xs ds. induction fuel as [|fuel IH]; intros m P x [|y xs] ds H HD Hf;
    cbn [list_unique_loop unique_from]; unfold mbind, st_bind;
    rewrite (run_next m L P x _ H); try (simpl in Hf; lia).
  1,2: rewrite decide_True by done; exists m; rewrite app_nil_r; split_and!; done.
  assert (∀ l, (P ++ [x]) ++ l = P ++ (x :: l)) as EP by (intros; by rewrite <-(assoc_L (++))).
  pose proof H as H1. rewrite <-EP in H1.
  rewrite decide_False by (by rewrite (pos_eq_end m L _ _ H1)). rewrite pos_cons.
  simpl in Hf. cbn [call_less mret st_ret].
  destruct (negb (less x y) && negb (less y x)) eqn:C; cbv iota beta.
  2:{ destruct (IH m (P ++ [x]) y xs ds) as (m' & E & Hl & Hd & F);
        [done | by rewrite EP | lia |].
      exists m'. rewrite EP in Hl, Hd, F. done. }
  destruct (remove_correct m L (P ++ [x]) y xs H1) as (m1 & -> & Hl1 & Hy & F1).
  rewrite EP in Hl1, F1.
  assert (y ∉ head L :: (P ++ x :: xs) ++ [tail L]) as Hny.
  { pose proof (lrep_nodup _ _ _ H1) as Hn. rewrite <-(assoc_L (++)) in Hn.
    rewrite app_comm_cons in Hn. simpl in Hn.
    apply (NoDup_app_elem (head L :: P ++ [x])) in Hn as (Hn1 & Hn2 & _).
    clear - Hn1 Hn2. set_solver. }
  assert (∃ m2, match duplicates with
                | Some D => list_push_back D (Some y)
                | None => mret tt
                end m1 = Ok (tt, m2) ∧ lrep m2 L (P ++ (x :: xs)) ∧
            dup_at m2 duplicates (head L :: (P ++ (x :: xs)) ++ [tail L]) (ds ++ [y]) ∧
            frame (y :: dup_cells duplicates ds) m1 m2) as (m2 & E2 & Hl2 & HD2 & F2).
  { destruct duplicates as [D|]; [| by exists m1].
    destruct HD as [HD Hdis].
    assert (lrep m1 D ds) as HD1.
    { eapply lrep_frame; [exact HD |]. intros z Hz. apply F1. intros Hi.
      apply (Hdis z); [| done]. revert Hi. clear. set_solver. }
    destruct (dup_push m1 D ds y) as (m2 & E2 & Hl2 & F2); [done | | |].
    { unfold valid. rewrite Hy. by apply lrep_cell in H1 as [? _]. }
    { intros Hi. apply (Hdis y); [| done]. clear. set_solver. }
    exists m2. split_and!; [done | | | done].
    - eapply lrep_frame; [exact Hl1 |]. intros z Hz. apply F2.
      intros [->|Hi]%elem_of_cons; [done |]. apply (Hdis z); [| done].
      revert Hz. clear. set_solver.
    - split; [done |]. intros z Hz Hi.
      assert (z = y ∨ z ∈ head D :: ds ++ [tail D]) as [->|Hi']
        by (revert Hi; clear; set_solver); [done |].
      apply (Hdis z); [| done]. revert Hz. clear. set_solver. }
  unfold mbind, st_bind. rewrite E2.
  destruct (IH m2 P x xs (ds ++ [y]) Hl2 HD2) as (m3 & E3 & Hl3 & HD3 & F3); [lia |].
  exists m3. rewrite <-(assoc_L (++) ds) in HD3. split_and!; [done..|].
  eapply frame_trans; [| eapply frame_trans].
  - frame_by F1.
  - frame_by F2.
  - destruct duplicates; simpl in F3 |- *; frame_by F3.
Qed.

(** [list_max] and [list_min] walk the list once; [pick] is the comparison
    that replaces the element kept so far. *)
Lemma extremum_loop_correct pick (f : loc → loc → bool) fuel m L l1 l2 x :
  (∀ x y m, pick (Some x) (Some y) m = Ok (f x y, m)) →
  lrep m L (l1 ++ l2) → length l2 ≤ fuel →
  extremum_loop pick fuel L (Some x) (pos L l2) m
  = Ok (Some (foldl (λ x y, if f x y then y else x) x l2), m).
Proof.
  intros Hp. revert l1 l2 x. induction fuel as [|fuel IH]; intros l1 [|y l2] x H Hf;
    cbn [extremum_loop]; try (by rewrite decide_True); [simpl in Hf; lia |].
  rewrite decide_False by (by rewrite (pos_eq_end m L l1 (y :: l2) H)).
  rewrite pos_cons. unfold mbind, st_bind. rewrite Hp, (run_next m L l1 y l2 H).
  rewrite cons_middle, (assoc_L (++)) in H. simpl in *.
  destruct (f x y); by apply (IH _ _ _ H); lia.
Qed.

Lemma max_from_foldl x l : max_from less x l = foldl (λ x y, if less x y then y else x) x l.
Proof. revert x. induction l as [|y l IH]; intros x; simpl; [done |]. by destruct (less x y). Qed.

Lemma min_from_foldl x l : min_from less x l = foldl (λ x y, if less y x then y else x) x l.
Proof. revert x. induction l as [|y l IH]; intros x; simpl; [done |]. by destruct (less y x). Qed.

Lemma list_max_run m L x xs :
  lrep m L (x :: xs) → list_max less L m = Ok (Some (max_from less x xs), m).
Proof.
  intros H. unfold list_max, mbind, st_bind. rewrite (run_begin m L _ H).
  rewrite decide_False by (by rewrite (pos_eq_end m L [] (x :: xs) H)).
  rewrite pos_cons, (run_next m L [] x xs H), max_from_foldl. cbn [st_get].
  apply (extremum_loop_correct _ (λ x y, less x y) _ m L [x] xs); [done.. |].
  apply lrep_size in H. simpl in H. lia.
Qed.

Lemma list_min_run m L x xs :
  lrep m L (x :: xs) → list_min less L m = Ok (Some (min_from less x xs), m).
Proof.
  intros H. unfold list_min, mbind, st_bind. rewrite (run_begin m L _ H).
  rewrite decide_False by (by rewrite (pos_eq_end m L [] (x :: xs) H)).
  rewrite pos_cons, (run_next m L [] x xs H), min_from_foldl. cbn [st_get].
  apply (extremum_loop_correct _ (λ x y, less y x) _ m L [x] xs); [done.. |].
  apply lrep_size in H. simpl in H. lia.
Qed.
End compare.

(** ** The contracts *)

Section contracts.
Context (less : loc → loc → bool).
Implicit Types (m : mem) (L : klist) (xs l k : list loc) (x e a b : loc).

(** C10: [list_sort] terminates, passes its own assertions, and leaves the
    list holding a sorted permutation of its elements in which elements that
    compare equal keep their order; no other memory changes. *)
Theorem list_sort_correct m L xs :
  StrictWeak less → lrep m L xs →
  ∃ m' ys, list_sort less L m = Ok (tt, m') ∧ lrep m' L ys ∧
    StronglySorted (le_of less) ys ∧ ys ≡ₚ xs ∧
    (∀ z, filter (same less z) ys = filter (same less z) xs) ∧
    frame (head L :: xs ++ [tail L]) m m'.
Proof.
  intros Hless H. pose proof (lrep_size m L xs H) as Hsz.
  destruct (list_sort_loop_correct less (size m) (length xs) m L xs) as (m1 & E & Hl & F);
    [done | apply runs_singletons | lia..|].
  rewrite (sort_passes_fuel less (length xs) _ (S (length xs))) in Hl
    by (apply runs_singletons || lia).
  fold (sort_seq less xs) in Hl. exists m1, (sort_seq less xs).
  pose proof (sort_seq_sorted less xs) as Hs.
  split_and!; [| done.. | apply sort_seq_perm, _ | intros; apply sort_seq_stable, _ | done].
  unfold list_sort, mbind, st_bind. cbn [st_get]. rewrite E, (run_begin m1 L _ Hl).
  destruct (sort_seq less xs) as [|y ys].
  { unfold is_sorted. by rewrite decide_True. }
  change (list_end L) with (pos L []). rewrite pos_cons.
  rewrite (is_sorted_correct less m1 L [] y ys []) by (by rewrite app_nil_r).
  apply sorted_from_spec in Hs; [| done]. by rewrite Hs.
Qed.

(** C11: [list_insert_ordered] terminates without a fault and puts the new
    element after every element it is not less than and right before the
    first element it is less than; a sorted list stays sorted. *)
Theorem list_insert_ordered_correct m L xs e :
  StrictWeak less → lrep m L xs → valid m e → e ∉ head L :: xs ++ [tail L] →
  ∃ m' l1 l2, list_insert_ordered less L (Some e) m = Ok (tt, m') ∧
    xs = l1 ++ l2 ∧ lrep m' L (l1 ++ (e :: l2)) ∧
    Forall (λ y, less e y = false) l1 ∧ (∀ y, list.head l2 = Some y → less e y = true) ∧
    (StronglySorted (le_of less) xs → StronglySorted (le_of less) (l1 ++ (e :: l2))) ∧
    frame (e :: head L :: xs ++ [tail L]) m m'.
Proof.
  intros Hless H Hv He. pose proof (lrep_size m L xs H) as Hsz.
  destruct (insert_ordered_loop_correct less (size m) m L [] xs e)
    as (k1 & k2 & -> & E & F1 & F2 & Hrun); [done | lia |].
  destruct (insert_correct m L k1 k2 e H Hv He) as (m' & Ei & Hl & F).
  exists m', k1, k2.
  split_and!; try done.
  - unfold list_insert_ordered, mbind, st_bind, st_assert, st_lift. simpl.
    rewrite (run_begin m L _ H). simpl. by rewrite Hrun.
  - rewrite <-E. by apply insert_ordered_sorted.
Qed.

(** [list_unique] keeps exactly one element of each group of adjacent
    equal elements, the first, and appends the others to the second list in
    the order it meets them: no element is lost, and no two neighbours of the
    result compare equal. *)
Theorem list_unique_correct m L D x xs ds :
  lrep m L (x :: xs) → lrep m D ds →
  (∀ y, y ∈ head L :: (x :: xs) ++ [tail L] → y ∈ head D :: ds ++ [tail D] → False) →
  ∃ m' ys zs, list_unique less L (Some D) m = Ok (tt, m') ∧
    lrep m' L (x :: ys) ∧ lrep m' D (ds ++ zs) ∧ (x :: ys) ++ zs ≡ₚ x :: xs ∧
    LocallySorted (distinct less) (x :: ys).
Proof.
  intros H HD Hdis. pose proof (lrep_size m L _ H) as Hsz.
  destruct (list_unique_loop_correct less (size m) m L (Some D) [] x xs ds)
    as (m' & E & Hl & [Hd _] & _); [done.. | simpl in Hsz; lia |].
  destruct (unique_from_head less x xs) as [ys Eys].
  pose proof (unique_from_perm less x xs) as Hp.
  pose proof (unique_from_distinct less x xs) as Hdist. rewrite Eys in *.
  exists m', ys, (unique_from less x xs).2. split_and!; [| done..].
  unfold list_unique, mbind, st_bind. rewrite (run_empty m L _ H), bool_decide_false by done.
  rewrite (run_begin m L _ H). cbn [st_get]. by rewrite pos_cons.
Qed.

(** on a nonempty list, [list_max] returns the first of the largest
    elements and [list_min] the first of the smallest; neither changes
    memory. *)
Theorem list_max_min_correct m L xs :
  StrictWeak less → lrep m L xs → xs ≠ [] →
  ∃ p q, list_max less L m = Ok (Some p, m) ∧ list_min less L m = Ok (Some q, m) ∧
    Forall (λ y, less p y = false) xs ∧ Forall (λ y, less y q = false) xs ∧
    (∃ l1 l2, xs = l1 ++ (p :: l2) ∧ Forall (λ y, less y p = true) l1) ∧
    (∃ l1 l2, xs = l1 ++ (q :: l2) ∧ Forall (λ y, less q y = true) l1).
Proof.
  intros Hless H Hne. destruct xs as [|x xs]; [done |].
  exists (max_from less x xs), (min_from less x xs). split_and!.
  - by apply list_max_run.
  - by apply list_min_run.
  - by apply max_from_ub.
  - by apply min_from_lb.
  - by apply max_from_first.
  - by apply min_from_first.
Qed.
End contracts.

Section contracts0.
Implicit Types (m : mem) (L : klist) (xs l k : list loc) (x e a b : loc).

(** [list_reverse] reverses the list in place, for any length. *)
Theorem list_reverse_correct m L xs :
  lrep m L xs → ∃ m', list_reverse L m = Ok (tt, m') ∧ lrep m' L (reverse xs).
Proof.
  intros H. unfold list_reverse, mbind, st_bind. rewrite (run_empty m L xs H).
  case_bool_decide as Hx; [subst; by exists m |].
  destruct (ends xs Hx) as (x1 & xn & H1 & Hl).
  exists (upd_next x1 (Some (tail L)) (upd_prev xn (Some (head L))
           (upd_prev (tail L) (Some x1) (upd_next (head L) (Some xn) (swap_all xs m))))).
  split; [| by apply lrep_reversed]. rewrite (run_begin m L xs H). cbn [st_get].
  pose proof (lrep_size m L xs H) as Hsz.
  pose proof (reverse_loop_correct (size m) m L [] xs H) as E. cbn [app] in E.
  change (swap_all [] m) with m in E. rewrite E by lia. clear E Hsz.
  pose proof (lrep_nodup _ _ _ H) as [Hnh (Hnx & Hdt & _)%NoDup_app]%NoDup_cons.
  destruct (lrep_elems m L xs x1 H) as [? ?]; [by apply head_elem |].
  destruct (lrep_elems m L xs xn H) as [? ?]; [by apply last_elem |].
  assert (head L ∉ xs ∧ tail L ∉ xs) as [Nh Nt].
  { split; intros Hi; [apply Hnh, elem_of_app; by left | apply (Hdt _ Hi); left]. }
  destruct (lrep_head_cell m L xs H) as (Vh & Eh & _).
  destruct (lrep_tail_cell m L xs H) as (Vt & Et & _).
  destruct (swap_all_in xs m x1 Hnx (head_elem _ _ H1)) as [S1 _].
  destruct (swap_all_in xs m xn Hnx (last_elem _ _ Hl)) as [_ Sn].
  assert (valid m x1 ∧ prv m x1 = Some (head L)) as [V1 P1].
  { destruct xs as [|? xs]; simplify_eq/=. by destruct (lrep_cell m L [] x1 xs H) as (? & ? & _). }
  assert (valid m xn ∧ nxt m xn = Some (tail L)) as [Vn Pn].
  { apply last_Some in Hl as [l ->]. by destruct (lrep_cell m L l xn [] H) as (? & _ & ?). }
  apply (valid_swap_all xs) in Vh, Vt, V1, Vn.
  assert (nxt (swap_all xs m) (head L) = Some x1) as Eh1.
  { unfold nxt. rewrite swap_all_out by done. fold (nxt m (head L)). rewrite Eh.
    by destruct xs; simplify_eq/=. }
  assert (prv (swap_all xs m) (tail L) = Some xn) as Et1.
  { unfold prv. rewrite swap_all_out by done. fold (prv m (tail L)). rewrite Et.
    unfold rpos. by rewrite Hl. }
  assert (head L ≠ tail L).
  { intros E. apply Hnh, elem_of_app. right. rewrite E. left. }
  rewrite run_get_next, run_get_prev, Et1, Eh1, run_set_next by done.
  rewrite run_set_prev, run_get_next, run_get_prev by solve_valid.
  replace (nxt _ (head L)) with (Some xn) by (symmetry; solve_upd).
  replace (prv _ (tail L)) with (Some x1) by (symmetry; solve_upd).
  rewrite run_get_prev, run_get_next by solve_valid.
  rewrite run_set_prev by solve_valid.
  replace (nxt _ x1) with (Some (head L)) by (symmetry; rewrite <-P1, <-S1; solve_upd).
  replace (prv _ xn) with (Some (tail L)) by (symmetry; rewrite <-Pn, <-Sn; solve_upd).
  by rewrite run_set_next by solve_valid.
Qed.

(** [list_remove] returns the element after the removed one, whose own
    links it leaves alone, so that inserting the removed element before the
    returned position gives the original list back. *)
Theorem list_remove_insert_roundtrip m L l1 x l2 :
  lrep m L (l1 ++ (x :: l2)) →
  ∃ p m1 m2, list_remove (Some x) m = Ok (p, m1) ∧ lrep m1 L (l1 ++ l2) ∧ m1 !! x = m !! x ∧
    list_insert p (Some x) m1 = Ok (tt, m2) ∧ lrep m2 L (l1 ++ (x :: l2)) ∧
    frame (x :: head L :: (l1 ++ l2) ++ [tail L]) m m2.
Proof.
  intros H. destruct (remove_correct m L l1 x l2 H) as (m1 & E1 & Hl1 & Hx & F1).
  destruct (lrep_cell m L l1 x l2 H) as (Hv & _ & _).
  destruct (insert_correct m1 L l1 l2 x Hl1) as (m2 & E2 & Hl2 & F2).
  - unfold valid. by rewrite Hx.
  - pose proof (lrep_nodup _ _ _ H) as Hn. rewrite <-(assoc_L (++)), app_comm_cons in Hn.
    apply (NoDup_app_elem (head L :: l1)) in Hn as (H1 & H2 & _).
    revert H1 H2. clear. set_solver.
  - exists (pos L l2), m1, m2. split_and!; [done..|]. eapply frame_trans; [frame_by F1 | done].
Qed.
End contracts0.

(** ** The contracts at work on concrete memories *)

(** Two lists: elements 10, 11, 12, 13 between the sentinels 1 and 2, and
    nothing between 3 and 4; 20 is an element in no list. *)
Definition ex_mem : mem := list_to_map
  [(1%positive, mk_elem None (Some 10%positive)); (10%positive, mk_elem (Some 1%positive) (Some 11%positive));
   (11%positive, mk_elem (Some 10%positive) (Some 12%positive));
   (12%positive, mk_elem (Some 11%positive) (Some 13%positive));
   (13%positive, mk_elem (Some 12%positive) (Some 2%positive));
   (2%positive, mk_elem (Some 13%positive) None);
   (3%positive, mk_elem None (Some 4%positive)); (4%positive, mk_elem (Some 3%positive) None);
   (20%positive, mk_elem None None)].
Definition ex_list : klist := mk_list 1 2.
Definition ex_dups : klist := mk_list 3 4.
Definition ex_elems : list loc := [10%positive; 11%positive; 12%positive; 13%positive].

(** The elements' keys: 10 and 12 have key 1, 11 and 13 key 0. *)
Definition ex_key (x : loc) : Z := Z.pos x `mod` 2.
Definition ex_less (x y : loc) : bool := (ex_key y <? ex_key x)%Z.

#[export] Instance ex_less_weak : StrictWeak ex_less.
Proof. split; unfold ex_less; intros; lia. Qed.

Ltac solve_lrep := split;
  [apply (bool_decide_unpack _); vm_compute; exact I | vm_compute; done
  | repeat constructor; by eexists | done | done].

Lemma ex_lrep : lrep ex_mem ex_list ex_elems.
Proof. solve_lrep. Qed.
Lemma ex_lrep_dups : lrep ex_mem ex_dups [].
Proof. solve_lrep. Qed.

Lemma list_sort_correct_witness :
  ∃ m' ys, list_sort ex_less ex_list ex_mem = Ok (tt, m') ∧ lrep m' ex_list ys ∧
    StronglySorted (le_of ex_less) ys.
Proof.
  destruct (list_sort_correct ex_less ex_mem ex_list ex_elems ex_less_weak ex_lrep)
    as (m' & ys & H1 & H2 & H3 & _). exists m', ys. split_and!; done.
Defined.

Lemma list_insert_ordered_correct_witness :
  ∃ m', list_insert_ordered ex_less ex_list (Some 20%positive) ex_mem = Ok (tt, m').
Proof.
  destruct (list_insert_ordered_correct ex_less ex_mem ex_list ex_elems 20%positive)
    as (m' & _ & _ & H & _).
  - exact ex_less_weak.
  - exact ex_lrep.
  - by eexists.
  - apply (bool_decide_unpack _). vm_compute. exact I.
  - by exists m'.
Defined.

Lemma list_unique_correct_witness :
  ∃ m' ys zs, list_unique ex_less ex_list (Some ex_dups) ex_mem = Ok (tt, m') ∧
    lrep m' ex_list (10%positive :: ys) ∧ lrep m' ex_dups ([] ++ zs).
Proof.
  destruct (list_unique_correct ex_less ex_mem ex_list ex_dups 10%positive
    [11%positive; 12%positive; 13%positive] [] ex_lrep ex_lrep_dups)
    as (m' & ys & zs & H1 & H2 & H3 & _).
  - intros y H1 H2. apply (list_elem_of_In _ _) in H1, H2. simpl in H1, H2.
    intuition (subst; discriminate).
  - exists m', ys, zs. split_and!; done.
Defined.

Lemma list_max_min_correct_witness :
  ∃ p q, list_max ex_less ex_list ex_mem = Ok (Some p, ex_mem) ∧
    list_min ex_less ex_list ex_mem = Ok (Some q, ex_mem).
Proof.
  destruct (list_max_min_correct ex_less ex_mem ex_list ex_elems ex_less_weak ex_lrep)
    as (p & q & H1 & H2 & _); [discriminate |]. exists p, q. split; done.
Defined.

Lemma list_reverse_correct_witness :
  ∃ m', list_reverse ex_list ex_mem = Ok (tt, m') ∧ lrep m' ex_list (reverse ex_elems).
Proof. exact (list_reverse_correct ex_mem ex_list ex_elems ex_lrep). Defined.

Lemma list_remove_insert_roundtrip_witness :
  ∃ p m1, list_remove (Some 12%positive) ex_mem = Ok (p, m1) ∧ p = Some 13%positive.
Proof.
  destruct (list_remove_insert_roundtrip ex_mem ex_list [10%positive; 11%positive] 12%positive
    [13%positive] ex_lrep) as (p & m1 & _ & H & _).
  exists p, m1. split; [exact H |]. vm_compute in H. congruence.
Defined.
