(* ===== verification/Kstate.v ===== *)
(** The state of the threaded kernel: the thread blocks, the scheduler's lists
    and statistics, the CPU's interrupt state, and the synchronization objects.

    A blocked or preempted thread is in the middle of some C functions.  Its
    kernel stack is explicit: a [frame] says what a suspended call does when
    control comes back to it, so that an interrupt can arrive between any two
    frames during which interrupts are on.  A thread whose stack is empty runs
    the code of its creator ([function (aux)]). *)
From S2P Require Import Prelude ListSpec.

(** A [struct thread *] is the number of the page that holds the thread. *)
Abbreviation loc := positive.

Inductive thread_status : Type := THREAD_RUNNING | THREAD_READY | THREAD_BLOCKED | THREAD_DYING.

#[export] Instance thread_status_eq_dec : EqDecision thread_status.
Proof. solve_decision. Defined.

Definition TID_ERROR : Z := -1.
Definition PRI_MIN : Z := 0.
Definition PRI_DEFAULT : Z := 31.
Definition PRI_MAX : Z := 63.
Definition TIME_SLICE : Z := 4.
Definition TIMER_FREQ : Z := 100.

(** A [struct semaphore *]: one that a client declared, the one inside a lock,
    or the one on the stack of a thread in [cond_wait]. *)
Inductive sema_ref : Type :=
| SemaAt (a : loc)
| LockSema (l : loc)
| WaiterSema (t : loc).

#[export] Instance sema_ref_eq_dec : EqDecision sema_ref.
Proof. solve_decision. Defined.

#[export] Instance sema_ref_countable : Countable sema_ref.
Proof.
  refine (inj_countable'
    (λ r, match r with SemaAt a => inl a | LockSema l => inr (inl l) | WaiterSema t => inr (inr t) end)
    (λ s, match s with inl a => SemaAt a | inr (inl l) => LockSema l | inr (inr t) => WaiterSema t end) _).
  by intros [].
Defined.

(** The function a new thread runs: its creator's code, or [idle] with its
    argument. *)
Inductive thread_func : Type := FClient | FIdle (idle_started : sema_ref).

#[export] Instance thread_func_eq_dec : EqDecision thread_func.
Proof. solve_decision. Defined.

(** What a suspended call still has to do. *)
Inductive frame : Type :=
| KIntrSetLevel (old_level : bool)     (* the end of thread_yield and thread_sleep *)
| KIret                                (* return from the timer interrupt *)
| KYield                               (* thread_check_preempt calls thread_yield *)
| KCheckPreempt                        (* a call of thread_check_preempt *)
| KSemaLoop (s : sema_ref) (old_level : bool)  (* the loop of sema_down *)
| KSemaDown (s : sema_ref)             (* a call of sema_down *)
| KSemaUp (s : sema_ref)               (* a call of sema_up *)
| KSetHolder (l : loc)                 (* the end of lock_acquire *)
| KLockAcquire (l : loc)               (* a call of lock_acquire, in cond_wait *)
| KBroadcast (c l : loc)                (* the loop of cond_broadcast *)
| KAllocTid (t : loc)                  (* t->tid = allocate_tid () *)
| KTakeTid (t : loc)                   (* the middle of allocate_tid *)
| KSetTid (t : loc) (tid : Z)          (* the end of allocate_tid *)
| KCreateInherit (t : loc) (function : thread_func)   (* thread_create after allocate_tid *)
| KCreateUnblock (t : loc)             (* thread_create after the frames are built *)
| KSleepCheck (start ticks : Z)        (* timer_sleep after reading the clock *)
| KSleep (wakeup_tick : Z)             (* timer_sleep calls thread_sleep *)
| KStartWait (s : sema_ref)            (* thread_start after thread_create *)
| KThreadStart (s : sema_ref) (page : loc)   (* a call of thread_start *)
| KKernelThread                        (* the start of kernel_thread *)
| KIdle (s : sema_ref)                 (* the start of idle *)
| KIdleLoop                            (* the loop of idle *)
| KHlt                                 (* sti; hlt *)
| KHalted.                             (* halted until an interrupt *)

#[export] Instance frame_eq_dec : EqDecision frame.
Proof. solve_decision. Defined.

Record thread := mk_thread {
  tid : Z; status : thread_status; name : list Z; priority : Z;
  wakeup_tick : Z; nice : Z; recent_cpu : Z; stack : list frame
}.

Record semaphore := mk_sema { value : Z; waiters : list loc }.

Record kstate := mk_kstate {
  threads : gmap loc thread;
  ready_list : list loc;
  Sleep_list : list loc;
  all_list : list loc;
  running : loc;
  idle_thread : option loc;
  initial_thread : loc;
  intr_on : bool;
  in_external_intr : bool;
  yield_on_return : bool;
  ticks : Z;
  thread_ticks : Z;
  idle_ticks : Z;
  kernel_ticks : Z;
  load_avg : Z;
  next_tid : Z;
  thread_prior_aging : bool;
  thread_mlfqs : bool;
  semas : gmap sema_ref semaphore;
  locks : gmap loc (option loc);
  conds : gmap loc (list loc)
}.

Abbreviation K := (ST kstate).

(** ** Updates *)

Definition set_threads (f : (gmap loc thread) → (gmap loc thread)) (s : kstate) : kstate :=
  mk_kstate (f (threads s)) (ready_list s) (Sleep_list s) (all_list s) (running s)
    (idle_thread s) (initial_thread s) (intr_on s) (in_external_intr s) (yield_on_return s)
    (ticks s) (thread_ticks s) (idle_ticks s) (kernel_ticks s) (load_avg s) (next_tid s)
    (thread_prior_aging s) (thread_mlfqs s) (semas s) (locks s) (conds s).
Definition set_ready_list (f : (list loc) → (list loc)) (s : kstate) : kstate :=
  mk_kstate (threads s) (f (ready_list s)) (Sleep_list s) (all_list s) (running s)
    (idle_thread s) (initial_thread s) (intr_on s) (in_external_intr s) (yield_on_return s)
    (ticks s) (thread_ticks s) (idle_ticks s) (kernel_ticks s) (load_avg s) (next_tid s)
    (thread_prior_aging s) (thread_mlfqs s) (semas s) (locks s) (conds s).
Definition set_Sleep_list (f : (list loc) → (list loc)) (s : kstate) : kstate :=
  mk_kstate (threads s) (ready_list s) (f (Sleep_list s)) (all_list s) (running s)
    (idle_thread s) (initial_thread s) (intr_on s) (in_external_intr s) (yield_on_return s)
    (ticks s) (thread_ticks s) (idle_ticks s) (kernel_ticks s) (load_avg s) (next_tid s)
    (thread_prior_aging s) (thread_mlfqs s) (semas s) (locks s) (conds s).
Definition set_all_list (f : (list loc) → (list loc)) (s : kstate) : kstate :=
  mk_kstate (threads s) (ready_list s) (Sleep_list s) (f (all_list s)) (running s)
    (idle_thread s) (initial_thread s) (intr_on s) (in_external_intr s) (yield_on_return s)
    (ticks s) (thread_ticks s) (idle_ticks s) (kernel_ticks s) (load_avg s) (next_tid s)
    (thread_prior_aging s) (thread_mlfqs s) (semas s) (locks s) (conds s).
Definition set_running (f : loc → loc) (s : kstate) : kstate :=
  mk_kstate (threads s) (ready_list s) (Sleep_list s) (all_list s) (f (running s))
    (idle_thread s) (initial_thread s) (intr_on s) (in_external_intr s) (yield_on_return s)
    (ticks s) (thread_ticks s) (idle_ticks s) (kernel_ticks s) (load_avg s) (next_tid s)
    (thread_prior_aging s) (thread_mlfqs s) (semas s) (locks s) (conds s).
Definition set_idle_thread (f : (option loc) → (option loc)) (s : kstate) : kstate :=
  mk_kstate (threads s) (ready_list s) (Sleep_list s) (all_list s) (running s)
    (f (idle_thread s)) (initial_thread s) (intr_on s) (in_external_intr s) (yield_on_return s)
    (ticks s) (thread_ticks s) (idle_ticks s) (kernel_ticks s) (load_avg s) (next_tid s)
    (thread_prior_aging s) (thread_mlfqs s) (semas s) (locks s) (conds s).
Definition set_initial_thread (f : loc → loc) (s : kstate) : kstate :=
  mk_kstate (threads s) (ready_list s) (Sleep_list s) (all_list s) (running s) (idle_thread s)
    (f (initial_thread s)) (intr_on s) (in_external_intr s) (yield_on_return s) (ticks s)
    (thread_ticks s) (idle_ticks s) (kernel_ticks s) (load_avg s) (next_tid s)
    (thread_prior_aging s) (thread_mlfqs s) (semas s) (locks s) (conds s).
Definition set_intr_on (f : bool → bool) (s : kstate) : kstate :=
  mk_kstate (threads s) (ready_list s) (Sleep_list s) (all_list s) (running s) (idle_thread s)
    (initial_thread s) (f (intr_on s)) (in_external_intr s) (yield_on_return s) (ticks s)
    (thread_ticks s) (idle_ticks s) (kernel_ticks s) (load_avg s) (next_tid s)
    (thread_prior_aging s) (thread_mlfqs s) (semas s) (locks s) (conds s).
Definition set_in_external_intr (f : bool → bool) (s : kstate) : kstate :=
  mk_kstate (threads s) (ready_list s) (Sleep_list s) (all_list s) (running s) (idle_thread s)
    (initial_thread s) (intr_on s) (f (in_external_intr s)) (yield_on_return s) (ticks s)
    (thread_ticks s) (idle_ticks s) (kernel_ticks s) (load_avg s) (next_tid s)
    (thread_prior_aging s) (thread_mlfqs s) (semas s) (locks s) (conds s).
Definition set_yield_on_return (f : bool → bool) (s : kstate) : kstate :=
  mk_kstate (threads s) (ready_list s) (Sleep_list s) (all_list s) (running s) (idle_thread s)
    (initial_thread s) (intr_on s) (in_external_intr s) (f (yield_on_return s)) (ticks s)
    (thread_ticks s) (idle_ticks s) (kernel_ticks s) (load_avg s) (next_tid s)
    (thread_prior_aging s) (thread_mlfqs s) (semas s) (locks s) (conds s).
Definition set_ticks (f : Z → Z) (s : kstate) : kstate :=
  mk_kstate (threads s) (ready_list s) (Sleep_list s) (all_list s) (running s) (idle_thread s)
    (initial_thread s) (intr_on s) (in_external_intr s) (yield_on_return s) (f (ticks s))
    (thread_ticks s) (idle_ticks s) (kernel_ticks s) (load_avg s) (next_tid s)
    (thread_prior_aging s) (thread_mlfqs s) (semas s) (locks s) (conds s).
Definition set_thread_ticks (f : Z → Z) (s : kstate) : kstate :=
  mk_kstate (threads s) (ready_list s) (Sleep_list s) (all_list s) (running s) (idle_thread s)
    (initial_thread s) (intr_on s) (in_external_intr s) (yield_on_return s) (ticks s)
    (f (thread_ticks s)) (idle_ticks s) (kernel_ticks s) (load_avg s) (next_tid s)
    (thread_prior_aging s) (thread_mlfqs s) (semas s) (locks s) (conds s).
Definition set_idle_ticks (f : Z → Z) (s : kstate) : kstate :=
  mk_kstate (threads s) (ready_list s) (Sleep_list s) (all_list s) (running s) (idle_thread s)
    (initial_thread s) (intr_on s) (in_external_intr s) (yield_on_return s) (ticks s)
    (thread_ticks s) (f (idle_ticks s)) (kernel_ticks s) (load_avg s) (next_tid s)
    (thread_prior_aging s) (thread_mlfqs s) (semas s) (locks s) (conds s).
Definition set_kernel_ticks (f : Z → Z) (s : kstate) : kstate :=
  mk_kstate (threads s) (ready_list s) (Sleep_list s) (all_list s) (running s) (idle_thread s)
    (initial_thread s) (intr_on s) (in_external_intr s) (yield_on_return s) (ticks s)
    (thread_ticks s) (idle_ticks s) (f (kernel_ticks s)) (load_avg s) (next_tid s)
    (thread_prior_aging s) (thread_mlfqs s) (semas s) (locks s) (conds s).
Definition set_load_avg (f : Z → Z) (s : kstate) : kstate :=
  mk_kstate (threads s) (ready_list s) (Sleep_list s) (all_list s) (running s) (idle_thread s)
    (initial_thread s) (intr_on s) (in_external_intr s) (yield_on_return s) (ticks s)
    (thread_ticks s) (idle_ticks s) (kernel_ticks s) (f (load_avg s)) (next_tid s)
    (thread_prior_aging s) (thread_mlfqs s) (semas s) (locks s) (conds s).
Definition set_next_tid (f : Z → Z) (s : kstate) : kstate :=
  mk_kstate (threads s) (ready_list s) (Sleep_list s) (all_list s) (running s) (idle_thread s)
    (initial_thread s) (intr_on s) (in_external_intr s) (yield_on_return s) (ticks s)
    (thread_ticks s) (idle_ticks s) (kernel_ticks s) (load_avg s) (f (next_tid s))
    (thread_prior_aging s) (thread_mlfqs s) (semas s) (locks s) (conds s).
Definition set_thread_prior_aging (f : bool → bool) (s : kstate) : kstate :=
  mk_kstate (threads s) (ready_list s) (Sleep_list s) (all_list s) (running s) (idle_thread s)
    (initial_thread s) (intr_on s) (in_external_intr s) (yield_on_return s) (ticks s)
    (thread_ticks s) (idle_ticks s) (kernel_ticks s) (load_avg s) (next_tid s)
    (f (thread_prior_aging s)) (thread_mlfqs s) (semas s) (locks s) (conds s).
Definition set_thread_mlfqs (f : bool → bool) (s : kstate) : kstate :=
  mk_kstate (threads s) (ready_list s) (Sleep_list s) (all_list s) (running s) (idle_thread s)
    (initial_thread s) (intr_on s) (in_external_intr s) (yield_on_return s) (ticks s)
    (thread_ticks s) (idle_ticks s) (kernel_ticks s) (load_avg s) (next_tid s)
    (thread_prior_aging s) (f (thread_mlfqs s)) (semas s) (locks s) (conds s).
Definition set_semas (f : (gmap sema_ref semaphore) → (gmap sema_ref semaphore)) (s : kstate) : kstate :=
  mk_kstate (threads s) (ready_list s) (Sleep_list s) (all_list s) (running s) (idle_thread s)
    (initial_thread s) (intr_on s) (in_external_intr s) (yield_on_return s) (ticks s)
    (thread_ticks s) (idle_ticks s) (kernel_ticks s) (load_avg s) (next_tid s)
    (thread_prior_aging s) (thread_mlfqs s) (f (semas s)) (locks s) (conds s).
Definition set_locks (f : (gmap loc (option loc)) → (gmap loc (option loc))) (s : kstate) : kstate :=
  mk_kstate (threads s) (ready_list s) (Sleep_list s) (all_list s) (running s) (idle_thread s)
    (initial_thread s) (intr_on s) (in_external_intr s) (yield_on_return s) (ticks s)
    (thread_ticks s) (idle_ticks s) (kernel_ticks s) (load_avg s) (next_tid s)
    (thread_prior_aging s) (thread_mlfqs s) (semas s) (f (locks s)) (conds s).
Definition set_conds (f : (gmap loc (list loc)) → (gmap loc (list loc))) (s : kstate) : kstate :=
  mk_kstate (threads s) (ready_list s) (Sleep_list s) (all_list s) (running s) (idle_thread s)
    (initial_thread s) (intr_on s) (in_external_intr s) (yield_on_return s) (ticks s)
    (thread_ticks s) (idle_ticks s) (kernel_ticks s) (load_avg s) (next_tid s)
    (thread_prior_aging s) (thread_mlfqs s) (semas s) (locks s) (f (conds s)).
Definition set_tid (f : Z → Z) (t : thread) : thread :=
  mk_thread (f (tid t)) (status t) (name t) (priority t) (wakeup_tick t) (nice t) (recent_cpu t) (stack t).
Definition set_status (f : thread_status → thread_status) (t : thread) : thread :=
  mk_thread (tid t) (f (status t)) (name t) (priority t) (wakeup_tick t) (nice t) (recent_cpu t) (stack t).
Definition set_priority (f : Z → Z) (t : thread) : thread :=
  mk_thread (tid t) (status t) (name t) (f (priority t)) (wakeup_tick t) (nice t) (recent_cpu t) (stack t).
Definition set_wakeup_tick (f : Z → Z) (t : thread) : thread :=
  mk_thread (tid t) (status t) (name t) (priority t) (f (wakeup_tick t)) (nice t) (recent_cpu t) (stack t).
Definition set_nice (f : Z → Z) (t : thread) : thread :=
  mk_thread (tid t) (status t) (name t) (priority t) (wakeup_tick t) (f (nice t)) (recent_cpu t) (stack t).
Definition set_recent_cpu (f : Z → Z) (t : thread) : thread :=
  mk_thread (tid t) (status t) (name t) (priority t) (wakeup_tick t) (nice t) (f (recent_cpu t)) (stack t).
Definition set_stack (f : (list frame) → (list frame)) (t : thread) : thread :=
  mk_thread (tid t) (status t) (name t) (priority t) (wakeup_tick t) (nice t) (recent_cpu t) (f (stack t)).

(** ** Access to thread blocks *)

(** Dereference a [struct thread *]. *)
Definition get_thread (t : loc) : K thread := λ s,
  match threads s !! t with Some th => Ok (th, s) | None => Err BadPointer end.

Definition upd_thread (t : loc) (f : thread → thread) (s : kstate) : kstate :=
  set_threads (alter f t) s.

(** Write through a [struct thread *]. *)
Definition mod_thread (t : loc) (f : thread → thread) : K unit :=
  _ ← get_thread t; st_modify (upd_thread t f).

(** Suspend the running thread's call with frame [f]. *)
Definition push (f : frame) : K unit :=
  s ← st_get; mod_thread (running s) (set_stack (cons f)).

Definition get_sema (r : sema_ref) : K semaphore := λ s,
  match semas s !! r with Some x => Ok (x, s) | None => Err BadPointer end.
Definition put_sema (r : sema_ref) (x : semaphore) : K unit :=
  st_modify (set_semas (<[r := x]>)).
Definition get_holder (l : loc) : K (option loc) := λ s,
  match locks s !! l with Some h => Ok (h, s) | None => Err BadPointer end.
Definition put_holder (l : loc) (h : option loc) : K unit :=
  st_modify (set_locks (<[l := h]>)).
Definition get_cond (c : loc) : K (list loc) := λ s,
  match conds s !! c with Some w => Ok (w, s) | None => Err BadPointer end.
Definition put_cond (c : loc) (w : list loc) : K unit :=
  st_modify (set_conds (<[c := w]>)).
