(* ===== verification/Interrupt.v ===== *)
(** threads/interrupt.c: the interrupt level and the state of an external
    interrupt, and the gate descriptors of the IDT. *)
From S2P Require Import Prelude Kstate.

(** ** Interrupt level *)

Definition intr_context : K bool := st_gets in_external_intr.

Definition intr_get_level : K bool := st_gets intr_on.

Definition intr_enable : K bool :=
  old_level ← intr_get_level;
  c ← intr_context; st_assert (negb c);;
  st_modify (set_intr_on (λ _, true));;
  mret old_level.

Definition intr_disable : K bool :=
  old_level ← intr_get_level;
  st_modify (set_intr_on (λ _, false));;
  mret old_level.

Definition intr_set_level (level : bool) : K bool :=
  if level then intr_enable else intr_disable.

Definition intr_yield_on_return : K unit :=
  c ← intr_context; st_assert c;;
  st_modify (set_yield_on_return (λ _, true)).

(** ** Gate descriptors *)

Section gates.
Local Open Scope Z_scope.

Definition SEL_KCSEG : Z := 8.

(** The descriptor of a gate for the handler at address [function]. *)
Definition make_gate (function dpl type : Z) : outcome Z :=
  assert_that (negb (function =? 0));;
  assert_that ((0 <=? dpl) && (dpl <=? 3));;
  assert_that ((0 <=? type) && (type <=? 15));;
  let e0 := Z.lor (Z.land (u32 function) 0xffff) (u32 (Z.shiftl SEL_KCSEG 16)) in
  let e1 := Z.lor (Z.lor (Z.lor (Z.land (u32 function) 0xffff0000) (Z.shiftl 1 15))
               (u32 (Z.shiftl (u32 dpl) 13))) (u32 (Z.shiftl (u32 type) 8)) in
  Ok (Z.lor e0 (u64 (Z.shiftl e1 32))).

Definition make_intr_gate (function dpl : Z) : outcome Z := make_gate function dpl 14.

Definition make_trap_gate (function dpl : Z) : outcome Z := make_gate function dpl 15.

Definition make_idtr_operand (limit base : Z) : Z :=
  Z.lor limit (u64 (Z.shiftl (u32 base) 16)).
End gates.
