(* ===== verification/Thread.v ===== *)
(** threads/thread.c, in the build without user programs: the scheduler, the
    sleep queue, priority aging, the multi-level feedback queue and the life of
    a thread.  Every function is a computation on the kernel state; a function
    that can be suspended pushes the frame of its remainder first. *)
From S2P Require Import Prelude ListSpec FixedPoint Kstate Interrupt.
Local Open Scope Z_scope.

Definition running_thread : K loc := st_gets running.

(** [is_thread]: the pointer is not null and points at a live thread block. *)
Definition is_thread (t : option loc) : K bool :=
  st_gets (λ s, match t with Some t => bool_decide (is_Some (threads s !! t)) | None => false end).

Definition thread_current : K loc :=
  t ← running_thread;
  b ← is_thread (Some t); st_assert b;;
  th ← get_thread t; st_assert (bool_decide (status th = THREAD_RUNNING));;
  mret t.

Definition thread_tid : K Z := cur ← thread_current; th ← get_thread cur; mret (tid th).

Definition thread_name : K (list Z) := cur ← thread_current; th ← get_thread cur; mret (name th).

(** ** The order of the queues *)

Definition prio (s : kstate) (t : loc) : Z :=
  match threads s !! t with Some th => priority th | None => 0 end.
Definition wake (s : kstate) (t : loc) : Z :=
  match threads s !! t with Some th => wakeup_tick th | None => 0 end.

Definition thread_priority_greater (s : kstate) (a b : loc) : bool := prio s b <? prio s a.
Definition wakeup_tick_less (s : kstate) (a b : loc) : bool := wake s a <? wake s b.

Definition insert_ready (t : loc) : K unit :=
  st_modify (λ s, set_ready_list (insert_ordered (thread_priority_greater s) t) s).

(** ** Scheduling *)

Definition next_thread_to_run : K (option loc) :=
  s ← st_get;
  match ready_list s with
  | [] => mret (idle_thread s)
  | t :: r => st_put (set_ready_list (λ _, r) s);; mret (Some t)
  end.

Definition thread_schedule_tail (prev : option loc) : K unit :=
  cur ← running_thread;
  l ← intr_get_level; st_assert (negb l);;
  mod_thread cur (set_status (λ _, THREAD_RUNNING));;
  st_modify (set_thread_ticks (λ _, 0));;
  match prev with
  | Some p =>
      th ← get_thread p; s ← st_get;
      if bool_decide (status th = THREAD_DYING) && bool_decide (p ≠ initial_thread s) then
        st_assert (bool_decide (p ≠ cur));;
        st_modify (set_threads (delete p))   (* palloc_free_page (prev) *)
      else mret tt
  | None => mret tt
  end.

Definition schedule : K unit :=
  cur ← running_thread;
  next ← next_thread_to_run;
  l ← intr_get_level; st_assert (negb l);;
  th ← get_thread cur; st_assert (bool_decide (status th ≠ THREAD_RUNNING));;
  b ← is_thread next; st_assert b;;
  match next with
  | Some n =>
      if decide (cur = n) then thread_schedule_tail None
      else st_modify (set_running (λ _, n));;     (* switch_threads (cur, next) *)
           thread_schedule_tail (Some cur)
  | None => mret tt
  end.

Definition thread_block : K unit :=
  c ← intr_context; st_assert (negb c);;
  l ← intr_get_level; st_assert (negb l);;
  cur ← thread_current;
  mod_thread cur (set_status (λ _, THREAD_BLOCKED));;
  schedule.

Definition thread_unblock (t : loc) : K unit :=
  b ← is_thread (Some t); st_assert b;;
  old_level ← intr_disable;
  th ← get_thread t; st_assert (bool_decide (status th = THREAD_BLOCKED));;
  insert_ready t;;
  mod_thread t (set_status (λ _, THREAD_READY));;
  intr_set_level old_level;; mret tt.

Definition thread_yield : K unit :=
  cur ← thread_current;
  c ← intr_context; st_assert (negb c);;
  old_level ← intr_disable;
  push (KIntrSetLevel old_level);;
  s ← st_get;
  (if decide (Some cur ≠ idle_thread s) then insert_ready cur else mret tt);;
  mod_thread cur (set_status (λ _, THREAD_READY));;
  schedule.

(** Does the first ready thread outrank the running one? *)
Definition need_preempt (s : kstate) (cur : loc) : bool :=
  match ready_list s with
  | t :: _ => prio s cur <? prio s t
  | [] => false
  end.

Definition thread_check_preempt : K unit :=
  old_level ← intr_disable;
  cur ← thread_current;
  s ← st_get;
  let need_yield := need_preempt s cur in
  intr_set_level old_level;;
  if need_yield then
    c ← intr_context;
    if c : bool then intr_yield_on_return else push KYield
  else mret tt.

(** ** Sleeping *)

Definition thread_sleep (wakeup_tick : Z) : K unit :=
  cur ← thread_current;
  c ← intr_context; st_assert (negb c);;
  old_level ← intr_disable;
  s ← st_get; st_assert (bool_decide (Some cur ≠ idle_thread s));;
  mod_thread cur (set_wakeup_tick (λ _, wakeup_tick));;
  st_modify (λ s, set_Sleep_list (insert_ordered (wakeup_tick_less s) cur) s);;
  push (KIntrSetLevel old_level);;
  thread_block.

Definition timer_ticks : K Z :=
  old_level ← intr_disable;
  t ← st_gets ticks;
  intr_set_level old_level;; mret t.

Fixpoint thread_wake_up_loop (fuel : nat) (now : Z) : K unit :=
  s ← st_get;
  match Sleep_list s with
  | [] => mret tt
  | t :: r =>
      match fuel with
      | O => st_fail OutOfFuel
      | S fuel =>
          th ← get_thread t;
          if now <? wakeup_tick th then mret tt
          else st_modify (set_Sleep_list (λ _, r));;
               thread_unblock t;;
               thread_wake_up_loop fuel now
      end
  end.

Definition thread_wake_up : K unit :=
  now ← timer_ticks;
  s ← st_get;
  thread_wake_up_loop (length (Sleep_list s)) now;;
  thread_check_preempt.

(** ** Aging *)

Definition age (th : thread) : thread :=
  if priority th <? PRI_MAX then set_priority (λ p, p + 1) th else th.

Fixpoint for_each (f : loc → K unit) (l : list loc) : K unit :=
  match l with
  | [] => mret tt
  | t :: r => f t;; for_each f r
  end.

Definition thread_aging : K unit :=
  l ← intr_get_level; st_assert (negb l);;
  s ← st_get;
  for_each (λ t, mod_thread t age) (ready_list s);;
  thread_check_preempt.

(** ** The multi-level feedback queue *)

(** The priority that the formula of the BSD scheduler gives. *)
Definition mlfqs_priority (recent_cpu nice : Z) : outcome Z :=
  d ← fp_div_int recent_cpu 4;
  let p := fp_to_int_zero (fp_sub_int (fp_sub (fp_from_int PRI_MAX) d) (i32 (nice * 2))) in
  Ok (if p <? PRI_MIN then PRI_MIN else if PRI_MAX <? p then PRI_MAX else p).

Definition thread_calc_priority (t : loc) : K unit :=
  l ← intr_get_level; st_assert (negb l);;
  th ← get_thread t;
  p ← st_lift (mlfqs_priority (recent_cpu th) (nice th));
  mod_thread t (set_priority (λ _, p)).

Definition thread_update_recent_cpu (t : loc) : K unit :=
  s ← st_get;
  coef ← st_lift (fp_div (fp_mul_int (load_avg s) 2) (fp_add_int (fp_mul_int (load_avg s) 2) 1));
  mod_thread t (λ th, set_recent_cpu (λ r, fp_add_int (fp_mul coef r) (nice th)) th).

Definition thread_update_priority (t : loc) : K unit :=
  s ← st_get;
  if decide (Some t ≠ idle_thread s) then thread_calc_priority t else mret tt.

Definition thread_foreach (f : loc → K unit) : K unit :=
  l ← intr_get_level; st_assert (negb l);;
  s ← st_get; for_each f (all_list s).

(** The new load average, from the old one and the number of ready threads. *)
Definition new_load_avg (load_avg ready_threads : Z) : outcome Z :=
  a ← fp_div (fp_from_int 59) (fp_from_int 60);
  b ← fp_div (fp_from_int 1) (fp_from_int 60);
  Ok (fp_add (fp_mul a load_avg) (fp_mul_int b ready_threads)).

Definition thread_mlfqs_tick : K unit :=
  cur ← thread_current;
  now ← timer_ticks;
  l ← intr_get_level; st_assert (negb l);;
  s ← st_get;
  (if decide (Some cur ≠ idle_thread s)
   then mod_thread cur (set_recent_cpu (λ r, fp_add_int r 1)) else mret tt);;
  (if Z.rem now TIMER_FREQ =? 0 then
     s ← st_get;
     let ready_threads := i32 (i32 (u32 (Z.of_nat (length (ready_list s))))
                               + (if decide (Some cur ≠ idle_thread s) then 1 else 0)) in
     v ← st_lift (new_load_avg (load_avg s) ready_threads);
     st_modify (set_load_avg (λ _, v));;
     thread_foreach thread_update_recent_cpu
   else mret tt);;
  (if Z.rem now TIME_SLICE =? 0 then
     thread_foreach thread_update_priority;;
     st_modify (λ s, set_ready_list (sort_seq (thread_priority_greater s)) s);;
     thread_check_preempt
   else mret tt).

Definition thread_tick : K unit :=
  t ← thread_current;
  s ← st_get;
  (if decide (Some t = idle_thread s) then st_modify (set_idle_ticks (λ n, i64 (n + 1)))
   else st_modify (set_kernel_ticks (λ n, i64 (n + 1))));;
  st_modify (set_thread_ticks (λ n, u32 (n + 1)));;
  s ← st_get;
  (if TIME_SLICE <=? thread_ticks s then intr_yield_on_return else mret tt);;
  thread_wake_up;;
  (if thread_prior_aging s then thread_aging else mret tt);;
  (if thread_mlfqs s then thread_mlfqs_tick else mret tt).

(** ** Priorities and niceness *)

Definition thread_set_priority (new_priority : Z) : K unit :=
  cur ← thread_current;
  mod_thread cur (set_priority (λ _, new_priority));;
  push KCheckPreempt.

Definition thread_get_priority : K Z :=
  cur ← thread_current; th ← get_thread cur; mret (priority th).

Definition thread_set_nice (n : Z) : K unit :=
  old_level ← intr_disable;
  cur ← thread_current;
  mod_thread cur (set_nice (λ _, n));;
  s ← st_get;
  (if thread_mlfqs s then thread_calc_priority cur else mret tt);;
  intr_set_level old_level;;
  (if thread_mlfqs s then push KCheckPreempt else mret tt).

Definition thread_get_nice : K Z :=
  cur ← thread_current; th ← get_thread cur; mret (nice th).

Definition thread_get_load_avg : K Z :=
  old_level ← intr_disable;
  s ← st_get;
  let value := fp_to_int_nearest (fp_mul_int (load_avg s) 100) in
  intr_set_level old_level;; mret value.

Definition thread_get_recent_cpu : K Z :=
  old_level ← intr_disable;
  cur ← thread_current; th ← get_thread cur;
  let value := fp_to_int_up (fp_mul_int (recent_cpu th) 100) in
  intr_set_level old_level;; mret value.

(** ** The life of a thread *)

(** [init_thread] on the page [t].  A page already in use would be
    overwritten; [palloc_get_page] never returns one. *)
Definition init_thread (t : loc) (nm : list Z) (pri : Z) : K unit :=
  st_assert ((PRI_MIN <=? pri) && (pri <=? PRI_MAX));;
  st_modify (set_threads (<[t := mk_thread 0 THREAD_BLOCKED (take 15 nm) pri 0 0 (fp_from_int 0) []]>));;
  old_level ← intr_disable;
  st_modify (set_all_list (λ l, l ++ [t]));;
  intr_set_level old_level;; mret tt.

(** [thread_create] up to [allocate_tid]; [page] is the result of
    [palloc_get_page (PAL_ZERO)]. *)
Definition thread_create (nm : list Z) (pri : Z) (function : thread_func) (page : option loc) : K unit :=
  match page with
  | None => mret tt                           (* return TID_ERROR *)
  | Some t =>
      init_thread t nm pri;;
      push (KCreateInherit t function);;
      push (KAllocTid t)
  end.

(** The stack [thread_create] builds: [switch_entry] returns to
    [kernel_thread], which calls the function. *)
Definition new_stack (function : thread_func) : list frame :=
  match function with
  | FClient => [KKernelThread]
  | FIdle idle_started => [KKernelThread; KIdle idle_started]
  end.

Definition thread_create_inherit (t : loc) (function : thread_func) : K unit :=
  old_level ← intr_disable;
  cur ← thread_current; c ← get_thread cur;
  mod_thread t (set_nice (λ _, nice c));;
  mod_thread t (set_recent_cpu (λ _, recent_cpu c));;
  s ← st_get;
  (if thread_mlfqs s && bool_decide (function = FClient) then thread_calc_priority t else mret tt);;
  intr_set_level old_level;;
  (* alloc_frame: kernel_thread_frame, switch_entry_frame, switch_threads_frame *)
  mod_thread t (set_stack (λ _, new_stack function));;
  push (KCreateUnblock t).

Definition thread_create_unblock (t : loc) : K unit :=
  thread_unblock t;;
  push KCheckPreempt.

Definition thread_exit : K unit :=
  c ← intr_context; st_assert (negb c);;
  intr_disable;;
  cur ← thread_current;
  s ← st_get; st_assert (bool_decide (cur ∈ all_list s));;   (* list_remove *)
  st_modify (set_all_list (filter (λ t, t ≠ cur)));;
  cur ← thread_current;
  mod_thread cur (set_status (λ _, THREAD_DYING));;
  schedule.
