(* ===== verification/Synch.v ===== *)
(** threads/synch.c: semaphores, locks and condition variables.  A function
    that blocks, or that calls one that can be interrupted, is split at those
    points into the frames of [Kstate]. *)
From S2P Require Import Prelude ListSpec Kstate Interrupt Thread.
Local Open Scope Z_scope.

(** ** Semaphores *)

Definition sema_init (r : sema_ref) (v : Z) : K unit := put_sema r (mk_sema (u32 v) []).

(** [sema_down] up to its loop; [sema_loop] is one turn of the loop. *)
Definition sema_down (r : sema_ref) : K unit :=
  c ← intr_context; st_assert (negb c);;
  old_level ← intr_disable;
  push (KSemaLoop r old_level).

Definition sema_loop (r : sema_ref) (old_level : bool) : K unit :=
  x ← get_sema r;
  if value x =? 0 then
    cur ← thread_current; s ← st_get;
    put_sema r (mk_sema (value x) (insert_ordered (thread_priority_greater s) cur (waiters x)));;
    push (KSemaLoop r old_level);;
    thread_block
  else
    put_sema r (mk_sema (u32 (value x - 1)) (waiters x));;
    intr_set_level old_level;; mret tt.

Definition sema_try_down (r : sema_ref) : K bool :=
  old_level ← intr_disable;
  x ← get_sema r;
  success ← (if 0 <? value x
             then put_sema r (mk_sema (u32 (value x - 1)) (waiters x));; mret true
             else mret false);
  intr_set_level old_level;; mret success.

Definition sema_up (r : sema_ref) : K unit :=
  old_level ← intr_disable;
  x ← get_sema r;
  (match waiters x with
   | [] => mret tt
   | t :: w => put_sema r (mk_sema (value x) w);; thread_unblock t
   end);;
  x ← get_sema r;
  put_sema r (mk_sema (u32 (value x + 1)) (waiters x));;
  intr_set_level old_level;;
  push KCheckPreempt.

(** ** Locks *)

Definition lock_init (l : loc) : K unit :=
  put_holder l None;; sema_init (LockSema l) 1.

Definition lock_held_by_current_thread (l : loc) : K bool :=
  h ← get_holder l; cur ← thread_current; mret (bool_decide (h = Some cur)).

Definition lock_acquire (l : loc) : K unit :=
  c ← intr_context; st_assert (negb c);;
  h ← lock_held_by_current_thread l; st_assert (negb h);;
  push (KSetHolder l);;
  sema_down (LockSema l).

(** The end of [lock_acquire]. *)
Definition lock_set_holder (l : loc) : K unit :=
  _ ← get_holder l; cur ← thread_current; put_holder l (Some cur).

Definition lock_try_acquire (l : loc) : K bool :=
  h ← lock_held_by_current_thread l; st_assert (negb h);;
  success ← sema_try_down (LockSema l);
  (if success : bool then push (KSetHolder l) else mret tt);;
  mret success.

Definition lock_release (l : loc) : K unit :=
  h ← lock_held_by_current_thread l; st_assert h;;
  put_holder l None;;
  push (KSemaUp (LockSema l)).

(** ** Condition variables *)

Definition cond_init (c : loc) : K unit := put_cond c [].

(** The thread's [struct semaphore_elem] is [WaiterSema] of the thread. *)
Definition cond_wait (c l : loc) : K unit :=
  x ← intr_context; st_assert (negb x);;
  h ← lock_held_by_current_thread l; st_assert h;;
  cur ← thread_current;
  sema_init (WaiterSema cur) 0;;
  w ← get_cond c;
  put_cond c (w ++ [cur]);;
  push (KLockAcquire l);;
  push (KSemaDown (WaiterSema cur));;
  lock_release l.

Definition cond_signal (c l : loc) : K unit :=
  x ← intr_context; st_assert (negb x);;
  h ← lock_held_by_current_thread l; st_assert h;;
  w ← get_cond c;
  match w with
  | [] => mret tt
  | t :: w' => put_cond c w';; push (KSemaUp (WaiterSema t))
  end.

(** One turn of the loop of [cond_broadcast]. *)
Definition cond_broadcast (c l : loc) : K unit :=
  w ← get_cond c;
  match w with
  | [] => mret tt
  | _ => push (KBroadcast c l);; cond_signal c l
  end.
