(* ===== verification/Timer.v ===== *)
(** devices/timer.c: the clock tick, sleeping until a tick, real-time sleeps
    and delays, and the calibration of the delay loop. *)
From S2P Require Import Prelude ListSpec Kstate Interrupt Thread.
Local Open Scope Z_scope.

Definition timer_elapsed (then_ : Z) : K Z := t ← timer_ticks; mret (i64 (t - then_)).

(** [timer_sleep] reads the clock, compares, and sleeps; interrupts are on
    between the three. *)
Definition timer_sleep (n : Z) : K unit :=
  start ← timer_ticks;
  l ← intr_get_level; st_assert l;;
  push (KSleepCheck start n).

Definition timer_sleep_check (start n : Z) : K unit :=
  e ← timer_elapsed start;
  if e <? n then push (KSleep (i64 (start + n))) else mret tt.

(** [busy_wait (loops)]: the value of the counter when the loop ends, and the
    number of times the barrier is passed. *)
Fixpoint busy_wait (fuel : nat) (loops : Z) (n : nat) : outcome (Z * nat) :=
  if 0 <? loops then
    match fuel with
    | O => Err OutOfFuel
    | S fuel => busy_wait fuel (i64 (loops - 1)) (S n)
    end
  else Ok (i64 (loops - 1), n).

(** The argument [real_time_delay] gives to [busy_wait]. *)
Definition real_time_delay_loops (loops_per_tick num denom : Z) : outcome Z :=
  assert_that (Z.rem denom 1000 =? 0);;
  let d := Z.quot denom 1000 in
  if d =? 0 then Err DivideError
  else Ok (Z.quot (i64 (Z.quot (i64 (loops_per_tick * num)) 1000 * TIMER_FREQ)) d).

Definition real_time_delay (loops_per_tick num denom : Z) : K unit :=
  n ← st_lift (real_time_delay_loops loops_per_tick num denom);
  _ ← st_lift (busy_wait (Z.to_nat n) n 0); mret tt.

(** The ticks that [real_time_sleep] waits. *)
Definition real_time_ticks (num denom : Z) : Z := Z.quot (i64 (num * TIMER_FREQ)) denom.

Definition real_time_sleep (loops_per_tick num denom : Z) : K unit :=
  let ticks := real_time_ticks num denom in
  l ← intr_get_level; st_assert l;;
  if 0 <? ticks then timer_sleep ticks else real_time_delay loops_per_tick num denom.

Definition timer_msleep (loops_per_tick ms : Z) : K unit :=
  real_time_sleep loops_per_tick ms 1000.
Definition timer_usleep (loops_per_tick us : Z) : K unit :=
  real_time_sleep loops_per_tick us (1000 * 1000).
Definition timer_nsleep (loops_per_tick ns : Z) : K unit :=
  real_time_sleep loops_per_tick ns (1000 * 1000 * 1000).

Definition timer_mdelay (loops_per_tick ms : Z) : K unit :=
  real_time_delay loops_per_tick ms 1000.
Definition timer_udelay (loops_per_tick us : Z) : K unit :=
  real_time_delay loops_per_tick us (1000 * 1000).
Definition timer_ndelay (loops_per_tick ns : Z) : K unit :=
  real_time_delay loops_per_tick ns (1000 * 1000 * 1000).

Definition timer_interrupt : K unit :=
  st_modify (set_ticks (λ t, i64 (t + 1)));;
  thread_tick.

(** ** Calibration *)

Section calibrate.
(** [too_many_loops loops]: the hardware takes more than one tick for this
    many turns of [busy_wait]. *)
Context (too_many_loops : Z → bool).

Fixpoint calibrate_double (fuel : nat) (loops_per_tick : Z) : outcome Z :=
  if too_many_loops (u32 (Z.shiftl loops_per_tick 1)) then Ok loops_per_tick
  else
    let loops_per_tick := u32 (Z.shiftl loops_per_tick 1) in
    assert_that (negb (loops_per_tick =? 0));;
    match fuel with
    | O => Err OutOfFuel
    | S fuel => calibrate_double fuel loops_per_tick
    end.

Fixpoint calibrate_refine (fuel : nat) (high_bit test_bit loops_per_tick : Z) : outcome Z :=
  if test_bit =? Z.shiftr high_bit 10 then Ok loops_per_tick
  else match fuel with
  | O => Err OutOfFuel
  | S fuel =>
      calibrate_refine fuel high_bit (Z.shiftr test_bit 1)
        (if too_many_loops (Z.lor loops_per_tick test_bit) then loops_per_tick
         else Z.lor loops_per_tick test_bit)
  end.

(** [timer_calibrate]: the value it leaves in [loops_per_tick]. *)
Definition timer_calibrate : outcome Z :=
  loops_per_tick ← calibrate_double 32 (Z.shiftl 1 10);
  let high_bit := loops_per_tick in
  calibrate_refine 32 high_bit (Z.shiftr high_bit 1) loops_per_tick.
End calibrate.
