(* ===== verification/Machine.v ===== *)
(** The threaded kernel as a machine.  One step of the running thread executes
    the frame on top of its stack, or, when the stack is empty, a call that
    the thread's own code makes; a timer interrupt can arrive whenever
    interrupts are on.  [boot] runs init.c's [thread_init] and [thread_start]
    up to the first point where an interrupt can arrive. *)
From S2P Require Import Prelude ListSpec FixedPoint Kstate Interrupt Thread Synch Timer.
Local Open Scope Z_scope.

(** ** The remaining bodies of suspended calls *)

(** [allocate_tid]: it takes [tid_lock], whose address is a parameter. *)
Definition tid_lock : loc := 1%positive.

Definition allocate_tid (t : loc) : K unit :=
  push (KTakeTid t);;
  lock_acquire tid_lock.

Definition take_tid (t : loc) : K unit :=
  s ← st_get;
  let tid := next_tid s in
  st_modify (set_next_tid (λ n, i32 (n + 1)));;
  push (KSetTid t tid);;
  lock_release tid_lock.

(** The first part of [idle], and one turn of its loop up to [hlt]. *)
Definition idle (idle_started : sema_ref) : K unit :=
  cur ← thread_current;
  st_modify (set_idle_thread (λ _, Some cur));;
  push KIdleLoop;;
  sema_up idle_started.

Definition idle_loop : K unit :=
  intr_disable;;
  push KHlt;;
  thread_block.

Definition thread_start (idle_started : sema_ref) (page : loc) : K unit :=
  sema_init idle_started 0;;
  push (KStartWait idle_started);;
  thread_create [105; 100; 108; 101] PRI_MIN (FIdle idle_started) (Some page).

Definition exec_frame (f : frame) : K unit :=
  match f with
  | KIntrSetLevel old_level => intr_set_level old_level;; mret tt
  | KIret => st_modify (set_intr_on (λ _, true))
  | KYield => thread_yield
  | KCheckPreempt => thread_check_preempt
  | KSemaLoop r old_level => sema_loop r old_level
  | KSemaDown r => sema_down r
  | KSemaUp r => sema_up r
  | KSetHolder l => lock_set_holder l
  | KLockAcquire l => lock_acquire l
  | KBroadcast c l => cond_broadcast c l
  | KAllocTid t => allocate_tid t
  | KTakeTid t => take_tid t
  | KSetTid t n => mod_thread t (set_tid (λ _, n))
  | KCreateInherit t function => thread_create_inherit t function
  | KCreateUnblock t => thread_create_unblock t
  | KSleepCheck start n => timer_sleep_check start n
  | KSleep w => thread_sleep w
  | KStartWait r => intr_enable;; push (KSemaDown r)
  | KThreadStart r page => thread_start r page
  | KKernelThread => intr_enable;; mret tt
  | KIdle r => idle r
  | KIdleLoop => idle_loop
  | KHlt => st_modify (set_intr_on (λ _, true));; push KHalted
  | KHalted => mret tt
  end.

(** ** The calls a thread's own code can make *)

Inductive call : Type :=
| ThreadCreate (nm : list Z) (pri : Z) (page : option loc)
| ThreadYield
| ThreadExit
| ThreadSetPriority (p : Z)
| ThreadSetNice (n : Z)
| TimerSleep (n : Z)
| TimerMsleep (loops_per_tick ms : Z)
| IntrDisable
| IntrEnable
| SemaInit (a : loc) (v : Z)
| SemaDown (a : loc)
| SemaTryDown (a : loc)
| SemaUp (a : loc)
| LockInit (l : loc)
| LockAcquire (l : loc)
| LockTryAcquire (l : loc)
| LockRelease (l : loc)
| CondInit (c : loc)
| CondWait (c l : loc)
| CondSignal (c l : loc)
| CondBroadcast (c l : loc).

Definition exec_call (c : call) : K unit :=
  match c with
  | ThreadCreate nm pri page => thread_create nm pri FClient page
  | ThreadYield => thread_yield
  | ThreadExit => thread_exit
  | ThreadSetPriority p => thread_set_priority p
  | ThreadSetNice n => thread_set_nice n
  | TimerSleep n => timer_sleep n
  | TimerMsleep loops ms => timer_msleep loops ms
  | IntrDisable => intr_disable;; mret tt
  | IntrEnable => intr_enable;; mret tt
  | SemaInit a v => sema_init (SemaAt a) v
  | SemaDown a => sema_down (SemaAt a)
  | SemaTryDown a => sema_try_down (SemaAt a);; mret tt
  | SemaUp a => sema_up (SemaAt a)
  | LockInit l => lock_init l
  | LockAcquire l => lock_acquire l
  | LockTryAcquire l => lock_try_acquire l;; mret tt
  | LockRelease l => lock_release l
  | CondInit c => cond_init c
  | CondWait c l => cond_wait c l
  | CondSignal c l => cond_signal c l
  | CondBroadcast c l => cond_broadcast c l
  end.

(** ** Steps *)

Definition run_stack (s : kstate) : list frame :=
  match threads s !! running s with Some th => stack th | None => [] end.

(** The interrupt path of intr-stubs.S and [intr_handler] for the timer.  A
    CPU halted by [hlt] resumes after it. *)
Definition interrupt : K unit :=
  s ← st_get;
  (match run_stack s with
   | KHalted :: r => mod_thread (running s) (set_stack (λ _, KIdleLoop :: r))
   | _ => mret tt
   end);;
  push KIret;;
  st_modify (set_intr_on (λ _, false));;       (* the interrupt gate *)
  l ← intr_get_level; st_assert (negb l);;
  c ← intr_context; st_assert (negb c);;
  st_modify (set_in_external_intr (λ _, true));;
  st_modify (set_yield_on_return (λ _, false));;
  timer_interrupt;;
  l ← intr_get_level; st_assert (negb l);;
  c ← intr_context; st_assert c;;
  st_modify (set_in_external_intr (λ _, false));;
  s ← st_get;
  if yield_on_return s then thread_yield else mret tt.

Inductive label : Type :=
| Call (c : call)      (* the running thread's code makes a call *)
| Resume               (* the running thread continues a suspended call *)
| Tick.                (* the timer interrupts *)

Definition exec (l : label) : K unit :=
  match l with
  | Call c => exec_call c
  | Resume =>
      s ← st_get;
      match run_stack s with
      | [] => mret tt
      | f :: r => mod_thread (running s) (set_stack (λ _, r));; exec_frame f
      end
  | Tick => interrupt
  end.

(** What the callers owe: a fresh and existing page from the page allocator,
    arguments in range, no use of a lock the thread does not hold (or already
    holds), and objects initialized at addresses not in use. *)
Definition RAM_PAGES : positive := 16384%positive.

Definition holds (s : kstate) (l : loc) : bool :=
  bool_decide (locks s !! l = Some (Some (running s))).

Definition call_pre (s : kstate) (c : call) : bool :=
  match c with
  | ThreadCreate _ pri page =>
      (PRI_MIN <=? pri) && (pri <=? PRI_MAX) &&
      match page with
      | Some t => bool_decide (threads s !! t = None) && (t <=? RAM_PAGES)%positive
      | None => true
      end
  | ThreadYield | ThreadExit | ThreadSetPriority _ | ThreadSetNice _ | IntrDisable | IntrEnable => true
  | TimerSleep _ => intr_on s
  | TimerMsleep _ ms => intr_on s && bool_decide (in_s 64 ms)
  | SemaInit a v => bool_decide (semas s !! SemaAt a = None) && bool_decide (in_u 32 v)
  | SemaDown a | SemaTryDown a | SemaUp a => bool_decide (is_Some (semas s !! SemaAt a))
  | LockInit l => bool_decide (locks s !! l = None) && bool_decide (semas s !! LockSema l = None)
  | LockAcquire l | LockTryAcquire l =>
      bool_decide (is_Some (locks s !! l)) && bool_decide (l ≠ tid_lock) && negb (holds s l)
  | LockRelease l => bool_decide (l ≠ tid_lock) && holds s l
  | CondInit c => bool_decide (conds s !! c = None)
  | CondWait c l | CondSignal c l | CondBroadcast c l =>
      bool_decide (is_Some (conds s !! c)) && bool_decide (l ≠ tid_lock) && holds s l
  end.

Definition enabled (l : label) (s : kstate) : bool :=
  match l with
  | Call c => match run_stack s with [] => call_pre s c | _ => false end
  | Resume => match run_stack s with [] | KHalted :: _ => false | _ => true end
  | Tick => intr_on s
  end.

Inductive step : kstate → label → kstate → Prop :=
| step_exec s l s' : enabled l s = true → exec l s = Ok (tt, s') → step s l s'.

(** ** Boot *)

(** The machine before [thread_init]: the boot code runs on the page [main]
    with interrupts off. *)
Definition blank (main : loc) (aging mlfqs : bool) : kstate :=
  mk_kstate ∅ [] [] [] main None main false false false 0 0 0 0 0 1 aging mlfqs ∅ ∅ ∅.

(** [thread_init]: its last statement, the assignment of the first thread's
    tid, is a frame, followed by init.c's call of [thread_start]. *)
Definition thread_init (idle_started : sema_ref) (page : loc) : K unit :=
  l ← intr_get_level; st_assert (negb l);;
  lock_init tid_lock;;
  st_modify (set_ready_list (λ _, []));;
  st_modify (set_Sleep_list (λ _, []));;
  st_modify (set_all_list (λ _, []));;
  st_modify (set_load_avg (λ _, fp_from_int 0));;
  initial ← running_thread;
  st_modify (set_initial_thread (λ _, initial));;
  init_thread initial [109; 97; 105; 110] PRI_DEFAULT;;
  mod_thread initial (set_status (λ _, THREAD_RUNNING));;
  push (KThreadStart idle_started page);;
  push (KAllocTid initial).

Fixpoint resumes (n : nat) : K unit :=
  match n with
  | O => mret tt
  | S n => exec Resume;; resumes n
  end.

Definition main_page : loc := 1%positive.
Definition idle_page : loc := 2%positive.
Definition idle_sema : sema_ref := SemaAt 1.

(** The forced steps of the boot, with interrupts off throughout. *)
Definition boot_steps : nat := 19.

Definition boot (aging mlfqs : bool) : outcome (unit * kstate) :=
  (thread_init idle_sema idle_page;; resumes boot_steps) (blank main_page aging mlfqs).

Inductive reachable (aging mlfqs : bool) : kstate → Prop :=
| reach_boot s : boot aging mlfqs = Ok (tt, s) → reachable aging mlfqs s
| reach_step s l s' : reachable aging mlfqs s → step s l s' → reachable aging mlfqs s'.
