(* ===== verification/KernelInv.v ===== *)
(** The invariant of the kernel machine, and the lemmas that say which changes
    of the state keep it.  [Core] speaks about everything but the running
    thread, so that it also holds inside [schedule], where no thread runs;
    [Inv] adds the facts about the running thread. *)
From S2P Require Import Prelude ListSpec FixedPoint Kstate Interrupt Thread Synch Timer Machine.
Local Open Scope Z_scope.

(** ** Counting over the threads *)

Definition total (f : thread → Z) (m : gmap loc thread) : Z :=
  map_fold (λ _ th n, f th + n) 0 m.

Section total.
Implicit Types (f g : thread → Z) (m : gmap loc thread) (t : loc) (th : thread).

Lemma total_insert_new f m t th : m !! t = None → total f (<[t := th]> m) = f th + total f m.
Proof.
  intros. unfold total. rewrite (map_fold_insert_L _ _ t th m); [done | | done].
  intros. lia.
Qed.

Lemma total_delete f m t th : m !! t = Some th → total f (delete t m) = total f m - f th.
Proof.
  intros H. rewrite <-(insert_delete_id m t th H) at 2.
  rewrite total_insert_new by (by rewrite lookup_delete_eq). lia.
Qed.

Lemma total_insert f m t th th' :
  m !! t = Some th → total f (<[t := th']> m) = total f m - f th + f th'.
Proof.
  intros H. rewrite <-insert_delete_eq, total_insert_new by (by rewrite lookup_delete_eq).
  rewrite (total_delete f m t th H). lia.
Qed.

Lemma total_0 f m : (∀ t th, m !! t = Some th → f th = 0) → total f m = 0.
Proof.
  induction m as [|t th m Hm IH] using map_ind; [done |]. intros H.
  rewrite total_insert_new by done. rewrite (H t th), IH; [done | | by rewrite lookup_insert_eq].
  intros t' th' Ht'. apply (H t'). rewrite lookup_insert_ne; [done | congruence].
Qed.

Lemma total_nonneg f m : (∀ th, 0 ≤ f th) → 0 ≤ total f m.
Proof.
  intros Hf. induction m as [|t th m Hm IH] using map_ind; [done |].
  rewrite total_insert_new by done. pose proof (Hf th). lia.
Qed.

Lemma total_ge f m t th : (∀ th, 0 ≤ f th) → m !! t = Some th → f th ≤ total f m.
Proof.
  intros Hf H. pose proof (total_delete f m t th H). pose proof (total_nonneg f (delete t m) Hf).
  lia.
Qed.

End total.

(** ** Stacks *)

(** The frames that [schedule] returns to. *)
Definition resume_top (fs : list frame) : bool :=
  match fs with (KIntrSetLevel _ | KSemaLoop _ _ | KHlt | KKernelThread) :: _ => true | _ => false end.

(** The frames of threads that run their creator's code. *)
Definition client_frame (f : frame) : bool :=
  match f with
  | KStartWait _ | KThreadStart _ _ | KIdle _ | KIdleLoop | KHlt | KHalted
  | KCreateInherit _ (FIdle _) => false
  | _ => true
  end.

(** The stack of the idle thread: its loop, under the calls it makes. *)
Fixpoint idle_stack (fs : list frame) : bool :=
  match fs with
  | [KIdleLoop] | [KHlt] | [KHalted] => true
  | (KSemaUp _ | KCheckPreempt | KYield | KIntrSetLevel _ | KIret) :: r => idle_stack r
  | _ => false
  end.

(** The stack of the idle thread before it has declared itself. *)
Fixpoint boot_stack (fs : list frame) : bool :=
  match fs with
  | [KIdle _] => true
  | (KKernelThread | KIntrSetLevel _ | KIret) :: r => boot_stack r
  | _ => false
  end.

(** A frame that [schedule] returns to, or a halt, is always on top. *)
Definition under (f : frame) : bool :=
  match f with KIntrSetLevel _ | KSemaLoop _ _ | KHlt | KKernelThread | KHalted => false | _ => true end.

Definition under_ok (fs : list frame) : Prop :=
  match fs with [] => True | _ :: r => Forall (λ f, under f = true) r end.

(** The thread being created, if any: [create_stack t b fs] holds when [fs]
    is inside a [thread_create] of [t], with [b] when the stack of [t] is
    built. *)
Definition create_frame (f : frame) : option loc :=
  match f with
  | KAllocTid t | KTakeTid t | KSetTid t _ | KCreateInherit t _ | KCreateUnblock t => Some t
  | _ => None
  end.

Fixpoint create_stack (t : loc) (b : bool) (fs : list frame) : Prop :=
  match fs with
  | [] => False
  | KCreateInherit t' _ :: r => t' = t ∧ b = false ∧ r = []
  | KCreateUnblock t' :: r => t' = t ∧ b = true ∧ r = []
  | (KAllocTid t' | KTakeTid t' | KSetTid t' _) :: r => t' = t ∧ create_stack t b r
  | _ :: r => create_stack t b r
  end.

Definition plain_stack (fs : list frame) : Prop := Forall (λ f, create_frame f = None) fs.

(** The frames that stand for having taken the semaphore of lock [l]: the
    value 1 of the semaphore, the holder, and these frames make one token. *)
Definition owns_frame (l : loc) (f : frame) : Z :=
  match f with
  | KSetHolder l' => if decide (l = l') then 1 else 0
  | KSemaUp r => if decide (r = LockSema l) then 1 else 0
  | _ => 0
  end.

(** A [lock_acquire] that waits in [sema_down] has its [KSetHolder] below, and
    owns nothing yet. *)
Fixpoint owned (l : loc) (fs : list frame) : Z :=
  match fs with
  | [] => 0
  | KSemaLoop (LockSema _) _ :: r => match r with [] => 0 | _ :: r' => owned l r' end
  | f :: r => owns_frame l f + owned l r
  end.

(** The lock assertions ahead on a stack pass, given the locks held now. *)
Fixpoint locks_ok (held : loc → Prop) (fs : list frame) : Prop :=
  match fs with
  | [] => ¬ held tid_lock
  | KSetHolder l :: r | KLockAcquire l :: r => ¬ held l ∧ locks_ok (λ l', l' = l ∨ held l') r
  | KTakeTid _ :: r => held tid_lock ∧ locks_ok (λ l', l' ≠ tid_lock ∧ held l') r
  | KAllocTid _ :: r => ¬ held tid_lock ∧ locks_ok held r
  | KBroadcast _ l :: r => held l ∧ l ≠ tid_lock ∧ locks_ok held r
  | KSemaLoop (LockSema l) _ :: r => (∃ r', r = KSetHolder l :: r') ∧ locks_ok held r
  | KSemaDown (LockSema _) :: _ => False
  | _ :: r => locks_ok held r
  end.

Definition holder_is (s : kstate) (t : loc) (l : loc) : Prop := locks s !! l = Some (Some t).

(** The objects a frame of thread [t] refers to exist. *)
Definition refs_ok (s : kstate) (t : loc) (f : frame) : Prop :=
  match f with
  | KSemaLoop r _ | KSemaDown r =>
      is_Some (semas s !! r) ∧ match r with WaiterSema t' => t' = t | _ => True end
  | KSemaUp r => is_Some (semas s !! r)
  | KSetHolder l | KLockAcquire l => is_Some (locks s !! l)
  | KBroadcast c l => is_Some (conds s !! c) ∧ is_Some (locks s !! l)
  | KIdle r => is_Some (semas s !! r) ∧ match r with SemaAt _ => True | _ => False end
  | _ => True
  end.

(** A thread that will retry [sema_down (r)] when it runs. *)
Definition awake (r : sema_ref) (th : thread) : Z :=
  match status th, stack th with
  | THREAD_BLOCKED, _ => 0
  | _, KSemaLoop r' _ :: _ => if decide (r' = r) then 1 else 0
  | _, _ => 0
  end.

Definition holder_count (h : option loc) : Z := match h with Some _ => 1 | None => 0 end.

(** ** The invariant *)

(** Why a blocked thread is blocked. *)
Definition blocked_ok (s : kstate) (t : loc) : Prop :=
  t ∈ Sleep_list s ∨ (∃ r x, semas s !! r = Some x ∧ t ∈ waiters x) ∨ idle_thread s = Some t ∨
  (∃ c th b, threads s !! c = Some th ∧ create_stack t b (stack th)).

Record Core (s : kstate) : Prop := {
  c_ready : ∀ t, t ∈ ready_list s → ∃ th, threads s !! t = Some th ∧ status th = THREAD_READY ∧
    idle_thread s ≠ Some t;
  c_ready_nodup : NoDup (ready_list s);
  c_ready_all : ∀ t th, threads s !! t = Some th → status th = THREAD_READY →
    resume_top (stack th) = true ∧ (t ∈ ready_list s ∨ idle_thread s = Some t);
  c_sleep : ∀ t, t ∈ Sleep_list s → ∃ th o r, threads s !! t = Some th ∧
    status th = THREAD_BLOCKED ∧ stack th = KIntrSetLevel o :: r ∧ t ≠ idle_page;
  c_sleep_nodup : NoDup (Sleep_list s);
  c_wait : ∀ r x t, semas s !! r = Some x → t ∈ waiters x → ∃ th o fs,
    threads s !! t = Some th ∧ status th = THREAD_BLOCKED ∧ stack th = KSemaLoop r o :: fs;
  c_wait_nodup : ∀ r x, semas s !! r = Some x → NoDup (waiters x) ∧ 0 ≤ value x < 4294967296;
  c_awake : ∀ r x, semas s !! r = Some x → waiters x ≠ [] → value x ≤ total (awake r) (threads s);
  c_blocked : ∀ t th, threads s !! t = Some th → status th = THREAD_BLOCKED → blocked_ok s t;
  c_ready_sorted : StronglySorted (le_of (thread_priority_greater s)) (ready_list s);
  c_sleep_sorted : StronglySorted (le_of (wakeup_tick_less s)) (Sleep_list s);
  c_wait_sorted : thread_mlfqs s = false → ∀ r x, semas s !! r = Some x →
    StronglySorted (le_of (thread_priority_greater s)) (waiters x);
  c_all : ∀ t, t ∈ all_list s ↔ ∃ th, threads s !! t = Some th ∧ status th ≠ THREAD_DYING;
  c_all_nodup : NoDup (all_list s);
  c_dying : ∀ t th, threads s !! t = Some th → status th = THREAD_DYING →
    stack th = [] ∧ t ≠ idle_page ∧ (t = initial_thread s ∨ t = running s);
  c_idle : ∃ th, threads s !! idle_page = Some th ∧
    match idle_thread s with
    | Some i => i = idle_page ∧ idle_stack (stack th) = true ∧
                (status th = THREAD_BLOCKED → resume_top (stack th) = true)
    | None => boot_stack (stack th) = true
    end;
  c_client : ∀ t th, t ≠ idle_page → threads s !! t = Some th →
    Forall (λ f, client_frame f = true) (stack th);
  c_create : ∀ c th t b, threads s !! c = Some th → create_stack t b (stack th) →
    t ≠ idle_page ∧ ∃ th', threads s !! t = Some th' ∧ status th' = THREAD_BLOCKED ∧
      (stack th' = [KKernelThread] ∨ (b = false ∧ stack th' = []));
  c_plain : ∀ c th, threads s !! c = Some th →
    plain_stack (stack th) ∨ ∃ t b, create_stack t b (stack th);
  c_create_one : ∀ c1 c2 th1 th2 t b1 b2, threads s !! c1 = Some th1 → threads s !! c2 = Some th2 →
    create_stack t b1 (stack th1) → create_stack t b2 (stack th2) → c1 = c2;
  c_locks : ∀ l h, locks s !! l = Some h → ∃ x, semas s !! LockSema l = Some x ∧
    value x + holder_count h + total (λ th, owned l (stack th)) (threads s) = 1;
  c_lock_semas : ∀ l, is_Some (semas s !! LockSema l) → is_Some (locks s !! l);
  c_tid_lock : ∃ h, locks s !! tid_lock = Some h ∧ ∀ t, h = Some t → is_Some (threads s !! t);
  c_locks_ok : ∀ t th, threads s !! t = Some th → locks_ok (holder_is s t) (stack th);
  c_refs : ∀ t th, threads s !! t = Some th → Forall (refs_ok s t) (stack th);
  c_conds : ∀ c w t, conds s !! c = Some w → t ∈ w → is_Some (semas s !! WaiterSema t);
  c_under : ∀ t th, threads s !! t = Some th → under_ok (stack th);
  c_page : ∀ t th, threads s !! t = Some th → (t ≤ RAM_PAGES)%positive;
  c_load : 0 ≤ load_avg s ≤ 268435456
}.

Record Inv (s : kstate) : Prop := {
  i_core : Core s;
  i_run : ∃ th, threads s !! running s = Some th ∧ status th = THREAD_RUNNING;
  i_one : ∀ t th, threads s !! t = Some th → status th = THREAD_RUNNING → t = running s;
  i_intr : resume_top (run_stack s) = true → intr_on s = false;
  i_halt : ∀ r, run_stack s = KHalted :: r → intr_on s = true;
  i_ctx : in_external_intr s = false;
  i_preempt : need_preempt s (running s) = true →
    ∃ r, run_stack s = KCheckPreempt :: r ∨ run_stack s = KYield :: r
}.

(** ** Generic facts *)

Section facts.
Implicit Types (s : kstate) (t c : loc) (th : thread) (l : loc) (r : sema_ref) (fs : list frame).

Lemma sorted_ext {A} (R R' : A → A → Prop) (l : list A) :
  (∀ x y, x ∈ l → y ∈ l → R x y → R' x y) → StronglySorted R l → StronglySorted R' l.
Proof.
  induction l as [|x l IH]; intros H Hs; [constructor |].
  apply StronglySorted_inv in Hs as [Hs Hx]. constructor.
  - apply IH; [| done]. intros y z Hy Hz. apply H; by right.
  - rewrite Forall_forall in Hx |- *. intros y Hy. apply H; [left | by right | by apply Hx].
Qed.

#[export] Instance greater_weak s : StrictWeak (thread_priority_greater s).
Proof. split; unfold thread_priority_greater; intros; lia. Qed.
#[export] Instance wake_weak s : StrictWeak (wakeup_tick_less s).
Proof. split; unfold wakeup_tick_less; intros; lia. Qed.

(** Induction on stacks that passes a waiting [lock_acquire] at once. *)
Lemma owned_nonneg l fs : 0 ≤ owned l fs.
Proof.
  enough (0 ≤ owned l fs ∧ ∀ f, 0 ≤ owned l (f :: fs)) as [? _] by done.
  induction fs as [|g fs [IH1 IH2]]; simpl.
  - split; [done |]. intros []; simpl; try case_decide; try lia. by destruct s.
  - split; [apply IH2 |]. specialize (IH2 g). simpl in IH2.
    intros []; simpl; try case_decide; try lia. destruct s; lia.
Qed.

Lemma awake_nonneg r th : 0 ≤ awake r th.
Proof. unfold awake. destruct (status th), (stack th) as [|[] ?]; try lia; case_decide; lia. Qed.

Lemma locks_ok_ext (P Q : loc → Prop) fs :
  (∀ l, P l ↔ Q l) → locks_ok P fs → locks_ok Q fs.
Proof.
  revert P Q. induction fs as [|f fs IH]; simpl; intros P Q H; [by rewrite H |].
  destruct f; try (by apply IH).
  - destruct s; try (by apply IH). intros [H1 H2]. split; [done |]. by eapply IH.
  - destruct s; [by apply IH | done | by apply IH].
  - intros [H1 H2]. split; [by rewrite <-H |]. eapply IH; [| exact H2]. intros l'. simpl. by rewrite H.
  - intros [H1 H2]. split; [by rewrite <-H |]. eapply IH; [| exact H2]. intros l'. simpl. by rewrite H.
  - intros (H1 & H2 & H3). split_and!; [by rewrite <-H | done |]. by eapply IH.
  - intros [H1 H2]. split; [by rewrite <-H |]. by eapply IH.
  - intros [H1 H2]. split; [by rewrite <-H |]. eapply IH; [| exact H2]. intros l'. simpl. by rewrite H.
Qed.

(** A lock that is not initialized owns no frame. *)
Lemma owned_fresh s t l fs :
  Forall (refs_ok s t) fs → locks s !! l = None → semas s !! LockSema l = None → owned l fs = 0.
Proof.
  intros H Hl Hs.
  enough (owned l fs = 0 ∧ ∀ f, refs_ok s t f → owned l (f :: fs) = 0) as [? _] by done.
  assert (∀ f, refs_ok s t f → owns_frame l f = 0) as Hf.
  { intros f Hf. destruct f; simpl in *; try done; case_decide; subst; try done.
    - rewrite Hs in Hf. by destruct Hf.
    - rewrite Hl in Hf. by destruct Hf. }
  induction H as [|g fs Hg _ [IH1 IH2]]; (split; [by auto |]); intros f Hff; pose proof (Hf f Hff) as Ho.
  - destruct f; simpl in *; try lia. destruct s0; lia.
  - specialize (IH2 g Hg). destruct f as [| | | |[|l'|] o|s0|s0|l0|l0|c0 l0|t0|t0|t0 n0|t0 f0|t0|b0 n0|w0|s0|s0 p0| |s0| | |];
      try (match goal with |- owned l (?f :: ?r) = 0 => change (owns_frame l f + owned l r = 0) end; lia).
    exact IH1.
Qed.

Lemma create_not_plain t b fs : create_stack t b fs → ¬ plain_stack fs.
Proof.
  unfold plain_stack. induction fs as [|f fs IH]; [done |]. intros Hc Hp.
  apply Forall_cons in Hp as [Hf Hp]. destruct f; simpl in *; try done; by apply IH.
Qed.
End facts.

(** ** Steps that only the running thread sees *)

(** The shape a stack of thread [t] must keep. *)
Definition shape_ok (s : kstate) (t : loc) (fs : list frame) : Prop :=
  if decide (t = idle_page)
  then match idle_thread s with Some _ => idle_stack fs = true | None => boot_stack fs = true end
  else Forall (λ f, client_frame f = true) fs.

(** A thread creation in progress goes on; it may pass to its last part when
    the new thread's stack is built. *)
Definition create_step (s : kstate) (fs fs' : list frame) : Prop :=
  (∀ t b, create_stack t b fs' → ∃ b0, create_stack t b0 fs ∧
    (b = true → b0 = true ∨ ∃ th, threads s !! t = Some th ∧ stack th = [KKernelThread])) ∧
  (∀ t b, create_stack t b fs → ∃ b', create_stack t b' fs').

Lemma create_iff_step s fs fs' :
  (∀ t b, create_stack t b fs' ↔ create_stack t b fs) → create_step s fs fs'.
Proof.
  intros H. split; intros t b Hc; exists b; rewrite ?H in *; [| done].
  split; [done | by left].
Qed.

(** From [s] to [s'], the running thread's block goes from [th] to [th'], and
    semaphores and locks change in ways that keep every waiter, every lock's
    token and every other thread's locks. *)
Record Local (s s' : kstate) (th th' : thread) : Prop := {
  l_threads : threads s' = <[running s := th']> (threads s);
  l_status : status th' = THREAD_RUNNING;
  l_sched : ready_list s' = ready_list s ∧ Sleep_list s' = Sleep_list s ∧
    all_list s' = all_list s ∧ running s' = running s ∧ idle_thread s' = idle_thread s ∧
    initial_thread s' = initial_thread s ∧ thread_mlfqs s' = thread_mlfqs s ∧
    load_avg s' = load_avg s;
  l_shape : shape_ok s (running s) (stack th');
  l_under : under_ok (stack th');
  l_create : create_step s (stack th) (stack th');
  l_plain : plain_stack (stack th) → plain_stack (stack th');
  l_semas : ∀ r x', semas s' !! r = Some x' → 0 ≤ value x' < 4294967296 ∧
    ((waiters x' = [] ∧ ∀ x, semas s !! r = Some x → waiters x = []) ∨
     ∃ x, semas s !! r = Some x ∧ waiters x' = waiters x ∧
       (waiters x ≠ [] → value x' - awake r th' ≤ value x - awake r th ∨
          value x' ≤ total (awake r) (threads s')));
  l_semas_grow : ∀ r, is_Some (semas s !! r) → is_Some (semas s' !! r);
  l_locks_grow : ∀ l, is_Some (locks s !! l) → is_Some (locks s' !! l);
  l_conds_grow : ∀ c, is_Some (conds s !! c) → is_Some (conds s' !! c);
  l_conds : ∀ c w t, conds s' !! c = Some w → t ∈ w →
    (∃ w0, conds s !! c = Some w0 ∧ t ∈ w0) ∨ is_Some (semas s' !! WaiterSema t);
  l_lock_semas : ∀ l, is_Some (semas s' !! LockSema l) →
    is_Some (semas s !! LockSema l) ∨ is_Some (locks s' !! l);
  l_tokens : ∀ l h', locks s' !! l = Some h' → ∃ x', semas s' !! LockSema l = Some x' ∧
    ((locks s !! l = None ∧ semas s !! LockSema l = None ∧ value x' = 1 ∧ h' = None ∧
      owned l (stack th') = 0) ∨
     ∃ h x, locks s !! l = Some h ∧ semas s !! LockSema l = Some x ∧
       value x' + holder_count h' + owned l (stack th') =
       value x + holder_count h + owned l (stack th));
  l_holders : ∀ t l, t ≠ running s → holder_is s' t l ↔ holder_is s t l;
  l_locks_ok : locks_ok (holder_is s' (running s)) (stack th');
  l_refs : Forall (refs_ok s' (running s)) (stack th')
}.

Section local.
Implicit Types (s : kstate) (t c : loc) (th : thread) (l : loc) (r : sema_ref) (fs : list frame).

(** A thread in a queue is not the running one. *)
Lemma prio_insert s s' th th' t :
  threads s' = <[running s := th']> (threads s) → t ≠ running s → prio s' t = prio s t.
Proof. intros E Ht. unfold prio. by rewrite E, lookup_insert_ne. Qed.
Lemma wake_insert s s' th th' t :
  threads s' = <[running s := th']> (threads s) → t ≠ running s → wake s' t = wake s t.
Proof. intros E Ht. unfold wake. by rewrite E, lookup_insert_ne. Qed.

Lemma refs_mono s s' t f :
  (∀ r, is_Some (semas s !! r) → is_Some (semas s' !! r)) →
  (∀ l, is_Some (locks s !! l) → is_Some (locks s' !! l)) →
  (∀ c, is_Some (conds s !! c) → is_Some (conds s' !! c)) →
  refs_ok s t f → refs_ok s' t f.
Proof. intros H1 H2 H3. destruct f; simpl; naive_solver. Qed.

Lemma core_local s s' th th' :
  Core s → threads s !! running s = Some th → status th = THREAD_RUNNING →
  Local s s' th th' → Core s'.
Proof.
  intros HC Hr Hst HL. destruct HL as [ET Hst' Hs Hshape Hund [Hcr Hcr'] Hpl Hsem HsG HlG HcG HcS Hls Htok Hhold Hlok Href].
  destruct Hs as (ER & ES & EA & ERun & EI & EIn & EM & ELd).
  assert (∀ t th0, threads s !! t = Some th0 → status th0 ≠ THREAD_RUNNING → t ≠ running s) as Hne
    by (intros t th0 E1 E2 ->; congruence).
  assert (∀ t th0, t ≠ running s → threads s !! t = Some th0 → threads s' !! t = Some th0) as Hkeep
    by (intros t th0 ? ?; by rewrite ET, lookup_insert_ne).
  assert (∀ t th0, threads s' !! t = Some th0 →
    (t = running s ∧ th0 = th') ∨ (t ≠ running s ∧ threads s !! t = Some th0)) as Hinv.
  { intros t th0. rewrite ET, lookup_insert_Some. naive_solver. }
  assert (threads s' !! running s = Some th') as Hr' by (by rewrite ET, lookup_insert_eq).
  assert (∀ t, t ∈ ready_list s → t ≠ running s) as NR.
  { intros t Ht. destruct (c_ready s HC t Ht) as (th0 & E & Est & _). apply (Hne _ _ E). congruence. }
  assert (∀ t, t ∈ Sleep_list s → t ≠ running s) as NS.
  { intros t Ht. destruct (c_sleep s HC t Ht) as (th0 & o & r0 & E & Est & _).
    apply (Hne _ _ E). congruence. }
  assert (∀ r x t, semas s !! r = Some x → t ∈ waiters x → t ≠ running s) as NW.
  { intros r x t Hx Ht. destruct (c_wait s HC r x t Hx Ht) as (th0 & o & r0 & E & Est & _).
    apply (Hne _ _ E). congruence. }
  split.
  - intros t Ht. rewrite ER in Ht. rewrite EI. destruct (c_ready s HC t Ht) as (th0 & E & ?).
    exists th0. split; [| done]. apply Hkeep; [by apply NR | done].
  - rewrite ER. apply (c_ready_nodup s HC).
  - intros t th0 E Hrd. rewrite ER, EI. apply Hinv in E as [[-> ->]|[? E]]; [congruence |].
    by apply (c_ready_all s HC t th0).
  - intros t Ht. rewrite ES in Ht. destruct (c_sleep s HC t Ht) as (th0 & o & r0 & E & ?).
    exists th0, o, r0. split; [| done]. apply Hkeep; [by apply NS | done].
  - rewrite ES. apply (c_sleep_nodup s HC).
  - intros r x' t Hx' Ht. destruct (Hsem r x' Hx') as [_ [[Hw _]|(x & Hx & Hw & _)]].
    { rewrite Hw in Ht. by apply not_elem_of_nil in Ht. }
    rewrite Hw in Ht. destruct (c_wait s HC r x t Hx Ht) as (th0 & o & fs & E & ?).
    exists th0, o, fs. split; [| done]. apply Hkeep; [by eapply NW | done].
  - intros r x' Hx'. destruct (Hsem r x' Hx') as [? [[Hw _]|(x & Hx & Hw & _)]]; rewrite Hw.
    + split; [constructor | done].
    + split; [by apply (c_wait_nodup s HC r) | done].
  - intros r x' Hx' Hne'. destruct (Hsem r x' Hx') as [_ [[Hw _]|(x & Hx & Hw & Haw)]]; [done |].
    rewrite Hw in Hne'. pose proof (c_awake s HC r x Hx Hne'). destruct (Haw Hne') as [Haw'|]; [| done].
    rewrite ET, (total_insert _ _ _ _ _ Hr). lia.
  - intros t th0 E Hb. apply Hinv in E as [[-> ->]|[? E]]; [congruence |].
    destruct (c_blocked s HC t th0 E Hb) as [Hp|[(r & x & Hx & Hw)|[Hq|(c & thc & b & Ec & Hc)]]].
    + left. by rewrite ES.
    + right. left. destruct (HsG r) as [x' Hx']; [by eexists |]. exists r, x'. split; [done |].
      destruct (Hsem r x' Hx') as [_ [[_ Hw']|(x0 & Hx0 & Hw' & _)]].
      * rewrite (Hw' x Hx) in Hw. by apply not_elem_of_nil in Hw.
      * congruence.
    + right. right. left. by rewrite EI.
    + right. right. right. destruct (decide (c = running s)) as [->|Hc'].
      * destruct (Hcr' t b) as [b' ?]; [congruence |]. by exists (running s), th', b'.
      * exists c, thc, b. split; [by apply Hkeep | done].
  - rewrite ER. eapply sorted_ext; [| apply (c_ready_sorted s HC)].
    intros x y Hx Hy. unfold le_of, thread_priority_greater.
    by rewrite !(prio_insert s s' th th') by auto.
  - rewrite ES. eapply sorted_ext; [| apply (c_sleep_sorted s HC)].
    intros x y Hx Hy. unfold le_of, wakeup_tick_less.
    by rewrite !(wake_insert s s' th th') by auto.
  - rewrite EM. intros Hm r x' Hx'. destruct (Hsem r x' Hx') as [_ [[Hw _]|(x & Hx & Hw & _)]];
      rewrite Hw; [constructor |].
    eapply sorted_ext; [| apply (c_wait_sorted s HC Hm r x Hx)].
    intros y z Hy Hz. unfold le_of, thread_priority_greater.
    by rewrite !(prio_insert s s' th th') by eauto.
  - intros t. rewrite EA, (c_all s HC t). rewrite ET.
    destruct (decide (t = running s)) as [->|Ht].
    + rewrite lookup_insert_eq. split; intros _; eexists; (split; [done |]); congruence.
    + by rewrite lookup_insert_ne.
  - rewrite EA. apply (c_all_nodup s HC).
  - intros t th0 E Hd. rewrite EIn, ERun. apply Hinv in E as [[-> ->]|[? E]]; [congruence |].
    by apply (c_dying s HC t th0).
  - rewrite EI. destruct (c_idle s HC) as (th0 & E & Hi). unfold shape_ok in Hshape.
    destruct (decide (running s = idle_page)) as [Eq|Hn].
    + exists th'. rewrite <-Eq. split; [done |]. destruct (idle_thread s); [| done].
      destruct Hi as [-> Hi]. split_and!; [done..| congruence].
    + exists th0. split; [by apply Hkeep | done].
  - intros t th0 Ht E. apply Hinv in E as [[-> ->]|[? E]]; [| by apply (c_client s HC t)].
    unfold shape_ok in Hshape. by rewrite decide_False in Hshape.
  - intros c th0 t b E Hc.
    assert (∃ thc b0, threads s !! c = Some thc ∧ create_stack t b0 (stack thc) ∧
      (b = true → b0 = true ∨ ∃ th, threads s !! t = Some th ∧ stack th = [KKernelThread]))
      as (thc & b0 & Ec & Hc' & Hb0).
    { apply Hinv in E as [[-> ->]|[? E]]; [| by exists th0, b; auto].
      destruct (Hcr t b Hc) as (b0 & ? & ?). by exists th, b0. }
    destruct (c_create s HC c thc t b0 Ec Hc') as (? & th1 & E1 & Hb1 & Hstk1).
    split; [done |]. exists th1. split_and!; [| done |].
    + apply Hkeep; [| done]. apply (Hne _ _ E1). congruence.
    + destruct b; [left | destruct Hstk1 as [?|[_ ?]]; [by left | by right]].
      destruct Hb0 as [->|(th2 & E2 & ?)]; [done | by destruct Hstk1 as [?|[? _]] | congruence].
  - intros c th0 E. apply Hinv in E as [[-> ->]|[? E]]; [| by apply (c_plain s HC c)].
    destruct (c_plain s HC _ _ Hr) as [Hp|(t & b & Hp)]; [left; auto | right].
    destruct (Hcr' t b Hp) as [b' ?]. by exists t, b'.
  - assert (∀ c th0 t b, threads s' !! c = Some th0 → create_stack t b (stack th0) →
      ∃ thc b0, threads s !! c = Some thc ∧ create_stack t b0 (stack thc)) as Hc1.
    { intros c th0 t b E Hc. apply Hinv in E as [[-> ->]|[? E]]; [| by exists th0, b].
      destruct (Hcr t b Hc) as (b0 & ? & _). by exists th, b0. }
    intros c1 c2 th1 th2 t b1 b2 E1 E2 H1 H2.
    destruct (Hc1 _ _ _ _ E1 H1) as (? & ? & ? & ?). destruct (Hc1 _ _ _ _ E2 H2) as (? & ? & ? & ?).
    by eapply (c_create_one s HC).
  - intros l h' Hl. destruct (Htok l h' Hl) as (x' & Hx' & [(Hln & Hsn & Hv & -> & Ho)|(h & x & Hlo & Hx & Ht)]).
    + exists x'. split; [done |]. rewrite total_0, Hv; [done |].
      intros t th0 E. apply Hinv in E as [[-> ->]|[? E]]; [done |].
      eapply owned_fresh; [by apply (c_refs s HC) | done..].
    + exists x'. split; [done |]. destruct (c_locks s HC l h Hlo) as (x0 & Hx0 & Hsum).
      rewrite ET, (total_insert _ _ _ _ _ Hr). simplify_eq. lia.
  - intros l Hl. destruct (Hls l Hl) as [Hl'|?]; [| done]. apply HlG. by apply (c_lock_semas s HC).
  - destruct (c_tid_lock s HC) as (h & Hh & Hal).
    destruct (HlG tid_lock) as [h' Hh']; [by eexists |]. exists h'. split; [done |]. intros t ->.
    destruct (decide (t = running s)) as [->|Ht]; [by eexists |].
    apply (Hhold t tid_lock Ht) in Hh'. unfold holder_is in Hh'. rewrite Hh in Hh'.
    destruct (Hal t) as [th0 E]; [congruence |]. exists th0. by apply Hkeep.
  - intros t th0 E. apply Hinv in E as [[-> ->]|[Ht E]]; [done |].
    eapply locks_ok_ext; [| by apply (c_locks_ok s HC t)]. intros l. by rewrite (Hhold t l Ht).
  - intros t th0 E. apply Hinv in E as [[-> ->]|[Ht E]]; [done |].
    eapply Forall_impl; [by apply (c_refs s HC t) |]. intros f. by apply refs_mono.
  - intros c w t Hc Ht. destruct (HcS c w t Hc Ht) as [(w0 & Hc0 & Ht0)|?]; [| done].
    apply HsG. by apply (c_conds s HC c w0).
  - intros t th0 E. apply Hinv in E as [[-> ->]|[Ht E]]; [done | by eapply (c_under s HC)].
  - intros t th0 E. apply Hinv in E as [[-> ->]|[Ht E]]; by eapply (c_page s HC).
  - rewrite ELd. apply (c_load s HC).
Qed.

(** Steps that change the running thread's stack and nothing shared. *)
Lemma local_stack s s' th th' :
  threads s' = <[running s := th']> (threads s) → status th' = THREAD_RUNNING →
  ready_list s' = ready_list s ∧ Sleep_list s' = Sleep_list s ∧ all_list s' = all_list s ∧
  running s' = running s ∧ idle_thread s' = idle_thread s ∧
  initial_thread s' = initial_thread s ∧ thread_mlfqs s' = thread_mlfqs s ∧
  load_avg s' = load_avg s →
  semas s' = semas s → locks s' = locks s →
  (∀ c, is_Some (conds s !! c) → is_Some (conds s' !! c)) →
  (∀ c w t, conds s' !! c = Some w → t ∈ w → ∃ w0, conds s !! c = Some w0 ∧ t ∈ w0) →
  Core s → shape_ok s (running s) (stack th') → under_ok (stack th') →
  create_step s (stack th) (stack th') →
  (plain_stack (stack th) → plain_stack (stack th')) →
  (∀ l, owned l (stack th') = owned l (stack th)) →
  (∀ r, awake r th ≤ awake r th') →
  locks_ok (holder_is s (running s)) (stack th') →
  Forall (refs_ok s (running s)) (stack th') → Local s s' th th'.
Proof.
  intros ET Hst' Hs Esem Elock Econd Econd2 HC Hshape Hund Hcr Hpl Hown Haw Hlok Href.
  split; rewrite ?Esem, ?Elock; try done; [| by eauto |..].
  - intros r x Hx. split; [by apply (c_wait_nodup s HC r) |]. right. exists x.
    split_and!; [done..|]. intros _. left. specialize (Haw r). lia.
  - intros l. by left.
  - intros l h Hl. destruct (c_locks s HC l h Hl) as (x & Hx & _). exists x.
    split; [done |]. right. exists h, x. rewrite Hown. done.
  - intros t l _. unfold holder_is. by rewrite Elock.
  - eapply locks_ok_ext; [| exact Hlok]. intros l. unfold holder_is. by rewrite Elock.
  - eapply Forall_impl; [exact Href |]. intros f. apply refs_mono; by rewrite ?Esem, ?Elock.
Qed.
End local.

(** ** A blocked thread becomes ready *)

(** [t] leaves the sleep queue, the waiters of a semaphore, or the hands of its
    creator, the running thread, and joins the ready queue. *)
Record Unblock (s s' : kstate) (t : loc) (th th' tht : thread) : Prop := {
  u_block : threads s !! t = Some tht ∧ status tht = THREAD_BLOCKED ∧ t ≠ idle_page;
  u_top : resume_top (stack tht) = true;
  u_threads : threads s' = <[t := set_status (λ _, THREAD_READY) tht]> (<[running s := th']> (threads s));
  u_run : status th' = THREAD_RUNNING ∧
    (stack th' = stack th ∨ (stack th = [KCreateUnblock t] ∧ stack th' = []));
  u_same : all_list s' = all_list s ∧ running s' = running s ∧ idle_thread s' = idle_thread s ∧
    initial_thread s' = initial_thread s ∧ thread_mlfqs s' = thread_mlfqs s ∧
    load_avg s' = load_avg s ∧ locks s' = locks s ∧ conds s' = conds s;
  u_ready : ready_list s' = insert_ordered (thread_priority_greater s') t (ready_list s);
  u_sleep : (Sleep_list s = t :: Sleep_list s') ∨ (Sleep_list s' = Sleep_list s ∧ t ∉ Sleep_list s);
  u_wait : (∃ r x q, semas s !! r = Some x ∧ waiters x = t :: q ∧
              semas s' = <[r := mk_sema (value x) q]> (semas s)) ∨
    (semas s' = semas s ∧ ∀ r x, semas s !! r = Some x → t ∉ waiters x);
  u_create : ∀ c thc b, threads s' !! c = Some thc → ¬ create_stack t b (stack thc)
}.

Section unblock.
Implicit Types (s : kstate) (t c n : loc) (th : thread) (l : loc) (r : sema_ref) (fs : list frame).

Lemma core_unblock s s' t th th' tht :
  Core s → threads s !! running s = Some th → status th = THREAD_RUNNING →
  Unblock s s' t th th' tht → Core s'.
Proof.
  intros HC Hr Hst HU.
  destruct HU as [(Et & Eb & Hni) Htop ET [Hst' Hrun] Hs URd Usl Uw Ucr].
  destruct Hs as (EA & ERun & EI & EIn & EM & ELd & ELk & ECd).
  set (tht' := set_status (λ _, THREAD_READY) tht) in *.
  assert (t ≠ running s) as Htr by (intros ->; congruence).
  assert (∀ u thu, threads s' !! u = Some thu →
    (u = t ∧ thu = tht') ∨ (u = running s ∧ thu = th') ∨
    (u ≠ t ∧ u ≠ running s ∧ threads s !! u = Some thu)) as Hinv.
  { intros u thu. rewrite ET, !lookup_insert_Some. naive_solver. }
  assert (threads s' !! t = Some tht') as Et' by (by rewrite ET, lookup_insert_eq).
  assert (threads s' !! running s = Some th') as Er'
    by (by rewrite ET, lookup_insert_ne, lookup_insert_eq by done).
  assert (∀ u thu, u ≠ t → u ≠ running s → threads s !! u = Some thu → threads s' !! u = Some thu) as Hkeep
    by (intros; by rewrite ET, !lookup_insert_ne by done).
  assert (∀ u thu, threads s !! u = Some thu → status thu ≠ THREAD_RUNNING → u ≠ t →
    threads s' !! u = Some thu) as Hkeep2.
  { intros u thu E Hn Hne. apply Hkeep; [done | | done]. intros ->. congruence. }
  assert (∀ u thu, threads s' !! u = Some thu → ∃ th1, threads s !! u = Some th1 ∧
    (stack thu = stack th1 ∨ (stack th1 = [KCreateUnblock t] ∧ stack thu = []))) as Hold.
  { intros u thu E. destruct (Hinv u thu E) as [[-> ->]|[[-> ->]|(_ & _ & E0)]]; eauto. }
  assert (∀ u thu, threads s !! u = Some thu → ∃ th1, threads s' !! u = Some th1 ∧
    (stack th1 = stack thu ∨ (stack thu = [KCreateUnblock t] ∧ stack th1 = []))) as Hnew.
  { intros u thu E. destruct (decide (u = t)) as [->|]; [exists tht'; split; [done | left; by simplify_eq] |].
    destruct (decide (u = running s)) as [->|]; [exists th'; split; [done |]; by simplify_eq | eauto]. }
  assert (t ∉ ready_list s) as Htq.
  { intros Hin. destruct (c_ready s HC t Hin) as (? & ? & ? & _). congruence. }
  assert (∀ u, u ∈ Sleep_list s' → u ∈ Sleep_list s ∧ u ≠ t) as Hsl.
  { intros u Hu. pose proof (c_sleep_nodup s HC) as Hnd. destruct Usl as [E|[E Hn]].
    - rewrite E in *. apply NoDup_cons in Hnd as [? _]. split; [by right | by intros ->].
    - rewrite E in Hu. split; [done | by intros ->]. }
  assert (∀ u, u ∈ Sleep_list s → u ∈ Sleep_list s' ∨ u = t) as Hsl'.
  { intros u Hu. destruct Usl as [E|[E _]]; [rewrite E in Hu | rewrite E; auto].
    apply elem_of_cons in Hu as [?|?]; auto. }
  assert (∀ r x', semas s' !! r = Some x' → ∃ x, semas s !! r = Some x ∧ value x' = value x ∧
    ((t ∉ waiters x ∧ waiters x' = waiters x) ∨ waiters x = t :: waiters x')) as HW.
  { intros r x'. destruct Uw as [(r0 & x & q & Hx & Hq & ->)|[-> Hn]]; [| eauto 10].
    rewrite lookup_insert_Some. intros [[<- <-]|[Hne Hx']]; [exists x; eauto |].
    exists x'. split_and!; [done..|]. left. split; [| done]. intros Hin.
    destruct (c_wait s HC r x' t Hx' Hin) as (thx & o1 & fs1 & E1 & _ & Ek1).
    destruct (c_wait s HC r0 x t Hx) as (thy & o2 & fs2 & E2 & _ & Ek2); [rewrite Hq; left |].
    congruence. }
  assert (∀ r x, semas s !! r = Some x → ∃ x', semas s' !! r = Some x' ∧ value x' = value x ∧
    (∀ u, u ∈ waiters x → u ∈ waiters x' ∨ u = t)) as HWg.
  { intros r x Hx. destruct Uw as [(r0 & x0 & q & Hx0 & Hq & ->)|[-> Hn]]; [| eauto 10].
    destruct (decide (r0 = r)) as [->|]; [| rewrite lookup_insert_ne; eauto 10].
    rewrite lookup_insert_eq. eexists. split_and!; [done | simpl; congruence |]. intros u Hu.
    simplify_eq. rewrite Hq in Hu. apply elem_of_cons in Hu as [?|?]; auto. }
  assert (∀ u, u ≠ running s → prio s' u = prio s u) as Hprio.
  { intros u Hu. unfold prio. rewrite ET. destruct (decide (u = t)) as [->|].
    - by rewrite lookup_insert_eq, Et.
    - by rewrite !lookup_insert_ne by done. }
  assert (∀ u, u ∈ ready_list s → u ≠ running s) as NR.
  { intros u Hu ->. destruct (c_ready s HC _ Hu) as (? & ? & ? & _). congruence. }
  split.
  - intros u Hu. rewrite URd in Hu. rewrite EI. apply elem_of_insert_ordered in Hu as [->|Hu].
    + exists tht'. split_and!; [done..|]. intros Hi.
      destruct (c_idle s HC) as (? & _ & Hid). rewrite Hi in Hid. by destruct Hid as [? _].
    + destruct (c_ready s HC u Hu) as (thu & E & Est & ?). exists thu. split_and!; [| done..].
      apply Hkeep2; [done | congruence | by intros ->].
  - rewrite URd. apply insert_ordered_NoDup. split; [done | apply (c_ready_nodup s HC)].
  - intros u thu E Hrd. rewrite URd, EI, elem_of_insert_ordered.
    destruct (Hinv u thu E) as [[-> ->]|[[-> ->]|(? & ? & E0)]]; [by auto | congruence |].
    destruct (c_ready_all s HC u thu E0 Hrd) as [? [?|?]]; auto.
  - intros u Hu. destruct (Hsl u Hu) as [Hu' Hut].
    destruct (c_sleep s HC u Hu') as (thu & o & fs & E & Es & ?). exists thu, o, fs.
    split_and!; [| done..| by destruct H | by destruct H]. apply Hkeep2; [done | congruence | done].
  - pose proof (c_sleep_nodup s HC) as Hnd. destruct Usl as [E|[-> _]]; [| done].
    rewrite E in Hnd. by apply NoDup_cons in Hnd as [_ ?].
  - intros r x' u Hx' Hu. destruct (HW r x' Hx') as (x & Hx & _ & Hw).
    pose proof (c_wait_nodup s HC r x Hx) as [Hnd _].
    assert (u ∈ waiters x ∧ u ≠ t) as [Hu' Hut].
    { destruct Hw as [[Hn E]|E].
      - rewrite E in Hu. split; [done | by intros ->].
      - rewrite E in Hnd |- *. apply NoDup_cons in Hnd as [? _]. split; [by right | by intros ->]. }
    destruct (c_wait s HC r x u Hx Hu') as (thu & o & fs & E & Es & ?). exists thu, o, fs.
    split_and!; [| done..]. apply Hkeep2; [done | congruence | done].
  - intros r x' Hx'. destruct (HW r x' Hx') as (x & Hx & -> & Hw).
    destruct (c_wait_nodup s HC r x Hx) as [Hnd ?]. split; [| done].
    destruct Hw as [[_ ->]|E]; [done |]. rewrite E in Hnd. by apply NoDup_cons in Hnd as [_ ?].
  - intros r x' Hx' Hne. destruct (HW r x' Hx') as (x & Hx & -> & Hw).
    assert (waiters x ≠ []) as Hne' by (destruct Hw as [[_ <-]| ->]; done).
    pose proof (c_awake s HC r x Hx Hne').
    assert (threads s !! t = Some tht ∧ <[running s := th']> (threads s) !! t = Some tht) as [_ Et2]
      by (by rewrite lookup_insert_ne).
    rewrite ET, (total_insert _ _ _ _ _ Et2), (total_insert _ _ _ _ _ Hr).
    assert (awake r tht = 0) as -> by (unfold awake; by rewrite Eb).
    pose proof (awake_nonneg r tht').
    assert (awake r th' = awake r th); [| lia]. unfold awake. rewrite Hst, Hst'.
    destruct Hrun as [->|[-> ->]]; done.
  - intros u thu E Hb. destruct (Hinv u thu E) as [[-> ->]|[[-> ->]|(? & ? & E0)]]; [done | congruence |].
    destruct (c_blocked s HC u thu E0 Hb) as [Hp|[(r & x & Hx & Hw)|[Hq|(c & thc & b & Ec & Hc)]]].
    + left. by destruct (Hsl' u Hp).
    + right. left. destruct (HWg r x Hx) as (x' & Hx' & _ & Hin). exists r, x'. split; [done |].
      by destruct (Hin u Hw).
    + right. right. left. by rewrite EI.
    + right. right. right. destruct (Hnew c thc Ec) as (th1 & E1 & [Es|[Es _]]).
      * exists c, th1, b. by rewrite Es.
      * rewrite Es in Hc. simpl in Hc. destruct Hc as (<- & _). done.
  - rewrite URd. apply insert_ordered_sorted; [apply _ |].
    eapply sorted_ext; [| apply (c_ready_sorted s HC)]. intros x y Hx Hy.
    unfold le_of, thread_priority_greater. by rewrite !Hprio by auto.
  - assert (StronglySorted (le_of (wakeup_tick_less s)) (Sleep_list s')) as HS.
    { pose proof (c_sleep_sorted s HC) as HS. destruct Usl as [E|[-> _]]; [| done].
      rewrite E in HS. by apply StronglySorted_inv in HS as [? _]. }
    eapply sorted_ext; [| exact HS]. intros x y Hx%Hsl Hy%Hsl.
    assert (∀ u, u ∈ Sleep_list s ∧ u ≠ t → wake s' u = wake s u) as Hw.
    { intros u [Hu Hut]. destruct (c_sleep s HC u Hu) as (thu & o & fs & E & Es & _).
      unfold wake. rewrite E. rewrite (Hkeep2 u thu E); [done | congruence | done]. }
    unfold le_of, wakeup_tick_less. by rewrite !Hw.
  - rewrite EM. intros Hm r x' Hx'. destruct (HW r x' Hx') as (x & Hx & _ & Hw).
    assert (StronglySorted (le_of (thread_priority_greater s)) (waiters x')) as HS.
    { pose proof (c_wait_sorted s HC Hm r x Hx) as HS. destruct Hw as [[_ ->]|E]; [done |].
      rewrite E in HS. by apply StronglySorted_inv in HS as [? _]. }
    eapply sorted_ext; [| exact HS]. intros y z Hy Hz.
    assert (∀ u, u ∈ waiters x' → u ≠ running s) as NW.
    { intros u Hu ->. destruct (c_wait s HC r x (running s) Hx) as (? & ? & ? & ? & ? & _).
      - destruct Hw as [[_ <-]| ->]; [done | by right].
      - congruence. }
    unfold le_of, thread_priority_greater. by rewrite !Hprio by auto.
  - intros u. rewrite EA, (c_all s HC u). split.
    + intros (thu & E & Hd). destruct (decide (u = t)) as [->|]; [by exists tht' |].
      destruct (decide (u = running s)) as [->|]; [exists th'; split; [done | congruence] |].
      exists thu. split; [by apply Hkeep | done].
    + intros (thu & E & Hd). destruct (Hinv u thu E) as [[-> ->]|[[-> ->]|(? & ? & E0)]].
      * exists tht. split; [done | congruence].
      * exists th. split; [done | congruence].
      * by exists thu.
  - rewrite EA. apply (c_all_nodup s HC).
  - intros u thu E Hd. rewrite EIn, ERun.
    destruct (Hinv u thu E) as [[-> ->]|[[-> ->]|(? & ? & E0)]]; [done | congruence |].
    by apply (c_dying s HC u thu).
  - rewrite EI. destruct (c_idle s HC) as (thi & E & Hi).
    destruct (decide (running s = idle_page)) as [Eq|Hn].
    + exists th'. rewrite <-Eq. split; [done |]. rewrite <-Eq, Hr in E. injection E as <-.
      destruct Hrun as [->|[Hc _]].
      * destruct (idle_thread s) as [i|]; [| done]. destruct Hi as (-> & ? & _).
        split_and!; [by rewrite Eq | done | congruence].
      * rewrite Hc in Hi. destruct (idle_thread s); [by destruct Hi as (_ & ? & _) | done].
    + exists thi. split; [by apply Hkeep | done].
  - intros u thu Hu E. destruct (Hold u thu E) as (th1 & E1 & [->|[_ ->]]); [| by constructor].
    by apply (c_client s HC u).
  - intros c thc u b E Hc. destruct (Hold c thc E) as (th1 & E1 & [Es|[_ Es]]); [| by rewrite Es in Hc].
    assert (u ≠ t) as Hut by (intros ->; by apply (Ucr c thc b E)).
    rewrite Es in Hc. destruct (c_create s HC c th1 u b E1 Hc) as (? & thu & Eu & Ebu & ?).
    split; [done |]. exists thu. split_and!; [apply Hkeep2; [done | congruence | done] | done..].
  - intros c thc E. destruct (Hold c thc E) as (th1 & E1 & [->|[_ ->]]); [by apply (c_plain s HC c) |].
    left. constructor.
  - intros c1 c2 th1 th2 u b1 b2 E1 E2 H1 H2.
    destruct (Hold c1 th1 E1) as (? & ? & [Es1|[_ Es1]]); rewrite Es1 in H1; [| done].
    destruct (Hold c2 th2 E2) as (? & ? & [Es2|[_ Es2]]); rewrite Es2 in H2; [| done].
    by eapply (c_create_one s HC).
  - intros l h Hl. rewrite ELk in Hl. destruct (c_locks s HC l h Hl) as (x & Hx & Hsum).
    destruct (HWg _ _ Hx) as (x' & Hx' & Ev & _). exists x'. split; [done |].
    assert (<[running s := th']> (threads s) !! t = Some tht) as Et2 by (by rewrite lookup_insert_ne).
    rewrite ET, (total_insert _ _ _ _ _ Et2), (total_insert _ _ _ _ _ Hr), Ev.
    change (stack tht') with (stack tht).
    assert (owned l (stack th') = owned l (stack th)); [| lia]. by destruct Hrun as [->|[-> ->]].
  - intros l [x' Hx']. rewrite ELk. destruct (HW _ _ Hx') as (x & Hx & _).
    apply (c_lock_semas s HC). by eexists.
  - destruct (c_tid_lock s HC) as (h & Hh & Hal). exists h. rewrite ELk. split; [done |].
    intros u Hu. destruct (Hal u Hu) as [thu E]. destruct (Hnew _ _ E) as (th1 & ? & _). by exists th1.
  - intros u thu E. destruct (Hold u thu E) as (th1 & E1 & Es).
    assert (locks_ok (holder_is s' u) (stack th1)) as Hlk.
    { eapply locks_ok_ext; [| by apply (c_locks_ok s HC u)]. intros l. unfold holder_is. by rewrite ELk. }
    destruct Es as [->|[Es ->]]; [done |]. by rewrite Es in Hlk.
  - intros u thu E. destruct (Hold u thu E) as (th1 & E1 & [->|[_ ->]]); [| constructor].
    eapply Forall_impl; [by apply (c_refs s HC u) |]. intros f.
    apply refs_mono; rewrite ?ELk, ?ECd; try done. intros r [x Hx].
    destruct (HWg _ _ Hx) as (x' & ? & _). by exists x'.
  - intros c w u. rewrite ECd. intros Hc Hu. destruct (c_conds s HC c w u Hc Hu) as [x Hx].
    destruct (HWg _ _ Hx) as (x' & ? & _). by exists x'.
  - intros u thu E. destruct (Hold u thu E) as (th1 & E1 & [->|[_ ->]]); [| done].
    by eapply (c_under s HC).
  - intros u thu E. destruct (Hold u thu E) as (th1 & E1 & _). by eapply (c_page s HC).
  - rewrite ELd. apply (c_load s HC).
Qed.
End unblock.

(** ** The running thread leaves the CPU *)

Record Park (s s' : kstate) (th th' : thread) : Prop := {
  p_threads : threads s' = <[running s := th']> (threads s);
  p_stack : stack th' = stack th;
  p_prio : priority th' = priority th;
  p_status : status th' ≠ THREAD_RUNNING;
  p_same : running s' = running s ∧ idle_thread s' = idle_thread s ∧
    initial_thread s' = initial_thread s ∧ thread_mlfqs s' = thread_mlfqs s ∧
    load_avg s' = load_avg s ∧ locks s' = locks s ∧ conds s' = conds s;
  p_ready : ready_list s' = ready_list s ∨
    (ready_list s' = insert_ordered (thread_priority_greater s) (running s) (ready_list s) ∧
     status th' = THREAD_READY ∧ idle_thread s ≠ Some (running s));
  p_ready_me : status th' = THREAD_READY → resume_top (stack th) = true ∧
    (running s ∈ ready_list s' ∨ idle_thread s = Some (running s));
  p_sleep : Sleep_list s' = Sleep_list s ∨
    (Sleep_list s' = insert_ordered (wakeup_tick_less s') (running s) (Sleep_list s) ∧
     status th' = THREAD_BLOCKED ∧ running s ≠ idle_page ∧
     ∃ o fs, stack th = KIntrSetLevel o :: fs);
  p_wait : semas s' = semas s ∨ ∃ r x o fs, semas s !! r = Some x ∧ value x = 0 ∧
    semas s' = <[r := mk_sema (value x)
      (insert_ordered (thread_priority_greater s) (running s) (waiters x))]> (semas s) ∧
    status th' = THREAD_BLOCKED ∧ stack th = KSemaLoop r o :: fs;
  p_blocked_me : status th' = THREAD_BLOCKED → blocked_ok s' (running s) ∧
    (idle_thread s = Some (running s) → resume_top (stack th) = true);
  p_all : (status th' ≠ THREAD_DYING ∧ all_list s' = all_list s) ∨
    (status th' = THREAD_DYING ∧ all_list s' = filter (λ t, t ≠ running s) (all_list s) ∧
     stack th = [] ∧ running s ≠ idle_page);
  p_awake : ∀ r x', semas s' !! r = Some x' → waiters x' ≠ [] →
    awake r th ≤ awake r th' ∨ value x' = 0
}.

Section park.
Implicit Types (s : kstate) (t c : loc) (th : thread) (l : loc) (r : sema_ref) (fs : list frame).

Lemma core_park s s' th th' :
  Core s → threads s !! running s = Some th → status th = THREAD_RUNNING →
  Park s s' th th' → Core s'.
Proof.
  intros HC Hr Hst HP.
  destruct HP as [ET Estk Epr Hnr Hs Prd Prme Psl Pw Pbme Pall Paw].
  destruct Hs as (ERun & EI & EIn & EM & ELd & ELk & ECd).
  assert (∀ t th0, threads s !! t = Some th0 → status th0 ≠ THREAD_RUNNING → t ≠ running s) as Hne
    by (intros t th0 E1 E2 ->; congruence).
  assert (∀ t th0, t ≠ running s → threads s !! t = Some th0 → threads s' !! t = Some th0) as Hkeep
    by (intros t th0 ? ?; by rewrite ET, lookup_insert_ne).
  assert (∀ t th0, threads s' !! t = Some th0 →
    (t = running s ∧ th0 = th') ∨ (t ≠ running s ∧ threads s !! t = Some th0)) as Hinv.
  { intros t th0. rewrite ET, lookup_insert_Some. naive_solver. }
  assert (∀ t th0, threads s' !! t = Some th0 → ∃ th1, threads s !! t = Some th1 ∧
    stack th1 = stack th0 ∧ priority th1 = priority th0) as Hold.
  { intros t th0 E. apply Hinv in E as [[-> ->]|[? E]]; eauto. }
  assert (∀ t th0, threads s !! t = Some th0 → ∃ th1, threads s' !! t = Some th1 ∧
    stack th1 = stack th0) as Hnew.
  { intros t th0 E. destruct (decide (t = running s)) as [->|].
    - exists th'. rewrite ET, lookup_insert_eq. split; [done | congruence].
    - exists th0. eauto. }
  assert (threads s' !! running s = Some th') as Hr' by (by rewrite ET, lookup_insert_eq).
  assert (∀ t, prio s' t = prio s t) as Hprio.
  { intros t. unfold prio. rewrite ET. destruct (decide (t = running s)) as [->|].
    - by rewrite lookup_insert_eq, Hr.
    - by rewrite lookup_insert_ne. }
  assert (running s ∉ ready_list s) as NR.
  { intros Ht. destruct (c_ready s HC _ Ht) as (th0 & E & Est & _). congruence. }
  assert (running s ∉ Sleep_list s) as NS.
  { intros Ht. destruct (c_sleep s HC _ Ht) as (th0 & o & r0 & E & Est & _). congruence. }
  assert (∀ r x, semas s !! r = Some x → running s ∉ waiters x) as NW.
  { intros r x Hx Ht. destruct (c_wait s HC r x _ Hx Ht) as (th0 & o & r0 & E & Est & _). congruence. }
  assert (∀ r x', semas s' !! r = Some x' → ∃ x, semas s !! r = Some x ∧ value x' = value x ∧
    (waiters x' = waiters x ∨
     (waiters x' = insert_ordered (thread_priority_greater s) (running s) (waiters x) ∧
      value x = 0 ∧ status th' = THREAD_BLOCKED ∧ ∃ o fs, stack th = KSemaLoop r o :: fs))) as HW.
  { intros r x'. destruct Pw as [->|(r0 & x & o & fs & Hx & Hv & -> & Hb & Hstk)]; [eauto |].
    rewrite lookup_insert_Some. intros [[<- <-]|[? ?]]; [| eauto].
    exists x. split_and!; [done..|]. right. eauto 10. }
  assert (∀ r x, semas s !! r = Some x → ∃ x', semas s' !! r = Some x' ∧
    (∀ t, t ∈ waiters x → t ∈ waiters x')) as HWg.
  { intros r x Hx. destruct Pw as [->|(r0 & x0 & o & fs & Hx0 & Hv & -> & Hb & Hstk)]; [eauto |].
    destruct (decide (r0 = r)) as [->|]; [| rewrite lookup_insert_ne; eauto].
    rewrite lookup_insert_eq. eexists. split; [done |]. intros t Ht. simpl.
    apply elem_of_insert_ordered. simplify_eq. by right. }
  split.
  - intros t Ht. rewrite EI. assert (t ∈ ready_list s ∨ (t = running s ∧
      status th' = THREAD_READY ∧ idle_thread s ≠ Some t)) as [Ht'|(-> & ? & ?)].
    { destruct Prd as [E|(E & ? & ?)]; rewrite E in Ht; [by left |].
      apply elem_of_insert_ordered in Ht as [->|]; auto. }
    + destruct (c_ready s HC t Ht') as (th0 & E & ?). exists th0. split; [| done].
      apply Hkeep; [by intros -> | done].
    + by exists th'.
  - destruct Prd as [->|(-> & _ & _)]; [apply (c_ready_nodup s HC) |].
    apply insert_ordered_NoDup. split; [done | apply (c_ready_nodup s HC)].
  - intros t th0 E Hrd. rewrite EI. apply Hinv in E as [[-> ->]|[? E]].
    + rewrite Estk. by apply Prme.
    + destruct (c_ready_all s HC t th0 E Hrd) as [? [?|?]]; (split; [done |]); [| by right].
      left. destruct Prd as [->|(-> & _ & _)]; [done |]. apply elem_of_insert_ordered. by right.
  - intros t Ht. assert (t ∈ Sleep_list s ∨ (t = running s ∧ status th' = THREAD_BLOCKED ∧
      running s ≠ idle_page ∧ ∃ o fs, stack th = KIntrSetLevel o :: fs))
      as [Ht'|(-> & ? & ? & o & fs & ?)].
    { destruct Psl as [E|(E & ? & ? & ?)]; rewrite E in Ht; [by left |].
      apply elem_of_insert_ordered in Ht as [->|]; auto. }
    + destruct (c_sleep s HC t Ht') as (th0 & o & fs & E & ?). exists th0, o, fs. split; [| done].
      apply Hkeep; [by intros -> | done].
    + exists th', o, fs. rewrite Estk. done.
  - destruct Psl as [->|(-> & _)]; [apply (c_sleep_nodup s HC) |].
    apply insert_ordered_NoDup. split; [done | apply (c_sleep_nodup s HC)].
  - intros r x' t Hx' Ht. destruct (HW r x' Hx') as (x & Hx & _ & Hw).
    assert (t ∈ waiters x ∨ (t = running s ∧ status th' = THREAD_BLOCKED ∧
      ∃ o fs, stack th = KSemaLoop r o :: fs)) as [Ht'|(-> & ? & o & fs & ?)].
    { destruct Hw as [E|(E & _ & ? & ?)]; rewrite E in Ht; [by left |].
      apply elem_of_insert_ordered in Ht as [->|]; auto. }
    + destruct (c_wait s HC r x t Hx Ht') as (th0 & o & fs & E & ?). exists th0, o, fs.
      split; [| done]. apply Hkeep; [| done]. intros ->. by apply (NW r x).
    + exists th', o, fs. rewrite Estk. done.
  - intros r x' Hx'. destruct (HW r x' Hx') as (x & Hx & Ev & Hw). rewrite Ev.
    destruct (c_wait_nodup s HC r x Hx) as [Hn ?]. split; [| done].
    destruct Hw as [->|(-> & _)]; [done |]. apply insert_ordered_NoDup. split; [by eapply NW | done].
  - intros r x' Hx' Hne'. destruct (HW r x' Hx') as (x & Hx & Ev & Hw).
    rewrite ET, (total_insert _ _ _ _ _ Hr).
    destruct (Paw r x' Hx' Hne') as [Hle|Hz].
    + destruct Hw as [E|(E & Hz & _)].
      * rewrite E in Hne'. pose proof (c_awake s HC r x Hx Hne'). lia.
      * pose proof (total_ge (awake r) _ _ _ (awake_nonneg r) Hr).
        pose proof (awake_nonneg r th'). lia.
    + pose proof (total_ge (awake r) _ _ _ (awake_nonneg r) Hr).
      pose proof (awake_nonneg r th'). lia.
  - intros t th0 E Hb. apply Hinv in E as [[-> ->]|[? E]]; [by apply Pbme |].
    destruct (c_blocked s HC t th0 E Hb) as [Hp|[(r & x & Hx & Hw)|[Hq|(c & thc & b & Ec & Hc)]]].
    + left. destruct Psl as [->|(-> & _)]; [done |]. apply elem_of_insert_ordered. by right.
    + right. left. destruct (HWg r x Hx) as (x' & Hx' & Hin). eauto.
    + right. right. left. by rewrite EI.
    + right. right. right. destruct (Hnew c thc Ec) as (th1 & E1 & E2).
      exists c, th1, b. by rewrite E2.
  - assert (StronglySorted (le_of (thread_priority_greater s)) (ready_list s')) as HS.
    { destruct Prd as [->|(-> & _ & _)]; [apply (c_ready_sorted s HC) |].
      apply insert_ordered_sorted; [apply _ | apply (c_ready_sorted s HC)]. }
    eapply sorted_ext; [| exact HS]. intros x y _ _. unfold le_of, thread_priority_greater.
    by rewrite !Hprio.
  - assert (StronglySorted (le_of (wakeup_tick_less s')) (Sleep_list s)) as HS.
    { eapply sorted_ext; [| apply (c_sleep_sorted s HC)]. intros x y Hx Hy.
      unfold le_of, wakeup_tick_less, wake. rewrite ET, !lookup_insert_ne; [done | |]; by intros <-. }
    destruct Psl as [->|(-> & _)]; [done |]. by apply insert_ordered_sorted; [apply _ |].
  - rewrite EM. intros Hm r x' Hx'. destruct (HW r x' Hx') as (x & Hx & _ & Hw).
    assert (StronglySorted (le_of (thread_priority_greater s)) (waiters x')) as HS.
    { pose proof (c_wait_sorted s HC Hm r x Hx).
      destruct Hw as [->|(-> & _)]; [done |]. by apply insert_ordered_sorted; [apply _ |]. }
    eapply sorted_ext; [| exact HS]. intros y z _ _. unfold le_of, thread_priority_greater.
    by rewrite !Hprio.
  - intros t. rewrite ET. destruct (decide (t = running s)) as [->|Ht].
    + rewrite lookup_insert_eq. destruct Pall as [[Hd ->]|(Hd & -> & _)].
      * rewrite (c_all s HC). split; intros _; eexists; (split; [done |]); congruence.
      * rewrite list_elem_of_filter. split; [by intros [? _] |]. intros (? & ? & ?). congruence.
    + rewrite lookup_insert_ne by done. destruct Pall as [[_ ->]|(_ & -> & _)];
        rewrite ?list_elem_of_filter, (c_all s HC); naive_solver.
  - destruct Pall as [[_ ->]|(_ & -> & _)]; [| apply NoDup_filter]; apply (c_all_nodup s HC).
  - intros t th0 E Hd. rewrite EIn, ERun. apply Hinv in E as [[-> ->]|[? E]].
    + rewrite Estk. destruct Pall as [[? _]|(_ & _ & ? & ?)]; [done |]. auto.
    + by apply (c_dying s HC t th0).
  - rewrite EI. destruct (c_idle s HC) as (th0 & E & Hi).
    destruct (decide (running s = idle_page)) as [Eq|Hn].
    + exists th'. rewrite <-Eq. split; [done |]. rewrite Estk.
      rewrite <-Eq, Hr in E. injection E as <-. destruct (idle_thread s) as [i|] eqn:Ei; [| done].
      destruct Hi as (-> & ? & _). split_and!; [by rewrite Eq | done |].
      intros Hb. apply Pbme in Hb as [_ Hb]. apply Hb. by rewrite Eq.
    + exists th0. split; [by apply Hkeep | done].
  - intros t th0 Ht E. destruct (Hold t th0 E) as (th1 & E1 & <- & _). by apply (c_client s HC t).
  - intros c th0 t b E Hc. destruct (Hold c th0 E) as (th1 & E1 & Es & _). rewrite <-Es in Hc.
    destruct (c_create s HC c th1 t b E1 Hc) as (? & th2 & E2 & Hb2 & ?).
    split; [done |]. exists th2. split; [| done]. apply Hkeep; [| done]. apply (Hne _ _ E2). congruence.
  - intros c th0 E. destruct (Hold c th0 E) as (th1 & E1 & <- & _). by apply (c_plain s HC c).
  - intros c1 c2 th1 th2 t b1 b2 E1 E2 H1 H2.
    destruct (Hold c1 th1 E1) as (? & ? & Es1 & _). destruct (Hold c2 th2 E2) as (? & ? & Es2 & _).
    rewrite <-Es1 in H1. rewrite <-Es2 in H2. by eapply (c_create_one s HC).
  - intros l h Hl. rewrite ELk in Hl. destruct (c_locks s HC l h Hl) as (x & Hx & Hsum).
    destruct (HWg _ _ Hx) as (x' & Hx' & _). exists x'. split; [done |].
    destruct (HW _ _ Hx') as (x0 & Hx0 & Ev & _). simplify_eq.
    rewrite ET, (total_insert _ _ _ _ _ Hr), Estk, Ev. lia.
  - intros l [x' Hx']. rewrite ELk. destruct (HW _ _ Hx') as (x & Hx & _).
    apply (c_lock_semas s HC). by eexists.
  - destruct (c_tid_lock s HC) as (h & Hh & Hal). exists h. rewrite ELk. split; [done |].
    intros t Ht. destruct (Hal t Ht) as [th0 E]. destruct (Hnew _ _ E) as (th1 & ? & _). by exists th1.
  - intros t th0 E. destruct (Hold t th0 E) as (th1 & E1 & <- & _).
    eapply locks_ok_ext; [| by apply (c_locks_ok s HC t)]. intros l. unfold holder_is. by rewrite ELk.
  - intros t th0 E. destruct (Hold t th0 E) as (th1 & E1 & <- & _).
    eapply Forall_impl; [by apply (c_refs s HC t) |]. intros f.
    apply refs_mono; rewrite ?ELk, ?ECd; try done. intros r [x Hx].
    destruct (HWg _ _ Hx) as (x' & ? & _). by exists x'.
  - intros c w t. rewrite ECd. intros Hc Ht. destruct (c_conds s HC c w t Hc Ht) as [x Hx].
    destruct (HWg _ _ Hx) as (x' & ? & _). by exists x'.
  - intros t th0 E. destruct (Hold t th0 E) as (th1 & E1 & <- & _). by eapply (c_under s HC).
  - intros t th0 E. destruct (Hold t th0 E) as (th1 & E1 & _). by eapply (c_page s HC).
  - rewrite ELd. apply (c_load s HC).
Qed.
End park.

(** ** Changes that keep every status and stack *)

(** The block goes from [th] to [th'] without a change of status; the stack of
    a thread being created may be built. *)
Definition vle (th th' : thread) : Prop :=
  status th' = status th ∧ wakeup_tick th' = wakeup_tick th ∧
  (stack th' = stack th ∨
   (status th = THREAD_BLOCKED ∧ stack th = [] ∧ stack th' = [KKernelThread])).

Section reprio.
Implicit Types (s : kstate) (t c n : loc) (th : thread) (l : loc) (r : sema_ref) (fs : list frame).

Lemma total_ext (f : thread → Z) (m m' : gmap loc thread) :
  (∀ t, f <$> m' !! t = f <$> m !! t) → total f m' = total f m.
Proof.
  intros H. assert (f <$> m' = f <$> m) as E.
  { apply map_eq. intros t. by rewrite !lookup_fmap. }
  assert (∀ m : gmap loc thread, total f m =
    map_fold (λ _ (v n : Z), v + n) 0 (f <$> m)) as Ht by (intros; by rewrite map_fold_fmap).
  by rewrite !Ht, E.
Qed.

Lemma core_reprio s s' :
  Core s →
  (∀ t th, threads s !! t = Some th → ∃ th', threads s' !! t = Some th' ∧ vle th th') →
  (∀ t, is_Some (threads s' !! t) → is_Some (threads s !! t)) →
  ready_list s' ≡ₚ ready_list s →
  StronglySorted (le_of (thread_priority_greater s')) (ready_list s') →
  (thread_mlfqs s = false → ∀ r x, semas s !! r = Some x →
    StronglySorted (le_of (thread_priority_greater s')) (waiters x)) →
  Sleep_list s' = Sleep_list s → all_list s' = all_list s → running s' = running s →
  idle_thread s' = idle_thread s → initial_thread s' = initial_thread s →
  semas s' = semas s → locks s' = locks s → conds s' = conds s →
  thread_mlfqs s' = thread_mlfqs s → 0 ≤ load_avg s' ≤ 268435456 → Core s'.
Proof.
  intros HC Hnew Hdom Hperm Hsort Hwsort ES EA ERun EI EIn ESem ELk ECd EM ELd.
  assert (∀ t th', threads s' !! t = Some th' → ∃ th, threads s !! t = Some th ∧ vle th th') as Hold.
  { intros t th' E. destruct (Hdom t) as [th E0]; [by eexists |].
    destruct (Hnew t th E0) as (th1 & E1 & ?). exists th. split; [done |]. congruence. }
  assert (∀ t th th' f fs, threads s !! t = Some th → vle th th' → stack th = f :: fs →
    stack th' = f :: fs) as Hst.
  { intros t th th' f fs _ (_ & _ & [?|(_ & ? & _)]) ?; congruence. }
  split; rewrite ?ES, ?EA, ?ERun, ?EI, ?EIn, ?ESem, ?ELk, ?EM; try done.
  - intros t Ht. rewrite Hperm in Ht. destruct (c_ready s HC t Ht) as (th & E & ? & ?).
    destruct (Hnew t th E) as (th' & ? & ? & _). exists th'. split_and!; [done | congruence | done].
  - rewrite Hperm. apply (c_ready_nodup s HC).
  - intros t th' E Hr. destruct (Hold t th' E) as (th & E0 & Est & _ & [Estk|(? & _)]); [| congruence].
    rewrite Estk, Hperm. apply (c_ready_all s HC t th E0). congruence.
  - intros t Ht. destruct (c_sleep s HC t Ht) as (th & o & fs & E & ? & ? & ?).
    destruct (Hnew t th E) as (th' & ? & Hv). pose proof Hv as (? & _).
    exists th', o, fs. split_and!; [done | congruence | by eapply Hst | done].
  - apply (c_sleep_nodup s HC).
  - intros r x t Hx Ht. destruct (c_wait s HC r x t Hx Ht) as (th & o & fs & E & ? & ?).
    destruct (Hnew t th E) as (th' & ? & Hv). pose proof Hv as (? & _).
    exists th', o, fs. split_and!; [done | congruence | by eapply Hst].
  - apply (c_wait_nodup s HC).
  - intros r x Hx Hne. rewrite (total_ext (awake r) (threads s)); [by apply (c_awake s HC r) |].
    intros t. destruct (threads s !! t) as [th|] eqn:E.
    + destruct (Hnew t th E) as (th' & -> & Es & _ & [Ek|(Eb & _)]); simpl; f_equal; unfold awake.
      * by rewrite Es, Ek.
      * by rewrite Es, Eb.
    + destruct (threads s' !! t) as [th'|] eqn:E'; [| done]. by destruct (Hold t th' E') as (? & ? & _); congruence.
  - intros t th' E Hb. destruct (Hold t th' E) as (th & E0 & Est & _). rewrite Est in Hb.
    unfold blocked_ok. rewrite ES, ESem, EI.
    destruct (c_blocked s HC t th E0 Hb) as [?|[?|[?|(c & thc & b & Ec & Hc)]]]; [tauto..|].
    right. right. right. destruct (Hnew c thc Ec) as (thc' & ? & _ & _ & [Es|(_ & Es & _)]).
    + exists c, thc', b. by rewrite Es.
    + by rewrite Es in Hc.
  - eapply sorted_ext; [| apply (c_sleep_sorted s HC)]. intros x y Hx Hy.
    assert (∀ t, t ∈ Sleep_list s → wake s' t = wake s t) as Hw.
    { intros t Ht. destruct (c_sleep s HC t Ht) as (th & ? & ? & E & _).
      destruct (Hnew t th E) as (th' & E' & _ & Hwk & _). unfold wake. by rewrite E, E'. }
    unfold le_of, wakeup_tick_less. by rewrite !Hw.
  - intros t. rewrite (c_all s HC t). split.
    + intros (th & E & Hd). destruct (Hnew t th E) as (th' & ? & ? & _). exists th'. split; congruence.
    + intros (th' & E & Hd). destruct (Hold t th' E) as (th & ? & ? & _). exists th. split; congruence.
  - apply (c_all_nodup s HC).
  - intros t th' E Hd. destruct (Hold t th' E) as (th & E0 & Est & _ & [Estk|(? & _)]); [| congruence].
    rewrite Estk. apply (c_dying s HC t th E0). congruence.
  - destruct (c_idle s HC) as (th & E & Hi). destruct (Hnew _ th E) as (th' & E' & Est & _ & [Estk|(_ & Estk & _)]).
    + exists th'. by rewrite Est, Estk.
    + rewrite Estk in Hi. destruct (idle_thread s); [by destruct Hi as (_ & ? & _) | done].
  - intros t th' Ht E. destruct (Hold t th' E) as (th & E0 & _ & _ & [Estk|(_ & _ & Estk)]); rewrite Estk.
    + by apply (c_client s HC t).
    + by repeat constructor.
  - intros c th' t b E Hc. destruct (Hold c th' E) as (th & E0 & _ & _ & [Estk|(_ & _ & Estk)]);
      rewrite Estk in Hc; [| done].
    destruct (c_create s HC c th t b E0 Hc) as (? & tht & Et & ? & Hstk). split; [done |].
    destruct (Hnew t tht Et) as (tht' & ? & ? & _ & [Hk|(_ & _ & Hk)]); exists tht';
      (split_and!; [done | congruence |]); rewrite Hk; auto.
  - intros c th' E. destruct (Hold c th' E) as (th & E0 & _ & _ & [Estk|(_ & _ & Estk)]); rewrite Estk.
    + by apply (c_plain s HC c).
    + left. by repeat constructor.
  - intros c1 c2 th1 th2 t b1 b2 E1 E2 H1 H2.
    destruct (Hold c1 th1 E1) as (? & ? & _ & _ & [Es1|(_ & _ & Es1)]); rewrite Es1 in H1; [| done].
    destruct (Hold c2 th2 E2) as (? & ? & _ & _ & [Es2|(_ & _ & Es2)]); rewrite Es2 in H2; [| done].
    by eapply (c_create_one s HC).
  - intros l h Hl. destruct (c_locks s HC l h Hl) as (x & Hx & Hsum). exists x. split; [done |].
    rewrite (total_ext (λ th, owned l (stack th)) (threads s)); [done |].
    intros t. destruct (threads s !! t) as [th|] eqn:E.
    + destruct (Hnew t th E) as (th' & -> & _ & _ & [Ek|(_ & Ek & Ek')]); simpl; by rewrite ?Ek, ?Ek'.
    + destruct (threads s' !! t) as [th'|] eqn:E'; [| done]. by destruct (Hold t th' E') as (? & ? & _); congruence.
  - apply (c_lock_semas s HC).
  - destruct (c_tid_lock s HC) as (h & Hh & Hal). exists h. split; [done |]. intros t Ht.
    destruct (Hal t Ht) as [th E]. destruct (Hnew t th E) as (th' & ? & _). by exists th'.
  - intros t th' E. destruct (Hold t th' E) as (th & E0 & _ & _ & Hk).
    assert (locks_ok (holder_is s' t) (stack th)) as Hlk.
    { eapply locks_ok_ext; [| by apply (c_locks_ok s HC t)]. intros l. unfold holder_is. by rewrite ELk. }
    destruct Hk as [->|(_ & Ek & ->)]; [done |]. by rewrite Ek in Hlk.
  - intros t th' E. destruct (Hold t th' E) as (th & E0 & _ & _ & [->|(_ & _ & ->)]); [| by repeat constructor].
    eapply Forall_impl; [by apply (c_refs s HC t) |]. intros f. by apply refs_mono; rewrite ?ESem, ?ELk, ?ECd.
  - rewrite ECd. apply (c_conds s HC).
  - intros t th' E. destruct (Hold t th' E) as (th & E0 & _ & _ & [->|(_ & _ & ->)]); [| by repeat constructor].
    by eapply (c_under s HC).
  - intros t th' E. destruct (Hold t th' E) as (th & E0 & _). by eapply (c_page s HC).
Qed.
End reprio.

(** One symbolic step, through the accessors of the kernel state. *)
Ltac k1 := first
  [ wp1
  | match goal with
    | |- wp running_thread _ _ => apply wp_gets
    | |- wp intr_get_level _ _ => apply wp_gets
    | |- wp intr_context _ _ => apply wp_gets
    | |- wp (is_thread _) _ _ => apply wp_gets
    | |- wp (put_sema _ _) _ _ => apply wp_modify
    | |- wp (put_holder _ _) _ _ => apply wp_modify
    | |- wp (put_cond _ _) _ _ => apply wp_modify
    | |- wp (insert_ready _) _ _ => apply wp_modify
    end ].

(** ** [schedule] *)

Section sched.
Implicit Types (s : kstate) (t c n : loc) (th : thread) (l : loc) (r : sema_ref) (fs : list frame).

Lemma idle_awake r th : idle_stack (stack th) = true → awake r th = 0.
Proof.
  intros H. unfold awake. destruct (stack th) as [|f fs]; [by destruct (status th) |].
  destruct f; try by destruct (status th).
Qed.

(** The page of a thread that has exited is given back. *)
Lemma core_delete s t th :
  Core s → threads s !! t = Some th → status th = THREAD_DYING →
  Core (set_threads (delete t) s).
Proof.
  intros HC Hr Hst. destruct (c_dying s HC t th Hr Hst) as (Hstk & Hni & _).
  assert (∀ u thu, delete t (threads s) !! u = Some thu → u ≠ t ∧ threads s !! u = Some thu) as Hinv
    by (intros u thu; rewrite lookup_delete_Some; naive_solver).
  assert (∀ u thu, threads s !! u = Some thu → status thu ≠ THREAD_DYING →
    delete t (threads s) !! u = Some thu) as Hkeep.
  { intros u thu E Hd. rewrite lookup_delete_Some. split; [| done]. intros ->. congruence. }
  assert (∀ u thu, threads s !! u = Some thu → stack thu ≠ [] →
    delete t (threads s) !! u = Some thu) as Hkeep2.
  { intros u thu E Hd. rewrite lookup_delete_Some. split; [| done]. intros ->. congruence. }
  assert (∀ u, u ≠ t → prio (set_threads (delete t) s) u = prio s u) as Hprio.
  { intros u Hu. unfold prio. simpl. by rewrite lookup_delete_ne. }
  split; simpl.
  - intros u Hu. destruct (c_ready s HC u Hu) as (thu & E & Eu & ?). exists thu.
    split; [| done]. apply Hkeep; [done | congruence].
  - apply (c_ready_nodup s HC).
  - intros u thu [_ E]%Hinv. by apply (c_ready_all s HC).
  - intros u Hu. destruct (c_sleep s HC u Hu) as (thu & o & fs & E & Eu & ?). exists thu, o, fs.
    split; [| done]. apply Hkeep; [done | congruence].
  - apply (c_sleep_nodup s HC).
  - intros r x u Hx Hu. destruct (c_wait s HC r x u Hx Hu) as (thu & o & fs & E & Eu & ?).
    exists thu, o, fs. split; [| done]. apply Hkeep; [done | congruence].
  - apply (c_wait_nodup s HC).
  - intros r x Hx Hn. rewrite (total_delete _ _ _ _ Hr).
    assert (awake r th = 0) as -> by (unfold awake; by rewrite Hstk, Hst).
    rewrite Z.sub_0_r. by apply (c_awake s HC).
  - intros u thu [_ E]%Hinv Hb. destruct (c_blocked s HC u thu E Hb) as
      [?|[?|[?|(c & thc & b & Ec & Hc)]]]; [by left | by right; left | by right; right; left |].
    right. right. right. exists c, thc, b. split; [| done]. apply Hkeep2; [done |].
    intros E'. by rewrite E' in Hc.
  - eapply sorted_ext; [| apply (c_ready_sorted s HC)]. intros x y Hx Hy.
    assert (∀ z, z ∈ ready_list s → z ≠ t) as Hz.
    { intros z Hz ->. destruct (c_ready s HC t Hz) as (? & ? & ? & _). congruence. }
    unfold le_of, thread_priority_greater. by rewrite !Hprio by auto.
  - eapply sorted_ext; [| apply (c_sleep_sorted s HC)]. intros x y Hx Hy.
    assert (∀ z, z ∈ Sleep_list s → z ≠ t) as Hz.
    { intros z Hz ->. destruct (c_sleep s HC t Hz) as (? & ? & ? & ? & ? & _). congruence. }
    apply Hz in Hx, Hy. unfold le_of, wakeup_tick_less, wake. simpl.
    by rewrite !lookup_delete_ne.
  - intros Hm r x Hx. eapply sorted_ext; [| by apply (c_wait_sorted s HC Hm r x)]. intros y z Hy Hz.
    assert (∀ z, z ∈ waiters x → z ≠ t) as Hne.
    { intros w Hw ->. destruct (c_wait s HC r x t Hx Hw) as (? & ? & ? & ? & ? & _). congruence. }
    unfold le_of, thread_priority_greater. by rewrite !Hprio by auto.
  - intros u. rewrite (c_all s HC u). split.
    + intros (thu & E & Hd). exists thu. split; [by apply Hkeep | done].
    + intros (thu & [_ E]%Hinv & Hd). by exists thu.
  - apply (c_all_nodup s HC).
  - intros u thu [_ E]%Hinv. by apply (c_dying s HC).
  - destruct (c_idle s HC) as (thi & E & Hi). exists thi.
    split; [by rewrite lookup_delete_ne | done].
  - intros u thu Hu [_ E]%Hinv. by apply (c_client s HC u).
  - intros c thc u b [_ E]%Hinv Hc. destruct (c_create s HC c thc u b E Hc) as (? & th' & E' & Eb & ?).
    split; [done |]. exists th'. split; [| done]. apply Hkeep; [done | congruence].
  - intros c thc [_ E]%Hinv. by apply (c_plain s HC c).
  - intros c1 c2 th1 th2 u b1 b2 [_ E1]%Hinv [_ E2]%Hinv. by eapply (c_create_one s HC).
  - intros l h Hl. destruct (c_locks s HC l h Hl) as (x & Hx & Hsum). exists x. split; [done |].
    rewrite (total_delete _ _ _ _ Hr), Hstk. simpl. lia.
  - apply (c_lock_semas s HC).
  - destruct (c_tid_lock s HC) as (h & Hh & Hal). exists h. split; [done |]. intros u ->.
    destruct (Hal u eq_refl) as [thu E]. exists thu. rewrite lookup_delete_Some. split; [| done].
    intros <-. pose proof (c_locks_ok s HC t th Hr) as Hlk. rewrite Hstk in Hlk. by apply Hlk.
  - intros u thu [_ E]%Hinv. by apply (c_locks_ok s HC u).
  - intros u thu [_ E]%Hinv. by apply (c_refs s HC u).
  - apply (c_conds s HC).
  - intros u thu [_ E]%Hinv. by eapply (c_under s HC).
  - intros u thu [_ E]%Hinv. by eapply (c_page s HC).
  - apply (c_load s HC).
Qed.

(** The choice of [next_thread_to_run]. *)
Definition chosen s n : Prop :=
  (∃ q, ready_list s = n :: q) ∨ (ready_list s = [] ∧ idle_thread s = Some n).

Definition run_next n s : kstate :=
  set_ready_list (@List.tl loc) (set_running (λ _, n) (upd_thread n (set_status (λ _, THREAD_RUNNING)) s)).

(** In a state where no thread runs, the chosen thread can: it is resumable,
    and nothing it leaves in the ready queue outranks it. *)
Lemma chosen_ok s n :
  Core s → chosen s n → (∀ t th, threads s !! t = Some th → status th ≠ THREAD_RUNNING) →
  ∃ th, threads s !! n = Some th ∧ resume_top (stack th) = true ∧
    (status th = THREAD_READY ∨ (status th = THREAD_BLOCKED ∧ idle_thread s = Some n ∧ n = idle_page)) ∧
    (∀ r, awake r (set_status (λ _, THREAD_RUNNING) th) = awake r th).
Proof.
  intros HC Hch Hnr. destruct Hch as [[q Hq]|[Hq Hi]].
  - destruct (c_ready s HC n) as (th & E & Est & _); [rewrite Hq; left |].
    destruct (c_ready_all s HC n th E Est) as [Hr _]. exists th. split_and!; [done | done | by left |].
    intros r. unfold awake. by rewrite Est.
  - destruct (c_idle s HC) as (th & E & Hid). rewrite Hi in Hid. destruct Hid as (-> & Hs & Hb).
    exists th. pose proof (Hnr _ _ E). split_and!; [done | | |].
    + destruct (status th) eqn:Est; [done | by apply (c_ready_all s HC idle_page th E) | by apply Hb |].
      by destruct (c_dying s HC _ th E Est) as (_ & ? & _).
    + destruct (status th) eqn:Est; [done | by left | by right |].
      by destruct (c_dying s HC _ th E Est) as (_ & ? & _).
    + intros r. by rewrite !idle_awake.
Qed.

Lemma core_run s n :
  Core s → chosen s n → (∀ t th, threads s !! t = Some th → status th ≠ THREAD_RUNNING) →
  (∀ t th, threads s !! t = Some th → status th = THREAD_DYING → t = initial_thread s) →
  Core (run_next n s).
Proof.
  intros HC Hch Hnr Hdy. destruct (chosen_ok s n HC Hch Hnr) as (th & Hn & Hres & Hstat & Haw).
  set (th' := set_status (λ _, THREAD_RUNNING) th).
  assert (threads (run_next n s) = <[n := th']> (threads s)) as ET.
  { simpl. apply map_eq. intros t. rewrite lookup_alter, lookup_insert.
    case_decide; [subst; by rewrite Hn | done]. }
  assert (∀ t thu, threads (run_next n s) !! t = Some thu →
    (t = n ∧ thu = th') ∨ (t ≠ n ∧ threads s !! t = Some thu)) as Hinv.
  { intros t thu. rewrite ET, lookup_insert_Some. naive_solver. }
  assert (∀ t thu, t ≠ n → threads s !! t = Some thu → threads (run_next n s) !! t = Some thu) as Hkeep
    by (intros; by rewrite ET, lookup_insert_ne).
  assert (∀ t thu, threads (run_next n s) !! t = Some thu → ∃ th1, threads s !! t = Some th1 ∧
    stack th1 = stack thu ∧ priority th1 = priority thu) as Hold.
  { intros t thu E. apply Hinv in E as [[-> ->]|[? E]]; eauto. }
  assert (∀ t thu, threads s !! t = Some thu → ∃ th1, threads (run_next n s) !! t = Some th1 ∧
    stack th1 = stack thu) as Hnew.
  { intros t thu E. destruct (decide (t = n)) as [->|]; [| eauto].
    exists th'. rewrite ET, lookup_insert_eq. split; [done |]. simpl. congruence. }
  assert (∀ t, prio (run_next n s) t = prio s t) as Hprio.
  { intros t. unfold prio. rewrite ET. destruct (decide (t = n)) as [->|].
    - by rewrite lookup_insert_eq, Hn.
    - by rewrite lookup_insert_ne. }
  assert (∀ t, wake (run_next n s) t = wake s t) as Hwake.
  { intros t. unfold wake. rewrite ET. destruct (decide (t = n)) as [->|].
    - by rewrite lookup_insert_eq, Hn.
    - by rewrite lookup_insert_ne. }
  assert (ready_list s = ready_list (run_next n s) ∨ ready_list s = n :: ready_list (run_next n s)) as Hq.
  { simpl. destruct Hch as [[q ->]|[-> _]]; [by right | by left]. }
  assert (n ∉ ready_list (run_next n s)) as Hnq.
  { pose proof (c_ready_nodup s HC) as Hnd. destruct Hch as [[q Eq]|[Eq _]]; simpl; rewrite Eq in *; simpl.
    - by apply NoDup_cons in Hnd as [? _].
    - apply not_elem_of_nil. }
  assert (∀ t thu, threads s !! t = Some thu → status thu = THREAD_BLOCKED → t ≠ n ∨ t = idle_page) as Hbn.
  { intros t thu E Hb. destruct (decide (t = n)) as [->|]; [| by left].
    destruct Hstat as [?|(_ & _ & ->)]; [| by right]. congruence. }
  assert (∀ t thu, threads s !! t = Some thu → status thu = THREAD_BLOCKED → t ≠ idle_page → t ≠ n) as Hbn'.
  { intros t thu E Hb Hni. by destruct (Hbn t thu E Hb). }
  split.
  - intros t Ht. assert (t ∈ ready_list s) as Ht'.
    { destruct Hq as [->| ->]; [done | by right]. }
    destruct (c_ready s HC t Ht') as (thu & E & ?). exists thu. split; [| done].
    apply Hkeep; [by intros -> | done].
  - pose proof (c_ready_nodup s HC) as Hnd. destruct Hq as [Hq|Hq]; rewrite Hq in Hnd; [done |].
    by apply NoDup_cons in Hnd as [_ ?].
  - intros t thu E Hrd. apply Hinv in E as [[-> ->]|[Ht E]]; [done |].
    destruct (c_ready_all s HC t thu E Hrd) as [? [Hin|?]]; (split; [done |]); [left | by right].
    destruct Hq as [Hq|Hq]; rewrite Hq in Hin; [done |]. by apply elem_of_cons in Hin as [?|?].
  - intros t Ht. destruct (c_sleep s HC t Ht) as (thu & o & fs & E & Eb & ? & Hni).
    exists thu, o, fs. split; [| done]. apply Hkeep; [by eapply Hbn' | done].
  - apply (c_sleep_nodup s HC).
  - intros r x t Hx Ht. destruct (c_wait s HC r x t Hx Ht) as (thu & o & fs & E & Eb & Estk).
    exists thu, o, fs. split; [| done]. apply Hkeep; [| done].
    destruct (Hbn t thu E Eb) as [?| ->]; [done |]. intros Eq. subst n.
    destruct Hstat as [?|(_ & Hi & _)]; [congruence |].
    destruct (c_idle s HC) as (thi & Ei & Hid). rewrite Hi in Hid. destruct Hid as (_ & Hs & _).
    replace thi with thu in Hs by congruence. rewrite Estk in Hs. done.
  - apply (c_wait_nodup s HC).
  - intros r x Hx Hne. rewrite ET, (total_insert _ _ _ _ _ Hn).
    pose proof (c_awake s HC r x Hx Hne). unfold th'. rewrite Haw. lia.
  - intros t thu E Hb. apply Hinv in E as [[-> ->]|[Ht E]]; [done |].
    destruct (c_blocked s HC t thu E Hb) as [?|[?|[?|(c & thc & b & Ec & Hc)]]];
      [by left | by right; left | by right; right; left |].
    right. right. right. destruct (Hnew c thc Ec) as (th1 & E1 & Es). exists c, th1, b. by rewrite Es.
  - assert (StronglySorted (le_of (thread_priority_greater s)) (ready_list (run_next n s))) as HS.
    { pose proof (c_ready_sorted s HC) as Hss. destruct Hq as [Hq|Hq]; rewrite Hq in Hss; [done |].
      by apply StronglySorted_inv in Hss as [? _]. }
    eapply sorted_ext; [| exact HS]. intros x y _ _. unfold le_of, thread_priority_greater.
    by rewrite !Hprio.
  - eapply sorted_ext; [| apply (c_sleep_sorted s HC)]. intros x y _ _.
    unfold le_of, wakeup_tick_less. by rewrite !Hwake.
  - intros Hm r x Hx. eapply sorted_ext; [| by apply (c_wait_sorted s HC Hm r x)].
    intros y z _ _. unfold le_of, thread_priority_greater. by rewrite !Hprio.
  - intros t. change (all_list (run_next n s)) with (all_list s). rewrite (c_all s HC t).
    rewrite ET. destruct (decide (t = n)) as [->|Ht].
    + rewrite lookup_insert_eq, Hn. split; intros _; eexists; (split; [done |]); [done |].
      by destruct Hstat as [->|(-> & _)].
    + by rewrite lookup_insert_ne.
  - apply (c_all_nodup s HC).
  - intros t thu E Hd. apply Hinv in E as [[-> ->]|[Ht E]]; [done |].
    destruct (c_dying s HC t thu E Hd) as (? & ? & _). split_and!; [done..| left; by apply (Hdy t thu)].
  - destruct (c_idle s HC) as (thi & E & Hid). destruct (Hnew _ _ E) as (th1 & E1 & Es).
    exists th1. split; [done |]. change (idle_thread (run_next n s)) with (idle_thread s).
    destruct (idle_thread s) as [i|] eqn:Hi; rewrite Es; [| done].
    destruct Hid as (-> & Hs & Hb). split_and!; [done..|]. intros Hb1.
    apply Hinv in E1 as [[_ ->]|[_ E1]]; [done |]. apply Hb. congruence.
  - intros t thu Ht E. destruct (Hold t thu E) as (th1 & E1 & <- & _). by apply (c_client s HC t).
  - intros c thu t b E Hc. destruct (Hold c thu E) as (th1 & E1 & Es & _). rewrite <-Es in Hc.
    destruct (c_create s HC c th1 t b E1 Hc) as (Hni & th2 & E2 & Hb2 & ?).
    split; [done |]. exists th2. split; [| done]. apply Hkeep; [by eapply Hbn' | done].
  - intros c thu E. destruct (Hold c thu E) as (th1 & E1 & <- & _). by apply (c_plain s HC c).
  - intros c1 c2 th1 th2 t b1 b2 E1 E2 H1 H2.
    destruct (Hold c1 th1 E1) as (? & ? & Es1 & _). destruct (Hold c2 th2 E2) as (? & ? & Es2 & _).
    rewrite <-Es1 in H1. rewrite <-Es2 in H2. by eapply (c_create_one s HC).
  - intros l h Hl. destruct (c_locks s HC l h Hl) as (x & Hx & Hsum). exists x. split; [done |].
    rewrite ET, (total_insert _ _ _ _ _ Hn). change (stack th') with (stack th). lia.
  - apply (c_lock_semas s HC).
  - destruct (c_tid_lock s HC) as (h & Hh & Hal). exists h. split; [done |]. intros t Ht.
    destruct (Hal t Ht) as [thu E]. destruct (Hnew t thu E) as (th1 & ? & _). by exists th1.
  - intros t thu E. destruct (Hold t thu E) as (th1 & E1 & <- & _). by apply (c_locks_ok s HC t).
  - intros t thu E. destruct (Hold t thu E) as (th1 & E1 & <- & _). by apply (c_refs s HC t).
  - apply (c_conds s HC).
  - intros t thu E. destruct (Hold t thu E) as (th1 & E1 & <- & _). by eapply (c_under s HC).
  - intros t thu E. destruct (Hold t thu E) as (th1 & E1 & _). by eapply (c_page s HC).
  - apply (c_load s HC).
Qed.

Lemma run_next_top s n th :
  threads s !! n = Some th → run_stack (run_next n s) = stack th.
Proof. intros E. unfold run_stack. simpl. by rewrite lookup_alter_eq, E. Qed.

Lemma inv_run s n :
  Core s → chosen s n → (∀ t th, threads s !! t = Some th → status th ≠ THREAD_RUNNING) →
  (∀ t th, threads s !! t = Some th → status th = THREAD_DYING → t = initial_thread s) →
  intr_on s = false → in_external_intr s = false → Inv (run_next n s).
Proof.
  intros HC Hch Hnr Hdy Hi Hx. destruct (chosen_ok s n HC Hch Hnr) as (th & Hn & Hres & _ & _).
  split; try done.
  - by apply core_run.
  - simpl. rewrite lookup_alter_eq, Hn. by eexists.
  - intros t thu. simpl. destruct (decide (t = n)) as [->|Ht]; [done |].
    rewrite lookup_alter_ne by done. intros E Hr. by destruct (Hnr _ _ E).
  - intros r. rewrite (run_next_top s n th Hn). intros E. by rewrite E in Hres.
  - intros Hp. exfalso. revert Hp. unfold need_preempt.
    assert (∀ t, prio (run_next n s) t = prio s t) as Hprio.
    { intros t. unfold prio. simpl. destruct (decide (t = n)) as [->|].
      - by rewrite lookup_alter_eq, Hn.
      - by rewrite lookup_alter_ne. }
    simpl. destruct Hch as [[q Eq]|[Eq _]]; rewrite Eq; simpl; [| done].
    destruct q as [|t q]; [done |]. rewrite !Hprio.
    pose proof (c_ready_sorted s HC) as Hs. rewrite Eq in Hs.
    apply StronglySorted_inv in Hs as [_ Hs]. apply Forall_cons in Hs as [Hs _].
    unfold le_of, thread_priority_greater in Hs. by rewrite Hs.
Qed.

(** [schedule], called when no thread runs, does not fault, and switches to
    the chosen thread; a thread that has exited is freed. *)
Definition schedule_to n s : kstate :=
  let s1 := run_next n s in
  let s2 := set_thread_ticks (λ _, 0) s1 in
  if decide (running s = n) then s2
  else match threads s !! running s with
       | Some th => if bool_decide (status th = THREAD_DYING) && bool_decide (running s ≠ initial_thread s)
                    then set_threads (delete (running s)) s2 else s2
       | None => s2
       end.

(** Fields the invariant does not read. *)
Lemma core_irrelevant s s' :
  Core s → threads s' = threads s → ready_list s' = ready_list s → Sleep_list s' = Sleep_list s →
  all_list s' = all_list s → running s' = running s → idle_thread s' = idle_thread s →
  initial_thread s' = initial_thread s → semas s' = semas s → locks s' = locks s →
  conds s' = conds s → thread_mlfqs s' = thread_mlfqs s → load_avg s' = load_avg s → Core s'.
Proof.
  intros HC E1 E2 E3 E4 E5 E6 E7 E8 E9 E10 E11 E12. destruct s, s'; simpl in *. subst.
  destruct HC. by split.
Qed.

Lemma inv_irrelevant s s' :
  Inv s → threads s' = threads s → ready_list s' = ready_list s → Sleep_list s' = Sleep_list s →
  all_list s' = all_list s → running s' = running s → idle_thread s' = idle_thread s →
  initial_thread s' = initial_thread s → semas s' = semas s → locks s' = locks s →
  conds s' = conds s → thread_mlfqs s' = thread_mlfqs s → load_avg s' = load_avg s →
  intr_on s' = intr_on s → in_external_intr s' = in_external_intr s → Inv s'.
Proof.
  intros HI E1 E2 E3 E4 E5 E6 E7 E8 E9 E10 E11 E12 E13 E14.
  destruct HI as [HC ? ? ? ? ? ?]. split; [by eapply core_irrelevant | ..];
    destruct s, s'; simpl in *; subst; done.
Qed.

(** The state in which [schedule] may be called. *)
Record Parked s : Prop := {
  k_core : Core s;
  k_cur : is_Some (threads s !! running s);
  k_none : ∀ t th, threads s !! t = Some th → status th ≠ THREAD_RUNNING;
  k_off : intr_on s = false;
  k_ctx : in_external_intr s = false
}.

Lemma parked_chosen s : Parked s → ∃ n, chosen s n.
Proof.
  intros [HC _ Hnr _ _]. destruct (ready_list s) as [|n q] eqn:Eq; [| exists n; left; by exists q].
  destruct (idle_thread s) as [i|] eqn:Ei; [exists i; by right |]. exfalso.
  destruct (c_idle s HC) as (th & E & Hb). rewrite Ei in Hb. pose proof (Hnr _ _ E) as Hr.
  destruct (status th) eqn:Est; [done | | |].
  - destruct (c_ready_all s HC _ th E Est) as [_ [Hin|?]]; [| congruence].
    rewrite Eq in Hin. by apply not_elem_of_nil in Hin.
  - destruct (c_blocked s HC _ th E Est) as [Hs|[(r & x & Hx & Hw)|[?|(c & thc & b & Ec & Hc)]]].
    + by destruct (c_sleep s HC _ Hs) as (? & ? & ? & ? & ? & ? & ?).
    + destruct (c_wait s HC r x _ Hx Hw) as (thw & o & fs & Ew & _ & Hstk).
      replace thw with th in Hstk by congruence. by rewrite Hstk in Hb.
    + congruence.
    + by destruct (c_create s HC c thc _ b Ec Hc) as [? _].
  - by destruct (c_dying s HC _ th E Est) as (_ & ? & _).
Qed.

Lemma delete_alter_ne (f : thread → thread) (m : gmap loc thread) i j :
  i ≠ j → delete i (alter f j m) = alter f j (delete i m).
Proof.
  intros. apply map_eq. intros z. rewrite lookup_delete, !lookup_alter, !lookup_delete.
  repeat case_decide; simplify_eq; done.
Qed.

Lemma inv_schedule_to s n : Parked s → chosen s n → Inv (schedule_to n s).
Proof.
  intros [HC [thc Hc] Hnr Hoff Hctx] Hch. unfold schedule_to. rewrite Hc.
  set (dead := bool_decide (status thc = THREAD_DYING) && bool_decide (running s ≠ initial_thread s)).
  assert (dead = true → running s ≠ n) as Hdn.
  { unfold dead. intros [Hd _]%andb_true_iff. apply bool_decide_eq_true in Hd. intros <-.
    destruct (chosen_ok s _ HC Hch Hnr) as (th & E & _ & Hst & _). replace thc with th in Hd by congruence. destruct Hst as [?|(? & _)]; congruence. }
  assert (dead = false → Inv (set_thread_ticks (λ _, 0) (run_next n s))) as Hlive.
  { intros Hd. eapply (inv_irrelevant (run_next n s)); try done. apply inv_run; try done.
    intros t th E Ed. destruct (c_dying s HC t th E Ed) as (_ & _ & [?| ->]); [done |].
    unfold dead in Hd. replace thc with th in Hd by congruence.
    rewrite Ed in Hd. simpl in Hd. apply bool_decide_eq_false in Hd.
    destruct (decide (running s = initial_thread s)); tauto. }
  destruct (decide (running s = n)) as [Heq|Hne].
  { apply Hlive. destruct dead; [by destruct Hdn | done]. }
  destruct dead eqn:Ed; [| by apply Hlive].
  assert (status thc = THREAD_DYING) as Hst.
  { unfold dead in Ed. apply andb_true_iff in Ed as [Ed _]. by apply bool_decide_eq_true in Ed. }
  eapply (inv_irrelevant (run_next n (set_threads (delete (running s)) s))); try done;
    [| simpl; by apply delete_alter_ne].
  apply inv_run; try done.
  - by eapply core_delete.
  - intros t th. simpl. rewrite lookup_delete_Some. intros [_ E]. by eapply Hnr.
  - intros t th. simpl. rewrite lookup_delete_Some. intros [Ht E] Hd.
    destruct (c_dying s HC t th E Hd) as (_ & _ & [?| ->]); done.
Qed.

Lemma run_get_thread s t th (Q : thread → kstate → Prop) :
  threads s !! t = Some th → Q th s → wp (get_thread t) s Q.
Proof. intros E H. exists th, s. unfold get_thread. by rewrite E. Qed.

Lemma run_mod_thread s t th f (Q : unit → kstate → Prop) :
  threads s !! t = Some th → Q tt (upd_thread t f s) → wp (mod_thread t f) s Q.
Proof. intros E H. apply wp_bind, (run_get_thread s t th); [done |]. by apply wp_modify. Qed.

Lemma wp_schedule_tail s prev (Q : unit → kstate → Prop) :
  is_Some (threads s !! running s) → intr_on s = false →
  (∀ p, prev = Some p → is_Some (threads s !! p) ∧ p ≠ running s) →
  Q tt (let s1 := set_thread_ticks (λ _, 0) (upd_thread (running s) (set_status (λ _, THREAD_RUNNING)) s) in
        match prev with
        | Some p => match threads s !! p with
                    | Some th => if bool_decide (status th = THREAD_DYING) && bool_decide (p ≠ initial_thread s)
                                 then set_threads (delete p) s1 else s1
                    | None => s1
                    end
        | None => s1
        end) →
  wp (thread_schedule_tail prev) s Q.
Proof.
  intros [th Hth] Hoff Hp HQ. unfold thread_schedule_tail.
  repeat k1. apply wp_assert; [by rewrite Hoff |].
  apply wp_bind, (run_mod_thread _ _ th); [done |]. repeat k1.
  destruct prev as [p|]; [| by repeat k1].
  destruct (Hp p eq_refl) as [[thp Ep] Hne]. rewrite Ep in HQ.
  repeat k1. apply (run_get_thread _ _ thp); [simpl; by rewrite lookup_alter_ne |].
  repeat k1. simpl initial_thread. destruct (_ && _); [| by repeat k1].
  k1. apply wp_assert; [by apply bool_decide_eq_true |]. by repeat k1.
Qed.

Lemma wp_schedule s (Q : unit → kstate → Prop) :
  Parked s → (∀ n, chosen s n → Inv (schedule_to n s) → Q tt (schedule_to n s)) → wp schedule s Q.
Proof.
  intros HP HQ. destruct (parked_chosen s HP) as [n Hn].
  pose proof (inv_schedule_to s n HP Hn) as HI. specialize (HQ n Hn HI).
  destruct HP as [HC [thc Hc] Hnr Hoff Hctx].
  destruct (chosen_ok s n HC Hn Hnr) as (th & En & _).
  set (sq := set_ready_list (@List.tl loc) s).
  assert (∀ R : option loc → kstate → Prop, R (Some n) sq → wp next_thread_to_run s R) as Hnext.
  { intros R HR. unfold next_thread_to_run. repeat k1. unfold sq in HR. destruct Hn as [[q Eq]|[Eq Ei]].
    - rewrite Eq. repeat k1. unfold set_ready_list in *. by rewrite Eq in HR.
    - rewrite Eq. repeat k1. rewrite Ei. unfold set_ready_list in *. rewrite Eq in HR. simpl in HR.
      by destruct s; simpl in *; subst. }
  unfold schedule. repeat k1. apply Hnext. repeat k1. apply wp_assert; [by change (intr_on sq) with (intr_on s); rewrite Hoff |].
  k1. apply (run_get_thread _ _ thc); [done |]. wp1.
  apply wp_assert; [apply bool_decide_eq_true; by eapply Hnr |]. repeat k1.
  apply wp_assert; [apply bool_decide_eq_true; by eexists |].
  change (running sq) with (running s). unfold schedule_to in HQ.
  destruct (decide (running s = n)) as [Heq|Hne].
  - apply wp_schedule_tail; [by eexists | done | done |]. simpl in *. unfold run_next in HQ.
    rewrite Heq. destruct s; simpl in *; by subst.
  - repeat k1. apply wp_schedule_tail; [by eexists | done | |].
    + intros p [= <-]. split; [by eexists | done].
    + simpl in *. rewrite Hc in HQ |- *. exact HQ.
Qed.
End sched.
