(* ===== verification/KernelStep.v ===== *)
(** Every step of the kernel machine keeps its invariant and none faults.
    One lemma per frame and per call. *)
From S2P Require Import Prelude ListSpec FixedPoint Kstate Interrupt Thread Synch Timer Machine KernelInv.
Local Open Scope Z_scope.

(** ** Symbolic execution with a running thread *)

(** The facts about the running thread [th] that every kernel function
    relies on. *)
Record Active (s : kstate) (th : thread) : Prop := {
  a_core : Core s;
  a_run : threads s !! running s = Some th;
  a_status : status th = THREAD_RUNNING;
  a_one : ∀ t th', threads s !! t = Some th' → status th' = THREAD_RUNNING → t = running s;
  a_ctx : in_external_intr s = false
}.

Section exec.
Implicit Types (s : kstate) (t c n : loc) (th : thread) (l : loc) (r : sema_ref) (fs : list frame).

Lemma inv_active s : Inv s → ∃ th, Active s th ∧ run_stack s = stack th.
Proof.
  intros [HC (th & E & Est) H1 _ _ Hx _]. exists th. split; [by split |].
  unfold run_stack. by rewrite E.
Qed.

Lemma active_stack s th : Active s th → run_stack s = stack th.
Proof. intros [_ E _ _ _]. unfold run_stack. by rewrite E. Qed.

Lemma alter_to_insert (f : thread → thread) (m : gmap loc thread) i x :
  m !! i = Some x → alter f i m = <[i := f x]> m.
Proof.
  intros E. apply map_eq. intros j. rewrite lookup_alter, lookup_insert.
  case_decide; [subst; by rewrite E | done].
Qed.

Lemma alter_insert_same (f : thread → thread) (m : gmap loc thread) i x :
  alter f i (<[i := x]> m) = <[i := f x]> m.
Proof.
  apply map_eq. intros j. rewrite lookup_alter, !lookup_insert.
  repeat case_decide; by simplify_eq.
Qed.

Lemma active_local s s' th th' :
  Active s th → Local s s' th th' → in_external_intr s' = false → Active s' th'.
Proof.
  intros [HC E Est H1 _] HL Hx. pose proof HL as [ET Est' (_ & _ & _ & ERun & _) _ _ _ _ _ _ _ _ _ _ _ _ _ _].
  split; [by eapply core_local | by rewrite ERun, ET, lookup_insert_eq | done | | done].
  intros t th0. rewrite ERun, ET, lookup_insert_Some. intros [[<- _]|[Ht E0]]; [done |]. by eapply H1.
Qed.

(** No preemption check is due, unless the top frame is one. *)
Lemma need_false s : Inv s →
  match run_stack s with (KCheckPreempt | KYield) :: _ => False | _ => True end →
  need_preempt s (running s) = false.
Proof.
  intros HI Htop. destruct (need_preempt s (running s)) eqn:E; [| done].
  destruct (i_preempt s HI E) as (r & [Er|Er]); by rewrite Er in Htop.
Qed.

Lemma need_insert s s' th th' :
  Active s th → threads s' = <[running s := th']> (threads s) → running s' = running s →
  ready_list s' = ready_list s → priority th' = priority th →
  need_preempt s' (running s') = need_preempt s (running s).
Proof.
  intros [HC E _ _ _] ET ERun ER Epr. unfold need_preempt. rewrite ER, ERun.
  assert (∀ t, prio s' t = prio s t) as Hp.
  { intros t. unfold prio. rewrite ET. destruct (decide (t = running s)) as [->|].
    - by rewrite lookup_insert_eq, E.
    - by rewrite lookup_insert_ne. }
  destruct (ready_list s); [done |]. by rewrite !Hp.
Qed.

(** What remains to show after a local step. *)
Definition settled s (fs : list frame) : Prop :=
  (resume_top fs = true → intr_on s = false) ∧ (∀ rest, fs = KHalted :: rest → intr_on s = true).

Lemma inv_local s s' th th' :
  Active s th → Local s s' th th' → in_external_intr s' = false → settled s' (stack th') →
  (priority th' = priority th ∧ need_preempt s (running s) = false) ∨
    (∃ rest, stack th' = KCheckPreempt :: rest ∨ stack th' = KYield :: rest) → Inv s'.
Proof.
  intros HA HL Hx [H1 H2] Hp. pose proof (active_local _ _ _ _ HA HL Hx) as HA'.
  pose proof HL as [ET Est' (ER & _ & _ & ERun & _) _ _ _ _ _ _ _ _ _ _ _ _ _ _].
  pose proof (active_stack _ _ HA') as Hs. destruct HA' as [HC' E' _ H1' _].
  split; rewrite ?Hs; try done; [by eexists |]. intros Hneed. destruct Hp as [[Epr Hf]|Hp]; [| done].
  rewrite (need_insert s s' th th') in Hneed by done. congruence.
Qed.

Lemma wp_thread_current s th (Q : loc → kstate → Prop) :
  threads s !! running s = Some th → status th = THREAD_RUNNING → Q (running s) s →
  wp thread_current s Q.
Proof.
  intros E Est HQ. unfold thread_current. repeat k1.
  apply wp_assert; [apply bool_decide_eq_true; by eexists |].
  k1. apply (run_get_thread _ _ th); [done |]. k1.
  apply wp_assert; [by apply bool_decide_eq_true |]. by repeat k1.
Qed.

Lemma wp_push s th f (Q : unit → kstate → Prop) :
  threads s !! running s = Some th → Q tt (upd_thread (running s) (set_stack (cons f)) s) →
  wp (push f) s Q.
Proof. intros E HQ. unfold push. repeat k1. by apply (run_mod_thread _ _ th). Qed.

Lemma wp_resume s th f rest (Q : unit → kstate → Prop) :
  Active s th → stack th = f :: rest →
  wp (exec_frame f) (upd_thread (running s) (set_stack (λ _, rest)) s) Q → wp (exec Resume) s Q.
Proof.
  intros HA Hst HQ. unfold exec. repeat k1. rewrite (active_stack _ _ HA), Hst. k1.
  destruct HA as [_ E _ _ _]. by apply (run_mod_thread _ _ th).
Qed.

Lemma wp_resume_inv s th f rest (Q : unit → kstate → Prop) :
  Active s th → stack th = f :: rest → wp (exec Resume) s Q →
  wp (exec_frame f) (upd_thread (running s) (set_stack (λ _, rest)) s) Q.
Proof.
  intros HA Hst (a & s2 & E2 & HQ). exists a, s2. split; [| done].
  unfold exec, mbind, st_bind, st_get in E2. rewrite (active_stack _ _ HA), Hst in E2.
  unfold mod_thread, get_thread, mbind, st_bind in E2. destruct HA as [_ Er _ _ _].
  by rewrite Er in E2.
Qed.

Lemma wp_get_sema s r x (Q : semaphore → kstate → Prop) :
  semas s !! r = Some x → Q x s → wp (get_sema r) s Q.
Proof. intros E HQ. exists x, s. unfold get_sema. by rewrite E. Qed.
Lemma wp_get_holder s l h (Q : option loc → kstate → Prop) :
  locks s !! l = Some h → Q h s → wp (get_holder l) s Q.
Proof. intros E HQ. exists h, s. unfold get_holder. by rewrite E. Qed.
Lemma wp_get_cond s c w (Q : list loc → kstate → Prop) :
  conds s !! c = Some w → Q w s → wp (get_cond c) s Q.
Proof. intros E HQ. exists w, s. unfold get_cond. by rewrite E. Qed.

Lemma wp_intr_disable s (Q : bool → kstate → Prop) :
  Q (intr_on s) (set_intr_on (λ _, false) s) → wp intr_disable s Q.
Proof. intros HQ. unfold intr_disable. by repeat k1. Qed.

Lemma wp_intr_enable s (Q : bool → kstate → Prop) :
  in_external_intr s = false →
  Q (intr_on s) (set_intr_on (λ _, true) s) → wp intr_enable s Q.
Proof.
  intros Hx HQ. unfold intr_enable. repeat k1. apply wp_assert; [by rewrite Hx |]. by repeat k1.
Qed.

(** In an interrupt handler only [INTR_OFF] can be restored. *)
Lemma wp_intr_set_level s b (Q : bool → kstate → Prop) :
  (b = true → in_external_intr s = false) →
  Q (intr_on s) (set_intr_on (λ _, b) s) → wp (intr_set_level b) s Q.
Proof.
  intros Hx HQ. destruct b; [by apply wp_intr_enable; [apply Hx |] | by apply wp_intr_disable].
Qed.
End exec.

(** Find the block of a thread in an updated state. *)
Ltac look := cbn; rewrite ?lookup_alter_eq, ?lookup_insert_eq; match goal with
  | H : threads _ !! _ = Some _ |- _ => rewrite H; reflexivity end.

Ltac kx := repeat first
  [ k1
  | apply wp_intr_disable
  | eapply wp_push; [look |]
  | eapply run_mod_thread; [look |]
  | eapply run_get_thread; [look |]
  | eapply wp_thread_current; [look | done |]
  | apply wp_intr_set_level; [done |]
  | apply wp_intr_enable; [done |]
  | apply wp_assert; [by (cbn; repeat match goal with H : ?x = _ |- context [?x] => rewrite H end) |] ].

(** Rewrite the updates of the running thread's block into one. *)
Ltac norm := cbn; repeat first
  [ rewrite alter_insert_same
  | match goal with H : threads ?s !! running ?s = Some ?th |- context [alter ?f (running ?s) (threads ?s)] =>
      rewrite (alter_to_insert f (threads s) (running s) th H) end ].

Section frames.
Implicit Types (s : kstate) (t c n : loc) (th : thread) (l : loc) (r : sema_ref) (fs : list frame).

(** The facts about the stack that follow from the invariant. *)
Lemma active_facts s th :
  Active s th → shape_ok s (running s) (stack th) ∧ under_ok (stack th) ∧ locks_ok (holder_is s (running s)) (stack th) ∧
    Forall (refs_ok s (running s)) (stack th).
Proof.
  intros [HC E Est _ _]. split_and!.
  - unfold shape_ok. destruct (decide (running s = idle_page)) as [Eq|Hn].
    + destruct (c_idle s HC) as (th0 & E0 & Hi). rewrite <-Eq, E in E0. injection E0 as <-.
      destruct (idle_thread s); [by destruct Hi as (_ & ? & _) | done].
    + by apply (c_client s HC (running s)).
  - by eapply (c_under s HC).
  - by apply (c_locks_ok s HC).
  - by apply (c_refs s HC).
Qed.

(** Popping a frame that is not the last of an idle or boot stack. *)
Definition middle (f : frame) : bool :=
  match f with
  | KStartWait _ | KThreadStart _ _ | KIdle _ | KIdleLoop | KHlt | KHalted => false
  | _ => true
  end.

Lemma shape_pop s t f fs : middle f = true → shape_ok s t (f :: fs) → shape_ok s t fs.
Proof.
  intros Hm. unfold shape_ok. destruct (decide (t = idle_page)).
  - destruct (idle_thread s); destruct f; try done; by destruct fs.
  - by intros [_ ?]%Forall_cons.
Qed.

(** Frames that a call of any thread may push. *)
Lemma shape_push s t f fs :
  shape_ok s t fs → (t ≠ idle_page → client_frame f = true) →
  (t = idle_page → match f with
     | KCheckPreempt | KYield | KSemaUp _ => idle_thread s ≠ None
     | KIntrSetLevel _ | KIret => True
     | _ => False end) →
  shape_ok s t (f :: fs).
Proof.
  unfold shape_ok. destruct (decide (t = idle_page)) as [->|Hn]; intros H H1 H2.
  - specialize (H2 eq_refl). destruct (idle_thread s); destruct f; simpl; done || by destruct fs.
  - constructor; [by apply H1 | done].
Qed.

Definition same_shared s s' : Prop :=
  ready_list s' = ready_list s ∧ Sleep_list s' = Sleep_list s ∧ all_list s' = all_list s ∧
  running s' = running s ∧ idle_thread s' = idle_thread s ∧
  initial_thread s' = initial_thread s ∧ thread_mlfqs s' = thread_mlfqs s ∧
  load_avg s' = load_avg s ∧ semas s' = semas s ∧ locks s' = locks s ∧
  conds s' = conds s ∧ in_external_intr s' = false.

(** The running thread's stack goes from [fs] to [fs'] (both over [base])
    without touching a creation in progress or a lock's token. *)
Definition neutral (f : frame) : Prop :=
  create_frame f = None ∧ (∀ l, owns_frame l f = 0) ∧
  match f with KSemaLoop (LockSema _) _ => False | _ => True end.

Lemma neutral_create t b f fs : create_frame f = None → create_stack t b (f :: fs) ↔ create_stack t b fs.
Proof. by destruct f. Qed.

Lemma neutral_facts top base :
  Forall neutral top →
  (∀ t b, create_stack t b (top ++ base) ↔ create_stack t b base) ∧
  (plain_stack (top ++ base) ↔ plain_stack base) ∧
  (∀ l, owned l (top ++ base) = owned l base).
Proof.
  induction 1 as [|f top (Hc & Ho & Hl) _ (IH1 & IH2 & IH3)]; [done |]. simpl app. split_and!.
  - intros t b. by rewrite neutral_create, IH1.
  - unfold plain_stack in *. rewrite Forall_cons, IH2. tauto.
  - intros l. rewrite <-IH3. specialize (Ho l). destruct f; simpl in *; try lia. by destruct s.
Qed.

Lemma neutral_local s s' th th' top top' base :
  Active s th → same_shared s s' → stack th = top ++ base → stack th' = top' ++ base →
  Forall neutral top → Forall neutral top' → status th' = THREAD_RUNNING →
  threads s' = <[running s := th']> (threads s) →
  shape_ok s (running s) (stack th') → under_ok (stack th') →
  (∀ r, awake r th ≤ awake r th') →
  locks_ok (holder_is s (running s)) (stack th') →
  Forall (refs_ok s (running s)) (stack th') → Local s s' th th'.
Proof.
  intros HA (E1 & E2 & E3 & E4 & E5 & E6 & E7 & E8 & E9 & E10 & E11 & Hx) Es Es' N N' Hst ET Hsh Hu Haw Hl Href.
  destruct (neutral_facts _ base N) as (C1 & P1 & O1).
  destruct (neutral_facts _ base N') as (C2 & P2 & O2).
  apply local_stack; try done; rewrite ?Es, ?Es', ?E11; [done | by eauto |..].
  - apply HA.
  - apply create_iff_step. intros t b. by rewrite C1, C2.
  - by rewrite P1, P2.
  - intros l. by rewrite O1, O2.
Qed.

Lemma inv_neutral s s' th th' top top' base :
  Active s th → same_shared s s' → stack th = top ++ base → stack th' = top' ++ base →
  Forall neutral top → Forall neutral top' → status th' = THREAD_RUNNING →
  threads s' = <[running s := th']> (threads s) →
  shape_ok s (running s) (stack th') → under_ok (stack th') →
  (∀ r, awake r th ≤ awake r th') →
  locks_ok (holder_is s (running s)) (stack th') →
  Forall (refs_ok s (running s)) (stack th') → settled s' (stack th') →
  (priority th' = priority th ∧ need_preempt s (running s) = false) ∨
    (∃ rest, stack th' = KCheckPreempt :: rest ∨ stack th' = KYield :: rest) → Inv s'.
Proof.
  intros HA Hsh Es Es' N N' Hst ET Hshape Hu Haw Hl Href Hset Hp.
  eapply inv_local; [done | by eapply neutral_local | by apply Hsh | done | done].
Qed.

Lemma awake_other r th f rest :
  stack th = f :: rest → (∀ r o, f ≠ KSemaLoop r o) → awake r th = 0.
Proof.
  intros E Hf. unfold awake. rewrite E. destruct (status th); try done;
    destruct f; try done; by destruct (Hf s old_level).
Qed.
End frames.

Lemma under_rest f rest : under_ok (f :: rest) → under_ok rest ∧ ∀ s, settled s rest.
Proof.
  intros H. destruct rest as [|g rest]; [done |]. simpl in *. apply Forall_cons in H as [Hg H].
  split; [done |]. intros s. split; [by destruct g |]. by intros ? [= -> _].
Qed.

Lemma under_push f rest : under_ok (f :: rest) → ∀ g, under_ok (g :: rest).
Proof. done. Qed.

Ltac nonneg_awake := intros ?; erewrite awake_other by done; apply awake_nonneg.
Ltac neutral_list := repeat (apply Forall_cons; split; [done |]); apply Forall_nil; done.

Ltac keep_refs := cbn; repeat (apply Forall_cons; split; [by cbn |]); done.

(** A change of one lock and its semaphore, with the running thread's stack. *)
Lemma local_lock s s' th th' l h x h' x' :
  Active s th → threads s' = <[running s := th']> (threads s) → status th' = THREAD_RUNNING →
  ready_list s' = ready_list s ∧ Sleep_list s' = Sleep_list s ∧ all_list s' = all_list s ∧
    running s' = running s ∧ idle_thread s' = idle_thread s ∧
    initial_thread s' = initial_thread s ∧ thread_mlfqs s' = thread_mlfqs s ∧
    load_avg s' = load_avg s →
  conds s' = conds s → locks s' = <[l := h']> (locks s) →
  semas s' = <[LockSema l := x']> (semas s) →
  locks s !! l = Some h → semas s !! LockSema l = Some x →
  waiters x' = waiters x → 0 ≤ value x' < 4294967296 →
  value x' + holder_count h' + owned l (stack th') = value x + holder_count h + owned l (stack th) →
  (∀ l', l' ≠ l → owned l' (stack th') = owned l' (stack th)) →
  shape_ok s (running s) (stack th') → under_ok (stack th') →
  create_step s (stack th) (stack th') →
  (plain_stack (stack th) → plain_stack (stack th')) →
  (value x' - awake (LockSema l) th' ≤ value x - awake (LockSema l) th) →
  (∀ r, r ≠ LockSema l → awake r th ≤ awake r th') →
  (∀ t, h = Some t → t = running s) → (∀ t, h' = Some t → t = running s) →
  locks_ok (holder_is s' (running s)) (stack th') →
  Forall (refs_ok s (running s)) (stack th') → Local s s' th th'.
Proof.
  intros HA ET Hst Hs EC ELk ESem Hl Hx Hw Hv Htok Hoth Hshape Hu Hcr Hpl Haw Haw' Hh Hh' Hlok Href.
  pose proof HA as [HC _ _ _ _].
  assert (∀ r, is_Some (semas s !! r) → is_Some (semas s' !! r)) as HsG.
  { intros r Hr. rewrite ESem, lookup_insert. case_decide; [by eexists | done]. }
  assert (∀ l', is_Some (locks s !! l') → is_Some (locks s' !! l')) as HlG.
  { intros l' Hl'. rewrite ELk, lookup_insert. case_decide; [by eexists | done]. }
  split; try done.
  - intros r x0. rewrite ESem, lookup_insert_Some. intros [[<- <-]|[Hne Hr]].
    + split; [done |]. right. exists x. split_and!; [done..|]. by left.
    + split; [by apply (c_wait_nodup s HC r) |]. right. exists x0. split_and!; [done..|]. intros _. left.
      specialize (Haw' r). assert (r ≠ LockSema l) by congruence. specialize (Haw' H). lia.
  - intros c. by rewrite EC.
  - intros c w t. rewrite EC. eauto.
  - intros l'. rewrite ESem, lookup_insert. case_decide; [| by left].
    simplify_eq. right. rewrite ELk, lookup_insert_eq. by eexists.
  - intros l' h0. rewrite ELk, lookup_insert_Some. intros [[<- <-]|[Hne Hl']].
    + exists x'. rewrite ESem, lookup_insert_eq. split; [done |]. right. by exists h, x.
    + destruct (c_locks s HC l' h0 Hl') as (x0 & Hx0 & _). exists x0.
      rewrite ESem, lookup_insert_ne by congruence. split; [done |]. right. exists h0, x0.
      rewrite Hoth by done. done.
  - intros t l' Ht. unfold holder_is. rewrite ELk, lookup_insert. case_decide; [subst | done].
    rewrite Hl. split; intros [= ->]; exfalso; apply Ht; auto.
  - eapply Forall_impl; [exact Href |]. intros f. apply refs_mono; try done. intros c. by rewrite EC.
Qed.

(** A step that replaces the frames [top] by [top'] in front of [base]; what
    is left is the shape, the awake count, and the check for preemption. *)
Ltac go_neutral th' top top' base :=
  eapply (inv_neutral _ _ _ th' top top' base);
  [ eassumption | by split_and! | done |done | neutral_list | neutral_list | done
  | norm; reflexivity | | try done | try nonneg_awake | try done | try keep_refs | try done | ].

(** A change of one semaphore's value, with the running thread's stack. *)
Lemma local_sema s s' th th' r x x' :
  Active s th → threads s' = <[running s := th']> (threads s) → status th' = THREAD_RUNNING →
  ready_list s' = ready_list s ∧ Sleep_list s' = Sleep_list s ∧ all_list s' = all_list s ∧
    running s' = running s ∧ idle_thread s' = idle_thread s ∧
    initial_thread s' = initial_thread s ∧ thread_mlfqs s' = thread_mlfqs s ∧
    load_avg s' = load_avg s →
  conds s' = conds s → locks s' = locks s →
  semas s' = <[r := x']> (semas s) → semas s !! r = Some x →
  waiters x' = waiters x → 0 ≤ value x' < 4294967296 →
  (∀ l, r = LockSema l → value x' + owned l (stack th') = value x + owned l (stack th)) →
  (∀ l, r ≠ LockSema l → owned l (stack th') = owned l (stack th)) →
  shape_ok s (running s) (stack th') → under_ok (stack th') →
  create_step s (stack th) (stack th') →
  (plain_stack (stack th) → plain_stack (stack th')) →
  (waiters x ≠ [] → value x' - awake r th' ≤ value x - awake r th ∨
     value x' ≤ total (awake r) (threads s')) →
  (∀ r', r' ≠ r → awake r' th ≤ awake r' th') →
  locks_ok (holder_is s (running s)) (stack th') →
  Forall (refs_ok s (running s)) (stack th') → Local s s' th th'.
Proof.
  intros HA ET Hst Hs EC ELk ESem Hx Hw Hv Htok Hoth Hshape Hu Hcr Hpl Haw Haw' Hlok Href.
  pose proof HA as [HC _ _ _ _].
  assert (∀ r', is_Some (semas s !! r') → is_Some (semas s' !! r')) as HsG.
  { intros r' Hr. rewrite ESem, lookup_insert. case_decide; [by eexists | done]. }
  split; rewrite ?ELk; try done.
  - intros r' x0. rewrite ESem, lookup_insert_Some. intros [[<- <-]|[Hne Hr]].
    + split; [done |]. right. exists x. done.
    + split; [by apply (c_wait_nodup s HC r') |]. right. exists x0. split_and!; [done..|]. intros _. left.
      assert (r' ≠ r) as Hne' by congruence. specialize (Haw' r' Hne'). lia.
  - intros c. by rewrite EC.
  - intros c w t. rewrite EC. eauto.
  - intros l'. rewrite ESem, lookup_insert. case_decide; [| by left]. intros _. left. subst. by eexists.
  - intros l' h0 Hl'. destruct (c_locks s HC l' h0 Hl') as (x0 & Hx0 & _).
    rewrite ESem, lookup_insert. destruct (decide (r = LockSema l')) as [->|Hne].
    + exists x'. split; [done |]. right. exists h0, x. split_and!; [done..|]. specialize (Htok l' eq_refl). lia.
    + exists x0. split; [done |]. right. exists h0, x0. rewrite Hoth by done. done.
  - intros t l' Ht. unfold holder_is. by rewrite ELk.
  - eapply locks_ok_ext; [| exact Hlok]. intros l'. unfold holder_is. by rewrite ELk.
  - eapply Forall_impl; [exact Href |]. intros f. apply refs_mono; rewrite ?ELk, ?EC; done.
Qed.

Lemma insert_ordered_ext {A} (f g : A → A → bool) x l :
  (∀ a b, f a b = g a b) → insert_ordered f x l = insert_ordered g x l.
Proof. intros H. induction l as [|y l IH]; simpl; [done |]. by rewrite H, IH. Qed.

(** The state after [thread_unblock (t)]. *)
Definition unblocked (t : loc) (s : kstate) : kstate :=
  set_ready_list (insert_ordered (thread_priority_greater s) t)
    (upd_thread t (set_status (λ _, THREAD_READY)) s).

Lemma wp_unblock s t tht (Q : unit → kstate → Prop) :
  threads s !! t = Some tht → status tht = THREAD_BLOCKED →
  (intr_on s = true → in_external_intr s = false) → Q tt (unblocked t s) → wp (thread_unblock t) s Q.
Proof.
  intros E Hb Hx HQ. unfold thread_unblock. repeat k1.
  apply wp_assert; [apply bool_decide_eq_true; by eexists |]. k1. apply wp_intr_disable.
  k1. apply (run_get_thread _ _ tht); [done |]. k1.
  apply wp_assert; [by apply bool_decide_eq_true |]. repeat k1.
  apply (run_mod_thread _ _ tht); [done |]. k1. apply wp_intr_set_level; [done |]. k1.
  by destruct s.
Qed.

Lemma unblocked_threads t s tht :
  threads s !! t = Some tht → threads (unblocked t s) = <[t := set_status (λ _, THREAD_READY) tht]> (threads s).
Proof. intros E. simpl. by apply alter_to_insert. Qed.

Lemma unblocked_prio t s u : prio (unblocked t s) u = prio s u.
Proof.
  unfold prio. simpl. destruct (decide (u = t)) as [->|].
  - rewrite lookup_alter_eq. by destruct (threads s !! t).
  - by rewrite lookup_alter_ne.
Qed.

Lemma unblocked_ready t s :
  ready_list (unblocked t s) = insert_ordered (thread_priority_greater (unblocked t s)) t (ready_list s).
Proof.
  simpl. apply insert_ordered_ext. intros a b. unfold thread_priority_greater. by rewrite !unblocked_prio.
Qed.

Ltac solve_plain := unfold plain_stack; cbn; rewrite ?Forall_cons; cbn; naive_solver.
Ltac solve_awake E := intros; rewrite (awake_other _ _ _ _ E) by done;
  match goal with |- context [awake ?r ?th] => pose proof (awake_nonneg r th); lia end.
Ltac solve_locks := match goal with
  | Hlk : locks_ok _ ?fs |- locks_ok _ ?fs => eapply locks_ok_ext; [| exact Hlk];
      let l' := fresh in intros l'; unfold holder_is; cbn;
      rewrite ?lookup_insert; repeat case_decide; subst; naive_solver end.

(** The facts about the stack [f :: rest] of the running thread. *)
Ltac open_stack HA E :=
  let HC := fresh "HC" in
  destruct (active_facts _ _ HA) as (Hsh & Hu & Hlk & Href);
  pose proof HA as [HC Er Est _ Hx];
  rewrite E in Hsh, Hu, Hlk, Href; cbn in Hlk;
  apply Forall_cons in Href as [Hf Href]; cbn in Hf;
  destruct (under_rest _ _ Hu) as [Hu' Hset];
  eapply wp_resume; [exact HA | exact E |]; unfold exec_frame.

Section steps.
Context (s : kstate) (th : thread) (HI : Inv s) (HA : Active s th).
Implicit Types (t c n : loc) (l : loc) (r : sema_ref) (fs : list frame).

Let goal : Prop := wp (exec Resume) s (λ _ s', Inv s').

Lemma need_none f rest : stack th = f :: rest → f ≠ KCheckPreempt → f ≠ KYield →
  need_preempt s (running s) = false.
Proof.
  intros E H1 H2. apply need_false; [done |]. rewrite (active_stack s th HA), E.
  by destruct f.
Qed.

Ltac keep_prio E := left; split; [done | by eapply need_none; [exact E | ..]].

Lemma step_intr_set_level o rest : stack th = KIntrSetLevel o :: rest → goal.
Proof.
  intros E. open_stack HA E. kx.
  go_neutral (set_stack (λ _, rest) th) [KIntrSetLevel o] (@nil frame) rest.
  - by refine (shape_pop _ _ _ _ _ Hsh).
  - keep_prio E.
Qed.

Lemma step_iret rest : stack th = KIret :: rest → goal.
Proof.
  intros E. open_stack HA E. kx.
  go_neutral (set_stack (λ _, rest) th) [KIret] (@nil frame) rest.
  - by refine (shape_pop _ _ _ _ _ Hsh).
  - keep_prio E.
Qed.

Lemma step_check_preempt rest : stack th = KCheckPreempt :: rest → goal.
Proof.
  intros E. open_stack HA E. unfold thread_check_preempt. kx.
  set (s1 := set_intr_on _ _).
  assert (need_preempt s1 (running s) = need_preempt s (running s)) as Hn.
  { apply (need_insert s s1 th (set_stack (λ _, rest) th)); try done. norm. reflexivity. }
  change (running s1) with (running s). rewrite Hn.
  destruct (need_preempt s (running s)) eqn:Hneed; kx; cbn; rewrite ?Hx; kx.
  - go_neutral (set_stack (λ _, KYield :: rest) th) [KCheckPreempt] [KYield] rest.
    + apply shape_push; [by refine (shape_pop _ _ _ _ _ Hsh) | done |]. intros Hi Hnone.
      unfold shape_ok in Hsh. rewrite decide_True, Hnone in Hsh by done. done.
    + right. exists rest. by right.
  - go_neutral (set_stack (λ _, rest) th) [KCheckPreempt] (@nil frame) rest.
    + by refine (shape_pop _ _ _ _ _ Hsh).
    + by left.
Qed.

Lemma step_sema_down r rest : stack th = KSemaDown r :: rest → goal.
Proof.
  intros E. open_stack HA E. unfold sema_down. kx.
  assert (neutral (KSemaLoop r (intr_on s))) as N by (by destruct r).
  assert (locks_ok (holder_is s (running s)) (KSemaLoop r (intr_on s) :: rest)) as Hlk'
    by (by destruct r).
  go_neutral (set_stack (λ _, KSemaLoop r (intr_on s) :: rest) th) [KSemaDown r]
    [KSemaLoop r (intr_on s)] rest.
  - apply shape_push; [by refine (shape_pop _ _ _ _ _ Hsh) | done |]. intros Hi.
    unfold shape_ok in Hsh. rewrite decide_True in Hsh by done. by destruct (idle_thread s).
  - keep_prio E.
Qed.

Lemma step_sleep_check (start n : Z) rest : stack th = KSleepCheck start n :: rest → goal.
Proof.
  intros E. open_stack HA E. unfold timer_sleep_check, timer_elapsed, timer_ticks. kx.
  destruct (_ <? n); kx.
  - go_neutral (set_stack (λ _, KSleep (i64 (start + n)) :: rest) th) [KSleepCheck start n]
      [KSleep (i64 (start + n))] rest.
    + apply shape_push; [by refine (shape_pop _ _ _ _ _ Hsh) | done |]. intros Hi.
      unfold shape_ok in Hsh. rewrite decide_True in Hsh by done. by destruct (idle_thread s).
    + keep_prio E.
  - go_neutral (set_stack (λ _, rest) th) [KSleepCheck start n] (@nil frame) rest.
    + by refine (shape_pop _ _ _ _ _ Hsh).
    + keep_prio E.
Qed.

Lemma step_kernel_thread rest : stack th = KKernelThread :: rest → goal.
Proof.
  intros E. open_stack HA E. kx.
  go_neutral (set_stack (λ _, rest) th) [KKernelThread] (@nil frame) rest.
  - by refine (shape_pop _ _ _ _ _ Hsh).
  - keep_prio E.
Qed.

Lemma step_hlt rest : stack th = KHlt :: rest → goal.
Proof.
  intros E. open_stack HA E. kx.
  go_neutral (set_stack (λ _, KHalted :: rest) th) [KHlt] [KHalted] rest.
  - unfold shape_ok in *. cbn. destruct (decide _).
    + destruct (idle_thread s); by destruct rest.
    + by apply Forall_cons in Hsh as [? _].
  - keep_prio E.
Qed.

(** Steps on locks and semaphores. *)

Lemma lock_sema l : is_Some (locks s !! l) → ∃ h x, locks s !! l = Some h ∧
  semas s !! LockSema l = Some x ∧ 0 ≤ value x ∧
  value x + holder_count h + owned l (stack th) ≤ 1.
Proof.
  intros [h Hl]. pose proof HA as [HC Er _ _ _]. destruct (c_locks s HC l h Hl) as (x & Hx & Hsum).
  exists h, x. split_and!; [done..| by apply (c_wait_nodup s HC (LockSema l)) |].
  pose proof (total_ge (λ th, owned l (stack th)) _ _ _ (λ th, owned_nonneg l (stack th)) Er).
  simpl in *. lia.
Qed.

Lemma held_by_cur s' th' l h (Q : bool → kstate → Prop) :
  locks s' !! l = Some h → threads s' !! running s' = Some th' → status th' = THREAD_RUNNING →
  Q (bool_decide (h = Some (running s'))) s' → wp (lock_held_by_current_thread l) s' Q.
Proof.
  intros Hl Ht Hst HQ. unfold lock_held_by_current_thread.
  k1. apply (wp_get_holder _ _ h); [done |]. k1. eapply wp_thread_current; [done..|]. by k1.
Qed.

Lemma step_lock_acquire l rest : stack th = KLockAcquire l :: rest → goal.
Proof.
  intros E. open_stack HA E. destruct Hf as [h Hl]. destruct Hlk as [Hnh Hlk].
  destruct (c_locks s HC l h Hl) as (x & Hxs & _).
  unfold lock_acquire. kx.
  eapply held_by_cur; [exact Hl | by look | done |]. cbn.
  k1. apply wp_assert; [rewrite bool_decide_false; [done | unfold holder_is in Hnh; congruence] |].
  unfold sema_down. kx.
  set (th' := set_stack (λ _, KSemaLoop (LockSema l) (intr_on s) :: KSetHolder l :: rest) th).
  eapply (inv_local s _ th th'); [done | | done | done |].
  - apply local_stack; try done; rewrite ?E.
    + norm. reflexivity.
    + by eauto.
    + apply shape_push; [| done |].
      * apply shape_push; [by refine (shape_pop _ _ _ _ _ Hsh) | done |]. intros Hi.
        unfold shape_ok in Hsh. rewrite decide_True in Hsh by done. by destruct (idle_thread s).
      * intros Hi. unfold shape_ok in Hsh. rewrite decide_True in Hsh by done. by destruct (idle_thread s).
    + simpl. by apply Forall_cons.
    + by apply create_iff_step.
    + solve_plain.
    + by intros.
    + nonneg_awake.
    + cbn. split; [by eexists |]. split; done.
    + cbn. repeat (apply Forall_cons; split; [| try done]); cbn; [| by eexists].
      split; [by eexists | done].
  - keep_prio E.
Qed.

Lemma step_set_holder l rest : stack th = KSetHolder l :: rest → goal.
Proof.
  intros E. open_stack HA E. destruct Hf as [h0 Hl0].
  destruct (lock_sema l) as (h & x & Hl & Hxs & Hv & Hsum); [by eexists |].
  rewrite E in Hsum. simpl in Hsum. rewrite decide_True in Hsum by done.
  pose proof (owned_nonneg l rest).
  assert (h = None) as -> by (destruct h; [simpl in *; lia | done]).
  unfold lock_set_holder. k1. eapply wp_get_holder; [exact Hl |]. kx.
  eapply (inv_local s _ th (set_stack (λ _, rest) th)); [done | | done | done |].
  - eapply (local_lock s _ th _ l None x (Some (running s)) x); try done; rewrite ?E.
    + norm. reflexivity.
    + cbn. by rewrite insert_id.
    + apply (c_wait_nodup s HC (LockSema l)). done.
    + simpl. rewrite decide_True by done. lia.
    + intros l' Hne. simpl. by rewrite decide_False.
    + by refine (shape_pop _ _ _ _ _ Hsh).
    + by apply create_iff_step.
    + solve_plain.
    + solve_awake E.
    + solve_awake E.
    + congruence.
    + destruct Hlk as [_ Hlk]. solve_locks.
  - keep_prio E.
Qed.

(** A waiter of [r] is released: its queue loses it, the ready queue gains
    it, and the semaphore may go up by one. *)
Definition release r x t q s0 : kstate := unblocked t (set_semas (<[r := mk_sema (value x) q]>) s0).

Lemma waiter_blocked r x t q :
  semas s !! r = Some x → waiters x = t :: q → ∃ tht o fs, threads s !! t = Some tht ∧
    status tht = THREAD_BLOCKED ∧ stack tht = KSemaLoop r o :: fs ∧ t ≠ running s ∧ t ≠ idle_page.
Proof.
  intros Hx Hw. pose proof HA as [HC Er Est _ _].
  destruct (c_wait s HC r x t Hx) as (tht & o & fs & E & Eb & Ek); [rewrite Hw; left |].
  exists tht, o, fs. split_and!; [done..| intros ->; congruence |]. intros ->.
  destruct (c_idle s HC) as (thi & Ei & Hi). replace thi with tht in Hi by congruence.
  rewrite Ek in Hi. by destruct (idle_thread s); [destruct Hi as (_ & ? & _) |].
Qed.

Lemma active_release r x t q :
  semas s !! r = Some x → waiters x = t :: q → Active (release r x t q s) th ∧
    value x + 1 ≤ total (awake r) (threads (release r x t q s)).
Proof.
  intros Hx Hw. destruct (waiter_blocked r x t q Hx Hw) as (tht & o & fs & E & Eb & Ek & Hne & Hni).
  pose proof HA as [HC Er Est H1 Hx0].
  assert (Core (release r x t q s)) as HC'.
  { eapply (core_unblock s _ t th th tht); try done. split; try done.
    - by rewrite Ek.
    - unfold release. rewrite (unblocked_threads t _ tht) by done. simpl. by rewrite (insert_id _ _ _ Er).
    - by auto.
    - exact (unblocked_ready t (set_semas <[r := mk_sema (value x) q]> s)).
    - right. split; [done |]. intros Hs. destruct (c_sleep s HC t Hs) as (? & ? & ? & ? & _ & ? & _).
      congruence.
    - left. exists r, x, q. done.
    - intros c thc b. unfold release. rewrite (unblocked_threads t _ tht) by done. simpl.
      rewrite lookup_insert_Some. intros [[<- <-]|[_ Ec]] Hc.
      + simpl in Hc. destruct (c_create s HC t tht t b E Hc) as (_ & th' & E' & _ & Hk).
        replace th' with tht in Hk by congruence. rewrite Ek in Hk. naive_solver.
      + destruct (c_create s HC c thc t b Ec Hc) as (_ & th' & E' & _ & Hk).
        replace th' with tht in Hk by congruence. rewrite Ek in Hk. naive_solver. }
  assert (threads (release r x t q s) = <[t := set_status (λ _, THREAD_READY) tht]> (threads s)) as ET
    by (by exact (unblocked_threads t (set_semas <[r := mk_sema (value x) q]> s) tht E)).
  split.
  - split; [done | by rewrite ET, lookup_insert_ne | done | | done].
    intros u thu. rewrite ET, lookup_insert_Some. intros [[<- <-]|[_ Eu]]; [done | by apply H1].
  - rewrite ET, (total_insert _ _ _ _ _ E).
    assert (waiters x ≠ []) as Hn by (by rewrite Hw). pose proof (c_awake s HC r x Hx Hn).
    assert (awake r tht = 0) as -> by (unfold awake; by rewrite Eb).
    assert (awake r (set_status (λ _, THREAD_READY) tht) = 1) as ->; [| lia].
    unfold awake. simpl. rewrite Ek. by rewrite decide_True.
Qed.

Lemma u32_le z : 0 ≤ z → u32 z ≤ z.
Proof. intros. apply Z.mod_le; lia. Qed.

Lemma idle_or_client f rest :
  stack th = f :: rest → shape_ok s (running s) (f :: rest) → middle f = true →
  match f with KSemaUp _ | KCheckPreempt | KYield => True | _ => False end →
  shape_ok s (running s) (KCheckPreempt :: rest).
Proof.
  intros E Hsh Hm Hf. apply shape_push; [by refine (shape_pop _ _ _ _ _ Hsh) | done |].
  intros Hi. unfold shape_ok in Hsh. rewrite decide_True in Hsh by done.
  destruct (idle_thread s); [done |]. by destruct f.
Qed.

(** The end of [sema_up (r)] from a state where a waiter may have been
    released. *)
Lemma sema_up_local r rest s0 s' x :
  stack th = KSemaUp r :: rest → Active s0 th → semas s0 !! r = Some x →
  running s0 = running s → idle_thread s0 = idle_thread s → locks s0 = locks s → conds s0 = conds s →
  (∀ r', is_Some (semas s !! r') → is_Some (semas s0 !! r')) →
  (waiters x ≠ [] → value x + 1 ≤ total (awake r) (threads s0)) →
  threads s' = <[running s := set_stack (λ _, KCheckPreempt :: rest) th]> (threads s0) →
  ready_list s' = ready_list s0 ∧ Sleep_list s' = Sleep_list s0 ∧ all_list s' = all_list s0 ∧
    running s' = running s0 ∧ idle_thread s' = idle_thread s0 ∧
    initial_thread s' = initial_thread s0 ∧ thread_mlfqs s' = thread_mlfqs s0 ∧
    load_avg s' = load_avg s0 →
  conds s' = conds s0 → locks s' = locks s0 →
  semas s' = <[r := mk_sema (u32 (value x + 1)) (waiters x)]> (semas s0) →
  in_external_intr s' = false → Inv s'.
Proof.
  intros E HA0 Hx ERun EI ELk ECd HsG Hawk ET Hs EC' ELk' ESem Hctx.
  destruct (active_facts s th HA) as (Hsh & Hu & Hlk & Href). rewrite E in Hsh, Hu, Hlk, Href.
  apply Forall_cons in Href as [Hf Href]. cbn in Hlk.
  set (th' := set_stack (λ _, KCheckPreempt :: rest) th).
  pose proof HA0 as [HC0 E0 Est _ _].
  assert (0 ≤ value x < 4294967296) as Hv by (by apply (c_wait_nodup s0 HC0 r)).
  eapply (inv_local s0 _ th th'); [done | | done | done | right; eexists; by left].
  eapply (local_sema s0 s' th th' r x _ HA0); rewrite ?E; try done.
  - by rewrite ERun.
  - apply u32_range.
  - intros l ->. destruct (c_locks s0 HC0 l) with (h := default None (locks s !! l)) as (x0 & Hx0 & Hsum).
    { rewrite ELk. destruct (c_lock_semas s0 HC0 l) as [h Hh]; [by eexists |].
      rewrite ELk in Hh. by rewrite Hh. }
    assert (x0 = x) as -> by congruence.
    pose proof (total_ge (λ th, owned l (stack th)) _ _ _ (λ th, owned_nonneg l (stack th)) E0) as Hge.
    cbn beta in Hge. rewrite E in Hge. cbn [owned owns_frame] in Hge |- *. rewrite decide_True in * by done.
    pose proof (owned_nonneg l rest). change (owned l (stack th')) with (0 + owned l rest).
    simpl value. rewrite u32_id; [lia |].
    destruct (default None (locks s !! l)); simpl in Hsum; lia.
  - intros l Hne. cbn. by rewrite decide_False.
  - unfold shape_ok. rewrite EI, ERun. eapply idle_or_client; done.
  - by apply create_iff_step.
  - solve_plain.
  - intros Hn. right. rewrite ET, <-ERun, (total_insert _ _ _ _ _ E0).
    rewrite (awake_other r th _ _ E) by done. pose proof (awake_nonneg r th').
    specialize (Hawk Hn). pose proof (u32_le (value x + 1) ltac:(lia)). fold th'. cbn [value]. lia.
  - solve_awake E.
  - cbn. eapply locks_ok_ext; [| exact Hlk]. intros l. unfold holder_is. by rewrite ELk, ERun.
  - rewrite ERun. constructor; [done |]. eapply Forall_impl; [exact Href |]. intros f.
    apply refs_mono; rewrite ?ELk, ?ECd; done.
Qed.

Lemma step_sema_up r rest : stack th = KSemaUp r :: rest → goal.
Proof.
  intros E. open_stack HA E. destruct Hf as [x Hx1]. unfold sema_up. kx.
  eapply wp_get_sema; [exact Hx1 |]. destruct (waiters x) as [|t q] eqn:Hw.
  - kx. eapply wp_get_sema; [exact Hx1 |]. kx. rewrite Hw. kx.
    eapply (sema_up_local r rest s _ x E HA Hx1); try done.
    + norm. reflexivity.
    + by rewrite Hw.
  - destruct (waiter_blocked r x t q Hx1 Hw) as (tht & o & fs & Et & Eb & Ek & Hne & Hni).
    destruct (active_release r x t q Hx1 Hw) as [HA' Haw].
    kx. eapply (wp_unblock _ t tht); [cbn; by rewrite lookup_alter_ne | done | done |].
    kx. eapply wp_get_sema; [cbn; by rewrite lookup_insert_eq |]. kx.
    eapply wp_push; [cbn; rewrite lookup_alter_ne, lookup_alter_eq, Er by done; reflexivity |].
    eapply (sema_up_local r rest (release r x t q s) _ (mk_sema (value x) q) E HA'); try done.
    + cbn. by rewrite lookup_insert_eq.
    + intros r' Hr'. cbn. rewrite lookup_insert. case_decide; [by eexists | done].
    + cbn. apply map_eq. intros u. rewrite lookup_insert, !lookup_alter.
      repeat case_decide; subst; try done. by rewrite Er.
    + repeat split. cbn. apply insert_ordered_ext. intros a b. unfold thread_priority_greater, prio.
      cbn. rewrite !lookup_alter. destruct (decide (running s = a)), (decide (running s = b)); subst; by rewrite ?Er.
Qed.

(** Steps that give up the CPU. *)

Lemma parked_park s' th' :
  Park s s' th th' → intr_on s' = false → in_external_intr s' = false → Parked s'.
Proof.
  intros HP Hoff Hctx. pose proof HA as [HC Er Est H1 _].
  pose proof HP as [ET _ _ Hnr (ERun & _) _ _ _ _ _ _ _].
  split; [by eapply core_park | | | done | done].
  - rewrite ERun, ET, lookup_insert_eq. by eexists.
  - intros t thu. rewrite ET, lookup_insert_Some. intros [[<- <-]|[Hne E]]; [done |].
    intros Hr. by apply Hne, eq_sym, (H1 t thu).
Qed.

Lemma wp_block s' th0 (Q : unit → kstate → Prop) :
  threads s' !! running s' = Some th0 → status th0 = THREAD_RUNNING →
  intr_on s' = false → in_external_intr s' = false →
  wp schedule (upd_thread (running s') (set_status (λ _, THREAD_BLOCKED)) s') Q → wp thread_block s' Q.
Proof.
  intros E Est Hoff Hctx HQ. unfold thread_block. repeat k1.
  apply wp_assert; [by rewrite Hctx |]. repeat k1. apply wp_assert; [by rewrite Hoff |].
  k1. eapply wp_thread_current; [done..|]. k1. by eapply run_mod_thread.
Qed.

(** The comparison function does not see the running thread's stack. *)
Lemma greater_ext s' th' (x : loc) q :
  threads s' = <[running s := th']> (threads s) → priority th' = priority th →
  insert_ordered (thread_priority_greater s') x q = insert_ordered (thread_priority_greater s) x q.
Proof.
  intros ET Ep. pose proof HA as [_ Er _ _ _]. apply insert_ordered_ext. intros a b.
  assert (∀ u, prio s' u = prio s u) as Hp.
  { intros u. unfold prio. rewrite ET. destruct (decide (u = running s)) as [->|].
    - by rewrite lookup_insert_eq, Er.
    - by rewrite lookup_insert_ne. }
  unfold thread_priority_greater. by rewrite !Hp.
Qed.

Lemma resume_off fs : run_stack s = fs → resume_top fs = true → intr_on s = false.
Proof. intros <-. apply (i_intr s HI). Qed.

Lemma idle_is t : idle_thread s = Some t → t = idle_page.
Proof.
  intros Hi. pose proof HA as [HC _ _ _ _]. destruct (c_idle s HC) as (? & _ & Hid).
  rewrite Hi in Hid. by destruct Hid as [? _].
Qed.

Lemma no_loop_idle r o rest : stack th = KSemaLoop r o :: rest → running s ≠ idle_page.
Proof.
  intros E Hi. destruct (active_facts s th HA) as (Hsh & _). rewrite E in Hsh.
  unfold shape_ok in Hsh. rewrite decide_True in Hsh by done. by destruct (idle_thread s).
Qed.

Lemma step_sema_loop_block r o rest x :
  stack th = KSemaLoop r o :: rest → semas s !! r = Some x → value x = 0 → goal.
Proof.
  intros E Hxs Hv. open_stack HA E. unfold sema_loop. k1.
  eapply wp_get_sema; [exact Hxs |]. rewrite Hv. cbn [Z.eqb]. kx.
  pose proof (resume_off _ (active_stack s th HA)) as Hoff. rewrite E in Hoff. specialize (Hoff eq_refl).
  eapply wp_block; [look | done | done | done |].
  eapply wp_schedule; [| by intros].
  set (th' := set_status (λ _, THREAD_BLOCKED) (set_stack (λ _, KSemaLoop r o :: rest) th)).
  apply (parked_park _ th'); [| done | done].
  pose proof (no_loop_idle r o rest E) as Hni.
  split; try done.
  - norm. reflexivity.
  - by left.
  - by left.
  - right. exists r, x, o, rest. split_and!; [done..| | done | done]. cbn. rewrite Hv.
    f_equal. f_equal. apply (greater_ext _ (set_stack (λ _, rest) th)); [norm; reflexivity | done].
  - intros _. split.
    + right. left. exists r. cbn. rewrite lookup_insert_eq. eexists. split; [done |]. cbn.
      apply elem_of_insert_ordered. by left.
    + by intros Hi%idle_is.
  - by left.
  - intros r' x'. cbn. rewrite lookup_insert_Some. intros [[<- <-]|[Hne _]] _; [by right |].
    left. unfold awake. rewrite E, Est. by rewrite decide_False.
Qed.

Lemma step_sema_loop r o rest : stack th = KSemaLoop r o :: rest → goal.
Proof.
  intros E. pose proof E as E0. pose proof HA as HA0. destruct HA0 as [HC0 Er0 _ _ _].
  pose proof (c_refs s HC0 _ _ Er0) as Hr0. rewrite E in Hr0.
  apply Forall_cons in Hr0 as [[[x Hxs] _] _].
  destruct (decide (value x = 0)) as [Hz|Hnz]; [by eapply step_sema_loop_block |].
  open_stack HA E. unfold sema_loop. k1. eapply wp_get_sema; [exact Hxs |].
  destruct (c_wait_nodup s HC0 r x Hxs) as [_ Hv].
  assert (value x =? 0 = false) as -> by lia. kx.
  assert (u32 (value x - 1) = value x - 1) as Hu32 by (apply u32_id; lia).
  set (th' := set_stack (λ _, rest) th).
  assert (awake r th = 1) as Ha1 by (unfold awake; rewrite E, Est; by rewrite decide_True).
  assert (∀ r', r' ≠ r → awake r' th = 0) as Ha0.
  { intros r' Hne. unfold awake. rewrite E, Est. by rewrite decide_False. }
  eapply (inv_local s _ th th'); [done | | done | apply Hset | left; split; [done | by eapply need_none; [exact E | ..]]].
  eapply (local_sema s _ th th' r x _ HA); rewrite ?E; try done.
  - norm. reflexivity.
  - cbn. rewrite Hu32. lia.
  - intros l ->. cbn in Hlk. destruct Hlk as [[r' ->] _]. cbn. rewrite decide_True by done.
    rewrite Hu32. lia.
  - intros l Hne. destruct r as [a|l'|t]; try done. cbn in Hlk. destruct Hlk as [[r' ->] _]. cbn.
    rewrite decide_False by congruence. lia.
  - by refine (shape_pop _ _ _ _ _ Hsh).
  - by apply create_iff_step.
  - solve_plain.
  - intros Hn. left. rewrite Ha1. cbn [value]. rewrite Hu32. pose proof (awake_nonneg r th').
    assert (awake r th' = 0); [| lia]. unfold awake. cbn. rewrite Est.
    destruct rest as [|f fs]; [done |]. simpl in Hu. apply Forall_cons in Hu as [Hu _]. by destruct f.
  - intros r' Hne. rewrite Ha0 by done. apply awake_nonneg.
  - destruct r; [done | by destruct Hlk | done].
Qed.
End steps.

Section switches.
Context (s : kstate) (th : thread) (HI : Inv s) (HA : Active s th).
Implicit Types (t c n : loc) (l : loc) (r : sema_ref) (fs : list frame).

Let goal : Prop := wp (exec Resume) s (λ _ s', Inv s').

(** Replace the top frame [f] by a frame that [schedule] returns to. *)
Lemma active_retop f g rest intr :
  stack th = f :: rest → neutral f → neutral g → (∀ r o, f ≠ KSemaLoop r o) →
  shape_ok s (running s) (g :: rest) → locks_ok (holder_is s (running s)) (g :: rest) →
  refs_ok s (running s) g →
  Active (set_intr_on (λ _, intr) (upd_thread (running s) (set_stack (λ _, g :: rest)) s))
    (set_stack (λ _, g :: rest) th).
Proof.
  intros E Nf Ng Hnl Hsh Hlk Hg. pose proof HA as [HC Er Est _ Hx].
  destruct (active_facts s th HA) as (_ & Hu & _ & Href). rewrite E in Hu, Href.
  apply Forall_cons in Href as [_ Href].
  eapply active_local; [exact HA | | done].
  eapply (neutral_local _ _ _ _ [f] [g] rest); try done.
  - by apply Forall_singleton.
  - by apply Forall_singleton.
  - norm. reflexivity.
  - nonneg_awake.
  - by constructor.
Qed.

(** The state in which [thread_yield] calls [schedule]. *)
Lemma parked_yield s' o rest :
  stack th = KIntrSetLevel o :: rest →
  threads s' = <[running s := set_status (λ _, THREAD_READY) th]> (threads s) →
  ready_list s' = (if decide (Some (running s) ≠ idle_thread s)
    then insert_ordered (thread_priority_greater s) (running s) (ready_list s) else ready_list s) →
  Sleep_list s' = Sleep_list s → all_list s' = all_list s → semas s' = semas s →
  running s' = running s ∧ idle_thread s' = idle_thread s ∧
    initial_thread s' = initial_thread s ∧ thread_mlfqs s' = thread_mlfqs s ∧
    load_avg s' = load_avg s ∧ locks s' = locks s ∧ conds s' = conds s →
  intr_on s' = false → in_external_intr s' = false → Parked s'.
Proof.
  intros E ET ER ES EA ESem Hsame Hoff Hctx. pose proof HA as [HC Er Est _ Hx].
  apply (parked_park s th HA s' (set_status (λ _, THREAD_READY) th)); [| done | done].
  split; try done.
  - destruct (decide _) as [Hi|Hi]; [right | by left]. by split_and!.
  - intros _. rewrite E. split; [done |]. destruct (decide _) as [Hi|Hi].
    + left. rewrite ER. apply elem_of_insert_ordered. by left.
    + right. destruct (decide (idle_thread s = Some (running s))); [done |]. exfalso. auto.
  - by left.
  - left. done.
  - by left.
  - intros r x Hr _. left. unfold awake. cbn. by rewrite E, Est.
Qed.
End switches.

Section switches2.
Context (s : kstate) (th : thread) (HI : Inv s) (HA : Active s th).
Implicit Types (t c n : loc) (l : loc) (r : sema_ref) (fs : list frame).

Let goal : Prop := wp (exec Resume) s (λ _ s', Inv s').

(** What another thread sees of a switch away from a live thread. *)
Definition resched s0 s' : Prop :=
  Sleep_list s' = Sleep_list s0 ∧ ticks s' = ticks s0 ∧
  ∀ t th0, threads s0 !! t = Some th0 → t ≠ running s0 → ∃ th', threads s' !! t = Some th' ∧
    wakeup_tick th' = wakeup_tick th0 ∧ (status th' = status th0 ∨ status th' = THREAD_RUNNING).

Lemma schedule_resched n s0 :
  (∀ th0, threads s0 !! running s0 = Some th0 → status th0 ≠ THREAD_DYING) → resched s0 (schedule_to n s0).
Proof.
  intros Hd. assert (schedule_to n s0 = set_thread_ticks (λ _, 0) (run_next n s0)) as ->.
  { unfold schedule_to. destruct (decide _); [done |]. destruct (threads s0 !! running s0) as [thr|] eqn:E; [| done].
    specialize (Hd thr eq_refl). rewrite (bool_decide_false (status thr = _)) by done. done. }
  split_and!; [done..|]. intros t th0 E Ht. cbn. rewrite lookup_alter. case_decide; [subst; rewrite E |]; eauto 10.
Qed.

(** [thread_yield] with [rest] below the call. *)
Lemma yield_correct s1 rest f :
  stack th = f :: rest → neutral f → (∀ r o, f ≠ KSemaLoop r o) →
  shape_ok s (running s) (KIntrSetLevel true :: rest) → locks_ok (holder_is s (running s)) rest →
  s1 = upd_thread (running s) (set_stack (λ _, rest)) s →
  wp thread_yield s1 (λ _ s', Inv s' ∧ resched s s').
Proof.
  intros E Nf Hnl Hsh Hlk ->. pose proof HA as [HC Er Est _ Hx].
  set (o := intr_on s).
  pose proof (active_retop s th HA f (KIntrSetLevel o) rest false E Nf) as HA2.
  set (th2 := set_stack (λ _, KIntrSetLevel o :: rest) th) in *.
  set (s2 := set_intr_on _ _) in HA2.
  assert (shape_ok s (running s) (KIntrSetLevel o :: rest)) as Hsh'.
  { revert Hsh. unfold shape_ok. destruct (decide _); [by destruct (idle_thread s) |].
    by rewrite !Forall_cons. }
  assert (Active s2 th2) as HA3 by (by apply HA2).
  assert (∀ sp n, threads sp = <[running s := set_status (λ _, THREAD_READY) th2]> (threads s) →
    running sp = running s → Sleep_list sp = Sleep_list s → ticks sp = ticks s →
    resched s (schedule_to n sp)) as Hres.
  { intros sp n ET ERun ES ETk. destruct (schedule_resched n sp) as (R1 & R2 & R3).
    { intros th0. rewrite ET, ERun, lookup_insert_eq. by intros [= <-]. }
    split_and!; [congruence.. |]. intros t th0 E0 Ht. apply R3; [| congruence].
    by rewrite ET, lookup_insert_ne. }
  unfold thread_yield. kx.
  match goal with |- context [decide ?P] => destruct (decide P) as [Hi|Hi] end; cbn in Hi; kx;
    (eapply wp_schedule; [| intros n _ HIn; split; [exact HIn | apply Hres; try done; norm; reflexivity]]).
  - eapply (parked_yield s2 th2 HA3 _ o rest); try done.
    + unfold s2, th2. norm. by rewrite insert_insert_eq.
    + rewrite decide_True by done.
      transitivity (insert_ordered (thread_priority_greater s) (running s) (ready_list s));
        [| symmetry]; apply (greater_ext s th HA _ (set_stack (λ _, KIntrSetLevel o :: rest) th));
        try done; unfold s2; norm; reflexivity.
  - eapply (parked_yield s2 th2 HA3 _ o rest); try done.
    + unfold s2, th2. norm. by rewrite insert_insert_eq.
    + by rewrite decide_False.
Qed.

Lemma step_yield rest : stack th = KYield :: rest → goal.
Proof.
  intros E. open_stack HA E.
  apply (wp_mono _ _ (λ _ s', Inv s' ∧ resched s s')); [| by intros ? s' [? _]].
  eapply (yield_correct _ rest KYield); try done.
  apply shape_push; [by refine (shape_pop _ _ _ _ _ Hsh) | done | done].
Qed.

(** The end of a call that blocks the running thread with [KIntrSetLevel] or
    [KHlt] on top. *)
Lemma parked_block s' th' :
  threads s' = <[running s := th']> (threads s) → status th' = THREAD_BLOCKED →
  stack th' = stack th → priority th' = priority th →
  ready_list s' = ready_list s → all_list s' = all_list s → semas s' = semas s →
  running s' = running s ∧ idle_thread s' = idle_thread s ∧
    initial_thread s' = initial_thread s ∧ thread_mlfqs s' = thread_mlfqs s ∧
    load_avg s' = load_avg s ∧ locks s' = locks s ∧ conds s' = conds s →
  (Sleep_list s' = insert_ordered (wakeup_tick_less s') (running s) (Sleep_list s) ∧
     running s ≠ idle_page ∧ ∃ o fs, stack th = KIntrSetLevel o :: fs) ∨
  (Sleep_list s' = Sleep_list s ∧ idle_thread s = Some (running s) ∧ resume_top (stack th) = true ∧
     ∀ r, awake r th = 0) →
  intr_on s' = false → in_external_intr s' = false → Parked s'.
Proof.
  intros ET Eb Ek Ep ER EA ESem Hsame Hq Hoff Hctx. pose proof HA as [HC Er Est _ Hx].
  assert (∀ r, awake r th = 0) as Haw.
  { destruct Hq as [(_ & _ & o & fs & E)|(_ & _ & _ & H)]; [| done].
    intros r. by apply (awake_other r th _ _ E). }
  apply (parked_park s th HA s' th'); [| done | done]. split; try done.
  - by rewrite Eb.
  - by left.
  - by rewrite Eb.
  - destruct Hq as [(? & ? & ?)|(? & _)]; [right | by left]. by split_and!.
  - by left.
  - intros _. destruct Hq as [(E & Hn & _)|(_ & Hi & Hr & _)].
    + split; [left; rewrite E; apply elem_of_insert_ordered; by left |].
      intros Hi. by apply (idle_is s th HA) in Hi.
    + split; [| done]. right. right. left. by destruct Hsame as (_ & -> & _).
  - left. by rewrite Eb.
  - intros r x _ _. left. rewrite Haw. apply awake_nonneg.
Qed.
End switches2.

Section switches3.
Context (s : kstate) (th : thread) (HI : Inv s) (HA : Active s th).
Implicit Types (t c n : loc) (l : loc) (r : sema_ref) (fs : list frame).

Let goal : Prop := wp (exec Resume) s (λ _ s', Inv s').

Lemma step_sleep (w : Z) rest : stack th = KSleep w :: rest → goal.
Proof.
  intros E. open_stack HA E. unfold thread_sleep. kx.
  set (o := intr_on s).
  assert (running s ≠ idle_page) as Hni.
  { intros Hi. unfold shape_ok in Hsh. rewrite decide_True in Hsh by done. by destruct (idle_thread s). }
  apply wp_assert.
  { apply bool_decide_eq_true. cbn. intros Hi. by apply Hni, (idle_is s th HA). }
  kx. eapply wp_block; [look | done | done | done |].
  eapply wp_schedule; [| by intros].
  assert (shape_ok s (running s) (KIntrSetLevel o :: rest)) as Hsh'.
  { apply shape_push; [by refine (shape_pop _ _ _ _ _ Hsh) | done | done]. }
  assert (neutral (KSleep w)) as Nf by (by split_and!).
  assert (neutral (KIntrSetLevel o)) as Ng by (by split_and!).
  pose proof (active_retop s th HA _ _ rest false E Nf Ng ltac:(done) Hsh' Hlk I) as HA2.
  eapply (parked_block _ _ HA2 _ (mk_thread (tid th) THREAD_BLOCKED (name th) (priority th) w
    (nice th) (recent_cpu th) (KIntrSetLevel o :: rest))); try done.
  - norm. by rewrite insert_insert_eq.
  - left. split_and!; [| done | by eexists _, _]. cbn. apply insert_ordered_ext. intros a b.
    unfold wakeup_tick_less, wake. cbn. rewrite !lookup_alter.
    repeat case_decide; subst; rewrite ?Er; done.
Qed.

Lemma step_idle_loop rest : stack th = KIdleLoop :: rest → goal.
Proof.
  intros E. open_stack HA E.
  assert (running s = idle_page ∧ rest = [] ∧ idle_thread s = Some (running s)) as (Hi & -> & Hid).
  { destruct (c_idle s HC) as (thi & Ei & Hid). revert Hsh. unfold shape_ok.
    destruct (decide (running s = idle_page)) as [Hi|]; [| by intros [? _]%Forall_cons].
    rewrite Hi. destruct (idle_thread s); [| by destruct rest].
    destruct Hid as [-> _]. by destruct rest. }
  unfold idle_loop. kx. eapply wp_block; [look | done | done | done |].
  eapply wp_schedule; [| by intros].
  assert (shape_ok s (running s) [KHlt]) as Hsh'.
  { unfold shape_ok. rewrite decide_True by done. by rewrite Hid. }
  pose proof (active_retop s th HA KIdleLoop KHlt [] false E ltac:(by split_and!) ltac:(by split_and!)
    ltac:(done) Hsh' Hlk I) as HA2.
  eapply (parked_block _ _ HA2 _ (set_status (λ _, THREAD_BLOCKED) (set_stack (λ _, [KHlt]) th))); try done.
  - norm. by rewrite insert_insert_eq.
  - right. split_and!; try done. intros r. by apply (awake_other r _ KHlt []).
Qed.
End switches3.

(** ** Thread creation and the idle thread *)

Section creation.
Context (s : kstate) (th : thread) (HI : Inv s) (HA : Active s th).
Implicit Types (t c n : loc) (l : loc) (r : sema_ref) (fs : list frame).

Let goal : Prop := wp (exec Resume) s (λ _ s', Inv s').

Lemma not_idle f rest :
  stack th = f :: rest → (∀ fs, idle_stack (f :: fs) = false) → (∀ fs, boot_stack (f :: fs) = false) →
  running s ≠ idle_page.
Proof.
  intros E H1 H2 Hi. destruct (active_facts s th HA) as (Hsh & _). rewrite E in Hsh.
  unfold shape_ok in Hsh. rewrite decide_True in Hsh by done.
  destruct (idle_thread s); [by rewrite H1 in Hsh | by rewrite H2 in Hsh].
Qed.

(** The stack of a client thread. *)
Lemma shape_client t fs :
  t ≠ idle_page → Forall (λ f, client_frame f = true) fs → shape_ok s t fs.
Proof. intros. unfold shape_ok. by rewrite decide_False. Qed.

Lemma client_shape t fs :
  t ≠ idle_page → shape_ok s t fs → Forall (λ f, client_frame f = true) fs.
Proof. intros. unfold shape_ok in *. by rewrite decide_False in *. Qed.

Lemma step_alloc_tid t rest : stack th = KAllocTid t :: rest → goal.
Proof.
  intros E. open_stack HA E. destruct Hlk as [Hnh Hlk].
  destruct (c_tid_lock s HC) as (h & Hl & _).
  destruct (c_locks s HC tid_lock h Hl) as (x & Hxs & _).
  assert (running s ≠ idle_page) as Hni by (by eapply not_idle; [exact E | by intros [] | by intros []]).
  apply client_shape, Forall_cons in Hsh as [_ Hsh]; [| done].
  unfold allocate_tid, lock_acquire. kx.
  eapply held_by_cur; [exact Hl | by look | done |]. cbn.
  k1. apply wp_assert; [rewrite bool_decide_false; [done | unfold holder_is in Hnh; congruence] |].
  unfold sema_down. kx.
  set (th' := set_stack (λ _, KSemaLoop (LockSema tid_lock) (intr_on s) :: KSetHolder tid_lock ::
    KTakeTid t :: rest) th).
  eapply (inv_local s _ th th'); [done | | done | done | left; split; [done | by eapply (need_none s th HI HA); [exact E | ..]]].
  apply local_stack; try done; rewrite ?E.
  - norm. reflexivity.
  - by eauto.
  - apply shape_client; [done |]. by repeat constructor.
  - simpl. by repeat constructor.
  - by apply create_iff_step.
  - solve_plain.
  - by intros.
  - nonneg_awake.
  - cbn. split_and!; [by eexists | done | by left |].
    eapply locks_ok_ext; [| exact Hlk]. intros l. split; [| naive_solver].
    intros Hh. split; [intros ->; done | by right].
  - cbn. repeat (apply Forall_cons; split; [| try done]); cbn; [split; [by eexists | done] | by eexists | done].
Qed.

Lemma step_take_tid t rest : stack th = KTakeTid t :: rest → goal.
Proof.
  intros E. open_stack HA E. destruct Hlk as [Hh Hlk]. unfold holder_is in Hh.
  destruct (lock_sema s th HA tid_lock) as (h & x & Hl & Hxs & Hv & Hsum); [by eexists |].
  assert (h = Some (running s)) as -> by congruence.
  assert (running s ≠ idle_page) as Hni by (by eapply not_idle; [exact E | by intros [] | by intros []]).
  apply client_shape, Forall_cons in Hsh as [_ Hsh]; [| done].
  unfold take_tid, lock_release. kx.
  eapply held_by_cur; [exact Hh | by look | done |]. cbn.
  k1. apply wp_assert; [by rewrite bool_decide_true |]. kx.
  set (th' := set_stack (λ _, KSemaUp (LockSema tid_lock) :: KSetTid t (next_tid s) :: rest) th).
  eapply (inv_local s _ th th'); [done | | done | done | left; split; [done | by eapply (need_none s th HI HA); [exact E | ..]]].
  eapply (local_lock s _ th th' tid_lock (Some (running s)) x None x); try done; rewrite ?E.
  - norm. reflexivity.
  - cbn. by rewrite insert_id.
  - by apply (c_wait_nodup s HC (LockSema tid_lock)).
  - cbn. rewrite decide_True by done. lia.
  - intros l' Hne. cbn. by rewrite decide_False by congruence.
  - apply shape_client; [done |]. by repeat constructor.
  - simpl. by repeat constructor.
  - by apply create_iff_step.
  - solve_plain.
  - solve_awake E.
  - solve_awake E.
  - congruence.
  - cbn. eapply locks_ok_ext; [| exact Hlk]. intros l. unfold holder_is. cbn.
    rewrite lookup_insert. case_decide; subst; naive_solver.
  - cbn. repeat (apply Forall_cons; split; [| try done]); cbn; [by eexists | done].
Qed.

Lemma step_broadcast c l rest : stack th = KBroadcast c l :: rest → goal.
Proof.
  intros E. open_stack HA E. destruct Hf as [[w Hw] _]. destruct Hlk as (Hh & Hnt & Hlk).
  assert (running s ≠ idle_page) as Hni by (by eapply not_idle; [exact E | by intros [] | by intros []]).
  pose proof (client_shape _ _ Hni Hsh) as [_ Hsh']%Forall_cons.
  unfold cond_broadcast. kx. eapply wp_get_cond; [exact Hw |]. destruct w as [|t w]; kx.
  { go_neutral (set_stack (λ _, rest) th) [KBroadcast c l] (@nil frame) rest.
    - by apply shape_client.
    - left. split; [done | by eapply (need_none s th HI HA); [exact E | ..]]. }
  unfold cond_signal. kx.
  eapply held_by_cur; [exact Hh | by look | done |]. cbn.
  k1. apply wp_assert; [by rewrite bool_decide_true |]. kx. eapply wp_get_cond; [exact Hw |]. kx.
  set (th' := set_stack (λ _, KSemaUp (WaiterSema t) :: KBroadcast c l :: rest) th).
  eapply (inv_local s _ th th'); [done | | done | done | left; split; [done | by eapply (need_none s th HI HA); [exact E | ..]]].
  apply local_stack; try done; rewrite ?E.
  - norm. reflexivity.
  - intros c'. cbn. rewrite lookup_insert. case_decide; [by eexists | done].
  - intros c' w' t'. cbn. rewrite lookup_insert_Some. intros [[<- <-]|[_ Hc]] Ht; [| by eauto].
    exists (t :: w). split; [done | by right].
  - apply shape_client; [done |]. by repeat constructor.
  - simpl. by repeat constructor.
  - by apply create_iff_step.
  - solve_plain.
  - by intros.
  - nonneg_awake.
  - cbn. repeat (apply Forall_cons; split; [| try done]); cbn; [| split; by eexists].
    apply (c_conds s HC c (t :: w)); [done | left].
Qed.

(** The thread that [thread_create] is building. *)
Lemma creating f rest t :
  stack th = f :: rest → create_frame f = Some t →
  ∃ b, create_stack t b (f :: rest) ∧ t ≠ idle_page ∧ t ≠ running s ∧
    ∃ tht, threads s !! t = Some tht ∧ status tht = THREAD_BLOCKED ∧
      (stack tht = [KKernelThread] ∨ (b = false ∧ stack tht = [])).
Proof.
  intros E Hf. pose proof HA as [HC Er Est _ _].
  destruct (c_plain s HC _ _ Er) as [Hp|(t' & b & Hc)].
  { rewrite E in Hp. apply Forall_cons in Hp as [Hp _]. congruence. }
  assert (t' = t) as ->.
  { rewrite E in Hc. destruct f; simpl in *; simplify_eq; by destruct Hc as [-> _]. }
  destruct (c_create s HC _ th t b Er Hc) as (? & tht & Et & Eb & Hk). rewrite E in Hc.
  exists b. split_and!; [done..| intros ->; congruence |]. by exists tht.
Qed.

Lemma create_unique t b t' b' fs : create_stack t b fs → create_stack t' b' fs → t' = t ∧ b' = b.
Proof.
  induction fs as [|f fs IH]; [done |]. destruct f; simpl; try done; intuition (subst; auto); naive_solver.
Qed.

(** Writing a field of the new thread that the invariant does not read. *)
Lemma inv_field s1 t g :
  Inv s1 → (∀ th, vle th (g th)) → (∀ th, priority (g th) = priority th) →
  (∀ th, stack (g th) = stack th) → is_Some (threads s1 !! t) → Inv (upd_thread t g s1).
Proof.
  intros HI1 Hv Hp Hk [tht Et].
  assert (∀ u, prio (upd_thread t g s1) u = prio s1 u) as Hprio.
  { intros u. unfold prio. cbn. rewrite lookup_alter. case_decide; [subst | done]. rewrite Et. simpl. by rewrite Hp. }
  pose proof HI1 as [HC (thr & Er & Est) H1 Hi Hh Hx Hpre].
  assert (run_stack (upd_thread t g s1) = run_stack s1) as Hrs.
  { unfold run_stack. cbn. rewrite lookup_alter. case_decide as Heq; [rewrite <-Heq, Et | done]. simpl. by rewrite Hk. }
  split; rewrite ?Hrs; try done.
  - apply (core_reprio s1); try done.
    + intros u thu E. cbn. rewrite lookup_alter. case_decide; [subst; rewrite E; eauto |].
      exists thu. split; [done |]. split_and!; [done..| by left].
    + intros u. cbn. by rewrite lookup_alter_is_Some.
    + eapply sorted_ext; [| apply (c_ready_sorted s1 HC)]. intros a b _ _.
      unfold le_of, thread_priority_greater. by rewrite !Hprio.
    + intros Hm r x Hr. eapply sorted_ext; [| by apply (c_wait_sorted s1 HC Hm r)]. intros a b _ _.
      unfold le_of, thread_priority_greater. by rewrite !Hprio.
    + apply (c_load s1 HC).
  - cbn. rewrite lookup_alter. case_decide as Heq; [| by eauto].
    rewrite Heq, Er. eexists. split; [done |]. destruct (Hv thr) as (-> & _). done.
  - intros u thu. cbn. rewrite lookup_alter. case_decide as Heq; [| apply H1]. subst.
    rewrite Et. intros [= <-] Hr. apply (H1 _ tht Et). by destruct (Hv tht) as (<- & _).
  - intros Hn. apply Hpre. unfold need_preempt in *. cbn in *.
    destruct (ready_list s1); [done |]. by rewrite !Hprio in Hn.
Qed.

Lemma step_set_tid t (n : Z) rest : stack th = KSetTid t n :: rest → goal.
Proof.
  intros E. destruct (creating _ _ t E eq_refl) as (b & Hcr & Hnt & Hnr & tht & Et & Eb & Hk).
  open_stack HA E.
  assert (running s ≠ idle_page) as Hni by (by eapply not_idle; [exact E | by intros [] | by intros []]).
  pose proof (client_shape _ _ Hni Hsh) as [_ Hsh']%Forall_cons.
  eapply run_mod_thread; [cbn; by rewrite lookup_alter_ne |].
  apply inv_field; [| intros; split_and!; auto | done | done | cbn; rewrite lookup_alter_ne by done; by eexists].
  set (th' := set_stack (λ _, rest) th).
  eapply (inv_local s _ th th'); [done | | done | apply Hset | left; split; [done | by eapply (need_none s th HI HA); [exact E | ..]]].
  apply local_stack; try done; rewrite ?E.
  - norm. reflexivity.
  - by eauto.
  - by apply shape_client.
  - simpl in Hcr. destruct Hcr as [_ Hcr]. split.
    + intros t' b' Hc'. destruct (create_unique _ _ _ _ _ Hcr Hc') as [-> ->].
      exists b. split; [done |]. auto.
    + intros t' b' [_ Hc']. by exists b'.
  - solve_plain.
  - by intros.
  - nonneg_awake.
Qed.

(** The new thread's block is rewritten while it is in no queue. *)
Lemma active_embryo t tht tht' :
  threads s !! t = Some tht → status tht = THREAD_BLOCKED → t ≠ running s →
  stack tht = [] ∨ stack tht = [KKernelThread] →
  vle tht tht' → Active (set_threads (<[t := tht']>) s) th ∧
    need_preempt (set_threads (<[t := tht']>) s) (running s) = need_preempt s (running s).
Proof.
  intros Et Eb Hne Hk Hv. pose proof HA as [HC Er Est H1 Hx].
  set (sa := set_threads _ s).
  assert (∀ u, u ≠ t → prio sa u = prio s u) as Hprio.
  { intros u Hu. unfold prio, sa. cbn. by rewrite lookup_insert_ne. }
  assert (∀ u, u ∈ ready_list s → u ≠ t) as NR.
  { intros u Hu ->. destruct (c_ready s HC t Hu) as (? & ? & ? & _). congruence. }
  split.
  - split; [| by cbn; rewrite lookup_insert_ne | done | | done].
    + apply (core_reprio s); try done.
      * intros u thu E. cbn. rewrite lookup_insert. case_decide; [subst; exists tht' |].
        -- split; [done |]. by simplify_eq.
        -- exists thu. split; [done |]. split_and!; [done..| by left].
      * intros u. cbn. rewrite lookup_insert. case_decide; [subst; by eexists | done].
      * eapply sorted_ext; [| apply (c_ready_sorted s HC)]. intros a b Ha Hb.
        unfold le_of, thread_priority_greater. by rewrite !Hprio by auto.
      * intros Hm r x Hr. eapply sorted_ext; [| by apply (c_wait_sorted s HC Hm r)]. intros a b Ha Hb.
        assert (∀ u, u ∈ waiters x → u ≠ t) as NW.
        { intros u Hu ->. destruct (c_wait s HC r x t Hr Hu) as (thw & o & fs & E & _ & Ek).
          assert (thw = tht) as -> by congruence. rewrite Ek in Hk. naive_solver. }
        unfold le_of, thread_priority_greater. by rewrite !Hprio by auto.
      * apply (c_load s HC).
    + intros u thu. cbn. rewrite lookup_insert_Some. intros [[<- <-]|[_ E]]; [| by apply H1].
      destruct Hv as (-> & _). congruence.
  - unfold need_preempt. cbn. destruct (ready_list s) as [|u q] eqn:Eq; [done |].
    rewrite !Hprio; [done | apply NR; left | done].
Qed.

Lemma mlfqs_priority_ok (a b : Z) : ∃ p, mlfqs_priority a b = Ok p.
Proof.
  unfold mlfqs_priority, fp_div_int. rewrite idiv_ok by lia.
  unfold mbind, outcome_bind. eexists. reflexivity.
Qed.

(** The last part of [thread_create_inherit], for any block [tht1] that the
    first part leaves in the new thread. *)
Lemma create_inherit_end t rest s' tht tht' :
  stack th = KCreateInherit t FClient :: rest → threads s !! t = Some tht →
  vle tht tht' → stack tht' = [KKernelThread] →
  threads s' = <[t := tht']> (<[running s := set_stack (λ _, KCreateUnblock t :: rest) th]> (threads s)) →
  ready_list s' = ready_list s ∧ Sleep_list s' = Sleep_list s ∧ all_list s' = all_list s ∧
    running s' = running s ∧ idle_thread s' = idle_thread s ∧
    initial_thread s' = initial_thread s ∧ thread_mlfqs s' = thread_mlfqs s ∧
    load_avg s' = load_avg s → semas s' = semas s → locks s' = locks s → conds s' = conds s →
  in_external_intr s' = false → Inv s'.
Proof.
  intros E Et Hv Hk' ET Hs ESem ELk ECd Hctx.
  destruct (creating _ _ t E eq_refl) as (b & Hcr & Hnt & Hnr & tht0 & Et0 & Eb & Hk).
  assert (tht0 = tht) as -> by congruence.
  destruct (active_facts s th HA) as (Hsh & Hu & Hlk & Href). pose proof HA as [HC Er Est _ Hx].
  rewrite E in Hsh, Hu, Hlk, Href. apply Forall_cons in Href as [_ Href].
  assert (running s ≠ idle_page) as Hni by (by eapply not_idle; [exact E | by intros [] | by intros []]).
  pose proof (client_shape _ _ Hni Hsh) as [_ Hsh']%Forall_cons.
  destruct (active_embryo t tht tht' Et Eb Hnr) as [HA2 Hneed]; [by destruct Hk as [?|[_ ?]]; auto | done |].
  set (sa := set_threads _ s) in *.
  set (th' := set_stack (λ _, KCreateUnblock t :: rest) th).
  cbn in Hcr. destruct Hcr as (_ & -> & Hrest).
  eapply (inv_local sa s' th th'); [done | | done | done | left; split; [done |]].
  - apply local_stack; rewrite ?E; try done.
    + unfold sa. cbn. rewrite ET. by apply insert_insert_ne.
    + by rewrite ECd.
    + rewrite ECd. by eauto.
    + apply HA2.
    + apply shape_client; [done |]. by repeat constructor.
    + rewrite Hrest. split.
      * intros t' b' Hc'. cbn in Hc'. destruct Hc' as (<- & -> & _). exists false. split; [done |].
        intros _. right. exists tht'. split; [| done]. unfold sa. cbn. by rewrite lookup_insert_eq.
      * intros t' b' Hc'. cbn in Hc'. destruct Hc' as (<- & -> & _). by exists true.
    + solve_plain.
    + nonneg_awake.
    + constructor; done.
  - change (running sa) with (running s). rewrite Hneed. eapply (need_none s th HI HA); [exact E | done | done].
Qed.

Lemma step_create_inherit t f rest : stack th = KCreateInherit t f :: rest → goal.
Proof.
  intros E. destruct (creating _ _ t E eq_refl) as (b & Hcr & Hnt & Hnr & tht & Et & Eb & Hk).
  assert (running s ≠ idle_page) as Hni by (by eapply not_idle; [exact E | by intros [] | by intros []]).
  assert (f = FClient ∧ rest = []) as [-> ->].
  { destruct (active_facts s th HA) as (Hsh & _). rewrite E in Hsh.
    apply client_shape, Forall_cons in Hsh as [Hf _]; [| done]. destruct f; [| done].
    split; [done |]. by destruct Hcr as (_ & _ & ->). }
  assert (∀ ni rc pr, vle tht (mk_thread (tid tht) (status tht) (name tht) pr (wakeup_tick tht) ni rc
    [KKernelThread])) as Hv.
  { intros. split_and!; [done..|]. destruct Hk as [Hk|[_ Hk]]; [by left | by right]. }
  open_stack HA E. unfold thread_create_inherit. kx.
  eapply run_mod_thread; [cbn; rewrite lookup_alter_ne by done; exact Et |]. kx.
  eapply run_mod_thread; [cbn; rewrite lookup_alter_eq, lookup_alter_ne, Et by done; reflexivity |]. kx.
  destruct (mlfqs_priority_ok (recent_cpu th) (nice th)) as [p Hp].
  cbn [thread_mlfqs set_intr_on upd_thread set_threads].
  destruct (thread_mlfqs s && bool_decide (FClient = FClient)) eqn:Hm.
  - unfold thread_calc_priority. kx.
    eapply run_get_thread; [cbn; rewrite !lookup_alter_eq, lookup_alter_ne, Et by done; reflexivity |].
    k1. eapply wp_lift; [exact Hp |].
    eapply run_mod_thread; [cbn; rewrite !lookup_alter_eq, lookup_alter_ne, Et by done; reflexivity |]. kx.
    eapply run_mod_thread; [cbn; rewrite !lookup_alter_eq, lookup_alter_ne, Et by done; reflexivity |]. kx.
    eapply wp_push; [cbn; rewrite !lookup_alter_ne, lookup_alter_eq, Er by done; reflexivity |].
    eapply (create_inherit_end t [] _ tht _ E Et (Hv (nice th) (recent_cpu th) p)); try done.
    cbn. apply map_eq. intros u. rewrite !lookup_insert, !lookup_alter.
    repeat case_decide; subst; try done; rewrite ?Et, ?Er; done.
  - kx.
    eapply run_mod_thread; [cbn; rewrite !lookup_alter_eq, lookup_alter_ne, Et by done; reflexivity |]. kx.
    eapply wp_push; [cbn; rewrite !lookup_alter_ne, lookup_alter_eq, Er by done; reflexivity |].
    eapply (create_inherit_end t [] _ tht _ E Et (Hv (nice th) (recent_cpu th) (priority tht))); try done.
    cbn. apply map_eq. intros u. rewrite !lookup_insert, !lookup_alter.
    repeat case_decide; subst; try done; rewrite ?Et, ?Er; done.
Qed.

Lemma step_create_unblock t rest : stack th = KCreateUnblock t :: rest → goal.
Proof.
  intros E. destruct (creating _ _ t E eq_refl) as (b & Hcr & Hnt & Hnr & tht & Et & Eb & Hk).
  assert (running s ≠ idle_page) as Hni by (by eapply not_idle; [exact E | by intros [] | by intros []]).
  cbn in Hcr. destruct Hcr as (_ & -> & ->). destruct Hk as [Hk|[? _]]; [| done].
  open_stack HA E. unfold thread_create_unblock. kx.
  eapply (wp_unblock _ t tht); [cbn; by rewrite lookup_alter_ne | done | done |].
  set (th' := set_stack (λ _, []) th).
  set (s1 := unblocked t _).
  assert (threads s1 = <[t := set_status (λ _, THREAD_READY) tht]> (<[running s := th']> (threads s))) as ET.
  { unfold s1. rewrite (unblocked_threads t _ tht) by (cbn; by rewrite lookup_alter_ne). f_equal. norm. reflexivity. }
  assert (Core s1) as HC1.
  { eapply (core_unblock s s1 t th th' tht); try done. split; try done.
    - by rewrite Hk.
    - split; [done |]. by right.
    - exact (unblocked_ready t (upd_thread (running s) (set_stack (λ _, [])) s)).
    - right. split; [done |]. intros Ht. destruct (c_sleep s HC t Ht) as (? & ? & ? & ? & _ & ? & _). congruence.
    - right. split; [done |]. intros r x Hr Ht.
      destruct (c_wait s HC r x t Hr Ht) as (? & ? & ? & ? & _ & ?). congruence.
    - intros c thc b'. rewrite ET, !lookup_insert_Some.
      intros [[<- <-]|[Hn1 [[<- <-]|[Hn2 Ec]]]] Hc; simpl in Hc; [by rewrite Hk in Hc | done |].
      apply Hn2. eapply (c_create_one s HC (running s) c); [exact Er | exact Ec | | exact Hc].
      rewrite E. by cbn. }
  assert (Active s1 th') as HA1.
  { split; [done | by rewrite ET; change (running s1) with (running s); rewrite lookup_insert_ne, lookup_insert_eq
      | done | | done].
    intros u thu. rewrite ET, !lookup_insert_Some.
    intros [[<- <-]|[Hn1 [[<- <-]|[Hn2 Eu]]]]; [done | done |]. destruct HA as [_ _ _ H1 _]. by apply H1. }
  kx. eapply wp_push; [exact (a_run _ _ HA1) |].
  eapply (inv_neutral s1 _ th' (set_stack (λ _, [KCheckPreempt]) th) [] [KCheckPreempt] []);
    [exact HA1 | by split_and! | done | done | constructor | neutral_list | done | | | done | | done | keep_refs | done |].
  - cbn. rewrite (alter_to_insert _ _ _ _ (a_run _ _ HA1)). reflexivity.
  - by apply shape_client; [| repeat constructor].
  - intros r. unfold awake. cbn. by destruct (status th).
  - right. eexists. by left.
Qed.

(** The idle thread declares itself. *)
Lemma core_declare r :
  running s = idle_page → idle_thread s = None → stack th = [KIdle r] →
  is_Some (semas s !! r) ∧ match r with SemaAt _ => True | _ => False end →
  Core (set_idle_thread (λ _, Some idle_page)
    (upd_thread (running s) (set_stack (λ _, [KSemaUp r; KIdleLoop])) s)).
Proof.
  intros Hi Hnone E Hr. pose proof HA as [HC Er Est _ Hx].
  set (th' := set_stack (λ _, [KSemaUp r; KIdleLoop]) th). set (s' := set_idle_thread _ _).
  assert (threads s' = <[running s := th']> (threads s)) as ET by (unfold s'; norm; reflexivity).
  assert (∀ t thu, t ≠ running s → threads s !! t = Some thu → threads s' !! t = Some thu) as Hkeep
    by (intros; by rewrite ET, lookup_insert_ne).
  assert (∀ t thu, threads s' !! t = Some thu →
    (t = running s ∧ thu = th') ∨ (t ≠ running s ∧ threads s !! t = Some thu)) as Hinv.
  { intros t thu. rewrite ET, lookup_insert_Some. naive_solver. }
  assert (∀ t thu, threads s !! t = Some thu → status thu ≠ THREAD_RUNNING → t ≠ running s) as Hne
    by (intros t thu ? ? ->; congruence).
  assert (∀ t, prio s' t = prio s t ∧ wake s' t = wake s t) as Hpw.
  { intros t. unfold prio, wake. rewrite ET, lookup_insert. case_decide; [subst; by rewrite Er | done]. }
  assert (∀ t b, ¬ create_stack t b (stack th')) as Hnc by (intros t b H; exact H).
  assert (∀ l, owned l (stack th') = owned l (stack th)) as How.
  { intros l. rewrite E. cbn. rewrite decide_False; [done |]. destruct r; [done | by destruct Hr..]. }
  split; cbn [ready_list Sleep_list all_list running idle_thread initial_thread semas locks conds
    thread_mlfqs load_avg set_idle_thread upd_thread set_threads s'].
  - intros t Ht. destruct (c_ready s HC t Ht) as (thu & Eu & Es & _). exists thu.
    assert (t ≠ running s) by (apply (Hne t thu); congruence).
    split_and!; [by apply Hkeep | done | congruence].
  - apply (c_ready_nodup s HC).
  - intros t thu [[-> ->]|[Hn Eu]]%Hinv Hrd; [cbn in Hrd; congruence |].
    destruct (c_ready_all s HC t thu Eu Hrd) as [? [?|?]]; [by auto | congruence].
  - intros t Ht. destruct (c_sleep s HC t Ht) as (thu & o & fs & Eu & Es & ?). exists thu, o, fs.
    split_and!; [apply Hkeep; [apply (Hne t thu); congruence | done] | done | naive_solver..].
  - apply (c_sleep_nodup s HC).
  - intros r' x t Hr' Ht. destruct (c_wait s HC r' x t Hr' Ht) as (thu & o & fs & Eu & Es & ?).
    exists thu, o, fs. split_and!; [apply Hkeep; [apply (Hne t thu); congruence | done] | done..].
  - apply (c_wait_nodup s HC).
  - intros r' x Hr' Hw. pose proof (c_awake s HC r' x Hr' Hw). change (value x ≤ total (awake r') (threads s')).
    rewrite ET, (total_insert _ _ _ _ _ Er), (awake_other r' th _ _ E) by done.
    pose proof (awake_nonneg r' th'). lia.
  - intros t thu [[-> ->]|[Hn Eu]]%Hinv Hb; [cbn in Hb; congruence |].
    destruct (c_blocked s HC t thu Eu Hb) as [?|[?|[?|(c & thc & b & Ec & Hc)]]];
      [by left | by right; left | congruence |].
    right. right. right. exists c, thc, b. split; [| done]. apply Hkeep; [| done].
    intros ->. rewrite Er in Ec. injection Ec as <-. by rewrite E in Hc.
  - eapply sorted_ext; [| apply (c_ready_sorted s HC)]. intros x y _ _.
    unfold le_of, thread_priority_greater. destruct (Hpw x) as [-> _]. by destruct (Hpw y) as [-> _].
  - eapply sorted_ext; [| apply (c_sleep_sorted s HC)]. intros x y _ _.
    unfold le_of, wakeup_tick_less. destruct (Hpw x) as [_ ->]. by destruct (Hpw y) as [_ ->].
  - intros Hm r' x Hr'. eapply sorted_ext; [| by apply (c_wait_sorted s HC Hm r')]. intros y z _ _.
    unfold le_of, thread_priority_greater. destruct (Hpw y) as [-> _]. by destruct (Hpw z) as [-> _].
  - intros t. rewrite (c_all s HC t). split.
    + intros (thu & Eu & Hd). destruct (decide (t = running s)) as [->|]; [| by eauto].
      exists th'. split; [by rewrite ET, lookup_insert_eq | cbn; congruence].
    + intros (thu & [[-> ->]|[Hn Eu]]%Hinv & Hd); [by exists th; split; [| congruence] | by eauto].
  - apply (c_all_nodup s HC).
  - intros t thu [[-> ->]|[Hn Eu]]%Hinv; [cbn; congruence | by apply (c_dying s HC)].
  - exists th'. rewrite <-Hi, ET, lookup_insert_eq. split_and!; [done..|]. cbn. congruence.
  - intros t thu Ht [[-> ->]|[Hn Eu]]%Hinv; [done | by apply (c_client s HC t)].
  - intros c thu t b [[-> ->]|[Hn Eu]]%Hinv Hc; [done |].
    destruct (c_create s HC c thu t b Eu Hc) as (? & th2 & E2 & Eb & ?). split; [done |]. exists th2.
    split_and!; [apply Hkeep; [apply (Hne t th2); congruence | done] | done..].
  - intros c thu [[-> ->]|[Hn Eu]]%Hinv; [left; by repeat constructor | by apply (c_plain s HC c)].
  - intros c1 c2 th1 th2 t b1 b2 [[-> ->]|[Hn1 E1]]%Hinv [[-> ->]|[Hn2 E2]]%Hinv; [done..|].
    by eapply (c_create_one s HC).
  - intros l h Hl. destruct (c_locks s HC l h Hl) as (x & Hxl & Hsum). exists x. split; [done |].
    change (value x + holder_count h + total (λ th, owned l (stack th)) (threads s') = 1).
    rewrite ET, (total_insert _ _ _ _ _ Er), How. lia.
  - apply (c_lock_semas s HC).
  - destruct (c_tid_lock s HC) as (h & Hh & Hal). exists h. split; [done |]. intros t Ht.
    destruct (Hal t Ht) as [thu Eu]. destruct (decide (t = running s)) as [->|]; [| by eauto].
    exists th'. by rewrite ET, lookup_insert_eq.
  - intros t thu [[-> ->]|[Hn Eu]]%Hinv; [| by apply (c_locks_ok s HC t)].
    pose proof (c_locks_ok s HC _ _ Er) as Hlk. rewrite E in Hlk. exact Hlk.
  - intros t thu [[-> ->]|[Hn Eu]]%Hinv; [| by apply (c_refs s HC t)].
    constructor; [by destruct Hr | by repeat constructor].
  - apply (c_conds s HC).
  - intros t thu [[-> ->]|[Hn Eu]]%Hinv; [by repeat constructor | by apply (c_under s HC t)].
  - intros t thu [[-> ->]|[Hn Eu]]%Hinv; by eapply (c_page s HC).
  - apply (c_load s HC).
Qed.

Lemma step_idle r rest : stack th = KIdle r :: rest → goal.
Proof.
  intros E. destruct (active_facts s th HA) as (Hsh & _ & _ & Href). pose proof HA as [HC Er Est H1 Hx].
  rewrite E in Hsh, Href. apply Forall_cons in Href as [Hr _].
  assert (running s = idle_page ∧ rest = [] ∧ idle_thread s = None) as (Hi & -> & Hnone).
  { revert Hsh. unfold shape_ok. destruct (decide (running s = idle_page)) as [Hi|]; [| by intros [? _]%Forall_cons].
    destruct (idle_thread s); [done | by destruct rest]. }
  set (s1 := set_idle_thread (λ _, Some idle_page)
    (upd_thread (running s) (set_stack (λ _, [KSemaUp r; KIdleLoop])) s)).
  set (th1 := set_stack (λ _, [KSemaUp r; KIdleLoop]) th).
  assert (Active s1 th1) as HA1.
  { split; [by apply core_declare | | done | | done].
    - unfold s1. cbn. by rewrite lookup_alter_eq, Er.
    - intros t thu. unfold s1. cbn. rewrite lookup_alter_Some.
      intros [(<- & _)|[_ Eu]]; [done | by apply H1]. }
  eapply wp_resume; [exact HA | exact E |]. cbn [exec_frame]. unfold idle. kx.
  pose proof (wp_resume_inv s1 th1 _ _ _ HA1 eq_refl (step_sema_up s1 th1 HA1 r [KIdleLoop] eq_refl)) as Hup.
  match goal with |- wp _ ?S1 _ => assert (S1 = upd_thread (running s1) (set_stack (λ _, [KIdleLoop])) s1) as -> end;
    [| exact Hup].
  unfold s1, upd_thread, set_threads, set_idle_thread. cbn. rewrite Hi. f_equal.
  apply map_eq. intros u. destruct (decide (u = idle_page)) as [->|].
  - rewrite !lookup_alter_eq. by destruct (threads s !! idle_page).
  - by rewrite !lookup_alter_ne.
Qed.
End creation.
