(* ===== verification/KernelCall.v ===== *)
(** The calls of client code keep the invariant, and none faults. *)
From S2P Require Import Prelude ListSpec FixedPoint Kstate Interrupt Thread Synch Timer Machine KernelInv KernelStep.
Local Open Scope Z_scope.

(** ** The suspended calls *)

Section resume.
Context (s : kstate) (th : thread) (HI : Inv s) (HA : Active s th).
Implicit Types (t c n : loc) (l : loc) (r : sema_ref) (fs : list frame).

Lemma no_start f rest : stack th = f :: rest →
  match f with KStartWait _ | KThreadStart _ _ => False | _ => True end.
Proof.
  intros E. destruct (active_facts s th HA) as (Hsh & _). rewrite E in Hsh. unfold shape_ok in Hsh.
  destruct (decide _).
  - destruct (idle_thread s); by destruct f.
  - apply Forall_cons in Hsh as [Hf _]. by destruct f.
Qed.

Lemma resume_ok : enabled Resume s = true → wp (exec Resume) s (λ _ s', Inv s').
Proof.
  unfold enabled. rewrite (active_stack s th HA). destruct (stack th) as [|f rest] eqn:E; [done |].
  pose proof (no_start f rest E) as Hno. intros Hen. destruct f; try done.
  - by eapply step_intr_set_level.
  - by eapply step_iret.
  - by eapply step_yield.
  - by eapply step_check_preempt.
  - by eapply step_sema_loop.
  - by eapply step_sema_down.
  - by eapply step_sema_up.
  - by eapply step_set_holder.
  - by eapply step_lock_acquire.
  - by eapply step_broadcast.
  - by eapply step_alloc_tid.
  - by eapply step_take_tid.
  - by eapply step_set_tid.
  - by eapply step_create_inherit.
  - by eapply step_create_unblock.
  - by eapply step_sleep_check.
  - by eapply step_sleep.
  - by eapply step_kernel_thread.
  - by eapply step_idle.
  - by eapply step_idle_loop.
  - by eapply step_hlt.
Qed.
End resume.

(** ** The calls *)

Section calls.
Context (s : kstate) (th : thread) (HI : Inv s) (HA : Active s th) (E : stack th = []).
Implicit Types (t c n : loc) (l : loc) (r : sema_ref) (fs : list frame).

Let post : unit → kstate → Prop := λ _ s', Inv s'.

Lemma client_runs : running s ≠ idle_page.
Proof.
  intros Hi. destruct (active_facts s th HA) as (Hsh & _). rewrite E in Hsh. unfold shape_ok in Hsh.
  rewrite decide_True in Hsh by done. by destruct (idle_thread s).
Qed.

Lemma client_settled : need_preempt s (running s) = false.
Proof. apply need_false; [done |]. by rewrite (active_stack s th HA), E. Qed.

Lemma client_locks : ¬ holder_is s (running s) tid_lock.
Proof. destruct (active_facts s th HA) as (_ & _ & Hlk & _). by rewrite E in Hlk. Qed.

Lemma client_push f : client_frame f = true → shape_ok s (running s) [f].
Proof.
  intros. apply (shape_client s); [exact client_runs |]. by repeat constructor.
Qed.

(** Running [exec_frame f] as a call is resuming the frame [f]. *)
Lemma call_frame f (Q : unit → kstate → Prop) :
  client_frame f = true → neutral f → resume_top [f] = false → f ≠ KHalted →
  locks_ok (holder_is s (running s)) [f] → refs_ok s (running s) f →
  (∀ s1 th1, Inv s1 → Active s1 th1 → stack th1 = [f] → wp (exec Resume) s1 Q) → wp (exec_frame f) s Q.
Proof.
  intros Hc Hn Ht Hh Hlk Href H. pose proof HA as [HC Er Est H1 Hx].
  set (th1 := set_stack (λ _, [f]) th). set (s1 := upd_thread (running s) (set_stack (λ _, [f])) s).
  assert (threads s1 = <[running s := th1]> (threads s)) as ET by (unfold s1; norm; reflexivity).
  assert (∀ r, awake r th ≤ awake r th1) as Haw.
  { intros r. unfold awake at 1. rewrite E. destruct (status th); apply awake_nonneg. }
  assert (Local s s1 th th1) as HL.
  { eapply (neutral_local s s1 th th1 [] [f] []); try done;
      [by apply Forall_singleton | by apply client_push | by constructor | by apply Forall_singleton]. }
  assert (Inv s1) as HI1.
  { eapply (inv_local s s1 th th1); try done.
    - split; [intros Hr; cbn [stack th1 set_stack] in Hr; congruence | by intros ? [= -> _]].
    - left. split; [done | exact client_settled]. }
  pose proof (active_local _ _ _ _ HA HL Hx) as HA1.
  specialize (H s1 th1 HI1 HA1 eq_refl).
  pose proof (wp_resume_inv s1 th1 f [] Q HA1 eq_refl H) as Hw.
  assert (upd_thread (running s1) (set_stack (λ _, [])) s1 = s) as Hs; [| by rewrite Hs in Hw].
  unfold s1, upd_thread, set_threads. cbn. destruct s; cbn in *. f_equal. apply map_eq. intros u.
  destruct (decide (u = running)) as [->|]; [| by rewrite !lookup_alter_ne].
  rewrite !lookup_alter_eq, Er. cbn. f_equal. destruct th; cbn in *. by rewrite E.
Qed.

Lemma locks_tid : locks_ok (holder_is s (running s)) [].
Proof. exact client_locks. Qed.

Lemma call_thread_yield : wp thread_yield s post.
Proof.
  apply (call_frame KYield); try done; [exact client_locks |].
  intros s1 th1 HI1 HA1 E1. by eapply step_yield.
Qed.

Lemma call_sema_down a : is_Some (semas s !! SemaAt a) → wp (sema_down (SemaAt a)) s post.
Proof.
  intros Ha. apply (call_frame (KSemaDown (SemaAt a))); try done; [exact client_locks |].
  intros s1 th1 HI1 HA1 E1. by eapply step_sema_down.
Qed.

Lemma call_sema_up a : is_Some (semas s !! SemaAt a) → wp (sema_up (SemaAt a)) s post.
Proof.
  intros Ha. apply (call_frame (KSemaUp (SemaAt a))); try done; [exact client_locks |].
  intros s1 th1 HI1 HA1 E1. by eapply step_sema_up.
Qed.

Lemma call_lock_acquire l :
  is_Some (locks s !! l) → l ≠ tid_lock → ¬ holder_is s (running s) l → wp (lock_acquire l) s post.
Proof.
  intros Hl Hne Hnh. apply (call_frame (KLockAcquire l)); try done.
  - cbn. split; [done |]. intros [?|?]; [congruence | by apply client_locks].
  - intros s1 th1 HI1 HA1 E1. by eapply step_lock_acquire.
Qed.

Lemma call_cond_broadcast c l :
  is_Some (conds s !! c) → l ≠ tid_lock → holder_is s (running s) l → wp (cond_broadcast c l) s post.
Proof.
  intros Hc Hne Hh. apply (call_frame (KBroadcast c l)); try done.
  - cbn. split_and!; [done..| exact client_locks].
  - intros s1 th1 HI1 HA1 E1. by eapply step_broadcast.
Qed.

(** The running thread's block after a call that pushes [fs], with nothing
    of a lock or a creation in it. *)
Lemma call_local s' th' :
  threads s' = <[running s := th']> (threads s) → status th' = THREAD_RUNNING →
  ready_list s' = ready_list s ∧ Sleep_list s' = Sleep_list s ∧ all_list s' = all_list s ∧
    running s' = running s ∧ idle_thread s' = idle_thread s ∧
    initial_thread s' = initial_thread s ∧ thread_mlfqs s' = thread_mlfqs s ∧
    load_avg s' = load_avg s →
  semas s' = semas s → locks s' = locks s →
  (∀ c, is_Some (conds s !! c) → is_Some (conds s' !! c)) →
  (∀ c w t, conds s' !! c = Some w → t ∈ w → ∃ w0, conds s !! c = Some w0 ∧ t ∈ w0) →
  in_external_intr s' = false →
  match stack th' with
  | [] => priority th' = priority th
  | [f] => client_frame f = true ∧ neutral f ∧ resume_top [f] = false ∧ f ≠ KHalted ∧
      (priority th' = priority th ∨ f = KCheckPreempt) ∧
      locks_ok (holder_is s (running s)) [f] ∧ refs_ok s (running s) f
  | _ => False
  end → Inv s'.
Proof.
  intros ET Est' Hs Esem Elk Ec Ec2 Hx' Hk. pose proof HA as [HC Er Est H1 Hx].
  assert (∀ r, awake r th ≤ awake r th') as Haw.
  { intros r. unfold awake at 1. rewrite E. destruct (status th); apply awake_nonneg. }
  assert (∀ fs, stack th' = fs → settled s' fs ∧ shape_ok s (running s) fs ∧ under_ok fs ∧ create_step s [] fs ∧
    plain_stack fs ∧ (∀ l, owned l fs = 0) ∧ locks_ok (holder_is s (running s)) fs ∧
    Forall (refs_ok s (running s)) fs ∧ (priority th' = priority th ∨ ∃ rest, fs = KCheckPreempt :: rest))
    as Hfs.
  { intros fs Efs. rewrite Efs in Hk. destruct fs as [|f [|]]; [| |done].
    - split_and!; try done; [| by constructor | exact client_locks | by left].
      apply (shape_client s); [exact client_runs | by constructor].
    - destruct Hk as (Hc & Hn & Ht & Hh & Hp & Hlk & Href).
      destruct (neutral_facts [f] []) as (N1 & N2 & N3); [by apply Forall_singleton |].
      split_and!; try done.
      + split; [intros Hr; congruence | by intros ? [= -> _]].
      + by apply client_push.
      + by constructor.
      + by apply create_iff_step.
      + apply N2. by constructor.
      + by apply Forall_singleton.
      + destruct Hp as [?| ->]; [by left | right; by eexists]. }
  destruct (Hfs _ eq_refl) as (F1 & F2 & F3 & F4 & F5 & F6 & F7 & F8 & F9).
  eapply (inv_local s s' th th'); try done.
  - apply local_stack; rewrite ?E; try done.
  - destruct F9 as [?|[rest ?]]; [left; split; [done | exact client_settled] | right; exists rest; by left].
Qed.

Lemma stack_same : threads s = <[running s := th]> (threads s).
Proof. symmetry. apply insert_id, HA. Qed.

Lemma call_intr_set b s' : s' = set_intr_on (λ _, b) s → Inv s'.
Proof.
  intros ->. apply (call_local _ th); try done; [exact stack_same | apply HA | by eauto | apply HA | by rewrite E].
Qed.

Lemma call_intr_disable : wp (intr_disable;; mret tt) s post.
Proof. kx. by eapply call_intr_set. Qed.

Lemma call_intr_enable : wp (intr_enable;; mret tt) s post.
Proof. pose proof HA as [HC Er Est H1 Hx]. kx. by eapply call_intr_set. Qed.

Lemma call_thread_set_priority (p : Z) : wp (thread_set_priority p) s post.
Proof.
  pose proof HA as [HC Er Est H1 Hx]. unfold thread_set_priority. kx.
  apply (call_local _ (set_stack (λ _, [KCheckPreempt]) (set_priority (λ _, p) th))); try done.
  - norm. unfold set_stack at 1. cbn. by rewrite E.
  - by eauto.
  - split_and!; try done; [by right | exact client_locks].
Qed.

Lemma call_thread_set_nice (n : Z) : wp (thread_set_nice n) s post.
Proof.
  pose proof HA as [HC Er Est H1 Hx]. unfold thread_set_nice. kx. cbn.
  destruct (thread_mlfqs s) eqn:Hm.
  - destruct (mlfqs_priority_ok (recent_cpu th) n) as [p Hp]. unfold thread_calc_priority. kx.
    eapply wp_lift; [exact Hp |]. kx.
    apply (call_local _ (set_stack (λ _, [KCheckPreempt]) (set_priority (λ _, p) (set_nice (λ _, n) th)))); try done.
    + norm. unfold set_stack at 1. cbn. by rewrite E.
    + by eauto.
    + split_and!; try done; [by right | exact client_locks].
  - kx.
    apply (call_local _ (set_nice (λ _, n) th)); try done; [by norm | by eauto |]. cbn. by rewrite E.
Qed.

Lemma call_timer_sleep (n : Z) : intr_on s = true → wp (timer_sleep n) s post.
Proof.
  pose proof HA as [HC Er Est H1 Hx]. intros Hon. unfold timer_sleep, timer_ticks. kx.
  apply (call_local _ (set_stack (λ _, [KSleepCheck (ticks s) n]) th)); try done.
  - norm. unfold set_stack at 1. cbn. by rewrite E.
  - by eauto.
  - split_and!; try done; [by left | exact client_locks].
Qed.

Lemma call_cond_init c : conds s !! c = None → wp (cond_init c) s post.
Proof.
  pose proof HA as [HC Er Est H1 Hx]. intros Hc. unfold cond_init. kx.
  apply (call_local _ th); try done; [exact stack_same | | | by rewrite E].
  - intros c'. cbn. rewrite lookup_insert. case_decide; [by eexists | done].
  - intros c' w t. cbn. rewrite lookup_insert_Some. intros [[<- <-]|[_ Hw]] Ht; [| by eauto].
    by apply not_elem_of_nil in Ht.
Qed.

Lemma call_cond_signal c l :
  is_Some (conds s !! c) → holder_is s (running s) l → wp (cond_signal c l) s post.
Proof.
  pose proof HA as [HC Er Est H1 Hx]. intros [w Hw] Hh. unfold cond_signal. kx.
  eapply held_by_cur; [exact Hh | by look | done |].
  k1. apply wp_assert; [by rewrite bool_decide_true |]. k1. eapply wp_get_cond; [exact Hw |].
  destruct w as [|t w]; kx.
  - apply (call_local _ th); try done; [exact stack_same | by eauto | by rewrite E].
  - apply (call_local _ (set_stack (λ _, [KSemaUp (WaiterSema t)]) th)); try done.
    + norm. unfold set_stack at 1. cbn. by rewrite E.
    + intros c'. cbn. rewrite lookup_insert. case_decide; [by eexists | done].
    + intros c' w' t'. cbn. rewrite lookup_insert_Some. intros [[<- <-]|[_ Hc]] Ht; [| by eauto].
      exists (t :: w). split; [done | by right].
    + split_and!; try done; [by left | exact client_locks |]. cbn.
      apply (c_conds s HC c (t :: w)); [done | left].
Qed.
End calls.

Lemma busy_wait_ok fuel n k : n ≤ Z.of_nat fuel → in_s 64 n → ∃ r, busy_wait fuel n k = Ok r.
Proof.
  revert n k. induction fuel as [|fuel IH]; intros n k Hn Hr; simpl.
  - destruct (Z.ltb_spec 0 n); [lia | by eexists].
  - destruct (Z.ltb_spec 0 n); [| by eexists]. unfold in_s in Hr.
    rewrite i64_id by lia. apply IH; [lia | unfold in_s; lia].
Qed.

Section lock_calls.
Context (s : kstate) (th : thread) (HI : Inv s) (HA : Active s th) (E : stack th = []).
Implicit Types (t c n : loc) (l : loc) (r : sema_ref) (fs : list frame).

Let post : unit → kstate → Prop := λ _ s', Inv s'.

Lemma call_real_time_delay (loops ms : Z) : wp (real_time_delay loops ms 1000) s post.
Proof.
  unfold real_time_delay. k1.
  eapply wp_lift; [unfold real_time_delay_loops; reflexivity |]. k1.
  set (n := Z.quot _ _).
  assert (in_s 64 n) as Hn.
  { unfold n. change (Z.quot 1000 1000) with 1. rewrite Z.quot_1_r. by apply wrap_s_range. }
  destruct (busy_wait_ok (Z.to_nat n) n 0) as [r Hr]; [lia | done |].
  eapply wp_lift; [exact Hr |]. by k1.
Qed.

Lemma call_timer_msleep (loops ms : Z) : intr_on s = true → wp (timer_msleep loops ms) s post.
Proof.
  intros Hon. unfold timer_msleep, real_time_sleep. kx. destruct (0 <? _).
  - by eapply call_timer_sleep.
  - apply call_real_time_delay.
Qed.

Lemma call_awake f r th' : stack th' = f :: [] → (∀ r o, f ≠ KSemaLoop r o) → awake r th = 0 ∧ awake r th' = 0.
Proof.
  intros E' Hf. split.
  - unfold awake. rewrite E. by destruct (status th).
  - by apply (awake_other r th' f []).
Qed.

Lemma call_awake_le r th' : awake r th ≤ awake r th'.
Proof. unfold awake at 1. rewrite E. destruct (status th); apply awake_nonneg. Qed.

Lemma call_lock_release l : l ≠ tid_lock → holder_is s (running s) l → wp (lock_release l) s post.
Proof.
  intros Hne Hh. unfold holder_is in Hh. pose proof HA as [HC Er Est H1 Hx].
  destruct (c_locks s HC l _ Hh) as (x & Hxs & Hsum).
  unfold lock_release. kx. eapply held_by_cur; [exact Hh | by look | done |].
  k1. apply wp_assert; [by rewrite bool_decide_true |]. kx.
  set (th' := set_stack (λ _, [KSemaUp (LockSema l)]) th).
  assert (∀ r, awake r th ≤ awake r th') as Haw by (intros; apply call_awake_le).
  eapply (inv_local s _ th th'); [done | | done | done | left; split; [done | by eapply client_settled]].
  eapply (local_lock s _ th th' l (Some (running s)) x None x); try done; rewrite ?E.
  - norm. unfold set_stack at 1. cbn. by rewrite E.
  - cbn. by rewrite insert_id.
  - by apply (c_wait_nodup s HC (LockSema l)).
  - cbn. rewrite decide_True by done. lia.
  - intros l' Hl'. cbn. by rewrite decide_False by congruence.
  - by eapply client_push.
  - by constructor.
  - by apply create_iff_step.
  - intros _. by repeat constructor.
  - specialize (Haw (LockSema l)). lia.
  - congruence.
  - cbn. unfold holder_is. cbn. rewrite lookup_insert_ne by done. by eapply client_locks.
  - repeat constructor. by eexists.
Qed.

(** Taking one unit of a semaphore without waiting. *)
Lemma call_sema_try_down a : is_Some (semas s !! SemaAt a) → wp (sema_try_down (SemaAt a);; mret tt) s post.
Proof.
  intros [x Hxs]. pose proof HA as [HC Er Est H1 Hx].
  destruct (c_wait_nodup s HC _ x Hxs) as [_ Hv].
  unfold sema_try_down. kx. eapply wp_get_sema; [exact Hxs |]. destruct (Z.ltb_spec 0 (value x)); kx.
  - assert (u32 (value x - 1) = value x - 1) as Hu by (apply u32_id; lia).
    eapply (inv_local s _ th th); [done | | done | by rewrite E | left; split; [done | by eapply client_settled]].
    eapply (local_sema s _ th th (SemaAt a) x); try done; rewrite ?E.
    + exact (stack_same s th HA).
    + cbn. rewrite Hu. lia.
    + apply (shape_client s); [by eapply client_runs | by constructor].
    + done.
    + by apply create_iff_step.
    + intros _. left. cbn. rewrite Hu. lia.
    + exact (client_locks s th HA E).
    + by constructor.
  - by eapply call_intr_set.
Qed.

Lemma call_lock_try_acquire l :
  is_Some (locks s !! l) → l ≠ tid_lock → ¬ holder_is s (running s) l →
  wp (lock_try_acquire l;; mret tt) s post.
Proof.
  intros [h Hl] Hne Hnh. pose proof HA as [HC Er Est H1 Hx].
  destruct (c_locks s HC l _ Hl) as (x & Hxs & Hsum).
  destruct (c_wait_nodup s HC _ x Hxs) as [_ Hv].
  unfold lock_try_acquire. kx. eapply held_by_cur; [exact Hl | by look | done |].
  k1. apply wp_assert; [rewrite bool_decide_false; [done | unfold holder_is in Hnh; congruence] |].
  unfold sema_try_down. kx. eapply wp_get_sema; [exact Hxs |]. destruct (Z.ltb_spec 0 (value x)); kx.
  - assert (u32 (value x - 1) = value x - 1) as Hu by (apply u32_id; lia).
    set (th' := set_stack (λ _, [KSetHolder l]) th).
    eapply (inv_local s _ th th'); [done | | done | done | left; split; [done | by eapply client_settled]].
    eapply (local_sema s _ th th' (LockSema l) x); try done; rewrite ?E.
    + norm. unfold set_stack at 1. cbn. by rewrite E.
    + cbn. rewrite Hu. lia.
    + intros l' [= <-]. cbn. rewrite decide_True by done. rewrite Hu. lia.
    + intros l' Hl'. cbn. by rewrite decide_False by congruence.
    + by eapply client_push.
    + by constructor.
    + by apply create_iff_step.
    + intros _. by repeat constructor.
    + intros _. left. cbn. rewrite Hu. pose proof (call_awake_le (LockSema l) th').
      cbn in *. lia.
    + intros r' _. apply call_awake_le.
    + cbn. split; [done |]. intros [?|?]; [congruence | by eapply client_locks].
    + repeat constructor. cbn. by eexists.
  - by eapply call_intr_set.
Qed.
End lock_calls.

Section init_calls.
Context (s : kstate) (th : thread) (HI : Inv s) (HA : Active s th) (E : stack th = []).
Implicit Types (t c n : loc) (l : loc) (r : sema_ref) (fs : list frame).

Let post : unit → kstate → Prop := λ _ s', Inv s'.

(** A call that leaves the running thread alone and adds semaphores, locks
    or condition variables. *)
Lemma call_grow s' :
  threads s' = threads s →
  ready_list s' = ready_list s ∧ Sleep_list s' = Sleep_list s ∧ all_list s' = all_list s ∧
    running s' = running s ∧ idle_thread s' = idle_thread s ∧
    initial_thread s' = initial_thread s ∧ thread_mlfqs s' = thread_mlfqs s ∧
    load_avg s' = load_avg s →
  conds s' = conds s → in_external_intr s' = false →
  (∀ r x, semas s !! r = Some x → semas s' !! r = Some x) →
  (∀ l h, locks s !! l = Some h → locks s' !! l = Some h) →
  (∀ r x, semas s' !! r = Some x → semas s !! r = Some x ∨
     (semas s !! r = None ∧ 0 ≤ value x < 4294967296 ∧ waiters x = [])) →
  (∀ l, is_Some (semas s' !! LockSema l) → is_Some (semas s !! LockSema l) ∨ is_Some (locks s' !! l)) →
  (∀ l h, locks s' !! l = Some h → locks s !! l = Some h ∨
     (h = None ∧ locks s !! l = None ∧ semas s !! LockSema l = None ∧
      ∃ x, semas s' !! LockSema l = Some x ∧ value x = 1)) →
  Inv s'.
Proof.
  intros ET Hs Ecd Hctx HsG HlG Hsem Hls Hlk. pose proof HA as [HC Er Est H1 Hx].
  assert (∀ t l, holder_is s' t l ↔ holder_is s t l) as Hh.
  { intros t l. unfold holder_is. split; [| by auto]. intros H.
    by destruct (Hlk _ _ H) as [?|(? & _)]. }
  eapply (inv_local s _ th th); [done | | done | by rewrite E | left; split; [done | by eapply client_settled]].
  split; rewrite ?E; try done.
  - rewrite ET. apply (stack_same s th HA).
  - apply (shape_client s); [by eapply client_runs | by constructor].
  - intros r x Hr. destruct (Hsem r x Hr) as [Hr0|(Hn & Hv & Hw)].
    + split; [by apply (c_wait_nodup s HC r) |]. right. exists x. split_and!; [done..|]. intros _. left. lia.
    + split; [done |]. left. split; [done |]. intros x0 ?. congruence.
  - intros r [x Hr]. eexists. eauto.
  - intros l [h Hl]. eexists. eauto.
  - intros c. by rewrite Ecd.
  - intros c w t. rewrite Ecd. eauto.
  - intros l h Hl. destruct (Hlk l h Hl) as [Hl0|(-> & Hn & Hsn & x & Hx' & Hv)].
    + destruct (c_locks s HC l h Hl0) as (x & Hx0 & _). exists x. split; [by auto |]. right. by exists h, x.
    + exists x. split; [done |]. by left.
  - cbn. rewrite Hh. by apply (client_locks s th HA E).
Qed.

Lemma call_sema_init a (v : Z) : semas s !! SemaAt a = None → wp (sema_init (SemaAt a) v) s post.
Proof.
  intros Ha. pose proof HA as [_ _ _ _ Hx]. unfold sema_init. kx. apply call_grow; try done.
  - intros r x Hr. cbn. by rewrite lookup_insert_ne by congruence.
  - intros r x. cbn. rewrite lookup_insert_Some. intros [[<- <-]|[_ ?]]; [right | by left].
    split_and!; [done | apply u32_range.. | done].
  - intros l. cbn. rewrite lookup_insert_ne by done. by left.
  - by left.
Qed.

Lemma call_lock_init l :
  locks s !! l = None → semas s !! LockSema l = None → wp (lock_init l) s post.
Proof.
  intros Hl Hs. pose proof HA as [_ _ _ _ Hx]. unfold lock_init, sema_init. kx. apply call_grow; try done.
  - intros r x Hr. cbn. by rewrite lookup_insert_ne by congruence.
  - intros l' h Hl'. cbn. by rewrite lookup_insert_ne by congruence.
  - intros r x. cbn. rewrite lookup_insert_Some. intros [[<- <-]|[_ ?]]; [right | by left].
    split_and!; [done | apply u32_range.. | done].
  - intros l'. cbn. destruct (decide (l = l')) as [->|].
    + rewrite !lookup_insert_eq. by right.
    + rewrite lookup_insert_ne by congruence. by left.
  - intros l' h. cbn. rewrite lookup_insert_Some. intros [[<- <-]|[_ ?]]; [right | by left].
    split_and!; [done..|]. eexists. by rewrite lookup_insert_eq.
Qed.

(** Nobody waits for the semaphore of a running thread's own [cond_wait]. *)
Lemma waiter_free x : semas s !! WaiterSema (running s) = Some x → waiters x = [].
Proof.
  intros Hr. pose proof HA as [HC Er Est H1 Hx]. destruct (waiters x) as [|t w] eqn:Hw; [done |]. exfalso.
  destruct (c_wait s HC _ x t Hr) as (tht & o & fs & Et & Eb & Ek); [rewrite Hw; left |].
  pose proof (c_refs s HC t tht Et) as Href. rewrite Ek in Href. apply Forall_cons in Href as [[_ Heq] _].
  cbn in Heq. subst t. congruence.
Qed.

Lemma call_cond_wait c l :
  is_Some (conds s !! c) → l ≠ tid_lock → holder_is s (running s) l → wp (cond_wait c l) s post.
Proof.
  intros [w Hw] Hne Hh. unfold holder_is in Hh. pose proof HA as [HC Er Est H1 Hx].
  destruct (c_locks s HC l _ Hh) as (x & Hxs & Hsum).
  unfold cond_wait, sema_init. kx. eapply held_by_cur; [exact Hh | by look | done |].
  k1. apply wp_assert; [by rewrite bool_decide_true |]. kx. eapply wp_get_cond; [exact Hw |]. kx.
  unfold lock_release. kx. eapply held_by_cur; [exact Hh | by look | done |].
  k1. apply wp_assert; [by rewrite bool_decide_true |]. kx.
  set (fs := [KSemaUp (LockSema l); KSemaDown (WaiterSema (running s)); KLockAcquire l]).
  set (th' := set_stack (λ _, fs) th).
  assert (∀ r, awake r th ≤ awake r th') as Haw by (intros; by apply call_awake_le).
  eapply (inv_local s _ th th'); [done | | done | done | left; split; [done | by eapply client_settled]].
  split; rewrite ?E; try done.
  - norm. unfold set_stack at 1. cbn. by rewrite E.
  - apply (shape_client s); [by eapply client_runs | by repeat constructor].
  - by repeat constructor.
  - intros _. by repeat constructor.
  - intros r y. cbn. rewrite lookup_insert_Some. intros [[<- <-]|[_ Hr]].
    + split; [cbn; unfold u32 in *; by vm_compute |]. left. split; [done | exact waiter_free].
    + split; [by apply (c_wait_nodup s HC r) |]. right. exists y. split_and!; [done..|]. intros _. left.
      specialize (Haw r). lia.
  - intros r Hr. cbn. rewrite lookup_insert. case_decide; [by eexists | done].
  - intros l' Hl'. cbn. rewrite lookup_insert. case_decide; [by eexists | done].
  - intros c' Hc'. cbn. rewrite lookup_insert. case_decide; [by eexists | done].
  - intros c' w' t. cbn. rewrite lookup_insert_Some. intros [[<- <-]|[_ Hc]] Ht; [| by eauto].
    apply elem_of_app in Ht as [Ht|Ht]; [by eauto |]. apply list_elem_of_singleton in Ht as ->.
    right. rewrite lookup_insert_eq. by eexists.
  - intros l'. cbn. rewrite lookup_insert_ne by done. by left.
  - intros l' h. cbn. rewrite lookup_insert_Some. intros [[<- <-]|[Hn Hl']].
    + exists x. rewrite lookup_insert_ne by done. split; [done |]. right. exists (Some (running s)), x.
      split_and!; [done..|]. cbn. rewrite decide_True by done. lia.
    + destruct (c_locks s HC l' h Hl') as (y & Hy & _). exists y. rewrite lookup_insert_ne by done.
      split; [done |]. right. exists h, y. split_and!; [done..|]. cbn. rewrite decide_False by congruence. lia.
  - intros t l' Ht. unfold holder_is. cbn. rewrite lookup_insert. case_decide; [subst | done].
    rewrite Hh. split; congruence.
  - cbn. unfold holder_is. cbn. rewrite lookup_insert_eq. split; [done |].
    rewrite lookup_insert_ne by done. intros [?|?]; [by apply Hne | by eapply client_locks].
  - repeat constructor; cbn; rewrite ?lookup_insert_ne, ?lookup_insert_eq by done; by eexists.
Qed.

(** The running thread exits: the state in which [schedule] is called. *)
Definition exiting : kstate :=
  upd_thread (running s) (set_status (λ _, THREAD_DYING))
    (set_all_list (filter (λ t, t ≠ running s)) (set_intr_on (λ _, false) s)).

Lemma exiting_parked : Parked exiting.
Proof.
  pose proof HA as [HC Er Est H1 Hx]. pose proof (client_runs s th HA E) as Hni.
  apply (parked_park s th HA _ (set_status (λ _, THREAD_DYING) th)); [| done | done].
  unfold exiting. split; try done.
  - norm. reflexivity.
  - by left.
  - by left.
  - by left.
  - right. by split_and!.
  - intros r x _ _. left. unfold awake. cbn. rewrite E. by destruct (status th).
Qed.

Lemma wp_thread_exit (Q : unit → kstate → Prop) : wp schedule exiting Q → wp thread_exit s Q.
Proof.
  pose proof HA as [HC Er Est H1 Hx]. intros HQ. unfold thread_exit. kx. apply wp_assert.
  { apply bool_decide_eq_true. apply (c_all s HC). exists th. split; [done | congruence]. }
  kx. exact HQ.
Qed.

Lemma call_thread_exit : wp thread_exit s post.
Proof. apply wp_thread_exit, wp_schedule; [exact exiting_parked | by intros]. Qed.

Lemma exit_frees :
  running s ≠ initial_thread s → wp thread_exit s (λ _ s', threads s' !! running s = None ∧
    all_list s' = filter (λ t, t ≠ running s) (all_list s)).
Proof.
  pose proof HA as [HC Er Est H1 Hx]. intros Hini.
  apply wp_thread_exit, wp_schedule; [exact exiting_parked |]. intros n Hn _.
  destruct (chosen_ok exiting n (k_core _ exiting_parked) Hn (k_none _ exiting_parked)) as (thn & En & _ & Hst & _).
  assert (threads exiting !! running s = Some (set_status (λ _, THREAD_DYING) th)) as Ee
    by (unfold exiting; cbn; by rewrite lookup_alter_eq, Er).
  assert (running s ≠ n) as Hne.
  { intros <-. rewrite Ee in En. injection En as <-. by destruct Hst as [?|(? & _)]. }
  unfold schedule_to. change (running exiting) with (running s). rewrite decide_False by done.
  rewrite Ee. cbn [status set_status]. rewrite !bool_decide_true by done. cbn.
  by rewrite lookup_delete_eq.
Qed.
End init_calls.

Section create_call.
Context (s : kstate) (th : thread) (HI : Inv s) (HA : Active s th) (E : stack th = []).
Implicit Types (t c n : loc) (l : loc) (r : sema_ref) (fs : list frame).

Let post : unit → kstate → Prop := λ _ s', Inv s'.

(** The new thread's block, and the frames of its creator. *)
Lemma core_create t thn th' s' :
  threads s !! t = None → (t ≤ RAM_PAGES)%positive → status thn = THREAD_BLOCKED → stack thn = [] →
  status th' = THREAD_RUNNING → stack th' = [KAllocTid t; KCreateInherit t FClient] →
  priority th' = priority th →
  threads s' = <[t := thn]> (<[running s := th']> (threads s)) →
  ready_list s' = ready_list s ∧ Sleep_list s' = Sleep_list s ∧ all_list s' = all_list s ++ [t] ∧
    running s' = running s ∧ idle_thread s' = idle_thread s ∧
    initial_thread s' = initial_thread s ∧ thread_mlfqs s' = thread_mlfqs s ∧
    load_avg s' = load_avg s →
  semas s' = semas s → locks s' = locks s → conds s' = conds s → Core s'.
Proof.
  intros Hnew Hram Hbn Hkn Hst' Hk' Hp' ET (ER & ES & EA & ERun & EI & EIn & EM & ELd) ESem ELk ECd.
  pose proof HA as [HC Er Est H1 Hx]. pose proof (client_runs s th HA E) as Hri.
  assert (t ≠ running s) as Hnr by (intros ->; congruence).
  assert (∀ u thu, threads s' !! u = Some thu → (u = t ∧ thu = thn) ∨ (u = running s ∧ thu = th') ∨
    (u ≠ t ∧ u ≠ running s ∧ threads s !! u = Some thu)) as Hinv.
  { intros u thu. rewrite ET, !lookup_insert_Some. naive_solver. }
  assert (threads s' !! t = Some thn) as Et' by (by rewrite ET, lookup_insert_eq).
  assert (threads s' !! running s = Some th') as Er' by (by rewrite ET, lookup_insert_ne, lookup_insert_eq).
  assert (∀ u thu, threads s !! u = Some thu → u ≠ running s → threads s' !! u = Some thu) as Hkeep.
  { intros u thu Eu Hu. rewrite ET, !lookup_insert_ne; [done | done | intros ->; congruence]. }
  assert (∀ u thu, threads s !! u = Some thu → status thu ≠ THREAD_RUNNING → threads s' !! u = Some thu) as Hkeep2.
  { intros u thu Eu Hu. apply Hkeep; [done | intros ->; congruence]. }
  assert (∀ u, is_Some (threads s !! u) → prio s' u = prio s u ∧ (u ≠ running s → wake s' u = wake s u)) as Hpw.
  { intros u [thu Eu]. unfold prio, wake. destruct (decide (u = running s)) as [->|Hu].
    - rewrite Er', Er. done.
    - rewrite (Hkeep u thu Eu Hu), Eu. done. }
  assert (∀ u b, create_stack u b (stack th') → u = t ∧ b = false) as Hct.
  { intros u b. rewrite Hk'. cbn. intuition congruence. }
  assert (∀ u b, ¬ create_stack u b (stack th)) as Hcn by (intros u b; rewrite E; by intros []).
  assert (∀ l, owned l (stack th') = 0 ∧ owned l (stack thn) = 0) as How by (intros; by rewrite Hk', Hkn).
  split; rewrite ?ER, ?ES, ?EI, ?EIn, ?ERun, ?EM, ?ELd, ?ESem, ?ELk, ?ECd.
  - intros u Hu. destruct (c_ready s HC u Hu) as (thu & Eu & ? & ?). exists thu.
    split_and!; [apply Hkeep2; [done | congruence] | done..].
  - apply (c_ready_nodup s HC).
  - intros u thu [[-> ->]|[[-> ->]|(_ & _ & Eu)]]%Hinv Hr; [congruence.. | by apply (c_ready_all s HC)].
  - intros u Hu. destruct (c_sleep s HC u Hu) as (thu & o & fs & Eu & ? & ?). exists thu, o, fs.
    split_and!; [apply Hkeep2; [done | congruence] | done | naive_solver..].
  - apply (c_sleep_nodup s HC).
  - intros r x u Hr Hu. destruct (c_wait s HC r x u Hr Hu) as (thu & o & fs & Eu & ? & ?). exists thu, o, fs.
    split_and!; [apply Hkeep2; [done | congruence] | done..].
  - apply (c_wait_nodup s HC).
  - intros r x Hr Hw. pose proof (c_awake s HC r x Hr Hw).
    rewrite ET, total_insert_new by (by rewrite lookup_insert_ne). rewrite (total_insert _ _ _ _ _ Er).
    pose proof (awake_nonneg r thn). pose proof (awake_nonneg r th').
    assert (awake r th = 0) by (unfold awake; rewrite E; by destruct (status th)). lia.
  - intros u thu [[-> ->]|[[-> ->]|(Hu1 & Hu2 & Eu)]]%Hinv Hb.
    + right. right. right. exists (running s), th', false. split; [done |]. by rewrite Hk'.
    + congruence.
    + destruct (c_blocked s HC u thu Eu Hb) as [?|[?|[?|(c & thc & b & Ec & Hc)]]]; unfold blocked_ok;
        rewrite ?ES, ?ESem, ?EI; [by left | by right; left | by right; right; left |].
      right. right. right. exists c, thc, b. split; [| done]. apply Hkeep; [done |].
      intros ->. rewrite Er in Ec. injection Ec as <-. by apply Hcn in Hc.
  - eapply sorted_ext; [| apply (c_ready_sorted s HC)]. intros x y Hx1 Hy1.
    destruct (c_ready s HC x Hx1) as (? & Ex & _). destruct (c_ready s HC y Hy1) as (? & Ey & _).
    unfold le_of, thread_priority_greater. destruct (Hpw x) as [-> _]; [by eexists |].
    destruct (Hpw y) as [-> _]; [by eexists | done].
  - eapply sorted_ext; [| apply (c_sleep_sorted s HC)]. intros x y Hx1 Hy1.
    destruct (c_sleep s HC x Hx1) as (thx & _ & _ & Ex & Sx & _). destruct (c_sleep s HC y Hy1) as (thy & _ & _ & Ey & Sy & _).
    destruct (Hpw x) as [_ Wx]; [by eexists |]. destruct (Hpw y) as [_ Wy]; [by eexists |].
    unfold le_of, wakeup_tick_less. rewrite Wx, Wy; [done | intros ->; congruence..].
  - intros Hm r x Hr. eapply sorted_ext; [| by apply (c_wait_sorted s HC Hm r)]. intros y z Hy Hz.
    destruct (c_wait s HC r x y Hr Hy) as (? & _ & _ & Ey & _). destruct (c_wait s HC r x z Hr Hz) as (? & _ & _ & Ez & _).
    unfold le_of, thread_priority_greater. destruct (Hpw y) as [-> _]; [by eexists |].
    destruct (Hpw z) as [-> _]; [by eexists | done].
  - intros u. rewrite EA, elem_of_app, list_elem_of_singleton, (c_all s HC u). split.
    + intros [(thu & Eu & Hd)| ->]; [| exists thn; split; [done | congruence]].
      destruct (decide (u = running s)) as [->|]; [exists th'; split; [done | congruence] | by eauto].
    + intros (thu & [[-> ->]|[[-> ->]|(Hu1 & Hu2 & Eu)]]%Hinv & Hd); [by right | left | left; by eauto].
      exists th. split; [done | congruence].
  - rewrite EA. apply NoDup_app. split_and!; [apply (c_all_nodup s HC) | | apply NoDup_singleton].
    intros u Hu Ht. apply list_elem_of_singleton in Ht as ->. apply (c_all s HC) in Hu as (? & ? & _). congruence.
  - intros u thu [[-> ->]|[[-> ->]|(_ & _ & Eu)]]%Hinv Hd; [congruence.. | by apply (c_dying s HC u thu)].
  - destruct (c_idle s HC) as (thi & Ei & Hi). exists thi. split; [by apply Hkeep | done].
  - intros u thu Hu [[-> ->]|[[-> ->]|(_ & _ & Eu)]]%Hinv.
    + rewrite Hkn. constructor.
    + rewrite Hk'. by repeat constructor.
    + by apply (c_client s HC u).
  - intros c thc u b [[-> ->]|[[-> ->]|(_ & _ & Ec)]]%Hinv Hc.
    + by rewrite Hkn in Hc.
    + destruct (Hct u b Hc) as [-> ->]. split.
      * destruct (c_idle s HC) as (? & Ei & _). intros ->. congruence.
      * exists thn. split_and!; [done..| by right].
    + destruct (c_create s HC c thc u b Ec Hc) as (? & thu & Eu & Eb & ?). split; [done |].
      exists thu. split_and!; [apply Hkeep2; [done | congruence] | done..].
  - intros c thc [[-> ->]|[[-> ->]|(_ & _ & Ec)]]%Hinv; [left; rewrite Hkn; constructor | | by apply (c_plain s HC c)].
    right. exists t, false. by rewrite Hk'.
  - assert (∀ c thc u b, threads s' !! c = Some thc → create_stack u b (stack thc) →
      (u = t ∧ c = running s) ∨ (u ≠ t ∧ threads s !! c = Some thc)) as Hc1.
    { intros c thc u b [[-> ->]|[[-> ->]|(_ & _ & Ec)]]%Hinv Hc.
      - by rewrite Hkn in Hc.
      - left. by destruct (Hct u b Hc).
      - right. split; [| done]. intros ->. destruct (c_create s HC c thc t b Ec Hc) as (_ & ? & ? & _). congruence. }
    intros c1 c2 th1 th2 u b1 b2 E1 E2 Hs1 Hs2.
    destruct (Hc1 _ _ _ _ E1 Hs1) as [[-> ->]|[? ?]], (Hc1 _ _ _ _ E2 Hs2) as [[? ->]|[? ?]]; try done.
    by eapply (c_create_one s HC).
  - intros l h Hl. destruct (c_locks s HC l h Hl) as (x & Hxl & Hsum). exists x. split; [done |].
    rewrite ET, total_insert_new by (by rewrite lookup_insert_ne). rewrite (total_insert _ _ _ _ _ Er).
    destruct (How l) as [-> ->]. rewrite E. cbn. lia.
  - apply (c_lock_semas s HC).
  - destruct (c_tid_lock s HC) as (h & Hh & Hal). exists h. split; [done |]. intros u Hu.
    destruct (Hal u Hu) as [thu Eu]. destruct (decide (u = running s)) as [->|]; [by eexists | by eauto].
  - assert (∀ u l, holder_is s' u l ↔ holder_is s u l) as Hh by (intros; unfold holder_is; by rewrite ELk).
    intros u thu [[-> ->]|[[-> ->]|(_ & _ & Eu)]]%Hinv.
    + rewrite Hkn. cbn. rewrite Hh. intros Hht. destruct (c_tid_lock s HC) as (h & Hl & Hal).
      unfold holder_is in Hht. destruct (Hal t) as [? ?]; congruence.
    + rewrite Hk'. cbn. rewrite Hh. split; by apply (client_locks s th HA E).
    + eapply locks_ok_ext; [| by apply (c_locks_ok s HC u)]. intros l. by rewrite Hh.
  - intros u thu [[-> ->]|[[-> ->]|(_ & _ & Eu)]]%Hinv.
    + rewrite Hkn. constructor.
    + rewrite Hk'. by repeat constructor.
    + eapply Forall_impl; [by apply (c_refs s HC u) |]. intros f.
      by apply refs_mono; rewrite ?ESem, ?ELk, ?ECd.
  - apply (c_conds s HC).
  - intros u thu [[-> ->]|[[-> ->]|(_ & _ & Eu)]]%Hinv; [by rewrite Hkn | rewrite Hk'; by repeat constructor |].
    by apply (c_under s HC u).
  - intros u thu [[-> ->]|[[-> ->]|(_ & _ & Eu)]]%Hinv; [done | by eapply (c_page s HC) | by eapply (c_page s HC)].
  - apply (c_load s HC).
Qed.

Lemma call_thread_create nm (pri : Z) t :
  PRI_MIN ≤ pri ≤ PRI_MAX → threads s !! t = None → (t ≤ RAM_PAGES)%positive →
  wp (thread_create nm pri FClient (Some t)) s post.
Proof.
  intros Hpri Hnew Hram. pose proof HA as [HC Er Est H1 Hx].
  assert (t ≠ running s) as Hnr by (intros ->; congruence).
  unfold thread_create, init_thread. k1. k1. apply wp_assert; [lia |]. kx.
  eapply wp_push; [cbn; rewrite lookup_insert_ne by done; exact Er |].
  eapply wp_push; [cbn; rewrite lookup_alter_eq, lookup_insert_ne, Er by done; reflexivity |].
  set (thn := mk_thread 0 THREAD_BLOCKED (take 15 nm) pri 0 0 (fp_from_int 0) []).
  set (th' := set_stack (λ _, [KAllocTid t; KCreateInherit t FClient]) th).
  set (s' := upd_thread _ _ _).
  assert (threads s' = <[t := thn]> (<[running s := th']> (threads s))) as ET.
  { unfold s'. cbn. apply map_eq. intros u. destruct (decide (u = running s)) as [->|Hu].
    - rewrite !lookup_alter_eq, !lookup_insert_ne, Er, lookup_insert_eq by done. cbn.
      unfold set_stack. cbn. by rewrite E.
    - rewrite !lookup_alter_ne by done. rewrite !lookup_insert. by rewrite (decide_False (P := running s = u)). }
  assert (Core s') as HC' by (by apply (core_create t thn th' s')).
  assert (threads s' !! running s = Some th') as Er' by (by rewrite ET, lookup_insert_ne, lookup_insert_eq).
  assert (run_stack s' = [KAllocTid t; KCreateInherit t FClient]) as Hrs.
  { unfold run_stack. change (running s') with (running s). by rewrite Er'. }
  split; rewrite ?Hrs; try done.
  - by exists th'.
  - intros u thu. rewrite ET, !lookup_insert_Some. intros [[<- <-]|[_ [[<- <-]|[_ Eu]]]]; [done..|].
    by apply H1.
  - intros Hn. exfalso. pose proof (client_settled s th HI HA E) as Hf. revert Hn Hf.
    assert (∀ u, u ≠ t → prio s' u = prio s u) as Hp.
    { intros u Hu. unfold prio. rewrite ET, lookup_insert_ne by done.
      destruct (decide (u = running s)) as [->|]; [by rewrite lookup_insert_eq, Er | by rewrite lookup_insert_ne]. }
    unfold need_preempt. change (ready_list s') with (ready_list s). change (running s') with (running s).
    destruct (ready_list s) as [|u q] eqn:Eq; [done |]. rewrite !Hp; [congruence | | done].
    intros ->. destruct (c_ready s HC t) as (? & ? & _); [rewrite Eq; left | congruence].
Qed.
End create_call.

(** ** Every enabled call succeeds and keeps the invariant *)

Lemma call_ok s c : Inv s → enabled (Call c) s = true → wp (exec (Call c)) s (λ _ s', Inv s').
Proof.
  intros HI. destruct (inv_active s HI) as (th & HA & Hrs). unfold enabled. rewrite Hrs.
  destruct (stack th) eqn:E; [| done]. intros Hpre. unfold exec, exec_call.
  assert (∀ l, holds s l = true → holder_is s (running s) l) as Hh
    by (intros l; apply bool_decide_eq_true).
  assert (∀ l, holds s l = false → ¬ holder_is s (running s) l) as Hnh
    by (intros l; apply bool_decide_eq_false).
  destruct c; unfold call_pre in Hpre;
    rewrite ?andb_true_iff, ?bool_decide_eq_true, ?negb_true_iff in Hpre; unfold PRI_MIN, PRI_MAX in Hpre.
  - destruct page as [t|]; [| by apply wp_ret].
    rewrite ?andb_true_iff, ?bool_decide_eq_true in Hpre. destruct Hpre as [[? ?] [? ?]].
    apply (call_thread_create s th HI HA E); [unfold PRI_MIN, PRI_MAX; lia | done | by apply Pos.leb_le].
  - by apply (call_thread_yield s th).
  - by apply (call_thread_exit s th).
  - by apply (call_thread_set_priority s th).
  - by apply (call_thread_set_nice s th).
  - by apply (call_timer_sleep s th).
  - destruct Hpre. by apply (call_timer_msleep s th).
  - by apply (call_intr_disable s th).
  - by apply (call_intr_enable s th).
  - destruct Hpre. by apply (call_sema_init s th).
  - by apply (call_sema_down s th).
  - by apply (call_sema_try_down s th).
  - by apply (call_sema_up s th).
  - destruct Hpre. by apply (call_lock_init s th).
  - destruct Hpre as [[? ?] ?]. apply (call_lock_acquire s th); auto.
  - destruct Hpre as [[? ?] ?]. apply (call_lock_try_acquire s th); auto.
  - destruct Hpre. apply (call_lock_release s th); auto.
  - by apply (call_cond_init s th).
  - destruct Hpre as [[? ?] ?]. apply (call_cond_wait s th); auto.
  - destruct Hpre as [[? ?] ?]. apply (call_cond_signal s th); auto.
  - destruct Hpre as [[? ?] ?]. apply (call_cond_broadcast s th); auto.
Qed.
