(* ===== verification/KernelTick.v ===== *)
(** The timer interrupt keeps the invariant, and does not fault. *)
From S2P Require Import Prelude ListSpec FixedPoint Kstate Interrupt Thread Synch Timer Machine KernelInv KernelStep.
Local Open Scope Z_scope.

(** The state inside the handler; [rest] is the interrupted thread's stack. *)
Record Handler (s : kstate) (rest : list frame) : Prop := {
  h_core : Core s;
  h_run : ∃ th, threads s !! running s = Some th ∧ status th = THREAD_RUNNING ∧ stack th = KIret :: rest;
  h_one : ∀ t th, threads s !! t = Some th → status th = THREAD_RUNNING → t = running s;
  h_ctx : in_external_intr s = true;
  h_off : intr_on s = false
}.

Section handler.
Implicit Types (s : kstate) (t c n : loc) (th : thread) (l : loc) (r : sema_ref) (fs rest : list frame).

Lemma handler_irrelevant s s' rest :
  Handler s rest → threads s' = threads s → ready_list s' = ready_list s → Sleep_list s' = Sleep_list s →
  all_list s' = all_list s → running s' = running s → idle_thread s' = idle_thread s →
  initial_thread s' = initial_thread s → semas s' = semas s → locks s' = locks s →
  conds s' = conds s → thread_mlfqs s' = thread_mlfqs s → load_avg s' = load_avg s →
  in_external_intr s' = true → intr_on s' = false → Handler s' rest.
Proof.
  intros [HC Hr H1 _ _] E1 E2 E3 E4 E5 E6 E7 E8 E9 E10 E11 E12 E13 E14.
  split; [by eapply core_irrelevant | by rewrite E1, E5 | by rewrite E1, E5 | done | done].
Qed.

(** ** Entry *)

Definition halt_over (fs : list frame) : list frame :=
  match fs with KHalted :: r => KIdleLoop :: r | _ => fs end.

Lemma enter_handler s s' th :
  Inv s → Active s th → intr_on s = true →
  threads s' = <[running s := set_stack (λ _, KIret :: halt_over (stack th)) th]> (threads s) →
  same_shared s (set_in_external_intr (λ _, false) s') →
  in_external_intr s' = true → intr_on s' = false → Handler s' (halt_over (stack th)).
Proof.
  intros HI HA Hon ET Hsh Hctx Hoff. pose proof HA as [HC Er Est H1 Hx].
  destruct (active_facts s th HA) as (Hshape & Hu & Hlk & Href).
  set (th' := set_stack (λ _, KIret :: halt_over (stack th)) th) in *.
  assert (resume_top (stack th) = false) as Htop.
  { destruct (resume_top (stack th)) eqn:E; [| done]. pose proof (i_intr s HI) as Hi.
    rewrite (active_stack s th HA) in Hi. specialize (Hi E). congruence. }
  assert (∀ r, awake r th ≤ awake r th') as Haw.
  { intros r. unfold awake at 1. destruct (status th), (stack th) as [|f fs]; try apply awake_nonneg;
      destruct f; try done; apply awake_nonneg. }
  assert (under_ok (stack th')) as Hu'.
  { unfold th'. cbn. destruct (stack th) as [|f fs] eqn:E; [constructor |].
    cbn in Hu. destruct f; try done; cbn; by constructor. }
  assert (shape_ok s (running s) (stack th')) as Hsh'.
  { unfold th'. cbn. revert Hshape. unfold shape_ok. destruct (decide _).
    - destruct (idle_thread s); destruct (stack th) as [|f fs]; [done| |done|]; by destruct f.
    - intros H. constructor; [done |]. destruct (stack th) as [|f fs]; [done |].
      apply Forall_cons in H as [Hf Hfs]. destruct f; try done; by constructor. }
  assert (Local s (set_in_external_intr (λ _, false) s') th th') as HL.
  { unfold halt_over in *. destruct (stack th) as [|f fs] eqn:E.
    - eapply (neutral_local s _ th th' [] [KIret] []); try done; [by apply Forall_singleton | by repeat constructor].
    - destruct (decide (f = KHalted)) as [->|Hnh].
      + eapply (neutral_local s _ th th' [KHalted] [KIret; KIdleLoop] fs); try done.
        * neutral_list.
        * neutral_list.
        * apply Forall_cons in Href as [_ Href]. by repeat constructor.
      + assert (stack th' = KIret :: f :: fs) as Ek by (unfold th'; cbn; by destruct f).
        eapply (neutral_local s _ th th' [] [KIret] (f :: fs)); try done; rewrite ?Ek; try done.
        * neutral_list.
        * by constructor. }
  pose proof HL as [_ _ (ER & ES & EA & ERun & EI & EIn & EM & ELd) _ _ _ _ _ _ _ _ _ _ _ _ _ _].
  cbn in ER, ES, EA, ERun, EI, EIn, EM, ELd.
  split; [| | | done | done].
  - eapply (core_irrelevant (set_in_external_intr (λ _, false) s')); try done. by eapply core_local.
  - exists th'. rewrite ERun, ET, lookup_insert_eq. done.
  - intros t th0. rewrite ERun, ET, lookup_insert_Some. intros [[<- _]|[_ Et]]; [done |]. by eapply H1.
Qed.

(** ** Waking the sleepers *)

(** What [thread_wake_up] does at tick [now], up to the order of the ready
    queue. *)
Record Woken (now : Z) s s' : Prop := {
  w_sleep : Sleep_list s' = filter (λ t, now < wake s t) (Sleep_list s);
  w_threads : ∀ t, threads s' !! t =
    (if decide (t ∈ Sleep_list s ∧ wake s t ≤ now) then set_status (λ _, THREAD_READY) <$> threads s !! t
     else threads s !! t);
  w_ready : ready_list s' ≡ₚ filter (λ t, wake s t ≤ now) (Sleep_list s) ++ ready_list s;
  w_same : running s' = running s ∧ thread_mlfqs s' = thread_mlfqs s ∧ ticks s' = ticks s ∧
    thread_prior_aging s' = thread_prior_aging s
}.

Lemma unblock_sleeper s rest t q :
  Handler s rest → Sleep_list s = t :: q → ∃ tht, threads s !! t = Some tht ∧ status tht = THREAD_BLOCKED ∧
    Handler (unblocked t (set_Sleep_list (λ _, q) s)) rest.
Proof.
  intros HH Hq. pose proof HH as [HC (th & Er & Est & Ek) H1 Hctx Hoff].
  destruct (c_sleep s HC t) as (tht & o & fs & Et & Eb & Ekt & Hni); [rewrite Hq; left |].
  exists tht. split_and!; [done..|]. set (s1 := set_Sleep_list (λ _, q) s).
  assert (t ≠ running s) as Hne by (intros ->; congruence).
  assert (threads (unblocked t s1) = <[t := set_status (λ _, THREAD_READY) tht]> (threads s)) as ET
    by (by rewrite (unblocked_threads t s1 tht)).
  split; [| exists th; by rewrite ET, lookup_insert_ne | | done | done].
  - eapply (core_unblock s _ t th th tht); try done. split; try done.
    + by rewrite Ekt.
    + rewrite ET. by rewrite (insert_id _ _ _ Er).
    + by auto.
    + exact (unblocked_ready t s1).
    + by left.
    + right. split; [done |]. intros r x Hr Ht. destruct (c_wait s HC r x t Hr Ht) as (? & ? & ? & ? & _ & ?).
      congruence.
    + intros c thc b. rewrite ET, lookup_insert_Some. intros [[<- <-]|[_ Ec]] Hc.
      * cbn in Hc. destruct (c_create s HC t tht t b Et Hc) as (_ & th' & E' & _ & Hk).
        replace th' with tht in Hk by congruence. rewrite Ekt in Hk. naive_solver.
      * destruct (c_create s HC c thc t b Ec Hc) as (_ & th' & E' & _ & Hk).
        replace th' with tht in Hk by congruence. rewrite Ekt in Hk. naive_solver.
  - intros u thu. rewrite ET, lookup_insert_Some. intros [[<- <-]|[_ Eu]]; [done | by eapply H1].
Qed.

Lemma wake_up_loop_correct fuel now s rest :
  Handler s rest → (length (Sleep_list s) ≤ fuel)%nat →
  wp (thread_wake_up_loop fuel now) s (λ _ s', Woken now s s' ∧ Handler s' rest).
Proof.
  revert s. induction fuel as [|fuel IH]; intros s HH Hlen.
  { unfold thread_wake_up_loop. k1. k1. destruct (Sleep_list s) eqn:Hq; [| simpl in Hlen; lia].
    k1. split; [| done]. by split; rewrite ?Hq. }
  cbn [thread_wake_up_loop]. k1. k1. destruct (Sleep_list s) as [|t q] eqn:Hq.
  { k1. split; [| done]. by split; rewrite ?Hq. }
  destruct (unblock_sleeper s rest t q HH Hq) as (tht & Et & Eb & HH').
  k1. eapply run_get_thread; [exact Et |].
  assert (wake s t = wakeup_tick tht) as Hwt by (unfold wake; by rewrite Et).
  pose proof (c_sleep_sorted s (h_core s rest HH)) as Hss. rewrite Hq in Hss.
  apply StronglySorted_inv in Hss as [_ Hall]. rewrite Forall_forall in Hall.
  pose proof (c_sleep_nodup s (h_core s rest HH)) as Hnd. rewrite Hq in Hnd. apply NoDup_cons in Hnd as [Htq Hnd].
  destruct (Z.ltb_spec now (wakeup_tick tht)) as [Hlt|Hge].
  - k1. split; [| done].
    assert (∀ u, u ∈ Sleep_list s → now < wake s u) as Hlate.
    { intros u. rewrite Hq. intros [->|Hu]%elem_of_cons; [lia |]. specialize (Hall u Hu).
      unfold le_of, wakeup_tick_less in Hall. lia. }
    split; [| | | by repeat split].
    + rewrite Hq. symmetry. apply filter_all. by rewrite <-Hq.
    + intros u. rewrite decide_False; [done |]. rewrite Hq. intros [Hu Hle]. rewrite <-Hq in Hu.
      specialize (Hlate u Hu). lia.
    + rewrite (filter_none (λ u, wake s u ≤ now)); [done |]. intros u Hu. specialize (Hlate u Hu). lia.
  - k1. k1. k1. eapply wp_unblock; [exact Et | exact Eb | pose proof (h_off s rest HH); cbn; congruence |].
    set (s1 := unblocked t (set_Sleep_list (λ _, q) s)) in *.
    assert (Sleep_list s1 = q) as Hq1 by done.
    eapply wp_mono; [apply IH; [exact HH' | rewrite Hq1; simpl in Hlen; lia] |].
    intros _ s' [[W1 W2 W3 (W4 & W5 & W6 & W7)] HH2]. split; [| done].
    assert (∀ u, threads s1 !! u = if decide (u = t) then Some (set_status (λ _, THREAD_READY) tht) else threads s !! u) as Hs1.
    { intros u. unfold s1. rewrite (unblocked_threads _ _ tht) by done. cbn. rewrite lookup_insert.
      repeat case_decide; congruence. }
    assert (∀ u, wake s1 u = wake s u) as Hwk.
    { intros u. unfold wake. rewrite Hs1. case_decide as Hu; [by rewrite Hu, Et | done]. }
    rewrite Hq1 in W1, W2, W3. split; [| | | by repeat split].
    + rewrite W1, Hq, filter_cons, decide_False by lia. apply list_filter_iff. intros u. by rewrite Hwk.
    + intros u. rewrite W2, Hq, Hwk, Hs1. destruct (decide (u = t)) as [->|Hu].
      * rewrite decide_False by (by intros [? _]).
        rewrite decide_True by (split; [left | lia]). by rewrite Et.
      * assert (u ∈ t :: q ↔ u ∈ q) as Hiff by (rewrite elem_of_cons; naive_solver).
        destruct (decide (u ∈ q ∧ wake s u ≤ now)) as [Hd|Hd].
        -- rewrite decide_True; [done |]. by rewrite Hiff.
        -- rewrite decide_False; [done |]. by rewrite Hiff.
    + rewrite W3, Hq, filter_cons, decide_True by lia.
      rewrite (list_filter_iff (λ u, wake s1 u ≤ now) (λ u, wake s u ≤ now)) by (intros u; by rewrite Hwk).
      change (ready_list s1) with
        (insert_ordered (thread_priority_greater (set_Sleep_list (λ _, q) s)) t (ready_list s)).
      rewrite insert_ordered_perm. simpl. by rewrite Permutation_middle.
Qed.
End handler.

(** ** New priorities *)

(** Only priority, niceness and recent CPU time change in a block. *)
Definition veq (th th' : thread) : Prop :=
  tid th' = tid th ∧ status th' = status th ∧ name th' = name th ∧
  wakeup_tick th' = wakeup_tick th ∧ stack th' = stack th.

Record Reprio s s' : Prop := {
  r_threads : ∀ t, option_Forall2 veq (threads s !! t) (threads s' !! t);
  r_same : ready_list s' = ready_list s ∧ Sleep_list s' = Sleep_list s ∧ all_list s' = all_list s ∧
    running s' = running s ∧ idle_thread s' = idle_thread s ∧
    initial_thread s' = initial_thread s ∧ thread_mlfqs s' = thread_mlfqs s ∧
    semas s' = semas s ∧ locks s' = locks s ∧ conds s' = conds s ∧ load_avg s' = load_avg s ∧
    in_external_intr s' = in_external_intr s ∧ intr_on s' = intr_on s ∧
    yield_on_return s' = yield_on_return s ∧ ticks s' = ticks s ∧
    thread_prior_aging s' = thread_prior_aging s
}.

Section reprio.
Implicit Types (s : kstate) (t c n : loc) (th : thread) (l : loc) (r : sema_ref) (fs rest : list frame).

Lemma reprio_refl s : Reprio s s.
Proof. split; [| done]. intros t. destruct (threads s !! t); by constructor. Qed.

Lemma veq_trans th1 th2 th3 : veq th1 th2 → veq th2 th3 → veq th1 th3.
Proof. unfold veq. intuition congruence. Qed.

Lemma reprio_trans s1 s2 s3 : Reprio s1 s2 → Reprio s2 s3 → Reprio s1 s3.
Proof.
  intros [H1 E1] [H2 E2]. split; [| intuition congruence].
  intros t. specialize (H1 t). specialize (H2 t). inversion H1 as [a b Hv Ea Eb|Ea Eb].
  - rewrite <-Eb in H2. inversion H2. constructor. by eapply veq_trans.
  - rewrite <-Eb in H2. inversion H2. constructor.
Qed.

Lemma reprio_mod s t g : (∀ th, veq th (g th)) → Reprio s (upd_thread t g s).
Proof.
  intros Hg. split; [| done]. intros u. cbn. rewrite lookup_alter.
  case_decide; [subst |]; destruct (threads s !! u); by constructor.
Qed.

Lemma reprio_is_some s s' t : Reprio s s' → is_Some (threads s !! t) → is_Some (threads s' !! t).
Proof. intros [H _] [x E]. specialize (H t). rewrite E in H. inversion H. by eexists. Qed.

(** What the handler leaves alone after it has woken the sleepers. *)
Record Tail s s' : Prop := {
  tl_threads : ∀ t, option_Forall2 veq (threads s !! t) (threads s' !! t);
  tl_same : Sleep_list s' = Sleep_list s ∧ ticks s' = ticks s ∧ running s' = running s
}.

Lemma tail_reprio s s' : Reprio s s' → Tail s s'.
Proof. intros [HT (_ & ? & _ & ? & _ & _ & _ & _ & _ & _ & _ & _ & _ & _ & ? & _)]. by split. Qed.

Lemma tail_same s s' :
  threads s' = threads s → Sleep_list s' = Sleep_list s → ticks s' = ticks s → running s' = running s → Tail s s'.
Proof. intros ET. split; [| done]. intros t. rewrite ET. destruct (threads s !! t); by constructor. Qed.

Lemma tail_trans s1 s2 s3 : Tail s1 s2 → Tail s2 s3 → Tail s1 s3.
Proof.
  intros [H1 E1] [H2 E2]. split; [| intuition congruence].
  intros t. specialize (H1 t). specialize (H2 t). inversion H1 as [a b Hv Ea Eb|Ea Eb].
  - rewrite <-Eb in H2. inversion H2. constructor. by eapply veq_trans.
  - rewrite <-Eb in H2. inversion H2. constructor.
Qed.

Lemma handler_reprio s s' s2 rest :
  Handler s rest → Reprio s s' → threads s2 = threads s' →
  ready_list s2 ≡ₚ ready_list s → StronglySorted (le_of (thread_priority_greater s2)) (ready_list s2) →
  (thread_mlfqs s = false → ∀ r x, semas s !! r = Some x →
    StronglySorted (le_of (thread_priority_greater s2)) (waiters x)) →
  Sleep_list s2 = Sleep_list s' → all_list s2 = all_list s' → running s2 = running s' →
  idle_thread s2 = idle_thread s' → initial_thread s2 = initial_thread s' →
  semas s2 = semas s' → locks s2 = locks s' → conds s2 = conds s' →
  thread_mlfqs s2 = thread_mlfqs s' → 0 ≤ load_avg s2 ≤ 268435456 →
  in_external_intr s2 = in_external_intr s' → intr_on s2 = intr_on s' → Handler s2 rest.
Proof.
  intros [HC (th & Er & Est & Ek) H1 Hctx Hoff] [HT (ER & ES & EA & ERun & EI & EIn & EM & ESem & ELk & ECd & ELd & ECtx & EOn & _)].
  intros ET Hperm Hs Hw ? ? ? ? ? ? ? ? ? ? ? ?.
  assert (∀ t th, threads s !! t = Some th → ∃ th', threads s2 !! t = Some th' ∧ veq th th') as Hnew.
  { intros t th0 E. specialize (HT t). rewrite E in HT. inversion HT as [a th' Hv Ha E'|]. exists th'. by rewrite ET. }
  assert (∀ t th', threads s2 !! t = Some th' → ∃ th, threads s !! t = Some th ∧ veq th th') as Hold.
  { intros t th0 E. rewrite ET in E. specialize (HT t). rewrite E in HT. inversion HT as [th' a Hv E'|]. by exists th'. }
  split.
  - apply (core_reprio s); try done; try congruence.
    + intros t th0 E. destruct (Hnew t th0 E) as (th' & E' & _ & Hst & _ & Hwk & Hk). exists th'.
      split; [done |]. split_and!; [done..| by left].
    + intros t [th' E']. destruct (Hold t th' E') as (th0 & ? & _). by eexists.
  - destruct (Hnew _ th Er) as (th' & E' & _ & Hst & _ & _ & Hk). exists th'.
    split_and!; [congruence | congruence | congruence].
  - intros t th' E' Hr. destruct (Hold t th' E') as (th0 & E & _ & Hst & _).
    replace (running s2) with (running s) by congruence. apply (H1 t th0); congruence.
  - congruence.
  - congruence.
Qed.

(** A rule for loops over a list of threads. *)
Lemma for_each_rule (P : list loc → kstate → Prop) f q s :
  P [] s →
  (∀ done t todo s1, q = done ++ t :: todo → P done s1 → wp (f t) s1 (λ _ s2, P (done ++ [t]) s2)) →
  wp (for_each f q) s (λ _ s', P q s').
Proof.
  intros H0 Hstep.
  assert (∀ todo done s1, q = done ++ todo → P done s1 → wp (for_each f todo) s1 (λ _ s', P q s')) as H.
  { induction todo as [|t todo IH]; intros dn s1 Hq HP; simpl.
    - k1. by rewrite Hq, app_nil_r.
    - k1. eapply wp_mono; [by eapply Hstep |]. intros ? s2 HP2. apply (IH (dn ++ [t])); [| done].
      by rewrite <-app_assoc. }
  by apply (H q []).
Qed.

(** [thread_check_preempt] in the handler asks for a yield on return. *)
Definition asked s : Prop := need_preempt s (running s) = true → yield_on_return s = true.

Definition only_flag s s' : Prop :=
  s' = s ∨ s' = set_yield_on_return (λ _, true) s.

Lemma handler_flag s s' rest : Handler s rest → only_flag s s' → Handler s' rest.
Proof.
  intros HH [->| ->]; [done |]. pose proof HH as [_ _ _ ? ?].
  by eapply (handler_irrelevant s).
Qed.

Lemma tail_flag s s' : only_flag s s' → Tail s s'.
Proof. intros [->| ->]; by apply tail_same. Qed.

Lemma handler_check s rest :
  Handler s rest → wp thread_check_preempt s (λ _ s', only_flag s s' ∧ asked s').
Proof.
  intros [HC (th & Er & Est & Ek) H1 Hctx Hoff]. unfold thread_check_preempt. kx.
  rewrite Hoff. unfold intr_set_level. kx.
  assert (set_intr_on (λ _, false) (set_intr_on (λ _, false) s) = s) as Hs by (destruct s; cbn in *; by subst).
  rewrite Hs. assert (need_preempt (set_intr_on (λ _, false) s) (running (set_intr_on (λ _, false) s))
    = need_preempt s (running s)) as -> by done.
  destruct (need_preempt s (running s)) eqn:Hn; kx.
  - rewrite Hctx. unfold intr_yield_on_return. kx.
    split; [by right | done].
  - split; [by left |]. unfold asked. by rewrite Hn.
Qed.

(** ** Aging *)

Definition alter_all (g : thread → thread) (q : list loc) (m : gmap loc thread) : gmap loc thread :=
  foldl (λ m t, alter g t m) m q.

Lemma alter_all_lookup g q m t :
  NoDup q → alter_all g q m !! t = (if decide (t ∈ q) then g <$> m !! t else m !! t).
Proof.
  unfold alter_all. revert m. induction q as [|u q IH]; intros m Hnd; cbn [foldl].
  - done.
  - apply NoDup_cons in Hnd as [Hu Hnd]. rewrite IH, lookup_alter by done.
    destruct (decide (u = t)) as [->|Hne].
    + rewrite decide_False by done. by rewrite decide_True by left.
    + destruct (decide (t ∈ q)); [rewrite decide_True; [done | by right] |].
      rewrite decide_False; [done |]. intros [?|?]%elem_of_cons; congruence.
Qed.

(** What the loop of [thread_aging] does. *)
Definition aged s : kstate := set_threads (alter_all age (ready_list s)) s.

Lemma aging_loop s :
  NoDup (ready_list s) → (∀ t, t ∈ ready_list s → is_Some (threads s !! t)) →
  wp (for_each (λ t, mod_thread t age) (ready_list s)) s (λ _ s', s' = aged s).
Proof.
  intros Hnd Hall. eapply wp_mono.
  - apply (for_each_rule (λ dn s1, s1 = set_threads (alter_all age dn) s)); [by destruct s |].
    intros dn t todo s1 Hq ->. destruct (Hall t) as [th E]; [rewrite Hq; set_solver |].
    rewrite Hq in Hnd. apply NoDup_app in Hnd as (Hdn & Hdt & _).
    eapply run_mod_thread.
    + cbn. rewrite alter_all_lookup, decide_False by (done || (intros Ht; by eapply Hdt; [exact Ht | left])).
      exact E.
    + unfold upd_thread, set_threads, alter_all. cbn. by rewrite foldl_app.
  - by intros _ s' ->.
Qed.

Lemma aged_lookup s t :
  NoDup (ready_list s) → threads (aged s) !! t =
    (if decide (t ∈ ready_list s) then age <$> threads s !! t else threads s !! t).
Proof. intros. unfold aged. cbn. by apply alter_all_lookup. Qed.

Lemma age_priority th : priority (age th) = if priority th <? PRI_MAX then priority th + 1 else priority th.
Proof. unfold age. by destruct (_ <? _). Qed.

Lemma age_veq th : veq th (age th).
Proof. unfold age. by destruct (_ <? _). Qed.

Lemma aged_reprio s : NoDup (ready_list s) → Reprio s (aged s).
Proof.
  intros Hnd. split; [| done]. intros t. rewrite aged_lookup by done.
  destruct (decide _), (threads s !! t); simpl; constructor; [apply age_veq | done].
Qed.

Lemma handler_aging s rest :
  Handler s rest → wp thread_aging s (λ _ s', Handler s' rest ∧ only_flag (aged s) s' ∧ asked s').
Proof.
  intros HH. pose proof HH as [HC _ _ Hctx Hoff]. pose proof (c_ready_nodup s HC) as Hnd.
  unfold thread_aging. kx.
  eapply wp_mono; [apply aging_loop; [done |] |].
  { intros t Ht. destruct (c_ready s HC t Ht) as (th & ? & _). by eexists. }
  intros _ s1 ->.
  assert (∀ t, t ∈ ready_list s → prio (aged s) t = (if prio s t <? PRI_MAX then prio s t + 1 else prio s t)) as Hp.
  { intros t Ht. unfold prio. rewrite aged_lookup, decide_True by done.
    destruct (c_ready s HC t Ht) as (th & -> & _). simpl. apply age_priority. }
  assert (∀ t, t ∉ ready_list s → prio (aged s) t = prio s t) as Hp'.
  { intros t Ht. unfold prio. by rewrite aged_lookup, decide_False. }
  assert (Handler (aged s) rest) as HH1.
  { eapply (handler_reprio s (aged s) (aged s)); try done.
    - by apply aged_reprio.
    - eapply sorted_ext; [| apply (c_ready_sorted s HC)]. intros x y Hx Hy.
      unfold le_of, thread_priority_greater. rewrite !Hp by done. unfold PRI_MAX.
      destruct (Z.ltb_spec (prio s x) 63), (Z.ltb_spec (prio s y) 63); lia.
    - intros Hm r x Hr. eapply sorted_ext; [| by apply (c_wait_sorted s HC Hm r)]. intros y z Hy Hz.
      assert (∀ t, t ∈ waiters x → t ∉ ready_list s) as Hnr.
      { intros t Ht Hin. destruct (c_wait s HC r x t Hr Ht) as (? & ? & ? & ? & ? & _).
        destruct (c_ready s HC t Hin) as (? & ? & ? & _). congruence. }
      unfold le_of, thread_priority_greater. by rewrite !Hp' by auto.
    - apply (c_load s HC). }
  eapply wp_mono; [by eapply handler_check |]. intros _ s' [Hf Ha].
  split_and!; [by eapply handler_flag | done | done].
Qed.
End reprio.

(** ** The multi-level feedback queue *)

Lemma bounded_length (l : list loc) (N : positive) :
  NoDup l → (∀ t, t ∈ l → (t ≤ N)%positive) → Z.of_nat (length l) ≤ Z.pos N.
Proof.
  intros Hnd Hall. assert (length l ≤ Pos.to_nat N)%nat; [| lia].
  rewrite <-(length_seq (Pos.to_nat N) 1), <-(length_fmap Pos.to_nat l).
  apply submseteq_length, NoDup_submseteq; [by apply NoDup_fmap; [apply _ |] |].
  intros x. rewrite list_elem_of_fmap. intros (t & -> & Ht). apply elem_of_seq. specialize (Hall t Ht). lia.
Qed.

Lemma new_load_avg_ok (load n : Z) :
  0 ≤ load ≤ 268435456 → 0 ≤ n ≤ 16385 → ∃ v, new_load_avg load n = Ok v ∧ 0 ≤ v ≤ 268435456.
Proof.
  intros Hl Hn. unfold new_load_avg.
  assert (fp_div (fp_from_int 59) (fp_from_int 60) = Ok 16110) as -> by reflexivity.
  assert (fp_div (fp_from_int 1) (fp_from_int 60) = Ok 273) as -> by reflexivity.
  unfold mbind, outcome_bind. eexists. split; [reflexivity |].
  unfold fp_add, fp_mul, fp_mul_int. rewrite FP_F_eq, (i64_id (16110 * load)) by lia.
  pose proof (quot_sign (16110 * load) 16384). set (q := Z.quot _ _) in *.
  rewrite (i32_id q), (i32_id (273 * n)), i32_id by lia. lia.
Qed.

Lemma recent_coef_ok (load : Z) :
  0 ≤ load ≤ 268435456 → ∃ c, fp_div (fp_mul_int load 2) (fp_add_int (fp_mul_int load 2) 1) = Ok c.
Proof.
  intros Hl. unfold fp_div, fp_mul_int, fp_add_int. change (i32 (1 * FP_F)) with 16384.
  rewrite (i32_id (load * 2)), (i32_id (load * 2 + 16384)) by lia. rewrite idiv_ok by lia. by eexists.
Qed.

Section mlfqs.
Implicit Types (s : kstate) (t c n : loc) (th : thread) (l : loc) (r : sema_ref) (fs rest : list frame).

(** The threads that [thread_foreach] visits. *)
Lemma all_reprio s s' t : Core s → Reprio s s' → t ∈ all_list s → is_Some (threads s' !! t).
Proof.
  intros HC HR Ht. apply (c_all s HC) in Ht as (th & E & _). eapply reprio_is_some; [exact HR |]. by eexists.
Qed.

Lemma foreach_reprio s f (P : kstate → Prop) :
  Core s → intr_on s = false → P s →
  (∀ t s1, t ∈ all_list s → Reprio s s1 → P s1 → wp (f t) s1 (λ _ s2, Reprio s1 s2 ∧ P s2)) →
  wp (thread_foreach f) s (λ _ s', Reprio s s' ∧ P s').
Proof.
  intros HC Hoff HP Hf. unfold thread_foreach. k1. k1. k1. apply wp_assert; [by rewrite Hoff |]. k1. k1.
  apply (for_each_rule (λ _ s1, Reprio s s1 ∧ P s1)); [split; [apply reprio_refl | done] |].
  intros dn t todo s1 Hq [HR HP1]. eapply wp_mono; [apply Hf; [rewrite Hq; set_solver | done..] |].
  intros ? s2 [HR2 HP2]. split; [by eapply reprio_trans | done].
Qed.

Lemma recent_cpu_loop s :
  Core s → intr_on s = false →
  wp (thread_foreach thread_update_recent_cpu) s
    (λ _ s', Reprio s s' ∧ ∀ t, prio s' t = prio s t).
Proof.
  intros HC Hoff. apply (foreach_reprio s _ (λ s', ∀ t, prio s' t = prio s t)); [done..|].
  intros t s1 Ht HR HP. destruct (all_reprio s s1 t HC HR Ht) as [th E].
  destruct HR as [_ (_ & _ & _ & _ & _ & _ & _ & _ & _ & _ & ELd & _)].
  destruct (recent_coef_ok (load_avg s1)) as [cf Hcf]; [rewrite ELd; apply (c_load s HC) |].
  unfold thread_update_recent_cpu. k1. k1. k1. eapply wp_lift; [exact Hcf |].
  eapply run_mod_thread; [exact E |]. split; [by apply reprio_mod |].
  intros u. rewrite <-HP. unfold prio. cbn. rewrite lookup_alter. case_decide; [subst; by rewrite E | done].
Qed.

Lemma calc_priority_reprio s t :
  is_Some (threads s !! t) → intr_on s = false → wp (thread_calc_priority t) s (λ _ s', Reprio s s').
Proof.
  intros [th E] Hoff. destruct (mlfqs_priority_ok (recent_cpu th) (nice th)) as [p Hp].
  unfold thread_calc_priority. k1. k1. k1. apply wp_assert; [by rewrite Hoff |].
  k1. eapply run_get_thread; [exact E |]. k1. eapply wp_lift; [exact Hp |].
  eapply run_mod_thread; [exact E |]. by apply reprio_mod.
Qed.

Lemma priority_loop s :
  Core s → intr_on s = false → wp (thread_foreach thread_update_priority) s (λ _ s', Reprio s s').
Proof.
  intros HC Hoff. eapply wp_mono; [apply (foreach_reprio s _ (λ _, True)); [done..|] | by intros ? s' [? _]].
  intros t s1 Ht HR _. pose proof (all_reprio s s1 t HC HR Ht) as Hsome.
  unfold thread_update_priority. k1. k1. case_decide.
  - eapply wp_mono; [apply calc_priority_reprio; [done |] | by intros]. destruct HR as [_ HR].
    destruct HR as (_ & _ & _ & _ & _ & _ & _ & _ & _ & _ & _ & _ & -> & _). done.
  - k1. split; [apply reprio_refl | done].
Qed.

(** A [Reprio] that keeps the priorities keeps everything. *)
Lemma handler_reprio_prio s s' rest :
  Handler s rest → Reprio s s' → (∀ t, prio s' t = prio s t) → Handler s' rest.
Proof.
  intros HH HR Hp. pose proof HH as [HC _ _ _ _]. pose proof HR as [_ (ER & _ & _ & _ & _ & _ & _ & _ & _ & _ & ELd & _)].
  eapply (handler_reprio s s' s'); try done; rewrite ?ER, ?ELd; [done | | | apply (c_load s HC)].
  - eapply sorted_ext; [| apply (c_ready_sorted s HC)]. intros x y _ _.
    unfold le_of, thread_priority_greater. by rewrite !Hp.
  - intros Hm r x Hr. eapply sorted_ext; [| by apply (c_wait_sorted s HC Hm r)]. intros y z _ _.
    unfold le_of, thread_priority_greater. by rewrite !Hp.
Qed.

Lemma asked_same s s' :
  ready_list s' = ready_list s → running s' = running s → yield_on_return s' = yield_on_return s →
  (∀ t, prio s' t = prio s t) → asked s → asked s'.
Proof.
  intros E1 E2 E3 Hp. unfold asked, need_preempt. rewrite E1, E2, E3.
  destruct (ready_list s); [done |]. by rewrite !Hp.
Qed.

Lemma ready_length s : Core s → Z.of_nat (length (ready_list s)) ≤ 16384.
Proof.
  intros HC. apply (bounded_length _ RAM_PAGES); [apply (c_ready_nodup s HC) |].
  intros t Ht. destruct (c_ready s HC t Ht) as (th & E & _). by eapply (c_page s HC).
Qed.

Lemma mlfqs_priorities s rest :
  Handler s rest → thread_mlfqs s = true →
  wp (thread_foreach thread_update_priority;;
      st_modify (λ s, set_ready_list (sort_seq (thread_priority_greater s)) s);;
      thread_check_preempt) s (λ _ s', Handler s' rest ∧ asked s' ∧ Tail s s').
Proof.
  intros HH Hm. pose proof HH as [HC _ _ _ Hoff]. k1.
  eapply wp_mono; [by apply priority_loop |]. intros ? s1 HR. k1. k1.
  set (s2 := set_ready_list _ s1).
  assert (Handler s2 rest) as HH2.
  { pose proof HR as [_ (ER & _ & _ & _ & _ & _ & _ & _ & _ & _ & ELd & _)].
    eapply (handler_reprio s s1 s2); try done.
    - change (ready_list s2) with (sort_seq (thread_priority_greater s1) (ready_list s1)).
      rewrite (sort_seq_perm (thread_priority_greater s1)). by rewrite ER.
    - change (StronglySorted (le_of (thread_priority_greater s1))
        (sort_seq (thread_priority_greater s1) (ready_list s1))).
      apply sort_seq_sorted; apply _.
    - congruence.
    - change (load_avg s2) with (load_avg s1). rewrite ELd. apply (c_load s HC). }
  eapply wp_mono; [by eapply handler_check |]. intros ? s' [Hf Ha].
  split_and!; [by eapply handler_flag | done |].
  eapply (tail_trans s s1); [exact (tail_reprio s s1 HR) |].
  eapply (tail_trans s1 s2); [by apply tail_same | by apply tail_flag].
Qed.

Lemma handler_mlfqs s rest :
  Handler s rest → thread_mlfqs s = true → asked s →
  wp thread_mlfqs_tick s (λ _ s', Handler s' rest ∧ asked s' ∧ Tail s s').
Proof.
  intros HH Hm Ha. pose proof HH as [HC (th & Er & Est & Ek) H1 Hctx Hoff].
  unfold thread_mlfqs_tick, timer_ticks. kx. rewrite Hoff. unfold intr_set_level. kx.
  assert (set_intr_on (λ _, false) (set_intr_on (λ _, false) s) = s) as Hs by (destruct s; cbn in *; by subst).
  rewrite Hs. change (ticks (set_intr_on (λ _, false) s)) with (ticks s).
  apply (wp_mono _ _ (λ _ s', Reprio s s' ∧ ∀ t, prio s' t = prio s t)).
  { destruct (decide _); [| k1; split; [apply reprio_refl | done]].
    eapply run_mod_thread; [exact Er |]. split; [by apply reprio_mod |].
    intros u. unfold prio. cbn. rewrite lookup_alter. case_decide as Hu; [rewrite <-Hu, Er |]; done. }
  intros ? s1 [HR1 Hp1]. pose proof (handler_reprio_prio s s1 rest HH HR1 Hp1) as HH1.
  pose proof HR1 as [_ (ER1 & _ & _ & ERun1 & _ & _ & EM1 & _ & _ & _ & ELd1 & _ & _ & EY1 & _)].
  assert (asked s1) as Ha1 by (by eapply asked_same).
  pose proof (tail_reprio _ _ HR1) as HT1.
  k1. apply (wp_mono _ _ (λ _ s', Handler s' rest ∧ asked s' ∧ thread_mlfqs s' = true ∧ Tail s s')).
  { destruct (Z.rem (ticks s) TIMER_FREQ =? 0); [| k1; split_and!; [done | done | congruence | done]].
    k1. k1. pose proof HH1 as [HC1 _ _ _ Hoff1]. pose proof (ready_length s1 HC1) as Hlen.
    set (b := if decide _ then 1 else 0).
    assert (0 ≤ b ≤ 1) as Hb by (unfold b; case_decide; lia).
    rewrite (u32_id (Z.of_nat _)) by lia. rewrite (i32_id (Z.of_nat _)) by lia. rewrite i32_id by lia.
    destruct (new_load_avg_ok (load_avg s1) (Z.of_nat (length (ready_list s1)) + b)) as (v & Hv & Hvb);
      [apply (c_load s1 HC1) | lia |].
    k1. eapply wp_lift; [exact Hv |]. k1. k1.
    assert (Handler (set_load_avg (λ _, v) s1) rest) as HH2.
    { apply (handler_reprio s1 s1 (set_load_avg (λ _, v) s1)); try reflexivity;
        [done | apply reprio_refl | apply (c_ready_sorted s1 HC1) | | done].
      intros Hm1 r x Hr. by apply (c_wait_sorted s1 HC1 Hm1 r x). }
    eapply wp_mono; [apply recent_cpu_loop; [apply (h_core _ _ HH2) | done] |].
    intros ? s2 [HR2 Hp2]. split_and!; [by eapply handler_reprio_prio | | |].
    - destruct HR2 as [_ (ER2 & _ & _ & ERun2 & _ & _ & EM2 & _ & _ & _ & ELd2 & _ & _ & EY2 & _)].
      by eapply (asked_same s1).
    - destruct HR2 as [_ (ER2 & _ & _ & ERun2 & _ & _ & EM2 & _)]. rewrite EM2. cbn. congruence.
    - eapply tail_trans; [exact HT1 |]. eapply tail_trans; [| by apply tail_reprio]. by apply tail_same. }
  intros ? s2 (HH2 & Ha2 & Hm2 & HT2). destruct (Z.rem (ticks s) TIME_SLICE =? 0).
  - eapply wp_mono; [by apply mlfqs_priorities |]. intros ? s' (? & ? & ?).
    split_and!; [done.. | by eapply tail_trans].
  - by k1.
Qed.
End mlfqs.

(** ** The whole tick *)

Section tick.
Implicit Types (s : kstate) (t c n : loc) (th : thread) (l : loc) (r : sema_ref) (fs rest : list frame).

(** [thread_wake_up] in the handler. *)
Lemma handler_wake_up s rest :
  Handler s rest → wp thread_wake_up s (λ _ s', Handler s' rest ∧ asked s' ∧
    thread_prior_aging s' = thread_prior_aging s ∧ thread_mlfqs s' = thread_mlfqs s ∧
    ∃ s1, Woken (ticks s) s s1 ∧ only_flag s1 s').
Proof.
  intros HH. pose proof HH as [HC (th & Er & Est & Ek) H1 Hctx Hoff].
  unfold thread_wake_up, timer_ticks. kx. rewrite Hoff. unfold intr_set_level. kx.
  assert (set_intr_on (λ _, false) (set_intr_on (λ _, false) s) = s) as -> by (destruct s; cbn in *; by subst).
  change (ticks (set_intr_on (λ _, false) s)) with (ticks s).
  eapply wp_mono; [by apply wake_up_loop_correct |]. intros ? s1 [HW HH1].
  eapply wp_mono; [by eapply handler_check |]. intros ? s' [Hf Ha].
  pose proof HW as [_ _ _ (_ & EM & _ & EAg)].
  split_and!; [by eapply handler_flag | done | | | by exists s1]; by destruct Hf as [->| ->].
Qed.

Lemma handler_tick s rest :
  Handler s rest → wp thread_tick s (λ _ s', Handler s' rest ∧ asked s' ∧
    ∃ s1, Woken (ticks s) s s1 ∧ Tail s1 s').
Proof.
  intros HH. pose proof HH as [HC (th & Er & Est & Ek) H1 Hctx Hoff].
  unfold thread_tick. kx.
  set (same := λ s' : kstate, (threads s' = threads s ∧ Sleep_list s' = Sleep_list s ∧
    ready_list s' = ready_list s ∧ running s' = running s ∧ ticks s' = ticks s) ∧
    thread_prior_aging s' = thread_prior_aging s ∧ thread_mlfqs s' = thread_mlfqs s ∧
    in_external_intr s' = true ∧ Handler s' rest).
  apply (wp_mono _ _ (λ _ s', same s')).
  { destruct (decide _); k1; split_and!; try done; by eapply (handler_irrelevant s). }
  intros ? s1 (E1 & E3 & E4 & E5 & HH1). k1. k1. k1. k1. k1.
  set (s2 := set_thread_ticks _ s1).
  assert (Handler s2 rest) as HH2.
  { pose proof HH1 as [_ _ _ _ ?]. by eapply (handler_irrelevant s1). }
  apply (wp_mono _ _ (λ _ s', same s')).
  { destruct (_ <=? _); [| k1; exact (conj E1 (conj E3 (conj E4 (conj E5 HH2))))]. unfold intr_yield_on_return. k1. k1. k1. apply wp_assert; [done |]. k1.
    refine (conj E1 (conj E3 (conj E4 (conj E5 _)))).
    pose proof HH2 as [_ _ _ _ ?]. by eapply (handler_irrelevant s2). }
  intros ? s3 ((F1 & F2 & F6 & F7 & F8) & F3 & F4 & F5 & HH3). k1.
  eapply wp_mono; [by eapply handler_wake_up |]. intros ? s4 (HH4 & Ha4 & G1 & G2 & sw & HW & Hfw).
  assert (Woken (ticks s) s sw) as HW'.
  { rewrite F8 in HW. destruct HW as [W1 W2 W3 (W4 & W5 & W6 & W7)].
    assert (∀ t, wake s3 t = wake s t) as Hwk by (intros t; unfold wake; by rewrite F1).
    split; [| | | by split_and!; congruence].
    - rewrite W1, F2. apply list_filter_iff. intros t. by rewrite Hwk.
    - intros t. by rewrite W2, F2, Hwk, F1.
    - rewrite W3, F2, F6. f_equiv. erewrite list_filter_iff; [reflexivity |]. intros t. by rewrite Hwk. }
  pose proof (tail_flag _ _ Hfw) as HT4.
  k1. apply (wp_mono _ _ (λ _ s', Handler s' rest ∧ asked s' ∧ thread_mlfqs s' = thread_mlfqs s ∧ Tail sw s')).
  { destruct (thread_prior_aging s2).
    - eapply wp_mono; [by eapply handler_aging |]. intros ? s5 (HH5 & Hf & Ha5). split_and!; [done..| |].
      + destruct Hf as [->| ->]; cbn; congruence.
      + eapply tail_trans; [exact HT4 |]. eapply tail_trans; [| by apply tail_flag].
        apply tail_reprio, aged_reprio, (c_ready_nodup s4 (h_core _ _ HH4)).
    - k1. split_and!; [done..| congruence | done]. }
  intros ? s5 (HH5 & Ha5 & G5 & HT5). change (thread_mlfqs s2) with (thread_mlfqs s1). rewrite E4. destruct (thread_mlfqs s) eqn:Hm.
  - eapply wp_mono; [by apply handler_mlfqs |]. intros ? s' (? & ? & ?).
    split_and!; [done..| exists sw; split; [done | by eapply tail_trans]].
  - k1. split_and!; [done..| by exists sw].
Qed.

Lemma set_threads_same s f : f (threads s) = threads s → set_threads f s = s.
Proof. intros E. unfold set_threads. rewrite E. by destruct s. Qed.

(** The handler returns to the interrupted thread. *)
Lemma handler_return s s' rest :
  Handler s rest → s' = set_in_external_intr (λ _, false) s →
  (yield_on_return s = false → asked s) →
  wp (if yield_on_return s' then thread_yield else mret tt) s' (λ _ s2, Inv s2 ∧ resched s s2).
Proof.
  intros HH -> Ha. pose proof HH as [HC (th & Er & Est & Ek) H1 Hctx Hoff].
  set (s1 := set_in_external_intr (λ _, false) s).
  assert (Active s1 th) as HA.
  { split; [by eapply (core_irrelevant s) | done..]. }
  destruct (active_facts s1 th HA) as (Hsh & Hu & Hlk & Href).
  change (yield_on_return s1) with (yield_on_return s). destruct (yield_on_return s) eqn:Hy.
  - (* the state with one more [KIret], which [yield_correct] pops *)
    set (th2 := set_stack (λ _, KIret :: stack th) th).
    set (s2 := upd_thread (running s1) (set_stack (λ _, KIret :: stack th)) s1).
    assert (Active s2 th2) as HA2.
    { eapply (active_local s1 s2 th th2 HA); [| done].
      eapply (neutral_local s1 s2 th th2 [] [KIret] (stack th)); try done.
      - by apply Forall_singleton.
      - unfold s2. norm. reflexivity.
      - unfold th2. cbn. revert Hsh. unfold shape_ok. destruct (decide _); [by destruct (idle_thread s1) |].
        intros. by constructor.
      - unfold th2. cbn. rewrite Ek in Hu |- *. by constructor.
      - intros r. rewrite (awake_other r th KIret rest) by done. apply awake_nonneg.
      - constructor; done. }
    apply (wp_mono _ _ (λ _ s', Inv s' ∧ resched s2 s')); cycle 1.
    { intros ? s' [HI' (R1 & R2 & R3)]. split; [done |]. split_and!; [done..|]. intros t th0 E0 Ht. apply R3; [| done].
      unfold s2. cbn. by rewrite lookup_alter_ne. }
    eapply (yield_correct s2 th2 HA2 s1 (stack th) KIret eq_refl).
    + by split_and!.
    + done.
    + revert Hsh. unfold shape_ok. change (running s2) with (running s1). change (idle_thread s2) with (idle_thread s1).
      destruct (decide _); [by destruct (idle_thread s1) |]. intros. by constructor.
    + done.
    + symmetry. apply (set_threads_same s1 (λ m, alter (set_stack (λ _, stack th)) (running s1)
        (alter (set_stack (λ _, KIret :: stack th)) (running s1) m))).
      rewrite (alter_to_insert _ (threads s1) (running s1) th Er), alter_insert_same.
      apply insert_id. transitivity (Some th); [exact Er | by destruct th].
  - k1. pose proof HA as [HC1 _ _ _ _]. split; [| split_and!; [done.. | eauto 10]].
    split; [done | by exists th | done | | | done |].
    + rewrite (active_stack s1 th HA), Ek. done.
    + rewrite (active_stack s1 th HA), Ek. done.
    + intros Hn. specialize (Ha eq_refl). unfold asked in Ha. change (need_preempt s (running s) = true) in Hn.
      specialize (Ha Hn). congruence.
Qed.

(** The effect of a tick on the clock and on the sleepers. *)
Definition ticked s s' : Prop :=
  let now := i64 (ticks s + 1) in
  ticks s' = now ∧
  Sleep_list s' = filter (λ t, now < wake s t) (Sleep_list s) ∧
  ∀ t th, t ∈ Sleep_list s → threads s !! t = Some th → ∃ th', threads s' !! t = Some th' ∧
    wakeup_tick th' = wakeup_tick th ∧
    (wakeup_tick th ≤ now → status th' = THREAD_READY ∨ status th' = THREAD_RUNNING).

Lemma ticked_compose s s2 sw s4 s5 :
  Core s → (∀ th, threads s !! running s = Some th → status th = THREAD_RUNNING) →
  ticks s2 = i64 (ticks s + 1) → Sleep_list s2 = Sleep_list s → running s2 = running s →
  (∀ t, t ≠ running s → threads s2 !! t = threads s !! t) →
  Woken (ticks s2) s2 sw → Tail sw s4 → resched s4 s5 → ticked s s5.
Proof.
  intros HC Hr ETk ES ERun ET [W1 W2 _ (W4 & _ & W6 & _)] [T1 (T2 & T3 & T4)] (R1 & R2 & R3).
  assert (∀ t, t ∈ Sleep_list s → t ≠ running s) as Hne.
  { intros t Ht ->. destruct (c_sleep s HC _ Ht) as (th & _ & _ & E & Eb & _). specialize (Hr th E). congruence. }
  assert (∀ t, t ∈ Sleep_list s → wake s2 t = wake s t) as Hwk.
  { intros t Ht. unfold wake. by rewrite ET by auto. }
  split_and!; [congruence | |].
  - rewrite R1, T2, W1, ES, ETk. clear -Hwk. induction (Sleep_list s) as [|t q IH]; [done |].
    rewrite !filter_cons, Hwk by left. rewrite IH; [done |]. intros u Hu. apply Hwk. by right.
  - intros t th Ht E. pose proof (Hne t Ht) as Hnr.
    assert (wake s2 t = wakeup_tick th) as Hw by (rewrite Hwk by done; unfold wake; by rewrite E).
    assert (∃ thw, threads sw !! t = Some thw ∧ wakeup_tick thw = wakeup_tick th ∧
      (wakeup_tick th ≤ i64 (ticks s + 1) → status thw = THREAD_READY)) as (thw & Ew & Hww & Hst).
    { rewrite W2, ET, E, ES, Hw, ETk by done. destruct (decide _) as [|Hn]; eexists; (split_and!; [done..|]); [done |].
      intros Hle. exfalso. by apply Hn. }
    specialize (T1 t). rewrite Ew in T1. inversion T1 as [a th4 (_ & Hs4 & _ & Hw4 & _) Ea E4|]. symmetry in E4.
    destruct (R3 t th4 E4) as (th' & E' & Hw' & Hs'); [congruence |]. exists th'.
    split_and!; [done | congruence |]. intros Hle. specialize (Hst Hle). destruct Hs'; [left | right]; congruence.
Qed.

Lemma interrupt_ok s : Inv s → enabled Tick s = true → wp (exec Tick) s (λ _ s', Inv s' ∧ ticked s s').
Proof.
  intros HI Hon. cbn in Hon. destruct (inv_active s HI) as (th & HA & Hrs).
  pose proof HA as [HC Er Est H1 Hx]. unfold exec, interrupt. k1. k1. k1.
  rewrite Hrs.
  set (th1 := set_stack (λ _, halt_over (stack th)) th).
  apply (wp_mono _ _ (λ _ s1, s1 = set_threads (<[running s := th1]>) s)).
  { assert (th1 = th → set_threads (<[running s := th1]>) s = s) as Hs.
    { intros ->. unfold set_threads. destruct s; cbn in *. f_equal. by apply insert_id. }
    unfold halt_over in th1. unfold th1. destruct (stack th) as [|f fs] eqn:Ek.
    - k1. symmetry. apply Hs. unfold th1. destruct th; cbn in *. by subst.
    - destruct f; try (k1; symmetry; apply Hs; unfold th1; destruct th; cbn in *; by subst).
      eapply run_mod_thread; [exact Er |]. unfold upd_thread, set_threads. f_equal.
      by rewrite (alter_to_insert _ _ _ _ Er). }
  intros ? s1 ->. k1. eapply wp_push; [cbn; by rewrite lookup_insert_eq |].
  k1. k1. k1. k1. k1. apply wp_assert; [done |]. k1. k1. k1. apply wp_assert; [cbn; by rewrite Hx |].
  k1. k1. k1. k1. k1. unfold timer_interrupt. k1. k1.
  match goal with |- wp thread_tick ?S _ => set (s2 := S) end.
  assert (Handler s2 (halt_over (stack th))) as HH.
  { eapply (enter_handler s s2 th HI HA Hon); try done.
    unfold s2. cbn. rewrite alter_insert_same. unfold th1. done. }
  eapply wp_mono; [by eapply handler_tick |]. intros ? s3 (HH3 & Ha3 & sw & HW & HT).
  pose proof HH3 as [_ _ _ Hctx3 Hoff3].
  k1. k1. k1. apply wp_assert; [by rewrite Hoff3 |]. k1. k1. k1. apply wp_assert; [by rewrite Hctx3 |].
  k1. k1. k1. k1.
  set (s4 := set_in_external_intr (λ _, false) s3).
  eapply wp_mono; [by eapply handler_return |]. intros ? s5 [HI5 HR5]. split; [done |].
  eapply (ticked_compose s s2 sw s3 s5); try done; [congruence |].
  intros t Ht. unfold s2. cbn. by rewrite lookup_alter_ne, lookup_insert_ne.
Qed.
End tick.
