(* ===== verification/KernelThm.v ===== *)
(** What the scheduler, the synchronization primitives and the timer promise:
    the properties of threads/thread.c, threads/synch.c and devices/timer.c. *)
From S2P Require Import Prelude ListSpec FixedPoint Kstate Interrupt Thread Synch Timer Machine KernelInv KernelStep KernelCall KernelTick.
Local Open Scope Z_scope.

(** ** The booted machine *)

Definition boot_main : thread :=
  mk_thread 1 THREAD_RUNNING [109; 97; 105; 110] 31 0 0 0 [KSemaDown (SemaAt 1)].
Definition boot_idle : thread :=
  mk_thread 2 THREAD_READY [105; 100; 108; 101] 0 0 0 0 [KKernelThread; KIdle (SemaAt 1)].

Definition booted (aging mlfqs : bool) : kstate :=
  mk_kstate (<[1%positive := boot_main]> (<[2%positive := boot_idle]> ∅)) [2%positive] []
    [1%positive; 2%positive] 1%positive None 1%positive true false false 0 0 0 0 0 3 aging mlfqs
    (<[LockSema 1 := mk_sema 1 []]> (<[SemaAt 1 := mk_sema 0 []]> ∅))
    (<[1%positive := None]> ∅) ∅.

Lemma boot_booted aging mlfqs : boot aging mlfqs = Ok (tt, booted aging mlfqs).
Proof. by destruct aging, mlfqs; vm_compute. Qed.

Section booted.
Context (aging mlfqs : bool).
Let s := booted aging mlfqs.

Lemma booted_threads t th : threads s !! t = Some th →
  (t = 1%positive ∧ th = boot_main) ∨ (t = 2%positive ∧ th = boot_idle).
Proof.
  unfold s, booted. cbn. rewrite !lookup_insert_Some. intros [[<- <-]|[_ [[<- <-]|[_ H]]]]; [by left | by right |].
  by rewrite lookup_empty in H.
Qed.

Lemma booted_semas r x : semas s !! r = Some x →
  waiters x = [] ∧ 0 ≤ value x < 4294967296 ∧ (∀ l, r = LockSema l → l = 1%positive ∧ value x = 1).
Proof.
  unfold s, booted. cbn. rewrite !lookup_insert_Some. intros [[<- <-]|[_ [[<- <-]|[_ H]]]].
  - split_and!; [done.. |]. by intros l [= <-].
  - by split_and!.
  - by rewrite lookup_empty in H.
Qed.

Lemma booted_locks l h : locks s !! l = Some h → l = 1%positive ∧ h = None.
Proof.
  unfold s, booted. cbn. rewrite lookup_insert_Some. intros [[<- <-]|[_ H]]; [done |].
  by rewrite lookup_empty in H.
Qed.

Lemma booted_core : Core s.
Proof.
  split.
  - intros t Ht. apply list_elem_of_singleton in Ht as ->. by exists boot_idle.
  - apply NoDup_singleton.
  - intros t th [[-> ->]|[-> ->]]%booted_threads; [done |]. intros _. split; [done |]. left. left.
  - intros t Ht. by apply not_elem_of_nil in Ht.
  - constructor.
  - intros r x t (Hw & _)%booted_semas Ht. rewrite Hw in Ht. by apply not_elem_of_nil in Ht.
  - intros r x (Hw & ? & _)%booted_semas. rewrite Hw. split; [constructor | done].
  - intros r x (Hw & _)%booted_semas Hne. by rewrite Hw in Hne.
  - by intros t th [[-> ->]|[-> ->]]%booted_threads.
  - repeat constructor.
  - constructor.
  - intros _ r x (Hw & _)%booted_semas. rewrite Hw. constructor.
  - intros t. cbn. rewrite !elem_of_cons. split.
    + intros [->|[->|H]]; [by exists boot_main | by exists boot_idle | by apply not_elem_of_nil in H].
    + intros (th & [[-> ->]|[-> ->]]%booted_threads & _); auto.
  - cbn. repeat constructor; set_solver.
  - by intros t th [[-> ->]|[-> ->]]%booted_threads.
  - by exists boot_idle.
  - intros t th Ht [[-> ->]|[-> ->]]%booted_threads; [| done]. by repeat constructor.
  - by intros c th t b [[-> ->]|[-> ->]]%booted_threads.
  - intros c th [[-> ->]|[-> ->]]%booted_threads; left; by repeat constructor.
  - by intros c1 c2 th1 th2 t b1 b2 [[-> ->]|[-> ->]]%booted_threads.
  - intros l h [-> ->]%booted_locks. exists (mk_sema 1 []). split; [done |].
    rewrite total_0; [done |]. by intros t th [[-> ->]|[-> ->]]%booted_threads.
  - intros l [x Hx]. destruct (booted_semas _ _ Hx) as (_ & _ & H). destruct (H l eq_refl) as [-> _]. by eexists.
  - exists None. by split.
  - by intros t th [[-> ->]|[-> ->]]%booted_threads.
  - intros t th [[-> ->]|[-> ->]]%booted_threads; repeat constructor; by eexists.
  - intros c w t Hc. change ((∅ : gmap loc (list loc)) !! c = Some w) in Hc. by rewrite lookup_empty in Hc.
  - intros t th [[-> ->]|[-> ->]]%booted_threads; by repeat constructor.
  - by intros t th [[-> ->]|[-> ->]]%booted_threads.
  - done.
Qed.

Lemma booted_inv : Inv s.
Proof.
  split; [apply booted_core | by exists boot_main | | done | done | done | done].
  by intros t th [[-> ->]|[-> ->]]%booted_threads.
Qed.
End booted.

Lemma exec_ok s l : Inv s → enabled l s = true → wp (exec l) s (λ _ s', Inv s').
Proof.
  intros HI Hen. destruct l as [c| |].
  - by apply call_ok.
  - destruct (inv_active s HI) as (th & HA & _). by apply (resume_ok s th HI HA).
  - eapply wp_mono; [by apply interrupt_ok | by intros ? s' [? _]].
Qed.

Lemma reachable_inv aging mlfqs s : reachable aging mlfqs s → Inv s.
Proof.
  induction 1 as [s Hb|s l s' _ IH Hst].
  - rewrite boot_booted in Hb. injection Hb as <-. apply booted_inv.
  - destruct Hst as [s l s' Hen Hex]. destruct (exec_ok s l IH Hen) as (a & s2 & E & HI).
    rewrite Hex in E. by injection E as <- <-.
Qed.

Lemma wp_ok {A} (m : K A) s (Q : A → kstate → Prop) a s' : wp m s Q → m s = Ok (a, s') → Q a s'.
Proof. intros (b & s2 & E & H) E'. rewrite E in E'. by injection E' as <- <-. Qed.

(** ** Safety and progress *)

Lemma reachable_exec aging mlfqs s l :
  reachable aging mlfqs s → enabled l s = true → ∃ s', exec l s = Ok (tt, s') ∧ reachable aging mlfqs s'.
Proof.
  intros Hr Hen. destruct (exec_ok s l (reachable_inv _ _ _ Hr) Hen) as ([] & s' & E & _).
  exists s'. split; [done |]. eapply reach_step; [exact Hr |]. by constructor.
Qed.

(** C1: The machine boots, and no reachable enabled step faults: no assertion
    of thread.c, synch.c, interrupt.c or timer.c fails, no bad pointer is
    followed, no division traps, and every loop ends within its bound. *)
Theorem kernel_never_faults aging mlfqs :
  (∃ s, boot aging mlfqs = Ok (tt, s)) ∧
  ∀ s l, reachable aging mlfqs s → enabled l s = true →
    ∃ s', exec l s = Ok (tt, s') ∧ reachable aging mlfqs s'.
Proof.
  split; [eexists; apply boot_booted |]. apply reachable_exec.
Qed.

(** A run of the machine; the states a witness needs. *)
Fixpoint run (ls : list label) (s : kstate) : option kstate :=
  match ls with
  | [] => Some s
  | l :: ls => if enabled l s then match exec l s with Ok (_, s') => run ls s' | Err _ => None end else None
  end.

Lemma run_reachable aging mlfqs ls s s' :
  reachable aging mlfqs s → run ls s = Some s' → reachable aging mlfqs s'.
Proof.
  revert s. induction ls as [|l ls IH]; intros s Hr; simpl; [by intros [= <-] |].
  destruct (enabled l s) eqn:Hen; [| done]. destruct (exec l s) as [[[] s1]|] eqn:E; [| done].
  apply IH. eapply reach_step; [exact Hr |]. by constructor.
Qed.

(** The main thread runs [ls] after the idle thread has started. *)
Definition started (aging mlfqs : bool) (ls : list label) : option kstate :=
  run (replicate 7 Resume ++ ls) (booted aging mlfqs).

Lemma started_reachable aging mlfqs ls s :
  started aging mlfqs ls = Some s → reachable aging mlfqs s.
Proof. apply run_reachable, reach_boot, boot_booted. Qed.

(** [holds_after aging mlfqs ls P]: the run [ls] is possible, and [P] holds of
    the state it leads to. *)
Definition holds_after (aging mlfqs : bool) (ls : list label) (P : kstate → Prop) : Prop :=
  match started aging mlfqs ls with Some s => P s | None => False end.

Lemma holds_after_intro aging mlfqs ls (P : kstate → Prop) :
  (if started aging mlfqs ls then true else false) = true →
  (∀ s, started aging mlfqs ls = Some s → reachable aging mlfqs s → P s) → holds_after aging mlfqs ls P.
Proof.
  unfold holds_after. intros Hd HP. destruct (started aging mlfqs ls) as [s|] eqn:E; [| done].
  apply HP; [done |]. by eapply started_reachable.
Qed.

Ltac after_run := apply holds_after_intro; [vm_compute; reflexivity |].
Ltac run_fact H := vm_compute in H; injection H as <-; vm_compute; reflexivity.

Lemma kernel_never_faults_witness :
  holds_after false true [Call ThreadYield; Resume] (λ s, ∃ s', exec Tick s = Ok (tt, s') ∧ reachable false true s').
Proof.
  after_run. intros s E Hr. apply (proj2 (kernel_never_faults false true) s Tick Hr). run_fact E.
Defined.

(** C6: The machine never gets stuck: in every reachable state the running
    thread continues a suspended call, or is free to make one, or is the idle
    thread, halted with interrupts on so that a tick arrives. *)
Theorem kernel_progress aging mlfqs s :
  reachable aging mlfqs s →
  (∃ s', step s Resume s') ∨ (run_stack s = [] ∧ ∃ s', step s (Call ThreadYield) s') ∨
  (run_stack s = [KHalted] ∧ Some (running s) = idle_thread s ∧ ∃ s', step s Tick s').
Proof.
  intros Hr. pose proof (reachable_inv _ _ _ Hr) as HI.
  assert (∀ l, enabled l s = true → ∃ s', step s l s') as Hstep.
  { intros l Hen. destruct (exec_ok s l HI Hen) as ([] & s' & E & _). exists s'. by constructor. }
  destruct (run_stack s) as [|f rest] eqn:Ers.
  - right. left. split; [done |]. apply Hstep. unfold enabled. by rewrite Ers.
  - destruct (decide (f = KHalted)) as [->|Hf].
    + right. right. destruct (inv_active s HI) as (th & HA & Hst). rewrite Ers in Hst.
      destruct (active_facts s th HA) as (Hsh & _). rewrite <-Hst in Hsh.
      destruct (c_idle s (i_core s HI)) as (thi & Ei & Hid). unfold shape_ok in Hsh.
      destruct (decide (running s = idle_page)) as [Hi|]; [| by apply Forall_cons in Hsh as [? _]].
      destruct (idle_thread s) as [i|]; [destruct Hid as [-> _] | by destruct rest].
      destruct rest; [| done]. split_and!; [done | by rewrite Hi |]. apply Hstep. cbn. by apply (i_halt s HI []).
    + left. apply Hstep. unfold enabled. rewrite Ers. by destruct f.
Qed.

Lemma kernel_progress_witness :
  holds_after false false [Call (TimerSleep 5)] (λ s,
    (∃ s', step s Resume s') ∨ (run_stack s = [] ∧ ∃ s', step s (Call ThreadYield) s') ∨
    (run_stack s = [KHalted] ∧ Some (running s) = idle_thread s ∧ ∃ s', step s Tick s')).
Proof. after_run. intros s _ Hr. by apply (kernel_progress false false s). Defined.

(** ** Scheduling *)

(** C2: The scheduler always runs a thread of the highest priority: unless the
    running thread is at a preemption point (its next step is
    [thread_check_preempt] or the [thread_yield] it decided on), no ready
    thread has a higher priority than the running one. *)
Theorem highest_priority_runs aging mlfqs s t th :
  reachable aging mlfqs s →
  match run_stack s with (KCheckPreempt | KYield) :: _ => False | _ => True end →
  threads s !! t = Some th → status th = THREAD_READY → idle_thread s ≠ Some t →
  prio s t ≤ prio s (running s).
Proof.
  intros Hr Htop E Est Hid. pose proof (reachable_inv _ _ _ Hr) as HI. pose proof (i_core s HI) as HC.
  destruct (c_ready_all s HC t th E Est) as [_ [Hin|?]]; [| done].
  pose proof (need_false s HI Htop) as Hn. pose proof (c_ready_sorted s HC) as Hs.
  unfold need_preempt in Hn. destruct (ready_list s) as [|u q]; [by apply not_elem_of_nil in Hin |].
  apply StronglySorted_inv in Hs as [_ Hs]. rewrite Forall_forall in Hs.
  apply elem_of_cons in Hin as [->|Hin]; [lia |].
  specialize (Hs t Hin). unfold le_of, thread_priority_greater in Hs. lia.
Qed.

Definition new_page : loc := 3%positive.
Definition create_labels (pri : Z) : list label := Call (ThreadCreate [116] pri (Some new_page)) :: replicate 10 Resume.

Lemma highest_priority_runs_witness :
  holds_after false false (create_labels 20) (λ s, prio s new_page ≤ prio s (running s)).
Proof.
  after_run. intros s E Hr. vm_compute in E. injection E as <-.
  by eapply (highest_priority_runs false false _ new_page _ Hr).
Defined.

(** Thread [t] is blocked at the end of [thread_sleep]: the step it continues
    with restores the interrupt level that [thread_sleep] saved. *)
Definition in_thread_sleep (s : kstate) (t : loc) : Prop :=
  ∃ th o r, threads s !! t = Some th ∧ status th = THREAD_BLOCKED ∧ stack th = KIntrSetLevel o :: r ∧
    idle_thread s ≠ Some t.

(** C7: The ready queue holds exactly the ready threads (the idle thread
    apart), once each, by descending priority; the sleep queue holds exactly
    the threads blocked in [thread_sleep], once each, by ascending wake-up
    tick; none of these waits for a semaphore. *)
Theorem queues_correct aging mlfqs s :
  reachable aging mlfqs s →
  (∀ t, t ∈ ready_list s ↔
     ∃ th, threads s !! t = Some th ∧ status th = THREAD_READY ∧ idle_thread s ≠ Some t) ∧
  NoDup (ready_list s) ∧ StronglySorted (λ a b, prio s b ≤ prio s a) (ready_list s) ∧
  (∀ t, t ∈ Sleep_list s ↔ in_thread_sleep s t) ∧
  NoDup (Sleep_list s) ∧ StronglySorted (λ a b, wake s a ≤ wake s b) (Sleep_list s) ∧
  (∀ t r x, t ∈ Sleep_list s → semas s !! r = Some x → t ∉ waiters x).
Proof.
  intros Hr. pose proof (i_core s (reachable_inv _ _ _ Hr)) as HC. split_and!.
  - intros t. split; [apply (c_ready s HC) |]. intros (th & E & Est & Hi).
    by destruct (c_ready_all s HC t th E Est) as [_ [?|?]].
  - apply (c_ready_nodup s HC).
  - eapply sorted_ext; [| apply (c_ready_sorted s HC)]. unfold le_of, thread_priority_greater. intros. lia.
  - intros t. split.
    + intros Ht. destruct (c_sleep s HC t Ht) as (th & o & r & E & Est & Hst & Hid). exists th, o, r.
      split_and!; [done.. |]. intros Hi. destruct (c_idle s HC) as (thi & _ & Hm). rewrite Hi in Hm. by destruct Hm.
    + intros (th & o & r & E & Est & Hst & Hid).
      destruct (c_blocked s HC t th E Est) as [?|[(r0 & x & Hx & Hw)|[?|(c & thc & b & Ec & Hcr)]]]; [done | | done |].
      * destruct (c_wait s HC r0 x t Hx Hw) as (th' & o' & fs & E' & _ & Hst'). congruence.
      * destruct (c_create s HC c thc t b Ec Hcr) as (_ & th' & E' & _ & [Hk|[_ Hk]]); congruence.
  - apply (c_sleep_nodup s HC).
  - eapply sorted_ext; [| apply (c_sleep_sorted s HC)]. unfold le_of, wakeup_tick_less. intros. lia.
  - intros t r x Ht Hx Hw. destruct (c_sleep s HC t Ht) as (th & o & fs & E & _ & Hst & _).
    destruct (c_wait s HC r x t Hx Hw) as (th' & o' & fs' & E' & _ & Hst'). congruence.
Qed.

Lemma queues_correct_witness :
  holds_after false false (create_labels 20 ++ [Call (TimerSleep 5); Resume; Resume; Resume]) (λ s,
    Sleep_list s = [main_page] ∧ in_thread_sleep s main_page ∧
    NoDup (ready_list s) ∧ StronglySorted (λ a b, prio s b ≤ prio s a) (ready_list s)).
Proof.
  after_run. intros s E Hr. destruct (queues_correct false false s Hr) as (_ & H1 & H2 & H3 & _).
  assert (Sleep_list s = [main_page]) as HS by (run_fact E).
  split_and!; [exact HS | | exact H1 | exact H2].
  apply H3. rewrite HS. left.
Defined.

(** C8: No thread is lost: every thread block is the running thread's, is in
    the ready queue, is the idle thread's, sleeps, waits for a semaphore, is
    being created by another thread, or is that of the initial thread after
    it has exited. *)
Theorem no_thread_is_lost aging mlfqs s t :
  reachable aging mlfqs s → is_Some (threads s !! t) →
  t = running s ∨ t ∈ ready_list s ∨ idle_thread s = Some t ∨ t ∈ Sleep_list s ∨
  (∃ r x, semas s !! r = Some x ∧ t ∈ waiters x) ∨
  (∃ c th b, threads s !! c = Some th ∧ create_stack t b (stack th)) ∨
  (t = initial_thread s ∧ ∃ th, threads s !! t = Some th ∧ status th = THREAD_DYING).
Proof.
  intros Hr [th E]. pose proof (reachable_inv _ _ _ Hr) as HI. pose proof (i_core s HI) as HC.
  destruct (status th) eqn:Est.
  - left. by apply (i_one s HI t th).
  - destruct (c_ready_all s HC t th E Est) as [_ [?|?]]; tauto.
  - destruct (c_blocked s HC t th E Est) as [?|[?|[?|?]]]; tauto.
  - destruct (c_dying s HC t th E Est) as (_ & _ & [?|?]); [| tauto].
    do 6 right. split; [done | by exists th].
Qed.

Lemma no_thread_is_lost_witness :
  holds_after false false [Call (TimerSleep 5); Resume; Resume] (λ s, main_page ≠ running s ∧
    main_page ∈ Sleep_list s).
Proof.
  after_run. intros s E Hr. assert (is_Some (threads s !! main_page)) as Hs.
  { vm_compute in E. injection E as <-. vm_compute. by eexists. }
  pose proof (no_thread_is_lost false false s main_page Hr Hs) as H.
  vm_compute in E. injection E as <-. split; [by vm_compute |].
  destruct H as [H|[H|[H|[H|[(r & x & Hx & Hw)|[(c & th & b & Hc & Hcr)|(_ & th & Hth & Hd)]]]]]].
  - by vm_compute in H.
  - vm_compute in H. by apply not_elem_of_nil in H.
  - by vm_compute in H.
  - exact H.
  - apply elem_of_map_to_list in Hx. vm_compute in Hx. repeat (apply elem_of_cons in Hx as [[= -> ->]|Hx]);
      first [by apply not_elem_of_nil in Hw | by apply not_elem_of_nil in Hx].
  - apply elem_of_map_to_list in Hc. vm_compute in Hc. repeat (apply elem_of_cons in Hc as [[= -> ->]|Hc]);
      first [by destruct Hcr | by apply not_elem_of_nil in Hc].
  - vm_compute in Hth. injection Hth as <-. by vm_compute in Hd.
Defined.

(** C4: A tick advances the clock and wakes exactly the sleepers whose time
    has come: the others stay asleep, in order. *)
Theorem tick_wakes_sleepers aging mlfqs s s' :
  reachable aging mlfqs s → step s Tick s' →
  let now := i64 (ticks s + 1) in
  ticks s' = now ∧ Sleep_list s' = filter (λ t, now < wake s t) (Sleep_list s) ∧
  ∀ t th, t ∈ Sleep_list s → threads s !! t = Some th → ∃ th', threads s' !! t = Some th' ∧
    wakeup_tick th' = wakeup_tick th ∧
    if decide (wakeup_tick th ≤ now) then status th' = THREAD_READY ∨ status th' = THREAD_RUNNING
    else status th' = THREAD_BLOCKED.
Proof.
  intros Hr Hst. inversion Hst as [s0 l0 s1 Hen Hex]; subst. intros now.
  pose proof (reachable_inv _ _ _ Hr) as HI.
  destruct (wp_ok _ _ _ _ _ (interrupt_ok s HI Hen) Hex) as [HI' (H1 & H2 & H3)].
  split_and!; [done..|]. intros t th Ht E. destruct (H3 t th Ht E) as (th' & E' & Hw & Hle).
  exists th'. split_and!; [done..|]. destruct (decide _) as [Hd|Hd]; [by apply Hle |].
  assert (t ∈ Sleep_list s') as Ht'.
  { rewrite H2. apply list_elem_of_filter. split; [| done]. unfold wake. rewrite E. unfold now in Hd. lia. }
  destruct (c_sleep s' (i_core s' HI') t Ht') as (th2 & _ & _ & E2 & ? & _). congruence.
Qed.

Lemma tick_wakes_sleepers_witness :
  holds_after false false ([Call (TimerSleep 1)] ++ replicate 3 Resume) (λ s,
    Sleep_list s = [main_page] ∧ ∃ s', step s Tick s' ∧ Sleep_list s' = [] ∧
      ∃ th', threads s' !! main_page = Some th' ∧ (status th' = THREAD_READY ∨ status th' = THREAD_RUNNING)).
Proof.
  after_run. intros s E Hr. split; [run_fact E |].
  destruct (reachable_exec false false s Tick Hr) as (s' & Hex & _); [run_fact E |].
  assert (step s Tick s') as Hst by (constructor; [run_fact E | done]).
  exists s'. split; [exact Hst |].
  destruct (tick_wakes_sleepers false false s s' Hr Hst) as (_ & HS & HT).
  vm_compute in E. injection E as <-. split; [rewrite HS; by vm_compute |].
  edestruct HT as (th' & E' & _ & Hs); [left | vm_compute; reflexivity |]. exists th'. split; [done |].
  revert Hs. by vm_compute.
Defined.

(** ** Synchronization *)

Lemma total_pos (f : thread → Z) (m : gmap loc thread) : 0 < total f m → ∃ t th, m !! t = Some th ∧ 0 < f th.
Proof.
  induction m as [|t th m Hm IH] using map_ind; [done |]. rewrite total_insert_new by done. intros H.
  destruct (Z.ltb_spec 0 (f th)); [exists t, th; by rewrite lookup_insert_eq |].
  destruct IH as (u & thu & E & ?); [lia |]. exists u, thu.
  split; [| done]. rewrite lookup_insert_ne; [done | congruence].
Qed.

Lemma total_ge2 (f : thread → Z) (m : gmap loc thread) t1 t2 th1 th2 :
  (∀ th, 0 ≤ f th) → t1 ≠ t2 → m !! t1 = Some th1 → m !! t2 = Some th2 → f th1 + f th2 ≤ total f m.
Proof.
  intros Hf Hne E1 E2. pose proof (total_delete f m t1 th1 E1).
  pose proof (total_ge f (delete t1 m) t2 th2 Hf). rewrite lookup_delete_ne in H0 by done. specialize (H0 E2). lia.
Qed.

(** Thread [t] has taken lock [l]: it is the holder, or it is about to become
    the holder, or it is about to give the semaphore back. *)
Definition in_lock (s : kstate) (l t : loc) : Prop :=
  holder_is s t l ∨ ∃ th, threads s !! t = Some th ∧ 0 < owned l (stack th).

(** C3: Locks exclude each other: at most one thread has taken a lock, and the
    lock's semaphore is 1 when nobody has and 0 when somebody has. *)
Theorem lock_mutual_exclusion aging mlfqs s l :
  reachable aging mlfqs s → is_Some (locks s !! l) →
  (∀ t1 t2, in_lock s l t1 → in_lock s l t2 → t1 = t2) ∧
  ∃ x, semas s !! LockSema l = Some x ∧
    ((value x = 1 ∧ ∀ t, ¬ in_lock s l t) ∨ (value x = 0 ∧ ∃ t, in_lock s l t)).
Proof.
  intros Hr [h Hl]. pose proof (i_core s (reachable_inv _ _ _ Hr)) as HC.
  destruct (c_locks s HC l h Hl) as (x & Hx & Hsum). destruct (c_wait_nodup s HC _ x Hx) as [_ Hv].
  set (f := λ th : thread, owned l (stack th)) in *.
  assert (∀ th, 0 ≤ f th) as Hf by (intros; apply owned_nonneg).
  pose proof (total_nonneg f (threads s) Hf) as Ht.
  assert (∀ t, holder_is s t l → holder_count h = 1) as Hhold.
  { intros t Hh. unfold holder_is in Hh. replace h with (Some t) by congruence. done. }
  assert (0 ≤ holder_count h) as Hh0 by (by destruct h).
  split.
  - intros t1 t2 [H1|(th1 & E1 & O1)] [H2|(th2 & E2 & O2)].
    + unfold holder_is in *. congruence.
    + specialize (Hhold t1 H1). pose proof (total_ge f _ _ _ Hf E2). unfold f in *. lia.
    + specialize (Hhold t2 H2). pose proof (total_ge f _ _ _ Hf E1). unfold f in *. lia.
    + destruct (decide (t1 = t2)) as [|Hne]; [done |].
      pose proof (total_ge2 f _ _ _ _ _ Hf Hne E1 E2). unfold f in *. lia.
  - exists x. split; [done |]. destruct (decide (value x = 0)) as [Hz|Hz]; [right | left].
    + split; [done |]. destruct h as [t|]; [exists t; by left |].
      destruct (total_pos f (threads s)) as (t & th & E & O); [simpl in Hsum; lia |].
      exists t. right. by exists th.
    + split; [lia |]. intros t [H|(th & E & O)].
      * specialize (Hhold t H). lia.
      * pose proof (total_ge f _ _ _ Hf E). unfold f in *. lia.
Qed.

Lemma lock_mutual_exclusion_witness :
  holds_after false false ([Call (LockInit 7); Call (LockAcquire 7)] ++ replicate 2 Resume) (λ s,
    holder_is s main_page 7 ∧ ∀ t, in_lock s 7 t → t = main_page).
Proof.
  after_run. intros s E Hr.
  assert (holder_is s main_page 7 ∧ is_Some (locks s !! 7%positive)) as [Hh Hs].
  { vm_compute in E. injection E as <-. vm_compute. split; [done | by eexists]. }
  split; [exact Hh |]. clear E. intros t Ht.
  apply (proj1 (lock_mutual_exclusion false false s 7 Hr Hs)); [exact Ht | left; exact Hh].
Defined.

(** C5: No wake-up is lost: when threads wait for a semaphore whose value is
    positive, a thread that has been woken is about to retry [sema_down]. *)
Theorem no_lost_wakeup aging mlfqs s r x :
  reachable aging mlfqs s → semas s !! r = Some x → waiters x ≠ [] → 0 < value x →
  ∃ t th o fs, threads s !! t = Some th ∧ (status th = THREAD_READY ∨ status th = THREAD_RUNNING) ∧
    stack th = KSemaLoop r o :: fs.
Proof.
  intros Hr Hx Hw Hv. pose proof (i_core s (reachable_inv _ _ _ Hr)) as HC.
  pose proof (c_awake s HC r x Hx Hw). destruct (total_pos (awake r) (threads s)) as (t & th & E & Ha); [lia |].
  unfold awake in Ha. destruct (stack th) as [|f fs] eqn:Ek; [by destruct (status th) |].
  destruct f; try (destruct (status th); lia).
  destruct (status th) eqn:Est; try lia; case_decide; try lia; subst s0.
  - exists t, th, old_level, fs. auto.
  - exists t, th, old_level, fs. auto.
  - destruct (c_dying s HC t th E Est) as (Hk & _). congruence.
Qed.

(** Two threads of priorities 40 and 35 wait for the semaphore at 5. *)
Definition two_waiters : list label :=
  [Call (SemaInit 5 0); Call (ThreadCreate [97] 40 (Some 3%positive))] ++ replicate 12 Resume ++
  [Call (SemaDown 5); Resume; Resume; Call (ThreadCreate [98] 35 (Some 4%positive))] ++ replicate 12 Resume ++
  [Call (SemaDown 5); Resume; Resume].

Lemma no_lost_wakeup_witness :
  holds_after false false (two_waiters ++ [Call (SemaUp 5)]) (λ s, ∃ t th o fs, threads s !! t = Some th ∧
    (status th = THREAD_READY ∨ status th = THREAD_RUNNING) ∧ stack th = KSemaLoop (SemaAt 5) o :: fs).
Proof.
  after_run. intros s E Hr. apply (no_lost_wakeup false false s (SemaAt 5) (mk_sema 1 [4%positive]) Hr).
  - run_fact E.
  - discriminate.
  - reflexivity.
Defined.

(** C9: Without the multilevel feedback queue, [sema_up] wakes a waiter of the highest
    priority, the first of them in the order of arrival, and no other. *)
Theorem sema_up_wakes_highest aging mlfqs s a x s' :
  reachable aging mlfqs s → thread_mlfqs s = false → semas s !! SemaAt a = Some x → step s (Call (SemaUp a)) s' →
  semas s' !! SemaAt a = Some (mk_sema (u32 (value x + 1)) (List.tl (waiters x))) ∧
  match waiters x with
  | [] => ready_list s' = ready_list s
  | t :: q => ready_list s' ≡ₚ t :: ready_list s ∧ (∀ u, u ∈ q → prio s u ≤ prio s t) ∧
      ∃ th', threads s' !! t = Some th' ∧ status th' = THREAD_READY
  end.
Proof.
  intros Hr Hm Hx Hst. inversion Hst as [s0 l0 s1 Hen Hex]; subst.
  pose proof (reachable_inv _ _ _ Hr) as HI. destruct (inv_active s HI) as (th & HA & _).
  pose proof HA as [HC Er Est H1 Hctx].
  refine (wp_ok _ _ (λ _ s', _) _ _ _ Hex). clear Hex Hst s'. unfold exec, exec_call, sema_up. kx.
  eapply wp_get_sema; [exact Hx |]. pose proof (c_wait_sorted s HC Hm _ x Hx) as Hs.
  destruct (waiters x) as [|t q] eqn:Hw.
  - kx. eapply wp_get_sema; [exact Hx |]. kx. cbn. rewrite lookup_insert_eq, Hw. done.
  - destruct (waiter_blocked s th HA (SemaAt a) x t q Hx Hw) as (tht & o & fs & Et & Eb & Ek & Hne & Hni).
    kx. eapply (wp_unblock _ t tht); [exact Et | done | done |].
    kx. eapply wp_get_sema; [cbn; by rewrite lookup_insert_eq |]. kx.
    eapply wp_push; [cbn; rewrite lookup_alter_ne, Er by done; reflexivity |]. cbn.
    rewrite lookup_insert_eq. split_and!; [done | by rewrite insert_ordered_perm | |].
    + apply StronglySorted_inv in Hs as [_ Hs]. rewrite Forall_forall in Hs. intros u Hu.
      specialize (Hs u Hu). unfold le_of, thread_priority_greater in Hs. lia.
    + rewrite lookup_alter_ne, lookup_alter_eq, Et by done. by eexists.
Qed.

Lemma sema_up_wakes_highest_witness :
  holds_after false false two_waiters (λ s, ∃ s', step s (Call (SemaUp 5)) s' ∧
    semas s' !! SemaAt 5 = Some (mk_sema 1 [4%positive]) ∧ ready_list s' ≡ₚ 3%positive :: ready_list s).
Proof.
  after_run. intros s E Hr.
  assert (semas s !! SemaAt 5 = Some (mk_sema 0 [3%positive; 4%positive])) as Hx by run_fact E.
  destruct (reachable_exec false false s (Call (SemaUp 5)) Hr) as (s' & Hex & _); [run_fact E |].
  assert (step s (Call (SemaUp 5)) s') as Hst by (constructor; [run_fact E | exact Hex]).
  assert (thread_mlfqs s = false) as Hm by run_fact E.
  exists s'. split; [exact Hst |]. clear E Hex.
  destruct (sema_up_wakes_highest false false s 5 _ s' Hr Hm Hx Hst) as (H1 & H2 & _). split; [exact H1 | exact H2].
Defined.

(** [thread_exit] of a thread other than the first takes it off the list
    of all threads and frees its page, and another thread runs. *)
Theorem thread_exit_frees aging mlfqs s s' :
  reachable aging mlfqs s → step s (Call ThreadExit) s' → running s ≠ initial_thread s →
  threads s' !! running s = None ∧ all_list s' = filter (λ t, t ≠ running s) (all_list s) ∧
  running s' ≠ running s ∧ ∃ th, threads s' !! running s' = Some th ∧ status th = THREAD_RUNNING.
Proof.
  intros Hr Hst Hini. inversion Hst as [s0 l0 s1 Hen Hex]; subst.
  pose proof (reachable_inv _ _ _ Hr) as HI. destruct (inv_active s HI) as (th & HA & Hrs).
  pose proof HA as [HC Er Est H1 Hctx].
  assert (stack th = []) as E by (unfold enabled in Hen; rewrite Hrs in Hen; by destruct (stack th)).
  pose proof (reachable_inv _ _ _ (reach_step _ _ _ _ _ Hr Hst)) as HI'.
  destruct (i_run s' HI') as (thr & Err & Esr).
  assert (threads s' !! running s = None ∧ all_list s' = filter (λ t, t ≠ running s) (all_list s)) as [Hn Ha].
  { refine (wp_ok _ _ (λ _ s', _) _ _ _ Hex). by apply (exit_frees s th). }
  split_and!; [done.. | | by exists thr]. congruence.
Qed.

Lemma thread_exit_frees_witness :
  holds_after false false ([Call (ThreadCreate [97] 40 (Some 3%positive))] ++ replicate 12 Resume) (λ s,
    ∃ s', step s (Call ThreadExit) s' ∧ threads s' !! 3%positive = None).
Proof.
  after_run. intros s E Hr.
  destruct (reachable_exec false false s (Call ThreadExit) Hr) as (s' & Hex & _); [run_fact E |].
  assert (step s (Call ThreadExit) s') as Hst by (constructor; [run_fact E | exact Hex]).
  assert (running s = 3%positive ∧ initial_thread s = main_page) as [H3 Hi] by (split; run_fact E).
  exists s'. split; [exact Hst |]. clear E Hex.
  destruct (thread_exit_frees false false s s' Hr Hst) as (H & _); [rewrite H3, Hi; discriminate |].
  rewrite H3 in H. exact H.
Defined.

(** C14: [cond_wait] gives the lock up, joins the end of the condition's queue
    with a fresh semaphore, and will wait for that semaphore and take the lock
    again; [cond_signal] releases the first thread of the queue. *)
Theorem cond_wait_signal_fifo aging mlfqs s c l w :
  reachable aging mlfqs s → conds s !! c = Some w →
  (∀ s', step s (Call (CondWait c l)) s' →
     locks s' !! l = Some None ∧ conds s' !! c = Some (w ++ [running s]) ∧
     semas s' !! WaiterSema (running s) = Some (mk_sema 0 []) ∧
     run_stack s' = [KSemaUp (LockSema l); KSemaDown (WaiterSema (running s)); KLockAcquire l]) ∧
  (∀ s', step s (Call (CondSignal c l)) s' →
     match w with
     | [] => s' = s
     | t :: w' => conds s' !! c = Some w' ∧ run_stack s' = [KSemaUp (WaiterSema t)]
     end).
Proof.
  intros Hr Hw. pose proof (reachable_inv _ _ _ Hr) as HI. destruct (inv_active s HI) as (th & HA & Hrs).
  pose proof HA as [HC Er Est H1 Hctx].
  assert (∀ k, (k = CondWait c l ∨ k = CondSignal c l) → enabled (Call k) s = true →
    stack th = [] ∧ locks s !! l = Some (Some (running s))) as Hpre.
  { intros k Hk Hen. unfold enabled in Hen. rewrite Hrs in Hen. destruct (stack th); [| done]. split; [done |].
    destruct Hk as [-> | ->]; cbn in Hen; apply andb_true_iff in Hen as [_ Hh]; by apply bool_decide_eq_true in Hh. }
  split; intros s' Hst; inversion Hst as [s0 l0 s1 Hen Hex]; subst.
  - destruct (Hpre _ (or_introl eq_refl) Hen) as [E Hl].
    refine (wp_ok _ _ (λ _ s', _) _ _ _ Hex). clear Hex Hst s'. unfold exec, exec_call, cond_wait, sema_init. kx.
    eapply held_by_cur; [exact Hl | by look | done |].
    k1. apply wp_assert; [by rewrite bool_decide_true |]. kx. eapply wp_get_cond; [exact Hw |]. kx.
    unfold lock_release. kx. eapply held_by_cur; [exact Hl | by look | done |].
    k1. apply wp_assert; [by rewrite bool_decide_true |]. kx.
    unfold run_stack. cbn. rewrite !lookup_insert_eq, !lookup_alter_eq, Er. cbn. by rewrite E.
  - destruct (Hpre _ (or_intror eq_refl) Hen) as [E Hl].
    refine (wp_ok _ _ (λ _ s', _) _ _ _ Hex). clear Hex Hst s'. unfold exec, exec_call, cond_signal. kx.
    eapply held_by_cur; [exact Hl | by look | done |].
    k1. apply wp_assert; [by rewrite bool_decide_true |]. k1. eapply wp_get_cond; [exact Hw |].
    destruct w as [|t w]; kx; [done |].
    unfold run_stack. cbn. rewrite lookup_insert_eq, lookup_alter_eq, Er. cbn. by rewrite E.
Qed.

Lemma cond_wait_signal_fifo_witness :
  holds_after false false ([Call (LockInit 7); Call (CondInit 8); Call (LockAcquire 7)] ++ replicate 2 Resume)
    (λ s, ∃ s', step s (Call (CondWait 8 7)) s' ∧ locks s' !! 7%positive = Some None ∧
       conds s' !! 8%positive = Some [main_page]).
Proof.
  after_run. intros s E Hr.
  assert (conds s !! 8%positive = Some [] ∧ running s = main_page) as [Hc Hm] by (split; run_fact E).
  destruct (reachable_exec false false s (Call (CondWait 8 7)) Hr) as (s' & Hex & _); [run_fact E |].
  assert (step s (Call (CondWait 8 7)) s') as Hst by (constructor; [run_fact E | exact Hex]).
  exists s'. split; [exact Hst |]. clear E Hex.
  destruct (proj1 (cond_wait_signal_fifo false false s 8 7 [] Hr Hc) s' Hst) as (H1 & H2 & _).
  rewrite Hm in H2. exact (conj H1 H2).
Defined.

(** ** Priorities *)

(** The priority of the multi-level feedback queue is
    63 - recent_cpu / 4 - 2 * nice, truncated and clamped to 0 .. 63; it is
    computed without overflow or trap for every recent CPU time and for the
    niceness range -20 .. 20. *)
Theorem mlfqs_priority_formula (recent_cpu nice : Z) :
  in_s 32 recent_cpu → -20 ≤ nice ≤ 20 →
  mlfqs_priority recent_cpu nice =
    Ok (Z.max PRI_MIN (Z.min PRI_MAX
      (Z.quot (63 * 16384 - Z.quot recent_cpu 4 - 2 * nice * 16384) 16384))).
Proof.
  unfold in_s. change (2 ^ (32 - 1)) with 2147483648. intros Hr Hn.
  assert (-536870912 ≤ Z.quot recent_cpu 4 ≤ 536870912) as Hq.
  { pose proof (quot_bounds recent_cpu 4). destruct (Z.le_gt_cases 0 recent_cpu).
    - pose proof (quot_sign recent_cpu 4). lia.
    - pose proof (quot_neg_sign recent_cpu 4). lia. }
  unfold mlfqs_priority, fp_div_int. rewrite idiv_ok by lia. unfold mbind, outcome_bind.
  unfold fp_to_int_zero, fp_sub_int, fp_sub. change (fp_from_int PRI_MAX) with 1032192. rewrite FP_F_eq.
  set (q := Z.quot recent_cpu 4) in *. rewrite (i32_id (nice * 2)) by lia.
  rewrite (i32_id (nice * 2 * 16384)) by lia. rewrite (i32_id (1032192 - q)) by lia.
  rewrite i32_id by lia. replace (1032192 - q - nice * 2 * 16384) with (63 * 16384 - q - 2 * nice * 16384) by lia.
  set (p := Z.quot _ 16384). f_equal. unfold PRI_MIN, PRI_MAX.
  destruct (Z.ltb_spec p 0), (Z.ltb_spec 63 p); lia.
Qed.

Lemma mlfqs_priority_formula_witness : mlfqs_priority 163840 5 = Ok 50.
Proof. apply (mlfqs_priority_formula 163840 5); [split; done | done]. Defined.

(** C13: Aging raises the priority of every ready thread by one, up to 63, of
    no other thread, keeps the ready queue as it is and sorted, and asks for
    a yield when the first ready thread now outranks the running one. *)
Theorem thread_aging_correct s th :
  intr_on s = false → in_external_intr s = true →
  threads s !! running s = Some th → status th = THREAD_RUNNING → running s ∉ ready_list s →
  NoDup (ready_list s) → (∀ t, t ∈ ready_list s → is_Some (threads s !! t)) →
  StronglySorted (λ a b, prio s b ≤ prio s a) (ready_list s) →
  ∃ s', thread_aging s = Ok (tt, s') ∧ ready_list s' = ready_list s ∧
    StronglySorted (λ a b, prio s' b ≤ prio s' a) (ready_list s') ∧
    (∀ t, prio s' t = if bool_decide (t ∈ ready_list s) && (prio s t <? PRI_MAX) then prio s t + 1 else prio s t) ∧
    yield_on_return s' = yield_on_return s ||
      match ready_list s with t :: _ => prio s (running s) <? prio s' t | [] => false end.
Proof.
  intros Hoff Hctx Er Est Hnr Hnd Hall Hs.
  assert (∀ t, prio (aged s) t =
    if bool_decide (t ∈ ready_list s) && (prio s t <? PRI_MAX) then prio s t + 1 else prio s t) as Hp.
  { intros t. unfold prio. rewrite aged_lookup by done. case_bool_decide as Ht.
    - rewrite decide_True by done. destruct (Hall t Ht) as [tht ->]. simpl. apply age_priority.
    - by rewrite decide_False. }
  enough (wp thread_aging s (λ _ s', only_flag (aged s) s' ∧ yield_on_return s' = yield_on_return s ||
    match ready_list s with t :: _ => prio s (running s) <? prio (aged s) t | [] => false end)) as
    (u & s' & E & Hf & Hy).
  { destruct u. exists s'. assert (∀ t, prio s' t = prio (aged s) t) as Hp' by (by destruct Hf as [->| ->]).
    assert (ready_list s' = ready_list s) as Hq by (by destruct Hf as [->| ->]).
    split_and!; [done | done | | | ].
    - rewrite Hq. eapply sorted_ext; [| exact Hs]. intros x y Hx Hy' Hle. rewrite !Hp', !Hp.
      rewrite !bool_decide_true by done. unfold PRI_MAX. cbn beta in Hle. simpl.
      destruct (Z.ltb_spec (prio s x) 63), (Z.ltb_spec (prio s y) 63); lia.
    - intros t. by rewrite Hp', Hp.
    - rewrite Hy. by destruct (ready_list s); [| rewrite Hp']. }
  unfold thread_aging. kx. eapply wp_mono; [by apply aging_loop |]. intros ? s1 ->.
  assert (threads (aged s) !! running s = Some th) as Er' by (by rewrite aged_lookup, decide_False).
  assert (prio (aged s) (running s) = prio s (running s)) as Hpr by (unfold prio; by rewrite Er, Er').
  unfold thread_check_preempt. kx. eapply wp_thread_current; [exact Er' | done |]. kx.
  change (intr_on (aged s)) with (intr_on s). rewrite Hoff. unfold intr_set_level. kx.
  assert (set_intr_on (λ _, false) (set_intr_on (λ _, false) (aged s)) = aged s) as ->
    by (unfold aged; destruct s; cbn in *; by subst).
  change (need_preempt (set_intr_on (λ _, false) (aged s)) (running (set_intr_on (λ _, false) (aged s))))
    with (match ready_list s with t :: _ => prio (aged s) (running s) <? prio (aged s) t | [] => false end).
  rewrite Hpr.
  destruct (match ready_list s with [] => false | t :: _ => _ end) eqn:Hn; kx.
  - change (in_external_intr (aged s)) with (in_external_intr s). rewrite Hctx.
    unfold intr_yield_on_return. kx. split; [by right | cbn; by rewrite orb_true_r].
  - split; [by left | by rewrite orb_false_r].
Qed.

Definition in_tick (s : kstate) : kstate := set_in_external_intr (λ _, true) (set_intr_on (λ _, false) s).

Lemma thread_aging_correct_witness :
  ∃ s', thread_aging (in_tick (booted true false)) = Ok (tt, s') ∧ prio s' idle_page = 1.
Proof.
  destruct (thread_aging_correct (in_tick (booted true false)) boot_main) as (s' & H1 & _ & _ & H2 & _);
    [reflexivity.. | | | | |].
  - intros H. apply list_elem_of_singleton in H. discriminate H.
  - apply NoDup_singleton.
  - intros t Ht. apply list_elem_of_singleton in Ht as ->. by exists boot_idle.
  - repeat constructor.
  - exists s'. split; [exact H1 |]. rewrite H2. reflexivity.
Defined.
