(* ===== verification/TimerThm.v ===== *)
(** The arithmetic of devices/timer.c: the calibration of the delay loop, and
    how real-time delays become ticks and loops. *)
From S2P Require Import Prelude ListSpec Kstate Interrupt Thread Timer Machine.
Local Open Scope Z_scope.

(** ** Powers of two and shifts *)

Lemma shiftl_1_u32 k : 0 ≤ k ≤ 30 → u32 (Z.shiftl (2 ^ k) 1) = 2 ^ (k + 1).
Proof.
  intros. rewrite Z.shiftl_mul_pow2, Z.pow_1_r by lia.
  assert (2 ^ (k + 1) = 2 ^ k * 2) as -> by (rewrite Z.pow_add_r by lia; lia).
  assert (2 ^ k ≤ 2 ^ 30) by (apply Z.pow_le_mono_r; lia).
  assert (0 < 2 ^ k) by lia. apply u32_id. change (2 ^ 30) with 1073741824 in *. lia.
Qed.

Lemma shiftr_pow k n : 0 ≤ n ≤ k → Z.shiftr (2 ^ k) n = 2 ^ (k - n).
Proof. intros. by rewrite Z.shiftr_div_pow2, Z.pow_sub_r by lia. Qed.

Lemma lor_low_bit q i : 0 ≤ i → Z.lor (q * 2 ^ (i + 1)) (2 ^ i) = q * 2 ^ (i + 1) + 2 ^ i.
Proof.
  intros. symmetry. apply Z.add_nocarry_lor. apply Z.bits_inj'. intros n Hn.
  rewrite Z.land_spec, Z.bits_0, Z.pow2_bits_eqb by lia. destruct (Z.eqb_spec i n) as [->|]; [| apply andb_false_r].
  rewrite Z.mul_pow2_bits_low by lia. done.
Qed.

(** ** Calibration *)

Section calibrate.
Context (too_many : Z → bool).
Context (mono : ∀ a b, 0 ≤ a ≤ b → b < 4294967296 → too_many a = true → too_many b = true).
Context (top : too_many 2147483648 = true).

Lemma calibrate_double_ok fuel k :
  10 ≤ k ≤ 30 → 31 - k ≤ Z.of_nat fuel → too_many (2 ^ k) = false →
  ∃ j, 10 ≤ j ≤ 30 ∧ calibrate_double too_many fuel (2 ^ k) = Ok (2 ^ j) ∧
    too_many (2 ^ j) = false ∧ too_many (2 ^ (j + 1)) = true.
Proof.
  revert k. induction fuel as [|fuel IH]; intros k Hk Hf Hn; cbn [calibrate_double];
    rewrite shiftl_1_u32 by lia; destruct (too_many (2 ^ (k + 1))) eqn:Ht; try (by exists k).
  - lia.
  - assert (k ≠ 30) by (intros ->; change (2 ^ (30 + 1)) with 2147483648 in Ht; congruence).
    assert (0 < 2 ^ (k + 1)) by lia. destruct (Z.eqb_spec (2 ^ (k + 1)) 0); [lia |]. simpl.
    apply IH; [lia | lia | done].
Qed.

(** One bit at a time: [L] is a multiple of [2^(i+1)], and the largest one
    below [2^(j+1)] that is not too many. *)
Lemma calibrate_refine_ok fuel j i q L :
  10 ≤ j ≤ 30 → j - 10 ≤ i < j → i - (j - 10) ≤ Z.of_nat fuel → L = q * 2 ^ (i + 1) →
  2 ^ j ≤ L → L + 2 ^ (i + 1) ≤ 2 ^ (j + 1) → too_many L = false → too_many (L + 2 ^ (i + 1)) = true →
  ∃ L' q', calibrate_refine too_many fuel (2 ^ j) (2 ^ i) L = Ok L' ∧ L' = q' * 2 ^ (j - 9) ∧
    2 ^ j ≤ L' < 2 ^ (j + 1) ∧ too_many L' = false ∧ too_many (L' + 2 ^ (j - 9)) = true.
Proof.
  revert i q L. assert (∀ fuel i q L, i = j - 10 → 10 ≤ j ≤ 30 → L = q * 2 ^ (i + 1) → 2 ^ j ≤ L →
    L + 2 ^ (i + 1) ≤ 2 ^ (j + 1) → too_many L = false → too_many (L + 2 ^ (i + 1)) = true →
    ∃ L' q', calibrate_refine too_many fuel (2 ^ j) (2 ^ i) L = Ok L' ∧ L' = q' * 2 ^ (j - 9) ∧
    2 ^ j ≤ L' < 2 ^ (j + 1) ∧ too_many L' = false ∧ too_many (L' + 2 ^ (j - 9)) = true) as Hend.
  { intros fu i q L -> Hj HL H1 H2 H3 H4. replace (j - 10 + 1) with (j - 9) in * by lia.
    assert (0 < 2 ^ (j - 9)) by (apply Z.pow_pos_nonneg; lia). exists L, q.
    split_and!; try done; [| lia]. destruct fu; cbn [calibrate_refine];
      by rewrite (shiftr_pow j 10), Z.eqb_refl by lia. }
  induction fuel as [|fuel IH]; intros i q L Hj Hi Hf HL H1 H2 Hn Ht; [apply (Hend 0%nat i q L); lia || done |].
  destruct (decide (i = j - 10)) as [Hij|Hij]; [by apply (Hend (S fuel) i q L) |].
  cbn [calibrate_refine]. rewrite (shiftr_pow j 10) by lia.
  destruct (Z.eqb_spec (2 ^ i) (2 ^ (j - 10))) as [Heq|_]; [apply Z.pow_inj_r in Heq; lia |].
  assert (2 ^ (i + 1) = 2 * 2 ^ i) as Hp by (rewrite Z.pow_add_r by lia; lia).
  assert (Z.lor L (2 ^ i) = L + 2 ^ i) as -> by (rewrite HL; apply lor_low_bit; lia).
  rewrite (shiftr_pow i 1) by lia. assert (0 < 2 ^ i) by (apply Z.pow_pos_nonneg; lia).
  assert (2 ^ (i - 1 + 1) = 2 ^ i) as Hi1 by (f_equal; lia).
  destruct (too_many (L + 2 ^ i)) eqn:Hb.
  - apply (IH (i - 1) (2 * q)); rewrite ?Hi1; lia || done.
  - apply (IH (i - 1) (2 * q + 1)); rewrite ?Hi1; try lia; [done |].
    replace (L + 2 ^ i + 2 ^ i) with (L + 2 * 2 ^ i) by lia. by rewrite <-Hp.
Qed.
End calibrate.

(** C12: [timer_calibrate] ends with no assertion failed, and finds the largest
    loop count, to ten significant bits, that does not take more than one tick:
    the count [L] it leaves does not, and the next ten-bit value does. The
    oracle for the hardware is monotone, lets 2^10 loops pass and not 2^31. *)
Theorem timer_calibrate_best too_many :
  (∀ a b, 0 ≤ a ≤ b → b < 4294967296 → too_many a = true → too_many b = true) →
  too_many 1024 = false → too_many 2147483648 = true →
  ∃ L j q, timer_calibrate too_many = Ok L ∧ 10 ≤ j ≤ 30 ∧ 2 ^ j ≤ L < 2 ^ (j + 1) ∧ L = q * 2 ^ (j - 9) ∧
    too_many L = false ∧ too_many (L + 2 ^ (j - 9)) = true.
Proof.
  intros mono H0 top. unfold timer_calibrate. change (Z.shiftl 1 10) with (2 ^ 10).
  destruct (calibrate_double_ok too_many top 32 10) as (j & Hj & -> & Hn & Ht); [lia.. | done |].
  unfold mbind, outcome_bind. rewrite (shiftr_pow j 1) by lia.
  assert (2 ^ (j + 1) = 2 * 2 ^ j) as Hp by (rewrite Z.pow_add_r by lia; lia).
  destruct (calibrate_refine_ok too_many 32 j (j - 1) 1 (2 ^ j)) as (L & q & HL & Hq & Hb & Hnl & Htl);
    replace (j - 1 + 1) with j by lia; try lia; try done.
  - replace (2 ^ j + 2 ^ j) with (2 ^ (j + 1)) by lia. done.
  - exists L, j, q. split_and!; (lia || done).
Qed.

Lemma timer_calibrate_best_witness :
  ∃ L j q, timer_calibrate (λ n, 1000000 <? n) = Ok L ∧ 10 ≤ j ≤ 30 ∧ 2 ^ j ≤ L < 2 ^ (j + 1) ∧
    L = q * 2 ^ (j - 9) ∧ (1000000 <? L) = false ∧ (1000000 <? L + 2 ^ (j - 9)) = true.
Proof.
  apply (timer_calibrate_best (λ n, 1000000 <? n)); [intros a b H1 H2 H3; lia | reflexivity | reflexivity].
Defined.

(** ** Delays *)

(** [busy_wait (loops)] passes the barrier [loops] times, and not at all when
    [loops] is not positive. *)
Lemma busy_wait_counts fuel n k :
  in_s 64 n → n ≤ Z.of_nat fuel → busy_wait fuel n k =
    Ok (if 0 <? n then -1 else i64 (n - 1), (k + Z.to_nat n)%nat).
Proof.
  unfold in_s. change (2 ^ (64 - 1)) with 9223372036854775808.
  revert n k. induction fuel as [|fuel IH]; intros n k Hn Hf; cbn [busy_wait];
    destruct (Z.ltb_spec 0 n); try lia; try (do 2 f_equal; lia).
  rewrite i64_id by lia. rewrite IH by lia. destruct (Z.ltb_spec 0 (n - 1)).
  - do 2 f_equal. lia.
  - replace n with 1 by lia. rewrite i64_id by lia. do 2 f_equal. lia.
Qed.

(** A sleep of [ms] milliseconds waits for the ticks it contains, rounded
    down; a shorter one than a tick spins for [loops_per_tick * ms / 1000 *
    TIMER_FREQ] turns of the delay loop, computed without overflow; the loop
    terminates after exactly that many turns. *)
Theorem timer_msleep_correct (loops_per_tick ms : Z) s :
  0 ≤ ms < 92233720368547758 → intr_on s = true → in_external_intr s = false →
  (10 ≤ ms → timer_msleep loops_per_tick ms s = timer_sleep (ms / 10) s) ∧
  (ms < 10 → 0 ≤ loops_per_tick < 4294967296 →
     timer_msleep loops_per_tick ms s = Ok (tt, s) ∧
     let n := loops_per_tick * ms / 1000 * 100 in
     real_time_delay_loops loops_per_tick ms 1000 = Ok n ∧
     ∃ counter, busy_wait (Z.to_nat n) n 0 = Ok (counter, Z.to_nat n)).
Proof.
  intros Hms Hon Hctx.
  assert (real_time_ticks ms 1000 = ms / 10) as Ht.
  { unfold real_time_ticks, TIMER_FREQ. rewrite i64_id by lia. rewrite Z.quot_div_nonneg by lia.
    replace 1000 with (10 * 100) by lia. apply Z.div_mul_cancel_r; lia. }
  assert (∀ m, timer_msleep loops_per_tick m s = (if 0 <? real_time_ticks m 1000
    then timer_sleep (real_time_ticks m 1000) s else real_time_delay loops_per_tick m 1000 s)) as Hsl.
  { intros m. unfold timer_msleep, real_time_sleep, mbind, st_bind, intr_get_level, st_gets, st_assert.
    rewrite Hon. by destruct (0 <? _). }
  rewrite Hsl, Ht. split.
  - intros H. assert (1 ≤ ms / 10) by (apply Z.div_le_lower_bound; lia).
    destruct (Z.ltb_spec 0 (ms / 10)); [done | lia].
  - intros H Hl. rewrite Z.div_small by lia. cbn [Z.ltb Z.compare].
    assert (0 ≤ loops_per_tick * ms / 1000 ≤ 42949673) as Hq.
    { split; [apply Z.div_pos; nia | apply Z.div_le_upper_bound; nia]. }
    assert (real_time_delay_loops loops_per_tick ms 1000 = Ok (loops_per_tick * ms / 1000 * 100)) as Hn.
    { unfold real_time_delay_loops, TIMER_FREQ. change (Z.rem 1000 1000 =? 0) with true. cbn [assert_that].
      change (Z.quot 1000 1000) with 1. rewrite (i64_id (loops_per_tick * ms)) by nia.
      rewrite (Z.quot_div_nonneg (loops_per_tick * ms)) by nia.
      rewrite i64_id by lia. unfold mbind, outcome_bind. simpl. by rewrite Z.quot_1_r. }
    set (n := loops_per_tick * ms / 1000 * 100) in *.
    assert (busy_wait (Z.to_nat n) n 0 = Ok (if 0 <? n then -1 else i64 (n - 1), Z.to_nat n)) as Hb.
    { rewrite busy_wait_counts; [done | unfold in_s; lia | lia]. }
    split.
    + unfold real_time_delay, mbind, st_bind, st_lift. rewrite Hn, Hb. done.
    + split; [done | by eexists].
Qed.

Lemma timer_msleep_correct_witness :
  let s := set_intr_on (λ _, true) (blank 1%positive false false) in
  timer_msleep 4000000 25 s = timer_sleep 2 s ∧ timer_msleep 4000000 5 s = Ok (tt, s).
Proof.
  intros s. split.
  - apply (proj1 (timer_msleep_correct 4000000 25 s ltac:(lia) eq_refl eq_refl)). lia.
  - apply (proj2 (timer_msleep_correct 4000000 5 s ltac:(lia) eq_refl eq_refl)); lia.
Defined.
