(* ===== verification/Arith.v ===== *)
(** lib/arithmetic.c: 64-bit division on a 32-bit CPU.  The [divl] instruction
    divides 64 by 32 bits and traps when the quotient does not fit; the C code
    reduces the general case to it. *)
From S2P Require Import Prelude FixedPoint.
Local Open Scope Z_scope.

(** ** The code *)

Definition two32 : Z := 4294967296.

(** The [divl] instruction. *)
Definition divl (n d : Z) : outcome Z :=
  if (d =? 0) || (two32 <=? n / d) then Err DivideError else Ok (n / d).

(** One test of [nlz], on the count so far and the shifted number. *)
Definition nlz_step (bound k : Z) (nx : Z * Z) : Z * Z :=
  let '(n, x) := nx in
  if x <=? bound then (n + k, u32 (Z.shiftl x k)) else (n, x).

(** Number of leading zeros in a 32-bit integer. *)
Definition nlz (x : Z) : Z :=
  (nlz_step 0x7fffffff 1 (nlz_step 0x3fffffff 2 (nlz_step 0x0fffffff 4
    (nlz_step 0x00ffffff 8 (nlz_step 0x0000ffff 16 (0, x)))))).1.

Definition udiv64 (n d : Z) : outcome Z :=
  if Z.shiftr d 32 =? 0 then
    let b := Z.shiftl 1 32 in
    let n1 := u32 (Z.shiftr n 32) in
    let n0 := u32 n in
    let d0 := u32 d in
    if d0 =? 0 then Err DivideError
    else
      q ← divl (u64 (u64 (b * (n1 `mod` d0)) + n0)) d0;
      Ok (u64 (q + u64 (b * (n1 / d0))))
  else if n <? d then Ok 0
  else
    let d1 := u32 (Z.shiftr d 32) in
    let s := nlz d1 in
    q ← divl (Z.shiftr n 1) (u32 (Z.shiftr (u64 (Z.shiftl d s)) 32));
    let q := Z.shiftr q (31 - s) in
    Ok (if u64 (n - u64 (u64 (q - 1) * d)) <? d then u64 (q - 1) else q).

Definition umod64 (n d : Z) : outcome Z :=
  q ← udiv64 n d; Ok (u32 (u64 (n - u64 (d * q)))).

Definition sdiv64 (n d : Z) : outcome Z :=
  let n_abs := if 0 <=? n then u64 n else u64 (- u64 n) in
  let d_abs := if 0 <=? d then u64 d else u64 (- u64 d) in
  q_abs ← udiv64 n_abs d_abs;
  Ok (if eqb (n <? 0) (d <? 0) then i64 q_abs else i64 (- i64 q_abs)).

Definition smod64 (n d : Z) : outcome Z :=
  q ← sdiv64 n d; Ok (i32 (i64 (n - i64 (d * q)))).

(** The functions that GCC calls for [long long] arithmetic; the 32-bit
    results of [smod64] and [umod64] are extended. *)
Definition __divdi3 (n d : Z) : outcome Z := sdiv64 n d.
Definition __moddi3 (n d : Z) : outcome Z := smod64 n d.
Definition __udivdi3 (n d : Z) : outcome Z := udiv64 n d.
Definition __umoddi3 (n d : Z) : outcome Z := umod64 n d.

(** ** Leading zeros *)

(** [nlz] normalizes: shifted by it, the top bit is set. *)
Lemma nlz_spec x : 0 < x < two32 → 0 ≤ nlz x ≤ 31 ∧ 2147483648 ≤ x * 2 ^ nlz x < two32.
Proof.
  unfold two32. intros Hx. unfold nlz, nlz_step.
  repeat match goal with
  | |- context [Z.leb ?a ?b] => destruct (Z.leb_spec a b)
  | |- context [Z.shiftl ?a ?k] => rewrite (Z.shiftl_mul_pow2 a k) by lia; cbn [Z.pow Z.pow_pos Pos.iter Z.mul]
  | |- context [wrap_u 32 ?z] => rewrite (u32_id z) by lia
  | H : context [Z.shiftl ?a ?k] |- _ => rewrite (Z.shiftl_mul_pow2 a k) in H by lia
  | H : context [wrap_u 32 ?z] |- _ => rewrite (u32_id z) in H by lia
  end; cbn -[Z.mul Z.pow Z.le Z.lt]; lia.
Qed.

(** ** Division *)

(** The guess of [udiv64] for a wide divisor [d], computed from its leading 32
    bits ([d' = v * A], where [A] is the weight of the bits dropped), is at most
    one too large. *)
Lemma quotient_guess n d v A :
  0 ≤ n < 18446744073709551616 → 2147483648 ≤ v → 2 ≤ A → A * 2147483648 ≤ 9223372036854775808 →
  (A = 2 ∨ 4 ≤ A) → v * A ≤ d < v * A + A →
  n / d ≤ n / (v * A) ≤ n / d + 1.
Proof.
  intros Hn Hv HA HA2 HA4 Hd.
  assert (0 < v * A) as Hd' by nia.
  set (d' := v * A) in *. split.
  { apply Z.div_le_compat_l; lia. }
  set (q := n / d').
  assert (q * d' ≤ n) as Hq by (subst q; pose proof (Z.mul_div_le n d'); nia).
  assert (0 ≤ q) by (apply Z.div_pos; lia).
  assert ((q - 1) * d ≤ n) as Hqd.
  { assert ((q - 1) * (d - d') ≤ d') as Hk; [| nia].
    assert (q * (2147483648 * A) < 18446744073709551616) by (subst d'; nia).
    destruct (decide (q = 0)) as [-> |]; [nia |].
    destruct HA4 as [-> | HA4].
    - assert (d - d' ≤ 1) by lia. subst d'. nia.
    - assert (q * A < 8589934592) by lia. subst d'.
      assert ((q - 1) * (d - v * A) ≤ (q - 1) * A) by nia. nia. }
  assert (q - 1 ≤ n / d); [| lia].
  apply Z.div_le_lower_bound; [lia |]. lia.
Qed.

Lemma udiv64_low n d :
  0 ≤ n < 18446744073709551616 → 0 < d < two32 →
  divl (u64 (u64 (Z.shiftl 1 32 * (u32 (Z.shiftr n 32) `mod` u32 d)) + u32 n)) (u32 d)
    = Ok ((two32 * ((n / two32) `mod` d) + n `mod` two32) / d) ∧
  n / d = (two32 * ((n / two32) `mod` d) + n `mod` two32) / d + two32 * (n / two32 / d).
Proof.
  intros Hn Hd. unfold two32 in *.
  rewrite Z.shiftr_div_pow2 by lia. change (2 ^ 32) with 4294967296.
  change (Z.shiftl 1 32) with 4294967296.
  assert (0 ≤ n / 4294967296 < 4294967296) by (split; [apply Z.div_pos | apply Z.div_lt_upper_bound]; lia).
  rewrite !(u32_id d), (u32_id (n / _)) by lia. change (u32 n) with (n `mod` 4294967296).
  pose proof (Z.mod_pos_bound (n / 4294967296) d). pose proof (Z.mod_pos_bound n 4294967296).
  rewrite (u64_id (_ * _)) by nia. rewrite u64_id by nia.
  set (r := (n / 4294967296) `mod` d) in *. set (n0 := n `mod` 4294967296) in *.
  split.
  - unfold divl. destruct (Z.eqb_spec d 0); [lia |]. cbn [orb]. unfold two32.
    destruct (Z.leb_spec 4294967296 ((4294967296 * r + n0) / d)) as [Hl|]; [| done].
    exfalso. assert ((4294967296 * r + n0) / d < 4294967296) by (apply Z.div_lt_upper_bound; nia). lia.
  - assert (n = (4294967296 * r + n0) + (4294967296 * (n / 4294967296 / d)) * d) as E.
    { pose proof (Z.div_mod n 4294967296 ltac:(lia)) as E1.
      pose proof (Z.div_mod (n / 4294967296) d ltac:(lia)) as E2. fold n0 in E1. fold r in E2.
      set (h := n / 4294967296) in *. set (k := h / d) in *. clearbody n0 r k. nia. }
    rewrite E at 1. rewrite Z.div_add by lia. done.
Qed.

Lemma udiv64_high n d :
  0 ≤ n < 18446744073709551616 → two32 ≤ d < 18446744073709551616 → d ≤ n →
  let s := nlz (u32 (Z.shiftr d 32)) in
  ∃ q, divl (Z.shiftr n 1) (u32 (Z.shiftr (u64 (Z.shiftl d s)) 32)) = Ok q ∧
       n / d ≤ Z.shiftr q (31 - s) ≤ n / d + 1 ∧ 0 ≤ q < two32.
Proof.
  intros Hn Hd Hdn s. unfold two32 in *.
  assert (1 ≤ d / 4294967296 < 4294967296) by (split; [apply Z.div_le_lower_bound | apply Z.div_lt_upper_bound]; lia).
  assert (u32 (Z.shiftr d 32) = d / 4294967296) as Ed1
    by (rewrite Z.shiftr_div_pow2 by lia; change (2 ^ 32) with 4294967296; rewrite u32_id; lia).
  subst s. rewrite Ed1. set (d1 := d / 4294967296) in *.
  destruct (nlz_spec d1) as [Hs Hs2]; [unfold two32; lia |]. set (s := nlz d1) in *. unfold two32 in Hs2.
  assert (0 < 2 ^ s) by (apply Z.pow_pos_nonneg; lia).
  assert (2 ^ 32 = 2 ^ s * 2 ^ (32 - s)) as Hp by (rewrite <-Z.pow_add_r by lia; f_equal; lia).
  change (2 ^ 32) with 4294967296 in Hp.
  assert (2 ^ (32 - s) = 2 * 2 ^ (31 - s)) as HA by (rewrite <-Z.pow_succ_r by lia; f_equal; lia).
  assert (0 < 2 ^ (31 - s)) by (apply Z.pow_pos_nonneg; lia).
  set (A := 2 ^ (32 - s)) in *.
  pose proof (Z.div_mod d 4294967296) as Ed. fold d1 in Ed.
  pose proof (Z.mod_pos_bound d 4294967296).
  assert (d1 + 1 ≤ A) by nia.
  assert (0 ≤ d * 2 ^ s < 18446744073709551616).
  { assert (d < 4294967296 * (d1 + 1)) by lia. split; [nia |].
    apply Z.lt_le_trans with (4294967296 * (d1 + 1) * 2 ^ s); [nia |].
    assert ((d1 + 1) * 2 ^ s ≤ 4294967296) by nia. lia. }
  rewrite Z.shiftl_mul_pow2, u64_id, (Z.shiftr_div_pow2 _ 32) by lia. change (2 ^ 32) with 4294967296.
  assert (d * 2 ^ s / 4294967296 = d / A) as Ev.
  { rewrite Hp, (Z.mul_comm (2 ^ s)), Z.div_mul_cancel_r by lia. done. }
  rewrite Ev. set (v := d / A) in *.
  assert (2147483648 ≤ v < 4294967296).
  { rewrite <-Ev. split; [apply Z.div_le_lower_bound | apply Z.div_lt_upper_bound]; nia. }
  rewrite u32_id by lia.
  rewrite Z.shiftr_div_pow2 by lia. change (2 ^ 1) with 2.
  assert (0 ≤ n / 2 / v < 4294967296).
  { assert (0 ≤ n / 2 < 9223372036854775808) by (split; [apply Z.div_pos | apply Z.div_lt_upper_bound]; lia).
    split; [apply Z.div_pos | apply Z.div_lt_upper_bound]; lia. }
  exists (n / 2 / v). split; [| split; [| lia]].
  { unfold divl. destruct (Z.eqb_spec v 0); [lia |]. cbn [orb]. unfold two32.
    destruct (Z.leb_spec 4294967296 (n / 2 / v)); [lia | done]. }
  rewrite Z.shiftr_div_pow2 by lia. rewrite !Z.div_div by lia.
  replace (2 * (v * 2 ^ (31 - s))) with (v * A) by lia.
  replace (2 * v * 2 ^ (31 - s)) with (v * A) by lia.
  assert (v * A ≤ d < v * A + A).
  { pose proof (Z.mod_pos_bound d A). subst v. pose proof (Z.div_mod d A). lia. }
  apply quotient_guess; lia.
Qed.

Lemma udiv64_ok n d :
  0 ≤ n < 18446744073709551616 → 0 ≤ d < 18446744073709551616 →
  udiv64 n d = if d =? 0 then Err DivideError else Ok (n / d).
Proof.
  intros Hn Hd. unfold udiv64. rewrite Z.shiftr_div_pow2 by lia. change (2 ^ 32) with 4294967296.
  destruct (Z.eqb_spec (d / 4294967296) 0) as [E|E].
  - apply Z.div_small_iff in E; [| lia]. destruct E as [E|]; [| lia].
    rewrite (u32_id d) by lia. destruct (Z.eqb_spec d 0); [done |].
    destruct (udiv64_low n d) as [E1 E2]; [done | unfold two32; lia |].
    rewrite (u32_id d) in E1 by lia. rewrite E1. cbn. f_equal.
    rewrite Z.shiftr_div_pow2 by lia. change (2 ^ 32) with 4294967296.
    assert (0 ≤ n / 4294967296 < 4294967296) by (split; [apply Z.div_pos | apply Z.div_lt_upper_bound]; lia).
    rewrite (u32_id (n / _)) by lia. unfold two32 in *. change (Z.shiftl 1 32) with 4294967296.
    assert (0 ≤ n / 4294967296 / d ≤ n / 4294967296)
      by (split; [apply Z.div_pos; lia | apply Z.div_le_upper_bound; nia]).
    rewrite (u64_id (4294967296 * (n / 4294967296 / d))) by lia. rewrite <-E2.
    apply u64_id. split; [apply Z.div_pos; lia |].
    assert (n / d ≤ n) by (apply Z.div_le_upper_bound; nia). lia.
  - assert (4294967296 ≤ d) by (destruct (Z.le_gt_cases 4294967296 d); [done | exfalso; apply E, Z.div_small; lia]).
    destruct (Z.eqb_spec d 0); [lia |]. destruct (Z.ltb_spec n d); [by rewrite Z.div_small by lia |].
    destruct (udiv64_high n d) as (q & Eq & Hq & Hr); [done | unfold two32; lia | done |].
    rewrite (Z.shiftr_div_pow2 d) in Eq, Hq by lia. change (2 ^ 32) with 4294967296 in Eq, Hq.
    cbv zeta. rewrite Eq. cbn [mbind outcome_bind]. cbv zeta.
    set (q' := Z.shiftr q _) in *.
    assert (1 ≤ n / d) by (apply Z.div_le_lower_bound; lia).
    pose proof (Z.div_mod n d). pose proof (Z.mod_pos_bound n d).
    assert (n / d < 4294967296) by (apply Z.div_lt_upper_bound; nia).
    rewrite (u64_id (q' - 1)) by lia. rewrite (u64_id (_ * d)) by nia. rewrite u64_id by nia.
    f_equal. assert (q' = n / d ∨ q' = n / d + 1) as [-> | ->] by lia;
      match goal with |- context [?x <? d] => destruct (Z.ltb_spec x d) end; nia.
Qed.

(** The unsigned division and remainder that the compiler calls for 64-bit
    operands: the quotient is exact for every dividend, without a trap of the
    32-bit divide instruction it is built from; the remainder is truncated to
    32 bits; both trap exactly for a zero divisor. *)
Theorem unsigned_division_correct n d :
  0 ≤ n < 18446744073709551616 → 0 ≤ d < 18446744073709551616 →
  __udivdi3 n d = (if d =? 0 then Err DivideError else Ok (n / d)) ∧
  __umoddi3 n d = (if d =? 0 then Err DivideError else Ok (u32 (n `mod` d))).
Proof.
  intros Hn Hd. unfold __udivdi3, __umoddi3, umod64. rewrite udiv64_ok by done.
  split; [done |]. destruct (Z.eqb_spec d 0); [done |]. cbn. do 2 f_equal.
  pose proof (Z.div_mod n d). pose proof (Z.mod_pos_bound n d).
  assert (0 ≤ n / d) by (apply Z.div_pos; lia).
  rewrite (u64_id (d * _)) by nia. rewrite u64_id by nia. lia.
Qed.

Lemma unsigned_division_correct_witness :
  __udivdi3 18446744073709551615 4294967297 = Ok 4294967295 ∧
  __umoddi3 18446744073709551615 18446744073709551614 = Ok 1.
Proof.
  split.
  - refine (eq_trans (proj1 (unsigned_division_correct _ _ _ _)) _); [lia | lia | reflexivity].
  - refine (eq_trans (proj2 (unsigned_division_correct _ _ _ _)) _); [lia | lia | reflexivity].
Defined.

Lemma i64_opp x : 0 ≤ x ≤ 9223372036854775808 → i64 (- i64 x) = i64 (- x).
Proof.
  intros. destruct (decide (x = 9223372036854775808)) as [-> |]; [done |].
  by rewrite (i64_id x) by lia.
Qed.

Lemma sdiv64_ok n d :
  -9223372036854775808 ≤ n < 9223372036854775808 → -9223372036854775808 ≤ d < 9223372036854775808 →
  d ≠ 0 → sdiv64 n d = Ok (i64 (Z.quot n d)).
Proof.
  intros Hn Hd Hd0. unfold sdiv64.
  assert (∀ x, -9223372036854775808 ≤ x < 9223372036854775808 →
    (if 0 <=? x then u64 x else u64 (- u64 x)) = Z.abs x) as Habs.
  { intros x Hx. destruct (Z.leb_spec 0 x); [rewrite u64_id; lia |].
    assert (u64 x = x + 18446744073709551616) as -> by (symmetry; unfold wrap_u; apply (Z.mod_unique_pos _ _ (-1)); lia).
    rewrite <-(u64_id (Z.abs x)) by lia. unfold wrap_u. 
    replace (- (x + 18446744073709551616)) with (Z.abs x + (-1) * 2 ^ 64) by lia. by rewrite Z_mod_plus_full. }
  rewrite !Habs by lia. rewrite udiv64_ok by lia. destruct (Z.eqb_spec (Z.abs d) 0); [lia |].
  cbn [mbind outcome_bind]. f_equal. rewrite (Z.quot_div n d Hd0).
  assert (0 ≤ Z.abs n / Z.abs d ≤ 9223372036854775808) as Hr
    by (split; [apply Z.div_pos | apply Z.div_le_upper_bound]; nia).
  destruct (Z.ltb_spec n 0), (Z.ltb_spec d 0); cbn [eqb];
    destruct (decide (n = 0)) as [-> |]; try lia; try done;
    rewrite ?(Z.sgn_neg n), ?(Z.sgn_pos n), ?(Z.sgn_neg d), ?(Z.sgn_pos d) by lia.
  all: rewrite ?i64_opp by lia; f_equal; lia.
Qed.

(** The signed division and remainder: the quotient is truncated toward
    zero as C requires, wrapping only for the most negative dividend over -1;
    the remainder has the dividend's sign and is truncated to 32 bits (so a
    remainder that needs more is wrong). *)
Theorem signed_division_correct n d :
  -9223372036854775808 ≤ n < 9223372036854775808 → -9223372036854775808 ≤ d < 9223372036854775808 →
  d ≠ 0 →
  __divdi3 n d = Ok (i64 (Z.quot n d)) ∧
  __moddi3 n d = Ok (i32 (Z.rem n d)) ∧
  ((n, d) ≠ (-9223372036854775808, -1) → i64 (Z.quot n d) = Z.quot n d).
Proof.
  intros Hn Hd Hd0. unfold __divdi3, __moddi3, smod64. rewrite sdiv64_ok by done.
  destruct (decide ((n, d) = (-9223372036854775808, -1))) as [[= -> ->]|Hne]; [done |].
  assert (i64 (Z.quot n d) = Z.quot n d) as Eq.
  { apply i64_id. pose proof (Z.quot_abs n d Hd0) as Ha. rewrite Z.quot_div_nonneg in Ha by lia.
    assert (Z.abs n / Z.abs d ≤ Z.abs n) by (apply Z.div_le_upper_bound; nia).
    destruct (decide (Z.abs d = 1)) as [H1|]; [| assert (Z.abs n / Z.abs d < 9223372036854775808)
      by (apply Z.div_lt_upper_bound; nia); lia].
    destruct (decide (d = 1)) as [-> |]; [by rewrite Z.quot_1_r |].
    assert (d = -1) as -> by lia. change (-1) with (Z.opp 1) in *. rewrite (Z.quot_opp_r n 1) by lia. rewrite Z.quot_1_r.
    assert (n ≠ -9223372036854775808) by congruence. lia. }
  split; [done |]. split; [| done]. rewrite Eq. cbn [mbind outcome_bind]. do 2 f_equal.
  pose proof (Z.quot_rem n d Hd0) as Hqr. pose proof (Z.rem_bound_abs n d Hd0).
  assert (Z.abs (d * Z.quot n d) ≤ Z.abs n) as Hle.
  { rewrite Z.abs_mul, <-Z.quot_abs, Z.quot_div_nonneg by lia. apply Z.mul_div_le. lia. }
  rewrite (i64_id (d * _)) by lia. rewrite i64_id; lia.
Qed.

Lemma signed_division_correct_witness :
  __divdi3 (-7) 2 = Ok (-3) ∧ __moddi3 (-7) 2 = Ok (-1) ∧
  __moddi3 4294967296 8589934592 = Ok 0 ∧ Z.rem 4294967296 8589934592 = 4294967296.
Proof.
  split; [| split; [| split]].
  - refine (eq_trans (proj1 (signed_division_correct _ _ _ _ _)) _); [lia | lia | lia | reflexivity].
  - refine (eq_trans (proj1 (proj2 (signed_division_correct _ _ _ _ _))) _); [lia | lia | lia | reflexivity].
  - refine (eq_trans (proj1 (proj2 (signed_division_correct _ _ _ _ _))) _); [lia | lia | lia | reflexivity].
  - reflexivity.
Defined.
