(* ===== verification/Bytes.v ===== *)
(** Bytes in memory: the representation of 32-bit words, and lists indexed the
    way C arrays are. *)
From S2P Require Import Prelude.
Local Open Scope Z_scope.

(** ** Bytes in memory *)

(** Bytes, and the four of an [unsigned] in memory (little-endian). *)
Definition is_byte (b : Z) : Prop := (0 ≤ b < 256).

#[export] Instance is_byte_dec b : Decision (is_byte b).
Proof. unfold is_byte. apply _. Defined.

Definition bytes_of_u32 (x : Z) : list Z :=
  [u8 x; u8 (Z.shiftr x 8); u8 (Z.shiftr x 16); u8 (Z.shiftr x 24)].

Definition u32_of_bytes (bs : list Z) : Z :=
  foldr (λ b x, b + 256 * x) 0 bs.

Lemma u32_of_bytes_inv bs :
  length bs = 4%nat → Forall is_byte bs →
  (0 ≤ u32_of_bytes bs < 4294967296) ∧ bytes_of_u32 (u32_of_bytes bs) = bs.
Proof.
  intros Hl Hb. destruct bs as [|a [|b [|c [|d [|]]]]]; try discriminate Hl.
  repeat (apply Forall_cons in Hb as [? Hb]). unfold is_byte, u32_of_bytes in *; cbn [foldr].
  split; [lia |]. unfold bytes_of_u32. rewrite !Z.shiftr_div_pow2 by lia.
  unfold wrap_u. change (2 ^ 8) with 256; change (2 ^ 16) with 65536; change (2 ^ 24) with 16777216.
  repeat f_equal; Z.to_euclidean_division_equations; lia.
Qed.

Lemma bytes_of_u32_inv x : (0 ≤ x < 4294967296) → u32_of_bytes (bytes_of_u32 x) = x.
Proof.
  intros. unfold u32_of_bytes, bytes_of_u32; cbn [foldr]. rewrite !Z.shiftr_div_pow2 by lia.
  unfold wrap_u. change (2 ^ 8) with 256; change (2 ^ 16) with 65536; change (2 ^ 24) with 16777216.
  Z.to_euclidean_division_equations; lia.
Qed.

Lemma bytes_of_u32_byte x : Forall is_byte (bytes_of_u32 x).
Proof. repeat constructor; apply u8_range. Qed.

