(* ===== verification/Random.v ===== *)
(** lib/random.c: the RC4-based generator.  Its file-scope variables are a
    record; an [uint8_t] index into the 256-byte state cannot be out of
    range. *)
From S2P Require Import Prelude Bytes.
Local Open Scope Z_scope.

(** ** The code *)

Record rng := Rng {
  rc4_s : list Z;       (** s[256] *)
  rc4_i : Z;            (** s_i *)
  rc4_j : Z;            (** s_j *)
  inited : bool
}.

(** The generator before its first use: static storage is zero. *)
Definition rng_initial : rng := Rng (replicate 256 0) 0 0 false.

Definition swap_byte (a b : Z) (s : list Z) : list Z :=
  let t := s !!! Z.to_nat a in
  <[Z.to_nat b := t]> (<[Z.to_nat a := s !!! Z.to_nat b]> s).

(** One turn of the key schedule. *)
Definition random_init_step (seed : Z) (sj : list Z * Z) (i : Z) : list Z * Z :=
  let '(s, j) := sj in
  let j := u8 (j + (s !!! Z.to_nat i + bytes_of_u32 seed !!! Z.to_nat (i `mod` 4))) in
  (swap_byte i j s, j).

Definition random_init (seed : Z) (_ : rng) : rng :=
  let s := seqZ 0 256 in
  Rng (foldl (random_init_step seed) (s, 0) (seqZ 0 256)).1 0 0 true.

(** One turn of the loop of [random_bytes]. *)
Definition random_byte (r : rng) : Z * rng :=
  let s_i := u8 (rc4_i r + 1) in
  let s_j := u8 (rc4_j r + rc4_s r !!! Z.to_nat s_i) in
  let s := swap_byte s_i s_j (rc4_s r) in
  let s_k := u8 (s !!! Z.to_nat s_i + s !!! Z.to_nat s_j) in
  (s !!! Z.to_nat s_k, Rng s s_i s_j (inited r)).

Fixpoint random_bytes_loop (size : nat) (r : rng) : list Z * rng :=
  match size with
  | O => ([], r)
  | S size =>
      let '(b, r) := random_byte r in
      let '(bs, r) := random_bytes_loop size r in (b :: bs, r)
  end.

(** [random_bytes] returns the bytes it stores to [buf]. *)
Definition random_bytes (size : nat) (r : rng) : list Z * rng :=
  random_bytes_loop size (if inited r then r else random_init 0 r).

Definition random_ulong (r : rng) : Z * rng :=
  let '(bs, r) := random_bytes 4 r in (u32_of_bytes bs, r).

(** ** The state *)

(** What every initialized generator satisfies: the state is a permutation of
    the 256 bytes, and the indices are bytes. *)
Definition rng_ok (r : rng) : Prop :=
  rc4_s r ≡ₚ seqZ 0 256 ∧ 0 ≤ rc4_i r < 256 ∧ 0 ≤ rc4_j r < 256 ∧ inited r = true.

Lemma swap_byte_perm a b s :
  0 ≤ a < 256 → 0 ≤ b < 256 → s ≡ₚ seqZ 0 256 → swap_byte a b s ≡ₚ seqZ 0 256.
Proof.
  intros Ha Hb Hs. rewrite <-Hs. unfold swap_byte.
  assert (length s = 256%nat) as Hl by (by rewrite Hs).
  destruct (lookup_lt_is_Some_2 s (Z.to_nat a)) as [x Hx]; [lia |].
  destruct (lookup_lt_is_Some_2 s (Z.to_nat b)) as [y Hy]; [lia |].
  rewrite (list_lookup_total_correct _ _ _ Hx), (list_lookup_total_correct _ _ _ Hy).
  by apply Permutation_insert_swap.
Qed.

Lemma perm_byte s i : s ≡ₚ seqZ 0 256 → 0 ≤ i < 256 → 0 ≤ s !!! Z.to_nat i < 256.
Proof.
  intros Hs Hi. assert (length s = 256%nat) as Hl by (by rewrite Hs).
  destruct (lookup_lt_is_Some_2 s (Z.to_nat i)) as [x Hx]; [lia |].
  rewrite (list_lookup_total_correct _ _ _ Hx).
  apply list_elem_of_lookup_2 in Hx. rewrite Hs in Hx. apply elem_of_seqZ in Hx. lia.
Qed.

Lemma random_init_ok seed r : rng_ok (random_init seed r).
Proof.
  unfold rng_ok, random_init; cbn [rc4_s rc4_i rc4_j inited]. split; [| by split_and!; try lia].
  assert (∀ l s j, s ≡ₚ seqZ 0 256 → Forall (λ i, 0 ≤ i < 256) l →
    (foldl (random_init_step seed) (s, j) l).1 ≡ₚ seqZ 0 256) as H.
  { induction l as [|i l IH]; intros s j Hs Hl; [done |].
    apply Forall_cons in Hl as [Hi Hl]. cbn [foldl]. apply IH; [| done].
    apply swap_byte_perm; [done | apply u8_range | done]. }
  apply H; [done |]. apply Forall_forall. intros i Hi%elem_of_seqZ. lia.
Qed.

Lemma random_byte_ok r : rng_ok r → rng_ok (random_byte r).2 ∧ 0 ≤ (random_byte r).1 < 256.
Proof.
  intros (Hs & Hi & Hj & Hin). unfold rng_ok, random_byte; cbn [fst snd rc4_s rc4_i rc4_j inited].
  pose proof (swap_byte_perm (u8 (rc4_i r + 1)) (u8 (rc4_j r + rc4_s r !!! Z.to_nat (u8 (rc4_i r + 1)))) _
    (u8_range _) (u8_range _) Hs) as Hp.
  split; [split; [done | split; [apply u8_range | split; [apply u8_range | done]]] |].
  apply perm_byte; [done | apply u8_range].
Qed.

Lemma random_bytes_loop_ok n r :
  rng_ok r → rng_ok (random_bytes_loop n r).2 ∧ Forall is_byte (random_bytes_loop n r).1 ∧
  length (random_bytes_loop n r).1 = n.
Proof.
  revert r. induction n as [|n IH]; intros r Hr; [cbn; split; [done | split; [constructor | done]] |].
  cbn [random_bytes_loop].
  destruct (random_byte_ok r Hr) as [H1 H2]. destruct (random_byte r) as [b r1]. cbn in *.
  destruct (IH r1 H1) as (H3 & H4 & H5). destruct (random_bytes_loop n r1) as [bs r2]. cbn in *.
  split; [done |]. split; [by constructor | by rewrite H5].
Qed.

Lemma random_bytes_loop_app n m r :
  random_bytes_loop (n + m) r =
    let '(bs1, r1) := random_bytes_loop n r in
    let '(bs2, r2) := random_bytes_loop m r1 in (bs1 ++ bs2, r2).
Proof.
  revert r. induction n as [|n IH]; intros r; [by cbn; destruct (random_bytes_loop m r) |].
  cbn [random_bytes_loop Nat.add]. destruct (random_byte r) as [b r1]. rewrite IH.
  destruct (random_bytes_loop n r1) as [bs1 r2]. by destruct (random_bytes_loop m r2).
Qed.

Lemma random_bytes_ok n r :
  (inited r = true → rng_ok r) →
  rng_ok (random_bytes n r).2 ∧ Forall is_byte (random_bytes n r).1 ∧
  length (random_bytes n r).1 = n.
Proof.
  intros Hr. apply random_bytes_loop_ok. destruct (inited r); [auto | apply random_init_ok].
Qed.

(** ** The bytes *)

(** The generator's state stays well formed (the 256 bytes are a
    permutation, whatever the seed), every call returns the bytes asked for,
    and the bytes form one stream that does not depend on how calls divide it:
    asking for [n] bytes and then for [m] gives what asking for [n + m] gives.
    [random_ulong] is the 32-bit number whose bytes are the next four.
    Seeding makes the stream a function of the seed alone. *)
Theorem random_stream_correct r n m :
  (inited r = true → rng_ok r) →
  let '(bs1, r1) := random_bytes n r in
  let '(bs2, r2) := random_bytes m r1 in
  random_bytes (n + m) r = (bs1 ++ bs2, r2) ∧ rng_ok r1 ∧
  length bs1 = n ∧ Forall is_byte bs1 ∧
  (let '(ul, r3) := random_ulong r in
   random_bytes 4 r = (bytes_of_u32 ul, r3) ∧ 0 ≤ ul < 4294967296) ∧
  ∀ seed r', rng_ok (random_init seed r) ∧
    random_bytes n (random_init seed r) = random_bytes n (random_init seed r').
Proof.
  intros Hr. destruct (random_bytes_ok n r Hr) as (H1 & H2 & H3).
  destruct (random_bytes n r) as [bs1 r1] eqn:E1. cbn in H1, H2, H3.
  destruct (random_bytes m r1) as [bs2 r2] eqn:E2.
  assert (let '(ul, r3) := random_ulong r in
    random_bytes 4 r = (bytes_of_u32 ul, r3) ∧ 0 ≤ ul < 4294967296) as Hul.
  { unfold random_ulong. destruct (random_bytes_ok 4 r Hr) as (_ & H5 & H6).
    destruct (random_bytes 4 r) as [bs r3]. destruct (u32_of_bytes_inv bs H6 H5) as [? ->]. done. }
  split; [| split; [done | split; [done | split; [done | split; [done |
    intros; split; [apply random_init_ok | done]]]]]].
  unfold random_bytes in *. rewrite random_bytes_loop_app, E1.
  destruct H1 as (_ & _ & _ & Hin). rewrite Hin in E2. by rewrite E2.
Qed.

Lemma random_stream_correct_witness :
  random_bytes (2 + 3) rng_initial =
    ((random_bytes 2 rng_initial).1 ++ (random_bytes 3 (random_bytes 2 rng_initial).2).1,
     (random_bytes 3 (random_bytes 2 rng_initial).2).2).
Proof.
  assert (inited rng_initial = true → rng_ok rng_initial) as H by (intros H; discriminate H).
  pose proof (random_stream_correct rng_initial 2 3 H) as T.
  destruct (random_bytes 2 rng_initial) as [bs1 r1]. cbn [fst snd].
  destruct (random_bytes 3 r1) as [bs2 r2]. exact (proj1 T).
Defined.
