(* ===== verification/Bitmap.v ===== *)
(** lib/kernel/bitmap.c: an array of bits packed in 32-bit words.

    A [struct bitmap *] argument is the structure itself ([ASSERT (b != NULL)]
    is the type); an access to [b->bits] outside the words allocated is
    [BadPointer].  Memory comes from [malloc], whose answers are arguments of
    [bitmap_create].  [size_t] arithmetic is written with its wrap-around. *)
From S2P Require Import Prelude Bytes.
Local Open Scope Z_scope.

(** ** The code *)

Definition ELEM_BITS : Z := 32.
Definition BITMAP_ERROR : Z := 4294967295.

Record bitmap := Bitmap { bit_cnt : Z; bits : list Z }.

Definition elem_idx (bit_idx : Z) : Z := bit_idx / ELEM_BITS.
Definition bit_mask (bit_idx : Z) : Z := u32 (Z.shiftl 1 (bit_idx `mod` ELEM_BITS)).
Definition elem_cnt (bit_cnt : Z) : Z := u32 (bit_cnt + ELEM_BITS - 1) / ELEM_BITS.
Definition byte_cnt (bit_cnt : Z) : Z := u32 (4 * elem_cnt bit_cnt).
Definition last_mask (b : bitmap) : Z :=
  let last_bits := bit_cnt b `mod` ELEM_BITS in
  if last_bits =? 0 then u32 (-1) else u32 (u32 (Z.shiftl 1 last_bits) - 1).

Definition bitmap_size (b : bitmap) : Z := bit_cnt b.

(** One locked instruction on the word that holds a bit. *)
Definition update_word (f : Z → Z) (b : bitmap) (idx : Z) : outcome bitmap :=
  w ← from_option_err BadPointer (bits b !! Z.to_nat idx);
  Ok (Bitmap (bit_cnt b) (<[Z.to_nat idx := f w]> (bits b))).

Definition bitmap_mark (b : bitmap) (bit_idx : Z) : outcome bitmap :=
  update_word (λ w, Z.lor w (bit_mask bit_idx)) b (elem_idx bit_idx).

Definition bitmap_reset (b : bitmap) (bit_idx : Z) : outcome bitmap :=
  update_word (λ w, Z.land w (u32 (Z.lnot (bit_mask bit_idx)))) b (elem_idx bit_idx).

Definition bitmap_flip (b : bitmap) (bit_idx : Z) : outcome bitmap :=
  update_word (λ w, Z.lxor w (bit_mask bit_idx)) b (elem_idx bit_idx).

Definition bitmap_set (b : bitmap) (idx : Z) (value : bool) : outcome bitmap :=
  assert_that (idx <? bit_cnt b);;
  if value then bitmap_mark b idx else bitmap_reset b idx.

Definition bitmap_test (b : bitmap) (idx : Z) : outcome bool :=
  assert_that (idx <? bit_cnt b);;
  w ← from_option_err BadPointer (bits b !! Z.to_nat (elem_idx idx));
  Ok (negb (Z.land w (bit_mask idx) =? 0)).

(** [for (i = 0; i < cnt; i++)], with [n] turns left. *)
Fixpoint set_multiple_loop (n : nat) (b : bitmap) (start i : Z) (value : bool) : outcome bitmap :=
  match n with
  | O => Ok b
  | S n => b ← bitmap_set b (u32 (start + i)) value; set_multiple_loop n b start (i + 1) value
  end.

(** The assertions at the head of the functions on a range. *)
Definition range_asserts (b : bitmap) (start cnt : Z) : outcome unit :=
  assert_that (start <=? bit_cnt b);; assert_that (u32 (start + cnt) <=? bit_cnt b).

Definition bitmap_set_multiple (b : bitmap) (start cnt : Z) (value : bool) : outcome bitmap :=
  range_asserts b start cnt;; set_multiple_loop (Z.to_nat cnt) b start 0 value.

Definition bitmap_set_all (b : bitmap) (value : bool) : outcome bitmap :=
  bitmap_set_multiple b 0 (bitmap_size b) value.

Fixpoint count_loop (n : nat) (b : bitmap) (start i : Z) (value : bool) (value_cnt : Z) : outcome Z :=
  match n with
  | O => Ok value_cnt
  | S n =>
      t ← bitmap_test b (u32 (start + i));
      count_loop n b start (i + 1) value (if eqb t value then u32 (value_cnt + 1) else value_cnt)
  end.

Definition bitmap_count (b : bitmap) (start cnt : Z) (value : bool) : outcome Z :=
  range_asserts b start cnt;; count_loop (Z.to_nat cnt) b start 0 value 0.

Fixpoint contains_loop (n : nat) (b : bitmap) (start i : Z) (value : bool) : outcome bool :=
  match n with
  | O => Ok false
  | S n =>
      t ← bitmap_test b (u32 (start + i));
      if eqb t value then Ok true else contains_loop n b start (i + 1) value
  end.

Definition bitmap_contains (b : bitmap) (start cnt : Z) (value : bool) : outcome bool :=
  range_asserts b start cnt;; contains_loop (Z.to_nat cnt) b start 0 value.

Definition bitmap_any (b : bitmap) (start cnt : Z) : outcome bool :=
  bitmap_contains b start cnt true.

Definition bitmap_none (b : bitmap) (start cnt : Z) : outcome bool :=
  c ← bitmap_contains b start cnt true; Ok (negb c).

Definition bitmap_all (b : bitmap) (start cnt : Z) : outcome bool :=
  c ← bitmap_contains b start cnt false; Ok (negb c).

(** [for (i = start; i <= last; i++)], with [n] turns left. *)
Fixpoint scan_loop (n : nat) (b : bitmap) (i cnt : Z) (value : bool) : outcome Z :=
  match n with
  | O => Ok BITMAP_ERROR
  | S n =>
      c ← bitmap_contains b i cnt (negb value);
      if negb c then Ok i else scan_loop n b (u32 (i + 1)) cnt value
  end.

Definition bitmap_scan (b : bitmap) (start cnt : Z) (value : bool) : outcome Z :=
  assert_that (start <=? bit_cnt b);;
  if cnt <=? bit_cnt b then
    let last := bit_cnt b - cnt in
    scan_loop (Z.to_nat (last - start + 1)) b start cnt value
  else Ok BITMAP_ERROR.

Definition bitmap_scan_and_flip (b : bitmap) (start cnt : Z) (value : bool) : outcome (Z * bitmap) :=
  idx ← bitmap_scan b start cnt value;
  if idx =? BITMAP_ERROR then Ok (idx, b)
  else b ← bitmap_set_multiple b idx cnt (negb value); Ok (idx, b).

(** [malloc_b] tells whether the first [malloc] succeeds; [malloc_bits] is the
    block the second one returns, as words of unknown contents. *)
Definition bitmap_create (malloc_b : bool) (malloc_bits : option (list Z)) (bit_cnt : Z)
    : outcome (option bitmap) :=
  if negb malloc_b then Ok None
  else match malloc_bits with
  | Some words => b ← bitmap_set_all (Bitmap bit_cnt words) false; Ok (Some b)
  | None =>
      if bit_cnt =? 0 then b ← bitmap_set_all (Bitmap bit_cnt []) false; Ok (Some b)
      else Ok None
  end.

(** [sizeof (struct bitmap)] is 8: a count and a pointer. *)
Definition bitmap_buf_size (bit_cnt : Z) : Z := u32 (8 + byte_cnt bit_cnt).

(** [words] is the rest of the block, after the structure. *)
Definition bitmap_create_in_buf (bit_cnt : Z) (words : list Z) (block_size : Z) : outcome bitmap :=
  assert_that (bitmap_buf_size bit_cnt <=? block_size);;
  bitmap_set_all (Bitmap bit_cnt words) false.

(** The words as bytes of memory, and back. *)
Definition bytes_of_words (ws : list Z) : list Z := ws ≫= bytes_of_u32.

Fixpoint words_of_bytes (bs : list Z) : list Z :=
  match bs with
  | b0 :: b1 :: b2 :: b3 :: bs => u32_of_bytes [b0; b1; b2; b3] :: words_of_bytes bs
  | _ => []
  end.

Definition bitmap_file_size (b : bitmap) : Z := byte_cnt (bit_cnt b).

(** [bitmap_write] hands the bytes of the words to [file_write_at]; [wrote] is
    what that returns. *)
Definition bitmap_write_bytes (b : bitmap) : list Z :=
  take (Z.to_nat (byte_cnt (bit_cnt b))) (bytes_of_words (bits b)).

Definition bitmap_write (b : bitmap) (wrote : Z) : bool := wrote =? byte_cnt (bit_cnt b).

(** [got] is what [file_read_at] stores over the words; it returns its
    length. *)
Definition bitmap_read (b : bitmap) (got : list Z) : outcome (bool * bitmap) :=
  if 0 <? bit_cnt b then
    let size := byte_cnt (bit_cnt b) in
    let b := Bitmap (bit_cnt b) (words_of_bytes (got ++ drop (length got) (bytes_of_words (bits b)))) in
    let success := Z.of_nat (length got) =? size in
    b ← update_word (λ w, Z.land w (last_mask b)) b (elem_cnt (bit_cnt b) - 1);
    Ok (success, b)
  else Ok (true, b).

(** ** The specification: the same operations on a sequence of bits *)

(** The range [start, start + cnt) of a sequence, and a range set to [v]. *)
Definition slice (start cnt : Z) (l : list bool) : list bool :=
  take (Z.to_nat cnt) (drop (Z.to_nat start) l).

Definition fill (start cnt : Z) (v : bool) (l : list bool) : list bool :=
  take (Z.to_nat start) l ++ replicate (Z.to_nat cnt) v ++ drop (Z.to_nat (start + cnt)) l.

(** The range [start, start + cnt) holds only [v]. *)
Definition run (start cnt : Z) (v : bool) (l : list bool) : Prop :=
  slice start cnt l = replicate (Z.to_nat cnt) v.

#[export] Instance run_dec start cnt v l : Decision (run start cnt v l).
Proof. unfold run. apply _. Defined.

(** The first run of [cnt] bits [v] that starts at [start] or later. *)
Definition first_run (start cnt : Z) (v : bool) (l : list bool) : option Z :=
  head (filter (λ i, run i cnt v l) (seqZ start (Z.of_nat (length l) - cnt - start + 1))).

Inductive bitmap_op :=
| OpSet (i : Z) (v : bool)
| OpFlip (i : Z)
| OpTest (i : Z)
| OpSetMultiple (start cnt : Z) (v : bool)
| OpSetAll (v : bool)
| OpCount (start cnt : Z) (v : bool)
| OpContains (start cnt : Z) (v : bool)
| OpAny (start cnt : Z)
| OpNone (start cnt : Z)
| OpAll (start cnt : Z)
| OpScan (start cnt : Z) (v : bool)
| OpScanAndFlip (start cnt : Z) (v : bool).

(** An operation of the C code, with its result as a number. *)
Definition exec_op (o : bitmap_op) (b : bitmap) : outcome (Z * bitmap) :=
  let change m := b ← m; Ok (0, b) in
  let query m := r ← m; Ok (Z.b2z r, b) in
  match o with
  | OpSet i v => change (bitmap_set b i v)
  | OpFlip i => change (bitmap_flip b i)
  | OpTest i => query (bitmap_test b i)
  | OpSetMultiple start cnt v => change (bitmap_set_multiple b start cnt v)
  | OpSetAll v => change (bitmap_set_all b v)
  | OpCount start cnt v => r ← bitmap_count b start cnt v; Ok (r, b)
  | OpContains start cnt v => query (bitmap_contains b start cnt v)
  | OpAny start cnt => query (bitmap_any b start cnt)
  | OpNone start cnt => query (bitmap_none b start cnt)
  | OpAll start cnt => query (bitmap_all b start cnt)
  | OpScan start cnt v => r ← bitmap_scan b start cnt v; Ok (r, b)
  | OpScanAndFlip start cnt v => bitmap_scan_and_flip b start cnt v
  end.

Definition spec_op (o : bitmap_op) (l : list bool) : outcome (Z * list bool) :=
  let len := Z.of_nat (length l) in
  let range start cnt := assert_that (start + cnt <=? len) in
  let query start cnt (P : list bool → bool) :=
    range start cnt;; Ok (Z.b2z (P (slice start cnt l)), l) in
  let scan start cnt v := assert_that (start <=? len);; Ok (first_run start cnt v l) in
  match o with
  | OpSet i v => assert_that (i <? len);; Ok (0, <[Z.to_nat i := v]> l)
  | OpFlip i => Ok (0, alter negb (Z.to_nat i) l)
  | OpTest i => assert_that (i <? len);; Ok (Z.b2z (l !!! Z.to_nat i), l)
  | OpSetMultiple start cnt v => range start cnt;; Ok (0, fill start cnt v l)
  | OpSetAll v => Ok (0, replicate (length l) v)
  | OpCount start cnt v =>
      range start cnt;; Ok (Z.of_nat (length (filter (λ x, x = v) (slice start cnt l))), l)
  | OpContains start cnt v => query start cnt (λ s, bool_decide (v ∈ s))
  | OpAny start cnt => query start cnt (λ s, bool_decide (true ∈ s))
  | OpNone start cnt => query start cnt (λ s, bool_decide (true ∉ s))
  | OpAll start cnt => query start cnt (λ s, bool_decide (false ∉ s))
  | OpScan start cnt v => r ← scan start cnt v; Ok (default BITMAP_ERROR r, l)
  | OpScanAndFlip start cnt v =>
      r ← scan start cnt v;
      Ok (match r with Some i => (i, fill i cnt (negb v) l) | None => (BITMAP_ERROR, l) end)
  end.

(** Arguments of the C types for which [start + cnt] does not wrap; the
    functions without an assertion need an index in range. *)
Definition op_ok (o : bitmap_op) (size : Z) : Prop :=
  match o with
  | OpSet i _ | OpTest i => 0 ≤ i
  | OpFlip i => 0 ≤ i < size
  | OpSetAll _ => True
  | OpSetMultiple start cnt _ | OpCount start cnt _ | OpContains start cnt _
  | OpAny start cnt | OpNone start cnt | OpAll start cnt
  | OpScan start cnt _ | OpScanAndFlip start cnt _ =>
      0 ≤ start ∧ 0 ≤ cnt ∧ start + cnt < 4294967296
  end.

(** Sequences of operations, with all their results. *)
Fixpoint exec_ops (os : list bitmap_op) (b : bitmap) : outcome (list Z * bitmap) :=
  match os with
  | [] => Ok ([], b)
  | o :: os => '(r, b) ← exec_op o b; '(rs, b) ← exec_ops os b; Ok (r :: rs, b)
  end.

Fixpoint spec_ops (os : list bitmap_op) (l : list bool) : outcome (list Z * list bool) :=
  match os with
  | [] => Ok ([], l)
  | o :: os => '(r, l) ← spec_op o l; '(rs, l) ← spec_ops os l; Ok (r :: rs, l)
  end.

(** ** The sequence of bits it implements *)

Definition bit_at (b : bitmap) (i : nat) : bool :=
  Z.testbit (bits b !!! (i / 32)%nat) (Z.of_nat (i `mod` 32)).

Definition bits_of (b : bitmap) : list bool := bit_at b <$> seq 0 (Z.to_nat (bit_cnt b)).

Definition bitmap_ok (b : bitmap) : Prop :=
  0 ≤ bit_cnt b ≤ 4294967264 ∧ length (bits b) = Z.to_nat (elem_cnt (bit_cnt b)) ∧
  Forall (λ w, 0 ≤ w < 4294967296) (bits b).

(** *** Words and bits *)

Lemma elem_cnt_eq n : 0 ≤ n ≤ 4294967264 → elem_cnt n = (n + 31) / 32.
Proof.
  intros. unfold elem_cnt, ELEM_BITS. replace (n + 32 - 1) with (n + 31) by lia. by rewrite u32_id by lia.
Qed.

Lemma bits_of_length b : length (bits_of b) = Z.to_nat (bit_cnt b).
Proof. unfold bits_of. by rewrite length_fmap, length_seq. Qed.

Lemma bits_of_lookup b (i : nat) :
  (i < Z.to_nat (bit_cnt b))%nat → bits_of b !! i = Some (bit_at b i).
Proof. intros. unfold bits_of. by rewrite list_lookup_fmap, lookup_seq_lt by done. Qed.

Lemma bits_of_lookup_total b i : 0 ≤ i < bit_cnt b → bits_of b !!! Z.to_nat i = bit_at b (Z.to_nat i).
Proof. intros. apply list_lookup_total_correct, bits_of_lookup. lia. Qed.

Lemma bit_mask_eq i : 0 ≤ i → bit_mask i = 2 ^ (i `mod` 32) ∧ 0 < 2 ^ (i `mod` 32) ≤ 2147483648.
Proof.
  intros. unfold bit_mask, ELEM_BITS. pose proof (Z.mod_pos_bound i 32).
  rewrite Z.shiftl_mul_pow2, Z.mul_1_l by lia.
  assert (0 < 2 ^ (i `mod` 32)) by (apply Z.pow_pos_nonneg; lia).
  assert (2 ^ (i `mod` 32) ≤ 2 ^ 31) by (apply Z.pow_le_mono_r; lia).
  rewrite u32_id by lia. lia.
Qed.

Lemma land_pow2 w k : 0 ≤ k → negb (Z.land w (2 ^ k) =? 0) = Z.testbit w k.
Proof.
  intros Hk. destruct (Z.eqb_spec (Z.land w (2 ^ k)) 0) as [E|E]; cbn.
  - symmetry. apply (f_equal (λ x, Z.testbit x k)) in E.
    rewrite Z.land_spec, Z.pow2_bits_true, andb_true_r, Z.bits_0 in E by done. done.
  - destruct (Z.testbit w k) eqn:T; [done |]. exfalso. apply E. apply Z.bits_inj'. intros n Hn.
    rewrite Z.land_spec, Z.bits_0. destruct (decide (n = k)) as [-> |]; [by rewrite T |].
    rewrite Z.pow2_bits_false by done. by rewrite andb_false_r.
Qed.

Lemma u32_bits_iff w : 0 ≤ w → (w < 4294967296 ↔ ∀ k, 32 ≤ k → Z.testbit w k = false).
Proof.
  intros Hw. split.
  - intros Hl k Hk. apply Z.bits_above_log2; [done |].
    destruct (decide (w = 0)) as [-> |]; [cbn; lia |].
    assert (Z.log2 w < 32); [apply Z.log2_lt_pow2 | ]; lia.
  - intros Hb. destruct (decide (w = 0)) as [-> |]; [lia |].
    destruct (Z.lt_ge_cases w 4294967296) as [|Hge]; [done | exfalso].
    assert (32 ≤ Z.log2 w) by (apply Z.log2_le_pow2; lia).
    pose proof (Z.bit_log2 w). rewrite Hb in * by done. assert (0 < w) by lia. intuition done.
Qed.

Lemma bitmap_word b i :
  bitmap_ok b → 0 ≤ i < bit_cnt b →
  ∃ w, bits b !! Z.to_nat (elem_idx i) = Some w ∧ 0 ≤ w < 4294967296 ∧
    bit_at b (Z.to_nat i) = Z.testbit w (i `mod` 32).
Proof.
  intros (Hc & Hl & Hw) Hi. unfold elem_idx, ELEM_BITS.
  rewrite elem_cnt_eq in Hl by done.
  destruct (lookup_lt_is_Some_2 (bits b) (Z.to_nat (i / 32))) as [w E].
  { rewrite Hl. Z.to_euclidean_division_equations; lia. }
  exists w. split_and!; [done | by eapply (proj1 (Forall_lookup _ _) Hw) .. |].
  unfold bit_at. f_equal.
  - apply list_lookup_total_correct. rewrite <-E. f_equal. rewrite Z2Nat.inj_div by lia. done.
  - rewrite Nat2Z.inj_mod, Z2Nat.id by lia. done.
Qed.

Lemma bitmap_test_ok b i :
  bitmap_ok b → 0 ≤ i →
  bitmap_test b i = if i <? bit_cnt b then Ok (bits_of b !!! Z.to_nat i) else Err AssertFail.
Proof.
  intros Hb Hi. unfold bitmap_test. destruct (Z.ltb_spec i (bit_cnt b)) as [Hlt|]; [| done].
  destruct (bitmap_word b i) as (w & E & Hw & Et); [done | lia |].
  cbn. rewrite E. cbn. destruct (bit_mask_eq i Hi) as [-> _].
  rewrite bits_of_lookup_total, Et by lia. f_equal. apply land_pow2. by apply Z.mod_pos_bound.
Qed.

(** An instruction that changes one bit of a word by [g] changes that bit of
    the sequence by [g]. *)
Lemma update_word_ok f g b i :
  bitmap_ok b → 0 ≤ i < bit_cnt b →
  (∀ w, 0 ≤ w < 4294967296 → 0 ≤ f w ∧
    ∀ k, 0 ≤ k → Z.testbit (f w) k = if decide (k = i `mod` 32) then g (Z.testbit w k) else Z.testbit w k) →
  ∃ b', update_word f b (elem_idx i) = Ok b' ∧ bitmap_ok b' ∧ bit_cnt b' = bit_cnt b ∧
    bits_of b' = alter g (Z.to_nat i) (bits_of b).
Proof.
  intros Hb Hi Hf. destruct (bitmap_word b i Hb Hi) as (w & E & Hw & _).
  destruct (Hf w Hw) as [Hf0 Hfb]. destruct Hb as (Hc & Hl & Hws).
  unfold update_word. rewrite E. cbn. eexists; split; [done |]. cbn.
  assert (f w < 4294967296).
  { apply u32_bits_iff; [done |]. intros k Hk. rewrite Hfb by lia.
    rewrite decide_False by (pose proof (Z.mod_pos_bound i 32); lia). by apply (u32_bits_iff w); lia. }
  split; [split_and!; cbn; [lia | lia | by rewrite length_insert | by apply Forall_insert] |].
  split; [done |]. apply list_eq. intros j.
  destruct (decide (j < Z.to_nat (bit_cnt b))%nat) as [Hj|Hj].
  2: { rewrite !lookup_ge_None_2; [done | rewrite length_alter |]; rewrite bits_of_length; cbn; lia. }
  rewrite bits_of_lookup by done. assert (elem_idx i = i / 32) as Ei by done.
  unfold bit_at; cbn [bits].
  assert (Z.to_nat (elem_idx i) = (Z.to_nat i / 32)%nat) as Ei2 by (rewrite Ei, Z2Nat.inj_div by lia; done).
  rewrite Ei2 in *.
  destruct (decide (j / 32 = Z.to_nat i / 32)%nat) as [Ej|Ej].
  - rewrite Ej, list_lookup_total_insert_eq by (eapply lookup_lt_Some; exact E).
    rewrite Hfb by lia. destruct (decide (j = Z.to_nat i)) as [-> |Hne].
    + rewrite list_lookup_alter_eq. rewrite bits_of_lookup by done. cbn [fmap option_fmap option_map].
      rewrite decide_True.
      2: { rewrite Nat2Z.inj_mod, Z2Nat.id by lia. done. }
      unfold bit_at. by rewrite (list_lookup_total_correct _ _ _ E).
    + rewrite list_lookup_alter_ne by done. rewrite bits_of_lookup by done.
      rewrite decide_False.
      2: { rewrite Nat2Z.inj_mod. change (Z.of_nat 32) with 32. intros Hm. apply Hne.
           apply (f_equal Z.of_nat) in Ej. rewrite !Nat2Z.inj_div, Z2Nat.id in Ej by lia.
           change (Z.of_nat 32) with 32 in Ej.
           pose proof (Z.div_mod (Z.of_nat j) 32 ltac:(lia)). pose proof (Z.div_mod i 32 ltac:(lia)). lia. }
      unfold bit_at. by rewrite Ej, (list_lookup_total_correct _ _ _ E).
  - rewrite list_lookup_total_insert_ne by done.
    rewrite list_lookup_alter_ne by (intros <-; done). by rewrite bits_of_lookup.
Qed.

Lemma bitmap_set_ok b i v :
  bitmap_ok b → 0 ≤ i < bit_cnt b →
  ∃ b', bitmap_set b i v = Ok b' ∧ bitmap_ok b' ∧ bit_cnt b' = bit_cnt b ∧
    bits_of b' = <[Z.to_nat i := v]> (bits_of b).
Proof.
  intros Hb Hi. unfold bitmap_set. destruct (Z.ltb_spec i (bit_cnt b)); [| lia]. cbn [assert_that].
  destruct (bit_mask_eq i) as [Em Hm]; [lia |]. pose proof (Z.mod_pos_bound i 32 ltac:(lia)).
  destruct (update_word_ok (λ w, if v then Z.lor w (bit_mask i) else Z.land w (u32 (Z.lnot (bit_mask i))))
    (λ _, v) b i) as (b' & E & H1 & H2 & H3); [done | done | |].
  - intros w Hw. rewrite Em. destruct v.
    + split; [apply Z.lor_nonneg; lia |]. intros k Hk. rewrite Z.lor_spec.
      destruct (decide _) as [-> |]; [by rewrite Z.pow2_bits_true, orb_true_r by lia |].
      by rewrite Z.pow2_bits_false, orb_false_r by lia.
    + split; [apply Z.land_nonneg; lia |]. intros k Hk. rewrite Z.land_spec. unfold wrap_u.
      destruct (Z.lt_ge_cases k 32).
      * rewrite Z.mod_pow2_bits_low, Z.lnot_spec by lia.
        destruct (decide _) as [-> |]; [by rewrite Z.pow2_bits_true, andb_false_r by lia |].
        by rewrite Z.pow2_bits_false, andb_true_r by lia.
      * rewrite decide_False by lia. by rewrite (proj1 (u32_bits_iff w ltac:(lia)) ltac:(lia)).
  - exists b'. split_and!; [| done | done |].
    + destruct v; exact E.
    + rewrite H3. apply list_eq. intros j. destruct (decide (j = Z.to_nat i)) as [-> |Hne].
      * rewrite list_lookup_alter_eq, list_lookup_insert_eq by (rewrite bits_of_length; lia).
        by rewrite bits_of_lookup by lia.
      * by rewrite list_lookup_alter_ne, list_lookup_insert_ne by done.
Qed.

Lemma bitmap_flip_ok b i :
  bitmap_ok b → 0 ≤ i < bit_cnt b →
  ∃ b', bitmap_flip b i = Ok b' ∧ bitmap_ok b' ∧ bit_cnt b' = bit_cnt b ∧
    bits_of b' = alter negb (Z.to_nat i) (bits_of b).
Proof.
  intros Hb Hi. destruct (bit_mask_eq i) as [Em Hm]; [lia |].
  apply update_word_ok; [done | done |]. intros w Hw. rewrite Em.
  split; [apply Z.lxor_nonneg; lia |]. intros k Hk. rewrite Z.lxor_spec.
  pose proof (Z.mod_pos_bound i 32 ltac:(lia)).
  destruct (decide _) as [-> |]; [by rewrite Z.pow2_bits_true, xorb_true_r by lia |].
  by rewrite Z.pow2_bits_false, xorb_false_r by lia.
Qed.

Lemma bitmap_set_out b i v : bit_cnt b ≤ i → bitmap_set b i v = Err AssertFail.
Proof. intros. unfold bitmap_set. by destruct (Z.ltb_spec i (bit_cnt b)); [lia |]. Qed.

(** *** Ranges *)

Lemma fill_length start cnt v l :
  0 ≤ start → 0 ≤ cnt → start + cnt ≤ Z.of_nat (length l) → length (fill start cnt v l) = length l.
Proof.
  intros. unfold fill. rewrite !length_app, length_take, length_replicate, length_drop. lia.
Qed.

Lemma fill_lookup start cnt v l j :
  0 ≤ start → 0 ≤ cnt → start + cnt ≤ Z.of_nat (length l) → (j < length l)%nat →
  fill start cnt v l !! j = if decide (start ≤ Z.of_nat j < start + cnt) then Some v else l !! j.
Proof.
  intros. unfold fill. destruct (decide _) as [Hj|Hj].
  - rewrite lookup_app_r by (rewrite length_take; lia). rewrite length_take, lookup_app_l
      by (rewrite length_replicate; lia). apply lookup_replicate_2. lia.
  - destruct (decide (Z.of_nat j < start)).
    + rewrite lookup_app_l by (rewrite length_take; lia). by rewrite lookup_take_lt by lia.
    + rewrite lookup_app_r by (rewrite length_take; lia).
      rewrite lookup_app_r by (rewrite length_take, length_replicate; lia).
      rewrite lookup_drop, length_take, length_replicate. f_equal. lia.
Qed.

Lemma set_multiple_loop_ok n b start i v :
  bitmap_ok b → 0 ≤ start → 0 ≤ i → start + i + Z.of_nat n ≤ bit_cnt b →
  ∃ b', set_multiple_loop n b start i v = Ok b' ∧ bitmap_ok b' ∧ bit_cnt b' = bit_cnt b ∧
    bits_of b' = fill (start + i) (Z.of_nat n) v (bits_of b).
Proof.
  revert b i. induction n as [|n IH]; intros b i Hb Hs Hi Hn.
  - exists b. split_and!; try done; try apply Hb. unfold fill.
    change (Z.of_nat 0) with 0. rewrite Z.add_0_r. symmetry. apply take_drop.
  - cbn [set_multiple_loop]. destruct Hb as [Hc Hb]. rewrite u32_id by lia.
    destruct (bitmap_set_ok b (start + i) v) as (b1 & E1 & O1 & C1 & B1); [done | lia |].
    rewrite E1. cbn [mbind outcome_bind].
    destruct (IH b1 (i + 1)) as (b2 & E2 & O2 & C2 & B2); [done | lia | lia | lia |].
    exists b2. split; [done |]. split; [done |]. split; [congruence |].
    rewrite B2, B1. apply list_eq. intros j.
    destruct (decide (j < Z.to_nat (bit_cnt b))%nat) as [Hj|Hj].
    2: { rewrite !lookup_ge_None_2; [done | rewrite fill_length; rewrite ?length_insert, ?bits_of_length; lia .. ]. }
    rewrite !fill_lookup by (rewrite ?length_insert, ?bits_of_length; lia).
    destruct (decide (j = Z.to_nat (start + i))) as [-> |].
    + rewrite decide_False, decide_True by lia. apply list_lookup_insert_eq. rewrite bits_of_length. lia.
    + rewrite list_lookup_insert_ne by done. repeat case_decide; done || lia.
Qed.

(** Past the end of the bits, the assertion of the first bad bit fails. *)
Lemma set_multiple_loop_out n b start i v :
  bitmap_ok b → 0 ≤ start → 0 ≤ i → start + i ≤ bit_cnt b < start + i + Z.of_nat n →
  set_multiple_loop n b start i v = Err AssertFail.
Proof.
  revert b i. induction n as [|n IH]; intros b i Hb Hs Hi Hn; [lia |].
  cbn [set_multiple_loop]. pose proof Hb as [Hc _]. rewrite u32_id by lia.
  destruct (decide (start + i = bit_cnt b)); [by rewrite bitmap_set_out by lia |].
  destruct (bitmap_set_ok b (start + i) v) as (b1 & E1 & O1 & C1 & B1); [done | lia |].
  rewrite E1. apply IH; [done | lia ..].
Qed.

Lemma range_asserts_ok b start cnt :
  bitmap_ok b → 0 ≤ start → 0 ≤ cnt → start + cnt ≤ bit_cnt b → range_asserts b start cnt = Ok tt.
Proof.
  intros [Hc _] ???. unfold range_asserts. destruct (Z.leb_spec start (bit_cnt b)); [| lia].
  rewrite u32_id by lia. by destruct (Z.leb_spec (start + cnt) (bit_cnt b)); [| lia].
Qed.

Lemma range_asserts_out b start cnt :
  range_asserts b start cnt = Ok tt ∧ start ≤ bit_cnt b ∨ range_asserts b start cnt = Err AssertFail.
Proof.
  unfold range_asserts. destruct (Z.leb_spec start (bit_cnt b)); [| by right].
  destruct (Z.leb_spec (u32 (start + cnt)) (bit_cnt b)); [by left | by right].
Qed.

Lemma bitmap_set_multiple_ok b start cnt v :
  bitmap_ok b → 0 ≤ start → 0 ≤ cnt → start + cnt ≤ bit_cnt b →
  ∃ b', bitmap_set_multiple b start cnt v = Ok b' ∧ bitmap_ok b' ∧ bit_cnt b' = bit_cnt b ∧
    bits_of b' = fill start cnt v (bits_of b).
Proof.
  intros Hb ???. unfold bitmap_set_multiple. rewrite range_asserts_ok by done. cbn.
  destruct (set_multiple_loop_ok (Z.to_nat cnt) b start 0 v) as (b' & E); [done | lia .. |].
  exists b'. by rewrite Z2Nat.id, Z.add_0_r in E by done.
Qed.

Lemma bitmap_set_multiple_out b start cnt v :
  bitmap_ok b → 0 ≤ start → 0 ≤ cnt → bit_cnt b < start + cnt →
  bitmap_set_multiple b start cnt v = Err AssertFail.
Proof.
  intros. unfold bitmap_set_multiple. destruct (range_asserts_out b start cnt) as [[-> ?]| ->]; [| done].
  apply set_multiple_loop_out; [done | lia ..].
Qed.

Lemma slice_length start cnt l :
  0 ≤ start → 0 ≤ cnt → start + cnt ≤ Z.of_nat (length l) → length (slice start cnt l) = Z.to_nat cnt.
Proof. intros. unfold slice. rewrite length_take, length_drop. lia. Qed.

(** The elements from [k] on are the [k]th and those from [k + 1] on. *)
Lemma take_drop_next (l : list bool) k n :
  (k < length l)%nat → take (S n) (drop k l) = l !!! k :: take n (drop (S k) l).
Proof.
  intros Hk. destruct (lookup_lt_is_Some_2 l k Hk) as [x Hx].
  by rewrite (drop_S _ x), (list_lookup_total_correct _ _ _ Hx) by done.
Qed.

Lemma contains_loop_ok n b start i v :
  bitmap_ok b → 0 ≤ start → 0 ≤ i → start + i + Z.of_nat n ≤ bit_cnt b →
  contains_loop n b start i v =
    Ok (existsb (λ x, eqb x v) (take n (drop (Z.to_nat (start + i)) (bits_of b)))).
Proof.
  revert i. induction n as [|n IH]; intros i Hb Hs Hi Hn; [done |].
  cbn [contains_loop]. pose proof Hb as [Hc _]. rewrite u32_id by lia.
  rewrite bitmap_test_ok by (done || lia). destruct (Z.ltb_spec (start + i) (bit_cnt b)); [| lia].
  rewrite take_drop_next by (rewrite bits_of_length; lia). cbn [mbind outcome_bind existsb].
  rewrite IH by (done || lia). replace (Z.to_nat (start + (i + 1))) with (S (Z.to_nat (start + i))) by lia.
  by destruct (eqb _ v).
Qed.

Lemma count_loop_ok n b start i v c :
  bitmap_ok b → 0 ≤ start → 0 ≤ i → 0 ≤ c ≤ i → start + i + Z.of_nat n ≤ bit_cnt b →
  count_loop n b start i v c =
    Ok (c + Z.of_nat (length (filter (λ x, x = v) (take n (drop (Z.to_nat (start + i)) (bits_of b)))))).
Proof.
  revert i c. induction n as [|n IH]; intros i c Hb Hs Hi Hc Hn; [cbn; by rewrite Z.add_0_r |].
  cbn [count_loop]. pose proof Hb as [Hcb _]. rewrite (u32_id (start + i)) by lia.
  rewrite bitmap_test_ok by (done || lia). destruct (Z.ltb_spec (start + i) (bit_cnt b)); [| lia].
  rewrite take_drop_next by (rewrite bits_of_length; lia). cbn [mbind outcome_bind].
  replace (S (Z.to_nat (start + i))) with (Z.to_nat (start + (i + 1))) by lia.
  rewrite filter_cons. destruct (eqb_spec (bits_of b !!! Z.to_nat (start + i)) v).
  - rewrite decide_True by done. rewrite u32_id by lia. rewrite IH by (done || lia).
    f_equal. cbn [length]. lia.
  - rewrite decide_False by done. by rewrite IH by (done || lia).
Qed.

Lemma bitmap_contains_ok b start cnt v :
  bitmap_ok b → 0 ≤ start → 0 ≤ cnt → start + cnt ≤ bit_cnt b →
  bitmap_contains b start cnt v = Ok (existsb (λ x, eqb x v) (slice start cnt (bits_of b))).
Proof.
  intros. unfold bitmap_contains. rewrite range_asserts_ok by done. cbn.
  by rewrite contains_loop_ok, Z.add_0_r by (done || lia).
Qed.

Lemma existsb_run start cnt v l :
  0 ≤ start → 0 ≤ cnt → start + cnt ≤ Z.of_nat (length l) →
  existsb (λ x, eqb x (negb v)) (slice start cnt l) = false ↔ run start cnt v l.
Proof.
  intros. unfold run. rewrite <-(slice_length start cnt l) by done.
  induction (slice start cnt l) as [|x s IH]; [done |]. cbn. rewrite orb_false_iff, IH.
  split; [intros [Hx Hs] | intros [= -> Hs]]; [| split; [by destruct v | done]].
  rewrite <-Hs. f_equal. by destruct x, v.
Qed.

Lemma scan_loop_ok n b i cnt v :
  bitmap_ok b → 0 ≤ i → 0 ≤ cnt → i + Z.of_nat n = bit_cnt b - cnt + 1 →
  ∃ r, scan_loop n b i cnt v = Ok r ∧
    (r = BITMAP_ERROR ∧ (∀ j, i ≤ j → j + cnt ≤ bit_cnt b → ¬ run j cnt v (bits_of b)) ∨
     i ≤ r ∧ r + cnt ≤ bit_cnt b ∧ run r cnt v (bits_of b) ∧
       ∀ j, i ≤ j < r → ¬ run j cnt v (bits_of b)).
Proof.
  revert i. induction n as [|n IH]; intros i Hb Hi Hcnt Hn.
  - exists BITMAP_ERROR. split; [done |]. left. split; [done |]. lia.
  - cbn [scan_loop]. pose proof Hb as [Hc _]. rewrite bitmap_contains_ok by (done || lia).
    cbn [mbind outcome_bind].
    pose proof (existsb_run i cnt v (bits_of b) Hi Hcnt ltac:(rewrite bits_of_length; lia)) as Hr.
    destruct (existsb _ _); cbn [negb].
    + rewrite u32_id by lia. destruct (IH (i + 1)) as (r & -> & H); [done | lia .. |].
      assert (¬ run i cnt v (bits_of b)) as Hni by (intros R; apply Hr in R; done).
      exists r. split; [done |]. destruct H as [[-> H]|(H1 & H2 & H3 & H4)]; [left | right].
      * split; [done |]. intros j Hj Hj2. destruct (decide (j = i)) as [-> |]; [done | apply H; lia].
      * split_and!; [lia | done | done |]. intros j Hj.
        destruct (decide (j = i)) as [-> |]; [done | apply H4; lia].
    + exists i. split; [done |]. right. split_and!; [lia | lia | by apply Hr | lia].
Qed.

Lemma bitmap_scan_ok b start cnt v :
  bitmap_ok b → 0 ≤ start ≤ bit_cnt b → 0 ≤ cnt →
  ∃ r, bitmap_scan b start cnt v = Ok r ∧
    (r = BITMAP_ERROR ∧ (∀ j, start ≤ j → j + cnt ≤ bit_cnt b → ¬ run j cnt v (bits_of b)) ∨
     start ≤ r ∧ r + cnt ≤ bit_cnt b ∧ run r cnt v (bits_of b) ∧
       ∀ j, start ≤ j < r → ¬ run j cnt v (bits_of b)).
Proof.
  intros Hb Hs Hcnt. unfold bitmap_scan. destruct (Z.leb_spec start (bit_cnt b)); [| lia]. cbn [assert_that].
  destruct (Z.leb_spec cnt (bit_cnt b)).
  - destruct (decide (start ≤ bit_cnt b - cnt)).
    + apply scan_loop_ok; [done | lia ..].
    + replace (Z.to_nat _) with O by lia. exists BITMAP_ERROR. split; [done |]. left. split; [done |]. lia.
  - exists BITMAP_ERROR. split; [done |]. left. split; [done |]. lia.
Qed.

(** *** The refinement *)

Definition refines_step {A} (m : outcome (A * bitmap)) (m' : outcome (A * list bool)) (size : Z) : Prop :=
  match m, m' with
  | Ok (r, b), Ok (r', l) => r = r' ∧ bits_of b = l ∧ bitmap_ok b ∧ bit_cnt b = size
  | Err e, Err e' => e = e'
  | _, _ => False
  end.

Lemma range_asserts_spec b start cnt :
  bitmap_ok b → 0 ≤ start → 0 ≤ cnt → start + cnt < 4294967296 →
  range_asserts b start cnt = assert_that (start + cnt <=? Z.of_nat (length (bits_of b))).
Proof.
  intros Hb ???. pose proof Hb as [Hc _]. rewrite bits_of_length, Z2Nat.id by lia.
  unfold range_asserts. rewrite u32_id by lia.
  destruct (Z.leb_spec (start + cnt) (bit_cnt b)), (Z.leb_spec start (bit_cnt b)); done || lia.
Qed.

Lemma existsb_elem v s : existsb (λ x, eqb x v) s = bool_decide (v ∈ s).
Proof.
  induction s as [|x s IH]; [done |]. cbn. rewrite IH.
  destruct (eqb_spec x v) as [-> |]; cbn; [by rewrite bool_decide_true by left |].
  apply bool_decide_ext. rewrite elem_of_cons. naive_solver.
Qed.

Lemma negb_bool_decide (P : Prop) `{Decision P} : negb (bool_decide P) = bool_decide (¬ P).
Proof. by rewrite bool_decide_not. Qed.

Lemma first_run_spec b start cnt v :
  bitmap_ok b → 0 ≤ start → 0 ≤ cnt → start + cnt < 4294967296 → 
  bitmap_scan b start cnt v =
    (assert_that (start <=? bit_cnt b);; Ok (default BITMAP_ERROR (first_run start cnt v (bits_of b)))).
Proof.
  intros Hb Hs Hcnt Hlt. destruct (Z.leb_spec start (bit_cnt b)) as [Hle|Hgt].
  2: { unfold bitmap_scan. by destruct (Z.leb_spec start (bit_cnt b)); [lia |]. }
  destruct (bitmap_scan_ok b start cnt v) as (r & -> & H); [done | lia | done |].
  cbn. f_equal. unfold first_run. rewrite bits_of_length, Z2Nat.id by lia.
  destruct H as [[-> H]|(H1 & H2 & H3 & H4)].
  - rewrite filter_none; [done |]. intros j Hj%elem_of_seqZ. apply H; lia.
  - replace (bit_cnt b - cnt - start + 1) with ((r - start) + (bit_cnt b - cnt - r + 1)) by lia.
    rewrite seqZ_app by lia. rewrite filter_app, filter_none.
    2: { intros j Hj%elem_of_seqZ. apply H4. lia. }
    replace (start + (r - start)) with r by lia. rewrite seqZ_cons by lia.
    rewrite filter_cons, decide_True by done. done.
Qed.

Lemma first_run_bounds start cnt v l i :
  0 ≤ start → 0 ≤ cnt → first_run start cnt v l = Some i → start ≤ i ∧ i + cnt ≤ Z.of_nat (length l).
Proof.
  unfold first_run. intros Hs Hc H.
  assert (i ∈ filter (λ i, run i cnt v l) (seqZ start (Z.of_nat (length l) - cnt - start + 1))) as Hi.
  { destruct (filter _ _); [done |]. injection H as ->. left. }
  apply list_elem_of_filter in Hi as [_ Hi%elem_of_seqZ]. lia.
Qed.

Lemma fill_all l v : fill 0 (Z.of_nat (length l)) v l = replicate (length l) v.
Proof.
  unfold fill. rewrite Nat2Z.id. cbn [take app]. rewrite drop_ge by lia. apply app_nil_r.
Qed.

(** Each operation does to the words what the specification does to the bits. *)
Lemma exec_op_refines o b :
  bitmap_ok b → op_ok o (bit_cnt b) →
  refines_step (exec_op o b) (spec_op o (bits_of b)) (bit_cnt b).
Proof.
  intros Hb Ho. pose proof Hb as [Hc _].
  assert (Z.of_nat (length (bits_of b)) = bit_cnt b) as Hlen by (rewrite bits_of_length; lia).
  assert (∀ start cnt v, 0 ≤ start → 0 ≤ cnt → start + cnt < 4294967296 →
    bitmap_contains b start cnt v =
      (assert_that (start + cnt <=? bit_cnt b);; Ok (bool_decide (v ∈ slice start cnt (bits_of b))))) as Hcon.
  { intros start cnt v ???. destruct (Z.leb_spec (start + cnt) (bit_cnt b)).
    - by rewrite bitmap_contains_ok, existsb_elem by done.
    - unfold bitmap_contains. rewrite range_asserts_spec, Hlen by done.
      by destruct (Z.leb_spec (start + cnt) (bit_cnt b)); [lia |]. }
  destruct o as [i v|i|i|start cnt v|v|start cnt v|start cnt v|start cnt|start cnt|start cnt|start cnt v|start cnt v];
    cbn [op_ok] in Ho; unfold exec_op, spec_op; rewrite ?Hlen.
  - destruct (Z.ltb_spec i (bit_cnt b)).
    + by destruct (bitmap_set_ok b i v) as (b' & -> & ? & ? & ?).
    + by rewrite bitmap_set_out.
  - by destruct (bitmap_flip_ok b i) as (b' & -> & ? & ? & ?).
  - rewrite bitmap_test_ok by done. by destruct (i <? bit_cnt b).
  - destruct Ho as (? & ? & ?). destruct (Z.leb_spec (start + cnt) (bit_cnt b)).
    + by destruct (bitmap_set_multiple_ok b start cnt v) as (b' & -> & ? & ? & ?).
    + by rewrite bitmap_set_multiple_out.
  - unfold bitmap_set_all, bitmap_size.
    destruct (bitmap_set_multiple_ok b 0 (bit_cnt b) v) as (b' & -> & ? & ? & Hf); [done | lia .. |].
    rewrite <-Hlen, fill_all in Hf. done.
  - destruct Ho as (? & ? & ?). unfold bitmap_count. rewrite range_asserts_spec, Hlen by done.
    destruct (Z.leb_spec (start + cnt) (bit_cnt b)); [| done]. cbn [assert_that mbind outcome_bind].
    rewrite count_loop_ok by (done || lia). by rewrite Z.add_0_r.
  - destruct Ho as (? & ? & ?). rewrite Hcon by done. by destruct (_ <=? _).
  - destruct Ho as (? & ? & ?). unfold bitmap_any. rewrite Hcon by done. by destruct (_ <=? _).
  - destruct Ho as (? & ? & ?). unfold bitmap_none. rewrite Hcon by done.
    destruct (_ <=? _); [| done]. cbn. by rewrite negb_bool_decide.
  - destruct Ho as (? & ? & ?). unfold bitmap_all. rewrite Hcon by done.
    destruct (_ <=? _); [| done]. cbn. by rewrite negb_bool_decide.
  - destruct Ho as (? & ? & ?). rewrite first_run_spec by done. by destruct (_ <=? _).
  - destruct Ho as (? & ? & ?). unfold bitmap_scan_and_flip. rewrite first_run_spec by done.
    destruct (_ <=? _); [| done]. cbn [assert_that mbind outcome_bind].
    destruct (first_run start cnt v (bits_of b)) as [i|] eqn:Ef; cbn [default]; [| done].
    apply first_run_bounds in Ef; [| done ..]. cbn [from_option id].
    destruct (Z.eqb_spec i BITMAP_ERROR); [unfold BITMAP_ERROR in *; lia |].
    destruct (bitmap_set_multiple_ok b i cnt (negb v)) as (b' & -> & ? & ? & ?); [done | lia .. |]. done.
Qed.

(** C16: The packed bitmap refines a sequence of bits: any sequence of its
    operations, from any well-formed bitmap, gives the results, the failed
    assertions and the final bits that the same operations give on the
    sequence.  In particular [bitmap_scan] finds the first run, or none, and
    [bitmap_scan_and_flip] flips exactly the run it returns; of zero bits, the
    run that both return is at [start]. *)
Theorem bitmap_refines_bits os b :
  bitmap_ok b → Forall (λ o, op_ok o (bit_cnt b)) os →
  refines_step (exec_ops os b) (spec_ops os (bits_of b)) (bit_cnt b).
Proof.
  revert b. induction os as [|o os IH]; intros b Hb Hos; [done |].
  apply Forall_cons in Hos as [Ho Hos]. cbn [exec_ops spec_ops].
  pose proof (exec_op_refines o b Hb Ho) as H.
  destruct (exec_op o b) as [[r b1]|e], (spec_op o (bits_of b)) as [[r' l]|e']; cbn in H |- *; try done.
  destruct H as (-> & <- & Hb1 & Hc). rewrite <-Hc in Hos |- *. specialize (IH b1 Hb1 Hos).
  destruct (exec_ops os b1) as [[rs b2]|e], (spec_ops os (bits_of b1)) as [[rs' l]|e']; cbn in IH |- *; try done.
  by destruct IH as (-> & ?).
Qed.

(** A concrete bitmap of 40 bits in two words. *)
Definition example_bitmap : bitmap := Bitmap 40 [0xfffffff7; 0x0000000f].

Lemma example_bitmap_ok : bitmap_ok example_bitmap.
Proof. by split_and!; try lia; repeat constructor. Qed.

Definition example_ops : list bitmap_op :=
  [OpScanAndFlip 0 3 false; OpTest 38; OpScanAndFlip 0 3 false; OpCount 0 40 true; OpSet 40 true].

Lemma bitmap_refines_bits_witness :
  refines_step (exec_ops (take 4 example_ops) example_bitmap)
    (Ok ([36; 1; BITMAP_ERROR; 38], bits_of (Bitmap 40 [0xfffffff7; 0x0000007f]))) 40 ∧
  exec_ops example_ops example_bitmap = Err AssertFail.
Proof.
  split.
  - assert (spec_ops (take 4 example_ops) (bits_of example_bitmap) =
      Ok ([36; 1; BITMAP_ERROR; 38], bits_of (Bitmap 40 [0xfffffff7; 0x0000007f]))) as <- by (vm_compute; reflexivity).
    apply (bitmap_refines_bits (take 4 example_ops) example_bitmap).
    + exact example_bitmap_ok.
    + repeat constructor; vm_compute; done.
  - pose proof (bitmap_refines_bits example_ops example_bitmap example_bitmap_ok) as T.
    destruct (exec_ops example_ops example_bitmap) as [[]|e] eqn:E; vm_compute in E; congruence.
Defined.

(** ** Creation *)

(** The memory handed to a new bitmap: enough words, of any contents. *)
Definition words_for (n : Z) (words : list Z) : Prop :=
  length words = Z.to_nat (elem_cnt n) ∧ Forall (λ w, 0 ≤ w < 4294967296) words.

Lemma bitmap_set_all_ok b v :
  bitmap_ok b → ∃ b', bitmap_set_all b v = Ok b' ∧ bitmap_ok b' ∧ bit_cnt b' = bit_cnt b ∧
    bits_of b' = replicate (Z.to_nat (bit_cnt b)) v.
Proof.
  intros Hb. pose proof Hb as [Hc _].
  destruct (bitmap_set_multiple_ok b 0 (bit_cnt b) v) as (b' & E & H1 & H2 & H3); [done | lia .. |].
  exists b'. split_and!; [done | done | apply H1 .. | done |].
  rewrite H3. replace (bit_cnt b) with (Z.of_nat (length (bits_of b))) at 1 by (rewrite bits_of_length; lia).
  by rewrite fill_all, bits_of_length.
Qed.

(** A created bitmap is all false; without memory there is none. *)
Lemma bitmap_create_ok n words :
  0 ≤ n ≤ 4294967264 → words_for n words →
  (∃ b, bitmap_create true (Some words) n = Ok (Some b) ∧ bitmap_ok b ∧ bit_cnt b = n ∧
    bits_of b = replicate (Z.to_nat n) false) ∧
  (n ≠ 0 → bitmap_create true None n = Ok None) ∧ bitmap_create false (Some words) n = Ok None.
Proof.
  intros Hn [Hl Hw]. split_and!; [| | done].
  - destruct (bitmap_set_all_ok (Bitmap n words) false) as (b & E & H1 & H2 & H3); [by split_and!; cbn; try lia |].
    exists b. cbn [bitmap_create negb]. by rewrite E.
  - intros. cbn. by destruct (Z.eqb_spec n 0).
Qed.

(** ** Bitmaps in files *)

Lemma words_of_bytes_of_words ws :
  Forall (λ w, 0 ≤ w < 4294967296) ws → words_of_bytes (bytes_of_words ws) = ws.
Proof.
  induction 1 as [|w ws Hw _ IH]; [done |]. unfold bytes_of_words in *. cbn [mbind list_bind].
  unfold bytes_of_u32 at 1. cbn [app words_of_bytes]. rewrite IH. f_equal. by apply bytes_of_u32_inv.
Qed.

Lemma bytes_of_words_length ws : length (bytes_of_words ws) = (4 * length ws)%nat.
Proof.
  induction ws as [|w ws IH]; [done |]. unfold bytes_of_words in *. cbn [mbind list_bind].
  rewrite length_app, IH. cbn [length bytes_of_u32]. lia.
Qed.

Lemma bytes_of_words_byte ws : Forall is_byte (bytes_of_words ws).
Proof.
  induction ws as [|w ws IH]; [constructor |]. unfold bytes_of_words in *. cbn [mbind list_bind].
  apply Forall_app. split; [apply bytes_of_u32_byte | done].
Qed.

Lemma words_of_bytes_ok n bs :
  length bs = (4 * n)%nat → Forall is_byte bs →
  length (words_of_bytes bs) = n ∧ Forall (λ w, 0 ≤ w < 4294967296) (words_of_bytes bs).
Proof.
  revert bs. induction n as [|n IH]; intros bs Hl Hb; [by destruct bs |].
  destruct bs as [|b0 [|b1 [|b2 [|b3 bs]]]]; cbn in Hl; try lia.
  change (b0 :: b1 :: b2 :: b3 :: bs) with ([b0; b1; b2; b3] ++ bs) in Hb. apply Forall_app in Hb as [H4 Hb].
  destruct (IH bs) as [Hl2 Hw]; [lia | done |]. cbn [words_of_bytes length]. split; [by rewrite Hl2 |].
  constructor; [by apply u32_of_bytes_inv | done].
Qed.

Lemma byte_cnt_eq b : bitmap_ok b → byte_cnt (bit_cnt b) = 4 * Z.of_nat (length (bits b)).
Proof.
  intros (Hc & Hl & _). unfold byte_cnt. rewrite Hl, elem_cnt_eq by done.
  rewrite u32_id; Z.to_euclidean_division_equations; lia.
Qed.

Lemma bitmap_write_bytes_eq b : bitmap_ok b → bitmap_write_bytes b = bytes_of_words (bits b).
Proof.
  intros Hb. unfold bitmap_write_bytes. rewrite byte_cnt_eq by done.
  apply take_ge. rewrite bytes_of_words_length. lia.
Qed.

Lemma last_mask_bits b k :
  0 ≤ bit_cnt b → 0 ≤ k < 32 → (bit_cnt b `mod` 32 = 0 ∨ k < bit_cnt b `mod` 32) →
  Z.testbit (last_mask b) k = true.
Proof.
  intros Hc Hk Hm. unfold last_mask, ELEM_BITS. pose proof (Z.mod_pos_bound (bit_cnt b) 32 ltac:(lia)).
  destruct (Z.eqb_spec (bit_cnt b `mod` 32) 0).
  - change (u32 (-1)) with (Z.ones 32). by apply Z.ones_spec_low.
  - set (m := bit_cnt b `mod` 32) in *. rewrite Z.shiftl_mul_pow2, Z.mul_1_l by lia.
    assert (0 < 2 ^ m) by (apply Z.pow_pos_nonneg; lia).
    assert (2 ^ m ≤ 2 ^ 31) by (apply Z.pow_le_mono_r; lia).
    rewrite !u32_id by (rewrite ?u32_id; lia). rewrite Z.sub_1_r, <-Z.ones_equiv. apply Z.ones_spec_low. lia.
Qed.

(** Masking the last word keeps the bits. *)
Lemma mask_last_ok b :
  bitmap_ok b → 0 < bit_cnt b →
  ∃ b', update_word (λ w, Z.land w (last_mask b)) b (elem_cnt (bit_cnt b) - 1) = Ok b' ∧
    bitmap_ok b' ∧ bit_cnt b' = bit_cnt b ∧ bits_of b' = bits_of b.
Proof.
  intros Hb Hp. pose proof Hb as (Hc & Hl & Hw). unfold update_word.
  set (n := Z.to_nat (elem_cnt (bit_cnt b) - 1)).
  assert (n < length (bits b) ∧ n = Z.to_nat ((bit_cnt b - 1) / 32))%nat as [Hn En].
  { subst n. rewrite Hl, elem_cnt_eq by done. Z.to_euclidean_division_equations; lia. }
  destruct (lookup_lt_is_Some_2 _ _ Hn) as [w E]. rewrite E. cbn [from_option_err mbind outcome_bind].
  eexists. split; [done |]. pose proof (proj1 (Forall_lookup _ _) Hw _ _ E) as Hwr. cbn in Hwr.
  assert (∀ m, 0 ≤ Z.land w m < 4294967296) as Hland.
  { intros m. assert (0 ≤ Z.land w m) by (apply Z.land_nonneg; lia). split; [done |].
    apply u32_bits_iff; [done |]. intros k Hk. rewrite Z.land_spec.
    by rewrite (proj1 (u32_bits_iff w ltac:(lia)) ltac:(lia)). }
  split; [split_and!; cbn; [lia | lia | by rewrite length_insert | by apply Forall_insert] |].
  split; [done |]. apply list_eq. intros j.
  destruct (decide (j < Z.to_nat (bit_cnt b))%nat) as [Hj|Hj].
  2: { by rewrite !lookup_ge_None_2 by (rewrite bits_of_length; cbn; lia). }
  rewrite !bits_of_lookup by done. f_equal. unfold bit_at; cbn [bits].
  destruct (decide (n = j / 32)%nat) as [En2|]; [| by rewrite list_lookup_total_insert_ne by done].
  rewrite <-En2, list_lookup_total_insert_eq by done. rewrite (list_lookup_total_correct _ _ _ E).
  rewrite Z.land_spec, last_mask_bits, andb_true_r; [done | lia | |].
  - rewrite Nat2Z.inj_mod. apply Z.mod_pos_bound. lia.
  - rewrite Nat2Z.inj_mod. change (Z.of_nat 32) with 32. rewrite En2 in En.
    apply (f_equal Z.of_nat) in En. rewrite Nat2Z.inj_div in En. change (Z.of_nat 32) with 32 in En.
    rewrite Z2Nat.id in En by (apply Z.div_pos; lia).
    Z.to_euclidean_division_equations; lia.
Qed.

Lemma bitmap_read_ok b b2 :
  bitmap_ok b → bitmap_ok b2 → bit_cnt b2 = bit_cnt b →
  ∃ b', bitmap_read b2 (bitmap_write_bytes b) = Ok (true, b') ∧ bitmap_ok b' ∧ bit_cnt b' = bit_cnt b ∧ bits_of b' = bits_of b.
Proof.
  intros Hb Hb2 E. rewrite bitmap_write_bytes_eq by done. unfold bitmap_read.
  pose proof (byte_cnt_eq b Hb) as Hbc. pose proof (byte_cnt_eq b2 Hb2) as Hbc2. rewrite E in Hbc2.
  destruct (Z.ltb_spec 0 (bit_cnt b2)).
  2: { exists b2. split_and!; [done.. |]. pose proof Hb as [? _]. unfold bits_of.
       by replace (Z.to_nat (bit_cnt b2)) with 0%nat by lia; replace (Z.to_nat (bit_cnt b)) with 0%nat by lia. }
  rewrite bytes_of_words_length. rewrite drop_ge by (rewrite bytes_of_words_length; lia).
  rewrite app_nil_r, words_of_bytes_of_words by apply Hb.
  replace (Bitmap (bit_cnt b2) (bits b)) with b by (rewrite E; by destruct b).
  destruct (mask_last_ok b) as (b' & -> & H1 & H2 & H3); [done | lia |]. cbn [mbind outcome_bind].
  exists b'. split; [| done]. do 2 f_equal. apply Z.eqb_eq. rewrite E. lia.
Qed.

(** A bitmap written to a file and read back, into any bitmap of the same
    size, is the same bits: the bytes written are [bitmap_file_size] many, and
    a read that returns them all succeeds; a shorter read reports failure. *)
Theorem bitmap_file_roundtrip b b2 got :
  bitmap_ok b → bitmap_ok b2 → bit_cnt b2 = bit_cnt b →
  Z.of_nat (length (bitmap_write_bytes b)) = bitmap_file_size b ∧ Forall is_byte (bitmap_write_bytes b) ∧
  bitmap_write b (bitmap_file_size b) = true ∧
  (∃ b', bitmap_read b2 (bitmap_write_bytes b) = Ok (true, b') ∧ bitmap_ok b' ∧ bits_of b' = bits_of b) ∧
  (Forall is_byte got → Z.of_nat (length got) < bitmap_file_size b →
    ∃ b', bitmap_read b2 got = Ok (false, b')).
Proof.
  intros Hb Hb2 E. rewrite bitmap_write_bytes_eq by done. unfold bitmap_file_size, bitmap_write.
  pose proof (byte_cnt_eq b Hb) as Hbc. pose proof (byte_cnt_eq b2 Hb2) as Hbc2. rewrite E in Hbc2.
  rewrite bytes_of_words_length. split_and!; [lia | apply bytes_of_words_byte | by apply Z.eqb_refl | |].
  - rewrite <-bitmap_write_bytes_eq by done. destruct (bitmap_read_ok b b2 Hb Hb2 E) as (b' & ? & ? & _ & ?). by exists b'.
  - intros Hg Hlt. unfold bitmap_read. destruct (Z.ltb_spec 0 (bit_cnt b2)).
    2: { exfalso. destruct Hb2 as [? _]. assert (bit_cnt b2 = 0) as E0 by lia.
         rewrite <-E, E0 in Hlt. change (byte_cnt 0) with 0 in Hlt. lia. }
    destruct (words_of_bytes_ok (length (bits b2)) (got ++ drop (length got) (bytes_of_words (bits b2)))) as [Hl Hw].
    { rewrite length_app, length_drop, bytes_of_words_length. lia. }
    { apply Forall_app. split; [done |]. apply Forall_drop, bytes_of_words_byte. }
    destruct (mask_last_ok (Bitmap (bit_cnt b2) (words_of_bytes (got ++ drop (length got) (bytes_of_words (bits b2))))))
      as (b' & Eu & _); [split_and!; cbn; [apply Hb2 .. | by rewrite Hl; apply Hb2 | done] | done |].
    rewrite Eu. cbn [mbind outcome_bind]. exists b'. do 2 f_equal. apply Z.eqb_neq. cbn [bit_cnt]. rewrite E. lia.
Qed.

Lemma bitmap_file_roundtrip_witness :
  ∃ b', bitmap_read (Bitmap 40 [0; 0]) (bitmap_write_bytes example_bitmap) = Ok (true, b') ∧
    bits_of b' = bits_of example_bitmap.
Proof.
  destruct (bitmap_file_roundtrip example_bitmap (Bitmap 40 [0; 0]) [] example_bitmap_ok)
    as (_ & _ & _ & (b' & E & _ & H) & _); [by split_and!; try lia; repeat constructor | done |].
  by exists b'.
Defined.
