(* ===== verification/Hash.v ===== *)
(** lib/kernel/hash.c: chained hash tables that resize themselves.

    An element is a pointer to its [struct hash_elem], from a type [E]; the
    client's [hash] and [less] functions are section variables.  A bucket is
    the sequence its [struct list] holds (see KListThm for the lists
    themselves).  Every operation that can resize takes the answer of the
    [malloc] it would call. *)
From S2P Require Import Prelude Bytes.
Local Open Scope Z_scope.

(** ** Hash functions *)

Definition FNV_32_PRIME : Z := 16777619.
Definition FNV_32_BASIS : Z := 2166136261.

Definition fnv_step (hash b : Z) : Z := Z.lxor (u32 (hash * FNV_32_PRIME)) b.

(** [buf] is the [size] bytes of the buffer. *)
Definition hash_bytes (buf : list Z) : Z := foldl fnv_step FNV_32_BASIS buf.

(** [s] is the memory from the string on; a string that does not end in it
    runs into memory that is not there. *)
Fixpoint hash_string_loop (s : list Z) (hash : Z) : outcome Z :=
  match s with
  | [] => Err BadPointer
  | c :: s => if c =? 0 then Ok hash else hash_string_loop s (fnv_step hash c)
  end.
Definition hash_string (s : list Z) : outcome Z := hash_string_loop s FNV_32_BASIS.

Definition hash_int (i : Z) : Z := hash_bytes (bytes_of_u32 (u32 i)).

(** ** Powers of two *)

Definition turn_off_least_1bit (x : Z) : Z := Z.land x (u32 (x - 1)).
Definition is_power_of_2 (x : Z) : bool := negb (x =? 0) && (turn_off_least_1bit x =? 0).

(** The [while] loop of [rehash]: every turn clears a bit of a 32-bit number,
    so 32 turns are enough. *)
Fixpoint round_to_power_of_2 (fuel : nat) (n : Z) : outcome Z :=
  if is_power_of_2 n then Ok n
  else match fuel with
  | O => Err OutOfFuel
  | S fuel => round_to_power_of_2 fuel (turn_off_least_1bit n)
  end.

Definition MIN_ELEMS_PER_BUCKET : Z := 1.
Definition BEST_ELEMS_PER_BUCKET : Z := 2.
Definition MAX_ELEMS_PER_BUCKET : Z := 4.

(** ** Tables *)

Record hash_table (E : Type) := HashTable {
  h_elem_cnt : Z;
  bucket_cnt : Z;
  buckets : list (list E)
}.
Arguments HashTable {E}.
Arguments h_elem_cnt {E}.
Arguments bucket_cnt {E}.
Arguments buckets {E}.

Section hash.
Context {E : Type} `{EqDecision E}.
Variable hash : E → Z.
Variable less : E → E → bool.
Implicit Types h : hash_table E.

(** [for (i = 0; i < bucket_cnt; i++)] over the buckets; [list_pop_front] and
    the destructor on each element in turn. *)
Definition hash_clear {S} (destructor : option (E → S → S)) h (s : S) : hash_table E * S :=
  let s := match destructor with
           | Some d => foldl (λ s bucket, foldl (λ s e, d e s) s bucket) s (buckets h)
           | None => s
           end in
  (HashTable 0 (bucket_cnt h) ((λ _, []) <$> buckets h), s).

(** A new table; [malloc_ok] tells whether there was memory for its four
    buckets. *)
Definition hash_init (malloc_ok : bool) : option (hash_table E) :=
  if malloc_ok then Some (hash_clear None (HashTable 0 4 (replicate 4 [])) tt).1 else None.

(** [hash_destroy] leaves no table. *)
Definition hash_destroy {S} (destructor : option (E → S → S)) h (s : S) : S :=
  match destructor with Some d => (hash_clear (Some d) h s).2 | None => s end.

(** The index of an element's bucket. *)
Definition find_bucket h (e : E) : nat := Z.to_nat (Z.land (hash e) (u32 (bucket_cnt h - 1))).

Fixpoint find_elem (bucket : list E) (e : E) : option E :=
  match bucket with
  | [] => None
  | hi :: bucket => if negb (less hi e) && negb (less e hi) then Some hi else find_elem bucket e
  end.

Definition insert_elem h (bucket : nat) (e : E) : hash_table E :=
  HashTable (u32 (h_elem_cnt h + 1)) (bucket_cnt h) (alter (cons e) bucket (buckets h)).

(** [list_remove] unlinks the element from the bucket that holds it. *)
Definition remove_elem h (e : E) : hash_table E :=
  HashTable (u32 (h_elem_cnt h - 1)) (bucket_cnt h) (filter (λ x, x ≠ e) <$> buckets h).

(** The loops that move every element to its new bucket. *)
Definition rehash_move h (e : E) : hash_table E :=
  HashTable (h_elem_cnt h) (bucket_cnt h) (alter (cons e) (find_bucket h e) (buckets h)).

Definition rehash (malloc_ok : bool) h : outcome (hash_table E) :=
  let new_bucket_cnt := h_elem_cnt h / BEST_ELEMS_PER_BUCKET in
  let new_bucket_cnt := if new_bucket_cnt <? 4 then 4 else new_bucket_cnt in
  new_bucket_cnt ← round_to_power_of_2 32 new_bucket_cnt;
  if new_bucket_cnt =? bucket_cnt h then Ok h
  else if negb malloc_ok then Ok h
  else
    let new := HashTable (h_elem_cnt h) new_bucket_cnt (replicate (Z.to_nat new_bucket_cnt) []) in
    Ok (foldl (λ new bucket, foldl rehash_move new bucket) new (buckets h)).

(** [&h->buckets[bucket_idx]] is inside the array. *)
Definition bucket_at h (bucket : nat) : outcome (list E) :=
  from_option_err BadPointer (buckets h !! bucket).

Definition hash_insert (malloc_ok : bool) h (new : E) : outcome (option E * hash_table E) :=
  let bucket := find_bucket h new in
  l ← bucket_at h bucket;
  let old := find_elem l new in
  h ← rehash malloc_ok (if old is Some _ then h else insert_elem h bucket new);
  Ok (old, h).

Definition hash_replace (malloc_ok : bool) h (new : E) : outcome (option E * hash_table E) :=
  let bucket := find_bucket h new in
  l ← bucket_at h bucket;
  let old := find_elem l new in
  let h := if old is Some o then remove_elem h o else h in
  h ← rehash malloc_ok (insert_elem h bucket new);
  Ok (old, h).

Definition hash_find h (e : E) : outcome (option E) :=
  l ← bucket_at h (find_bucket h e); Ok (find_elem l e).

Definition hash_delete (malloc_ok : bool) h (e : E) : outcome (option E * hash_table E) :=
  l ← bucket_at h (find_bucket h e);
  match find_elem l e with
  | Some found => h ← rehash malloc_ok (remove_elem h found); Ok (Some found, h)
  | None => Ok (None, h)
  end.

Definition hash_size h : Z := h_elem_cnt h.
Definition hash_empty h : bool := h_elem_cnt h =? 0.

Definition hash_apply {S} (action : E → S → S) h (s : S) : S :=
  foldl (λ s bucket, foldl (λ s e, action e s) s bucket) s (buckets h).

(** *** Iterators *)

(** [i->elem]: the head of a bucket, an element, or the null pointer after the
    last one. *)
Inductive iter_pos := AtHead | AtElem (e : E) | AtNull.

(** [i->bucket] is kept as an index. *)
Record hash_iterator := HashIterator { i_bucket : nat; i_elem : iter_pos }.

Definition hash_first : hash_iterator := HashIterator 0 AtHead.

(** The elements after a position in its bucket: [list_next] is their first,
    or the end of the list. *)
Fixpoint after_elem (bucket : list E) (e : E) : option (list E) :=
  match bucket with
  | [] => None
  | x :: bucket => if decide (x = e) then Some bucket else after_elem bucket e
  end.

Definition after_pos (bucket : list E) (p : iter_pos) : outcome (list E) :=
  match p with
  | AtHead => Ok bucket
  | AtElem e => from_option_err BadPointer (after_elem bucket e)
  | AtNull => Err BadPointer
  end.

(** The [while] loop: [rest] are the buckets after the current one, [l] what
    follows the position in it. *)
Fixpoint hash_next_loop (rest : list (list E)) (l : list E) (b : nat) : hash_iterator :=
  match l with
  | e :: _ => HashIterator b (AtElem e)
  | [] =>
      match rest with
      | [] => HashIterator (S b) AtNull
      | l :: rest => hash_next_loop rest l (S b)
      end
  end.

Definition hash_cur (i : hash_iterator) : option E :=
  if i_elem i is AtElem e then Some e else None.

Definition hash_next h (i : hash_iterator) : outcome (option E * hash_iterator) :=
  bucket ← bucket_at h (i_bucket i);
  l ← after_pos bucket (i_elem i);
  let i := hash_next_loop (drop (S (i_bucket i)) (buckets h)) l (i_bucket i) in
  Ok (hash_cur i, i).
End hash.

(** ** Powers of two *)

(** Every positive number is a power of two times an odd number. *)
Lemma odd_part n : 0 < n → ∃ t m, 0 ≤ t ∧ 0 ≤ m ∧ n = 2 ^ t * (2 * m + 1).
Proof.
  intros Hn. pattern n. apply (Z_lt_induction (λ n, 0 < n → ∃ t m, 0 ≤ t ∧ 0 ≤ m ∧ n = 2 ^ t * (2 * m + 1))); [| lia | done].
  clear n Hn. intros n IH Hn. destruct (Z.Even_or_Odd n) as [[q Hq]|[q Hq]].
  - destruct (IH q) as (t & m & ? & ? & E); [lia | lia |]. exists (t + 1), m. split_and!; [lia | done |].
    rewrite Z.pow_add_r, Hq, E by lia. lia.
  - exists 0, q. split_and!; lia.
Qed.

(** Turning off the least bit that is set removes the odd part's one. *)
Lemma turn_off_odd t m :
  0 ≤ t → 0 ≤ m → 2 ^ t * (2 * m + 1) < 4294967296 →
  turn_off_least_1bit (2 ^ t * (2 * m + 1)) = 2 ^ t * (2 * m).
Proof.
  intros Ht Hm Hlt. unfold turn_off_least_1bit.
  assert (0 < 2 ^ t) as Hp by (apply Z.pow_pos_nonneg; lia).
  rewrite u32_id by nia. apply Z.bits_inj'. intros i Hi. rewrite Z.land_spec.
  rewrite (Z.mul_comm (2 ^ t) (2 * m + 1)), (Z.mul_comm (2 ^ t) (2 * m)).
  destruct (Z.lt_ge_cases i t).
  - by rewrite !Z.mul_pow2_bits_low by done.
  - replace i with (t + (i - t)) by lia. rewrite !Z.mul_pow2_bits_add by lia.
    assert (Z.testbit ((2 * m + 1) * 2 ^ t - 1) (t + (i - t)) = Z.testbit (2 * m) (i - t)) as ->.
    { rewrite (Z.add_comm t), <-Z.div_pow2_bits by lia. f_equal.
      replace ((2 * m + 1) * 2 ^ t - 1) with ((2 ^ t - 1) + 2 * m * 2 ^ t) by lia.
      rewrite Z.div_add by lia. rewrite Z.div_small; lia. }
    destruct (decide (i - t = 0)) as [-> |].
    + by rewrite Z.testbit_even_0, andb_false_r.
    + replace (i - t) with (Z.succ (i - t - 1)) by lia.
      rewrite Z.testbit_odd_succ, Z.testbit_even_succ by lia. apply andb_diag.
Qed.

Lemma is_power_of_2_iff n : 0 < n < 4294967296 → is_power_of_2 n = true ↔ n = 2 ^ Z.log2 n.
Proof.
  intros Hn. destruct (odd_part n) as (t & m & Ht & Hm & E); [lia |].
  assert (0 < 2 ^ t) by (apply Z.pow_pos_nonneg; lia).
  unfold is_power_of_2. destruct (Z.eqb_spec n 0); [lia |]. cbn [negb andb].
  rewrite Z.eqb_eq. rewrite E at 1. rewrite turn_off_odd by lia. split.
  - intros H0. assert (m = 0) as -> by nia. rewrite E, Z.mul_1_r. by rewrite Z.log2_pow2.
  - intros Hl. assert (t ≤ Z.log2 n) by (apply Z.log2_le_pow2; nia).
    replace (Z.log2 n) with (t + (Z.log2 n - t)) in Hl by lia. rewrite Z.pow_add_r in Hl by lia.
    destruct (decide (Z.log2 n - t = 0)) as [E0|]; [rewrite E0 in Hl; nia |]. exfalso.
    replace (Z.log2 n - t) with (Z.succ (Z.log2 n - t - 1)) in Hl by lia.
    rewrite Z.pow_succ_r in Hl by lia. rewrite E in Hl at 1. apply Z.mul_reg_l in Hl; lia.
Qed.

Lemma round_to_power_of_2_ok fuel j n :
  0 < n < 4294967296 → 0 ≤ j → (2 ^ j | n) → 32 ≤ j + Z.of_nat fuel →
  round_to_power_of_2 fuel n = Ok (2 ^ Z.log2 n).
Proof.
  revert j n. induction fuel as [|fuel IH]; intros j n Hn Hj Hd Hf; cbn [round_to_power_of_2].
  all: destruct (is_power_of_2 n) eqn:P; [by f_equal; apply is_power_of_2_iff |].
  - exfalso. apply Z.divide_pos_le in Hd; [| lia].
    assert (2 ^ 32 ≤ 2 ^ j) by (apply Z.pow_le_mono_r; lia). lia.
  - destruct (odd_part n) as (t & m & Ht & Hm & E); [lia |].
    assert (0 < 2 ^ t) by (apply Z.pow_pos_nonneg; lia).
    assert (turn_off_least_1bit n = 2 ^ t * (2 * m)) as -> by (rewrite E; apply turn_off_odd; lia).
    assert (m ≠ 0) as Hm0.
    { intros ->. assert (is_power_of_2 n = true); [| congruence].
      apply is_power_of_2_iff; [lia |]. rewrite E, Z.mul_1_r. by rewrite Z.log2_pow2. }
    assert (j ≤ t) as Hjt.
    { destruct (Z.le_gt_cases j t) as [|Hgt]; [done |]. exfalso. destruct Hd as [q Hq].
      replace j with (t + (1 + (j - t - 1))) in Hq by lia. rewrite !Z.pow_add_r in Hq by lia.
      assert (2 ^ t * (2 * m + 1) = 2 ^ t * (q * (2 * 2 ^ (j - t - 1)))) as Hq2 by lia.
      apply Z.mul_reg_l in Hq2; lia. }
    rewrite (IH (t + 1)).
    + do 2 f_equal. replace (2 ^ t * (2 * m)) with (m * 2 ^ (t + 1)) by (rewrite Z.pow_add_r by lia; lia).
      rewrite Z.log2_mul_pow2 by lia.
      replace n with (2 ^ t * (2 * m + 1)) by lia. rewrite (Z.mul_comm (2 ^ t)), Z.log2_mul_pow2 by lia.
      rewrite Z.log2_succ_double by lia. lia.
    + nia.
    + lia.
    + exists m. rewrite Z.pow_add_r by lia. lia.
    + lia.
Qed.

(** ** Tables as finite maps *)

Section spec.
Context {E : Type} `{EqDecision E} {K : Type} `{Countable K}.
Variable hash : E → Z.
Variable less : E → E → bool.
Variable key : E → K.

(** What the client promises: [less] compares keys, and elements with the same
    key have the same hash. *)
Hypothesis less_key : ∀ a b, negb (less a b) && negb (less b a) = bool_decide (key a = key b).
Hypothesis hash_key : ∀ a b, key a = key b → hash a = hash b.

Implicit Types h : hash_table E.
Implicit Types l : list E.

Definition elements h : list E := concat (buckets h).

Record hash_ok h : Prop := {
  ok_pow : ∃ k, 2 ≤ k ≤ 31 ∧ bucket_cnt h = 2 ^ k;
  ok_len : length (buckets h) = Z.to_nat (bucket_cnt h);
  ok_place : ∀ i b e, buckets h !! i = Some b → e ∈ b → find_bucket hash h e = i;
  ok_keys : NoDup (key <$> elements h);
  ok_cnt : h_elem_cnt h = u32 (Z.of_nat (length (elements h)))
}.

(** The finite map a list of elements, or a table, represents. *)
Definition lmap l : gmap K E := list_to_map ((λ e, (key e, e)) <$> l).
Definition hmap h : gmap K E := lmap (elements h).

Lemma fmap_fst_key l : ((λ e, (key e, e)) <$> l).*1 = key <$> l.
Proof. induction l; [done |]; cbn; by f_equal. Qed.

Lemma lmap_Some l k e : NoDup (key <$> l) → lmap l !! k = Some e ↔ e ∈ l ∧ key e = k.
Proof.
  intros Hl. unfold lmap. rewrite <-elem_of_list_to_map by (by rewrite fmap_fst_key).
  rewrite list_elem_of_fmap. split; [intros (e' & [= -> ->] & ?); done | intros [? <-]; by exists e].
Qed.

Lemma lmap_None l k : NoDup (key <$> l) → lmap l !! k = None ↔ ∀ e, e ∈ l → key e ≠ k.
Proof.
  intros Hl. split.
  - intros Hn e He Hk. assert (lmap l !! k = Some e) as Hs by (by apply lmap_Some). congruence.
  - intros Hn. destruct (lmap l !! k) as [e|] eqn:E1; [| done]. apply lmap_Some in E1 as [He Hk]; [| done].
    by destruct (Hn e He).
Qed.

Lemma lmap_perm l1 l2 : NoDup (key <$> l1) → l1 ≡ₚ l2 → lmap l1 = lmap l2.
Proof. intros Hl Hp. apply list_to_map_proper; [by rewrite fmap_fst_key | by rewrite Hp]. Qed.

Lemma lmap_cons e l : lmap (e :: l) = <[key e := e]> (lmap l).
Proof. done. Qed.

Lemma NoDup_keys_filter (P : E → Prop) `{∀ x, Decision (P x)} l :
  NoDup (key <$> l) → NoDup (key <$> filter P l).
Proof.
  induction l as [|e l IH]; intros Hl; [done |]. cbn [fmap list_fmap] in Hl. apply NoDup_cons in Hl as [Hn Hl].
  rewrite filter_cons. case_decide; [| by apply IH]. cbn. apply NoDup_cons. split; [| by apply IH].
  intros (x & Hk & [_ Hx]%list_elem_of_filter)%list_elem_of_fmap. apply Hn. rewrite Hk. by apply list_elem_of_fmap_2.
Qed.

(** Removing an element removes its key. *)
Lemma lmap_remove l e :
  NoDup (key <$> l) → e ∈ l → lmap (filter (λ x, x ≠ e) l) = delete (key e) (lmap l).
Proof.
  intros Hl He. assert (NoDup (key <$> filter (λ x, x ≠ e) l)) as Hf.
  { by apply NoDup_keys_filter. }
  apply map_eq. intros k. apply option_eq. intros x. rewrite lmap_Some by done.
  rewrite lookup_delete_Some, lmap_Some, list_elem_of_filter by done.
  split; [| naive_solver]. intros [[Hne Hx] Hk]. split_and!; [| done | done].
  intros Hke. apply Hne. assert (lmap l !! key e = Some x) as H1 by (apply lmap_Some; naive_solver).
  assert (lmap l !! key e = Some e) as H2 by (by apply lmap_Some). congruence.
Qed.

Lemma lmap_size l : NoDup (key <$> l) → size (lmap l) = length l.
Proof.
  induction l as [|e l IH]; intros Hl; [done |]. cbn [fmap list_fmap] in Hl. apply NoDup_cons in Hl as [Hn Hl].
  rewrite lmap_cons, map_size_insert_None; [by rewrite IH |].
  apply lmap_None; [done |]. intros x Hx Hk. apply Hn. rewrite <-Hk. by apply list_elem_of_fmap_2.
Qed.

(** *** Buckets *)

Lemma find_bucket_lt h k e :
  2 ≤ k ≤ 31 → bucket_cnt h = 2 ^ k → (find_bucket hash h e < Z.to_nat (2 ^ k))%nat.
Proof.
  intros Hk E1. unfold find_bucket. rewrite E1.
  assert (0 < 2 ^ k) by (apply Z.pow_pos_nonneg; lia).
  assert (2 ^ k ≤ 2 ^ 31) by (apply Z.pow_le_mono_r; lia).
  rewrite u32_id by lia. rewrite Z.sub_1_r, <-Z.ones_equiv, Z.land_ones by lia.
  pose proof (Z.mod_pos_bound (hash e) (2 ^ k)). lia.
Qed.

Lemma find_bucket_range h e : hash_ok h → (find_bucket hash h e < length (buckets h))%nat.
Proof.
  intros Hh. rewrite (ok_len _ Hh). destruct (ok_pow _ Hh) as (k & Hk & E1).
  rewrite E1. by apply find_bucket_lt.
Qed.

Lemma find_bucket_key h a b : key a = key b → find_bucket hash h a = find_bucket hash h b.
Proof. intros Hk. unfold find_bucket. by rewrite (hash_key a b Hk). Qed.

Lemma find_elem_Some l e x : find_elem less l e = Some x → x ∈ l ∧ key x = key e.
Proof.
  induction l as [|y l IH]; [done |]. cbn [find_elem]. rewrite less_key.
  case_bool_decide; [intros [= ->]; split; [left | done] |].
  intros [? ?]%IH. split; [by right | done].
Qed.

Lemma find_elem_None l e : find_elem less l e = None → ∀ x, x ∈ l → key x ≠ key e.
Proof.
  induction l as [|y l IH]; [by intros _ x ?%elem_of_nil |]. cbn [find_elem]. rewrite less_key.
  case_bool_decide as Hk; [done |]. intros Hn x [->|Hx]%elem_of_cons; [done | by apply IH].
Qed.

Lemma elem_of_elements h e : e ∈ elements h ↔ ∃ i b, buckets h !! i = Some b ∧ e ∈ b.
Proof.
  unfold elements. rewrite list_elem_of_In, in_concat. split.
  - intros (b & Hb & He). apply list_elem_of_In in Hb, He. apply list_elem_of_lookup_1 in Hb as [i Hi]. eauto.
  - intros (i & b & Hi & He). exists b. split; apply list_elem_of_In; [by eapply list_elem_of_lookup_2 | done].
Qed.

(** Looking in an element's bucket finds what the map holds for its key. *)
Lemma find_in_bucket h e :
  hash_ok h → ∃ b, bucket_at h (find_bucket hash h e) = Ok b ∧ find_elem less b e = hmap h !! key e.
Proof.
  intros Hh. destruct (lookup_lt_is_Some_2 _ _ (find_bucket_range h e Hh)) as [b Hb].
  exists b. unfold bucket_at. rewrite Hb. split; [done |].
  destruct (find_elem less b e) as [x|] eqn:Ef; symmetry.
  - apply find_elem_Some in Ef as [Hx Hk]. apply lmap_Some; [apply Hh |].
    split; [| done]. apply elem_of_elements. eauto.
  - apply lmap_None; [apply Hh |]. intros x Hx Hk. apply elem_of_elements in Hx as (i & b' & Hi & Hx).
    pose proof (ok_place _ Hh _ _ _ Hi Hx) as Hp. rewrite (find_bucket_key h x e Hk) in Hp. subst i.
    rewrite Hb in Hi. injection Hi as <-. by apply (find_elem_None _ _ Ef x).
Qed.

Lemma concat_alter_cons (bs : list (list E)) i e :
  (i < length bs)%nat → concat (alter (cons e) i bs) ≡ₚ e :: concat bs.
Proof.
  revert i. induction bs as [|b bs IH]; intros i Hi; [cbn in Hi; lia |].
  destruct i as [|i]; cbn; [done |]. rewrite (IH i) by (cbn in Hi; lia). by rewrite Permutation_middle.
Qed.

Lemma concat_filter (P : E → Prop) `{∀ x, Decision (P x)} (bs : list (list E)) :
  concat (filter P <$> bs) = filter P (concat bs).
Proof. induction bs as [|b bs IH]; [done |]. cbn. by rewrite IH, filter_app. Qed.

(** *** Insertion and removal *)

Lemma insert_elem_ok h e :
  hash_ok h → hmap h !! key e = None →
  let h' := insert_elem h (find_bucket hash h e) e in hash_ok h' ∧ elements h' ≡ₚ e :: elements h.
Proof.
  intros Hh Hn h'. pose proof (find_bucket_range h e Hh) as Hr.
  assert (elements h' ≡ₚ e :: elements h) as Hp by (by apply concat_alter_cons).
  split; [| done]. split.
  - apply Hh.
  - cbn. rewrite length_alter. apply Hh.
  - intros i b x Hi Hx. cbn in Hi. destruct (decide (i = find_bucket hash h e)) as [-> |Hne].
    + rewrite list_lookup_alter_eq in Hi. destruct (buckets h !! _) as [b'|] eqn:Eb; [| done].
      injection Hi as <-. apply elem_of_cons in Hx as [-> |Hx]; [done |]. by eapply (ok_place _ Hh).
    + rewrite list_lookup_alter_ne in Hi by done. by eapply (ok_place _ Hh).
  - rewrite Hp. cbn. apply NoDup_cons. split; [| apply Hh]. intros Hin.
    apply list_elem_of_fmap in Hin as (x & Hk & Hx).
    apply (proj1 (lmap_None _ _ (ok_keys _ Hh)) Hn x Hx). done.
  - rewrite Hp. cbn [h_elem_cnt h' insert_elem length]. rewrite (ok_cnt _ Hh).
    unfold wrap_u. rewrite Zplus_mod_idemp_l. f_equal. lia.
Qed.

Lemma remove_elem_ok h e :
  hash_ok h → e ∈ elements h →
  let h' := remove_elem h e in hash_ok h' ∧ elements h' = filter (λ x, x ≠ e) (elements h) ∧
    hmap h' = delete (key e) (hmap h).
Proof.
  intros Hh He h'. assert (elements h' = filter (λ x, x ≠ e) (elements h)) as Ee by apply concat_filter.
  assert (NoDup (key <$> elements h')) as Hnd.
  { rewrite Ee. apply NoDup_keys_filter, Hh. }
  assert (hmap h' = delete (key e) (hmap h)) as Em.
  { unfold hmap. rewrite Ee. apply lmap_remove; [apply Hh | done]. }
  split; [| done]. split; [apply Hh | cbn; rewrite length_fmap; apply Hh | | done |].
  - intros i b x Hi Hx. cbn in Hi. rewrite list_lookup_fmap in Hi.
    destruct (buckets h !! i) as [b'|] eqn:Eb; [| done]. injection Hi as <-.
    apply list_elem_of_filter in Hx as [_ Hx]. by eapply (ok_place _ Hh).
  - cbn [h_elem_cnt h' remove_elem]. rewrite (ok_cnt _ Hh).
    rewrite <-(lmap_size (elements h')), <-(lmap_size (elements h)) by (done || apply Hh).
    fold (hmap h') (hmap h). rewrite Em.
    assert (is_Some (hmap h !! key e)) as Hs by (exists e; by apply lmap_Some; [apply Hh |]).
    rewrite map_size_delete_Some by done.
    assert (size (hmap h) ≠ 0%nat) by (apply map_size_non_empty_iff; intros E0; rewrite E0, lookup_empty in Hs; by destruct Hs).
    unfold wrap_u. rewrite Zminus_mod_idemp_l. f_equal. lia.
Qed.

(** *** Resizing *)

Lemma foldl_foldl {A B} (f : A → B → A) (bs : list (list B)) a :
  foldl (λ a b, foldl f a b) a bs = foldl f a (concat bs).
Proof. revert a. induction bs as [|b bs IH]; intros a; [done |]. cbn. by rewrite IH, foldl_app. Qed.

Lemma rehash_moves_cnt l h : bucket_cnt (foldl (rehash_move hash) h l) = bucket_cnt h.
Proof. revert h. induction l as [|e l IH]; intros h; [done |]. cbn. by rewrite IH. Qed.

Definition placed h : Prop := ∀ i b e, buckets h !! i = Some b → e ∈ b → find_bucket hash h e = i.

Lemma rehash_moves k l h :
  2 ≤ k ≤ 31 → bucket_cnt h = 2 ^ k → length (buckets h) = Z.to_nat (2 ^ k) → placed h →
  let h' := foldl (rehash_move hash) h l in
  bucket_cnt h' = 2 ^ k ∧ length (buckets h') = Z.to_nat (2 ^ k) ∧ h_elem_cnt h' = h_elem_cnt h ∧
  placed h' ∧ elements h' ≡ₚ l ++ elements h.
Proof.
  revert h. induction l as [|e l IH]; intros h Hk Hb Hl Hp; [done |]. cbn [foldl].
  pose proof (find_bucket_lt h k e Hk Hb) as Hr. rewrite <-Hl in Hr.
  destruct (IH (rehash_move hash h e)) as (H1 & H2 & H3 & H4 & H5); [done | done | | |].
  - cbn. by rewrite length_alter.
  - intros i b x Hi Hx. cbn in Hi. destruct (decide (i = find_bucket hash h e)) as [-> |Hne].
    + rewrite list_lookup_alter_eq in Hi. destruct (buckets h !! _) as [b'|] eqn:Eb; [| done].
      injection Hi as <-. apply elem_of_cons in Hx as [-> |Hx]; [done |]. by eapply Hp.
    + rewrite list_lookup_alter_ne in Hi by done. by eapply Hp.
  - split_and!; [done | done | done | done |]. rewrite H5. unfold elements. cbn [buckets rehash_move].
    rewrite concat_alter_cons by done. by rewrite <-Permutation_middle.
Qed.

(** [rehash] keeps the elements, whether or not it finds memory. *)
Lemma rehash_ok malloc_ok h :
  hash_ok h → ∃ h', rehash hash malloc_ok h = Ok h' ∧ hash_ok h' ∧ elements h' ≡ₚ elements h.
Proof.
  intros Hh. unfold rehash. pose proof (u32_range (Z.of_nat (length (elements h)))) as Hc.
  rewrite <-(ok_cnt _ Hh) in Hc. unfold BEST_ELEMS_PER_BUCKET.
  set (n := if h_elem_cnt h / 2 <? 4 then 4 else h_elem_cnt h / 2).
  assert (4 ≤ n < 2147483648) as Hn.
  { subst n. assert (h_elem_cnt h / 2 < 2147483648) by (apply Z.div_lt_upper_bound; lia).
    destruct (Z.ltb_spec (h_elem_cnt h / 2) 4); lia. }
  rewrite (round_to_power_of_2_ok 32 0) by (lia || by exists n; lia). cbn [mbind outcome_bind].
  assert (2 ≤ Z.log2 n) by (apply Z.log2_le_pow2; lia).
  assert (Z.log2 n < 31) by (apply Z.log2_lt_pow2; lia).
  destruct (Z.eqb_spec (2 ^ Z.log2 n) (bucket_cnt h)); [by exists h |].
  destruct malloc_ok; cbn [negb]; [| by exists h]. rewrite foldl_foldl. eexists. split; [done |].
  destruct (rehash_moves (Z.log2 n) (concat (buckets h)) (HashTable (h_elem_cnt h) (2 ^ Z.log2 n)
    (replicate (Z.to_nat (2 ^ Z.log2 n)) []))) as (Ha & H2 & H3 & H4 & H5);
    [lia | done | by apply length_replicate | |].
  { intros i b e Hi Hx. apply lookup_replicate in Hi as [-> _]. by apply elem_of_nil in Hx. }
  assert (∀ m, concat (replicate m ([] : list E)) = []) as Hnil by (intros m; by induction m).
  unfold elements at 2 in H5. cbn [buckets] in H5. rewrite Hnil, app_nil_r in H5.
  split; [| done]. split; [| congruence | done | |].
  - exists (Z.log2 n). split; [lia | done].
  - rewrite H5. apply Hh.
  - rewrite H3, H5. apply Hh.
Qed.

Lemma hmap_perm h h' : hash_ok h' → elements h' ≡ₚ elements h → hmap h' = hmap h.
Proof. intros Hh. apply lmap_perm, Hh. Qed.

(** *** The operations *)

Lemma hash_insert_ok malloc_ok h e :
  hash_ok h → ∃ h', hash_insert hash less malloc_ok h e = Ok (hmap h !! key e, h') ∧ hash_ok h' ∧
    hmap h' = (if hmap h !! key e is Some _ then hmap h else <[key e := e]> (hmap h)).
Proof.
  intros Hh. unfold hash_insert. destruct (find_in_bucket h e Hh) as (b & Eb & Ef).
  rewrite Eb. cbn [mbind outcome_bind]. rewrite Ef.
  destruct (hmap h !! key e) as [old|] eqn:Eo.
  - destruct (rehash_ok malloc_ok h Hh) as (h' & -> & Hh' & Hp). exists h'. split; [done |].
    split; [done | by apply hmap_perm].
  - destruct (insert_elem_ok h e Hh Eo) as [Hi Hpi].
    destruct (rehash_ok malloc_ok _ Hi) as (h' & -> & Hh' & Hp). exists h'. split; [done |]. split; [done |].
    rewrite (hmap_perm _ _ Hh' Hp). unfold hmap. rewrite (lmap_perm _ _ (ok_keys _ Hi) Hpi). apply lmap_cons.
Qed.

Lemma hash_replace_ok malloc_ok h e :
  hash_ok h → ∃ h', hash_replace hash less malloc_ok h e = Ok (hmap h !! key e, h') ∧ hash_ok h' ∧
    hmap h' = <[key e := e]> (hmap h).
Proof.
  intros Hh. unfold hash_replace. destruct (find_in_bucket h e Hh) as (b & Eb & Ef).
  rewrite Eb. cbn [mbind outcome_bind]. rewrite Ef.
  set (h1 := match hmap h !! key e with Some o => remove_elem h o | None => h end).
  assert (hash_ok h1 ∧ hmap h1 = delete (key e) (hmap h) ∧ bucket_cnt h1 = bucket_cnt h) as (H1 & Hm1 & Hb1).
  { subst h1. destruct (hmap h !! key e) as [o|] eqn:Eo.
    - apply lmap_Some in Eo as [Ho Hk]; [| apply Hh].
      destruct (remove_elem_ok h o Hh Ho) as (? & _ & Hm). rewrite Hk in Hm. done.
    - by rewrite delete_id. }
  assert (find_bucket hash h e = find_bucket hash h1 e) as -> by (unfold find_bucket; by rewrite Hb1).
  destruct (insert_elem_ok h1 e H1) as [Hi Hpi]; [by rewrite Hm1, lookup_delete_eq |].
  destruct (rehash_ok malloc_ok _ Hi) as (h' & -> & Hh' & Hp). exists h'. split; [done |]. split; [done |].
  rewrite (hmap_perm _ _ Hh' Hp). unfold hmap at 1. rewrite (lmap_perm _ _ (ok_keys _ Hi) Hpi), lmap_cons.
  fold (hmap h1). by rewrite Hm1, insert_delete_eq.
Qed.

Lemma hash_find_ok h e : hash_ok h → hash_find hash less h e = Ok (hmap h !! key e).
Proof. intros Hh. unfold hash_find. destruct (find_in_bucket h e Hh) as (b & Eb & Ef). rewrite Eb. by rewrite <-Ef. Qed.

Lemma hash_delete_ok malloc_ok h e :
  hash_ok h → ∃ h', hash_delete hash less malloc_ok h e = Ok (hmap h !! key e, h') ∧ hash_ok h' ∧
    hmap h' = delete (key e) (hmap h).
Proof.
  intros Hh. unfold hash_delete. destruct (find_in_bucket h e Hh) as (b & Eb & Ef).
  rewrite Eb. cbn [mbind outcome_bind]. rewrite Ef.
  destruct (hmap h !! key e) as [o|] eqn:Eo; [| exists h; by rewrite delete_id].
  apply lmap_Some in Eo as [Ho Hk]; [| apply Hh]. destruct (remove_elem_ok h o Hh Ho) as (Hr & _ & Hm).
  destruct (rehash_ok malloc_ok _ Hr) as (h' & -> & Hh' & Hp). exists h'. split; [done |]. split; [done |].
  by rewrite (hmap_perm _ _ Hh' Hp), Hm, Hk.
Qed.

Lemma hash_clear_ok {S} (d : option (E → S → S)) h s :
  hash_ok h → let h' := (hash_clear d h s).1 in hash_ok h' ∧ hmap h' = ∅.
Proof.
  intros Hh. cbn. assert (concat ((λ _, []) <$> buckets h) = ([] : list E)) as Hnil.
  { induction (buckets h) as [|b bs IH]; done. }
  split; [split |].
  - apply Hh.
  - cbn. rewrite length_fmap. apply Hh.
  - intros i b e Hi He. cbn in Hi. rewrite list_lookup_fmap in Hi. destruct (buckets h !! i); [| done].
    injection Hi as <-. by apply elem_of_nil in He.
  - unfold elements. cbn. rewrite Hnil. constructor.
  - unfold elements. cbn. by rewrite Hnil.
  - unfold hmap, elements. cbn. by rewrite Hnil.
Qed.

Lemma hash_init_ok : ∃ h, hash_init true = Some h ∧ hash_ok h ∧ hmap h = ∅.
Proof.
  eexists. split; [done |]. split; [split |]; cbn.
  - by exists 2.
  - done.
  - intros i b e Hi He. do 4 (destruct i as [|i]; [injection Hi as <-; by apply elem_of_nil in He |]). done.
  - constructor.
  - done.
  - done.
Qed.

(** *** Iteration *)

(** All the elements that [hash_next] returns from an iterator on. *)
Fixpoint iterate (fuel : nat) h (i : hash_iterator) : outcome (list E) :=
  match fuel with
  | O => Err OutOfFuel
  | S fuel =>
      '(e, i) ← hash_next h i;
      match e with Some e => l ← iterate fuel h i; Ok (e :: l) | None => Ok [] end
  end.

(** An iterator with the elements [l] to go. *)
Definition to_go h (i : hash_iterator) (l : list E) : Prop :=
  ∃ bucket l0, buckets h !! i_bucket i = Some bucket ∧ after_pos bucket (i_elem i) = Ok l0 ∧
    l0 `suffix_of` bucket ∧ l = l0 ++ concat (drop (S (i_bucket i)) (buckets h)).

Lemma after_elem_middle l1 e l2 : e ∉ l1 → after_elem (l1 ++ e :: l2) e = Some l2.
Proof.
  induction l1 as [|x l1 IH]; cbn; intros Hn; [by rewrite decide_True |].
  rewrite decide_False by (intros ->; apply Hn; left). apply IH. intros ?. apply Hn. by right.
Qed.

Lemma elements_NoDup h : hash_ok h → NoDup (elements h).
Proof. intros Hh. eapply NoDup_fmap_1, (ok_keys _ Hh). Qed.

Lemma bucket_NoDup h i b : NoDup (elements h) → buckets h !! i = Some b → NoDup b.
Proof.
  unfold elements. intros Hn Hi. rewrite <-(take_drop_middle _ _ _ Hi), concat_app in Hn.
  apply NoDup_app in Hn as (_ & _ & Hn). by apply NoDup_app in Hn as [Hn _].
Qed.

Lemma hash_next_loop_ok h l b bucket :
  NoDup (elements h) → buckets h !! b = Some bucket → l `suffix_of` bucket →
  let i := hash_next_loop (drop (S b) (buckets h)) l b in
  match l ++ concat (drop (S b) (buckets h)) with
  | [] => i_elem i = AtNull
  | e :: l' => i_elem i = AtElem e ∧ to_go h i l'
  end.
Proof.
  intros Hn. remember (drop (S b) (buckets h)) as rest eqn:Er. revert l b bucket Er.
  induction rest as [|b' rest IH]; intros l b bucket Er Hb Hs; cbn [hash_next_loop].
  all: destruct l as [|e l]; cbn [app concat].
  2, 4: split; [done |]; exists bucket, l; destruct Hs as [pre ->]; cbn [i_bucket i_elem]; rewrite <-Er; split_and!;
    [done | | by exists (pre ++ [e]); rewrite <-app_assoc | done];
    cbn; rewrite after_elem_middle; [done |]; apply (bucket_NoDup _ _ _ Hn) in Hb;
    by apply NoDup_app_elem in Hb as [? _].
  - done.
  - assert (buckets h !! S b = Some b') as Hb'.
    { rewrite <-(Nat.add_0_r (S b)), <-lookup_drop, <-Er. done. }
    assert (rest = drop (S (S b)) (buckets h)) as Er'.
    { rewrite (drop_S _ _ _ Hb') in Er. by injection Er. }
    by apply (IH b' (S b) b').
Qed.

Lemma iterate_ok fuel h i l :
  NoDup (elements h) → to_go h i l → (length l < fuel)%nat → iterate fuel h i = Ok l.
Proof.
  intros Hn. revert i l. induction fuel as [|fuel IH]; intros i l Hg Hf; [lia |].
  destruct Hg as (bucket & l0 & Hb & Ha & Hs & ->). cbn [iterate].
  pose proof (hash_next_loop_ok h l0 (i_bucket i) bucket Hn Hb Hs) as Hl. cbv zeta in Hl.
  unfold hash_next, bucket_at. rewrite Hb. cbn [from_option_err mbind outcome_bind]. rewrite Ha.
  cbn [mbind outcome_bind]. destruct (l0 ++ _) as [|e l].
  - unfold hash_cur. by rewrite Hl.
  - destruct Hl as [He Hg]. unfold hash_cur. rewrite He. cbn [mbind outcome_bind].
    rewrite (IH _ l Hg); [done |]. cbn in Hf. lia.
Qed.

(** Iteration visits every element exactly once: from [hash_first],
    [hash_next] returns all the elements of the table, each once and in the
    order in which [hash_apply] and the destructor of [hash_clear] see them,
    and then the null pointer; [hash_clear] leaves an empty table. *)
Theorem hash_iteration_correct {S} (action : E → S → S) h (s : S) :
  hash_ok h →
  ∃ l, iterate (Datatypes.S (length l)) h hash_first = Ok l ∧ NoDup l ∧
    (∀ e, e ∈ l ↔ hmap h !! key e = Some e) ∧
    hash_apply action h s = foldl (λ s e, action e s) s l ∧
    (hash_clear (Some action) h s).2 = foldl (λ s e, action e s) s l ∧
    hmap (hash_clear (Some action) h s).1 = ∅.
Proof.
  intros Hh. exists (elements h). split_and!.
  - apply iterate_ok; [by apply elements_NoDup | | lia].
    destruct (buckets h) as [|b bs] eqn:Eb.
    { exfalso. pose proof (ok_len _ Hh) as Hl. destruct (ok_pow _ Hh) as (k & ? & E1).
      rewrite Eb, E1 in Hl. assert (0 < 2 ^ k) by (apply Z.pow_pos_nonneg; lia). cbn in Hl. lia. }
    exists b, b. unfold elements. rewrite Eb. by split_and!.
  - by apply elements_NoDup.
  - intros e. unfold hmap. rewrite lmap_Some by apply Hh. naive_solver.
  - apply foldl_foldl.
  - apply foldl_foldl.
  - by apply hash_clear_ok.
Qed.

(** *** Sequences of operations *)

Inductive hash_op := HInsert (e : E) | HReplace (e : E) | HFind (e : E) | HDelete (e : E) | HClear.

Definition exec_op (malloc_ok : bool) (o : hash_op) h : outcome (option E * hash_table E) :=
  match o with
  | HInsert e => hash_insert hash less malloc_ok h e
  | HReplace e => hash_replace hash less malloc_ok h e
  | HFind e => r ← hash_find hash less h e; Ok (r, h)
  | HDelete e => hash_delete hash less malloc_ok h e
  | HClear => Ok (None, (hash_clear None h tt).1)
  end.

Definition spec_op (o : hash_op) (m : gmap K E) : option E * gmap K E :=
  match o with
  | HInsert e => (m !! key e, if m !! key e is Some _ then m else <[key e := e]> m)
  | HReplace e => (m !! key e, <[key e := e]> m)
  | HFind e => (m !! key e, m)
  | HDelete e => (m !! key e, delete (key e) m)
  | HClear => (None, ∅)
  end.

Fixpoint exec_ops (os : list (bool * hash_op)) h : outcome (list (option E) * hash_table E) :=
  match os with
  | [] => Ok ([], h)
  | (mo, o) :: os => '(r, h) ← exec_op mo o h; '(rs, h) ← exec_ops os h; Ok (r :: rs, h)
  end.

Fixpoint spec_ops (os : list hash_op) (m : gmap K E) : list (option E) * gmap K E :=
  match os with
  | [] => ([], m)
  | o :: os => let '(r, m) := spec_op o m in let '(rs, m) := spec_ops os m in (r :: rs, m)
  end.

Lemma exec_op_ok mo o h :
  hash_ok h → ∃ h', exec_op mo o h = Ok ((spec_op o (hmap h)).1, h') ∧ hash_ok h' ∧
    hmap h' = (spec_op o (hmap h)).2.
Proof.
  intros Hh. destruct o as [e|e|e|e|]; cbn [exec_op spec_op fst snd].
  - by apply hash_insert_ok.
  - by apply hash_replace_ok.
  - exists h. by rewrite hash_find_ok.
  - by apply hash_delete_ok.
  - eexists. split; [done |]. by apply hash_clear_ok.
Qed.

Lemma exec_ops_ok os h :
  hash_ok h → ∃ h', exec_ops os h = Ok ((spec_ops os.*2 (hmap h)).1, h') ∧ hash_ok h' ∧
    hmap h' = (spec_ops os.*2 (hmap h)).2.
Proof.
  revert h. induction os as [|[mo o] os IH]; intros h Hh; [by exists h |].
  cbn [exec_ops spec_ops fmap list_fmap snd].
  destruct (exec_op_ok mo o h Hh) as (h1 & E1 & H1' & Hm). rewrite E1. cbn [mbind outcome_bind].
  destruct (spec_op o (hmap h)) as [r m]. cbn [fst snd] in Hm |- *. subst m.
  destruct (IH h1 H1') as (h2 & E2 & H2' & Hm2). rewrite E2. cbn [mbind outcome_bind].
  destruct (spec_ops os.*2 (hmap h1)) as [rs m]. by exists h2.
Qed.

(** C21: A hash table refines a finite map from keys: any sequence of insertions,
    replacements, lookups, deletions and clearings of a new table returns what
    the same operations return on a map, and leaves a table that represents the
    final map, however the table resized itself on the way and whichever of its
    [malloc] calls failed; [hash_size] counts the map's entries. *)
Theorem hash_table_refines_map os h :
  hash_init true = Some h →
  ∃ h', exec_ops os h = Ok ((spec_ops os.*2 ∅).1, h') ∧ hash_ok h' ∧ hmap h' = (spec_ops os.*2 ∅).2 ∧
    hash_size h' = u32 (Z.of_nat (size (hmap h'))).
Proof.
  intros Hi. destruct hash_init_ok as (h0 & E0 & Hh & Hm). rewrite E0 in Hi. injection Hi as <-.
  destruct (exec_ops_ok os h0 Hh) as (h' & E1 & Hh' & Hm'). rewrite Hm in E1, Hm'.
  exists h'. split_and!; [done | apply Hh' .. | done |].
  unfold hash_size, hmap. rewrite lmap_size by apply Hh'. apply Hh'.
Qed.
End spec.

(** The resizing loop terminates with the largest power of two in range,
    so a resize that finds memory ends with fewer than
    [MAX_ELEMS_PER_BUCKET] elements per bucket, and never with more than four
    buckets and fewer than [BEST_ELEMS_PER_BUCKET] elements per bucket. *)
Theorem rehash_load_factor {E K} `{Countable K} (hash : E → Z) (key : E → K) (h : hash_table E) :
  hash_ok hash key h →
  ∃ h', rehash hash true h = Ok h' ∧ h_elem_cnt h' = h_elem_cnt h ∧
    h_elem_cnt h' < MAX_ELEMS_PER_BUCKET * bucket_cnt h' ∧
    (4 < bucket_cnt h' → BEST_ELEMS_PER_BUCKET * bucket_cnt h' ≤ h_elem_cnt h') ∧
    (∃ k, bucket_cnt h' = 2 ^ k) ∧ 4 ≤ bucket_cnt h'.
Proof.
  intros Hh. destruct (rehash_ok hash key true h Hh) as (h' & E1 & Hh' & Hp).
  exists h'. split; [done |].
  assert (h_elem_cnt h' = h_elem_cnt h) as Ec by (by rewrite (ok_cnt _ _ _ Hh), (ok_cnt _ _ _ Hh'), Hp).
  split; [done |]. rewrite Ec. pose proof (u32_range (Z.of_nat (length (elements h)))) as Hc.
  rewrite <-(ok_cnt _ _ _ Hh) in Hc. unfold rehash in E1.
  unfold BEST_ELEMS_PER_BUCKET, MAX_ELEMS_PER_BUCKET in *.
  set (n := if h_elem_cnt h / 2 <? 4 then 4 else h_elem_cnt h / 2) in E1.
  assert (4 ≤ n < 2147483648 ∧ h_elem_cnt h < 2 * n + 2 ∧ (4 < n → 2 * n ≤ h_elem_cnt h)) as (Hn & Hu & Hl).
  { subst n. destruct (Z.ltb_spec (h_elem_cnt h / 2) 4); Z.to_euclidean_division_equations; lia. }
  rewrite (round_to_power_of_2_ok 32 0) in E1 by (lia || by exists n; lia). cbn [mbind outcome_bind negb] in E1.
  assert (bucket_cnt h' = 2 ^ Z.log2 n) as Eb.
  { destruct (Z.eqb_spec (2 ^ Z.log2 n) (bucket_cnt h)) as [->|]; [by injection E1 as -> |]. injection E1 as <-.
    by rewrite foldl_foldl, rehash_moves_cnt. }
  pose proof (Z.log2_spec n ltac:(lia)) as Hs. rewrite Z.pow_succ_r in Hs by apply Z.log2_nonneg.
  assert (2 ≤ Z.log2 n) as H2 by (apply Z.log2_le_pow2; lia).
  assert (2 ^ 2 ≤ 2 ^ Z.log2 n) as H4 by (apply Z.pow_le_mono_r; lia).
  rewrite Eb. split_and!; [lia | lia | by exists (Z.log2 n) | lia].
Qed.

(** ** Hash functions *)

Lemma fnv_step_range hash b : is_byte b → 0 ≤ fnv_step hash b < 4294967296.
Proof.
  unfold is_byte, fnv_step. intros Hb. pose proof (u32_range (hash * FNV_32_PRIME)) as Hu.
  set (x := u32 _) in *. assert (0 ≤ Z.lxor x b) as Hn by (apply Z.lxor_nonneg; lia). split; [done |].
  destruct (decide (Z.lxor x b = 0)) as [-> |]; [lia |].
  apply Z.log2_lt_cancel. eapply Z.le_lt_trans; [apply Z.log2_lxor; lia |].
  apply Z.max_lub_lt; apply (Z.le_lt_trans _ 31); [| done | | done].
  - destruct (decide (x = 0)) as [-> |]; [done |]. change 31 with (Z.log2 4294967295). apply Z.log2_le_mono. lia.
  - destruct (decide (b = 0)) as [-> |]; [done |]. change 31 with (Z.log2 4294967295). apply Z.log2_le_mono. lia.
Qed.

Lemma hash_bytes_range bs : Forall is_byte bs → 0 ≤ hash_bytes bs < 4294967296.
Proof.
  unfold hash_bytes. assert (0 ≤ FNV_32_BASIS < 4294967296) as Hb by done. revert Hb.
  generalize FNV_32_BASIS. induction bs as [|b bs IH]; intros x Hx Hbs; [done |].
  apply Forall_cons in Hbs as [Hb Hbs]. cbn [foldl]. apply IH; [by apply fnv_step_range | done].
Qed.

(** A string hashes as its bytes up to the terminator, whatever follows it
    in memory, and an integer as its four bytes; hashes are 32-bit numbers. *)
Theorem hash_functions_agree s rest i :
  Forall is_byte s → 0 ∉ s →
  hash_string (s ++ 0 :: rest) = Ok (hash_bytes s) ∧ hash_string s = Err BadPointer ∧
  0 ≤ hash_bytes s < 4294967296 ∧
  hash_string (bytes_of_u32 (u32 i) ++ [0]) =
    (if decide (0 ∈ bytes_of_u32 (u32 i)) then hash_string (bytes_of_u32 (u32 i)) else Ok (hash_int i)) ∧
  0 ≤ hash_int i < 4294967296.
Proof.
  assert (∀ s' t x, 0 ∉ s' → hash_string_loop (s' ++ 0 :: t) x = Ok (foldl fnv_step x s')) as H.
  { intros s'; induction s' as [|c s' IH]; intros t x H0; [done |]. apply not_elem_of_cons in H0 as [Hc H0].
    cbn. destruct (Z.eqb_spec c 0); [congruence | by apply IH]. }
  assert (∀ s' t x, 0 ∈ s' → hash_string_loop (s' ++ t) x = hash_string_loop s' x) as H'.
  { intros s'; induction s' as [|c s' IH]; intros t x H0; [by apply elem_of_nil in H0 |].
    cbn. destruct (Z.eqb_spec c 0); [done |]. apply IH. apply elem_of_cons in H0 as [|]; [congruence | done]. }
  intros Hs H0. split_and!.
  - by apply H.
  - unfold hash_string. generalize FNV_32_BASIS. clear Hs. induction s as [|c s IH]; intros x; [done |].
    apply not_elem_of_cons in H0 as [Hc H0]. cbn. destruct (Z.eqb_spec c 0); [congruence | by apply IH].
  - by apply hash_bytes_range.
  - by apply hash_bytes_range.
  - case_decide; [by apply H' | by apply H].
  - apply hash_bytes_range, bytes_of_u32_byte.
  - apply hash_bytes_range, bytes_of_u32_byte.
Qed.

Lemma hash_functions_agree_witness : hash_string [97; 98; 0; 99] = Ok (hash_bytes [97; 98]).
Proof.
  refine (proj1 (hash_functions_agree [97; 98] [99] 7 _ _)).
  - repeat constructor; done.
  - intros Hin. repeat (apply elem_of_cons in Hin as [Hin|Hin]; [discriminate Hin |]).
    by apply elem_of_nil in Hin.
Defined.

(** ** A client: pairs of an integer key and a name, hashed by the key *)

Section client.
Let hash (e : Z * Z) : Z := hash_int e.1.
Let less (a b : Z * Z) : bool := a.1 <? b.1.

Lemma client_less_key (a b : Z * Z) : negb (less a b) && negb (less b a) = bool_decide (a.1 = b.1).
Proof.
  unfold less. destruct (Z.ltb_spec a.1 b.1), (Z.ltb_spec b.1 a.1); case_bool_decide; done || lia.
Qed.

Lemma client_hash_key (a b : Z * Z) : a.1 = b.1 → hash a = hash b.
Proof. by unfold hash; intros ->. Qed.

Definition client_ops : list (bool * hash_op) :=
  [(true, HInsert (7, 1)); (true, HInsert (8, 2)); (true, HInsert (7, 3)); (true, HReplace (8, 4));
   (false, HFind (8, 0)); (true, HDelete (7, 0)); (true, HFind (7, 0))].

Lemma hash_table_refines_map_witness :
  ∃ h, exec_ops hash less client_ops (HashTable 0 4 [[]; []; []; []]) =
      Ok ([None; None; Some (7, 1); Some (8, 2); Some (8, 4); Some (7, 1); None], h) ∧
    hmap fst h = {[ 8 := (8, 4) ]}.
Proof.
  destruct (hash_table_refines_map hash less fst client_less_key client_hash_key
    client_ops (HashTable 0 4 [[]; []; []; []]) eq_refl) as (h & E & _ & Hm & _).
  exists h. split; [exact E | exact Hm].
Defined.

Definition client_table : hash_table (Z * Z) := HashTable 0 4 [[]; []; []; []].

Lemma client_table_ok : hash_ok hash fst client_table.
Proof.
  destruct (hash_init_ok hash fst) as (h & E & Hh & _). injection E as <-. exact Hh.
Qed.

Lemma hash_iteration_correct_witness :
  ∃ l, iterate (S (length l)) client_table hash_first = Ok l.
Proof.
  destruct (hash_iteration_correct hash fst (λ _ (n : Z), n + 1) client_table 0 client_table_ok) as (l & E & _).
  by exists l.
Defined.

Lemma rehash_load_factor_witness : ∃ h', rehash hash true client_table = Ok h' ∧ 4 ≤ bucket_cnt h'.
Proof.
  destruct (rehash_load_factor hash fst client_table client_table_ok)
    as (h' & E & _ & _ & _ & _ & H). by exists h'.
Defined.
End client.
