(* ===== verification/CStdlib.v ===== *)
(** lib/stdlib.c: numbers in strings, heap sort and binary search.

    An array is the list of its bytes; a comparison function sees the bytes of
    the two elements it is given ([aux] is part of the function).  A [for (;;)]
    loop runs with fuel, which is shown to be enough. *)
From S2P Require Import Prelude Bytes.
Local Open Scope Z_scope.

(** ** Numbers *)

Definition isdigit (c : Z) : bool := (48 <=? c) && (c <=? 57).
Definition isspace (c : Z) : bool :=
  (c =? 32) || (c =? 12) || (c =? 10) || (c =? 13) || (c =? 9) || (c =? 11).

(** [s] is the memory from the pointer on. *)
Fixpoint skip_spaces (s : list Z) : outcome (list Z) :=
  match s with
  | [] => Err BadPointer
  | c :: s' => if isspace c then skip_spaces s' else Ok s
  end.

Fixpoint atoi_digits (s : list Z) (value : Z) : outcome Z :=
  match s with
  | [] => Err BadPointer
  | c :: s => if isdigit c then atoi_digits s (i32 (i32 (value * 10) - (c - 48))) else Ok value
  end.

Definition atoi (s : list Z) : outcome Z :=
  s ← skip_spaces s;
  match s with
  | [] => Err BadPointer
  | c :: s' =>
      let '(negative, s) := if c =? 43 then (false, s') else if c =? 45 then (true, s') else (false, s) in
      value ← atoi_digits s 0;
      Ok (if (negative : bool) then value else i32 (- value))
  end.

(** ** Heap sort *)

Section sort.
Variable size : Z.
Variable compare : list Z → list Z → Z.

Definition get_byte (array : list Z) (i : Z) : outcome Z :=
  from_option_err BadPointer (array !! Z.to_nat i).

(** The byte loop of [do_swap], with [n] turns left; [a] and [b] are the
    offsets of the elements. *)
Fixpoint swap_loop (n : nat) (array : list Z) (a b i : Z) : outcome (list Z) :=
  match n with
  | O => Ok array
  | S n =>
      t ← get_byte array (a + i);
      u ← get_byte array (b + i);
      swap_loop n (<[Z.to_nat (b + i) := t]> (<[Z.to_nat (a + i) := u]> array)) a b (i + 1)
  end.

Definition do_swap (array : list Z) (a_idx b_idx : Z) : outcome (list Z) :=
  swap_loop (Z.to_nat size) array ((a_idx - 1) * size) ((b_idx - 1) * size) 0.

(** The element at an offset, if it lies in the array. *)
Definition elem_at (array : list Z) (offset : Z) : outcome (list Z) :=
  if (0 <=? offset) && (offset + size <=? Z.of_nat (length array))
  then Ok (take (Z.to_nat size) (drop (Z.to_nat offset) array)) else Err BadPointer.

Definition do_compare (array : list Z) (a_idx b_idx : Z) : outcome Z :=
  a ← elem_at array ((a_idx - 1) * size);
  b ← elem_at array ((b_idx - 1) * size);
  Ok (compare a b).

(** [if (idx <= cnt && do_compare (array, idx, max) > 0) max = idx;] *)
Definition larger (array : list Z) (idx cnt max : Z) : outcome Z :=
  if idx <=? cnt then c ← do_compare array idx max; Ok (if 0 <? c then idx else max) else Ok max.

Fixpoint heapify (fuel : nat) (array : list Z) (i cnt : Z) : outcome (list Z) :=
  match fuel with
  | O => Err OutOfFuel
  | S fuel =>
      let left := u32 (2 * i) in
      let right := u32 (2 * i + 1) in
      max ← larger array left cnt i;
      max ← larger array right cnt max;
      if max =? i then Ok array
      else array ← do_swap array i max; heapify fuel array max cnt
  end.

(** Every turn of [heapify] doubles [i], so 32 turns pass any [cnt]. *)
Definition heapify_fuel : nat := 32.

Fixpoint build_loop (i : nat) (array : list Z) (cnt : Z) : outcome (list Z) :=
  match i with
  | O => Ok array
  | S i' => array ← heapify heapify_fuel array (Z.of_nat i) cnt; build_loop i' array cnt
  end.

(** [for (i = cnt; i > 1; i--)], with [i = n + 1]. *)
Fixpoint extract_loop (n : nat) (array : list Z) : outcome (list Z) :=
  match n with
  | O => Ok array
  | S n' =>
      let i := Z.of_nat n + 1 in
      array ← do_swap array 1 i;
      array ← heapify heapify_fuel array 1 (i - 1);
      extract_loop n' array
  end.

Definition sort (array : list Z) (cnt : Z) : outcome (list Z) :=
  assert_that (0 <? size);;
  array ← build_loop (Z.to_nat (cnt / 2)) array cnt;
  extract_loop (Z.to_nat (cnt - 1)) array.

(** ** Binary search *)

(** [cmp_key] compares the key with an element; pointers are offsets into the
    array.  Every turn shrinks the range. *)
Fixpoint search_loop (fuel : nat) (cmp_key : list Z → Z) (array : list Z) (first last : Z) : outcome (option Z) :=
  if negb (first <? last) then Ok None
  else match fuel with
  | O => Err OutOfFuel
  | S fuel =>
      let range := (last - first) / size in
      let middle := first + range / 2 * size in
      e ← elem_at array middle;
      let cmp := cmp_key e in
      if cmp <? 0 then search_loop fuel cmp_key array first middle
      else if 0 <? cmp then search_loop fuel cmp_key array (middle + size) last
      else Ok (Some middle)
  end.

Definition binary_search (key array : list Z) (cnt : Z) : outcome (option Z) :=
  search_loop (Z.to_nat cnt) (compare key) array 0 (size * cnt).
End sort.

(** [compare_thunk] calls the function its auxiliary data points to. *)
Definition compare_thunk (compare : list Z → list Z → Z) (a b : list Z) : Z := compare a b.

Definition qsort (array : list Z) (cnt size : Z) (compare : list Z → list Z → Z) : outcome (list Z) :=
  sort size (compare_thunk compare) array cnt.

Definition bsearch (key array : list Z) (cnt size : Z) (compare : list Z → list Z → Z) : outcome (option Z) :=
  binary_search size (compare_thunk compare) key array cnt.
