(* ===== verification/CStdlibThm.v ===== *)
(** Correctness of lib/stdlib.c: heap sort orders the elements of any array,
    binary search finds an element of a sorted one, and [atoi] reads decimal
    numbers. *)
From S2P Require Import Prelude Bytes CStdlib.
Local Open Scope Z_scope.

(** ** The elements of an array of bytes *)

Definition elems (size cnt : Z) (array : list Z) : list (list Z) :=
  (λ k, take (Z.to_nat size) (drop (Z.to_nat (k * size)) array)) <$> seqZ 0 cnt.

(** The element of 1-based index [i]. *)
Definition el (l : list (list Z)) (i : Z) : list Z := l !!! Z.to_nat (i - 1).

Section arrays.
Variables size cnt : Z.
Hypothesis size_pos : 0 < size.
Hypothesis cnt_nonneg : 0 ≤ cnt.
Implicit Types array : list Z.

Definition array_ok array : Prop := Z.of_nat (length array) = cnt * size.

Lemma elems_length array : length (elems size cnt array) = Z.to_nat cnt.
Proof. unfold elems. by rewrite length_fmap, length_seqZ. Qed.

Lemma elems_lookup array k : 0 ≤ k < cnt →
  elems size cnt array !! Z.to_nat k = Some (take (Z.to_nat size) (drop (Z.to_nat (k * size)) array)).
Proof.
  intros Hk. unfold elems. rewrite list_lookup_fmap, lookup_seqZ_lt by lia. cbn. do 3 f_equal. lia.
Qed.

Lemma el_elems array i : 1 ≤ i ≤ cnt →
  el (elems size cnt array) i = take (Z.to_nat size) (drop (Z.to_nat ((i - 1) * size)) array).
Proof. intros. apply list_lookup_total_correct. by rewrite elems_lookup by lia. Qed.

Lemma elem_at_ok array i : array_ok array → 1 ≤ i ≤ cnt →
  elem_at size array ((i - 1) * size) = Ok (el (elems size cnt array) i).
Proof.
  intros Ha Hi. unfold elem_at. rewrite Ha.
  destruct (Z.leb_spec 0 ((i - 1) * size)); [| nia].
  destruct (Z.leb_spec ((i - 1) * size + size) (cnt * size)); [| nia]. cbn [andb]. f_equal.
  by rewrite el_elems.
Qed.

(** The byte loop exchanges two separate ranges. *)
Lemma swap_loop_ok n array a b i :
  0 ≤ a → 0 ≤ b → 0 ≤ i → i + Z.of_nat n = size → (a + size ≤ b ∨ b + size ≤ a) →
  a + size ≤ Z.of_nat (length array) → b + size ≤ Z.of_nat (length array) →
  ∃ r, swap_loop n array a b i = Ok r ∧ length r = length array ∧
    ∀ j : nat, r !! j =
      if decide (a + i ≤ Z.of_nat j < a + size) then array !! Z.to_nat (Z.of_nat j - a + b)
      else if decide (b + i ≤ Z.of_nat j < b + size) then array !! Z.to_nat (Z.of_nat j - b + a)
      else array !! j.
Proof.
  revert array i. induction n as [|n IH]; intros array i Ha Hb Hi Hn Hd Hla Hlb.
  - exists array. split_and!; [done | done |]. intros j. by rewrite !decide_False by lia.
  - cbn [swap_loop]. unfold get_byte.
    destruct (lookup_lt_is_Some_2 array (Z.to_nat (a + i))) as [t Et]; [lia |].
    destruct (lookup_lt_is_Some_2 array (Z.to_nat (b + i))) as [u Eu]; [lia |].
    rewrite Et, Eu. cbn [from_option_err mbind outcome_bind].
    destruct (IH (<[Z.to_nat (b + i) := t]> (<[Z.to_nat (a + i) := u]> array)) (i + 1)) as (r & -> & Hl & Hr);
      [lia.. | | |]; [rewrite !length_insert; lia .. |].
    exists r. rewrite !length_insert in Hl. split_and!; [done | done |]. intros j. rewrite Hr.
    assert (∀ k : nat, <[Z.to_nat (b + i) := t]> (<[Z.to_nat (a + i) := u]> array) !! k =
      if decide (k = Z.to_nat (b + i)) then array !! Z.to_nat (a + i)
      else if decide (k = Z.to_nat (a + i)) then array !! Z.to_nat (b + i) else array !! k) as Hk.
    { intros k. destruct (decide (k = Z.to_nat (b + i))) as [-> |].
      { rewrite list_lookup_insert_eq; [done |]. rewrite length_insert. lia. }
      rewrite list_lookup_insert_ne by done. destruct (decide (k = Z.to_nat (a + i))) as [-> |].
      { rewrite list_lookup_insert_eq; [done | lia]. }
      by rewrite list_lookup_insert_ne. }
    rewrite !Hk. repeat case_decide; try lia; try done; f_equal; lia.
Qed.

Definition swap_elems (i j : Z) (l : list (list Z)) : list (list Z) :=
  <[Z.to_nat (j - 1) := el l i]> (<[Z.to_nat (i - 1) := el l j]> l).

Lemma swap_elems_el i j l k :
  1 ≤ i ≤ Z.of_nat (length l) → 1 ≤ j ≤ Z.of_nat (length l) → 1 ≤ k →
  el (swap_elems i j l) k = if decide (k = j) then el l i else if decide (k = i) then el l j else el l k.
Proof.
  intros. unfold swap_elems, el. destruct (decide (k = j)) as [-> |].
  - apply list_lookup_total_insert_eq. rewrite length_insert. lia.
  - rewrite list_lookup_total_insert_ne by lia. destruct (decide (k = i)) as [-> |].
    + apply list_lookup_total_insert_eq. lia.
    + apply list_lookup_total_insert_ne. lia.
Qed.

Lemma swap_elems_perm i j l :
  1 ≤ i ≤ Z.of_nat (length l) → 1 ≤ j ≤ Z.of_nat (length l) → swap_elems i j l ≡ₚ l.
Proof.
  intros Hi Hj. unfold swap_elems.
  destruct (lookup_lt_is_Some_2 l (Z.to_nat (i - 1))) as [x Hx]; [lia |].
  destruct (lookup_lt_is_Some_2 l (Z.to_nat (j - 1))) as [y Hy]; [lia |].
  unfold el. rewrite (list_lookup_total_correct _ _ _ Hx), (list_lookup_total_correct _ _ _ Hy).
  by apply Permutation_insert_swap.
Qed.

Lemma swap_elems_drop i j n l :
  (Z.to_nat (i - 1) < n)%nat → (Z.to_nat (j - 1) < n)%nat → drop n (swap_elems i j l) = drop n l.
Proof. intros. unfold swap_elems. by rewrite !drop_insert_lt. Qed.

Lemma do_swap_ok array i j :
  array_ok array → 1 ≤ i ≤ cnt → 1 ≤ j ≤ cnt → i ≠ j →
  ∃ r, do_swap size array i j = Ok r ∧ array_ok r ∧
    elems size cnt r = swap_elems i j (elems size cnt array).
Proof.
  intros Ha Hi Hj Hij. unfold do_swap.
  destruct (swap_loop_ok (Z.to_nat size) array ((i - 1) * size) ((j - 1) * size) 0)
    as (r & -> & Hl & Hr); [nia | nia | lia | lia | | unfold array_ok in Ha; nia | unfold array_ok in Ha; nia |].
  { destruct (Z.lt_total i j) as [|[|]]; [left; nia | lia | right; nia]. }
  exists r. split; [done |]. split; [unfold array_ok in *; lia |].
  apply list_eq. intros k. destruct (decide (k < Z.to_nat cnt)%nat) as [Hk|Hk].
  2: { rewrite !lookup_ge_None_2; [done | unfold swap_elems; rewrite !length_insert |];
       rewrite elems_length; lia. }
  unfold swap_elems. rewrite !el_elems by done.
  replace k with (Z.to_nat (Z.of_nat k)) by lia. rewrite elems_lookup by lia. rewrite Z.add_0_r in Hr || idtac.
  set (kz := Z.of_nat k) in *.
  assert (∀ k', 0 ≤ k' < cnt → (∀ m, (m < Z.to_nat size)%nat →
      r !! (Z.to_nat (kz * size) + m)%nat = array !! (Z.to_nat (k' * size) + m)%nat) →
    take (Z.to_nat size) (drop (Z.to_nat (kz * size)) r) = take (Z.to_nat size) (drop (Z.to_nat (k' * size)) array)) as Heq.
  { intros k' Hk' Hm. apply list_eq. intros m. destruct (decide (m < Z.to_nat size)%nat).
    - rewrite !lookup_take_lt, !lookup_drop by done. by apply Hm.
    - rewrite !lookup_take_ge by lia. done. }
  destruct (decide (kz = j - 1)) as [Ej|Ej].
  { rewrite Ej, list_lookup_insert_eq by (rewrite length_insert, elems_length; lia). f_equal. rewrite <-Ej.
    apply Heq; [lia |]. intros m Hm. rewrite Hr. rewrite decide_False, decide_True by nia. f_equal. nia. }
  rewrite list_lookup_insert_ne by lia. destruct (decide (kz = i - 1)) as [Ei|Ei].
  { rewrite Ei, list_lookup_insert_eq by (rewrite elems_length; lia). f_equal. rewrite <-Ei.
    apply Heq; [lia |]. intros m Hm. rewrite Hr. rewrite decide_True by nia. f_equal. nia. }
  rewrite list_lookup_insert_ne by lia. rewrite elems_lookup by lia. f_equal.
  apply Heq; [lia |]. intros m Hm. rewrite Hr. rewrite !decide_False by nia. done.
Qed.
End arrays.

(** ** Heaps *)

Section heap.
Variables size cnt : Z.
Variable compare : list Z → list Z → Z.
Hypothesis size_pos : 0 < size.
Hypothesis cnt_range : 0 ≤ cnt < 2147483648.

Definition le (a b : list Z) : Prop := compare a b ≤ 0.
Hypothesis le_total : ∀ a b, le a b ∨ le b a.
Hypothesis le_trans : ∀ a b c, le a b → le b c → le a c.

Implicit Types array : list Z.
Implicit Types l : list (list Z).
Notation elems := (elems size cnt).
Notation array_ok := (array_ok size cnt).

Definition child (p c : Z) : Prop := c = 2 * p ∨ c = 2 * p + 1.

(** Up to [n], every parent from [lo] on is at least its children. *)
Definition heap lo n l : Prop := ∀ p c, lo ≤ p → child p c → c ≤ n → le (el l c) (el l p).

(** The same, except that the element at [i] may be too small. *)
Definition heap_but i lo n l : Prop :=
  (∀ p c, lo ≤ p → p ≠ i → child p c → c ≤ n → le (el l c) (el l p)) ∧
  (∀ p c, lo ≤ p → child p i → child i c → c ≤ n → le (el l c) (el l p)).

Lemma le_refl a : le a a.
Proof. by destruct (le_total a a). Qed.

Lemma larger_ok array idx n max :
  array_ok array → 1 ≤ idx → 1 ≤ max ≤ n → n ≤ cnt →
  ∃ m, larger size compare array idx n max = Ok m ∧ (m = max ∨ m = idx ∧ idx ≤ n) ∧
    le (el (elems array) max) (el (elems array) m) ∧ (idx ≤ n → le (el (elems array) idx) (el (elems array) m)).
Proof.
  intros Ha Hi Hm Hn. unfold larger. destruct (Z.leb_spec idx n).
  2: { exists max. split_and!; [done | by left | apply le_refl | lia]. }
  unfold do_compare. rewrite (elem_at_ok size cnt size_pos array idx Ha) by lia. cbn [mbind outcome_bind].
  rewrite (elem_at_ok size cnt size_pos array max Ha) by lia. cbn [mbind outcome_bind].
  destruct (Z.ltb_spec 0 (compare (el (elems array) idx) (el (elems array) max))) as [Hlt|Hge].
  - exists idx. split_and!; [done | by right | | intros; apply le_refl].
    destruct (le_total (el (elems array) max) (el (elems array) idx)) as [|Hle]; [done |]. unfold le in *. lia.
  - exists max. split_and!; [done | by left | apply le_refl | intros; exact Hge].
Qed.

(** One turn of [heapify] picks the largest of an element and its children. *)
Lemma heapify_max array i n :
  array_ok array → 1 ≤ i ≤ n → n ≤ cnt →
  ∃ m1 m, larger size compare array (u32 (2 * i)) n i = Ok m1 ∧
    larger size compare array (u32 (2 * i + 1)) n m1 = Ok m ∧
    (m = i ∨ child i m ∧ m ≤ n) ∧ le (el (elems array) i) (el (elems array) m) ∧
    ∀ c, child i c → c ≤ n → le (el (elems array) c) (el (elems array) m).
Proof.
  intros Ha Hi Hn. rewrite !u32_id by lia.
  destruct (larger_ok array (2 * i) n i) as (m1 & E1 & H1 & Hl1 & Hc1); [done | lia | lia | done |].
  destruct (larger_ok array (2 * i + 1) n m1) as (m & E2 & H2 & Hl2 & Hc2); [done | lia | lia | done |].
  exists m1, m. split_and!; [done | done | | by eapply le_trans |].
  - unfold child. intuition lia.
  - intros c [-> | ->] Hc; [| by apply Hc2]. eapply le_trans; [by apply Hc1 | done].
Qed.

Lemma heapify_ok fuel array lo i n :
  array_ok array → 1 ≤ lo ≤ i → i ≤ n → n ≤ cnt → 2 ^ (32 - Z.of_nat fuel) ≤ i →
  heap_but i lo n (elems array) →
  ∃ r, heapify size compare fuel array i n = Ok r ∧ array_ok r ∧ elems r ≡ₚ elems array ∧
    drop (Z.to_nat n) (elems r) = drop (Z.to_nat n) (elems array) ∧ heap lo n (elems r).
Proof.
  revert array i. induction fuel as [|fuel IH]; intros array i Ha Hlo Hi Hn Hf [Hb1 Hb2].
  { change (2 ^ (32 - Z.of_nat 0)) with 4294967296 in Hf. lia. }
  cbn [heapify]. destruct (heapify_max array i n) as (m1 & m & E1 & E2 & Hm & Hle & Hc); [done | lia | done |].
  rewrite E1. cbn [mbind outcome_bind]. rewrite E2. cbn [mbind outcome_bind].
  destruct (Z.eqb_spec m i) as [-> |Hne].
  - exists array. split_and!; [done | done | done | done |].
    intros p c Hp Hch Hcn. destruct (decide (p = i)) as [-> |]; [by apply Hc | by apply Hb1].
  - destruct Hm as [|[Hm Hmn]]; [done |].
    assert (i < m ∧ 1 ≤ m) by (unfold child in Hm; lia).
    assert (Z.of_nat (length (elems array)) = cnt) as Hlen by (rewrite elems_length; lia).
    destruct (do_swap_ok size cnt size_pos ltac:(lia) array i m) as (a1 & Es & Ha1 & Hs); [done | lia | lia | lia |].
    rewrite Es. cbn [mbind outcome_bind].
    assert (∀ k, 1 ≤ k → el (elems a1) k =
      if decide (k = m) then el (elems array) i else if decide (k = i) then el (elems array) m else el (elems array) k) as Hel.
    { intros k Hk. rewrite Hs. apply swap_elems_el; lia. }
    destruct (IH a1 m) as (r & Er & Hr & Hp & Hd & Hh); [done | lia | done | done | | |].
    { assert (2 * 2 ^ (32 - Z.of_nat (S fuel)) ≤ m) by (unfold child in Hm; lia).
      destruct (decide (Z.of_nat fuel < 32)).
      - replace (32 - Z.of_nat fuel) with (Z.succ (32 - Z.of_nat (S fuel))) by lia.
        rewrite Z.pow_succ_r by lia. lia.
      - destruct (decide (Z.of_nat fuel = 32)) as [->|]; [cbn; lia |]. rewrite Z.pow_neg_r by lia. lia. }
    { split.
      - intros p c Hpl Hpm Hpc Hcn. assert (1 ≤ p ∧ p < c) as [Hp1 Hpc1] by (unfold child in Hpc; lia).
        rewrite !Hel by lia. rewrite (decide_False (P := p = m)) by done.
        destruct (decide (c = m)) as [-> |Hcm].
        + assert (p = i) as -> by (unfold child in *; lia). by rewrite decide_True.
        + destruct (decide (p = i)) as [-> |Hpi].
          * rewrite decide_False by lia. by apply Hc.
          * destruct (decide (c = i)) as [-> |]; [by apply (Hb2 p m) | by apply Hb1].
      - intros p c Hpl Hpm Hmc Hcn. assert (p = i) as -> by (unfold child in *; lia).
        rewrite (Hel i), (decide_False (P := i = m)), decide_True by lia.
        rewrite Hel by (unfold child in *; lia). rewrite !decide_False by (unfold child in *; lia).
        apply Hb1; [lia | lia | done | done]. }
    exists r. split_and!; [done | done | | | done].
    + rewrite Hp, Hs. apply swap_elems_perm; lia.
    + rewrite Hd, Hs. apply swap_elems_drop; lia.
Qed.

Lemma build_loop_ok i array :
  array_ok array → Z.of_nat i ≤ cnt / 2 → heap (Z.of_nat i + 1) cnt (elems array) →
  ∃ r, build_loop size compare i array cnt = Ok r ∧ array_ok r ∧ elems r ≡ₚ elems array ∧ heap 1 cnt (elems r).
Proof.
  revert array. induction i as [|i IH]; intros array Ha Hi Hh; [by exists array |].
  cbn [build_loop]. assert (2 * Z.of_nat (S i) ≤ cnt) by (Z.to_euclidean_division_equations; lia).
  destruct (heapify_ok heapify_fuel array (Z.of_nat (S i)) (Z.of_nat (S i)) cnt) as (r & -> & Hr & Hp & _ & Hh1);
    [done | lia | lia | lia | change (2 ^ (32 - Z.of_nat heapify_fuel)) with 1; lia | |].
  { split; [| unfold child; lia]. intros p c Hpl Hpi. apply Hh. lia. }
  cbn [mbind outcome_bind]. destruct (IH r) as (r2 & -> & Hr2 & Hp2 & Hh2); [done | lia | |].
  { by replace (Z.of_nat i + 1) with (Z.of_nat (S i)) by lia. }
  exists r2. split_and!; [done | done | by rewrite Hp2 | done].
Qed.

(** The root of a heap is its largest element. *)
Lemma heap_root n l : heap 1 n l → ∀ k, 1 ≤ k ≤ n → le (el l k) (el l 1).
Proof.
  intros Hh k Hk. assert (0 ≤ k) as H0 by lia. revert k H0 Hk.
  apply (Z_lt_induction (λ k, 1 ≤ k ≤ n → le (el l k) (el l 1))). intros k IH Hk. destruct (decide (k = 1)) as [-> |]; [apply le_refl |].
  apply (le_trans _ (el l (k / 2))).
  - apply Hh; [Z.to_euclidean_division_equations; lia | | lia].
    unfold child. Z.to_euclidean_division_equations; lia.
  - apply IH; Z.to_euclidean_division_equations; lia.
Qed.

(** The invariant of the second loop: the first [i] elements are a heap, the
    others are sorted and not smaller. *)
Definition extracted i l : Prop :=
  heap 1 i l ∧ StronglySorted le (drop (Z.to_nat i) l) ∧
  ∀ x y, x ∈ take (Z.to_nat i) l → y ∈ drop (Z.to_nat i) l → le x y.

Lemma elem_of_take_el l i x :
  0 ≤ i ≤ Z.of_nat (length l) → x ∈ take (Z.to_nat i) l ↔ ∃ k, 1 ≤ k ≤ i ∧ x = el l k.
Proof.
  intros Hi. split.
  - intros (k & Hk)%list_elem_of_lookup_1. pose proof (lookup_lt_Some _ _ _ Hk) as Hlt.
    rewrite length_take in Hlt. rewrite lookup_take_lt in Hk by lia.
    exists (Z.of_nat k + 1). split; [lia |]. unfold el. symmetry. apply list_lookup_total_correct.
    by replace (Z.to_nat (Z.of_nat k + 1 - 1)) with k by lia.
  - intros (k & Hk & ->). apply list_elem_of_lookup_2 with (Z.to_nat (k - 1)).
    rewrite lookup_take_lt by lia. unfold el. apply list_lookup_lookup_total_lt. lia.
Qed.

Lemma extract_loop_ok m array :
  array_ok array → Z.of_nat m + 1 ≤ cnt → extracted (Z.of_nat m + 1) (elems array) →
  ∃ r, extract_loop size compare m array = Ok r ∧ array_ok r ∧ elems r ≡ₚ elems array ∧ StronglySorted le (elems r).
Proof.
  revert array. induction m as [|m IH]; intros array Ha Hm (Hh & Hs & Hle).
  - exists array. split_and!; [done | done | done |]. change (Z.to_nat (Z.of_nat 0 + 1)) with 1%nat in *.
    destruct (elems array) as [|x l]; [constructor |]. cbn [drop] in Hs. constructor; [done |].
    apply Forall_forall. intros y Hy. apply Hle; [left | exact Hy].
  - set (i := Z.of_nat (S m) + 1) in *. cbn [extract_loop]. fold i.
    assert (Z.of_nat (length (elems array)) = cnt) as Hlen by (rewrite elems_length; lia).
    destruct (do_swap_ok size cnt size_pos ltac:(lia) array 1 i) as (a1 & -> & Ha1 & Hsw); [done | lia | lia | lia |].
    cbn [mbind outcome_bind].
    assert (∀ k, 1 ≤ k → el (elems a1) k =
      if decide (k = i) then el (elems array) 1 else if decide (k = 1) then el (elems array) i else el (elems array) k) as Hel.
    { intros k Hk. rewrite Hsw. apply swap_elems_el; lia. }
    destruct (heapify_ok heapify_fuel a1 1 1 (i - 1)) as (a2 & -> & Ha2 & Hp2 & Hd2 & Hh2);
      [done | lia | lia | lia | done | |].
    { split; [| unfold child; lia]. intros p c Hp Hp1 Hc Hci. rewrite !Hel by (unfold child in *; lia).
      rewrite !decide_False by (unfold child in *; lia). apply Hh; [lia | done | lia]. }
    cbn [mbind outcome_bind]. 
    assert (elems a2 ≡ₚ elems array) as Hp by (rewrite Hp2, Hsw; apply swap_elems_perm; lia).
    assert (drop (Z.to_nat (i - 1)) (elems a2) = el (elems array) 1 :: drop (Z.to_nat i) (elems array)) as Hd.
    { rewrite Hd2, (drop_S _ (el (elems array) 1)).
      - f_equal. rewrite Hsw. replace (S (Z.to_nat (i - 1))) with (Z.to_nat i) by lia. apply swap_elems_drop; lia.
      - assert (el (elems a1) i = el (elems array) 1) as <- by (rewrite Hel, decide_True by lia; done).
        unfold el. apply list_lookup_lookup_total_lt. rewrite elems_length. lia. }
    assert (take (Z.to_nat (i - 1)) (elems a2) ++ [el (elems array) 1] ≡ₚ take (Z.to_nat i) (elems array)) as Ht.
    { apply (Permutation_app_inv_r (drop (Z.to_nat i) (elems array))).
      rewrite <-app_assoc. cbn [app]. rewrite <-Hd, !take_drop. exact Hp. }
    destruct (IH a2) as (r & -> & Hr & Hpr & Hsr); [done | lia | | exists r; split_and!; [done | done | by rewrite Hpr | done]].
    replace (Z.of_nat m + 1) with (i - 1) by lia. split; [done |].
    assert (∀ x, x ∈ take (Z.to_nat i) (elems array) → le x (el (elems array) 1)) as Hroot.
    { intros x (k & Hk & ->)%elem_of_take_el; [| lia]. by apply (heap_root i). }
    rewrite Hd. split.
    + constructor; [done |]. apply Forall_forall. intros y Hy. apply Hle; [| exact Hy].
      apply elem_of_take_el; [lia |]. exists 1. split; [lia | done].
    + intros x y Hx Hy. assert (x ∈ take (Z.to_nat i) (elems array)) as Hx' by (rewrite <-Ht; apply elem_of_app; by left).
      apply elem_of_cons in Hy as [-> |Hy]; [by apply Hroot | by apply Hle].
Qed.
End heap.

Section theorems.
Variables size cnt : Z.
Variable compare : list Z → list Z → Z.
Implicit Types array : list Z.

(** C22: [qsort] and [sort] sort: for any comparison that is a total preorder,
    and any array that fits in memory, the heap sort terminates without
    touching memory outside the array, its elements (of any size) are a
    permutation of the original ones, and they are in order.  An element size
    of zero fails the assertion. *)
Theorem sort_correct array :
  (∀ a b, le compare a b ∨ le compare b a) →
  (∀ a b c, le compare a b → le compare b c → le compare a c) →
  0 ≤ cnt < 2147483648 → 0 ≤ size → array_ok size cnt array →
  if size =? 0 then qsort array cnt size compare = Err AssertFail
  else ∃ r, qsort array cnt size compare = Ok r ∧ array_ok size cnt r ∧
    elems size cnt r ≡ₚ elems size cnt array ∧ StronglySorted (le compare) (elems size cnt r).
Proof.
  intros Htot Htr Hcnt Hs Ha. unfold qsort. change (compare_thunk compare) with compare. unfold sort.
  destruct (Z.eqb_spec size 0) as [-> |Hne]; [done |]. destruct (Z.ltb_spec 0 size); [| lia]. cbn [assert_that mbind outcome_bind].
  destruct (build_loop_ok size cnt compare ltac:(lia) Hcnt Htot Htr (Z.to_nat (cnt / 2)) array) as (b & -> & Hb & Hpb & Hh);
    [done | Z.to_euclidean_division_equations; lia | |].
  { intros p c Hp Hc Hn. unfold child in Hc. Z.to_euclidean_division_equations; lia. }
  cbn [mbind outcome_bind].
  assert (length (elems size cnt b) = Z.to_nat cnt) as Hl by apply elems_length.
  destruct (decide (cnt = 0)) as [E0|].
  { rewrite E0. change (Z.to_nat (0 - 1)) with 0%nat. exists b. rewrite <-E0. split_and!; [done | done | done |].
    destruct (elems size cnt b); [constructor | cbn in Hl; lia]. }
  destruct (extract_loop_ok size cnt compare ltac:(lia) Hcnt Htot Htr (Z.to_nat (cnt - 1)) b) as (r & Er & Hr & Hpr & Hsr);
    [done | lia | | exists r; split_and!; [done | done | by transitivity (elems size cnt b) | done]].
  replace (Z.of_nat (Z.to_nat (cnt - 1)) + 1) with cnt by lia.
  split; [done |]. rewrite drop_ge by lia. split; [constructor |]. by intros x y _ ?%elem_of_nil.
Qed.

Lemma search_loop_ok fuel cmp array a b :
  0 < size → array_ok size cnt array → 0 ≤ a ≤ b → b ≤ cnt → b - a ≤ Z.of_nat fuel →
  (∀ i j, 1 ≤ i < j → j ≤ cnt → (cmp (el (elems size cnt array) i) < 0 → cmp (el (elems size cnt array) j) < 0) ∧
    (0 < cmp (el (elems size cnt array) j) → 0 < cmp (el (elems size cnt array) i))) →
  (∀ i, 1 ≤ i ≤ a → 0 < cmp (el (elems size cnt array) i)) →
  (∀ i, b < i ≤ cnt → cmp (el (elems size cnt array) i) < 0) →
  ∃ r, search_loop size fuel cmp array (a * size) (b * size) = Ok r ∧
    match r with
    | Some p => ∃ i, 1 ≤ i ≤ cnt ∧ p = (i - 1) * size ∧ cmp (el (elems size cnt array) i) = 0
    | None => ∀ i, 1 ≤ i ≤ cnt → cmp (el (elems size cnt array) i) ≠ 0
    end.
Proof.
  intros Hs Ha. revert a b. induction fuel as [|fuel IH]; intros a b Hab Hb Hf Hmono Hlo Hhi; cbn [search_loop].
  all: destruct (Z.ltb_spec (a * size) (b * size)) as [Hlt|Hge]; cbn [negb].
  - nia.
  - exists None. split; [done |]. assert (a = b) as -> by nia. intros i Hi.
    destruct (Z.le_gt_cases i b); [specialize (Hlo i) | specialize (Hhi i)]; lia.
  - replace ((b * size - a * size) / size) with (b - a)
      by (replace (b * size - a * size) with ((b - a) * size) by lia; by rewrite Z.div_mul by lia).
    set (m := a + (b - a) / 2). assert (a ≤ m < b) as Hm by (subst m; Z.to_euclidean_division_equations; nia).
    replace (a * size + (b - a) / 2 * size) with ((m + 1 - 1) * size) by (subst m; lia).
    rewrite (elem_at_ok size cnt Hs array (m + 1) Ha) by lia. cbn [mbind outcome_bind].
    set (e := el (elems size cnt array) (m + 1)).
    destruct (Z.ltb_spec (cmp e) 0); [| destruct (Z.ltb_spec 0 (cmp e))].
    + replace (m + 1 - 1) with m by lia. apply IH; [lia | lia | lia | done | done |].
      intros i Hi. destruct (decide (i = m + 1)) as [-> |]; [done | by apply (Hmono (m + 1) i); [lia | lia |]].
    + replace ((m + 1 - 1) * size + size) with ((m + 1) * size) by lia. apply IH; [lia | lia | lia | done | | done].
      intros i Hi. destruct (decide (i = m + 1)) as [-> |]; [done | by apply (Hmono i (m + 1)); [lia | lia |]].
    + exists (Some ((m + 1 - 1) * size)). split; [done |]. exists (m + 1). split_and!; [lia | lia | done | fold e; lia].
  - exists None. split; [done |]. assert (a = b) as -> by nia. intros i Hi.
    destruct (Z.le_gt_cases i b); [specialize (Hlo i) | specialize (Hhi i)]; lia.
Qed.

(** [bsearch] and [binary_search] find an element equal to the key if there
    is one: in any array whose elements are ordered with respect to the key,
    the search terminates, stays inside the array, and returns the address of
    an element that compares equal, or null exactly when none does. *)
Theorem binary_search_correct key array :
  0 < size → 0 ≤ cnt → array_ok size cnt array →
  (∀ i j, 1 ≤ i < j → j ≤ cnt →
    (compare key (el (elems size cnt array) i) < 0 → compare key (el (elems size cnt array) j) < 0) ∧
    (0 < compare key (el (elems size cnt array) j) → 0 < compare key (el (elems size cnt array) i))) →
  ∃ r, bsearch key array cnt size compare = Ok r ∧
    match r with
    | Some p => ∃ i, 1 ≤ i ≤ cnt ∧ p = (i - 1) * size ∧ compare key (el (elems size cnt array) i) = 0
    | None => ∀ i, 1 ≤ i ≤ cnt → compare key (el (elems size cnt array) i) ≠ 0
    end.
Proof.
  intros Hs Hc Ha Hmono. unfold bsearch, binary_search. replace (size * cnt) with (cnt * size) by lia.
  apply (search_loop_ok (Z.to_nat cnt) (compare key) array 0 cnt); try done; lia.
Qed.
End theorems.

(** *** Two-byte elements, compared by their first byte *)

Definition compare_first (a b : list Z) : Z := a !!! 0%nat - b !!! 0%nat.

Definition example_array : list Z := [5; 1; 3; 2; 9; 3; 3; 4; 1; 5].

Lemma sort_correct_witness :
  qsort example_array 5 2 compare_first = Ok [1; 5; 3; 2; 3; 4; 5; 1; 9; 3] ∧
  ∃ r, qsort example_array 5 2 compare_first = Ok r ∧ StronglySorted (le compare_first) (elems 2 5 r).
Proof.
  split; [reflexivity |].
  destruct (sort_correct 2 5 compare_first example_array) as (r & E & _ & _ & H).
  - intros a b. unfold le, compare_first. lia.
  - intros a b c. unfold le, compare_first. lia.
  - lia.
  - lia.
  - reflexivity.
  - by exists r.
Defined.

Lemma binary_search_correct_witness :
  ∃ r, bsearch [5] [1; 5; 3; 2; 3; 4; 5; 1; 9; 3] 5 2 compare_first = Ok r ∧ r = Some 6.
Proof.
  destruct (binary_search_correct 2 5 compare_first [5] [1; 5; 3; 2; 3; 4; 5; 1; 9; 3]) as (r & E & _).
  - lia.
  - lia.
  - reflexivity.
  - intros i j Hi Hj.
    assert (i = 1 ∨ i = 2 ∨ i = 3 ∨ i = 4) as [-> |[-> |[-> | ->]]] by lia;
      assert (j = 2 ∨ j = 3 ∨ j = 4 ∨ j = 5) as [-> |[-> |[-> | ->]]] by lia; try lia; vm_compute; split; congruence.
  - exists r. split; [exact E |]. vm_compute in E. congruence.
Defined.

(** ** Decimal numbers *)

Definition decimal (ds : list Z) : Z := foldl (λ v d, v * 10 + (d - 48)) 0 ds.

Lemma i32_mod x y : x `mod` 4294967296 = y `mod` 4294967296 → i32 x = i32 y.
Proof.
  intros H. unfold wrap_s. change (2 ^ 32) with 4294967296. change (2 ^ (32 - 1)) with 2147483648.
  by rewrite (Zplus_mod x), (Zplus_mod y), H.
Qed.

Lemma i32_cong x : i32 x `mod` 4294967296 = x `mod` 4294967296.
Proof.
  unfold wrap_s. change (2 ^ 32) with 4294967296. change (2 ^ (32 - 1)) with 2147483648.
  rewrite Zminus_mod_idemp_l. f_equal. lia.
Qed.

Lemma atoi_digits_ok ds c rest v :
  Forall (λ d, isdigit d = true) ds → isdigit c = false →
  atoi_digits (ds ++ c :: rest) (i32 (- v)) = Ok (i32 (- foldl (λ v d, v * 10 + (d - 48)) v ds)).
Proof.
  intros Hd Hc. revert v. induction ds as [|d ds IH]; intros v; cbn.
  - by rewrite Hc.
  - apply Forall_cons in Hd as [Hd Hds]. rewrite Hd. rewrite <-IH by done. f_equal.
    apply i32_mod. rewrite Zminus_mod, i32_cong, (Zmult_mod (i32 (- v))), i32_cong, <-Zmult_mod, <-Zminus_mod. f_equal. lia.
Qed.

Lemma skip_spaces_ok sp c rest :
  Forall (λ d, isspace d = true) sp → isspace c = false → skip_spaces (sp ++ c :: rest) = Ok (c :: rest).
Proof.
  intros Hs Hc. induction sp as [|d sp IH]; cbn; [by rewrite Hc |].
  apply Forall_cons in Hs as [Hd Hs]. rewrite Hd. by apply IH.
Qed.

(** [atoi] reads a decimal number: after any white space and an optional
    sign, the digits up to the first other character give the number, for the
    whole range of [int] (the most negative number included); beyond it the
    result wraps. *)
Theorem atoi_correct sp sign ds c rest :
  Forall (λ d, isspace d = true) sp → Forall (λ d, isdigit d = true) ds → ds ≠ [] → isdigit c = false →
  sign = [] ∨ sign = [43] ∨ sign = [45] →
  let n := if decide (sign = [45]) then - decimal ds else decimal ds in
  atoi (sp ++ sign ++ ds ++ c :: rest) = Ok (i32 n) ∧
  (-2147483648 ≤ n < 2147483648 → i32 n = n).
Proof.
  intros Hsp Hds Hne Hc Hsign n. split; [| apply i32_id].
  destruct ds as [|d ds]; [done |]. pose proof Hds as [Hd _]%Forall_cons.
  assert (isspace d = false ∧ d ≠ 43 ∧ d ≠ 45) as (Hsd & H43 & H45).
  { unfold isdigit in Hd. assert (48 ≤ d ≤ 57) by lia. split; [| lia].
    unfold isspace. by rewrite !(proj2 (Z.eqb_neq _ _)) by lia. }
  assert (∀ v, atoi_digits ((d :: ds) ++ c :: rest) 0 = Ok v → v = i32 (- decimal (d :: ds))) as Hv.
  { intros v E. pose proof (atoi_digits_ok (d :: ds) c rest 0 Hds Hc) as E2.
    change (i32 (- 0)) with 0 in E2. rewrite E in E2. by injection E2. }
  pose proof (atoi_digits_ok (d :: ds) c rest 0 Hds Hc) as E. change (i32 (- 0)) with 0 in E.
  fold (decimal (d :: ds)) in E. unfold atoi.
  assert (i32 (- i32 (- decimal (d :: ds))) = i32 (decimal (d :: ds))) as Hneg.
  { apply i32_mod. rewrite <-Z.sub_0_l, Zminus_mod, i32_cong, <-Zminus_mod. f_equal. lia. }
  destruct Hsign as [-> |[-> | ->]]; cbn [app] in *; rewrite skip_spaces_ok by done; cbn [mbind outcome_bind].
  - destruct (Z.eqb_spec d 43); [done |]. destruct (Z.eqb_spec d 45); [done |].
    rewrite E. cbn [mbind outcome_bind]. rewrite Hneg. subst n. by rewrite decide_False by done.
  - cbn [Z.eqb Pos.eqb]. rewrite E. cbn [mbind outcome_bind]. rewrite Hneg. subst n. by rewrite decide_False by done.
  - cbn [Z.eqb Pos.eqb]. rewrite E. cbn [mbind outcome_bind]. subst n. by rewrite decide_True by done.
Qed.

(** " -2147483648" *)
Lemma atoi_correct_witness : atoi ([32] ++ [45] ++ [50; 49; 52; 55; 52; 56; 51; 54; 52; 56] ++ 0 :: []) = Ok (-2147483648).
Proof.
  refine (eq_trans (proj1 (atoi_correct [32] [45] [50; 49; 52; 55; 52; 56; 51; 54; 52; 56] 0 [] _ _ _ _ _)) _);
    [by repeat constructor | by repeat constructor | done | done | by right; right | reflexivity].
Defined.
