(* ===== verification/CString.v ===== *)
(** lib/string.c, on a byte-addressed memory.

    A memory maps addresses to bytes; touching an address it does not map is
    [BadPointer].  Pointers are addresses (0 is [NULL]) of objects that do not
    wrap around the end of the address space.  A loop that stops at a
    terminator runs with fuel: more turns than there are bytes of memory would
    leave the memory. *)
From S2P Require Import Prelude Bytes.
Local Open Scope Z_scope.

Notation mem := (gmap Z Z).

(** ** Memory *)

Definition load (m : mem) (a : Z) : outcome Z := from_option_err BadPointer (m !! a).

Definition store (m : mem) (a v : Z) : outcome mem :=
  match m !! a with Some _ => Ok (<[a := v]> m) | None => Err BadPointer end.

Definition string_fuel (m : mem) : nat := S (size m).

(** ** Blocks *)

(** [while (size-- > 0) *dst++ = *src++;] *)
Fixpoint copy_up (size : nat) (m : mem) (dst src : Z) : outcome mem :=
  match size with
  | O => Ok m
  | S size => c ← load m src; m ← store m dst c; copy_up size m (dst + 1) (src + 1)
  end.

(** [while (size-- > 0) *--dst = *--src;] *)
Fixpoint copy_down (size : nat) (m : mem) (dst src : Z) : outcome mem :=
  match size with
  | O => Ok m
  | S size => c ← load m (src - 1); m ← store m (dst - 1) c; copy_down size m (dst - 1) (src - 1)
  end.

(** [ASSERT (p != NULL || size == 0)] *)
Definition assert_block (p size : Z) : outcome unit := assert_that (negb (p =? 0) || (size =? 0)).

Definition memcpy (m : mem) (dst src size : Z) : outcome (Z * mem) :=
  assert_block dst size;; assert_block src size;;
  m ← copy_up (Z.to_nat size) m dst src; Ok (dst, m).

(** [memmove] returns the pointer that the loop moved. *)
Definition memmove (m : mem) (dst src size : Z) : outcome (Z * mem) :=
  assert_block dst size;; assert_block src size;;
  if dst <? src then m ← copy_up (Z.to_nat size) m dst src; Ok (dst + size, m)
  else
    let dst := dst + size in
    let src := src + size in
    m ← copy_down (Z.to_nat size) m dst src; Ok (dst - size, m).

Fixpoint memcmp_loop (size : nat) (m : mem) (a b : Z) : outcome Z :=
  match size with
  | O => Ok 0
  | S size =>
      x ← load m a; y ← load m b;
      if negb (x =? y) then Ok (if y <? x then 1 else -1) else memcmp_loop size m (a + 1) (b + 1)
  end.

Definition memcmp (m : mem) (a b size : Z) : outcome Z :=
  assert_block a size;; assert_block b size;; memcmp_loop (Z.to_nat size) m a b.

Fixpoint memchr_loop (size : nat) (m : mem) (block ch : Z) : outcome Z :=
  match size with
  | O => Ok 0
  | S size => c ← load m block; if c =? ch then Ok block else memchr_loop size m (block + 1) ch
  end.

Definition memchr (m : mem) (block ch size : Z) : outcome Z :=
  assert_block block size;; memchr_loop (Z.to_nat size) m block (u8 ch).

Fixpoint memset_loop (size : nat) (m : mem) (dst value : Z) : outcome mem :=
  match size with
  | O => Ok m
  | S size => m ← store m dst (u8 value); memset_loop size m (dst + 1) value
  end.

Definition memset (m : mem) (dst value size : Z) : outcome (Z * mem) :=
  assert_block dst size;; m ← memset_loop (Z.to_nat size) m dst value; Ok (dst, m).

(** ** Strings *)

Definition assert_ptr (p : Z) : outcome unit := assert_that (negb (p =? 0)).

Fixpoint strcmp_loop (fuel : nat) (m : mem) (a b : Z) : outcome Z :=
  match fuel with
  | O => Err OutOfFuel
  | S fuel =>
      x ← load m a;
      if x =? 0 then y ← load m b; Ok (if x <? y then -1 else if y <? x then 1 else 0)
      else
        y ← load m b;
        if x =? y then strcmp_loop fuel m (a + 1) (b + 1)
        else Ok (if x <? y then -1 else if y <? x then 1 else 0)
  end.

Definition strcmp (m : mem) (a b : Z) : outcome Z :=
  assert_ptr a;; assert_ptr b;; strcmp_loop (string_fuel m) m a b.

Fixpoint strchr_loop (fuel : nat) (m : mem) (string c : Z) : outcome Z :=
  match fuel with
  | O => Err OutOfFuel
  | S fuel =>
      x ← load m string;
      if x =? c then Ok string else if x =? 0 then Ok 0 else strchr_loop fuel m (string + 1) c
  end.

Definition strchr (m : mem) (string c : Z) : outcome Z :=
  assert_ptr string;; strchr_loop (string_fuel m) m string (u8 c).

(** The common loop of [strcspn] ([in_stop] is true), and [strspn]: count
    characters until one that is ([in_stop]) or is not in [set]. *)
Fixpoint span_loop (fuel : nat) (in_stop : bool) (m : mem) (string set length : Z) : outcome Z :=
  match fuel with
  | O => Err OutOfFuel
  | S fuel =>
      c ← load m (string + length);
      if c =? 0 then Ok length
      else
        p ← strchr m set c;
        if eqb (negb (p =? 0)) in_stop then Ok length else span_loop fuel in_stop m string set (length + 1)
  end.

Definition strcspn (m : mem) (string stop : Z) : outcome Z := span_loop (string_fuel m) true m string stop 0.
Definition strspn (m : mem) (string skip : Z) : outcome Z := span_loop (string_fuel m) false m string skip 0.

Fixpoint strpbrk_loop (fuel : nat) (m : mem) (string stop : Z) : outcome Z :=
  match fuel with
  | O => Err OutOfFuel
  | S fuel =>
      c ← load m string;
      if c =? 0 then Ok 0
      else p ← strchr m stop c; if negb (p =? 0) then Ok string else strpbrk_loop fuel m (string + 1) stop
  end.

Definition strpbrk (m : mem) (string stop : Z) : outcome Z := strpbrk_loop (string_fuel m) m string stop.

Fixpoint strrchr_loop (fuel : nat) (m : mem) (string c p : Z) : outcome Z :=
  match fuel with
  | O => Err OutOfFuel
  | S fuel =>
      x ← load m string;
      if x =? 0 then Ok p else strrchr_loop fuel m (string + 1) c (if x =? c then string else p)
  end.

Definition strrchr (m : mem) (string c : Z) : outcome Z := strrchr_loop (string_fuel m) m string (u8 c) 0.

Fixpoint strlen_loop (fuel : nat) (m : mem) (string p : Z) : outcome Z :=
  match fuel with
  | O => Err OutOfFuel
  | S fuel => c ← load m p; if c =? 0 then Ok (p - string) else strlen_loop fuel m string (p + 1)
  end.

Definition strlen (m : mem) (string : Z) : outcome Z :=
  assert_ptr string;; strlen_loop (string_fuel m) m string string.

(** The bound is tested after the byte is read. *)
Fixpoint strnlen_loop (fuel : nat) (m : mem) (string maxlen length : Z) : outcome Z :=
  match fuel with
  | O => Err OutOfFuel
  | S fuel =>
      c ← load m (string + length);
      if negb (c =? 0) && (length <? maxlen) then strnlen_loop fuel m string maxlen (length + 1) else Ok length
  end.

Definition strnlen (m : mem) (string maxlen : Z) : outcome Z :=
  strnlen_loop (string_fuel m) m string maxlen 0.

(** [for (i = 0; i <= haystack_len - needle_len; i++)], with [n] turns left. *)
Fixpoint strstr_loop (n : nat) (m : mem) (haystack needle needle_len i : Z) : outcome Z :=
  match n with
  | O => Ok 0
  | S n =>
      c ← memcmp m (haystack + i) needle needle_len;
      if c =? 0 then Ok (haystack + i) else strstr_loop n m haystack needle needle_len (i + 1)
  end.

Definition strstr (m : mem) (haystack needle : Z) : outcome Z :=
  haystack_len ← strlen m haystack;
  needle_len ← strlen m needle;
  if needle_len <=? haystack_len
  then strstr_loop (Z.to_nat (haystack_len - needle_len + 1)) m haystack needle needle_len 0
  else Ok 0.

(** ** Tokens *)

(** [while (strchr (delimiters, *s) != NULL)]; [None] at the end of the
    string. *)
Fixpoint skip_delimiters (fuel : nat) (m : mem) (s delimiters : Z) : outcome (Z * bool) :=
  match fuel with
  | O => Err OutOfFuel
  | S fuel =>
      c ← load m s;
      p ← strchr m delimiters c;
      if p =? 0 then Ok (s, true)
      else if c =? 0 then Ok (s, false)
      else skip_delimiters fuel m (s + 1) delimiters
  end.

(** [while (strchr (delimiters, *s) == NULL) s++;] *)
Fixpoint find_delimiter (fuel : nat) (m : mem) (s delimiters : Z) : outcome Z :=
  match fuel with
  | O => Err OutOfFuel
  | S fuel =>
      c ← load m s;
      p ← strchr m delimiters c;
      if p =? 0 then find_delimiter fuel m (s + 1) delimiters else Ok s
  end.

(** Returns the token (0 is [NULL]), the new [*save_ptr] and the memory. *)
Definition strtok_r (m : mem) (s delimiters save_ptr : Z) : outcome (Z * Z * mem) :=
  assert_ptr delimiters;;
  let s := if s =? 0 then save_ptr else s in
  assert_ptr s;;
  '(s, more) ← skip_delimiters (string_fuel m) m s delimiters;
  if negb more then Ok (0, s, m)
  else
    let token := s in
    s ← find_delimiter (string_fuel m) m s delimiters;
    c ← load m s;
    if negb (c =? 0) then m ← store m s 0; Ok (token, s + 1, m)
    else Ok (token, s, m).

(** ** Bounded copies *)

Definition strlcpy (m : mem) (dst src size : Z) : outcome (Z * mem) :=
  assert_ptr dst;; assert_ptr src;;
  src_len ← strlen m src;
  if 0 <? size then
    let dst_len := size - 1 in
    let dst_len := if src_len <? dst_len then src_len else dst_len in
    '(_, m) ← memcpy m dst src dst_len;
    m ← store m (dst + dst_len) 0;
    Ok (src_len, m)
  else Ok (src_len, m).

Definition strlcat (m : mem) (dst src size : Z) : outcome (Z * mem) :=
  assert_ptr dst;; assert_ptr src;;
  src_len ← strlen m src;
  dst_len ← strlen m dst;
  if (0 <? size) && (dst_len <? size) then
    let copy_cnt := size - dst_len - 1 in
    let copy_cnt := if src_len <? copy_cnt then src_len else copy_cnt in
    '(_, m) ← memcpy m (dst + dst_len) src copy_cnt;
    m ← store m (dst + dst_len + copy_cnt) 0;
    Ok (src_len + dst_len, m)
  else Ok (src_len + dst_len, m).
