(* ===== verification/CStringThm.v ===== *)
(** Correctness of lib/string.c: block moves under any overlap, bounded string
    copies, searches, and the tokenizer. *)
From S2P Require Import Prelude Bytes CString.
Local Open Scope Z_scope.

(** ** Objects in memory *)

(** The bytes [l] are at address [p]. *)
Definition bytes_at (m : mem) (p : Z) (l : list Z) : Prop :=
  ∀ i c, l !! i = Some c → m !! (p + Z.of_nat i) = Some c.

(** The string [s], with its terminator. *)
Definition cstring (m : mem) (p : Z) (s : list Z) : Prop :=
  0 < p ∧ Forall is_byte s ∧ 0 ∉ s ∧ bytes_at m p (s ++ [0]).

(** A block of [n] mapped bytes. *)
Definition mapped (m : mem) (p n : Z) : Prop := ∀ a, p ≤ a < p + n → is_Some (m !! a).

Lemma bytes_at_cons m p c l : bytes_at m p (c :: l) ↔ m !! p = Some c ∧ bytes_at m (p + 1) l.
Proof.
  unfold bytes_at. split.
  - intros H. split; [by rewrite <-(Z.add_0_r p); apply (H 0%nat) |].
    intros i x Hi. replace (p + 1 + Z.of_nat i) with (p + Z.of_nat (S i)) by lia. by apply H.
  - intros [H1 H2] [|i] x Hi; cbn in Hi; [injection Hi as <-; by rewrite Z.add_0_r |].
    replace (p + Z.of_nat (S i)) with (p + 1 + Z.of_nat i) by lia. by apply H2.
Qed.

Lemma bytes_at_app m p l1 l2 :
  bytes_at m p (l1 ++ l2) ↔ bytes_at m p l1 ∧ bytes_at m (p + Z.of_nat (length l1)) l2.
Proof.
  revert p. induction l1 as [|c l1 IH]; intros p; cbn [app length].
  - change (Z.of_nat 0) with 0. rewrite Z.add_0_r. split; [intros H; split; [by intros i x Hi | done] | by intros [_ ?]].
  - rewrite !bytes_at_cons, IH. replace (p + 1 + Z.of_nat (length l1)) with (p + Z.of_nat (S (length l1))) by lia.
    naive_solver.
Qed.

Lemma bytes_at_nil m p : bytes_at m p [].
Proof. by intros i c Hi. Qed.

(** Bytes that a change of memory does not touch stay. *)
Lemma bytes_at_frame m m' p l :
  bytes_at m p l → (∀ a, p ≤ a < p + Z.of_nat (length l) → m' !! a = m !! a) → bytes_at m' p l.
Proof. intros H Hf i c Hi. rewrite Hf; [by apply H |]. apply lookup_lt_Some in Hi. lia. Qed.

Lemma bytes_at_fuel m p l : bytes_at m p l → (length l ≤ size m)%nat.
Proof.
  intros H. rewrite <-(size_dom (D := gset Z)).
  assert (length l = size (list_to_set (seqZ p (Z.of_nat (length l))) : gset Z)) as ->.
  { rewrite size_list_to_set by apply NoDup_seqZ. rewrite length_seqZ. lia. }
  apply subseteq_size. intros a Ha. apply elem_of_list_to_set, elem_of_seqZ in Ha.
  destruct (lookup_lt_is_Some_2 l (Z.to_nat (a - p))) as [c Hc]; [lia |].
  apply elem_of_dom. exists c. rewrite <-(H _ _ Hc). f_equal. lia.
Qed.

Lemma cstring_cons m p c s : cstring m p (c :: s) → m !! p = Some c ∧ c ≠ 0 ∧ is_byte c ∧ cstring m (p + 1) s.
Proof.
  intros (Hp & Hb & H0 & H). apply Forall_cons in Hb as [Hc Hb]. apply not_elem_of_cons in H0 as [Hc0 H0].
  cbn [app] in H. apply bytes_at_cons in H as [H1 H2]. split; [done |]. split; [done |]. split; [done |].
  split; [lia | done].
Qed.

Lemma cstring_nil m p : cstring m p [] → m !! p = Some 0.
Proof. intros (_ & _ & _ & H). by apply bytes_at_cons in H as [? _]. Qed.

Lemma cstring_fuel m p s : cstring m p s → (length s < string_fuel m)%nat.
Proof. intros (_ & _ & _ & H). apply bytes_at_fuel in H. rewrite length_app in H. unfold string_fuel. cbn in H. lia. Qed.

Lemma cstring_suffix m p s1 s2 : cstring m p (s1 ++ s2) → cstring m (p + Z.of_nat (length s1)) s2.
Proof.
  intros (Hp & Hb & H0 & H). rewrite <-app_assoc in H. apply bytes_at_app in H as [_ H].
  apply Forall_app in Hb as [_ Hb]. split; [lia |]. split; [done |]. split; [| done].
  intros Hin. apply H0, elem_of_app. by right.
Qed.

Lemma cstring_bytes m p s : cstring m p s → bytes_at m p s.
Proof. intros (_ & _ & _ & H). by apply bytes_at_app in H as [? _]. Qed.

Lemma assert_ptr_ok p : 0 < p → assert_ptr p = Ok tt.
Proof. intros. unfold assert_ptr. by destruct (Z.eqb_spec p 0); [lia |]. Qed.

Lemma assert_block_ok p n : 0 < p → assert_block p n = Ok tt.
Proof. intros. unfold assert_block. by destruct (Z.eqb_spec p 0); [lia |]. Qed.

Lemma store_ok m a v : is_Some (m !! a) → store m a v = Ok (<[a := v]> m).
Proof. intros [x E]. unfold store. by rewrite E. Qed.

(** ** Block copies *)

(** [m'] is [m] with [n] bytes copied from [src] to [dst]. *)
Definition copied (m m' : mem) (dst src n : Z) : Prop :=
  ∀ a, m' !! a = if decide (dst ≤ a < dst + n) then m !! (src + (a - dst)) else m !! a.

Lemma copy_up_ok n m dst src :
  mapped m dst (Z.of_nat n) → mapped m src (Z.of_nat n) → (dst ≤ src ∨ src + Z.of_nat n ≤ dst) →
  ∃ m', copy_up n m dst src = Ok m' ∧ copied m m' dst src (Z.of_nat n).
Proof.
  revert m dst src. induction n as [|n IH]; intros m dst src Hd Hs Ho; cbn [copy_up].
  - exists m. split; [done |]. intros a. by rewrite decide_False by lia.
  - destruct (Hs src) as [c Hc]; [lia |]. unfold load. rewrite Hc. cbn [from_option_err mbind outcome_bind].
    rewrite store_ok by (apply Hd; lia). cbn [mbind outcome_bind].
    destruct (IH (<[dst := c]> m) (dst + 1) (src + 1)) as (m' & -> & Hm').
    + intros a Ha. rewrite lookup_insert_is_Some'. right. apply Hd. lia.
    + intros a Ha. rewrite lookup_insert_is_Some'. right. apply Hs. lia.
    + lia.
    + exists m'. split; [done |]. intros a. rewrite Hm'. destruct (decide (a = dst)) as [-> |].
      * rewrite decide_False, decide_True by lia. rewrite lookup_insert_eq, <-Hc. f_equal. lia.
      * repeat case_decide; try lia; rewrite lookup_insert_ne by lia; f_equal; lia.
Qed.

Lemma copy_down_ok n m dst src :
  mapped m (dst - Z.of_nat n) (Z.of_nat n) → mapped m (src - Z.of_nat n) (Z.of_nat n) →
  (src ≤ dst ∨ dst + Z.of_nat n ≤ src) →
  ∃ m', copy_down n m dst src = Ok m' ∧ copied m m' (dst - Z.of_nat n) (src - Z.of_nat n) (Z.of_nat n).
Proof.
  revert m dst src. induction n as [|n IH]; intros m dst src Hd Hs Ho; cbn [copy_down].
  - exists m. split; [done |]. intros a. by rewrite decide_False by lia.
  - destruct (Hs (src - 1)) as [c Hc]; [lia |]. unfold load. rewrite Hc. cbn [from_option_err mbind outcome_bind].
    rewrite store_ok by (apply Hd; lia). cbn [mbind outcome_bind].
    destruct (IH (<[dst - 1 := c]> m) (dst - 1) (src - 1)) as (m' & -> & Hm').
    + intros a Ha. rewrite lookup_insert_is_Some'. right. apply Hd. lia.
    + intros a Ha. rewrite lookup_insert_is_Some'. right. apply Hs. lia.
    + lia.
    + exists m'. split; [done |]. intros a. rewrite Hm'. destruct (decide (a = dst - 1)) as [-> |].
      * rewrite decide_False, decide_True by lia. rewrite lookup_insert_eq, <-Hc. f_equal. lia.
      * repeat case_decide; try lia; rewrite lookup_insert_ne by lia; f_equal; lia.
Qed.

Lemma memcpy_ok m dst src n :
  0 ≤ n → 0 < dst → 0 < src → mapped m dst n → mapped m src n → (dst ≤ src ∨ src + n ≤ dst) →
  ∃ m', memcpy m dst src n = Ok (dst, m') ∧ copied m m' dst src n.
Proof.
  intros. unfold memcpy. rewrite !assert_block_ok by done. cbn [mbind outcome_bind].
  destruct (copy_up_ok (Z.to_nat n) m dst src) as (m' & -> & H'); [by rewrite Z2Nat.id .. |].
  rewrite Z2Nat.id in H' by done. by exists m'.
Qed.

(** [memmove] copies a block under any overlap: the destination receives
    the bytes the source held before the call, and nothing else changes.
    [memcpy] does the same when the copy does not overwrite bytes of the source
    before it reads them.  [memmove] returns the destination's start only when
    it copies downward or copies nothing; copying upward it returns the end. *)
Theorem memmove_correct m dst src n :
  0 ≤ n → 0 < dst → 0 < src → mapped m dst n → mapped m src n →
  (∃ m', memmove m dst src n = Ok (if dst <? src then dst + n else dst, m') ∧ copied m m' dst src n) ∧
  ((dst ≤ src ∨ src + n ≤ dst) → ∃ m', memcpy m dst src n = Ok (dst, m') ∧ copied m m' dst src n).
Proof.
  intros Hn Hd Hs Hmd Hms. split; [| intros; by apply memcpy_ok].
  unfold memmove. rewrite !assert_block_ok by done. cbn [mbind outcome_bind].
  destruct (Z.ltb_spec dst src).
  - destruct (copy_up_ok (Z.to_nat n) m dst src) as (m' & -> & H'); [rewrite ?Z2Nat.id; done || lia .. |].
    rewrite Z2Nat.id in H' by done. by exists m'.
  - destruct (copy_down_ok (Z.to_nat n) m (dst + n) (src + n)) as (m' & -> & H').
    { rewrite Z2Nat.id by done. by replace (dst + n - n) with dst by lia. }
    { rewrite Z2Nat.id by done. by replace (src + n - n) with src by lia. }
    { lia. }
    rewrite Z2Nat.id in H' by done. cbn [mbind outcome_bind]. exists m'.
    replace (dst + n - n) with dst in * by lia. by replace (src + n - n) with src in H' by lia.
Qed.

Lemma memset_loop_ok n m dst v :
  mapped m dst (Z.of_nat n) →
  ∃ m', memset_loop n m dst v = Ok m' ∧
    ∀ a, m' !! a = if decide (dst ≤ a < dst + Z.of_nat n) then Some (u8 v) else m !! a.
Proof.
  revert m dst. induction n as [|n IH]; intros m dst Hm; cbn [memset_loop].
  - exists m. split; [done |]. intros a. by rewrite decide_False by lia.
  - rewrite store_ok by (apply Hm; lia). cbn [mbind outcome_bind].
    destruct (IH (<[dst := u8 v]> m) (dst + 1)) as (m' & -> & H').
    { intros a Ha. rewrite lookup_insert_is_Some'. right. apply Hm. lia. }
    exists m'. split; [done |]. intros a. rewrite H'. destruct (decide (a = dst)) as [-> |].
    + by rewrite decide_False, decide_True, lookup_insert_eq by lia.
    + repeat case_decide; try lia; [done | by rewrite lookup_insert_ne].
Qed.

Lemma memset_ok m dst v n :
  0 < dst → 0 ≤ n → mapped m dst n →
  ∃ m', memset m dst v n = Ok (dst, m') ∧
    ∀ a, m' !! a = if decide (dst ≤ a < dst + n) then Some (u8 v) else m !! a.
Proof.
  intros Hd Hn Hm. unfold memset. rewrite assert_block_ok by done. cbn [mbind outcome_bind].
  destruct (memset_loop_ok (Z.to_nat n) m dst v) as (m' & -> & H'); [by rewrite Z2Nat.id |].
  rewrite Z2Nat.id in H' by done. by exists m'.
Qed.

(** A memory holding a list of bytes. *)
Definition mem_of (p : Z) (l : list Z) : mem := list_to_map (zip (seqZ p (Z.of_nat (length l))) l).

Lemma memmove_correct_witness :
  (∃ m', memmove (mem_of 100 [1; 2; 3; 4; 5]) 102 101 3 = Ok (102, m')) ∧
  memmove (mem_of 100 [1; 2; 3; 4; 5]) 102 101 3 = Ok (102, mem_of 100 [1; 2; 2; 3; 4]).
Proof.
  assert (∀ p, 100 ≤ p → p ≤ 102 → mapped (mem_of 100 [1; 2; 3; 4; 5]) p 3) as Hm.
  { intros p H1 H2 a Ha. assert (a = 100 ∨ a = 101 ∨ a = 102 ∨ a = 103 ∨ a = 104) as H by lia.
    destruct H as [-> |[-> |[-> |[-> | ->]]]]; by eexists. }
  split.
  - destruct (memmove_correct (mem_of 100 [1; 2; 3; 4; 5]) 102 101 3) as [(m' & E & _) _];
      [lia | lia | lia | apply Hm; lia | apply Hm; lia | by exists m'].
  - reflexivity.
Defined.

(** ** Searches *)

(** The index of the first [c] in [l]. *)
Definition index (c : Z) (l : list Z) : option nat := fst <$> list_find (λ x, x = c) l.

(** The length of the longest prefix whose characters satisfy [P]. *)
Fixpoint prefix_len (P : Z → bool) (l : list Z) : nat :=
  match l with [] => O | c :: l => if P c then S (prefix_len P l) else O end.

(** What [strchr] finds: the address of the first [c], the terminator
    included. *)
Definition found (p : Z) (o : option nat) : Z := match o with Some i => p + Z.of_nat i | None => 0 end.

Lemma index_cons c x l : index c (x :: l) = if decide (x = c) then Some 0%nat else S <$> index c l.
Proof.
  unfold index. cbn [list_find]. case_decide; [done |]. by destruct (list_find _ l) as [[i y]|].
Qed.

Lemma load_ok m p c : m !! p = Some c → load m p = Ok c.
Proof. intros E. unfold load. by rewrite E. Qed.

Lemma strlen_loop_ok fuel m string p s :
  cstring m p s → (length s < fuel)%nat → strlen_loop fuel m string p = Ok (p - string + Z.of_nat (length s)).
Proof.
  revert p s. induction fuel as [|fuel IH]; intros p s Hs Hf; [lia |]. cbn [strlen_loop].
  destruct s as [|c s].
  - rewrite (load_ok _ _ 0) by (by apply cstring_nil). cbn. f_equal. lia.
  - apply cstring_cons in Hs as (Hc & Hc0 & _ & Hs). rewrite (load_ok _ _ c Hc). cbn [mbind outcome_bind].
    destruct (Z.eqb_spec c 0); [done |]. cbn [length] in *. rewrite (IH (p + 1) s) by (done || lia). f_equal. lia.
Qed.

Lemma strlen_ok m p s : cstring m p s → strlen m p = Ok (Z.of_nat (length s)).
Proof.
  intros Hs. unfold strlen. rewrite assert_ptr_ok by apply Hs. cbn [mbind outcome_bind].
  rewrite (strlen_loop_ok _ _ _ _ s Hs) by (by apply (cstring_fuel m p)). f_equal. lia.
Qed.

Lemma strchr_loop_ok fuel m p s c :
  cstring m p s → (length s < fuel)%nat → strchr_loop fuel m p c = Ok (found p (index c (s ++ [0]))).
Proof.
  revert p s. induction fuel as [|fuel IH]; intros p s Hs Hf; [lia |]. cbn [strchr_loop].
  destruct s as [|x s]; cbn [app]; rewrite index_cons.
  - rewrite (load_ok _ _ 0) by (by apply cstring_nil). cbn [mbind outcome_bind].
    destruct (Z.eqb_spec 0 c); [rewrite decide_True by done; cbn; f_equal; lia |]. by rewrite decide_False by done.
  - apply cstring_cons in Hs as (Hc & Hc0 & _ & Hs). rewrite (load_ok _ _ x Hc). cbn [mbind outcome_bind].
    destruct (Z.eqb_spec x c); [rewrite decide_True by done; cbn; f_equal; lia |]. rewrite decide_False by done.
    destruct (Z.eqb_spec x 0); [done |]. cbn [length] in Hf. rewrite (IH (p + 1) s) by (done || lia). f_equal.
    destruct (index c (s ++ [0])); cbn [fmap option_fmap option_map found]; lia.
Qed.

Lemma strchr_ok m p s c : cstring m p s → strchr m p c = Ok (found p (index (u8 c) (s ++ [0]))).
Proof.
  intros Hs. unfold strchr. rewrite assert_ptr_ok by apply Hs. cbn [mbind outcome_bind].
  apply strchr_loop_ok; [done | by apply (cstring_fuel m p)].
Qed.

(** [strchr] as a test of membership in a set of characters. *)
Lemma strchr_mem m set ds c :
  cstring m set ds → is_byte c →
  ∃ q, strchr m set c = Ok q ∧ (q =? 0) = bool_decide (c ∉ ds ∧ c ≠ 0).
Proof.
  intros Hd Hc. rewrite (strchr_ok m set ds c Hd), (u8_id c Hc). eexists; split; [done |].
  unfold index. destruct (list_find _ _) as [[i x]|] eqn:E; cbn [fmap option_fmap option_map found fst].
  - apply list_find_Some in E as (Hi & -> & _). rewrite bool_decide_false.
    + destruct Hd as [Hp _]. apply Z.eqb_neq. lia.
    + intros [Hn H0]. apply list_elem_of_lookup_2, elem_of_app in Hi as [|Hi]; [done |].
      by apply list_elem_of_singleton in Hi.
  - apply list_find_None in E. rewrite bool_decide_true; [done |].
    apply Forall_app in E as [E1 E2]. apply Forall_cons in E2 as [E2 _]. split; [| congruence].
    intros Hin. by apply (proj1 (Forall_forall _ _) E1 c Hin).
Qed.

Lemma strchr_in m set ds c :
  cstring m set ds → is_byte c → c ≠ 0 → ∃ q, strchr m set c = Ok q ∧ (q =? 0) = negb (bool_decide (c ∈ ds)).
Proof.
  intros Hd Hc H0. destruct (strchr_mem m set ds c Hd Hc) as (q & -> & Hq). exists q. split; [done |].
  rewrite Hq, <-bool_decide_not. apply bool_decide_ext. naive_solver.
Qed.

Lemma span_loop_ok fuel b m p s set ds k :
  cstring m (p + k) s → cstring m set ds → (length s < fuel)%nat →
  span_loop fuel b m p set k =
    Ok (k + Z.of_nat (prefix_len (λ c, eqb (bool_decide (c ∈ ds)) (negb b)) s)).
Proof.
  intros Hs Hd. revert k s Hs. induction fuel as [|fuel IH]; intros k s Hs Hf; [lia |]. cbn [span_loop].
  destruct s as [|c s].
  - rewrite (load_ok _ _ 0) by (by apply cstring_nil). cbn. f_equal. lia.
  - apply cstring_cons in Hs as (Hc & Hc0 & Hcb & Hs). rewrite (load_ok _ _ c Hc). cbn [mbind outcome_bind].
    destruct (Z.eqb_spec c 0); [done |].
    destruct (strchr_in m set ds c Hd Hcb Hc0) as (q & -> & Hq). cbn [mbind outcome_bind prefix_len].
    rewrite Hq, negb_involutive.
    destruct (eqb_spec (bool_decide (c ∈ ds)) b) as [-> |Hne].
    + replace (eqb b (negb b)) with false by (by destruct b). cbn. f_equal. lia.
    + replace (eqb (bool_decide (c ∈ ds)) (negb b)) with true by (by destruct b, (bool_decide (c ∈ ds))).
      cbn [length] in Hf. rewrite (IH (k + 1) s).
      * f_equal. lia.
      * by replace (p + (k + 1)) with (p + k + 1) by lia.
      * lia.
Qed.

(** The position of the first character of [s] that satisfies [P]. *)
Definition first_in (P : Z → bool) (p : Z) (s : list Z) : Z :=
  let k := prefix_len (λ c, negb (P c)) s in if decide (k < length s)%nat then p + Z.of_nat k else 0.

Lemma strpbrk_loop_ok fuel m p s set ds :
  cstring m p s → cstring m set ds → (length s < fuel)%nat →
  strpbrk_loop fuel m p set = Ok (first_in (λ c, bool_decide (c ∈ ds)) p s).
Proof.
  intros Hs Hd. revert p s Hs. induction fuel as [|fuel IH]; intros p s Hs Hf; [lia |]. cbn [strpbrk_loop].
  destruct s as [|c s].
  - by rewrite (load_ok _ _ 0) by (by apply cstring_nil).
  - apply cstring_cons in Hs as (Hc & Hc0 & Hcb & Hs). rewrite (load_ok _ _ c Hc). cbn [mbind outcome_bind].
    destruct (Z.eqb_spec c 0); [done |].
    destruct (strchr_in m set ds c Hd Hcb Hc0) as (q & -> & Hq). cbn [mbind outcome_bind].
    rewrite Hq. unfold first_in. cbn [prefix_len length] in *.
    destruct (decide (c ∈ ds)) as [Hin|Hin].
    + rewrite (bool_decide_true (c ∈ ds)) by done. cbn [negb].
      rewrite decide_True by lia. f_equal. lia.
    + rewrite (bool_decide_false (c ∈ ds)) by done. cbn [negb].
      rewrite (IH (p + 1) s) by (done || lia). unfold first_in. f_equal. repeat case_decide; lia.
Qed.

(** The position of the last [c]. *)
Definition last_of (c p : Z) (s : list Z) : Z :=
  match index c (reverse s) with Some i => p + Z.of_nat (length s - 1 - i) | None => 0 end.

Lemma strrchr_loop_ok fuel m p s c q :
  cstring m p s → (length s < fuel)%nat →
  strrchr_loop fuel m p c q = Ok (if decide (c ∈ s) then last_of c p s else q).
Proof.
  revert p s q. induction fuel as [|fuel IH]; intros p s q Hs Hf; [lia |]. cbn [strrchr_loop].
  destruct s as [|x s].
  - rewrite (load_ok _ _ 0) by (by apply cstring_nil). cbn. by rewrite decide_False by apply not_elem_of_nil.
  - apply cstring_cons in Hs as (Hc & Hc0 & _ & Hs). rewrite (load_ok _ _ x Hc). cbn [mbind outcome_bind].
    destruct (Z.eqb_spec x 0); [done |]. cbn [length] in Hf. rewrite (IH (p + 1) s) by (done || lia). f_equal.
    unfold last_of. rewrite reverse_cons. destruct (decide (c ∈ s)) as [Hin|Hin].
    + rewrite decide_True by (by right). unfold index.
      destruct (list_find (λ y, y = c) (reverse s)) as [[i y]|] eqn:E.
      * rewrite (list_find_app_l _ _ _ _ _ E). cbn [fmap option_fmap option_map fst length].
        apply list_find_Some in E as (Hi & _ & _). apply lookup_lt_Some in Hi. rewrite length_reverse in Hi. lia.
      * apply list_find_None in E. exfalso. apply (proj1 (Forall_forall _ _) E c); [| done]. by apply elem_of_reverse.
    + destruct (Z.eqb_spec x c) as [-> |Hne].
      * rewrite decide_True by left. unfold index.
        assert (list_find (λ y, y = c) (reverse s) = None) as E.
        { apply list_find_None, Forall_forall. intros y Hy ->. apply Hin. by apply elem_of_reverse. }
        rewrite (list_find_app_r _ _ _ E). cbn [list_find]. rewrite decide_True by done.
        cbn [fmap option_fmap option_map fst prod_map length]. rewrite length_reverse. lia.
      * by rewrite decide_False by (rewrite elem_of_cons; naive_solver).
Qed.

Lemma memcmp_loop_ok l1 l2 m a b :
  length l1 = length l2 → bytes_at m a l1 → bytes_at m b l2 →
  ∃ r, memcmp_loop (length l1) m a b = Ok r ∧ (r = 0 ↔ l1 = l2).
Proof.
  revert l2 a b. induction l1 as [|x l1 IH]; intros [|y l2] a b Hl Ha Hb; try discriminate Hl; cbn [memcmp_loop length].
  - by exists 0.
  - apply bytes_at_cons in Ha as [Hx Ha], Hb as [Hy Hb]. rewrite (load_ok _ _ x Hx), (load_ok _ _ y Hy).
    cbn [mbind outcome_bind]. destruct (Z.eqb_spec x y) as [-> |Hne]; cbn [negb].
    + destruct (IH l2 (a + 1) (b + 1)) as (r & -> & Hr); [cbn in Hl; lia | done | done |].
      exists r. split; [done |]. rewrite Hr. naive_solver.
    + eexists. split; [done |]. destruct (y <? x); split; intros E; try discriminate E; congruence.
Qed.

Lemma strstr_loop_ok n m h hs p ns i :
  cstring m h hs → cstring m p ns → i + Z.of_nat n + Z.of_nat (length ns) = Z.of_nat (length hs) + 1 → 0 ≤ i →
  ∃ r, strstr_loop n m h p (Z.of_nat (length ns)) i = Ok r ∧
    (r = 0 ∧ (∀ j, (Z.to_nat i ≤ j)%nat → ¬ ns `prefix_of` drop j hs ∨ (length hs < j + length ns)%nat) ∨
     ∃ j, r = h + Z.of_nat j ∧ (Z.to_nat i ≤ j)%nat ∧ ns `prefix_of` drop j hs ∧
       ∀ k, (Z.to_nat i ≤ k < j)%nat → ¬ ns `prefix_of` drop k hs).
Proof.
  intros Hh Hn. revert i. induction n as [|n IH]; intros i Hi Hi0; cbn [strstr_loop].
  { exists 0. split; [done |]. left. split; [done |]. intros j Hj. right. lia. }
  set (t := take (length ns) (drop (Z.to_nat i) hs)).
  assert (length t = length ns) as Ht by (subst t; rewrite length_take, length_drop; lia).
  assert (bytes_at m (h + i) t) as Hb.
  { pose proof (cstring_bytes _ _ _ Hh) as Hb. rewrite <-(take_drop (Z.to_nat i) hs) in Hb.
    apply bytes_at_app in Hb as [_ Hb]. rewrite length_take in Hb.
    rewrite <-(take_drop (length ns) (drop (Z.to_nat i) hs)) in Hb. apply bytes_at_app in Hb as [Hb _].
    by replace (h + i) with (h + Z.of_nat (Z.to_nat i `min` length hs)) by lia. }
  assert (t = ns ↔ ns `prefix_of` drop (Z.to_nat i) hs) as Hpre.
  { subst t. split; [intros <-; apply prefix_take |]. intros [k ->]. by rewrite take_app_length. }
  destruct Hh as [Hh0 Hh']. destruct Hn as [Hn0 Hn'].
  unfold memcmp. rewrite !assert_block_ok by lia. cbn [mbind outcome_bind].
  destruct (memcmp_loop_ok t ns m (h + i) p) as (r & Er & Hr); [done | done | by apply cstring_bytes |].
  rewrite Ht in Er. rewrite Nat2Z.id, Er. cbn [mbind outcome_bind].
  destruct (Z.eqb_spec r 0) as [E|E].
  - exists (h + i). split; [done |]. right. exists (Z.to_nat i). split_and!; [lia | lia | by apply Hpre, Hr | lia].
  - assert (¬ ns `prefix_of` drop (Z.to_nat i) hs) as Hno by (intros Hp; by apply E, Hr, Hpre).
    destruct (IH (i + 1)) as (r2 & -> & H2); [lia | lia |]. exists r2. split; [done |].
    destruct H2 as [[-> H2]|(j & -> & Hj & Hp & H2)]; [left | right; exists j]; split_and!; try done; try lia.
    + intros j Hj. destruct (decide (j = Z.to_nat i)) as [-> |]; [by left | apply H2; lia].
    + intros k Hk. destruct (decide (k = Z.to_nat i)) as [-> |]; [done | apply H2; lia].
Qed.

Lemma strcmp_loop_ok fuel m a b s t :
  cstring m a s → cstring m b t → (length s < fuel)%nat →
  ∃ r, strcmp_loop fuel m a b = Ok r ∧ (r = 0 ↔ s = t).
Proof.
  revert a b s t. induction fuel as [|fuel IH]; intros a b s t Hs Ht Hf; [lia |]. cbn [strcmp_loop].
  assert (∃ y, m !! b = Some y ∧ (y = 0 ↔ t = []) ∧ is_byte y) as (y & Hy & Hy0 & Hyb).
  { destruct t as [|y t]; [exists 0; split; [by apply cstring_nil | done] |].
    apply cstring_cons in Ht as (? & ? & ? & _). exists y. split; [done | by split]. }
  destruct s as [|x s].
  - rewrite (load_ok m a 0) by (by apply cstring_nil). cbn [mbind outcome_bind Z.eqb]. rewrite (load_ok _ _ y Hy).
    cbn [mbind outcome_bind]. eexists. split; [done |]. unfold is_byte in Hyb.
    destruct (Z.ltb_spec 0 y), (Z.ltb_spec y 0); try lia; split; try done; intros E.
    + assert (y = 0) by (by apply Hy0). lia.
    + symmetry. apply Hy0. lia.
  - apply cstring_cons in Hs as (Hx & Hx0 & Hxb & Hs). rewrite (load_ok _ _ x Hx). cbn [mbind outcome_bind].
    destruct (Z.eqb_spec x 0); [done |]. rewrite (load_ok _ _ y Hy). cbn [mbind outcome_bind].
    destruct (Z.eqb_spec x y) as [-> |Hne].
    + destruct t as [|z t]; [naive_solver |]. apply cstring_cons in Ht as (Hz & _ & _ & Ht).
      rewrite Hy in Hz. injection Hz as <-. cbn [length] in Hf.
      destruct (IH (a + 1) (b + 1) s t Hs Ht) as (r & -> & Hr); [lia |]. exists r. split; [done |].
      rewrite Hr. naive_solver.
    + eexists. split; [done |]. assert (x :: s ≠ t) as Hn.
      { intros <-. apply cstring_cons in Ht as (Hz & _). congruence. }
      destruct (Z.ltb_spec x y), (Z.ltb_spec y x); try lia; split; congruence.
Qed.

(** The searches compute what they are documented to compute, for all
    strings: [strlen] the length; [strchr] the first occurrence of a character
    (the terminator included) and [strrchr] the last (the terminator excluded);
    [strspn] and [strcspn] the length of the longest prefix in, or not in, a
    set; [strpbrk] the first character in a set; [strstr] the first occurrence
    of a string, or null when there is none; [strcmp] whether strings are
    equal.  None of them runs past a terminator. *)
Theorem string_searches_correct m p s q t c :
  cstring m p s → cstring m q t →
  strlen m p = Ok (Z.of_nat (length s)) ∧
  strchr m p c = Ok (found p (index (u8 c) (s ++ [0]))) ∧
  strrchr m p c = Ok (if decide (u8 c ∈ s) then last_of (u8 c) p s else 0) ∧
  strspn m p q = Ok (Z.of_nat (prefix_len (λ x, bool_decide (x ∈ t)) s)) ∧
  strcspn m p q = Ok (Z.of_nat (prefix_len (λ x, negb (bool_decide (x ∈ t))) s)) ∧
  strpbrk m p q = Ok (first_in (λ x, bool_decide (x ∈ t)) p s) ∧
  (∃ r, strcmp m p q = Ok r ∧ (r = 0 ↔ s = t)) ∧
  (∃ r, strstr m p q = Ok r ∧
    (r = 0 ∧ (∀ j, ¬ t `prefix_of` drop j s ∨ (length s < j + length t)%nat) ∨
     ∃ j, r = p + Z.of_nat j ∧ t `prefix_of` drop j s ∧ ∀ k, (k < j)%nat → ¬ t `prefix_of` drop k s)).
Proof.
  intros Hs Ht. pose proof (cstring_fuel _ _ _ Hs) as Hf.
  assert (∀ P Q l, (∀ x, P x = Q x) → prefix_len P l = prefix_len Q l) as Hext.
  { intros P Q l HPQ. induction l as [|x l IH]; [done |]. cbn. by rewrite HPQ, IH. }
  split; [by apply strlen_ok |]. split; [by apply strchr_ok |].
  split; [by apply strrchr_loop_ok |].
  split. { unfold strspn. rewrite (span_loop_ok _ _ _ _ s _ t); [| by rewrite Z.add_0_r | done | done].
    rewrite Z.add_0_l. do 2 f_equal. apply Hext. intros x. by destruct (bool_decide (x ∈ t)). }
  split. { unfold strcspn. rewrite (span_loop_ok _ _ _ _ s _ t); [| by rewrite Z.add_0_r | done | done].
    rewrite Z.add_0_l. do 2 f_equal. }
  split; [by apply strpbrk_loop_ok |]. split.
  - unfold strcmp. rewrite !assert_ptr_ok by (apply Hs || apply Ht). by apply strcmp_loop_ok.
  - unfold strstr. rewrite (strlen_ok _ _ _ Hs), (strlen_ok _ _ _ Ht). cbn [mbind outcome_bind].
    destruct (Z.leb_spec (Z.of_nat (length t)) (Z.of_nat (length s))).
    + destruct (strstr_loop_ok (Z.to_nat (Z.of_nat (length s) - Z.of_nat (length t) + 1)) m p s q t 0) as (r & -> & Hr);
        [done | done | lia | lia |]. exists r. split; [done |].
      destruct Hr as [[-> Hr]|(j & -> & _ & Hp & Hr)]; [left | right; exists j]; split_and!; try done.
      * intros j. apply Hr. lia.
      * intros k Hk. apply Hr. lia.
    + exists 0. split; [done |]. left. split; [done |]. intros j. right. lia.
Qed.

(** Two strings, "abcab" at 100 and "ab" at 200. *)
Definition example_mem : mem := mem_of 100 [97; 98; 99; 97; 98; 0] ∪ mem_of 200 [97; 98; 0].

Lemma bytes_at_iff m p l :
  Forall (λ i, m !! (p + Z.of_nat i) = l !! i) (seq 0 (length l)) → bytes_at m p l.
Proof.
  intros H i c Hi. rewrite (proj1 (Forall_forall _ _) H i), <-Hi; [done |].
  apply elem_of_seq. apply lookup_lt_Some in Hi. lia.
Qed.

Definition cstring_check (m : mem) (p : Z) (s : list Z) : bool :=
  bool_decide (0 < p ∧ Forall is_byte s ∧ 0 ∉ s ∧
    Forall (λ i, m !! (p + Z.of_nat i) = (s ++ [0]) !! i) (seq 0 (length (s ++ [0])))).

Lemma cstring_check_ok m p s : cstring_check m p s = true → cstring m p s.
Proof.
  unfold cstring_check. intros (H1 & H2 & H3 & H4)%bool_decide_eq_true.
  split; [done |]. split; [done |]. split; [done | by apply bytes_at_iff].
Qed.

Lemma string_searches_correct_witness :
  strlen example_mem 100 = Ok 5 ∧ strrchr example_mem 100 97 = Ok 103 ∧ strspn example_mem 100 200 = Ok 2.
Proof.
  destruct (string_searches_correct example_mem 100 [97; 98; 99; 97; 98] 200 [97; 98] 97) as (H1 & _ & H2 & H3 & _).
  - apply cstring_check_ok. vm_compute. reflexivity.
  - apply cstring_check_ok. vm_compute. reflexivity.
  - split; [exact H1 | split; [| exact H3]]. rewrite H2. vm_compute. reflexivity.
Defined.

(** [strnlen] reads the byte after the bound before it compares with the bound:
    an unterminated array of exactly [maxlen] bytes is overrun. *)
Lemma strnlen_overrun m p l :
  0 ∉ l → bytes_at m p l → m !! (p + Z.of_nat (length l)) = None →
  strnlen m p (Z.of_nat (length l)) = Err BadPointer.
Proof.
  intros H0 Hb Hn. unfold strnlen.
  assert (∀ fuel l2 k, bytes_at m (p + k) l2 → 0 ∉ l2 → (length l2 < fuel)%nat →
    k + Z.of_nat (length l2) = Z.of_nat (length l) →
    strnlen_loop fuel m p (Z.of_nat (length l)) k = Err BadPointer) as H.
  { induction fuel as [|fuel IH]; intros l2 k Hb2 Hn2 Hf Hk; [lia |]. cbn [strnlen_loop].
    destruct l2 as [|c l2]; cbn [length] in *.
    - unfold load. replace (p + k) with (p + Z.of_nat (length l)) by lia. by rewrite Hn.
    - apply bytes_at_cons in Hb2 as [Hc Hb2]. apply not_elem_of_cons in Hn2 as [Hc0 Hn2].
      rewrite (load_ok _ _ c Hc). cbn [mbind outcome_bind]. destruct (Z.eqb_spec c 0); [congruence |].
      destruct (Z.ltb_spec k (Z.of_nat (length l))); [| lia]. cbn [negb andb].
      apply (IH l2 (k + 1)); [| done | lia | lia]. by replace (p + (k + 1)) with (p + k + 1) by lia. }
  apply (H _ l); [by rewrite Z.add_0_r | done | | lia].
  apply bytes_at_fuel in Hb. unfold string_fuel. lia.
Qed.

(** ** Bounded copies *)

Definition disjoint_blocks (p n q k : Z) : Prop := p + n ≤ q ∨ q + k ≤ p.

(** Copying [k] bytes of a string and a terminator. *)
Lemma copy_terminate m dst src s k :
  cstring m src s → (k ≤ length s)%nat → 0 < dst → mapped m dst (Z.of_nat k + 1) →
  disjoint_blocks dst (Z.of_nat k + 1) src (Z.of_nat (length s) + 1) →
  ∃ m1 m2, memcpy m dst src (Z.of_nat k) = Ok (dst, m1) ∧ store m1 (dst + Z.of_nat k) 0 = Ok m2 ∧
    cstring m2 dst (take k s) ∧ ∀ a, ¬ dst ≤ a < dst + Z.of_nat k + 1 → m2 !! a = m !! a.
Proof.
  intros Hs Hk Hd Hm Hdis. pose proof Hs as (Hp & Hb & H0 & Hby). unfold disjoint_blocks in Hdis.
  destruct (memcpy_ok m dst src (Z.of_nat k)) as (m1 & E1 & H1); [lia | done | done | | | lia |].
  { intros a Ha. apply Hm. lia. }
  { intros a Ha. destruct (lookup_lt_is_Some_2 (s ++ [0]) (Z.to_nat (a - src))) as [c Hc]; [rewrite length_app; cbn; lia |].
    apply Hby in Hc. exists c. rewrite <-Hc. f_equal. lia. }
  assert (is_Some (m1 !! (dst + Z.of_nat k))) as Hst.
  { rewrite (H1 _), decide_False by lia. apply Hm. lia. }
  exists m1, (<[dst + Z.of_nat k := 0]> m1). split; [done |]. split; [by apply store_ok |]. split.
  - split; [done |]. split; [by apply Forall_take |].
    split; [intros Hin; apply H0; by eapply elem_of_take in Hin as (? & Hi & _); apply list_elem_of_lookup_2 in Hi |].
    apply bytes_at_app. rewrite length_take_le by done. split.
    + intros i c Hi. apply lookup_take_Some in Hi as [Hi Hik].
      rewrite lookup_insert_ne, (H1 _), decide_True by lia.
      rewrite <-(Hby i c) by (by apply lookup_app_l_Some). f_equal. lia.
    + apply bytes_at_cons. split; [by rewrite lookup_insert_eq | apply bytes_at_nil].
  - intros a Ha. rewrite lookup_insert_ne, (H1 _), decide_False by lia. done.
Qed.

Lemma cstring_frame m m' p s :
  cstring m p s → (∀ a, p ≤ a < p + Z.of_nat (length s) + 1 → m' !! a = m !! a) → cstring m' p s.
Proof.
  intros (H1 & H2 & H3 & H4) Hf. split; [done |]. split; [done |]. split; [done |].
  eapply bytes_at_frame; [exact H4 |]. intros a. rewrite length_app. cbn. intros Ha. apply Hf. lia.
Qed.

(** C24: [strlcpy] and [strlcat] never overrun: they write only to the [size]
    bytes of the destination, and they return the length of the string they
    tried to create, so a result of [size] or more tells that it was truncated.
    The destination then holds the longest prefix of the result that fits,
    terminated: for [strlcpy] when [size] is not 0, for [strlcat] when [size] is
    greater than the length of the string already there; otherwise [strlcat]
    writes nothing at all, not even a terminator. *)
Theorem bounded_copies_correct m dst src d s size :
  cstring m src s → 0 < dst → 0 ≤ size → mapped m dst size →
  disjoint_blocks dst size src (Z.of_nat (length s) + 1) →
  (∃ m', strlcpy m dst src size = Ok (Z.of_nat (length s), m') ∧
    (0 < size → cstring m' dst (take (Z.to_nat (size - 1)) s)) ∧
    ∀ a, ¬ dst ≤ a < dst + size → m' !! a = m !! a) ∧
  (cstring m dst d →
   ∃ m', strlcat m dst src size = Ok (Z.of_nat (length d + length s), m') ∧
    (Z.of_nat (length d) < size → cstring m' dst (take (Z.to_nat (size - 1)) (d ++ s))) ∧
    (size ≤ Z.of_nat (length d) → m' = m) ∧
    ∀ a, ¬ dst ≤ a < dst + size → m' !! a = m !! a).
Proof.
  intros Hs Hd Hsz Hm Hdis. pose proof Hs as (Hp & _). unfold disjoint_blocks in Hdis. split.
  - unfold strlcpy. rewrite !assert_ptr_ok by done. cbn [mbind outcome_bind]. rewrite (strlen_ok _ _ _ Hs).
    cbn [mbind outcome_bind]. destruct (Z.ltb_spec 0 size); [| exists m; split_and!; done || lia].
    set (k := if Z.of_nat (length s) <? size - 1 then Z.of_nat (length s) else size - 1).
    assert (k = Z.of_nat (length s `min` Z.to_nat (size - 1))%nat) as ->
      by (subst k; destruct (Z.ltb_spec (Z.of_nat (length s)) (size - 1)); lia).
    destruct (copy_terminate m dst src s (length s `min` Z.to_nat (size - 1))%nat)
      as (m1 & m2 & -> & E2 & H2 & Hf); [done | lia | done | intros a Ha; apply Hm; lia | unfold disjoint_blocks; lia |].
    cbn [mbind outcome_bind]. rewrite E2. cbn [mbind outcome_bind]. exists m2. split; [done |]. split.
    + intros _. replace (take (Z.to_nat (size - 1)) s) with (take (length s `min` Z.to_nat (size - 1)) s); [done |].
      destruct (decide (length s ≤ Z.to_nat (size - 1))%nat); [rewrite !take_ge by lia; done | f_equal; lia].
    + intros a Ha. apply Hf. lia.
  - intros Hds. unfold strlcat. rewrite !assert_ptr_ok by done. cbn [mbind outcome_bind].
    rewrite (strlen_ok _ _ _ Hs). cbn [mbind outcome_bind]. rewrite (strlen_ok _ _ _ Hds). cbn [mbind outcome_bind].
    replace (Z.of_nat (length s) + Z.of_nat (length d)) with (Z.of_nat (length d + length s)) by lia.
    destruct (Z.ltb_spec 0 size), (Z.ltb_spec (Z.of_nat (length d)) size); cbn [andb];
      try (exists m; split_and!; done || lia).
    set (k := if _ <? _ then _ else _). set (n := (length s `min` (Z.to_nat (size - 1) - length d))%nat).
    assert (k = Z.of_nat n) as ->
      by (subst k n; destruct (Z.ltb_spec (Z.of_nat (length s)) (size - Z.of_nat (length d) - 1)); lia).
    destruct (copy_terminate m (dst + Z.of_nat (length d)) src s n) as (m1 & m2 & -> & E2 & H2 & Hf);
      [done | lia | lia | intros a Ha; apply Hm; lia | unfold disjoint_blocks; lia |].
    cbn [mbind outcome_bind]. rewrite E2. cbn [mbind outcome_bind]. exists m2. split; [done |]. split; [| split; [lia |]].
    + intros _. assert (take (Z.to_nat (size - 1)) (d ++ s) = d ++ take n s) as ->.
      { rewrite take_app_ge by lia. f_equal. subst n.
        destruct (decide (length s ≤ Z.to_nat (size - 1) - length d)%nat); [rewrite !take_ge by lia; done | f_equal; lia]. }
      destruct H2 as (_ & Hb2 & H02 & Hby2). destruct Hds as (_ & Hbd & H0d & Hbyd).
      split; [done |]. split; [by apply Forall_app |]. split; [rewrite elem_of_app; tauto |].
      rewrite <-app_assoc. apply bytes_at_app. split; [| done].
      apply bytes_at_app in Hbyd as [Hbyd _]. eapply bytes_at_frame; [exact Hbyd |].
      intros a Ha. apply Hf. lia.
    + intros a Ha. apply Hf. lia.
Qed.

Definition copy_mem : mem := mem_of 100 [97; 98; 99; 0] ∪ mem_of 200 [120; 0; 1; 1].

Lemma bounded_copies_correct_witness :
  strlcat copy_mem 200 100 4 = Ok (4, mem_of 100 [97; 98; 99; 0] ∪ mem_of 200 [120; 97; 98; 0]) ∧
  ∃ m', strlcpy copy_mem 200 100 4 = Ok (3, m') ∧ cstring m' 200 [97; 98; 99].
Proof.
  split; [reflexivity |].
  destruct (bounded_copies_correct copy_mem 200 100 [120] [97; 98; 99] 4) as [(m' & E & H & _) _].
  - apply cstring_check_ok. vm_compute. reflexivity.
  - lia.
  - lia.
  - intros a Ha. assert (a = 200 ∨ a = 201 ∨ a = 202 ∨ a = 203) as [-> |[-> |[-> | ->]]] by lia; by eexists.
  - right. cbn. lia.
  - exists m'. split; [exact E |]. apply H. lia.
Defined.

(** ** Tokens *)

(** The tokens of a string: its maximal runs of characters that are not
    delimiters.  [cur] is the run read so far. *)
Fixpoint tokens (ds cur s : list Z) : list (list Z) :=
  match s with
  | [] => if cur is [] then [] else [cur]
  | c :: s =>
      if decide (c ∈ ds) then if cur is [] then tokens ds [] s else cur :: tokens ds [] s
      else tokens ds (cur ++ [c]) s
  end.

(** All the tokens that repeated calls return: the first call passes the
    string, the others a null pointer. *)
Fixpoint tokenize (fuel : nat) (m : mem) (s delimiters save_ptr : Z) : outcome (list Z * mem) :=
  match fuel with
  | O => Err OutOfFuel
  | S fuel =>
      '(token, save_ptr, m) ← strtok_r m s delimiters save_ptr;
      if token =? 0 then Ok ([], m)
      else '(ts, m) ← tokenize fuel m 0 delimiters save_ptr; Ok (token :: ts, m)
  end.

Definition starts_with (P : Z → Prop) (s : list Z) : Prop := match s with [] => True | c :: _ => P c end.

Lemma tokens_skip ds pre s : Forall (λ c, c ∈ ds) pre → tokens ds [] (pre ++ s) = tokens ds [] s.
Proof.
  induction 1 as [|c pre Hc _ IH]; [done |]. cbn. by rewrite decide_True.
Qed.

Lemma tokens_token ds cur tok s :
  Forall (λ c, c ∉ ds) tok → starts_with (λ c, c ∈ ds) s → cur ++ tok ≠ [] →
  tokens ds cur (tok ++ s) = (cur ++ tok) :: tokens ds [] (drop 1 s).
Proof.
  intros Ht. revert cur. induction Ht as [|c tok Hc _ IH]; intros cur Hs Hne; cbn.
  - rewrite app_nil_r in *. destruct s as [|d s]; cbn; [by destruct cur |].
    cbn in Hs. rewrite decide_True by done. by destruct cur.
  - rewrite decide_False by done. rewrite IH; [by rewrite <-app_assoc | done |]. by destruct cur.
Qed.

(** Every string is delimiters, then a token, then what follows it. *)
Lemma split_delimiters (P : Z → Prop) `{∀ c, Decision (P c)} s :
  ∃ pre rest, s = pre ++ rest ∧ Forall P pre ∧ starts_with (λ c, ¬ P c) rest.
Proof.
  induction s as [|c s (pre & rest & -> & Hp & Hr)]; [by exists [], [] |].
  destruct (decide (P c)); [exists (c :: pre), rest | exists [], (c :: pre ++ rest)]; split_and!; try done.
  by constructor.
Qed.

Lemma skip_delimiters_ok fuel m p pre rest q ds :
  cstring m p (pre ++ rest) → cstring m q ds → Forall (λ c, c ∈ ds) pre → starts_with (λ c, c ∉ ds) rest →
  (length pre < fuel)%nat →
  skip_delimiters fuel m p q = Ok (p + Z.of_nat (length pre), if rest is [] then false else true).
Proof.
  intros Hs Hd Hpre Hrest. revert p Hs fuel. induction Hpre as [|c pre Hc _ IH]; intros p Hs [|fuel] Hf;
    cbn [length] in Hf; try lia; cbn [skip_delimiters length].
  - change (Z.of_nat 0) with 0. rewrite Z.add_0_r. cbn [app] in Hs. destruct rest as [|c rest].
    + rewrite (load_ok m p 0) by (by apply cstring_nil). cbn [mbind outcome_bind].
      destruct (strchr_mem m q ds 0 Hd) as (r & -> & Hr); [by vm_compute |]. cbn [mbind outcome_bind].
      by rewrite Hr, bool_decide_false by (intros [_ ?]; done).
    + cbn in Hrest. apply cstring_cons in Hs as (Hc & Hc0 & Hcb & _). rewrite (load_ok m p c Hc). cbn [mbind outcome_bind].
      destruct (strchr_in m q ds c Hd Hcb Hc0) as (r & -> & Hr). cbn [mbind outcome_bind].
      by rewrite Hr, bool_decide_false by done.
  - apply cstring_cons in Hs as (Hx & Hx0 & Hxb & Hs). rewrite (load_ok m p c Hx). cbn [mbind outcome_bind].
    destruct (strchr_in m q ds c Hd Hxb Hx0) as (r & -> & Hr). cbn [mbind outcome_bind].
    rewrite Hr, bool_decide_true by done. cbn [negb]. destruct (Z.eqb_spec c 0); [done |].
    rewrite (IH (p + 1) Hs fuel) by lia. do 2 f_equal. lia.
Qed.

Lemma find_delimiter_ok fuel m p tok tail q ds :
  cstring m p (tok ++ tail) → cstring m q ds → Forall (λ c, c ∉ ds) tok → starts_with (λ c, c ∈ ds) tail →
  (length tok < fuel)%nat → find_delimiter fuel m p q = Ok (p + Z.of_nat (length tok)).
Proof.
  intros Hs Hd Htok Htail. revert p Hs fuel. induction Htok as [|c tok Hc _ IH]; intros p Hs [|fuel] Hf;
    cbn [length] in Hf; try lia; cbn [find_delimiter length].
  - change (Z.of_nat 0) with 0. rewrite Z.add_0_r. cbn [app] in Hs. destruct tail as [|c tail].
    + rewrite (load_ok m p 0) by (by apply cstring_nil). cbn [mbind outcome_bind].
      destruct (strchr_mem m q ds 0 Hd) as (r & -> & Hr); [by vm_compute |]. cbn [mbind outcome_bind].
      by rewrite Hr, bool_decide_false by (intros [_ ?]; done).
    + cbn in Htail. apply cstring_cons in Hs as (Hc & Hc0 & Hcb & _). rewrite (load_ok m p c Hc). cbn [mbind outcome_bind].
      destruct (strchr_in m q ds c Hd Hcb Hc0) as (r & -> & Hr). cbn [mbind outcome_bind].
      by rewrite Hr, bool_decide_true by done.
  - apply cstring_cons in Hs as (Hx & Hx0 & Hxb & Hs). rewrite (load_ok m p c Hx). cbn [mbind outcome_bind].
    destruct (strchr_in m q ds c Hd Hxb Hx0) as (r & -> & Hr). cbn [mbind outcome_bind].
    rewrite Hr, bool_decide_false by done. cbn [negb].
    rewrite (IH (p + 1) Hs fuel) by lia. f_equal. lia.
Qed.

(** One call: it returns null at the end of the string, or the first token,
    terminated in place, and leaves the rest to the next call. *)
Lemma strtok_r_ok m s save p str q ds :
  (if s =? 0 then save else s) = p → cstring m p str → cstring m q ds →
  disjoint_blocks p (Z.of_nat (length str) + 1) q (Z.of_nat (length ds) + 1) →
  (tokens ds [] str = [] ∧ ∃ save', strtok_r m s q save = Ok (0, save', m)) ∨
  ∃ tok rest t save' m', tokens ds [] str = tok :: tokens ds [] rest ∧ (length rest < length str)%nat ∧
    strtok_r m s q save = Ok (t, save', m') ∧ cstring m' t tok ∧ cstring m' save' rest ∧
    p ≤ t ∧ t + Z.of_nat (length tok) ≤ save' ∧ save' + Z.of_nat (length rest) = p + Z.of_nat (length str) ∧
    (t + Z.of_nat (length tok) < save' ∨ rest = []) ∧
    ∀ a, ¬ p ≤ a < p + Z.of_nat (length str) → m' !! a = m !! a.
Proof.
  intros Ep Hs Hd Hdis. unfold strtok_r. rewrite (assert_ptr_ok q) by apply Hd. cbn [mbind outcome_bind].
  rewrite Ep, (assert_ptr_ok p) by apply Hs. cbn [mbind outcome_bind].
  destruct (split_delimiters (λ c, c ∈ ds) str) as (pre & rest & -> & Hpre & Hrest).
  pose proof (cstring_fuel _ _ _ Hs) as Hf. rewrite length_app in Hf.
  rewrite (skip_delimiters_ok _ m p pre rest q ds) by (done || lia). cbn [mbind outcome_bind].
  rewrite tokens_skip by done. apply cstring_suffix in Hs as Hs1.
  destruct rest as [|c rest]; [left; split; [done |]; by eexists |]. right. cbn [negb].
  destruct (split_delimiters (λ c, ¬ (c ∈ ds)) (c :: rest)) as (tok & tail & Et & Htok & Htail).
  rewrite Et in *. assert (tok ≠ []) as Hne.
  { intros ->. cbn in Et, Hrest. subst tail. cbn in Htail. by apply Htail. }
  assert (starts_with (λ c, c ∈ ds) tail) as Htail2 by (destruct tail as [|x tail]; [done | cbn in *; by apply dec_stable]).
  rewrite length_app in Hf. rewrite (find_delimiter_ok _ m _ tok tail q ds) by (done || lia). cbn [mbind outcome_bind].
  set (t := p + Z.of_nat (length pre)) in *. pose proof (cstring_suffix _ _ _ _ Hs1) as Hs2.
  pose proof Hs1 as (_ & Hb1 & H01 & Hby1). rewrite <-app_assoc in Hby1. apply bytes_at_app in Hby1 as [Hbt _].
  apply Forall_app in Hb1 as [Hbt2 _]. pose proof Hs as (Hp0 & _).
  assert (0 ∉ tok) as H0t by (intros ?; apply H01, elem_of_app; by left).
  exists tok, (drop 1 tail), t. rewrite tokens_token by (done || by destruct tok). rewrite !length_app.
  destruct tail as [|d tail]; cbn [drop length] in *.
  - rewrite (load_ok m _ 0) by (by apply cstring_nil). cbn [mbind outcome_bind Z.eqb negb].
    exists (t + Z.of_nat (length tok)), m. split; [done |]. destruct tok; [done |]. cbn [length] in *.
    split; [lia |]. split; [done |]. split; [| split; [done |]].
    + split; [lia |]. split; [done |]. split; [done |]. apply bytes_at_app. split; [done |].
      apply bytes_at_cons. split; [by apply cstring_nil in Hs2 | apply bytes_at_nil].
    + subst t. split_and!; [lia | lia | lia | by right | done].
  - apply cstring_cons in Hs2 as (Hx & Hx0 & Hxb & Hs3). rewrite (load_ok m _ d Hx). cbn [mbind outcome_bind].
    destruct (Z.eqb_spec d 0); [done |]. cbn [negb]. rewrite store_ok by (by exists d). cbn [mbind outcome_bind].
    change (drop 0 tail) with tail.
    exists (t + Z.of_nat (length tok) + 1), (<[t + Z.of_nat (length tok) := 0]> m).
    split; [done |]. split; [lia |]. split; [done |]. split; [| split].
    + split; [lia |]. split; [done |]. split; [done |]. apply bytes_at_app. split.
      * eapply bytes_at_frame; [exact Hbt |]. intros a Ha. by rewrite lookup_insert_ne by lia.
      * apply bytes_at_cons. split; [by rewrite lookup_insert_eq | apply bytes_at_nil].
    + eapply cstring_frame; [exact Hs3 |]. intros a Ha. by rewrite lookup_insert_ne by lia.
    + subst t. split_and!; [lia | lia | lia | left; lia |]. intros a Ha. by rewrite lookup_insert_ne by lia.
Qed.

Lemma tokenize_ok fuel m s save p str q ds :
  (if s =? 0 then save else s) = p → cstring m p str → cstring m q ds →
  disjoint_blocks p (Z.of_nat (length str) + 1) q (Z.of_nat (length ds) + 1) → (length str < fuel)%nat →
  ∃ ts m', tokenize fuel m s q save = Ok (ts, m') ∧ Forall2 (cstring m') ts (tokens ds [] str) ∧
    ∀ a, ¬ p ≤ a < p + Z.of_nat (length str) → m' !! a = m !! a.
Proof.
  revert m s save p str. induction fuel as [|fuel IH]; intros m s save p str Ep Hs Hd Hdis Hf; [lia |].
  cbn [tokenize]. unfold disjoint_blocks in *. destruct (strtok_r_ok m s save p str q ds Ep Hs Hd Hdis)
    as [[Et (save' & ->)]|(tok & rest & t & save' & m1 & Et & Hl & -> & Htok & Hrest & H1 & H2 & H3 & H4 & Hfr)].
  - cbn [mbind outcome_bind Z.eqb]. exists [], m. split; [done |]. split; [by rewrite Et | done].
  - cbn [mbind outcome_bind]. pose proof Htok as (Ht0 & _). destruct (Z.eqb_spec t 0); [lia |].
    destruct (IH m1 0 save' save' rest) as (ts & m2 & -> & Hts & Hfr2).
    { done. } { done. }
    { eapply cstring_frame; [exact Hd |]. intros a Ha. apply Hfr. lia. }
    { lia. } { lia. }
    cbn [mbind outcome_bind]. exists (t :: ts), m2. split; [done |]. split.
    + rewrite Et. constructor; [| done]. eapply cstring_frame; [exact Htok |]. intros a Ha. apply Hfr2.
      destruct H4 as [H4| ->]; [lia |]. cbn in *. lia.
    + intros a Ha. rewrite Hfr2 by lia. by apply Hfr.
Qed.

(** C23: [strtok_r] breaks a string into tokens: called first with the string
    and then with null until it returns null, it returns the maximal runs of
    characters that are not delimiters, in order; at the end every token is a
    terminated string in place, and no memory outside the string has
    changed. *)
Theorem strtok_r_tokenizes m p str q ds save :
  cstring m p str → cstring m q ds →
  disjoint_blocks p (Z.of_nat (length str) + 1) q (Z.of_nat (length ds) + 1) →
  ∃ ts m', tokenize (S (length str)) m p q save = Ok (ts, m') ∧ Forall2 (cstring m') ts (tokens ds [] str) ∧
    ∀ a, ¬ p ≤ a < p + Z.of_nat (length str) → m' !! a = m !! a.
Proof.
  intros Hs Hd Hdis. apply tokenize_ok; try done; [| lia].
  destruct Hs as [Hp _]. by destruct (Z.eqb_spec p 0); [lia |].
Qed.

(** "/a//b" at 100, with the delimiter "/" at 200. *)
Lemma strtok_r_tokenizes_witness :
  ∃ ts m', tokenize 6 (mem_of 100 [47; 97; 47; 47; 98; 0] ∪ mem_of 200 [47; 0]) 100 200 0 = Ok (ts, m') ∧
    Forall2 (cstring m') ts [[97]; [98]].
Proof.
  destruct (strtok_r_tokenizes (mem_of 100 [47; 97; 47; 47; 98; 0] ∪ mem_of 200 [47; 0]) 100 [47; 97; 47; 47; 98] 200 [47] 0)
    as (ts & m' & E & H & _).
  - apply cstring_check_ok. vm_compute. reflexivity.
  - apply cstring_check_ok. vm_compute. reflexivity.
  - left. cbn. lia.
  - exists ts, m'. split; [exact E |]. vm_compute in H. exact H.
Defined.
