(* ===== verification/Words.v ===== *)
(** 32-bit words in memory, as C reads and writes them through an [uint32_t *]:
    four bytes, the lowest first.  The lemmas are about memory made of bytes,
    [bytes_mem], and describe what a store leaves of the other words. *)
From S2P Require Import Prelude Bytes CString CStringThm.
Local Open Scope Z_scope.

Definition load_word (m : mem) (a : Z) : outcome Z :=
  b0 ← load m a; b1 ← load m (a + 1); b2 ← load m (a + 2); b3 ← load m (a + 3);
  Ok (u32_of_bytes [b0; b1; b2; b3]).

Definition store_word (m : mem) (a v : Z) : outcome mem :=
  m ← store m a (u8 v);
  m ← store m (a + 1) (u8 (Z.shiftr v 8));
  m ← store m (a + 2) (u8 (Z.shiftr v 16));
  store m (a + 3) (u8 (Z.shiftr v 24)).

(** The word at an address, when the memory there is mapped. *)
Definition word (m : mem) (a : Z) : Z :=
  u32_of_bytes [m !!! a; m !!! (a + 1); m !!! (a + 2); m !!! (a + 3)].

Definition bytes_mem (m : mem) : Prop := map_Forall (λ _ b, is_byte b) m.

(** [m'] is [m] but for the [n] bytes from [a] on. *)
Definition outside (m m' : mem) (a n : Z) : Prop := ∀ b, ¬ a ≤ b < a + n → m' !! b = m !! b.

(** *** Reading *)

Lemma mapped_sub m a n b k : mapped m a n → a ≤ b → b + k ≤ a + n → mapped m b k.
Proof. intros H ? ? c Hc. apply H. lia. Qed.

Lemma load_total m a : is_Some (m !! a) → load m a = Ok (m !!! a).
Proof. intros [c E]. unfold load. by rewrite (lookup_total_correct _ _ _ E), E. Qed.

Lemma load_word_ok m a : mapped m a 4 → load_word m a = Ok (word m a).
Proof.
  intros H. unfold load_word, word. do 4 (rewrite load_total by (apply H; lia); cbn [mbind outcome_bind]). done.
Qed.

Lemma byte_total m a : bytes_mem m → is_byte (m !!! a).
Proof.
  intros H. rewrite lookup_total_alt. destruct (m !! a) as [c|] eqn:E; [by apply (H a c) | cbn; unfold is_byte; lia].
Qed.

Lemma word_range m a : bytes_mem m → 0 ≤ word m a < 4294967296.
Proof. intros H. apply u32_of_bytes_inv; [done |]. by repeat constructor; apply byte_total. Qed.

Lemma word_same m m' a : (∀ b, a ≤ b < a + 4 → m' !! b = m !! b) → word m' a = word m a.
Proof.
  intros H. unfold word. rewrite !lookup_total_alt, !H by lia. done.
Qed.

Lemma word_outside m m' a n b : outside m m' a n → b + 4 ≤ a ∨ a + n ≤ b → word m' b = word m b.
Proof. intros H Hb. apply word_same. intros c Hc. apply H. lia. Qed.

Lemma word_copied m m' dst src n a :
  copied m m' dst src n → dst ≤ a → a + 4 ≤ dst + n → word m' a = word m (src + (a - dst)).
Proof.
  intros H H1 H2.
  assert (∀ b, a ≤ b < a + 4 → m' !!! b = m !!! (src + (b - dst))) as E.
  { intros b Hb. by rewrite !lookup_total_alt, H, decide_True by lia. }
  unfold word. rewrite !E by lia.
  replace (src + (a + 1 - dst)) with (src + (a - dst) + 1) by lia.
  replace (src + (a + 2 - dst)) with (src + (a - dst) + 2) by lia.
  by replace (src + (a + 3 - dst)) with (src + (a - dst) + 3) by lia.
Qed.

Lemma word_filled m a v : (∀ b, a ≤ b < a + 4 → m !! b = Some v) → word m a = u32_of_bytes [v; v; v; v].
Proof. intros H. unfold word. by rewrite !lookup_total_alt, !H by lia. Qed.

(** *** Writing *)

Lemma bytes_of_u32_wrap v : bytes_of_u32 (u32 v) = bytes_of_u32 v.
Proof.
  assert (∀ k, 0 ≤ k ≤ 24 → u8 (Z.shiftr (u32 v) k) = u8 (Z.shiftr v k)) as E.
  { intros k Hk. unfold wrap_u. rewrite <-!Z.land_ones by lia. apply Z.bits_inj'. intros i Hi.
    rewrite !Z.land_spec, !Z.shiftr_spec, Z.land_spec by lia. destruct (Z.lt_ge_cases i 8).
    - by rewrite (Z.ones_spec_low 32), andb_true_r by lia.
    - by rewrite (Z.ones_spec_high 8), !andb_false_r by lia. }
  unfold bytes_of_u32. pose proof (E 0 ltac:(lia)) as E0. rewrite !Z.shiftr_0_r in E0. by rewrite E0, !E by lia.
Qed.

Lemma store_bytes_mem m a v m' : bytes_mem m → is_byte v → store m a v = Ok m' → bytes_mem m'.
Proof.
  intros H Hv E. unfold store in E. destruct (m !! a); [| done]. simplify_eq. by apply map_Forall_insert_2.
Qed.

Lemma store_word_ok m a v :
  mapped m a 4 → bytes_mem m →
  ∃ m', store_word m a v = Ok m' ∧ bytes_mem m' ∧ outside m m' a 4 ∧ word m' a = u32 v ∧
    (∀ b, is_Some (m' !! b) ↔ is_Some (m !! b)).
Proof.
  intros Hm Hb.
  set (m1 := <[a := u8 v]> m). set (m2 := <[a + 1 := u8 (Z.shiftr v 8)]> m1).
  set (m3 := <[a + 2 := u8 (Z.shiftr v 16)]> m2). set (m4 := <[a + 3 := u8 (Z.shiftr v 24)]> m3).
  assert (∀ b, m4 !! b = if decide (b = a) then Some (u8 v) else if decide (b = a + 1) then Some (u8 (Z.shiftr v 8))
    else if decide (b = a + 2) then Some (u8 (Z.shiftr v 16)) else if decide (b = a + 3) then Some (u8 (Z.shiftr v 24))
    else m !! b) as H4.
  { intros b. unfold m4, m3, m2, m1. rewrite !lookup_insert. repeat case_decide; try lia; done. }
  exists m4. split_and!.
  - assert (∀ b, a ≤ b < a + 4 → is_Some (m !! b) ∧ is_Some (m1 !! b) ∧ is_Some (m2 !! b) ∧ is_Some (m3 !! b)) as Hs.
    { intros b Hb'. unfold m3, m2, m1. rewrite !lookup_insert_is_Some'. pose proof (Hm b Hb'). tauto. }
    unfold store_word. rewrite store_ok by (apply Hs; lia). cbn [mbind outcome_bind]. fold m1.
    rewrite store_ok by (apply Hs; lia). cbn [mbind outcome_bind]. fold m2.
    rewrite store_ok by (apply Hs; lia). cbn [mbind outcome_bind]. fold m3. by rewrite store_ok by (apply Hs; lia).
  - intros b c. rewrite H4. repeat case_decide; intros E; simplify_eq; try apply u8_range. by apply (Hb b).
  - intros b Hn. rewrite H4. by repeat case_decide; try lia.
  - unfold word. rewrite !lookup_total_alt, !H4. repeat (case_decide; try lia). cbn [default].
    fold (bytes_of_u32 v). transitivity (u32_of_bytes (bytes_of_u32 (u32 v))).
    + by rewrite bytes_of_u32_wrap.
    + apply bytes_of_u32_inv, u32_range.
  - intros b. rewrite H4. repeat case_decide; subst; split; intros ?; eauto; apply Hm; lia.
Qed.

Lemma filled_bytes_mem m m' a n v :
  bytes_mem m → is_byte v → (∀ b, m' !! b = if decide (a ≤ b < a + n) then Some v else m !! b) → bytes_mem m'.
Proof. intros H Hv E b c. rewrite E. case_decide; [by intros [= <-] |]. by apply (H b). Qed.

Lemma copied_bytes_mem m m' dst src n : bytes_mem m → copied m m' dst src n → bytes_mem m'.
Proof. intros H E b c. rewrite E. case_decide; intros Hc; by eapply H. Qed.

Lemma filled_outside m m' a n v :
  (∀ b, m' !! b = if decide (a ≤ b < a + n) then Some v else m !! b) → outside m m' a n.
Proof. intros E b Hb. rewrite E. by rewrite decide_False. Qed.

Lemma copied_outside m m' dst src n : copied m m' dst src n → outside m m' dst n.
Proof. intros E b Hb. rewrite E. by rewrite decide_False. Qed.

(** ** Runs of bytes, as a driver reads and writes them *)

Fixpoint read_bytes (n : nat) (m : mem) (a : Z) : outcome (list Z) :=
  match n with
  | O => Ok []
  | S n => b ← load m a; l ← read_bytes n m (a + 1); Ok (b :: l)
  end.

Fixpoint write_bytes (l : list Z) (m : mem) (a : Z) : outcome mem :=
  match l with
  | [] => Ok m
  | b :: l => m ← store m a b; write_bytes l m (a + 1)
  end.

(** The [n] bytes at [a], when they are mapped. *)
Definition bytes_from (m : mem) (a : Z) (n : nat) : list Z := (λ k, m !!! (a + Z.of_nat k)) <$> seq 0 n.

Lemma length_bytes_from m a n : length (bytes_from m a n) = n.
Proof. unfold bytes_from. by rewrite length_fmap, length_seq. Qed.

Lemma bytes_from_lookup m a n (k : nat) : (k < n)%nat → bytes_from m a n !! k = Some (m !!! (a + Z.of_nat k)).
Proof. intros. unfold bytes_from. by rewrite list_lookup_fmap, lookup_seq_lt by done. Qed.

Lemma bytes_from_S m a n : bytes_from m a (S n) = m !!! a :: bytes_from m (a + 1) n.
Proof.
  unfold bytes_from. cbn [seq fmap list_fmap]. rewrite Z.add_0_r. f_equal. rewrite <-seq_shift, <-list_fmap_compose.
  apply list_fmap_ext. intros i k _. cbn. f_equal. lia.
Qed.

Lemma bytes_from_byte m a n : bytes_mem m → Forall is_byte (bytes_from m a n).
Proof. intros H. apply Forall_fmap, Forall_true. intros k. by apply byte_total. Qed.

Lemma bytes_from_same m m' a n :
  (∀ b, a ≤ b < a + Z.of_nat n → m' !! b = m !! b) → bytes_from m' a n = bytes_from m a n.
Proof.
  intros H. apply list_eq. intros k. destruct (decide (k < n)%nat) as [Hk|Hk].
  - rewrite !bytes_from_lookup by done. rewrite !lookup_total_alt. by rewrite H by lia.
  - by rewrite !lookup_ge_None_2 by (rewrite length_bytes_from; lia).
Qed.

Lemma bytes_from_app m a n k : bytes_from m a (n + k) = bytes_from m a n ++ bytes_from m (a + Z.of_nat n) k.
Proof.
  revert a. induction n as [|n IH]; intros a; [by rewrite Z.add_0_r |].
  cbn [Nat.add]. rewrite !bytes_from_S, IH. cbn [app]. do 3 f_equal. lia.
Qed.

Lemma bytes_from_at m a l : bytes_at m a l → bytes_from m a (length l) = l.
Proof.
  intros H. apply list_eq. intros k. destruct (decide (k < length l)%nat) as [Hk|Hk].
  - rewrite bytes_from_lookup by done. destruct (lookup_lt_is_Some_2 l k Hk) as [c Hc]. rewrite Hc. f_equal.
    by apply lookup_total_correct, H.
  - by rewrite !lookup_ge_None_2 by (rewrite ?length_bytes_from; lia).
Qed.

Lemma read_bytes_ok n m a : mapped m a (Z.of_nat n) → read_bytes n m a = Ok (bytes_from m a n).
Proof.
  revert a. induction n as [|n IH]; intros a H; [done |]. cbn [read_bytes]. rewrite bytes_from_S.
  rewrite load_total by (apply H; lia). cbn [mbind outcome_bind]. rewrite IH; [done |]. eapply mapped_sub; [exact H | lia | lia].
Qed.

Lemma write_bytes_ok l m a :
  mapped m a (Z.of_nat (length l)) →
  ∃ m', write_bytes l m a = Ok m' ∧ bytes_at m' a l ∧ outside m m' a (Z.of_nat (length l)) ∧
    (∀ b, is_Some (m' !! b) ↔ is_Some (m !! b)) ∧ (bytes_mem m → Forall is_byte l → bytes_mem m').
Proof.
  revert m a. induction l as [|c l IH]; intros m a H; cbn [write_bytes length] in *.
  - exists m. split_and!; try done; apply bytes_at_nil.
  - rewrite store_ok by (apply H; lia). cbn [mbind outcome_bind].
    destruct (IH (<[a := c]> m) (a + 1)) as (m' & -> & Hat & Hout & Hs & Hb).
    { intros b Hb. rewrite lookup_insert_is_Some'. right. apply H. lia. }
    exists m'. split; [done |]. split_and!.
    + apply bytes_at_cons. split; [| done]. by rewrite Hout, lookup_insert_eq by lia.
    + intros b Hn. rewrite Hout by lia. apply lookup_insert_ne. lia.
    + intros b. rewrite Hs, lookup_insert_is_Some'. split; [intros [<-|?]; [apply H; lia | done] | by right].
    + intros Hm [Hc Hl]%Forall_cons. apply Hb; [by apply map_Forall_insert_2 | done].
Qed.
