(* ===== verification/Vaddr.v ===== *)
(** threads/vaddr.h and threads/pte.h: virtual addresses, pages, and page table
    entries.  Addresses and entries are 32-bit numbers. *)
From S2P Require Import Prelude.
Local Open Scope Z_scope.

(** ** Addresses *)

Definition BITMASK (shift cnt : Z) : Z := Z.shiftl (Z.shiftl 1 cnt - 1) shift.
Definition PGBITS : Z := 12.
Definition PGSIZE : Z := 4096.
Definition PGMASK : Z := BITMASK 0 PGBITS.
Definition PHYS_BASE : Z := 0xc0000000.

Definition pg_ofs (va : Z) : Z := Z.land va PGMASK.
Definition pg_no (va : Z) : Z := Z.shiftr va PGBITS.
Definition pg_round_up (va : Z) : Z := Z.land (u32 (va + PGSIZE - 1)) (u32 (Z.lnot PGMASK)).
Definition pg_round_down (va : Z) : Z := Z.land va (u32 (Z.lnot PGMASK)).

Definition is_user_vaddr (vaddr : Z) : bool := vaddr <? PHYS_BASE.
Definition is_kernel_vaddr (vaddr : Z) : bool := PHYS_BASE <=? vaddr.

Definition ptov (paddr : Z) : outcome Z :=
  assert_that (paddr <? PHYS_BASE);; Ok (u32 (paddr + PHYS_BASE)).
Definition vtop (vaddr : Z) : outcome Z :=
  assert_that (is_kernel_vaddr vaddr);; Ok (u32 (vaddr - PHYS_BASE)).

(** ** Page directory and page table entries *)

Definition PTBITS : Z := 10.
Definition PTSHIFT : Z := PGBITS.
Definition PTMASK : Z := BITMASK PTSHIFT PTBITS.
Definition PDSHIFT : Z := PTSHIFT + PTBITS.

Definition pt_no (va : Z) : Z := Z.shiftr (Z.land va PTMASK) PTSHIFT.
Definition pd_no (va : Z) : Z := Z.shiftr va PDSHIFT.

Definition PTE_FLAGS : Z := 0x00000fff.
Definition PTE_ADDR : Z := 0xfffff000.
Definition PTE_P : Z := 0x1.
Definition PTE_W : Z := 0x2.
Definition PTE_U : Z := 0x4.
Definition PTE_A : Z := 0x20.
Definition PTE_D : Z := 0x40.

Definition pde_create (pt : Z) : outcome Z :=
  assert_that (pg_ofs pt =? 0);; p ← vtop pt; Ok (Z.lor (Z.lor (Z.lor p PTE_U) PTE_P) PTE_W).
Definition pde_get_pt (pde : Z) : outcome Z :=
  assert_that (negb (Z.land pde PTE_P =? 0));; ptov (Z.land pde PTE_ADDR).
Definition pte_create_kernel (page : Z) (writable : bool) : outcome Z :=
  assert_that (pg_ofs page =? 0);;
  p ← vtop page; Ok (Z.lor (Z.lor p PTE_P) (if writable then PTE_W else 0)).
Definition pte_create_user (page : Z) (writable : bool) : outcome Z :=
  e ← pte_create_kernel page writable; Ok (Z.lor e PTE_U).
Definition pte_get_page (pte : Z) : outcome Z := ptov (Z.land pte PTE_ADDR).

(** ** Arithmetic of pages *)

Definition is_addr (va : Z) : Prop := 0 ≤ va < 4294967296.

Lemma pg_ofs_eq va : pg_ofs va = va `mod` 4096.
Proof. unfold pg_ofs. change PGMASK with (Z.ones 12). by rewrite Z.land_ones. Qed.

Lemma pg_no_eq va : pg_no va = va / 4096.
Proof. unfold pg_no, PGBITS. by rewrite Z.shiftr_div_pow2. Qed.

Lemma land_high va : is_addr va → Z.land va 0xfffff000 = va - va `mod` 4096.
Proof.
  unfold is_addr. intros Hva. change 0xfffff000 with (Z.shiftl (Z.ones 20) 12).
  assert (va = Z.shiftl (va / 4096) 12 + va `mod` 4096) as E.
  { rewrite Z.shiftl_mul_pow2 by lia. change (2 ^ 12) with 4096. pose proof (Z.div_mod va 4096). lia. }
  apply Z.bits_inj'. intros i Hi. rewrite Z.land_spec.
  assert (va - va `mod` 4096 = Z.shiftl (va / 4096) 12) as -> by lia.
  destruct (Z.lt_ge_cases i 12).
  - by rewrite !Z.shiftl_spec_low, andb_false_r by lia.
  - rewrite !Z.shiftl_spec_high by lia. change 4096 with (2 ^ 12). rewrite Z.div_pow2_bits by lia.
    replace (i - 12 + 12) with i by lia. destruct (Z.lt_ge_cases (i - 12) 20).
    + rewrite Z.ones_spec_low by lia. apply andb_true_r.
    + rewrite Z.ones_spec_high, andb_false_r by lia. symmetry.
      destruct (decide (va = 0)) as [-> |]; [apply Z.bits_0 |].
      apply Z.bits_above_log2; [lia |]. apply Z.log2_lt_pow2; [lia |].
      apply Z.lt_le_trans with (2 ^ 32); [lia |]. apply Z.pow_le_mono_r; lia.
Qed.

Lemma pg_round_down_eq va : is_addr va → pg_round_down va = va - va `mod` 4096.
Proof. apply land_high. Qed.

Lemma pg_round_up_eq va : is_addr (va + 4095) → pg_round_up va = (va + 4095) / 4096 * 4096.
Proof.
  unfold is_addr. intros Hva. unfold pg_round_up, PGSIZE. replace (va + 4096 - 1) with (va + 4095) by lia.
  rewrite u32_id by lia. change (u32 (Z.lnot PGMASK)) with 0xfffff000. rewrite land_high by (unfold is_addr; lia).
  pose proof (Z.div_mod (va + 4095) 4096). lia.
Qed.

Lemma ptov_vtop va : PHYS_BASE ≤ va < 4294967296 → vtop va = Ok (va - PHYS_BASE) ∧ ptov (va - PHYS_BASE) = Ok va.
Proof.
  unfold PHYS_BASE. intros H. unfold vtop, ptov, is_kernel_vaddr, PHYS_BASE.
  destruct (Z.leb_spec 0xc0000000 va); [| lia]. destruct (Z.ltb_spec (va - 0xc0000000) 0xc0000000); [| lia].
  cbn [assert_that mbind outcome_bind]. split; f_equal; rewrite u32_id; lia.
Qed.

(** Setting flag bits of a page-aligned address keeps the address. *)
Lemma land_lor_page p f : 0 ≤ p → p `mod` 4096 = 0 → 0 ≤ f < 4096 →
  Z.land p f = 0 ∧ Z.lor p f = p + f.
Proof.
  intros Hp0 Hp Hf. assert (Z.land p f = 0) as E.
  { apply Z.bits_inj'. intros i Hi. rewrite Z.land_spec, Z.bits_0.
    pose proof (Z.div_mod p 4096 ltac:(lia)) as Ed. rewrite Hp, Z.add_0_r, Z.mul_comm in Ed.
    change 4096 with (2 ^ 12) in Ed. destruct (Z.lt_ge_cases i 12).
    - by rewrite Ed, Z.mul_pow2_bits_low.
    - destruct (decide (f = 0)) as [-> |]; [by rewrite Z.bits_0, andb_false_r |].
      rewrite (Z.bits_above_log2 f), andb_false_r; [done | lia |].
      apply Z.log2_lt_pow2; [lia |]. apply Z.lt_le_trans with (2 ^ 12); [lia |]. apply Z.pow_le_mono_r; lia. }
  split; [done |]. pose proof (Z.add_lor_land p f). lia.
Qed.
