(* ===== verification/Palloc.v ===== *)
(** threads/palloc.c: the page allocator.  Two pools of pages, for the kernel
    and for user programs, each with a bitmap of the pages in use.

    The critical sections of [palloc_get_multiple] are single steps here: its
    lock lets one thread at a time into them (KernelThm.lock_mutual_exclusion).
    Page contents are bytes of a memory (CString.mem).  The build is the default
    one, without NDEBUG. *)
From S2P Require Import Prelude Bytes Bitmap CString CStringThm Vaddr.
Local Open Scope Z_scope.

(** ** The code *)

Definition PAL_ASSERT : Z := 1.
Definition PAL_ZERO : Z := 2.
Definition PAL_USER : Z := 4.

Definition has_flag (flags f : Z) : bool := negb (Z.land flags f =? 0).

Record pool := Pool { used_map : bitmap; base : Z }.

Record palloc_state := Palloc { kernel_pool : pool; user_pool : pool; memory : mem }.

(** [page_cnt] pages from [base] on; the pages at the start hold the bitmap.
    [words] is what the memory for the words of the bitmap contains. *)
Definition init_pool (base page_cnt : Z) (words : list Z) : outcome pool :=
  let bm_pages := u32 (bitmap_buf_size page_cnt + PGSIZE - 1) / PGSIZE in
  if page_cnt <? bm_pages then Err KernelPanic
  else
    let page_cnt := page_cnt - bm_pages in
    map ← bitmap_create_in_buf page_cnt words (bm_pages * PGSIZE);
    Ok (Pool map (base + bm_pages * PGSIZE)).

Definition palloc_init (init_ram_pages user_page_limit : Z) (kernel_words user_words : list Z) (m : mem)
    : outcome palloc_state :=
  free_start ← ptov (1024 * 1024);
  free_end ← ptov (u32 (init_ram_pages * PGSIZE));
  let free_pages := u32 (free_end - free_start) / PGSIZE in
  let user_pages := free_pages / 2 in
  let user_pages := if user_page_limit <? user_pages then user_page_limit else user_pages in
  let kernel_pages := free_pages - user_pages in
  k ← init_pool free_start kernel_pages kernel_words;
  u ← init_pool (free_start + kernel_pages * PGSIZE) user_pages user_words;
  Ok (Palloc k u m).

(** The pool a request is for, and the state with that pool replaced. *)
Definition pool_of (user : bool) (s : palloc_state) : pool := if user then user_pool s else kernel_pool s.
Definition set_pool (user : bool) (p : pool) (m : mem) (s : palloc_state) : palloc_state :=
  if user then Palloc (kernel_pool s) p m else Palloc p (user_pool s) m.

(** Returns the address of the pages, 0 for [NULL]. *)
Definition palloc_get_multiple (flags page_cnt : Z) (s : palloc_state) : outcome (Z * palloc_state) :=
  let user := has_flag flags PAL_USER in
  let pool := pool_of user s in
  if page_cnt =? 0 then Ok (0, s)
  else
    '(page_idx, map) ← bitmap_scan_and_flip (used_map pool) 0 page_cnt false;
    let s := set_pool user (Pool map (base pool)) (memory s) s in
    let pages := if page_idx =? BITMAP_ERROR then 0 else u32 (base pool + PGSIZE * page_idx) in
    if negb (pages =? 0) then
      if has_flag flags PAL_ZERO then
        '(_, m) ← memset (memory s) pages 0 (PGSIZE * page_cnt);
        Ok (pages, Palloc (kernel_pool s) (user_pool s) m)
      else Ok (pages, s)
    else if has_flag flags PAL_ASSERT then Err KernelPanic else Ok (pages, s).

Definition palloc_get_page (flags : Z) (s : palloc_state) : outcome (Z * palloc_state) :=
  palloc_get_multiple flags 1 s.

Definition page_from_pool (p : pool) (page : Z) : bool :=
  let page_no := pg_no page in
  let start_page := pg_no (base p) in
  let end_page := start_page + bitmap_size (used_map p) in
  (start_page <=? page_no) && (page_no <? end_page).

Definition palloc_free_multiple (pages page_cnt : Z) (s : palloc_state) : outcome palloc_state :=
  assert_that (pg_ofs pages =? 0);;
  if (pages =? 0) || (page_cnt =? 0) then Ok s
  else
    user ← (if page_from_pool (kernel_pool s) pages then Ok false
            else if page_from_pool (user_pool s) pages then Ok true else Err KernelPanic);
    let pool := pool_of user s in
    let page_idx := pg_no pages - pg_no (base pool) in
    '(_, m) ← memset (memory s) pages 0xcc (PGSIZE * page_cnt);
    used ← bitmap_all (used_map pool) page_idx page_cnt;
    assert_that used;;
    map ← bitmap_set_multiple (used_map pool) page_idx page_cnt false;
    Ok (set_pool user (Pool map (base pool)) m s).

Definition palloc_free_page (page : Z) (s : palloc_state) : outcome palloc_state :=
  palloc_free_multiple page 1 s.

(** ** The pages in use *)

(** Page [n] of a pool, as an address. *)
Definition page_addr (p : pool) (n : Z) : Z := base p + PGSIZE * n.

(** The pages of a pool are whole pages of mapped memory, and the bitmap has a
    bit for each. *)
Record pool_ok (m : mem) (p : pool) : Prop := {
  pool_bits : bitmap_ok (used_map p);
  pool_base : 0 < base p;
  pool_align : base p `mod` 4096 = 0;
  pool_end : base p + PGSIZE * bit_cnt (used_map p) ≤ 4294967296;
  pool_mapped : mapped m (base p) (PGSIZE * bit_cnt (used_map p))
}.

Record palloc_ok (s : palloc_state) : Prop := {
  kernel_pool_ok : pool_ok (memory s) (kernel_pool s);
  user_pool_ok : pool_ok (memory s) (user_pool s);
  pools_disjoint : disjoint_blocks (base (kernel_pool s)) (PGSIZE * bit_cnt (used_map (kernel_pool s)))
    (base (user_pool s)) (PGSIZE * bit_cnt (used_map (user_pool s)))
}.

(** The page at an address is allocated. *)
Definition in_use (s : palloc_state) (user : bool) (a : Z) : Prop :=
  ∃ n : nat, a = page_addr (pool_of user s) (Z.of_nat n) ∧ bits_of (used_map (pool_of user s)) !! n = Some true.

Lemma pool_of_ok s user : palloc_ok s → pool_ok (memory s) (pool_of user s).
Proof. intros Hs. destruct user; apply Hs. Qed.

Lemma pool_ok_mono m m' p :
  pool_ok m p → (∀ a, is_Some (m !! a) → is_Some (m' !! a)) → pool_ok m' p.
Proof. intros Hp Hm. split; try apply Hp. intros a Ha. by apply Hm, (pool_mapped _ _ Hp). Qed.

Lemma set_pool_ok user p m s :
  palloc_ok s → pool_ok m p → base p = base (pool_of user s) →
  bit_cnt (used_map p) = bit_cnt (used_map (pool_of user s)) →
  (∀ a, is_Some (memory s !! a) → is_Some (m !! a)) → palloc_ok (set_pool user p m s).
Proof.
  intros Hs Hp Hb Hc Hm. destruct user; cbn in *; split; cbn; try done;
    try (by eapply pool_ok_mono; [apply Hs |]); rewrite Hb, Hc; apply Hs.
Qed.

Lemma pool_of_set user user' p m s :
  pool_of user' (set_pool user p m s) = if decide (user' = user) then p else pool_of user' s.
Proof. by destruct user, user'. Qed.

Lemma memory_set user p m s : memory (set_pool user p m s) = m.
Proof. by destruct user. Qed.

Lemma in_use_pages s user n (b : bool) :
  bits_of (used_map (pool_of user s)) !! n = Some b →
  in_use s user (page_addr (pool_of user s) (Z.of_nat n)) ↔ b = true.
Proof.
  intros Hn. split; [| intros ->; by exists n].
  intros (k & E & Hk). assert (k = n) as -> by (unfold page_addr, PGSIZE in E; lia). congruence.
Qed.

(** Pages [i] to [i + cnt) of a pool set to [v]: the others keep their use. *)
Lemma in_use_fill s s' user map i cnt v :
  pool_of user s' = Pool map (base (pool_of user s)) →
  bits_of map = fill i cnt v (bits_of (used_map (pool_of user s))) →
  0 ≤ i → 0 ≤ cnt → i + cnt ≤ Z.of_nat (length (bits_of (used_map (pool_of user s)))) →
  ∀ a, in_use s' user a ↔
    (∃ k, 0 ≤ k < cnt ∧ a = page_addr (pool_of user s) (i + k)) ∧ v = true ∨
    in_use s user a ∧ ¬ ∃ k, 0 ≤ k < cnt ∧ a = page_addr (pool_of user s) (i + k).
Proof.
  intros Ep Eb Hi Hc Hl a. unfold in_use. rewrite Ep. cbn [used_map]. rewrite Eb.
  set (l := bits_of (used_map (pool_of user s))) in *. split.
  - intros (n & Ea & Hn). pose proof (lookup_lt_Some _ _ _ Hn) as Hlt.
    rewrite fill_length in Hlt by done. rewrite fill_lookup in Hn by done.
    case_decide.
    + left. split; [| congruence]. exists (Z.of_nat n - i). split; [lia |].
      by replace (i + (Z.of_nat n - i)) with (Z.of_nat n) by lia.
    + right. split; [by exists n |]. intros (k & Hk & E). unfold page_addr, PGSIZE in *. cbn [base] in Ea. lia.
  - intros [[(k & Hk & Ea) ->]|[(n & Ea & Hn) Hno]].
    + exists (Z.to_nat (i + k)). split; [by rewrite Z2Nat.id by lia |].
      rewrite fill_lookup by (done || lia). by rewrite decide_True by lia.
    + exists n. split; [done |]. pose proof (lookup_lt_Some _ _ _ Hn) as Hlt.
      rewrite fill_lookup by (done || lia). rewrite decide_False; [done |]. intros Hin. apply Hno.
      exists (Z.of_nat n - i). split; [lia |]. by replace (i + (Z.of_nat n - i)) with (Z.of_nat n) by lia.
Qed.

(** The pools are where they were and as large. *)
Definition same_pools (s s' : palloc_state) : Prop :=
  ∀ u, base (pool_of u s') = base (pool_of u s) ∧ bit_cnt (used_map (pool_of u s')) = bit_cnt (used_map (pool_of u s)).

(** ** Allocation *)

(** [cnt] pages from page [i] of a pool are free. *)
Definition free_run (s : palloc_state) (user : bool) (i cnt : Z) : Prop :=
  0 ≤ i ∧ i + cnt ≤ bit_cnt (used_map (pool_of user s)) ∧
  ∀ k, 0 ≤ k < cnt → ¬ in_use s user (page_addr (pool_of user s) (i + k)).

Lemma run_free s user i cnt :
  palloc_ok s → 0 ≤ i → 0 ≤ cnt → i + cnt ≤ bit_cnt (used_map (pool_of user s)) →
  run i cnt false (bits_of (used_map (pool_of user s))) ↔ free_run s user i cnt.
Proof.
  intros Hs Hi Hc Hl. set (p := pool_of user s) in *.
  pose proof (pool_bits _ _ (pool_of_ok s user Hs)) as [Hb _]. fold p in Hb.
  assert (length (bits_of (used_map p)) = Z.to_nat (bit_cnt (used_map p))) as Hlen by apply bits_of_length.
  unfold free_run, run, slice. fold p. split.
  - intros Hr. split_and!; [done | done |]. intros k Hk (n & E & Hn).
    assert (Z.of_nat n = i + k) by (unfold page_addr, PGSIZE in E; fold p in E; lia).
    assert (take (Z.to_nat cnt) (drop (Z.to_nat i) (bits_of (used_map p))) !! Z.to_nat k = Some true) as Ht.
    { rewrite lookup_take_lt, lookup_drop by lia. fold p in Hn. rewrite <-Hn. f_equal. lia. }
    rewrite Hr in Ht. apply lookup_replicate in Ht as [? _]. done.
  - intros (_ & _ & Hno). apply list_eq. intros j. destruct (decide (j < Z.to_nat cnt)%nat) as [Hj|Hj].
    2: { rewrite lookup_take_ge, lookup_ge_None_2; [done | rewrite length_replicate; lia | lia]. }
    rewrite lookup_take_lt, lookup_drop by done. rewrite lookup_replicate_2 by done.
    destruct (bits_of (used_map p) !! (Z.to_nat i + j)%nat) as [[|]|] eqn:E; [exfalso | done | exfalso].
    + apply (Hno (Z.of_nat j)); [lia |]. exists (Z.to_nat i + j)%nat. split; [| exact E].
      by replace (Z.of_nat (Z.to_nat i + j)) with (i + Z.of_nat j) by lia.
    + apply lookup_ge_None_1 in E. lia.
Qed.

(** The allocator's scan, in terms of pages. *)
Lemma scan_pool s user cnt :
  palloc_ok s → 0 < cnt < 4294967296 →
  (bitmap_scan_and_flip (used_map (pool_of user s)) 0 cnt false = Ok (BITMAP_ERROR, used_map (pool_of user s)) ∧
   ∀ i, ¬ free_run s user i cnt) ∨
  ∃ i map, bitmap_scan_and_flip (used_map (pool_of user s)) 0 cnt false = Ok (i, map) ∧ i ≠ BITMAP_ERROR ∧
    free_run s user i cnt ∧ (∀ j, j < i → ¬ free_run s user j cnt) ∧ bitmap_ok map ∧
    bit_cnt map = bit_cnt (used_map (pool_of user s)) ∧
    bits_of map = fill i cnt true (bits_of (used_map (pool_of user s))).
Proof.
  intros Hs Hc. pose proof (pool_of_ok s user Hs) as Hp. pose proof (pool_bits _ _ Hp) as Hb.
  pose proof Hb as [Hbc _]. destruct (bitmap_scan_ok (used_map (pool_of user s)) 0 cnt false) as (r & E & Hr);
    [done | lia | lia |]. unfold bitmap_scan_and_flip. rewrite E. cbn [mbind outcome_bind].
  destruct Hr as [[-> Hr]|(H1 & H2 & H3 & H4)]; [left | right].
  - split; [done |]. intros i Hf. pose proof Hf as (Hi & Hl & _). apply (Hr i); [done | done |].
    apply run_free; [done | done | lia | done | done].
  - destruct (Z.eqb_spec r BITMAP_ERROR); [unfold BITMAP_ERROR in *; lia |].
    destruct (bitmap_set_multiple_ok (used_map (pool_of user s)) r cnt (negb false)) as (map & -> & Hm1 & Hm2 & Hm3);
      [done | lia | lia | done |].
    exists r, map. split; [done |]. split; [done |]. split; [apply run_free; [done | done | lia | done | done] |].
    split; [| done]. intros j Hj Hf. pose proof Hf as (Hj0 & Hjl & _). apply (H4 j); [lia |].
    apply run_free; [done | done | lia | done | done].
Qed.

(** [pages] is [cnt] pages of a pool starting at page [i]. *)
Definition block_of (s : palloc_state) (user : bool) (i pages : Z) : Prop :=
  pages = page_addr (pool_of user s) i.

Lemma palloc_get_ok flags cnt s :
  palloc_ok s → 0 < cnt < 4294967296 →
  let user := has_flag flags PAL_USER in
  (palloc_get_multiple flags cnt s = (if has_flag flags PAL_ASSERT then Err KernelPanic else Ok (0, s)) ∧
   ∀ i, ¬ free_run s user i cnt) ∨
  ∃ i pages s', palloc_get_multiple flags cnt s = Ok (pages, s') ∧ palloc_ok s' ∧
    free_run s user i cnt ∧ (∀ j, j < i → ¬ free_run s user j cnt) ∧
    pages = page_addr (pool_of user s) i ∧ 0 < pages ∧ pg_ofs pages = 0 ∧
    (∀ a, in_use s' user a ↔ (∃ k, 0 ≤ k < cnt ∧ a = pages + PGSIZE * k) ∨ in_use s user a) ∧
    pool_of (negb user) s' = pool_of (negb user) s ∧
    (∀ a, memory s' !! a =
      if decide (has_flag flags PAL_ZERO ∧ pages ≤ a < pages + PGSIZE * cnt) then Some 0 else memory s !! a) ∧
    same_pools s s'.
Proof.
  intros Hs Hc user. unfold palloc_get_multiple. fold user. destruct (Z.eqb_spec cnt 0); [lia |].
  pose proof (pool_of_ok s user Hs) as Hp. pose proof (pool_bits _ _ Hp) as [Hbc _].
  destruct (scan_pool s user cnt Hs Hc) as [[-> Hno]|(i & map & -> & Hi & Hf & Hfirst & Hm & Hmc & Hmb)];
    cbn [mbind outcome_bind].
  - left. split; [| done]. cbn [Z.eqb negb]. rewrite Z.eqb_refl. cbn [Z.eqb negb].
    destruct (has_flag flags PAL_ASSERT); [done |]. do 2 f_equal. destruct s as [k u m], user; cbn; by destruct k, u.
  - right. destruct (Z.eqb_spec i BITMAP_ERROR); [done |].
    pose proof Hf as (Hi0 & Hil & Hnot). pose proof (pool_end _ _ Hp) as He. pose proof (pool_base _ _ Hp) as Hb.
    pose proof (pool_align _ _ Hp) as Hal. unfold PGSIZE in *.
    set (pages := base (pool_of user s) + 4096 * i). rewrite u32_id by nia. fold pages.
    destruct (Z.eqb_spec pages 0); [lia |]. cbn [negb].
    set (s1 := set_pool user (Pool map (base (pool_of user s))) (memory s) s).
    assert (palloc_ok s1) as Hs1.
    { apply set_pool_ok; [done | | done | done | done]. split; cbn; rewrite ?Hmc; try apply Hp; done. }
    assert (∀ a, in_use s1 user a ↔ (∃ k, 0 ≤ k < cnt ∧ a = pages + 4096 * k) ∨ in_use s user a) as Huse.
    { intros a. rewrite (in_use_fill s s1 user map i cnt true); [| | done | done | lia |].
      2: { unfold s1. rewrite pool_of_set. by rewrite decide_True. }
      2: { rewrite bits_of_length. lia. }
      assert ((∃ k, 0 ≤ k < cnt ∧ a = page_addr (pool_of user s) (i + k)) ↔ ∃ k, 0 ≤ k < cnt ∧ a = pages + 4096 * k) as <-.
      { subst pages. unfold page_addr, PGSIZE. split; intros (k & Hk & Ek); exists k; lia. }
      assert (in_use s user a → ¬ ∃ k, 0 ≤ k < cnt ∧ a = page_addr (pool_of user s) (i + k)) as Hx
        by (intros Hu (k & Hk & ->); by apply (Hnot k)).
      tauto. }
    assert (mapped (memory s1) pages (4096 * cnt)) as Hmap.
    { unfold s1. rewrite memory_set. intros a Ha. apply (pool_mapped _ _ Hp). unfold PGSIZE. lia. }
    assert (pg_ofs pages = 0) as Hofs.
    { rewrite pg_ofs_eq. subst pages. by rewrite (Z.mul_comm 4096), Z_mod_plus_full. }
    assert (pool_of (negb user) s1 = pool_of (negb user) s) as Hother.
    { unfold s1. rewrite pool_of_set. by rewrite decide_False by (by destruct user). }
    assert (same_pools s s1) as Hsame.
    { intros u. unfold s1. rewrite pool_of_set. by case_decide as Eu; [rewrite <-Eu in * |]; subst; cbn. }
    destruct (has_flag flags PAL_ZERO) eqn:Ez.
    + destruct (memset_ok (memory s1) pages 0 (4096 * cnt)) as (m' & -> & Hm'); [lia | lia | done |].
      cbn [mbind outcome_bind]. exists i, pages, (Palloc (kernel_pool s1) (user_pool s1) m').
      split; [done |]. split.
      { assert (∀ a, is_Some (memory s1 !! a) → is_Some (m' !! a)) as Hmono by (intros a Ha; rewrite Hm'; by case_decide).
        split; cbn; try apply Hs1; eapply pool_ok_mono; try exact Hmono; apply Hs1. }
      split; [done |]. split; [done |]. split; [done |]. split; [lia |]. split; [done |].
      split; [| split; [| split; [| by intros u; destruct (Hsame u); destruct u]]].
      * intros a. rewrite <-Huse. unfold in_use. by destruct user.
      * rewrite <-Hother. by destruct user.
      * intros a. cbn [memory]. rewrite Hm'. unfold s1. rewrite memory_set.
        repeat case_decide; naive_solver.
    + exists i, pages, s1. split; [done |]. split; [done |]. split; [done |]. split; [done |]. split; [done |].
      split; [lia |]. split; [done |]. split; [done |]. split; [done |]. split; [| done].
      intros a. unfold s1. rewrite memory_set. by rewrite decide_False by naive_solver.
Qed.

(** C19: [palloc_get_multiple] returns the first run of contiguous free pages of
    the pool asked for, or fails (null, or a panic under [PAL_ASSERT]) exactly
    when there is none and then changes nothing.  The pages returned were not
    in use and now are; no other page of either pool changes use, so no two
    live allocations share a page; with [PAL_ZERO] they are zero, and no other
    memory changes. *)
Theorem palloc_get_correct flags cnt s :
  palloc_ok s → 0 < cnt < 4294967296 →
  let user := has_flag flags PAL_USER in
  (palloc_get_multiple flags cnt s = (if has_flag flags PAL_ASSERT then Err KernelPanic else Ok (0, s)) ∧
   ∀ i, ¬ free_run s user i cnt) ∨
  ∃ i pages s', palloc_get_multiple flags cnt s = Ok (pages, s') ∧ palloc_ok s' ∧
    free_run s user i cnt ∧ (∀ j, j < i → ¬ free_run s user j cnt) ∧
    pages = page_addr (pool_of user s) i ∧ 0 < pages ∧ pg_ofs pages = 0 ∧
    (∀ a, in_use s' user a ↔ (∃ k, 0 ≤ k < cnt ∧ a = pages + PGSIZE * k) ∨ in_use s user a) ∧
    pool_of (negb user) s' = pool_of (negb user) s ∧
    ∀ a, memory s' !! a =
      if decide (has_flag flags PAL_ZERO ∧ pages ≤ a < pages + PGSIZE * cnt) then Some 0 else memory s !! a.
Proof.
  intros Hs Hc user. destruct (palloc_get_ok flags cnt s Hs Hc) as [?|(i & pages & s' & H)]; [by left | right].
  exists i, pages, s'. tauto.
Qed.

(** ** Freeing *)

Lemma page_from_pool_spec m p page :
  pool_ok m p → pg_ofs page = 0 →
  page_from_pool p page = true ↔ ∃ n, 0 ≤ n < bit_cnt (used_map p) ∧ page = page_addr p n.
Proof.
  intros Hp Ho. rewrite pg_ofs_eq in Ho. pose proof (pool_align _ _ Hp) as Ha.
  unfold page_from_pool, page_addr, PGSIZE, bitmap_size. rewrite !pg_no_eq.
  rewrite andb_true_iff, Z.leb_le, Z.ltb_lt.
  assert (page = 4096 * (page / 4096)) as Epg by (Z.to_euclidean_division_equations; lia).
  assert (base p = 4096 * (base p / 4096)) as Eb by (Z.to_euclidean_division_equations; lia).
  split.
  - intros [H1 H2]. exists (page / 4096 - base p / 4096). split; [lia |]. lia.
  - intros (n & Hn & E). assert (page / 4096 = base p / 4096 + n) by lia. lia.
Qed.

Lemma page_index m p n : pool_ok m p → pg_no (page_addr p n) - pg_no (base p) = n ∧ pg_ofs (page_addr p n) = 0.
Proof.
  intros Hp. pose proof (pool_align _ _ Hp) as Ha. rewrite !pg_no_eq, pg_ofs_eq. unfold page_addr, PGSIZE.
  rewrite (Z.mul_comm 4096), Z_mod_plus_full, Z.div_add by lia. lia.
Qed.

(** The pool that [palloc_free_multiple] finds is the page's pool. *)
Lemma find_pool s user i :
  palloc_ok s → 0 ≤ i < bit_cnt (used_map (pool_of user s)) →
  let pages := page_addr (pool_of user s) i in
  (if page_from_pool (kernel_pool s) pages then Ok false
   else if page_from_pool (user_pool s) pages then Ok true else Err KernelPanic) = Ok user.
Proof.
  intros Hs Hi pages. pose proof (pool_of_ok s user Hs) as Hp. destruct (page_index _ _ i Hp) as [_ Ho]. fold pages in Ho.
  pose proof (pools_disjoint _ Hs) as Hd. unfold disjoint_blocks, PGSIZE in Hd.
  assert (page_from_pool (pool_of user s) pages = true) as Hin.
  { eapply page_from_pool_spec; [done | done |]. by exists i. }
  destruct user; cbn [pool_of] in *; [| by rewrite Hin]. destruct (page_from_pool (kernel_pool s) pages) eqn:Ek; [| by rewrite Hin].
  exfalso. apply (page_from_pool_spec (memory s)) in Ek as (n & Hn & E); [| apply Hs | done].
  unfold pages, page_addr, PGSIZE in E. lia.
Qed.

Lemma all_in_use s user i cnt :
  palloc_ok s → 0 ≤ i → 0 ≤ cnt → i + cnt ≤ bit_cnt (used_map (pool_of user s)) →
  ∃ b, bitmap_all (used_map (pool_of user s)) i cnt = Ok b ∧
    (b = true ↔ ∀ k, 0 ≤ k < cnt → in_use s user (page_addr (pool_of user s) (i + k))).
Proof.
  intros Hs Hi Hc Hl. pose proof (pool_bits _ _ (pool_of_ok s user Hs)) as Hb. pose proof Hb as [Hbc _].
  set (map := used_map (pool_of user s)) in *. unfold bitmap_all.
  rewrite bitmap_contains_ok by done. cbn [mbind outcome_bind]. eexists. split; [done |].
  rewrite negb_true_iff. rewrite (existsb_run i cnt true (bits_of map)) by (done || rewrite bits_of_length; lia).
  unfold run, slice. split.
  - intros Hr k Hk. exists (Z.to_nat (i + k)). split; [by rewrite Z2Nat.id by lia |]. fold map.
    assert (take (Z.to_nat cnt) (drop (Z.to_nat i) (bits_of map)) !! Z.to_nat k = Some true) as Ht
      by (rewrite Hr; apply lookup_replicate_2; lia).
    rewrite lookup_take_lt, lookup_drop in Ht by lia. rewrite <-Ht. f_equal. lia.
  - intros Hu. apply list_eq. intros j. destruct (decide (j < Z.to_nat cnt)%nat) as [Hj|Hj].
    2: { rewrite lookup_take_ge, lookup_ge_None_2; [done | rewrite length_replicate; lia | lia]. }
    rewrite lookup_take_lt, lookup_drop, lookup_replicate_2 by done.
    destruct (Hu (Z.of_nat j)) as (n & E & Hn); [lia |]. fold map in Hn. rewrite <-Hn. f_equal.
    unfold page_addr, PGSIZE in E. lia.
Qed.

Lemma palloc_free_ok s user i cnt :
  palloc_ok s → 0 ≤ i → 0 < cnt → i + cnt ≤ bit_cnt (used_map (pool_of user s)) →
  let pages := page_addr (pool_of user s) i in
  let page a := ∃ k, 0 ≤ k < cnt ∧ a = pages + PGSIZE * k in
  ((∀ a, page a → in_use s user a) →
   ∃ s', palloc_free_multiple pages cnt s = Ok s' ∧ palloc_ok s' ∧
     (∀ a, in_use s' user a ↔ in_use s user a ∧ ¬ page a) ∧
     pool_of (negb user) s' = pool_of (negb user) s ∧
     (∀ a, memory s' !! a = if decide (pages ≤ a < pages + PGSIZE * cnt) then Some 0xcc else memory s !! a) ∧
     same_pools s s') ∧
  ((∃ a, page a ∧ ¬ in_use s user a) → palloc_free_multiple pages cnt s = Err AssertFail) ∧
  (∀ b n, 0 < b → pg_ofs b = 0 → n ≠ 0 →
    (∀ u k, 0 ≤ k < bit_cnt (used_map (pool_of u s)) → b ≠ page_addr (pool_of u s) k) →
    palloc_free_multiple b n s = Err KernelPanic) ∧
  (∀ b n, pg_ofs b ≠ 0 → palloc_free_multiple b n s = Err AssertFail).
Proof.
  intros Hs Hi Hc Hl pages page. pose proof (pool_of_ok s user Hs) as Hp.
  pose proof (pool_base _ _ Hp) as Hb. pose proof (pool_bits _ _ Hp) as [Hbc _].
  destruct (page_index _ _ i Hp) as [Hidx Ho]. fold pages in Hidx, Ho.
  assert (∀ a, page a ↔ ∃ k, 0 ≤ k < cnt ∧ a = page_addr (pool_of user s) (i + k)) as Hpage.
  { intros a. unfold page, pages, page_addr, PGSIZE. split; intros (k & Hk & ->); exists k; lia. }
  destruct (all_in_use s user i cnt Hs Hi ltac:(lia) Hl) as (b & Eb & Hball).
  assert (mapped (memory s) pages (PGSIZE * cnt)) as Hmap.
  { intros a Ha. apply (pool_mapped _ _ Hp). unfold pages, page_addr, PGSIZE in *. lia. }
  assert (0 < pages) as Hpos by (unfold pages, page_addr, PGSIZE; lia).
  destruct (memset_ok (memory s) pages 0xcc (PGSIZE * cnt)) as (m' & Em & Hm'); [done | unfold PGSIZE; lia | done |].
  assert (palloc_free_multiple pages cnt s =
    (assert_that b;; map ← bitmap_set_multiple (used_map (pool_of user s)) i cnt false;
     Ok (set_pool user (Pool map (base (pool_of user s))) m' s))) as Efree.
  { unfold palloc_free_multiple. rewrite Ho. cbn [Z.eqb assert_that mbind outcome_bind].
    destruct (Z.eqb_spec pages 0); [lia |]. destruct (Z.eqb_spec cnt 0); [lia |]. cbn [orb].
    pose proof (find_pool s user i Hs ltac:(lia)) as Ef. fold pages in Ef. cbv zeta in Ef. rewrite Ef.
    cbn [mbind outcome_bind].
    rewrite Em. cbn [mbind outcome_bind]. rewrite Hidx, Eb. done. }
  split; [| split; [| split]].
  - intros Hall. assert (b = true) as ->.
    { apply Hball. intros k Hk. apply Hall, Hpage. by exists k. }
    destruct (bitmap_set_multiple_ok (used_map (pool_of user s)) i cnt false) as (map & Es & Hm1 & Hm2 & Hm3);
      [apply Hp | done | lia | done |].
    rewrite Efree, Es. cbn [assert_that mbind outcome_bind]. eexists. split; [done |].
    assert (∀ a, is_Some (memory s !! a) → is_Some (m' !! a)) as Hmono by (intros a Ha; rewrite Hm'; by case_decide).
    split; [| split; [| split; [| split]]].
    + apply set_pool_ok; [done | | done | done | done].
      eapply pool_ok_mono; [| exact Hmono]. split; cbn; rewrite ?Hm2; try apply Hp; done.
    + intros a. rewrite (in_use_fill s _ user map i cnt false); [| by rewrite pool_of_set, decide_True | done | done | lia |].
      2: { rewrite bits_of_length. lia. }
      rewrite (Hpage a). naive_solver.
    + rewrite pool_of_set. by rewrite decide_False by (by destruct user).
    + intros a. rewrite memory_set, Hm'. done.
    + intros u. rewrite pool_of_set. by case_decide; [subst u |].
  - intros (a & Ha & Hno). rewrite Efree. destruct b; [exfalso | done].
    apply Hpage in Ha as (k & Hk & ->). by apply Hno, Hball.
  - intros c n Hc0 Hco Hn Hnone. unfold palloc_free_multiple. rewrite Hco. cbn [Z.eqb assert_that mbind outcome_bind].
    destruct (Z.eqb_spec c 0); [lia |]. destruct (Z.eqb_spec n 0); [lia |]. cbn [orb].
    assert (∀ u, page_from_pool (pool_of u s) c = false) as Hf.
    { intros u. apply not_true_iff_false. intros Ht.
      apply (page_from_pool_spec (memory s)) in Ht as (k & Hk & E); [| by apply pool_of_ok | done]. by apply (Hnone u k). }
    pose proof (Hf false) as Hfk. pose proof (Hf true) as Hfu. cbn [pool_of] in Hfk, Hfu. by rewrite Hfk, Hfu.
  - intros c n Hco. unfold palloc_free_multiple. by destruct (Z.eqb_spec (pg_ofs c) 0).
Qed.

(** C20: [palloc_free_multiple] takes back exactly the pages it is given: pages
    of one pool that are all in use become free, are filled with 0xcc, and no
    other page of either pool changes use; freeing a page that is not in use
    (a double free) fails an assertion, an address in no pool panics, and a
    misaligned one fails an assertion.  So freeing what [palloc_get_multiple]
    has just returned restores the pages in use. *)
Theorem palloc_free_correct s user i cnt :
  palloc_ok s → 0 ≤ i → 0 < cnt → i + cnt ≤ bit_cnt (used_map (pool_of user s)) →
  let pages := page_addr (pool_of user s) i in
  let page a := ∃ k, 0 ≤ k < cnt ∧ a = pages + PGSIZE * k in
  ((∀ a, page a → in_use s user a) →
   ∃ s', palloc_free_multiple pages cnt s = Ok s' ∧ palloc_ok s' ∧
     (∀ a, in_use s' user a ↔ in_use s user a ∧ ¬ page a) ∧
     pool_of (negb user) s' = pool_of (negb user) s ∧
     ∀ a, memory s' !! a = if decide (pages ≤ a < pages + PGSIZE * cnt) then Some 0xcc else memory s !! a) ∧
  ((∃ a, page a ∧ ¬ in_use s user a) → palloc_free_multiple pages cnt s = Err AssertFail) ∧
  (∀ b n, 0 < b → pg_ofs b = 0 → n ≠ 0 →
    (∀ u k, 0 ≤ k < bit_cnt (used_map (pool_of u s)) → b ≠ page_addr (pool_of u s) k) →
    palloc_free_multiple b n s = Err KernelPanic) ∧
  (∀ b n, pg_ofs b ≠ 0 → palloc_free_multiple b n s = Err AssertFail).
Proof.
  intros Hs Hi Hc Hl pages page. destruct (palloc_free_ok s user i cnt Hs Hi Hc Hl) as (H1 & H2 & H3 & H4).
  split; [| done]. intros Hall. destruct (H1 Hall) as (s' & H). exists s'. tauto.
Qed.

(** *** A machine with two pools of eight pages *)

Definition example_pool (b : Z) : pool := Pool (Bitmap 8 [0]) b.

(** Memory where every address below 2^18 from 2^16 on is mapped would be large
    to evaluate; the witnesses only need that the pages are mapped. *)
Definition example_palloc : palloc_state :=
  Palloc (example_pool 4096) (example_pool 65536) (gset_to_gmap 0 (list_to_set (seqZ 4096 32768) ∪ list_to_set (seqZ 65536 32768))).

Lemma example_palloc_ok : palloc_ok example_palloc.
Proof.
  assert (∀ b, (b = 4096 ∨ b = 65536) → pool_ok (memory example_palloc) (example_pool b)) as H.
  { intros b Hb. split.
    - split; [cbn; lia |]. split; [done |]. by repeat constructor.
    - destruct Hb as [-> | ->]; done.
    - destruct Hb as [-> | ->]; done.
    - destruct Hb as [-> | ->]; done.
    - intros a Ha. cbn [memory example_palloc]. unfold PGSIZE in Ha. cbn [example_pool base used_map bit_cnt] in Ha.
      exists 0. apply lookup_gset_to_gmap_Some. split; [| done].
      rewrite elem_of_union, !elem_of_list_to_set, !elem_of_seqZ. lia. }
  split; [apply H; by left | apply H; by right | left; done].
Qed.

Lemma example_unused user a : ¬ in_use example_palloc user a.
Proof.
  assert (used_map (pool_of user example_palloc) = Bitmap 8 [0]) as Em by (by destruct user).
  intros (n & _ & Hn). rewrite Em in Hn.
  change (bits_of (Bitmap 8 [0])) with (replicate 8 false) in Hn. by apply lookup_replicate in Hn as [? _].
Qed.

Lemma palloc_get_correct_witness :
  ∃ pages s', palloc_get_multiple 4 3 example_palloc = Ok (pages, s') ∧ pages = 65536 ∧ in_use s' true 65536.
Proof.
  destruct (palloc_get_correct 4 3 example_palloc example_palloc_ok ltac:(lia))
    as [[_ Hno]|(i & pages & s' & E & _ & Hf & Hfirst & -> & _ & _ & Hu & _)].
  - exfalso. apply (Hno 0). split; [done |]. split; [done |].
    intros k _. apply example_unused.
  - assert (i = 0) as ->.
    { destruct Hf as (Hi & Hil & _). destruct (Z.lt_total 0 i) as [Hlt|[|]]; [| done | lia]. exfalso.
      apply (Hfirst 0 Hlt). split; [done |]. split; [done |].
      intros k _. apply example_unused. }
    exists 65536, s'. split; [exact E |]. split; [done |]. apply Hu. left. exists 0. done.
Defined.

(** No page is in use, so freeing one is an error. *)
Lemma palloc_free_correct_witness : palloc_free_multiple 8192 2 example_palloc = Err AssertFail.
Proof.
  destruct (palloc_free_correct example_palloc false 1 2 example_palloc_ok ltac:(lia) ltac:(lia) ltac:(cbn; lia))
    as (_ & H & _). apply H. exists 8192.
  split; [exists 0; split; [lia | reflexivity] |].
  apply example_unused.
Defined.

(** ** Initialization *)

(** The pages a pool of [page_cnt] pages keeps for its bitmap. *)
Definition bitmap_pages (page_cnt : Z) : Z := u32 (bitmap_buf_size page_cnt + PGSIZE - 1) / PGSIZE.

Lemma byte_cnt_bound n : 0 ≤ n ≤ 1048576 → bitmap_buf_size n = 8 + 4 * ((n + 31) / 32) ∧ 0 ≤ (n + 31) / 32 ≤ 32769.
Proof.
  intros Hn. assert (0 ≤ (n + 31) / 32 ≤ 32769) as Hb by (Z.to_euclidean_division_equations; lia).
  split; [| done]. unfold bitmap_buf_size, byte_cnt. rewrite elem_cnt_eq by lia. rewrite !u32_id; rewrite ?u32_id; lia.
Qed.

Lemma init_pool_ok m b page_cnt words :
  0 < b → b `mod` 4096 = 0 → 0 < page_cnt ≤ 1048576 → b + 4096 * page_cnt ≤ 4294967296 →
  mapped m b (4096 * page_cnt) → words_for (page_cnt - bitmap_pages page_cnt) words →
  bitmap_pages page_cnt ≤ page_cnt →
  ∃ p, init_pool b page_cnt words = Ok p ∧ pool_ok m p ∧ base p = b + 4096 * bitmap_pages page_cnt ∧
    bit_cnt (used_map p) = page_cnt - bitmap_pages page_cnt ∧ ∀ n, bits_of (used_map p) !! n ≠ Some true.
Proof.
  intros Hb Hal Hc He Hm Hw Hle. unfold init_pool. fold (bitmap_pages page_cnt).
  destruct (byte_cnt_bound page_cnt) as [Ebuf Hdiv]; [lia |].
  set (n := bitmap_pages page_cnt) in *.
  assert (n = (8 + 4 * ((page_cnt + 31) / 32) + 4095) / 4096 ∧ 1 ≤ n) as [En Hn1].
  { subst n. unfold bitmap_pages, PGSIZE. rewrite Ebuf.
    replace (8 + 4 * ((page_cnt + 31) / 32) + 4096 - 1) with (8 + 4 * ((page_cnt + 31) / 32) + 4095) by lia.
    rewrite u32_id by lia. split; [done |]. apply Z.div_le_lower_bound; lia. }
  destruct (Z.ltb_spec page_cnt n); [lia |]. unfold bitmap_create_in_buf.
  destruct (byte_cnt_bound (page_cnt - n)) as [Ebuf2 _]; [lia |]. rewrite Ebuf2.
  destruct (Z.leb_spec (8 + 4 * ((page_cnt - n + 31) / 32)) (n * PGSIZE)) as [_|Hbad].
  2: { exfalso. assert ((page_cnt - n + 31) / 32 ≤ (page_cnt + 31) / 32) by (apply Z.div_le_mono; lia).
       unfold PGSIZE in Hbad.
       assert (8 + 4 * ((page_cnt + 31) / 32) ≤ n * 4096)
         by (rewrite En; generalize (8 + 4 * ((page_cnt + 31) / 32)); intros; Z.to_euclidean_division_equations; lia).
       lia. }
  cbn [assert_that mbind outcome_bind]. destruct Hw as [Hw1 Hw2].
  destruct (bitmap_set_all_ok (Bitmap (page_cnt - n) words) false) as (map & -> & H1 & H2 & H3);
    [by split_and!; cbn; try lia |].
  cbn [mbind outcome_bind bit_cnt] in *. eexists. split; [done |]. cbn [base used_map]. unfold PGSIZE in *.
  split; [split; cbn [base used_map]; rewrite ?H2; unfold PGSIZE |].
  - done.
  - lia.
  - by rewrite Z_mod_plus_full.
  - lia.
  - intros a Ha. apply Hm. lia.
  - split; [lia |]. split; [done |]. intros k Hk. rewrite H3 in Hk. by apply lookup_replicate in Hk as [? _].
Qed.

(** [palloc_init] divides the free memory above the first megabyte into the
    two pools: for any amount of memory up to the 64 MB that the loader counts,
    the pools are well formed and disjoint and no page is in use. *)
Theorem palloc_init_correct ram limit kwords uwords m :
  let free := ram - 256 in
  let user := Z.min limit (free / 2) in
  let kernel := free - user in
  256 < ram ≤ 16384 → 0 < user →
  bitmap_pages kernel ≤ kernel → bitmap_pages user ≤ user →
  words_for (kernel - bitmap_pages kernel) kwords → words_for (user - bitmap_pages user) uwords →
  mapped m 0xc0100000 (4096 * free) →
  ∃ s, palloc_init ram limit kwords uwords m = Ok s ∧ palloc_ok s ∧ (∀ u a, ¬ in_use s u a) ∧
    bit_cnt (used_map (kernel_pool s)) = kernel - bitmap_pages kernel ∧
    bit_cnt (used_map (user_pool s)) = user - bitmap_pages user.
Proof.
  intros free user kernel Hram Hu Hbk Hbu Hwk Hwu Hm. unfold palloc_init.
  change (ptov (1024 * 1024)) with (Ok 0xc0100000). cbn [mbind outcome_bind].
  unfold PGSIZE. rewrite (u32_id (ram * 4096)) by lia.
  assert (ptov (ram * 4096) = Ok (ram * 4096 + PHYS_BASE)) as ->.
  { unfold ptov, PHYS_BASE. destruct (Z.ltb_spec (ram * 4096) 0xc0000000); [| lia].
    cbn [assert_that mbind outcome_bind]. f_equal. apply u32_id. lia. }
  cbn [mbind outcome_bind]. unfold PHYS_BASE. rewrite u32_id by lia.
  replace (ram * 4096 + 0xc0000000 - 0xc0100000) with (free * 4096) by (subst free; lia).
  rewrite Z.div_mul by lia.
  assert ((if limit <? free / 2 then limit else free / 2) = user) as ->
    by (subst user; destruct (Z.ltb_spec limit (free / 2)); lia).
  fold kernel. assert (0 < kernel ∧ user + kernel = free) as [Hk Huk].
  { subst kernel user. assert (free / 2 < free) by (apply Z.div_lt; lia). lia. }
  destruct (init_pool_ok m 0xc0100000 kernel kwords) as (pk & -> & Hpk & Hbase & Hcnt & Hno);
    [lia | done | lia | lia | intros a Ha; apply Hm; lia | done | done |].
  cbn [mbind outcome_bind].
  destruct (init_pool_ok m (0xc0100000 + kernel * 4096) user uwords) as (pu & -> & Hpu & Hbase2 & Hcnt2 & Hno2);
    [lia | by rewrite Z_mod_plus_full | lia | lia | intros a Ha; apply Hm; lia | done | done |].
  cbn [mbind outcome_bind]. eexists. split; [done |]. split; [| split; [| done]].
  - split; [done | done |]. left. cbn. rewrite Hbase, Hbase2, Hcnt. unfold PGSIZE.
    assert (0 ≤ bitmap_pages user) by (unfold bitmap_pages, PGSIZE; apply Z.div_pos; [apply u32_range | lia]). lia.
  - intros [|] a (n & _ & Hn); [by apply (Hno2 n) | by apply (Hno n)].
Qed.

(** Ten free pages: four for users, one of them for their bitmap. *)
Lemma palloc_init_correct_witness :
  ∃ s, palloc_init 266 4 [7] [7] (gset_to_gmap 0 (list_to_set (seqZ 0xc0100000 40960))) = Ok s ∧ palloc_ok s ∧
    bit_cnt (used_map (user_pool s)) = 3.
Proof.
  destruct (palloc_init_correct 266 4 [7] [7] (gset_to_gmap 0 (list_to_set (seqZ 0xc0100000 40960)))) as (s & E & Hs & _ & _ & Hu).
  - lia.
  - reflexivity.
  - vm_compute. congruence.
  - vm_compute. congruence.
  - split; [reflexivity | by repeat constructor].
  - split; [reflexivity | by repeat constructor].
  - intros a Ha. exists 0. apply lookup_gset_to_gmap_Some. split; [| done].
    apply elem_of_list_to_set, elem_of_seqZ. cbn in Ha. lia.
  - exists s. split; [exact E |]. split; [exact Hs |]. rewrite Hu. reflexivity.
Defined.
