(* ===== verification/PageMem.v ===== *)
(** Single pages of the allocator, in the form its clients in userprog/ and vm/
    use: which pages are in use, and what of memory a call leaves alone. *)
From S2P Require Import Prelude Bytes Bitmap CString CStringThm Words Vaddr Palloc.
Local Open Scope Z_scope.

(** The allocator's pools, in the kernel's mapping of the first [ram] pages of
    physical memory. *)
Record pages_ok (ram : Z) (p : palloc_state) : Prop := {
  pages_palloc : palloc_ok p;
  pages_bytes : bytes_mem (memory p);
  pages_ram u : PHYS_BASE ≤ base (pool_of u p) ∧
    base (pool_of u p) + PGSIZE * bit_cnt (used_map (pool_of u p)) ≤ PHYS_BASE + PGSIZE * ram;
  ram_fits : ram ≤ 262144;
}.

(** The byte is outside page [a]. *)
Definition off_page (a b : Z) : Prop := ¬ a ≤ b < a + PGSIZE.

Lemma in_use_page ram p u a :
  pages_ok ram p → in_use p u a →
  PHYS_BASE ≤ a ∧ a `mod` 4096 = 0 ∧ a + 4096 ≤ PHYS_BASE + 4096 * ram ∧ a + 4096 ≤ 4294967296 ∧
  mapped (memory p) a 4096.
Proof.
  intros Hp (n & -> & Hn). apply lookup_lt_Some in Hn. rewrite bits_of_length in Hn.
  pose proof (pool_of_ok p u (pages_palloc _ _ Hp)) as Ho. destruct (pages_ram _ _ Hp u) as [H1 H2].
  pose proof (pool_end _ _ Ho). pose proof (pool_align _ _ Ho) as Hal. unfold page_addr, PGSIZE in *.
  split; [lia |]. split; [by rewrite Z.mul_comm, Z_mod_plus_full |]. split; [lia |]. split; [lia |].
  intros b Hb. apply (pool_mapped _ _ Ho). unfold PGSIZE. lia.
Qed.

Lemma pools_apart ram p a b :
  pages_ok ram p → in_use p false a → in_use p true b → a + 4096 ≤ b ∨ b + 4096 ≤ a.
Proof.
  intros Hp (n & -> & Hn) (k & -> & Hk). apply lookup_lt_Some in Hn, Hk. rewrite bits_of_length in Hn, Hk.
  pose proof (pools_disjoint _ (pages_palloc _ _ Hp)) as Hd. unfold disjoint_blocks, page_addr, PGSIZE in *.
  cbn [pool_of] in *. lia.
Qed.

Lemma pages_apart a b : a `mod` 4096 = 0 → b `mod` 4096 = 0 → a ≠ b → a + 4096 ≤ b ∨ b + 4096 ≤ a.
Proof. intros. Z.to_euclidean_division_equations. lia. Qed.

(** Two pages in use do not overlap. *)
Lemma used_apart ram p u v a b :
  pages_ok ram p → in_use p u a → in_use p v b → (u, a) ≠ (v, b) → a + 4096 ≤ b ∨ b + 4096 ≤ a.
Proof.
  intros Hp Ha Hb Hn. destruct (decide (u = v)) as [-> |].
  - destruct (in_use_page _ _ _ _ Hp Ha) as (_ & Ha' & _), (in_use_page _ _ _ _ Hp Hb) as (_ & Hb' & _).
    apply pages_apart; [done | done | congruence].
  - destruct u, v; try done; [pose proof (pools_apart _ _ _ _ Hp Hb Ha); lia | by eapply pools_apart].
Qed.

Lemma used_pool ram p u v a : pages_ok ram p → in_use p u a → in_use p v a → u = v.
Proof.
  intros Hp Ha Hb. destruct (decide (u = v)); [done |].
  destruct (used_apart _ _ u v a a Hp Ha Hb) as [|]; [congruence | lia | lia].
Qed.

(** A store changes no pool. *)
Definition set_memory (m : mem) (p : palloc_state) : palloc_state := Palloc (kernel_pool p) (user_pool p) m.

Lemma in_use_set_memory m p u a : in_use (set_memory m p) u a ↔ in_use p u a.
Proof. by destruct u. Qed.

Lemma pages_ok_set_memory ram m p :
  pages_ok ram p → bytes_mem m → (∀ a, is_Some (memory p !! a) → is_Some (m !! a)) → pages_ok ram (set_memory m p).
Proof.
  intros Hp Hm Hs. split; [| done | intros u; destruct (pages_ram _ _ Hp u); by destruct u | by apply Hp].
  split; cbn; try apply (pages_palloc _ _ Hp); (eapply pool_ok_mono; [apply (pages_palloc _ _ Hp) | done]).
Qed.

(** *** Allocating and freeing a page *)

Definition page_free (p : palloc_state) (u : bool) : Prop := ∃ i, free_run p u i 1.

Lemma same_pools_refl p : same_pools p p.
Proof. done. Qed.

Lemma same_pools_trans p q r : same_pools p q → same_pools q r → same_pools p r.
Proof. intros H1 H2 u. destruct (H1 u) as [E1 E2], (H2 u) as [E3 E4]. split; congruence. Qed.

Lemma same_pools_memory m p : same_pools p (set_memory m p).
Proof. by intros []. Qed.

Lemma page_free_mono p p' u : same_pools p p' → (∀ b, in_use p' u b → in_use p u b) → page_free p u → page_free p' u.
Proof.
  intros Hs Hu (i & H1 & H2 & H3). destruct (Hs u) as [Eb Ec]. exists i. split; [done |]. rewrite Ec. split; [done |].
  intros k Hk Hin. apply (H3 k Hk). apply Hu in Hin. unfold page_addr in *. by rewrite <-Eb.
Qed.

(** [p'] is [p] with page [a] of the pool allocated. *)
Record page_got (ram flags a : Z) (p p' : palloc_state) : Prop := {
  pg_ok : pages_ok ram p';
  pg_new : ∀ u, ¬ in_use p u a;
  pg_page : in_use p' (has_flag flags PAL_USER) a;
  pg_old u b : in_use p' u b ↔ in_use p u b ∨ (u = has_flag flags PAL_USER ∧ b = a);
  pg_other b : off_page a b → memory p' !! b = memory p !! b;
  pg_zero b : has_flag flags PAL_ZERO = true → ¬ off_page a b → memory p' !! b = Some 0;
  pg_pools : same_pools p p';
}.

(** How many pages of the pool are free. *)
Definition free_count (p : palloc_state) (u : bool) : Z :=
  Z.of_nat (length (filter (λ b, b = false) (bits_of (used_map (pool_of u p))))).

Lemma filter_insert_true (l : list bool) n :
  l !! n = Some false →
  length (filter (λ b, b = false) l) = S (length (filter (λ b, b = false) (<[n := true]> l))).
Proof.
  revert n. induction l as [|b l IH]; intros [|n]; cbn [lookup list_lookup]; [done | done | |].
  - intros [= ->]. cbn [insert list_insert]. by rewrite filter_cons_True, filter_cons_False.
  - intros Hn. cbn [insert list_insert]. rewrite !filter_cons. case_decide; cbn [length]; by rewrite (IH n Hn).
Qed.

Lemma in_use_bit p u n : in_use p u (page_addr (pool_of u p) (Z.of_nat n)) ↔ bits_of (used_map (pool_of u p)) !! n = Some true.
Proof.
  split; [| by exists n]. intros (k & E & Hk). assert (n = k) as -> by (unfold page_addr, PGSIZE in E; lia). done.
Qed.

Lemma free_count_set_memory m p u : free_count (set_memory m p) u = free_count p u.
Proof. by destruct u. Qed.

Lemma page_free_count p u : page_free p u ↔ 0 < free_count p u.
Proof.
  unfold page_free, free_count. set (l := bits_of (used_map (pool_of u p))). split.
  - intros (i & H0 & H1 & Hno). assert (l !! Z.to_nat i = Some false) as Hl.
    { destruct (lookup_lt_is_Some_2 l (Z.to_nat i)) as [[|] E]; [unfold l; rewrite bits_of_length; lia | | done].
      exfalso. apply (Hno 0); [lia |]. replace (i + 0) with (Z.of_nat (Z.to_nat i)) by lia. by apply in_use_bit. }
    pose proof (filter_insert_true l (Z.to_nat i) Hl). lia.
  - intros Hc. destruct (filter (λ b, b = false) l) as [|b q] eqn:E; [done |].
    assert (b ∈ filter (λ b, b = false) l) as [-> Hb]%list_elem_of_filter by (rewrite E; left).
    apply list_elem_of_lookup in Hb as [n Hn]. exists (Z.of_nat n). pose proof (lookup_lt_Some _ _ _ Hn) as Hl.
    unfold l in Hl. rewrite bits_of_length in Hl. split; [lia |]. split; [lia |].
    intros k Hk. assert (k = 0) as -> by lia. rewrite Z.add_0_r, in_use_bit. fold l. congruence.
Qed.

Lemma page_got_count ram flags a p p' :
  page_got ram flags a p p' →
  let u := has_flag flags PAL_USER in free_count p u = free_count p' u + 1.
Proof.
  intros G u. destruct (pg_page _ _ _ _ _ G) as (n & Ea & Hn). fold u in Ea, Hn.
  destruct (pg_pools _ _ _ _ _ G u) as [Eb Ec].
  set (l := bits_of (used_map (pool_of u p))). set (l' := bits_of (used_map (pool_of u p'))) in *.
  assert (length l = length l') as Hlen by (unfold l, l'; by rewrite !bits_of_length, Ec).
  assert (∀ k, page_addr (pool_of u p') k = page_addr (pool_of u p) k) as Ead by (intros; unfold page_addr; by rewrite Eb).
  rewrite Ead in Ea. pose proof (lookup_lt_Some _ _ _ Hn) as Hnl.
  assert (l !! n = Some false) as Hf.
  { destruct (lookup_lt_is_Some_2 l n) as [[|] E]; [lia | | done].
    exfalso. apply (pg_new _ _ _ _ _ G u). rewrite Ea. by apply in_use_bit. }
  assert (l' = <[n := true]> l) as El.
  { apply list_eq_same_length with (length l'); [by rewrite length_insert | done |].
    intros k x y Hk Hx Hy. destruct (decide (k = n)) as [-> |Hne].
    - rewrite list_lookup_insert_eq in Hy by lia. congruence.
    - rewrite list_lookup_insert_ne in Hy by done.
      assert (x = true ↔ y = true) as Hxy; [| destruct x, y; naive_solver].
      pose proof (pg_old _ _ _ _ _ G u (page_addr (pool_of u p) (Z.of_nat k))) as Hold.
      rewrite <-Ead in Hold at 1. rewrite !in_use_bit in Hold. fold l l' in Hold. rewrite Hx, Hy in Hold.
      assert (page_addr (pool_of u p) (Z.of_nat k) ≠ a) by (rewrite Ea; unfold page_addr, PGSIZE; lia).
      naive_solver. }
  unfold free_count. fold l l'. rewrite (filter_insert_true l n Hf), <-El. lia.
Qed.

Lemma same_pools_ok ram p p' :
  pages_ok ram p → palloc_ok p' → bytes_mem (memory p') → same_pools p p' → pages_ok ram p'.
Proof.
  intros Hp Hp' Hb Hs. split; [done | done | | by apply Hp]. intros u. destruct (Hs u) as [-> ->]. by apply Hp.
Qed.

Lemma free_run_lone p u i a : palloc_ok p → free_run p u i 1 → a = page_addr (pool_of u p) i → ∀ v, ¬ in_use p v a.
Proof.
  intros Hp (H0 & H1 & Hn) -> v Hv. destruct (decide (v = u)) as [-> |].
  - apply (Hn 0); [lia |]. by rewrite Z.add_0_r.
  - destruct Hv as (k & E & Hb). apply lookup_lt_Some in Hb. rewrite bits_of_length in Hb.
    pose proof (pools_disjoint _ Hp) as Hd. unfold disjoint_blocks, page_addr, PGSIZE in *.
    destruct u, v; try done; cbn [pool_of] in *; lia.
Qed.

Lemma get_page_ok ram flags p :
  pages_ok ram p →
  let user := has_flag flags PAL_USER in
  (palloc_get_page flags p = (if has_flag flags PAL_ASSERT then Err KernelPanic else Ok (0, p)) ∧
   ¬ page_free p user) ∨
  ∃ a p', palloc_get_page flags p = Ok (a, p') ∧ 0 < a ∧ page_free p user ∧ page_got ram flags a p p'.
Proof.
  intros Hp user. unfold palloc_get_page.
  destruct (palloc_get_ok flags 1 p (pages_palloc _ _ Hp) ltac:(lia)) as [[E Hn]|(i & a & p' & E & Hp' & Hr & _ & Ea & Ha & _ & Hu & Ho & Hm & Hs)].
  - left. rewrite E. split; [done |]. intros [i Hi]. by apply (Hn i).
  - right. exists a, p'. split; [done |]. split; [done |]. split; [by exists i |]. fold user in Hu, Ho, Hr.
    pose proof (free_run_lone _ _ _ a (pages_palloc _ _ Hp) Hr Ea) as Hno. rewrite Z.mul_1_r in Hm.
    assert (∀ v b, in_use p' v b ↔ in_use p v b ∨ v = user ∧ b = a) as Huse.
    { intros v b. destruct (decide (v = user)) as [-> |Hv].
      - rewrite Hu. split; [intros [(k & Hk & ->)|?]; [right; split; [done | assert (k = 0) as -> by lia; lia] | by left] |].
        intros [?|[_ ->]]; [by right | left; exists 0; lia].
      - assert (v = negb user) as -> by (by destruct v, user). unfold in_use. rewrite Ho. naive_solver. }
    split; [| exact Hno | apply Huse; by right | exact Huse | | | exact Hs].
    + eapply same_pools_ok; [done | done | | done]. intros b c. rewrite Hm.
      case_decide; [intros [= <-]; unfold is_byte; lia |]. by apply (pages_bytes _ _ Hp b).
    + intros b Hb. rewrite Hm, decide_False; [done |]. unfold off_page in Hb. tauto.
    + intros b Hz Hb. rewrite Hm, decide_True; [done |]. split; [by rewrite Hz |]. unfold off_page in Hb.
      destruct (decide (a ≤ b < a + PGSIZE)); [done | by contradict Hb].
Qed.

Lemma free_page_ok ram p u a :
  pages_ok ram p → in_use p u a →
  ∃ p', palloc_free_page a p = Ok p' ∧ pages_ok ram p' ∧ (∀ v b, in_use p' v b ↔ in_use p v b ∧ b ≠ a) ∧
    (∀ b, off_page a b → memory p' !! b = memory p !! b) ∧ same_pools p p'.
Proof.
  intros Hp Hu. pose proof Hu as (n & Ea & Hn). apply lookup_lt_Some in Hn as Hl. rewrite bits_of_length in Hl.
  destruct (palloc_free_ok p u (Z.of_nat n) 1 (pages_palloc _ _ Hp) ltac:(lia) ltac:(lia) ltac:(lia)) as [Hfree _].
  rewrite <-Ea in Hfree. destruct Hfree as (p' & E & Hp' & Huse & Ho & Hm & Hs).
  { intros b (k & Hk & ->). assert (k = 0) as -> by lia. by rewrite Z.mul_0_r, Z.add_0_r. }
  rewrite Z.mul_1_r in Hm. exists p'. split; [done |]. split; [| split; [| split; [| exact Hs]]].
  - eapply same_pools_ok; [done | done | | done]. intros b c. rewrite Hm.
    case_decide; [intros [= <-]; unfold is_byte; lia |]. by apply (pages_bytes _ _ Hp b).
  - intros v b. destruct (decide (v = u)) as [-> |Hv].
    + rewrite Huse. split; intros [H1 H2]; (split; [done |]).
      * intros ->. apply H2. exists 0. lia.
      * intros (k & Hk & ->). apply H2. assert (k = 0) as -> by lia. lia.
    + assert (v = negb u) as -> by (by destruct v, u). unfold in_use at 1. rewrite Ho.
      split; [| by intros []]. intros H. split; [done |]. intros ->. apply Hv. symmetry. by eapply used_pool.
  - intros b Hb. by rewrite Hm, decide_False.
Qed.
