(* ===== verification/Pagedir.v ===== *)
(** userprog/pagedir.c and [paging_init] of threads/init.c: two-level page
    tables in kernel memory.

    The processor's part, which is not C code, is small: [cr3], the translation
    cache (TLB), which a write to [cr3] empties, and [mmu_access], one access of
    a program to a user address. *)
From S2P Require Import Prelude Bytes CString CStringThm Words Vaddr Palloc PageMem.
Local Open Scope Z_scope.

Record machine := Machine { pal : palloc_state; cr3 : Z; tlb : gmap Z Z; init_page_dir : Z }.

Abbreviation PM := (ST machine).

Definition set_pal (p : palloc_state) (s : machine) : machine := Machine p (cr3 s) (tlb s) (init_page_dir s).

(** ** Memory and the allocator *)

Definition ld (a : Z) : PM Z := λ s, w ← load_word (memory (pal s)) a; Ok (w, s).
Definition st (a v : Z) : PM unit := λ s,
  m ← store_word (memory (pal s)) a v; Ok (tt, set_pal (set_memory m (pal s)) s).
Definition get_page (flags : Z) : PM Z := λ s,
  '(a, p) ← palloc_get_page flags (pal s); Ok (a, set_pal p s).
Definition free_page (a : Z) : PM unit := λ s, p ← palloc_free_page a (pal s); Ok (tt, set_pal p s).

(** ** The processor *)

(** [movl %0, %%cr3] *)
Definition load_cr3 (v : Z) : PM unit := st_modify (λ s, Machine (pal s) v ∅ (init_page_dir s)).

(** Does the entry let a program read, or write, the page? *)
Definition allows (e : Z) (write : bool) : bool :=
  has_flag e PTE_P && has_flag e PTE_U && (negb write || has_flag e PTE_W).

(** The processor walks the tables, sets the accessed and dirty bits there and
    caches the entry.  [None] is a page fault. *)
Definition mmu_walk (va : Z) (write : bool) : PM (option Z) :=
  s ← st_get;
  pd ← st_lift (ptov (Z.land (cr3 s) PTE_ADDR));
  pde ← ld (pd + 4 * pd_no va);
  if negb (has_flag pde PTE_P) then mret None
  else
    pt ← st_lift (ptov (Z.land pde PTE_ADDR));
    pte ← ld (pt + 4 * pt_no va);
    if allows pte write then
      st (pd + 4 * pd_no va) (Z.lor pde PTE_A);;
      let pte := Z.lor pte (if write then Z.lor PTE_A PTE_D else PTE_A) in
      st (pt + 4 * pt_no va) pte;;
      st_modify (λ s, Machine (pal s) (cr3 s) (<[pg_no va := pte]> (tlb s)) (init_page_dir s));;
      page ← st_lift (pte_get_page pte); mret (Some (page + pg_ofs va))
    else mret None.

(** A cached entry serves an access when the page's accessed bit, and for a
    write its dirty bit, is already set in it. *)
Definition mmu_access (va : Z) (write : bool) : PM (option Z) :=
  s ← st_get;
  match tlb s !! pg_no va with
  | Some pte =>
      if allows pte write && has_flag pte PTE_A && (negb write || has_flag pte PTE_D)
      then page ← st_lift (pte_get_page pte); mret (Some (page + pg_ofs va))
      else mmu_walk va write
  | None => mmu_walk va write
  end.

(** ** userprog/pagedir.c *)

Definition pagedir_activate (pd : Z) : PM unit :=
  s ← st_get;
  p ← st_lift (vtop (if pd =? 0 then init_page_dir s else pd));
  load_cr3 p.

Definition active_pd : PM Z := s ← st_get; st_lift (ptov (cr3 s)).

Definition invalidate_pagedir (pd : Z) : PM unit :=
  a ← active_pd; if a =? pd then pagedir_activate pd else mret tt.

Definition pagedir_create : PM Z :=
  pd ← get_page 0;
  if negb (pd =? 0) then
    s ← st_get;
    r ← st_lift (memcpy (memory (pal s)) pd (init_page_dir s) PGSIZE);
    st_put (set_pal (set_memory r.2 (pal s)) s);; mret pd
  else mret pd.

(** The inner loop of [pagedir_destroy], from entry [pte] on, [n] entries left. *)
Fixpoint destroy_ptes (n : nat) (pte : Z) : PM unit :=
  match n with
  | O => mret tt
  | S n =>
      e ← ld pte;
      (if has_flag e PTE_P then page ← st_lift (pte_get_page e); free_page page else mret tt);;
      destroy_ptes n (pte + 4)
  end.

Fixpoint destroy_pdes (n : nat) (pde : Z) : PM unit :=
  match n with
  | O => mret tt
  | S n =>
      e ← ld pde;
      (if has_flag e PTE_P then
         pt ← st_lift (pde_get_pt e); destroy_ptes (Z.to_nat (PGSIZE / 4)) pt;; free_page pt
       else mret tt);;
      destroy_pdes n (pde + 4)
  end.

Definition pagedir_destroy (pd : Z) : PM unit :=
  if pd =? 0 then mret tt
  else
    s ← st_get;
    st_assert (negb (pd =? init_page_dir s));;
    destroy_pdes (Z.to_nat (pd_no PHYS_BASE)) pd;; free_page pd.

(** The address of the entry, 0 for [NULL]. *)
Definition lookup_page (pd vaddr : Z) (create : bool) : PM Z :=
  st_assert (negb (pd =? 0));;
  st_assert (negb create || is_user_vaddr vaddr);;
  let pde := pd + 4 * pd_no vaddr in
  e ← ld pde;
  present ←
    (if e =? 0 then
       if create then
         pt ← get_page PAL_ZERO;
         if pt =? 0 then mret false else d ← st_lift (pde_create pt); st pde d;; mret true
       else mret false
     else mret true);
  if (present : bool) then e ← ld pde; pt ← st_lift (pde_get_pt e); mret (pt + 4 * pt_no vaddr) else mret 0.

Section ram.
Context (init_ram_pages : Z).

Definition pagedir_set_page (pd upage kpage : Z) (writable : bool) : PM bool :=
  st_assert (pg_ofs upage =? 0);;
  st_assert (pg_ofs kpage =? 0);;
  st_assert (is_user_vaddr upage);;
  p ← st_lift (vtop kpage);
  st_assert (Z.shiftr p PTSHIFT <? init_ram_pages);;
  s ← st_get;
  st_assert (negb (pd =? init_page_dir s));;
  pte ← lookup_page pd upage true;
  if negb (pte =? 0) then
    e ← ld pte;
    st_assert (negb (has_flag e PTE_P));;
    e ← st_lift (pte_create_user kpage writable);
    st pte e;; mret true
  else mret false.
End ram.

(** Returns 0 for [NULL]. *)
Definition pagedir_get_page (pd uaddr : Z) : PM Z :=
  st_assert (is_user_vaddr uaddr);;
  pte ← lookup_page pd uaddr false;
  e ← (if negb (pte =? 0) then ld pte else mret 0);
  if negb (pte =? 0) && has_flag e PTE_P then page ← st_lift (pte_get_page e); mret (page + pg_ofs uaddr)
  else mret 0.

Definition pagedir_clear_page (pd upage : Z) : PM unit :=
  st_assert (pg_ofs upage =? 0);;
  st_assert (is_user_vaddr upage);;
  pte ← lookup_page pd upage false;
  e ← (if negb (pte =? 0) then ld pte else mret 0);
  if negb (pte =? 0) && has_flag e PTE_P then
    st pte (Z.land e (u32 (Z.lnot PTE_P)));; invalidate_pagedir pd
  else mret tt.

(** [pagedir_is_dirty] and [pagedir_is_accessed] test one bit each; so do the
    two functions that set them. *)
Definition is_bit (bit pd vpage : Z) : PM bool :=
  pte ← lookup_page pd vpage false;
  if negb (pte =? 0) then e ← ld pte; mret (has_flag e bit) else mret false.

Definition set_bit (bit pd vpage : Z) (value : bool) : PM unit :=
  pte ← lookup_page pd vpage false;
  if negb (pte =? 0) then
    e ← ld pte;
    if value then st pte (Z.lor e bit)
    else st pte (Z.land e (u32 (Z.lnot bit)));; invalidate_pagedir pd
  else mret tt.

Definition pagedir_is_dirty : Z → Z → PM bool := is_bit PTE_D.
Definition pagedir_set_dirty : Z → Z → bool → PM unit := set_bit PTE_D.
Definition pagedir_is_accessed : Z → Z → PM bool := is_bit PTE_A.
Definition pagedir_set_accessed : Z → Z → bool → PM unit := set_bit PTE_A.

(** ** [paging_init] of threads/init.c *)

(** The loop, from page [page] on, [n] pages left; [pt] is the last table.
    [text_start] and [text_end] are the linker's [_start] and
    [_end_kernel_text]. *)
Fixpoint paging_loop (text_start text_end : Z) (n : nat) (page pd pt : Z) : PM unit :=
  match n with
  | O => mret tt
  | S n =>
      let paddr := u32 (page * PGSIZE) in
      vaddr ← st_lift (ptov paddr);
      let in_kernel_text := (text_start <=? vaddr) && (vaddr <? text_end) in
      e ← ld (pd + 4 * pd_no vaddr);
      pt ←
        (if e =? 0 then
           pt ← get_page (PAL_ASSERT + PAL_ZERO);
           d ← st_lift (pde_create pt); st (pd + 4 * pd_no vaddr) d;; mret pt
         else mret pt);
      e ← st_lift (pte_create_kernel vaddr (negb in_kernel_text));
      st (pt + 4 * pt_no vaddr) e;;
      paging_loop text_start text_end n (page + 1) pd pt
  end.

Definition paging_init (text_start text_end init_ram_pages : Z) : PM unit :=
  pd ← get_page (PAL_ASSERT + PAL_ZERO);
  st_modify (λ s, Machine (pal s) (cr3 s) (tlb s) pd);;
  paging_loop text_start text_end (Z.to_nat init_ram_pages) 0 pd 0;;
  s ← st_get;
  p ← st_lift (vtop (init_page_dir s));
  load_cr3 p.
