(* ===== verification/PagedirThm.v ===== *)
(** Correctness of the page tables: they implement, for each page directory, a
    map from user pages to frames with their permissions and the accessed and
    dirty bits; and the processor's cache of them is never stale. *)
From S2P Require Import Prelude Bytes Bitmap CString CStringThm Words Vaddr Palloc PageMem Pagedir.
Local Open Scope Z_scope.

(** ** Entries *)

(** What an entry says of a user page.  The accessed and dirty bits outlive
    [pagedir_clear_page], which clears [m_present] only. *)
Record mapping := Mapping { m_page : Z; m_present : bool; m_writable : bool; m_accessed : bool; m_dirty : bool }.

#[export] Instance mapping_eq_dec : EqDecision mapping.
Proof. solve_decision. Defined.

Definition mapping_flags (x : mapping) : Z :=
  Z.b2z (m_present x) + 2 * Z.b2z (m_writable x) + 4 + 32 * Z.b2z (m_accessed x) + 64 * Z.b2z (m_dirty x).

Definition encode (x : mapping) : Z := m_page x - PHYS_BASE + mapping_flags x.

Definition encode_slot (o : option mapping) : Z := match o with Some x => encode x | None => 0 end.

Definition frame_ok (a : Z) : Prop := PHYS_BASE ≤ a ∧ a + 4096 ≤ 4294967296 ∧ a `mod` 4096 = 0.

Definition mapping_ok (x : mapping) : Prop := frame_ok (m_page x).

Lemma split_land p f g : 0 ≤ p → p `mod` 4096 = 0 → 0 ≤ f < 4096 → 0 ≤ g →
  Z.land (p + f) g = Z.land p g + Z.land f g.
Proof.
  intros Hp Hm Hf Hg. destruct (land_lor_page p f Hp Hm Hf) as [E <-].
  rewrite Z.add_nocarry_lxor.
  - rewrite Z.land_lor_distr_l. apply Z.bits_inj'. intros i Hi.
    assert (Z.testbit (Z.land p f) i = false) as Eb by by rewrite E, Z.bits_0.
    rewrite Z.land_spec in Eb. rewrite Z.lor_spec, Z.lxor_spec, !Z.land_spec.
    by destruct (Z.testbit p i), (Z.testbit f i), (Z.testbit g i).
  - apply Z.bits_inj'. intros i Hi. assert (Z.testbit (Z.land p f) i = false) as Eb by by rewrite E, Z.bits_0.
    rewrite Z.land_spec in Eb. rewrite !Z.land_spec, Z.bits_0.
    by destruct (Z.testbit p i), (Z.testbit f i), (Z.testbit g i).
Qed.

Lemma flag_land p f g : 0 ≤ p → p `mod` 4096 = 0 → 0 ≤ f < 4096 → 0 ≤ g < 4096 → Z.land (p + f) g = Z.land f g.
Proof.
  intros. rewrite split_land by lia. destruct (land_lor_page p g) as [-> _]; [done.. |]. lia.
Qed.

Lemma flag_lor p f g : 0 ≤ p → p `mod` 4096 = 0 → 0 ≤ f < 4096 → 0 ≤ g < 4096 → Z.lor (p + f) g = p + Z.lor f g.
Proof.
  intros Hp Hm Hf Hg. destruct (land_lor_page p f Hp Hm Hf) as [_ <-]. rewrite <-Z.lor_assoc.
  apply land_lor_page; [done | done |]. split; [apply Z.lor_nonneg; lia |].
  destruct (decide (Z.lor f g = 0)) as [-> |]; [lia |].
  change 4096 with (2 ^ 12). assert (0 ≤ Z.lor f g) by (apply Z.lor_nonneg; lia).
  apply Z.log2_lt_pow2; [lia |]. rewrite Z.log2_lor by lia.
  apply Z.max_lub_lt; (destruct (decide (f = 0)) as [-> |]; destruct (decide (g = 0)) as [-> |];
    try (apply Z.log2_lt_pow2; lia); cbn; lia).
Qed.

Lemma page_land p g : 0 ≤ p < 4294967296 → p `mod` 4096 = 0 → 0 ≤ g < 4096 → Z.land p (4294967295 - g) = p.
Proof.
  intros Hp Hm Hg. destruct (land_lor_page p g) as [E _]; [lia | done | done |].
  assert (4294967295 - g = Z.ldiff (Z.ones 32) g) as ->.
  { rewrite Z.sub_nocarry_ldiff; [done |]. change 4294967295 with (Z.ones 32). rewrite Z.ldiff_ones_r by lia.
    rewrite Z.shiftr_div_pow2, Z.div_small by lia. apply Z.shiftl_0_l. }
  apply Z.bits_inj'. intros i Hi. assert (Z.testbit (Z.land p g) i = false) as Eb by by rewrite E, Z.bits_0.
  rewrite Z.land_spec in Eb. rewrite Z.land_spec, Z.ldiff_spec.
  destruct (Z.testbit p i) eqn:Ep; [| done]. cbn in *. rewrite Eb. destruct (Z.lt_ge_cases i 32).
  - by rewrite Z.ones_spec_low by lia.
  - rewrite Z.bits_above_log2 in Ep; [done | lia |]. destruct (decide (p = 0)) as [-> |]; [cbn; lia |].
    apply Z.log2_lt_pow2; [lia |]. apply Z.lt_le_trans with (2 ^ 32); [lia |]. apply Z.pow_le_mono_r; lia.
Qed.

Lemma mapping_flags_range x : 0 ≤ mapping_flags x < 4096.
Proof. destruct x as [? [] [] [] []]; by vm_compute. Qed.

Section entry.
Context (x : mapping) (Hx : mapping_ok x).

Lemma entry_base : 0 ≤ m_page x - PHYS_BASE < 4294967296 ∧ (m_page x - PHYS_BASE) `mod` 4096 = 0.
Proof using Hx.
  destruct Hx as (H1 & H2 & H3). unfold PHYS_BASE in *. split; [lia |].
  change 0xc0000000 with (786432 * 4096). by rewrite Zminus_mod, H3, Z_mod_mult.
Qed.

Lemma encode_range : 0 ≤ encode x < 4294967296.
Proof using Hx.
  pose proof (mapping_flags_range x). destruct entry_base as [H1 _], Hx as (? & ? & ?). unfold encode, PHYS_BASE in *. lia.
Qed.

Lemma encode_bit g : 0 ≤ g < 4096 → has_flag (encode x) g = has_flag (mapping_flags x) g.
Proof using Hx.
  intros Hg. destruct entry_base. unfold has_flag, encode.
  by rewrite flag_land by (done || lia || apply mapping_flags_range).
Qed.

Lemma encode_bits :
  has_flag (encode x) PTE_P = m_present x ∧ has_flag (encode x) PTE_W = m_writable x ∧
  has_flag (encode x) PTE_U = true ∧ has_flag (encode x) PTE_A = m_accessed x ∧ has_flag (encode x) PTE_D = m_dirty x.
Proof using Hx.
  rewrite !encode_bit by done. clear Hx. by destruct x as [? [] [] [] []].
Qed.

Lemma encode_lor g : 0 ≤ g < 4096 → Z.lor (encode x) g = m_page x - PHYS_BASE + Z.lor (mapping_flags x) g.
Proof using Hx.
  intros Hg. destruct entry_base. unfold encode. by rewrite flag_lor by (done || lia || apply mapping_flags_range).
Qed.

Lemma encode_land g : 0 ≤ g < 4096 →
  Z.land (encode x) (u32 (Z.lnot g)) = m_page x - PHYS_BASE + Z.land (mapping_flags x) (4294967295 - g).
Proof using Hx.
  intros Hg. destruct entry_base. unfold encode.
  assert (u32 (Z.lnot g) = 4294967295 - g) as ->.
  { unfold Z.lnot, wrap_u. change (2 ^ 32) with 4294967296.
    rewrite <-(Z_mod_plus_full _ 1), Z.mod_small by lia. lia. }
  rewrite split_land by (done || lia || apply mapping_flags_range). by rewrite page_land by done.
Qed.

Lemma encode_page : pte_get_page (encode x) = Ok (m_page x).
Proof using Hx.
  destruct entry_base, Hx as (? & ? & ?). unfold pte_get_page. change PTE_ADDR with (4294967295 - 4095). unfold encode.
  rewrite split_land, page_land by (done || lia || apply mapping_flags_range).
  assert (Z.land (mapping_flags x) (4294967295 - 4095) = 0) as -> by (clear; by destruct x as [? [] [] [] []]).
  rewrite Z.add_0_r. apply ptov_vtop. unfold PHYS_BASE in *. lia.
Qed.
End entry.

Definition set_present (b : bool) (x : mapping) := Mapping (m_page x) b (m_writable x) (m_accessed x) (m_dirty x).
Definition set_accessed (b : bool) (x : mapping) := Mapping (m_page x) (m_present x) (m_writable x) b (m_dirty x).
Definition set_dirty (b : bool) (x : mapping) := Mapping (m_page x) (m_present x) (m_writable x) (m_accessed x) b.

Lemma encode_updates x : mapping_ok x →
  Z.land (encode x) (u32 (Z.lnot PTE_P)) = encode (set_present false x) ∧
  Z.lor (encode x) PTE_A = encode (set_accessed true x) ∧
  Z.land (encode x) (u32 (Z.lnot PTE_A)) = encode (set_accessed false x) ∧
  Z.lor (encode x) PTE_D = encode (set_dirty true x) ∧
  Z.land (encode x) (u32 (Z.lnot PTE_D)) = encode (set_dirty false x) ∧
  Z.lor (encode x) (Z.lor PTE_A PTE_D) = encode (set_accessed true (set_dirty true x)).
Proof.
  intros Hx. rewrite !encode_lor, !encode_land by (done || split; vm_compute; congruence).
  unfold encode. clear Hx. by destruct x as [? [] [] [] []].
Qed.

Lemma encode_create k w : frame_ok k → pte_create_user k w = Ok (encode (Mapping k true w false false)).
Proof.
  intros Hk. pose proof (entry_base (Mapping k true w false false) Hk) as [Hb Hm]. cbn [m_page] in *.
  destruct Hk as (H1 & H2 & H3). unfold pte_create_user, pte_create_kernel.
  rewrite pg_ofs_eq, H3. destruct (ptov_vtop k) as [-> _]; [unfold PHYS_BASE in *; lia |].
  cbn [Z.eqb assert_that mbind outcome_bind].
  assert (∀ f g, 0 ≤ f < 16 → 0 ≤ g < 16 → Z.lor (k - PHYS_BASE + f) g = k - PHYS_BASE + Z.lor f g) as E.
  { intros. apply flag_lor; lia || done. }
  rewrite <-(Z.add_0_r (k - PHYS_BASE)) at 1. rewrite E by (unfold PTE_P; lia).
  rewrite E by (destruct w; vm_compute; split; congruence). rewrite E by (destruct w; vm_compute; split; congruence).
  unfold encode. by destruct w.
Qed.

Lemma encode_nonzero x : mapping_ok x → encode x ≠ 0.
Proof.
  intros Hx E. assert (has_flag (encode x) PTE_U = true) as H by by apply encode_bits. by rewrite E in H.
Qed.

(** ** Page directories in memory *)

(** The page tables of each directory, by directory index, and what each
    directory maps, by page number. *)
Abbreviation tables := (gmap Z (gmap Z Z)).
Abbreviation spaces := (gmap Z (gmap Z mapping)).

(** A page that holds the directory [pd] ([None]) or one of its tables. *)
Definition owns (T : tables) (pd : Z) (o : option Z) (a : Z) : Prop :=
  ∃ t, T !! pd = Some t ∧ match o with None => a = pd | Some i => t !! i = Some a end.

(** A directory entry: empty, or a table that the processor may have marked
    accessed. *)
Definition pde_ok (o : option Z) (w : Z) : Prop :=
  match o with None => w = 0 | Some pt => w = pt - PHYS_BASE + 7 ∨ w = pt - PHYS_BASE + 39 end.

Record dirs_ok (ram : Z) (p : palloc_state) (T : tables) (A : spaces) : Prop := {
  d_pages : pages_ok ram p;
  d_dom pd : is_Some (A !! pd) ↔ is_Some (T !! pd);
  d_used pd o a : owns T pd o a → in_use p false a;
  d_apart pd o pd' o' a : owns T pd o a → owns T pd' o' a → pd = pd' ∧ o = o';
  d_index pd t i pt : T !! pd = Some t → t !! i = Some pt → 0 ≤ i < 768;
  d_pde pd t i : T !! pd = Some t → 0 ≤ i < 768 → pde_ok (t !! i) (word (memory p) (pd + 4 * i));
  d_pte pd t a i pt j : T !! pd = Some t → A !! pd = Some a → t !! i = Some pt → 0 ≤ j < 1024 →
    word (memory p) (pt + 4 * j) = encode_slot (a !! (1024 * i + j));
  d_map pd a v x : A !! pd = Some a → a !! v = Some x →
    mapping_ok x ∧ ∃ t i j pt, T !! pd = Some t ∧ t !! i = Some pt ∧ 0 ≤ j < 1024 ∧ v = 1024 * i + j;
}.

(** What an operation leaves alone: pages in use that hold no tables. *)
Record dirs_step (T' : tables) (p p' : palloc_state) : Prop := {
  ds_use u b : in_use p u b → in_use p' u b;
  ds_new u b : in_use p' u b → in_use p u b ∨ (u = false ∧ ∃ pd o, owns T' pd o b);
  ds_mem b : (∀ pd o a, owns T' pd o a → off_page a b) → memory p' !! b = memory p !! b;
  ds_pools : same_pools p p';
}.

Lemma dirs_step_refl T p : dirs_step T p p.
Proof. split; auto using same_pools_refl. Qed.

Lemma dirs_step_trans T p q r : dirs_step T p q → dirs_step T q r → dirs_step T p r.
Proof.
  intros H1 H2. split.
  - intros u b Hb. by apply (ds_use _ _ _ H2), (ds_use _ _ _ H1).
  - intros u b Hb. apply (ds_new _ _ _ H2) in Hb as [Hb|]; [by apply (ds_new _ _ _ H1) in Hb | by right].
  - intros b Hb. by rewrite (ds_mem _ _ _ H2), (ds_mem _ _ _ H1).
  - eapply same_pools_trans; [apply H1 | apply H2].
Qed.

Section dirs.
Context {ram : Z}.
Implicit Types (p : palloc_state) (T : tables) (A : spaces).

Lemma owns_page p T A pd o a :
  dirs_ok ram p T A → owns T pd o a →
  PHYS_BASE ≤ a ∧ a `mod` 4096 = 0 ∧ a + 4096 ≤ 4294967296 ∧ mapped (memory p) a 4096.
Proof.
  intros H Ho. destruct (in_use_page _ _ _ _ (d_pages _ _ _ _ H) (d_used _ _ _ _ H _ _ _ Ho)) as (? & ? & _ & ? & ?).
  split_and!; done.
Qed.

Lemma owns_apart p T A pd o a pd' o' a' :
  dirs_ok ram p T A → owns T pd o a → owns T pd' o' a' → (pd, o) ≠ (pd', o') → a + 4096 ≤ a' ∨ a' + 4096 ≤ a.
Proof.
  intros H Ho Ho' Hn. destruct (decide (a = a')) as [-> |].
  - destruct (d_apart _ _ _ _ H _ _ _ _ _ Ho Ho') as [-> ->]. done.
  - by eapply pages_apart; [eapply owns_page | eapply owns_page |].
Qed.

(** A word of a page that holds a directory or a table is stored. *)
Lemma st_word p T A pd o a k v s :
  dirs_ok ram p T A → pal s = p → owns T pd o a → 0 ≤ k < 1024 → 0 ≤ v < 4294967296 →
  ∃ m, st (a + 4 * k) v s = Ok (tt, set_pal (set_memory m p) s) ∧ bytes_mem m ∧
    pages_ok ram (set_memory m p) ∧ word m (a + 4 * k) = v ∧
    (∀ pd' o' a' k', owns T pd' o' a' → 0 ≤ k' < 1024 → (pd', o', k') ≠ (pd, o, k) →
       word m (a' + 4 * k') = word (memory p) (a' + 4 * k')) ∧
    dirs_step T p (set_memory m p).
Proof.
  intros H <- Ho Hk Hv. destruct (owns_page _ _ _ _ _ _ H Ho) as (_ & Ha & _ & Hm).
  destruct (store_word_ok (memory (pal s)) (a + 4 * k) v) as (m & E & Hb & Hout & Hw & Hs);
    [eapply mapped_sub; [exact Hm | lia | lia] | apply H |].
  exists m. unfold st. rewrite E. cbn [mbind outcome_bind]. split; [done |]. split; [done |]. split.
  { apply pages_ok_set_memory; [apply H | done |]. intros b. apply Hs. }
  split; [by rewrite Hw, u32_id |]. split.
  - intros pd' o' a' k' Ho' Hk' Hn. apply (word_outside _ _ _ _ _ Hout).
    destruct (decide ((pd, o) = (pd', o'))) as [E'|E'].
    + simplify_eq. destruct Ho as (t & Ht & Ho), Ho' as (t' & Ht' & Ho'). assert (t = t') as <- by congruence.
      assert (a = a') as <- by (destruct o'; congruence). assert (k ≠ k') by congruence. lia.
    + destruct (owns_apart _ _ _ _ _ _ _ _ _ H Ho Ho' E'); lia.
  - split; [by intros; apply in_use_set_memory | intros u b Hu; left; by apply in_use_set_memory in Hu | | apply same_pools_memory].
    intros b Hn. cbn. apply Hout. pose proof (Hn _ _ _ Ho) as Hoff. unfold off_page, PGSIZE in Hoff. lia.
Qed.

Lemma ld_word p T A pd o a k s :
  dirs_ok ram p T A → pal s = p → owns T pd o a → 0 ≤ k < 1024 →
  ld (a + 4 * k) s = Ok (word (memory p) (a + 4 * k), s).
Proof.
  intros H <- Ho Hk. destruct (owns_page _ _ _ _ _ _ H Ho) as (_ & _ & _ & Hm).
  unfold ld. rewrite load_word_ok; [done |]. eapply mapped_sub; [exact Hm | lia | lia].
Qed.

(** Two addresses of a page number: its index in the directory and in the table. *)
Lemma pd_no_eq va : is_addr va → pd_no va = va / 4194304.
Proof. intros. unfold pd_no. change PDSHIFT with 22. by rewrite Z.shiftr_div_pow2. Qed.

Lemma pt_no_eq va : is_addr va → pt_no va = (va / 4096) `mod` 1024.
Proof.
  intros [H1 H2]. unfold pt_no. change PTMASK with (Z.shiftl (Z.ones 10) 12). change PTSHIFT with 12.
  rewrite Z.shiftr_land, Z.shiftr_shiftl_l, Z.sub_diag, Z.shiftl_0_r, Z.land_ones by lia. by rewrite Z.shiftr_div_pow2.
Qed.

Lemma page_no_split va : 0 ≤ va < PHYS_BASE →
  0 ≤ pd_no va < 768 ∧ 0 ≤ pt_no va < 1024 ∧ pg_no va = 1024 * pd_no va + pt_no va.
Proof.
  unfold PHYS_BASE. intros H. rewrite pd_no_eq, pt_no_eq, pg_no_eq by (unfold is_addr; lia).
  Z.to_euclidean_division_equations. lia.
Qed.

Lemma pde_create_eq pt : frame_ok pt → pde_create pt = Ok (pt - PHYS_BASE + 7).
Proof.
  intros (H1 & H2 & H3). pose proof (entry_base (Mapping pt true true false false)) as [Hb Hm]; [by split_and! |].
  cbn [m_page] in *. unfold pde_create. rewrite pg_ofs_eq, H3.
  destruct (ptov_vtop pt) as [-> _]; [unfold PHYS_BASE in *; lia |]. cbn [Z.eqb assert_that mbind outcome_bind].
  rewrite <-(Z.add_0_r (pt - PHYS_BASE)) at 1. by rewrite !flag_lor by (done || lia).
Qed.

Lemma pde_get_pt_eq pt w : frame_ok pt → pde_ok (Some pt) w →
  w ≠ 0 ∧ has_flag w PTE_P = true ∧ pde_get_pt w = Ok pt ∧ ptov (Z.land w PTE_ADDR) = Ok pt ∧
  pde_ok (Some pt) (Z.lor w PTE_A) ∧ 0 ≤ Z.lor w PTE_A < 4294967296.
Proof.
  intros (H1 & H2 & H3) Hw. pose proof (entry_base (Mapping pt true true false false)) as [Hb Hm]; [by split_and! |].
  cbn [m_page] in *. unfold PHYS_BASE in *.
  assert (∃ f, w = pt - 3221225472 + f ∧ (f = 7 ∨ f = 39)) as (f & -> & Hf) by (destruct Hw as [-> | ->]; eauto).
  assert (has_flag (pt - 3221225472 + f) PTE_P = true) as Hp.
  { unfold has_flag. rewrite flag_land by (done || lia). by destruct Hf as [-> | ->]. }
  assert (ptov (Z.land (pt - 3221225472 + f) PTE_ADDR) = Ok pt) as Hpt.
  { change PTE_ADDR with (4294967295 - 4095). rewrite split_land, page_land by (done || lia).
    assert (Z.land f (4294967295 - 4095) = 0) as -> by by destruct Hf as [-> | ->].
    rewrite Z.add_0_r. apply ptov_vtop. unfold PHYS_BASE. lia. }
  split; [lia |]. split; [done |]. split; [| split; [done |]].
  - unfold pde_get_pt. unfold has_flag in Hp. rewrite Hp. done.
  - rewrite flag_lor by (unfold PTE_A; done || lia).
    assert (Z.lor f PTE_A = 39) as -> by by destruct Hf as [-> | ->]. split; [by right | lia].
Qed.

Lemma owns_ext T pd o a T' : owns T pd o a → (∀ pd, T' !! pd = T !! pd) → owns T' pd o a.
Proof. intros (t & Ht & Ho) E. exists t. by rewrite E. Qed.

(** An entry is stored. *)
Lemma st_pte p T A pd t a i j pt x s :
  dirs_ok ram p T A → pal s = p → T !! pd = Some t → A !! pd = Some a → t !! i = Some pt → 0 ≤ j < 1024 →
  mapping_ok x →
  ∃ p', st (pt + 4 * j) (encode x) s = Ok (tt, set_pal p' s) ∧
    dirs_ok ram p' T (<[pd := <[1024 * i + j := x]> a]> A) ∧ dirs_step T p p'.
Proof.
  intros H Hs Ht Ha Hi Hj Hx. assert (owns T pd (Some i) pt) as Ho by (by exists t).
  destruct (st_word p T A pd (Some i) pt j (encode x) s H Hs Ho Hj) as (m & E & Hb & Hp & Hw & Hf & Hd);
    [by apply encode_range |]. exists (set_memory m p). split; [done |]. split; [| done]. split.
  - done.
  - intros pd'. destruct (decide (pd' = pd)) as [-> |].
    + rewrite lookup_insert_eq, Ht. split; eauto.
    + rewrite lookup_insert_ne by done. apply (d_dom _ _ _ _ H).
  - intros pd' o b Hob. apply in_use_set_memory. by eapply (d_used _ _ _ _ H).
  - apply (d_apart _ _ _ _ H).
  - apply (d_index _ _ _ _ H).
  - intros pd' t' i' Ht' Hi'. change (memory (set_memory m p)) with m. rewrite (Hf pd' None pd' i'); [by apply (d_pde _ _ _ _ H) | by exists t' | lia | done].
  - intros pd' t' a' i' pt' j' Ht' Ha' Hi' Hj'. change (memory (set_memory m p)) with m.
    destruct (decide (pd' = pd)) as [-> |Hne].
    + rewrite lookup_insert_eq in Ha'. injection Ha' as <-. assert (t' = t) as -> by congruence.
      destruct (decide ((i', j') = (i, j))) as [E'|E'].
      * injection E' as -> ->. assert (pt' = pt) as -> by congruence. by rewrite lookup_insert_eq.
      * rewrite lookup_insert_ne by (intros ?; apply E'; f_equal; lia).
        rewrite (Hf pd (Some i') pt' j'); [by eapply (d_pte _ _ _ _ H) | by exists t | done | congruence].
    + rewrite lookup_insert_ne in Ha' by done.
      rewrite (Hf pd' (Some i') pt' j'); [by eapply (d_pte _ _ _ _ H) | by exists t' | done | congruence].
  - intros pd' a' v y Ha' Hv. destruct (decide (pd' = pd)) as [-> |Hne].
    + rewrite lookup_insert_eq in Ha'. injection Ha' as <-. destruct (decide (v = 1024 * i + j)) as [-> |].
      * rewrite lookup_insert_eq in Hv. injection Hv as <-. split; [done |]. by exists t, i, j, pt.
      * rewrite lookup_insert_ne in Hv by done. by apply (d_map _ _ _ _ H pd a).
    + rewrite lookup_insert_ne in Ha' by done. by apply (d_map _ _ _ _ H pd' a').
Qed.

Lemma owns_frame p T A pd o a : dirs_ok ram p T A → owns T pd o a → frame_ok a.
Proof. intros H Ho. destruct (owns_page _ _ _ _ _ _ H Ho) as (? & ? & ? & _). by split_and!. Qed.

(** *** Finding an entry *)

Definition entry_addr (t : gmap Z Z) (va : Z) : Z :=
  match t !! pd_no va with Some pt => pt + 4 * pt_no va | None => 0 end.

Lemma dir_nonzero p T A pd t : dirs_ok ram p T A → T !! pd = Some t → negb (pd =? 0) = true.
Proof.
  intros H Ht. destruct (owns_frame _ _ _ pd None pd H) as (? & _); [by exists t |]. unfold PHYS_BASE in *.
  destruct (Z.eqb_spec pd 0); [lia | done].
Qed.

Lemma lookup_page_ok p T A pd t va create s :
  dirs_ok ram p T A → pal s = p → T !! pd = Some t → 0 ≤ va < PHYS_BASE → (create = true → is_Some (t !! pd_no va)) →
  lookup_page pd va create s = Ok (entry_addr t va, s).
Proof.
  intros H Hs Ht Hva Hc. destruct (page_no_split va Hva) as (Hi & Hj & _). unfold lookup_page.
  rewrite st_assert_true by (by apply (dir_nonzero p T A pd t)).
  rewrite st_assert_true by (unfold is_user_vaddr; destruct (Z.ltb_spec va PHYS_BASE); [by destruct create | lia]).
  assert (ld (pd + 4 * pd_no va) s = Ok (word (memory p) (pd + 4 * pd_no va), s)) as Eld
    by (apply (ld_word p T A pd None pd); [done | done | by exists t | lia]).
  rewrite (st_step _ Eld). pose proof (d_pde _ _ _ _ H pd t _ Ht Hi) as Hw. unfold entry_addr.
  destruct (t !! pd_no va) as [pt|] eqn:Ept.
  - destruct (pde_get_pt_eq pt _ (owns_frame _ _ _ pd (Some (pd_no va)) pt H ltac:(by exists t)) Hw)
      as (Hn & _ & Eg & _). apply Z.eqb_neq in Hn. rewrite Hn.
    assert ((mret true : PM bool) s = Ok (true, s)) as Em by done. rewrite (st_step _ Em).
    rewrite (st_step _ Eld). by rewrite (st_lift_step _ _ _ _ Eg).
  - unfold pde_ok in Hw. rewrite Hw, Z.eqb_refl. destruct create; [by destruct (Hc eq_refl) |]. done.
Qed.

Lemma entry_addr_pos p T A pd t va :
  dirs_ok ram p T A → T !! pd = Some t → 0 ≤ va < PHYS_BASE →
  negb (entry_addr t va =? 0) = bool_decide (is_Some (t !! pd_no va)).
Proof.
  intros H Ht Hva. destruct (page_no_split va Hva) as (_ & Hj & _). unfold entry_addr.
  destruct (t !! pd_no va) as [pt|] eqn:E; [| done].
  destruct (owns_frame _ _ _ pd (Some (pd_no va)) pt H) as (Hpt & _); [by exists t |]. unfold PHYS_BASE in *.
  rewrite bool_decide_eq_true_2 by eauto. destruct (Z.eqb_spec (pt + 4 * pt_no va) 0); [lia | done].
Qed.

(** The entry of a user address, as the C code reads it through [lookup_page]. *)
Lemma slot_of p T A pd t a va s :
  dirs_ok ram p T A → pal s = p → T !! pd = Some t → A !! pd = Some a → 0 ≤ va < PHYS_BASE →
  (negb (entry_addr t va =? 0) = true ∧ ld (entry_addr t va) s = Ok (encode_slot (a !! pg_no va), s)) ∨
  (negb (entry_addr t va =? 0) = false ∧ a !! pg_no va = None).
Proof.
  intros H Hs Ht Ha Hva. destruct (page_no_split va Hva) as (Hi & Hj & Ev).
  rewrite (entry_addr_pos p T A pd t va H Ht Hva). unfold entry_addr. destruct (t !! pd_no va) as [pt|] eqn:E.
  - left. split; [by rewrite bool_decide_eq_true_2 by eauto |].
    rewrite (ld_word p T A pd (Some (pd_no va)) pt) by (done || by exists t).
    rewrite (d_pte _ _ _ _ H pd t a (pd_no va) pt) by done. by rewrite Ev.
  - right. split; [by rewrite bool_decide_eq_false_2 by (by intros []) |].
    destruct (a !! pg_no va) as [x|] eqn:Ex; [| done]. exfalso.
    destruct (d_map _ _ _ _ H pd a _ x Ha Ex) as (_ & t' & i & j & pt & Ht' & Hpt & Hj' & E').
    assert (i = pd_no va) as -> by lia. congruence.
Qed.

(** *** A new table *)

(** A change of memory and of the pages in use that spares the tables. *)
Lemma dirs_ok_same p p' T A :
  dirs_ok ram p T A → pages_ok ram p' →
  (∀ pd o a, owns T pd o a → in_use p' false a ∧ ∀ b, a ≤ b < a + 4096 → memory p' !! b = memory p !! b) →
  dirs_ok ram p' T A.
Proof.
  intros H Hp Hs.
  assert (∀ pd o a k, owns T pd o a → 0 ≤ k < 1024 → word (memory p') (a + 4 * k) = word (memory p) (a + 4 * k)) as Hw.
  { intros pd o a k Ho Hk. apply word_same. intros b Hb. apply (Hs _ _ _ Ho). lia. }
  split; try apply H; [done | intros pd o a Ho; by eapply Hs | |].
  - intros pd t i Ht Hi. rewrite (Hw pd None) by (by exists t || lia). by apply (d_pde _ _ _ _ H).
  - intros pd t a i pt j Ht Ha Hi Hj. rewrite (Hw pd (Some i)) by (by exists t || lia). by eapply (d_pte _ _ _ _ H).
Qed.

Lemma dirs_ok_got p p' T A flags a : dirs_ok ram p T A → page_got ram flags a p p' → dirs_ok ram p' T A.
Proof.
  intros H G. apply (dirs_ok_same p); [done | apply G |]. intros pd o b Ho.
  pose proof (d_used _ _ _ _ H _ _ _ Ho) as Hb. split; [apply G; by left |].
  intros c Hc. apply (pg_other _ _ _ _ _ G). unfold off_page, PGSIZE. intros Hx.
  apply (pg_new _ _ _ _ _ G false). replace a with b; [done |].
  destruct (in_use_page _ _ _ _ (pg_ok _ _ _ _ _ G) (pg_page _ _ _ _ _ G)) as (_ & Ha & _).
  destruct (in_use_page _ _ _ _ (d_pages _ _ _ _ H) Hb) as (_ & Hb' & _).
  destruct (decide (a = b)) as [|Hn]; [done |]. destruct (pages_apart _ _ Ha Hb' Hn); lia.
Qed.

(** A zero page joins the tables of a directory. *)
Lemma add_table p T A pd t a i pt s :
  dirs_ok ram p T A → pal s = p → T !! pd = Some t → A !! pd = Some a → 0 ≤ i < 768 → t !! i = None →
  in_use p false pt → (∀ pd o, ¬ owns T pd o pt) → (∀ j, 0 ≤ j < 1024 → word (memory p) (pt + 4 * j) = 0) →
  ∃ m, st (pd + 4 * i) (pt - PHYS_BASE + 7) s = Ok (tt, set_pal (set_memory m p) s) ∧
    dirs_ok ram (set_memory m p) (<[pd := <[i := pt]> t]> T) A ∧
    dirs_step (<[pd := <[i := pt]> t]> T) p (set_memory m p).
Proof.
  intros H Hs Ht Ha Hi Hn Hu Hno Hz. set (T' := <[pd := <[i := pt]> t]> T).
  destruct (in_use_page _ _ _ _ (d_pages _ _ _ _ H) Hu) as (P1 & P2 & _ & P3 & P4).
  destruct (st_word p T A pd None pd i (pt - PHYS_BASE + 7) s H Hs) as (m & E & Hb & Hp & Hw & Hf & Hd);
    [by exists t | lia | unfold PHYS_BASE in *; lia |].
  assert (∀ pd' o b, owns T' pd' o b → owns T pd' o b ∨ (pd' = pd ∧ o = Some i ∧ b = pt)) as Hown.
  { intros pd' o b (t' & Ht' & Ho). unfold T' in Ht'. destruct (decide (pd' = pd)) as [-> |].
    - rewrite lookup_insert_eq in Ht'. injection Ht' as <-. destruct o as [i'|]; [| left; by exists t].
      destruct (decide (i' = i)) as [-> |]; [rewrite lookup_insert_eq in Ho; right; naive_solver |].
      rewrite lookup_insert_ne in Ho by done. left. by exists t.
    - rewrite lookup_insert_ne in Ht' by done. left. by exists t'. }
  assert (∀ pd' o b, owns T pd' o b → owns T' pd' o b) as Hold.
  { intros pd' o b (t' & Ht' & Ho). unfold owns, T'. destruct (decide (pd' = pd)) as [-> |].
    - rewrite lookup_insert_eq. exists (<[i:=pt]> t). split; [done |]. destruct o as [i'|]; [| done].
      rewrite lookup_insert_ne; congruence.
    - rewrite lookup_insert_ne by done. by exists t'. }
  assert (∀ j, 0 ≤ j < 1024 → word m (pt + 4 * j) = 0) as Hz'.
  { intros j Hj. rewrite <-(Hz j Hj). apply word_same. intros b Hbb.
    apply (ds_mem _ _ _ Hd). intros pd' o c Hc. unfold off_page, PGSIZE.
    assert (pt ≠ c) as Hpc by (intros ->; by eapply Hno). destruct (owns_page _ _ _ _ _ _ H Hc) as (_ & Hc' & _).
    destruct (pages_apart _ _ P2 Hc' Hpc); lia. }
  exists m. split; [done |]. split; [split |].
  - done.
  - intros pd'. rewrite (d_dom _ _ _ _ H). unfold T'. destruct (decide (pd' = pd)) as [-> |].
    + rewrite lookup_insert_eq, Ht. split; eauto.
    + by rewrite lookup_insert_ne.
  - intros pd' o b Ho. apply in_use_set_memory.
    apply Hown in Ho as [Ho|(_ & _ & ->)]; [by eapply (d_used _ _ _ _ H) | done].
  - intros pd1 o1 pd2 o2 b Ho1 Ho2.
    apply Hown in Ho1 as [Ho1|(-> & -> & ->)], Ho2 as [Ho2|(-> & -> & E2)]; subst; try (by exfalso; eapply Hno); try done.
    by eapply (d_apart _ _ _ _ H).
  - intros pd' t' i' pt' Ht' Hi'. destruct (Hown pd' (Some i') pt') as [(t2 & ? & ?)|(_ & [= ->] & _)]; [by exists t' | | done].
    by eapply (d_index _ _ _ _ H).
  - intros pd' t' i' Ht' Hi'. change (memory (set_memory m p)) with m. unfold T' in Ht'.
    destruct (decide (pd' = pd)) as [-> |Hne].
    + rewrite lookup_insert_eq in Ht'. injection Ht' as <-. destruct (decide (i' = i)) as [-> |].
      * rewrite lookup_insert_eq, Hw. by left.
      * rewrite lookup_insert_ne by done. rewrite (Hf pd None) by (by exists t || lia || congruence).
        by apply (d_pde _ _ _ _ H).
    + rewrite lookup_insert_ne in Ht' by done. rewrite (Hf pd' None) by (by exists t' || lia || congruence).
      by apply (d_pde _ _ _ _ H).
  - intros pd' t' a' i' pt' j Ht' Ha' Hi' Hj. change (memory (set_memory m p)) with m.
    destruct (Hown pd' (Some i') pt') as [(t2 & Ht2 & Hi2)|(-> & [= ->] & ->)]; [by exists t' | |].
    + rewrite (Hf pd' (Some i')) by (by exists t2 || lia || congruence). by eapply (d_pte _ _ _ _ H).
    + rewrite Hz' by done. assert (a' = a) as -> by congruence.
      destruct (a !! (1024 * i + j)) as [x|] eqn:Ex; [| done].
      destruct (d_map _ _ _ _ H pd a _ x Ha Ex) as (_ & t2 & i2 & j2 & pt2 & ? & ? & ? & ?).
      assert (i2 = i) as -> by lia. congruence.
  - intros pd' a' v x Ha' Hv. destruct (d_map _ _ _ _ H pd' a' v x Ha' Hv) as (Hx & t2 & i2 & j2 & pt2 & Ht2 & Hi2 & ? & ?).
    split; [done |]. destruct (Hold pd' (Some i2) pt2) as (t3 & ? & ?); [by exists t2 |]. by exists t3, i2, j2, pt2.
  - split; [apply Hd | intros u b Hub; left; by apply in_use_set_memory in Hub | | apply same_pools_memory].
    intros b Hoff. apply (ds_mem _ _ _ Hd). intros pd' o c Hc. by eapply Hoff, Hold.
Qed.

Lemma lookup_create_ok p T A pd t a va s :
  dirs_ok ram p T A → pal s = p → T !! pd = Some t → A !! pd = Some a → 0 ≤ va < PHYS_BASE → t !! pd_no va = None →
  (lookup_page pd va true s = Ok (0, s) ∧ ¬ page_free p false) ∨
  ∃ p' pt, let t' := <[pd_no va := pt]> t in let T' := <[pd := t']> T in
    lookup_page pd va true s = Ok (entry_addr t' va, set_pal p' s) ∧ dirs_ok ram p' T' A ∧ dirs_step T' p p'.
Proof.
  intros H Hs Ht Ha Hva Hn. destruct (page_no_split va Hva) as (Hi & Hj & _).
  assert (ld (pd + 4 * pd_no va) s = Ok (word (memory p) (pd + 4 * pd_no va), s)) as Eld
    by (apply (ld_word p T A pd None pd); [done | done | by exists t | lia]).
  pose proof (d_pde _ _ _ _ H pd t _ Ht Hi) as Hw. rewrite Hn in Hw. unfold pde_ok in Hw. rewrite Hw in Eld.
  assert (∀ X : PM Z, lookup_page pd va true s =
    (present ← (pt ← get_page PAL_ZERO;
       if pt =? 0 then mret false else d ← st_lift (pde_create pt); st (pd + 4 * pd_no va) d;; mret true);
     if (present : bool) then e ← ld (pd + 4 * pd_no va); pt ← st_lift (pde_get_pt e); mret (pt + 4 * pt_no va)
     else mret 0) s) as Erun.
  { intros _. unfold lookup_page. rewrite st_assert_true by (by apply (dir_nonzero p T A pd t)).
    rewrite st_assert_true by (unfold is_user_vaddr; destruct (Z.ltb_spec va PHYS_BASE); [done | lia]).
    by rewrite (st_step _ Eld). }
  rewrite (Erun (mret 0)), st_assoc. clear Erun.
  destruct (get_page_ok ram PAL_ZERO p (d_pages _ _ _ _ H)) as [[E Hnf]|(pt & p1 & E & Hpt & _ & G)].
  - left. split; [| done].
    assert (get_page PAL_ZERO s = Ok (0, s)) as Eg by (unfold get_page; rewrite Hs, E; subst p; by destruct s).
    by rewrite (st_step _ Eg), Z.eqb_refl.
  - right. pose proof (dirs_ok_got _ _ _ _ _ _ H G) as H1.
    pose proof (pg_page _ _ _ _ _ G) as Hu. change (has_flag PAL_ZERO PAL_USER) with false in Hu.
    destruct (in_use_page _ _ _ _ (pg_ok _ _ _ _ _ G) Hu) as (P1 & P2 & _ & P3 & P4).
    destruct (add_table p1 T A pd t a (pd_no va) pt (set_pal p1 s) H1 eq_refl Ht Ha Hi Hn Hu) as (m & Est & H2 & Hd).
    { intros pd' o Ho. by apply (pg_new _ _ _ _ _ G false), (d_used _ _ _ _ H _ _ _ Ho). }
    { intros j Hj'. rewrite (word_filled _ _ 0); [done |]. intros b Hb. apply (pg_zero _ _ _ _ _ G); [done |].
      unfold off_page, PGSIZE. lia. }
    exists (set_memory m p1), pt. cbv zeta. split; [| split; [done |]].
    + assert (get_page PAL_ZERO s = Ok (pt, set_pal p1 s)) as Eg by (unfold get_page; by rewrite Hs, E).
      rewrite (st_step _ Eg). destruct (Z.eqb_spec pt 0); [lia |].
      rewrite st_assoc, (st_lift_step _ _ _ _ (pde_create_eq pt ltac:(by split_and!))).
      rewrite st_assoc, (st_step _ Est), st_ret_step.
      assert (ld (pd + 4 * pd_no va) (set_pal (set_memory m p1) (set_pal p1 s)) =
        Ok (word m (pd + 4 * pd_no va), set_pal (set_memory m p1) (set_pal p1 s))) as Eld2.
      { apply (ld_word _ _ _ pd None pd _ _ H2); [done | | lia]. eexists. by rewrite lookup_insert_eq. }
      rewrite (st_step _ Eld2).
      assert (pde_ok (Some pt) (word m (pd + 4 * pd_no va))) as Hw2.
      { pose proof (d_pde _ _ _ _ H2 pd _ (pd_no va) (lookup_insert_eq _ _ _) Hi) as Hx.
        by rewrite lookup_insert_eq in Hx. }
      destruct (pde_get_pt_eq pt _ ltac:(by split_and!) Hw2) as (_ & _ & Eg2 & _).
      rewrite (st_lift_step _ _ _ _ Eg2). unfold entry_addr. by rewrite lookup_insert_eq.
    + eapply dirs_step_trans; [| exact Hd]. split.
      * intros u b Hb. apply G. by left.
      * intros u b Hb. apply G in Hb as [Hb|[-> ->]]; [by left | right]. split; [done |].
        exists pd, (Some (pd_no va)). eexists. rewrite lookup_insert_eq. split; [done |]. by rewrite lookup_insert_eq.
      * intros b Hb. apply (pg_other _ _ _ _ _ G). apply (Hb pd (Some (pd_no va))). eexists.
        rewrite lookup_insert_eq. split; [done |]. by rewrite lookup_insert_eq.
      * apply G.
Qed.
End dirs.

(** ** The processor's view *)

(** A cached entry agrees with the table, but may miss accessed and dirty bits
    set since. *)
Definition cached (o : option mapping) (e : Z) : Prop :=
  ∃ x y, o = Some y ∧ e = encode x ∧ mapping_ok x ∧ m_present x = true ∧ m_present y = true ∧
    m_page x = m_page y ∧ m_writable x = m_writable y ∧
    (m_accessed x = true → m_accessed y = true) ∧ (m_dirty x = true → m_dirty y = true).

(** The directory [cr3] points to. *)
Definition active (s : machine) : Z := cr3 s + PHYS_BASE.

Record cpu_ok (s : machine) (T : tables) (A : spaces) : Prop := {
  c_init : A !! init_page_dir s = Some ∅ ∧ T !! init_page_dir s = Some ∅;
  c_active : is_Some (A !! active s);
  c_tlb v e a : tlb s !! v = Some e → A !! active s = Some a → cached (a !! v) e;
}.

Record repr (ram : Z) (s : machine) (T : tables) (A : spaces) : Prop := {
  r_dirs : dirs_ok ram (pal s) T A;
  r_cpu : cpu_ok s T A;
}.

Definition same_cpu (s s' : machine) : Prop := cr3 s' = cr3 s ∧ init_page_dir s' = init_page_dir s.

Section repr.
Context {ram : Z}.
Implicit Types (s : machine) (T : tables) (A : spaces).

Lemma repr_frame s T A pd : repr ram s T A → is_Some (A !! pd) → frame_ok pd.
Proof.
  intros [H _] Hpd. apply (d_dom _ _ _ _ H) in Hpd as [t Ht]. apply (owns_frame _ _ _ pd None pd H). by exists t.
Qed.

(** Emptying the cache. *)
Definition flush (s : machine) : machine := Machine (pal s) (cr3 s) ∅ (init_page_dir s).

Lemma repr_flush s T A : repr ram s T A → repr ram (flush s) T A.
Proof. intros [H [H1 H2 H3]]. split; [done |]. split; [done | done |]. by intros v e a Hv. Qed.

Lemma activate_ok s T A pd :
  repr ram s T A → pd = 0 ∨ is_Some (A !! pd) →
  let dir := if pd =? 0 then init_page_dir s else pd in
  ∃ s', pagedir_activate pd s = Ok (tt, s') ∧ repr ram s' T A ∧ pal s' = pal s ∧ active s' = dir ∧ tlb s' = ∅ ∧
    init_page_dir s' = init_page_dir s.
Proof.
  intros Hr Hpd dir. assert (is_Some (A !! dir)) as Hdir.
  { subst dir. destruct (Z.eqb_spec pd 0); [by rewrite (proj1 (c_init _ _ _ (r_cpu _ _ _ _ Hr))) |]. naive_solver. }
  destruct (repr_frame _ _ _ _ Hr Hdir) as (H1 & H2 & _). unfold pagedir_activate. rewrite st_get_step. fold dir.
  destruct (ptov_vtop dir) as [E _]; [unfold PHYS_BASE in *; lia |]. rewrite (st_lift_step _ _ _ _ E).
  eexists. split; [done |]. unfold active. cbn [cr3 pal tlb init_page_dir].
  assert (dir - PHYS_BASE + PHYS_BASE = dir) as Ed by lia. split; [| by rewrite Ed].
  destruct Hr as [H [C1 C2 C3]]. split; [done |]. split; [done | unfold active; cbn; by rewrite Ed |]. by intros v e a Hv.
Qed.

Lemma invalidate_eq s pd : frame_ok (active s) → frame_ok pd →
  invalidate_pagedir pd s = Ok (tt, if active s =? pd then flush s else s).
Proof.
  intros (H1 & H2 & _) (H3 & H4 & _). unfold invalidate_pagedir.
  assert (active_pd s = Ok (active s, s)) as Ea.
  { unfold active_pd. rewrite st_get_step. destruct (ptov_vtop (active s)) as [_ E]; [unfold PHYS_BASE in *; lia |].
    unfold active in *. replace (cr3 s + PHYS_BASE - PHYS_BASE) with (cr3 s) in E by lia.
    unfold st_lift. by rewrite E. }
  rewrite (st_step _ Ea). destruct (Z.eqb_spec (active s) pd) as [<-|]; [| done].
  unfold pagedir_activate. rewrite st_get_step. destruct (Z.eqb_spec (active s) 0); [unfold PHYS_BASE in *; lia |].
  destruct (ptov_vtop (active s)) as [E _]; [unfold PHYS_BASE in *; lia |]. rewrite (st_lift_step _ _ _ _ E).
  unfold load_cr3, st_modify, flush, active. do 3 f_equal. lia.
Qed.

(** An entry [x] becomes [y]. *)
Lemma not_init s T A pd a v x : repr ram s T A → A !! pd = Some a → a !! v = Some x → pd ≠ init_page_dir s.
Proof.
  intros Hr Ha Hv ->. rewrite (proj1 (c_init _ _ _ (r_cpu _ _ _ _ Hr))) in Ha. by injection Ha as <-.
Qed.

Lemma cpu_ok_update s T A pd a p :
  cpu_ok s T A → pd ≠ init_page_dir s → is_Some (A !! pd) →
  (∀ v e, active s = pd → tlb s !! v = Some e → cached (a !! v) e) →
  cpu_ok (set_pal p s) T (<[pd := a]> A).
Proof.
  intros [[C1 C1'] C2 C3] Hi Hpd Hc. split; cbn.
  - split; [| done]. by rewrite lookup_insert_ne.
  - destruct (decide (active s = pd)) as [<-|]; [by rewrite lookup_insert_eq |]. by rewrite lookup_insert_ne.
  - intros v e a' Hv Ha'. change (active (set_pal p s)) with (active s) in Ha'.
    destruct (decide (active s = pd)) as [E|].
    + rewrite E, lookup_insert_eq in Ha'. injection Ha' as <-. by apply Hc.
    + rewrite lookup_insert_ne in Ha' by done. by eapply C3.
Qed.

(** The address [lookup_page] gives for a page that is in the map. *)
Lemma entry_of s T A pd t a va x :
  repr ram s T A → T !! pd = Some t → A !! pd = Some a → 0 ≤ va < PHYS_BASE → a !! pg_no va = Some x →
  ∃ pt, t !! pd_no va = Some pt ∧ entry_addr t va = pt + 4 * pt_no va ∧ 0 ≤ pt_no va < 1024 ∧
    pg_no va = 1024 * pd_no va + pt_no va ∧ mapping_ok x.
Proof.
  intros Hr Ht Ha Hva Hx. destruct (page_no_split va Hva) as (Hi & Hj & Ev).
  destruct (d_map _ _ _ _ (r_dirs _ _ _ _ Hr) pd a _ x Ha Hx) as (Hok & t' & i & j & pt & Ht' & Hpt & Hj' & E).
  assert (i = pd_no va) as -> by lia. assert (t' = t) as -> by congruence.
  exists pt. split; [done |]. split; [unfold entry_addr; by rewrite Hpt |]. done.
Qed.

(** Storing an entry: with a flush, any change of an entry is safe; without
    one, a change under which cached entries stay right. *)
Lemma store_entry_ok s T A pd t a va x y :
  repr ram s T A → T !! pd = Some t → A !! pd = Some a → 0 ≤ va < PHYS_BASE → a !! pg_no va = Some x → mapping_ok y →
  ∃ s', st (entry_addr t va) (encode y) s = Ok (tt, s') ∧ dirs_step T (pal s) (pal s') ∧ same_cpu s s' ∧
    let A' := <[pd := <[pg_no va := y]> a]> A in
    ((∀ e, cached (Some x) e → cached (Some y) e) → repr ram s' T A') ∧
    ∃ s'', invalidate_pagedir pd s' = Ok (tt, s'') ∧ repr ram s'' T A' ∧ pal s'' = pal s' ∧ same_cpu s s''.
Proof.
  intros Hr Ht Ha Hva Hx Hy. pose proof (not_init _ _ _ _ _ _ _ Hr Ha Hx) as Hni.
  destruct (entry_of _ _ _ _ _ _ _ _ Hr Ht Ha Hva Hx) as (pt & Hpt & -> & Hj & Ev & _).
  destruct (st_pte (pal s) T A pd t a (pd_no va) (pt_no va) pt y s (r_dirs _ _ _ _ Hr) eq_refl Ht Ha Hpt Hj Hy)
    as (p' & E & Hd & Hst). rewrite <-Ev in Hd.
  exists (set_pal p' s). split; [done |]. split; [done |]. split; [done |]. intros A'.
  assert ((∀ e, cached (Some x) e → cached (Some y) e) → repr ram (set_pal p' s) T A') as Hup.
  { intros Hc. split; [done |]. apply cpu_ok_update; [apply Hr | done | eauto |].
    intros v e <- Hv. pose proof (c_tlb _ _ _ (r_cpu _ _ _ _ Hr) v e a Hv Ha) as Hca.
    destruct (decide (v = pg_no va)) as [-> |]; [| by rewrite lookup_insert_ne].
    rewrite lookup_insert_eq. rewrite Hx in Hca. by apply Hc. }
  split; [done |].
  assert (repr ram (if active s =? pd then flush (set_pal p' s) else set_pal p' s) T A') as Hr'.
  { destruct (Z.eqb_spec (active s) pd) as [Epd|Epd].
    - split; [done |]. assert (cpu_ok (set_pal p' (flush s)) T A') as Hc; [| done].
      apply cpu_ok_update; [apply repr_flush, Hr | done | eauto | by intros v e _ Hv].
    - split; [done |]. apply cpu_ok_update; [apply Hr | done | eauto | by intros v e ? Hv]. }
  assert (invalidate_pagedir pd (set_pal p' s) = Ok (tt, if active s =? pd then flush (set_pal p' s) else set_pal p' s)) as Einv.
  { apply (invalidate_eq (set_pal p' s)); apply (repr_frame s T A); [done | by apply (c_active _ _ _ (r_cpu _ _ _ _ Hr)) | done | eauto]. }
  eexists. split; [exact Einv |]. split; [done |]. by destruct (active s =? pd).
Qed.
End repr.
