(* ===== verification/PagedirOps.v ===== *)
(** The operations of pagedir.c on directories that represent a map
    (PagedirThm.repr), one lemma each. *)
From S2P Require Import Prelude Bytes Bitmap CString CStringThm Words Vaddr Palloc PageMem Pagedir PagedirThm.
Local Open Scope Z_scope.

Section ops.
Context {ram : Z}.
Implicit Types (s : machine) (T : tables) (A : spaces).

Lemma repr_table s T A pd a : repr ram s T A → A !! pd = Some a → ∃ t, T !! pd = Some t.
Proof. intros [H _] Ha. apply (d_dom _ _ _ _ H). eauto. Qed.

Lemma alter_same (f : mapping → mapping) v (a : gmap Z mapping) :
  (∀ x, a !! v = Some x → f x = x) → alter f v a = a.
Proof.
  intros Hf. apply map_eq. intros w. destruct (decide (w = v)) as [-> |]; [| by rewrite lookup_alter_ne].
  rewrite lookup_alter_eq. destruct (a !! v) as [x|] eqn:E; [| done]. cbn. by rewrite Hf.
Qed.

Lemma alter_some (f : mapping → mapping) v (a : gmap Z mapping) x :
  a !! v = Some x → alter f v a = <[v := f x]> a.
Proof.
  intros Hx. apply map_eq. intros w. destruct (decide (w = v)) as [-> |].
  - by rewrite lookup_alter_eq, lookup_insert_eq, Hx.
  - by rewrite lookup_alter_ne, lookup_insert_ne.
Qed.

Lemma user_assert va : 0 ≤ va < PHYS_BASE → is_user_vaddr va = true.
Proof. intros. unfold is_user_vaddr. destruct (Z.ltb_spec va PHYS_BASE); [done | lia]. Qed.

Lemma aligned_assert va : va `mod` 4096 = 0 → (pg_ofs va =? 0) = true.
Proof. intros E. by rewrite pg_ofs_eq, E. Qed.

(** Reading the entry of a user page. *)
Lemma find_entry s T A pd t a va :
  repr ram s T A → T !! pd = Some t → A !! pd = Some a → 0 ≤ va < PHYS_BASE →
  lookup_page pd va false s = Ok (entry_addr t va, s).
Proof. intros [H _] Ht Ha Hva. by apply (lookup_page_ok (pal s) T A pd t va false s H eq_refl Ht Hva). Qed.

Lemma pagedir_get_page_ok s T A pd a va :
  repr ram s T A → A !! pd = Some a → 0 ≤ va < PHYS_BASE →
  pagedir_get_page pd va s = Ok (match a !! pg_no va with
    | Some x => if m_present x then m_page x + pg_ofs va else 0 | None => 0 end, s).
Proof.
  intros Hr Ha Hva. destruct (repr_table _ _ _ _ _ Hr Ha) as [t Ht]. unfold pagedir_get_page.
  rewrite st_assert_true by (by apply user_assert). rewrite (st_step _ (find_entry _ _ _ _ _ _ _ Hr Ht Ha Hva)).
  destruct (slot_of (pal s) T A pd t a va s (r_dirs _ _ _ _ Hr) eq_refl Ht Ha Hva) as [[-> E]|[-> E]].
  - rewrite (st_step _ E). destruct (a !! pg_no va) as [x|] eqn:Ex; cbn [encode_slot]; [| done].
    destruct (d_map _ _ _ _ (r_dirs _ _ _ _ Hr) pd a _ x Ha Ex) as [Hx _].
    destruct (encode_bits x Hx) as [-> _]. destruct (m_present x); [| done]. cbn [andb].
    by rewrite (st_lift_step _ _ _ _ (encode_page x Hx)).
  - rewrite st_ret_step. by rewrite E.
Qed.

Lemma pagedir_clear_page_ok s T A pd a va :
  repr ram s T A → A !! pd = Some a → 0 ≤ va < PHYS_BASE → va `mod` 4096 = 0 →
  ∃ s', pagedir_clear_page pd va s = Ok (tt, s') ∧
    repr ram s' T (<[pd := alter (PagedirThm.set_present false) (pg_no va) a]> A) ∧
    dirs_step T (pal s) (pal s') ∧ same_cpu s s'.
Proof.
  intros Hr Ha Hva Hal. destruct (repr_table _ _ _ _ _ Hr Ha) as [t Ht]. unfold pagedir_clear_page.
  rewrite st_assert_true by (by apply aligned_assert). rewrite st_assert_true by (by apply user_assert).
  rewrite (st_step _ (find_entry _ _ _ _ _ _ _ Hr Ht Ha Hva)).
  assert ((∀ x, a !! pg_no va = Some x → m_present x = false) →
    repr ram s T (<[pd := alter (PagedirThm.set_present false) (pg_no va) a]> A)) as Hsame.
  { intros Hn. rewrite alter_same; [by rewrite insert_id |]. intros x Hx. destruct x. apply Hn in Hx. cbn in *. by subst. }
  destruct (slot_of (pal s) T A pd t a va s (r_dirs _ _ _ _ Hr) eq_refl Ht Ha Hva) as [[-> E]|[-> E]].
  - rewrite (st_step _ E). destruct (a !! pg_no va) as [x|] eqn:Ex; cbn [encode_slot].
    2: { exists s. split; [done |]. split; [by apply Hsame | by split; [apply dirs_step_refl |]]. }
    destruct (d_map _ _ _ _ (r_dirs _ _ _ _ Hr) pd a _ x Ha Ex) as [Hx _].
    destruct (encode_bits x Hx) as [-> _]. destruct (m_present x) eqn:Ep; cbn [andb].
    + destruct (encode_updates x Hx) as [-> _].
      destruct (store_entry_ok s T A pd t a va x (PagedirThm.set_present false x) Hr Ht Ha Hva Ex Hx)
        as (s' & Est & Hd & Hc & _ & s'' & Ei & Hr' & Ep' & Hc').
      rewrite (st_step _ Est). exists s''. rewrite (alter_some _ _ _ x) by done. by rewrite Ep'.
    + exists s. split; [done |]. split; [apply Hsame; naive_solver | by split; [apply dirs_step_refl |]].
  - rewrite st_ret_step. exists s. split; [done |].
    split; [apply Hsame; by rewrite E | by split; [apply dirs_step_refl |]].
Qed.

(** *** The accessed and dirty bits *)

Section bits.
Context (bit : Z) (get : mapping → bool) (set : bool → mapping → mapping).
Context (Hget : ∀ x, mapping_ok x → has_flag (encode x) bit = get x).
Context (Hset : ∀ x, mapping_ok x → Z.lor (encode x) bit = encode (set true x) ∧
  Z.land (encode x) (u32 (Z.lnot bit)) = encode (set false x) ∧ ∀ b, mapping_ok (set b x)).
Context (Hup : ∀ x e, mapping_ok x → cached (Some x) e → cached (Some (set true x)) e).

Lemma is_bit_ok s T A pd a va :
  repr ram s T A → A !! pd = Some a → 0 ≤ va < PHYS_BASE →
  is_bit bit pd va s = Ok (match a !! pg_no va with Some x => get x | None => false end, s).
Proof using Hget.
  intros Hr Ha Hva. destruct (repr_table _ _ _ _ _ Hr Ha) as [t Ht]. unfold is_bit.
  rewrite (st_step _ (find_entry _ _ _ _ _ _ _ Hr Ht Ha Hva)).
  destruct (slot_of (pal s) T A pd t a va s (r_dirs _ _ _ _ Hr) eq_refl Ht Ha Hva) as [[-> E]|[-> E]].
  - rewrite (st_step _ E). destruct (a !! pg_no va) as [x|] eqn:Ex; cbn [encode_slot]; [| done].
    destruct (d_map _ _ _ _ (r_dirs _ _ _ _ Hr) pd a _ x Ha Ex) as [Hx _]. by rewrite Hget.
  - by rewrite E.
Qed.

Lemma set_bit_ok s T A pd a va x b :
  repr ram s T A → A !! pd = Some a → 0 ≤ va < PHYS_BASE → a !! pg_no va = Some x →
  ∃ s', set_bit bit pd va b s = Ok (tt, s') ∧ repr ram s' T (<[pd := <[pg_no va := set b x]> a]> A) ∧
    dirs_step T (pal s) (pal s') ∧ same_cpu s s'.
Proof using Hset Hup.
  intros Hr Ha Hva Hx. destruct (repr_table _ _ _ _ _ Hr Ha) as [t Ht]. unfold set_bit.
  rewrite (st_step _ (find_entry _ _ _ _ _ _ _ Hr Ht Ha Hva)).
  destruct (slot_of (pal s) T A pd t a va s (r_dirs _ _ _ _ Hr) eq_refl Ht Ha Hva) as [[-> E]|[_ E]]; [| congruence].
  rewrite Hx in E. rewrite (st_step _ E). cbn [encode_slot].
  destruct (d_map _ _ _ _ (r_dirs _ _ _ _ Hr) pd a _ x Ha Hx) as [Hok _]. destruct (Hset x Hok) as (E1 & E0 & Hok').
  destruct (store_entry_ok s T A pd t a va x (set b x) Hr Ht Ha Hva Hx (Hok' b))
    as (s' & Est & Hd & Hc & Hm & s'' & Ei & Hr' & Ep & Hc'). destruct b.
  - rewrite E1. exists s'. split_and!; try done. apply Hm. intros e. by apply Hup.
  - rewrite E0, (st_step _ Est). exists s''. by rewrite Ep.
Qed.
End bits.

Lemma pagedir_is_dirty_ok s T A pd a va :
  repr ram s T A → A !! pd = Some a → 0 ≤ va < PHYS_BASE →
  pagedir_is_dirty pd va s = Ok (match a !! pg_no va with Some x => m_dirty x | None => false end, s).
Proof. apply is_bit_ok. intros x Hx. by apply encode_bits. Qed.

Lemma pagedir_is_accessed_ok s T A pd a va :
  repr ram s T A → A !! pd = Some a → 0 ≤ va < PHYS_BASE →
  pagedir_is_accessed pd va s = Ok (match a !! pg_no va with Some x => m_accessed x | None => false end, s).
Proof. apply is_bit_ok. intros x Hx. by apply encode_bits. Qed.

Lemma cached_mono x y e :
  cached (Some x) e → m_page y = m_page x → m_present y = m_present x → m_writable y = m_writable x →
  (m_accessed x = true → m_accessed y = true) → (m_dirty x = true → m_dirty y = true) → cached (Some y) e.
Proof.
  intros (c & z & [= <-] & -> & Hc & H1 & H2 & H3 & H4 & H5 & H6) E1 E2 E3 E4 E5.
  exists c, y. split_and!; try done; try congruence; auto.
Qed.

Lemma pagedir_set_dirty_ok s T A pd a va x b :
  repr ram s T A → A !! pd = Some a → 0 ≤ va < PHYS_BASE → a !! pg_no va = Some x →
  ∃ s', pagedir_set_dirty pd va b s = Ok (tt, s') ∧
    repr ram s' T (<[pd := <[pg_no va := PagedirThm.set_dirty b x]> a]> A) ∧ dirs_step T (pal s) (pal s') ∧ same_cpu s s'.
Proof.
  apply set_bit_ok; [intros y Hy; destruct (encode_updates y Hy) as (_ & _ & _ & -> & -> & _); done |].
  intros y e _ Hy. by eapply cached_mono.
Qed.

Lemma pagedir_set_accessed_ok s T A pd a va x b :
  repr ram s T A → A !! pd = Some a → 0 ≤ va < PHYS_BASE → a !! pg_no va = Some x →
  ∃ s', pagedir_set_accessed pd va b s = Ok (tt, s') ∧
    repr ram s' T (<[pd := <[pg_no va := PagedirThm.set_accessed b x]> a]> A) ∧ dirs_step T (pal s) (pal s') ∧ same_cpu s s'.
Proof.
  apply set_bit_ok; [intros y Hy; destruct (encode_updates y Hy) as (_ & -> & -> & _); done |].
  intros y e _ Hy. by eapply cached_mono.
Qed.

(** *** Mapping a page *)

Lemma repr_new_table s T A pd t t' p' :
  repr ram s T A → T !! pd = Some t → pd ≠ init_page_dir s → dirs_ok ram p' (<[pd := t']> T) A →
  repr ram (set_pal p' s) (<[pd := t']> T) A.
Proof.
  intros [H [C1 C2 C3]] Ht Hi H'. split; [done |]. split; cbn; [| done | done].
  split; [apply C1 | rewrite lookup_insert_ne by done; apply C1].
Qed.

(** An entry that is not present gets a frame. *)
Lemma map_frame_ok s T A pd t a va k w :
  repr ram s T A → T !! pd = Some t → A !! pd = Some a → pd ≠ init_page_dir s →
  0 ≤ va < PHYS_BASE → frame_ok k → is_Some (t !! pd_no va) →
  (∀ x, a !! pg_no va = Some x → m_present x = false) →
  let y := Mapping k true w false false in
  ∃ e s', ld (entry_addr t va) s = Ok (e, s) ∧ has_flag e PTE_P = false ∧
    st (entry_addr t va) (encode y) s = Ok (tt, s') ∧
    repr ram s' T (<[pd := <[pg_no va := y]> a]> A) ∧ dirs_step T (pal s) (pal s') ∧ same_cpu s s'.
Proof.
  intros Hr Ht Ha Hi Hva Hk [pt Hpt] Hn y. destruct (page_no_split va Hva) as (Hpi & Hj & Ev).
  destruct (slot_of (pal s) T A pd t a va s (r_dirs _ _ _ _ Hr) eq_refl Ht Ha Hva) as [[_ E]|[E _]].
  2: { rewrite (entry_addr_pos (pal s) T A pd t va (r_dirs _ _ _ _ Hr) Ht Hva) in E.
       apply bool_decide_eq_false in E. by destruct E. }
  unfold entry_addr in *. rewrite Hpt in *.
  destruct (st_pte (pal s) T A pd t a (pd_no va) (pt_no va) pt y s (r_dirs _ _ _ _ Hr) eq_refl Ht Ha Hpt Hj Hk)
    as (p' & Est & Hd & Hst). rewrite <-Ev in Hd.
  exists (encode_slot (a !! pg_no va)), (set_pal p' s). split; [done |]. split.
  { destruct (a !! pg_no va) as [x|] eqn:Ex; [| done]. cbn [encode_slot].
    destruct (d_map _ _ _ _ (r_dirs _ _ _ _ Hr) pd a _ x Ha Ex) as [Hx _]. destruct (encode_bits x Hx) as [-> _]. by apply Hn. }
  split; [done |]. split; [| done]. split; [done |].
  apply cpu_ok_update; [apply Hr | done | eauto |]. intros v e <- Hv.
  pose proof (c_tlb _ _ _ (r_cpu _ _ _ _ Hr) v e a Hv Ha) as Hc.
  destruct (decide (v = pg_no va)) as [-> |]; [| by rewrite lookup_insert_ne].
  destruct Hc as (c & z & Hz & _ & _ & _ & Hp & _). rewrite (Hn z Hz) in Hp. done.
Qed.

Lemma pagedir_set_page_ok s T A pd a va k w :
  repr ram s T A → A !! pd = Some a → pd ≠ init_page_dir s →
  0 ≤ va < PHYS_BASE → va `mod` 4096 = 0 → frame_ok k → k + 4096 ≤ PHYS_BASE + 4096 * ram →
  (∀ x, a !! pg_no va = Some x → m_present x = false) →
  (pagedir_set_page ram pd va k w s = Ok (false, s) ∧ ¬ page_free (pal s) false) ∨
  ∃ s' T', pagedir_set_page ram pd va k w s = Ok (true, s') ∧
    repr ram s' T' (<[pd := <[pg_no va := Mapping k true w false false]> a]> A) ∧
    dirs_step T' (pal s) (pal s') ∧ same_cpu s s'.
Proof.
  intros Hr Ha Hi Hva Hal Hk Hram Hn. destruct (repr_table _ _ _ _ _ Hr Ha) as [t Ht]. unfold pagedir_set_page.
  rewrite st_assert_true by (by apply aligned_assert). rewrite st_assert_true by (apply aligned_assert, Hk).
  rewrite st_assert_true by (by apply user_assert). destruct Hk as (K1 & K2 & K3).
  destruct (ptov_vtop k) as [Ek _]; [unfold PHYS_BASE in *; lia |]. rewrite (st_lift_step _ _ _ _ Ek).
  rewrite st_assert_true.
  2: { rewrite Z.shiftr_div_pow2 by done. change (2 ^ PTSHIFT) with 4096. apply Z.ltb_lt.
       apply Z.div_lt_upper_bound; unfold PHYS_BASE in *; lia. }
  rewrite st_get_step. rewrite st_assert_true by (by destruct (Z.eqb_spec pd (init_page_dir s))).
  assert (∀ s1 T1 t1, repr ram s1 T1 A → T1 !! pd = Some t1 → init_page_dir s1 = init_page_dir s → is_Some (t1 !! pd_no va) →
    (if negb (entry_addr t1 va =? 0) then
       e ← ld (entry_addr t1 va); st_assert (negb (has_flag e PTE_P));; e ← st_lift (pte_create_user k w);
       st (entry_addr t1 va) e;; mret true
     else mret false) s1 = (st (entry_addr t1 va) (encode (Mapping k true w false false));; mret true) s1) as Hrun.
  { intros s1 T1 t1 Hr1 Ht1 Hi1 Hs1.
    rewrite (entry_addr_pos (pal s1) T1 A pd t1 va (r_dirs _ _ _ _ Hr1) Ht1 Hva), bool_decide_eq_true_2 by done.
    destruct (map_frame_ok s1 T1 A pd t1 a va k w Hr1 Ht1 Ha) as (e & s2 & E1 & E2 & _); [by rewrite Hi1 | done | by split_and! | done | done |].
    rewrite (st_step _ E1), st_assert_true by (by rewrite E2).
    by rewrite (st_lift_step _ _ _ _ (encode_create k w ltac:(by split_and!))). }
  destruct (t !! pd_no va) as [pt|] eqn:Ept.
  - right. rewrite (st_step _ (lookup_page_ok (pal s) T A pd t va true s (r_dirs _ _ _ _ Hr) eq_refl Ht Hva ltac:(eauto))).
    rewrite (Hrun s T t) by eauto.
    destruct (map_frame_ok s T A pd t a va k w Hr Ht Ha Hi Hva) as (_ & s2 & _ & _ & E & H); [by split_and! | eauto | done |].
    rewrite (st_step _ E). by exists s2, T.
  - destruct (lookup_create_ok (pal s) T A pd t a va s (r_dirs _ _ _ _ Hr) eq_refl Ht Ha Hva Ept) as [[E Hf]|(p' & pt & E & Hd & Hs)].
    + left. rewrite (st_step _ E). done.
    + right. cbv zeta in *. set (t' := <[pd_no va := pt]> t) in *. set (T' := <[pd := t']> T) in *.
      pose proof (repr_new_table s T A pd t t' p' Hr Ht Hi Hd) as Hr1. fold T' in Hr1.
      assert (T' !! pd = Some t') as Ht1 by apply lookup_insert_eq.
      assert (is_Some (t' !! pd_no va)) as Hs1 by (unfold t'; rewrite lookup_insert_eq; eauto).
      rewrite (st_step _ E), (Hrun _ _ _ Hr1 Ht1 eq_refl Hs1).
      destruct (map_frame_ok (set_pal p' s) T' A pd t' a va k w Hr1 Ht1 Ha Hi Hva) as (_ & s2 & _ & _ & Est & Hr2 & Hs2 & Hc);
        [by split_and! | done | done |].
      rewrite (st_step _ Est). exists s2, T'. split; [done |]. split; [done |]. split; [| done].
      by eapply dirs_step_trans.
Qed.

(** *** A new directory *)

Lemma add_dir p T A pd :
  dirs_ok ram p T A → in_use p false pd → (∀ pd' o, ¬ owns T pd' o pd) →
  (∀ i, 0 ≤ i < 768 → word (memory p) (pd + 4 * i) = 0) →
  dirs_ok ram p (<[pd := ∅]> T) (<[pd := ∅]> A).
Proof.
  intros H Hu Hno Hz.
  assert (∀ pd' o a, owns (<[pd := ∅]> T) pd' o a → owns T pd' o a ∨ pd' = pd ∧ o = None ∧ a = pd) as Hown.
  { intros pd' o a (t & Ht & Ho). destruct (decide (pd' = pd)) as [-> |].
    - rewrite lookup_insert_eq in Ht. injection Ht as <-. destruct o; [by rewrite lookup_empty in Ho | by right].
    - rewrite lookup_insert_ne in Ht by done. left. by exists t. }
  split.
  - apply H.
  - intros pd'. destruct (decide (pd' = pd)) as [-> |]; [rewrite !lookup_insert_eq; split; eauto |].
    rewrite !lookup_insert_ne by done. apply (d_dom _ _ _ _ H).
  - intros pd' o a [Ho|(_ & _ & ->)]%Hown; [by eapply (d_used _ _ _ _ H) | done].
  - intros pd1 o1 pd2 o2 a [Ho1|(-> & -> & ->)]%Hown [Ho2|(E1 & E2 & E3)]%Hown; subst; try done;
      try (by exfalso; eapply Hno). by eapply (d_apart _ _ _ _ H).
  - intros pd' t i pt Ht Hi. destruct (Hown pd' (Some i) pt) as [(t' & ? & ?)|(_ & [=] & _)]; [by exists t |].
    by eapply (d_index _ _ _ _ H).
  - intros pd' t i Ht Hi. destruct (decide (pd' = pd)) as [-> |].
    + rewrite lookup_insert_eq in Ht. injection Ht as <-. rewrite lookup_empty. unfold pde_ok. by apply Hz.
    + rewrite lookup_insert_ne in Ht by done. by apply (d_pde _ _ _ _ H).
  - intros pd' t a i pt j Ht Ha Hi. destruct (decide (pd' = pd)) as [-> |].
    + rewrite lookup_insert_eq in Ht. injection Ht as <-. by rewrite lookup_empty in Hi.
    + rewrite lookup_insert_ne in Ht by done. rewrite lookup_insert_ne in Ha by done. by eapply (d_pte _ _ _ _ H).
  - intros pd' a v x Ha Hv. destruct (decide (pd' = pd)) as [-> |].
    + rewrite lookup_insert_eq in Ha. injection Ha as <-. by rewrite lookup_empty in Hv.
    + rewrite lookup_insert_ne in Ha by done.
      destruct (d_map _ _ _ _ H pd' a v x Ha Hv) as (Hx & t & ?). split; [done |]. exists t. by rewrite lookup_insert_ne.
Qed.

Lemma pagedir_create_ok s T A :
  repr ram s T A →
  (pagedir_create s = Ok (0, s) ∧ ¬ page_free (pal s) false) ∨
  ∃ pd s', pagedir_create s = Ok (pd, s') ∧ pd ≠ 0 ∧ A !! pd = None ∧ ¬ in_use (pal s) false pd ∧
    repr ram s' (<[pd := ∅]> T) (<[pd := ∅]> A) ∧ dirs_step (<[pd := ∅]> T) (pal s) (pal s') ∧ same_cpu s s' ∧
    ∀ i, 768 ≤ i < 1024 → word (memory (pal s')) (pd + 4 * i) = word (memory (pal s)) (init_page_dir s + 4 * i).
Proof.
  intros Hr. pose proof Hr as [H [[C1 C1'] C2 C3]]. set (ini := init_page_dir s) in *.
  assert (owns T ini None ini) as Hini by (by exists ∅). destruct (owns_page _ _ _ _ _ _ H Hini) as (I1 & I2 & I3 & _).
  destruct (get_page_ok ram 0 (pal s) (d_pages _ _ _ _ H)) as [[E Hf]|(pd & p1 & E & Hpd & _ & G)].
  - left. split; [| done]. unfold pagedir_create.
    assert (get_page 0 s = Ok (0, s)) as Eg by (unfold get_page; rewrite E; by destruct s).
    by rewrite (st_step _ Eg).
  - right. pose proof (dirs_ok_got _ _ _ _ _ _ H G) as H1.
    pose proof (pg_page _ _ _ _ _ G) as Hu. pose proof (pg_new _ _ _ _ _ G false) as Hnew.
    change (has_flag 0 PAL_USER) with false in Hu.
    destruct (in_use_page _ _ _ _ (pg_ok _ _ _ _ _ G) Hu) as (P1 & P2 & _ & P3 & P4).
    assert (∀ pd' o, ¬ owns T pd' o pd) as Hno by (intros pd' o Ho; by apply Hnew, (d_used _ _ _ _ H _ _ _ Ho)).
    assert (∀ pd' o b c, owns T pd' o b → b ≤ c < b + 4096 → off_page pd c) as Hoff.
    { intros pd' o b c Ho Hc. unfold off_page, PGSIZE. destruct (owns_page _ _ _ _ _ _ H Ho) as (_ & Hb & _).
      assert (b ≠ pd) as Hn by (intros ->; by eapply Hno). destruct (pages_apart _ _ Hb P2 Hn); lia. }
    assert (∃ m, memcpy (memory p1) pd ini PGSIZE = Ok (pd, m) ∧ copied (memory p1) m pd ini PGSIZE) as (m & Em & Hcp).
    { destruct (owns_page _ _ _ _ _ _ H1 Hini) as (_ & _ & _ & I4').
      assert (ini ≠ pd) as Hne by (intros Ei; rewrite Ei in Hini; by eapply Hno).
      apply memcpy_ok; unfold PGSIZE, PHYS_BASE in *; [lia | lia | lia | done | done |].
      destruct (pages_apart _ _ I2 P2 Hne); lia. }
    pose proof (copied_outside _ _ _ _ _ Hcp) as Hout. pose proof (copied_bytes_mem _ _ _ _ _ (pages_bytes _ _ (pg_ok _ _ _ _ _ G)) Hcp) as Hbm.
    assert (∀ i, 0 ≤ i < 1024 → word m (pd + 4 * i) = word (memory (pal s)) (ini + 4 * i)) as Hwd.
    { intros i Hi. rewrite (word_copied _ _ _ _ _ _ Hcp) by (unfold PGSIZE; lia).
      replace (pd + 4 * i - pd) with (4 * i) by lia. apply word_same. intros b Hb.
      apply (pg_other _ _ _ _ _ G). apply (Hoff _ _ _ _ Hini). lia. }
    exists pd, (set_pal (set_memory m p1) s). split.
    { unfold pagedir_create. assert (get_page 0 s = Ok (pd, set_pal p1 s)) as Eg by (unfold get_page; by rewrite E).
      rewrite (st_step _ Eg). destruct (Z.eqb_spec pd 0); [lia |]. cbn [negb]. rewrite st_get_step.
      by rewrite (st_lift_step _ _ _ _ Em). }
    split; [lia |].
    assert (A !! pd = None) as HA.
    { apply eq_None_not_Some. intros [t Ht]%(d_dom _ _ _ _ H). apply (Hno pd None). by exists t. }
    split; [done |]. split; [done |]. split; [split | split; [split | split; [done |]]].
    + apply add_dir; [| by apply in_use_set_memory | done |].
      * apply (dirs_ok_same p1); [done | |].
        { apply pages_ok_set_memory; [apply G | done |]. intros b Hb. rewrite Hcp. case_decide as Hd; [| done].
          apply (in_use_page _ _ _ _ (pg_ok _ _ _ _ _ G) (d_used _ _ _ _ H1 _ _ _ Hini)). unfold PGSIZE in *. lia. }
        intros pd' o b Ho. split; [apply in_use_set_memory; by apply (d_used _ _ _ _ H1 _ _ _ Ho) |].
        intros c Hc. apply Hout. apply (Hoff _ _ _ _ Ho Hc).
      * intros i Hi. change (memory (set_memory m p1)) with m. rewrite Hwd by lia.
        pose proof (d_pde _ _ _ _ H ini ∅ i C1' Hi) as Hx. rewrite lookup_empty in Hx. done.
    + assert (init_page_dir s ≠ pd) as Hne1 by (intros Ei; rewrite <-Ei in HA; fold ini in HA; congruence).
      assert (active s ≠ pd) as Hne2 by (intros Ei; rewrite Ei, HA in C2; by destruct C2).
      split; cbn; [by rewrite !lookup_insert_ne | change (is_Some (<[pd:=∅]> A !! active s)); by rewrite lookup_insert_ne |].
      intros v e a Hv Ha. change (<[pd:=∅]> A !! active s = Some a) in Ha. rewrite lookup_insert_ne in Ha by done.
      by eapply C3.
    + intros u b Hb. apply in_use_set_memory, G. by left.
    + intros u b Hb%in_use_set_memory. apply G in Hb as [Hb|[-> ->]]; [by left | right]. split; [done |].
      exists pd, None, ∅. by rewrite lookup_insert_eq.
    + intros b Hb. assert (off_page pd b) as Ho.
      { apply (Hb pd None). exists ∅. by rewrite lookup_insert_eq. }
      change (memory (pal (set_pal (set_memory m p1) s))) with m. rewrite Hout by done. by apply (pg_other _ _ _ _ _ G).
    + eapply same_pools_trans; [apply G | apply same_pools_memory].
    + intros i Hi. apply Hwd. lia.
Qed.

(** *** An access by a program *)

(** What an access does to an entry that allows it. *)
Definition touch (write : bool) (x : mapping) : mapping :=
  PagedirThm.set_accessed true (if write then PagedirThm.set_dirty true x else x).

Definition permits (write : bool) (x : mapping) : bool := m_present x && (negb write || m_writable x).

(** The kernel address a program's access reaches; [None] is a fault. *)
Definition translate (o : option mapping) (va : Z) (write : bool) : option Z :=
  match o with Some x => if permits write x then Some (m_page x + pg_ofs va) else None | None => None end.

Lemma allows_encode x write : mapping_ok x → allows (encode x) write = permits write x.
Proof. intros Hx. unfold allows, permits. destruct (encode_bits x Hx) as (-> & -> & -> & _). by destruct (m_present x). Qed.

(** The processor marks a directory entry accessed. *)
Lemma touch_pde s T A pd t i pt w :
  repr ram s T A → T !! pd = Some t → t !! i = Some pt → word (memory (pal s)) (pd + 4 * i) = w →
  ∃ p', st (pd + 4 * i) (Z.lor w PTE_A) s = Ok (tt, set_pal p' s) ∧ repr ram (set_pal p' s) T A ∧ dirs_step T (pal s) p'.
Proof.
  intros Hr Ht Hi <-. pose proof Hr as [H Hc]. pose proof (d_index _ _ _ _ H _ _ _ _ Ht Hi) as Hir.
  pose proof (d_pde _ _ _ _ H pd t i Ht Hir) as Hw. rewrite Hi in Hw.
  destruct (pde_get_pt_eq pt _ (owns_frame _ _ _ pd (Some i) pt H ltac:(by exists t)) Hw) as (_ & _ & _ & _ & Hw' & Hrange).
  destruct (st_word (pal s) T A pd None pd i (Z.lor (word (memory (pal s)) (pd + 4 * i)) PTE_A) s H eq_refl)
    as (m & E & _ & Hp & Hm & Hf & Hd); [by exists t | lia | done |].
  exists (set_memory m (pal s)). split; [done |]. split; [| done]. split; [| by destruct Hc].
  split; try apply H; [done | |].
  - intros pd' t' i' Ht' Hi'. change (memory (pal (set_pal (set_memory m (pal s)) s))) with m.
    destruct (decide ((pd', i') = (pd, i))) as [[= -> ->]|Hn].
    + rewrite Hm. assert (t' = t) as -> by congruence. by rewrite Hi.
    + rewrite (Hf pd' None) by (by exists t' || lia || congruence). by apply (d_pde _ _ _ _ H).
  - intros pd' t' a' i' pt' j Ht' Ha' Hi' Hj. change (memory (pal (set_pal (set_memory m (pal s)) s))) with m.
    rewrite (Hf pd' (Some i')) by (by exists t' || lia || congruence). by eapply (d_pte _ _ _ _ H).
Qed.

Lemma touch_entry x (write : bool) : mapping_ok x →
  Z.lor (encode x) (if write then Z.lor PTE_A PTE_D else PTE_A) = encode (touch write x) ∧ mapping_ok (touch write x) ∧
  m_page (touch write x) = m_page x.
Proof. intros Hx. destruct (encode_updates x Hx) as (_ & E1 & _ & _ & _ & E2). by destruct write. Qed.

(** [cr3] names the active directory. *)
Lemma cr3_page s T A : repr ram s T A → ptov (Z.land (cr3 s) PTE_ADDR) = Ok (active s).
Proof.
  intros Hr. destruct (repr_frame _ _ _ _ Hr (c_active _ _ _ (r_cpu _ _ _ _ Hr))) as (F1 & F2 & F3). unfold active in *.
  destruct (entry_base (Mapping (cr3 s + PHYS_BASE) true true true true)) as [B1 B2]; [by split_and! |].
  cbn [m_page] in *. replace (cr3 s + PHYS_BASE - PHYS_BASE) with (cr3 s) in * by lia.
  change PTE_ADDR with (4294967295 - 4095). rewrite page_land by lia.
  destruct (ptov_vtop (cr3 s + PHYS_BASE)) as [_ E]; [unfold PHYS_BASE in *; lia |].
  by replace (cr3 s + PHYS_BASE - PHYS_BASE) with (cr3 s) in E by lia.
Qed.

(** The walk of the tables, from a state that represents a map. *)
Lemma walk_ok s T A a va write (o : option mapping) :
  repr ram s T A → A !! active s = Some a → 0 ≤ va < PHYS_BASE → a !! pg_no va = o →
  ∃ s', mmu_walk va write s =
    Ok (translate o va write, s') ∧
    repr ram s' T (match o with
      | Some x => if permits write x then <[active s := <[pg_no va := touch write x]> a]> A else A | None => A end) ∧
    dirs_step T (pal s) (pal s') ∧ same_cpu s s'.
Proof.
  intros Hr Ha Hva Ho. destruct (page_no_split va Hva) as (Hi & Hj & Ev).
  destruct (repr_frame _ _ _ _ Hr (c_active _ _ _ (r_cpu _ _ _ _ Hr))) as (F1 & F2 & F3).
  destruct (repr_table _ _ _ _ _ Hr Ha) as [t Ht]. set (pd := active s) in *.
  unfold mmu_walk. rewrite st_get_step, (st_lift_step _ _ _ _ (cr3_page _ _ _ Hr)).
  rewrite (st_step _ (ld_word (pal s) T A pd None pd (pd_no va) s (r_dirs _ _ _ _ Hr) eq_refl ltac:(by exists t) ltac:(lia))).
  pose proof (d_pde _ _ _ _ (r_dirs _ _ _ _ Hr) pd t (pd_no va) Ht Hi) as Hw. destruct (t !! pd_no va) as [pt|] eqn:Ept.
  2: { unfold pde_ok in Hw. rewrite Hw. assert (o = None) as ->.
       { destruct o as [x|]; [| done].
         destruct (entry_of _ _ _ _ _ _ _ _ Hr Ht Ha Hva Ho) as (pt & ? & _). congruence. }
       exists s. split; [done |]. split; [done |]. by split; [apply dirs_step_refl |]. }
  destruct (pde_get_pt_eq pt _ (owns_frame _ _ _ pd (Some (pd_no va)) pt (r_dirs _ _ _ _ Hr) ltac:(by exists t)) Hw)
    as (_ & -> & _ & Eg & _). cbn [negb]. rewrite (st_lift_step _ _ _ _ Eg).
  rewrite (st_step _ (ld_word (pal s) T A pd (Some (pd_no va)) pt (pt_no va) s (r_dirs _ _ _ _ Hr) eq_refl ltac:(by exists t) Hj)).
  rewrite (d_pte _ _ _ _ (r_dirs _ _ _ _ Hr) pd t a (pd_no va) pt (pt_no va) Ht Ha Ept Hj), <-Ev, Ho.
  destruct o as [x|]; cbn [encode_slot].
  2: { exists s. split; [done |]. split; [done |]. by split; [apply dirs_step_refl |]. }
  destruct (d_map _ _ _ _ (r_dirs _ _ _ _ Hr) pd a _ x Ha Ho) as [Hx _]. rewrite allows_encode by done.
  unfold translate. destruct (permits write x) eqn:Ep.
  2: { exists s. split; [done |]. split; [done |]. by split; [apply dirs_step_refl |]. }
  destruct (touch_pde s T A pd t (pd_no va) pt _ Hr Ht Ept eq_refl) as (p1 & E1 & Hr1 & Hd1). rewrite (st_step _ E1).
  destruct (touch_entry x write Hx) as (Ee & Hy & Epg). rewrite Ee.
  destruct (st_pte p1 T A pd t a (pd_no va) (pt_no va) pt (touch write x) (set_pal p1 s) (r_dirs _ _ _ _ Hr1) eq_refl Ht Ha Ept Hj Hy)
    as (p2 & E2 & Hd2 & Hs2). rewrite <-Ev in Hd2. rewrite (st_step _ E2).
  eexists. split.
  { unfold st_modify. unfold mbind at 1, st_bind at 1. rewrite (st_lift_step _ _ _ _ (encode_page _ Hy)). by rewrite Epg. }
  cbn [pal cr3 tlb init_page_dir set_pal]. split; [| split; [by eapply dirs_step_trans | done]]. split; [done |].
  pose proof (not_init _ _ _ _ _ _ _ Hr Ha Ho) as Hni. destruct (r_cpu _ _ _ _ Hr) as [[C1 C1'] C2 C3].
  split; cbn.
  - split; [by rewrite lookup_insert_ne | done].
  - change (is_Some (<[pd:=<[pg_no va:=touch write x]> a]> A !! pd)). rewrite lookup_insert_eq. eauto.
  - intros v e a' Hv Ha'. change (<[pd:=<[pg_no va:=touch write x]> a]> A !! pd = Some a') in Ha'.
    rewrite lookup_insert_eq in Ha'. injection Ha' as <-. unfold permits in Ep. apply andb_prop in Ep as [Ep _].
    destruct (decide (v = pg_no va)) as [-> |].
    + rewrite lookup_insert_eq in Hv. injection Hv as <-. rewrite lookup_insert_eq.
      exists (touch write x), (touch write x). by destruct write.
    + rewrite lookup_insert_ne in Hv by done. rewrite lookup_insert_ne by done. by eapply C3.
Qed.

(** Through the cache or not, an access sees the map. *)
Lemma mmu_access_ok s T A a va write :
  repr ram s T A → A !! active s = Some a → 0 ≤ va < PHYS_BASE →
  ∃ s', mmu_access va write s =
    Ok (translate (a !! pg_no va) va write, s') ∧
    repr ram s' T (match a !! pg_no va with
      | Some x => if permits write x then <[active s := <[pg_no va := touch write x]> a]> A else A | None => A end) ∧
    dirs_step T (pal s) (pal s') ∧ same_cpu s s'.
Proof.
  intros Hr Ha Hva. unfold mmu_access. rewrite st_get_step.
  destruct (tlb s !! pg_no va) as [e|] eqn:Et; [| by apply walk_ok].
  destruct (allows e write && has_flag e PTE_A && (negb write || has_flag e PTE_D)) eqn:Eh; [| by apply walk_ok].
  destruct (c_tlb _ _ _ (r_cpu _ _ _ _ Hr) _ _ _ Et Ha) as (x & y & Hy & -> & Hx & H1 & H2 & H3 & H4 & H5 & H6).
  rewrite Hy. unfold translate. rewrite allows_encode in Eh by done.
  destruct (encode_bits x Hx) as (_ & _ & _ & Ea & Ed). rewrite Ea, Ed in Eh.
  apply andb_prop in Eh as [[Ep Eacc]%andb_prop Edir].
  assert (permits write y = true) as ->.
  { unfold permits in *. rewrite H2, <-H4. rewrite H1 in Ep. done. }
  rewrite (st_lift_step _ _ _ _ (encode_page x Hx)), H3. exists s. split; [done |].
  assert (touch write y = y) as ->.
  { unfold touch, PagedirThm.set_accessed, PagedirThm.set_dirty. destruct y as [k p w c d]. cbn in *.
    rewrite (H5 Eacc). destruct write; cbn in *; [by rewrite (H6 Edir) | done]. }
  rewrite (insert_id a), insert_id by done. split; [done |]. by split; [apply dirs_step_refl |].
Qed.
End ops.
