(* ===== verification/PagedirFree.v ===== *)
(** [pagedir_destroy] gives back exactly the pages of a directory: its frames,
    its tables and the directory itself. *)
From S2P Require Import Prelude Bytes Bitmap CString CStringThm Words Vaddr Palloc PageMem Pagedir PagedirThm PagedirOps.
Local Open Scope Z_scope.

(** From [p] to [p'] the pages [F] were freed. *)
Record freed (ram : Z) (p p' : palloc_state) (F : bool → Z → Prop) : Prop := {
  fr_ok : pages_ok ram p';
  fr_use u b : in_use p' u b ↔ in_use p u b ∧ ¬ F u b;
  fr_sub u b : F u b → in_use p u b;
  fr_mem b : (∀ u a, F u a → off_page a b) → memory p' !! b = memory p !! b;
}.

Section freed.
Context {ram : Z}.
Implicit Types (p : palloc_state) (F : bool → Z → Prop).

Lemma freed_refl p : pages_ok ram p → freed ram p p (λ _ _, False).
Proof. intros Hp. split; [done | | done | done]. intros u b. tauto. Qed.

Lemma freed_ext p p' F G : (∀ u b, F u b ↔ G u b) → freed ram p p' F → freed ram p p' G.
Proof.
  intros E [H1 H2 H3 H4]. split; [done | | |].
  - intros u b. rewrite H2. by rewrite E.
  - intros u b. rewrite <-E. apply H3.
  - intros b Hb. apply H4. intros u a. rewrite E. apply Hb.
Qed.

Lemma freed_page p p' F u a :
  freed ram p p' F → in_use p u a → ¬ F u a →
  ∃ p'', palloc_free_page a p' = Ok p'' ∧ freed ram p p'' (λ v b, F v b ∨ (v = u ∧ b = a)).
Proof.
  intros [H1 H2 H3 H4] Hu Hn.
  destruct (free_page_ok ram p' u a H1) as (p'' & E & Hp & Huse & Hm & _); [by apply H2 |].
  exists p''. split; [done |]. split; [done | | |].
  - intros v b. rewrite Huse, H2. split; [intros [[? ?] ?]; split; [done | naive_solver] |].
    intros [Hb Hx]. split; [tauto |]. intros ->. apply Hx. right. split; [| done].
    eapply (used_pool ram p'); [done | by apply H2; split; [done | naive_solver] | by apply H2].
  - intros v b [Hb|[-> ->]]; [by apply H3 | done].
  - intros b Hb. rewrite Hm, H4; [done | |]; intros; eapply Hb; naive_solver.
Qed.

(** A kernel page that stays keeps its words. *)
Lemma freed_word p p' F a k :
  pages_ok ram p → freed ram p p' F → in_use p false a → ¬ F false a → 0 ≤ k < 1024 →
  word (memory p') (a + 4 * k) = word (memory p) (a + 4 * k).
Proof.
  intros Hp Hf Ha Hn Hk. apply word_same. intros b Hb. apply (fr_mem _ _ _ _ Hf).
  intros u c Hc. unfold off_page, PGSIZE.
  assert ((u, c) ≠ (false, a)) as Hne by (intros [= -> ->]; done).
  destruct (used_apart ram p u false c a Hp (fr_sub _ _ _ _ Hf _ _ Hc) Ha Hne); lia.
Qed.
End freed.

(** The pages of a directory with map [a] and tables [t]. *)
Definition dir_pages (pd : Z) (t : gmap Z Z) (a : gmap Z mapping) (u : bool) (b : Z) : Prop :=
  if u then ∃ v x, a !! v = Some x ∧ m_present x = true ∧ m_page x = b else b = pd ∨ ∃ i, t !! i = Some b.

(** The frames that a directory maps are pages of the user pool, each mapped
    once. *)
Record frames_ok (p : palloc_state) (a : gmap Z mapping) : Prop := {
  fo_used v x : a !! v = Some x → m_present x = true → in_use p true (m_page x);
  fo_once v w x y : a !! v = Some x → a !! w = Some y → m_present x = true → m_present y = true →
    m_page x = m_page y → v = w;
}.

Section destroy.
Context {ram : Z}.
Context (p : palloc_state) (T : tables) (A : spaces) (pd : Z) (t : gmap Z Z) (a : gmap Z mapping).
Context (Hd : dirs_ok ram p T A) (Ht : T !! pd = Some t) (Ha : A !! pd = Some a) (Hfr : frames_ok p a).

(** What is free when the loops are at entry [j] of table [i]. *)
Definition so_far (i j : Z) (u : bool) (b : Z) : Prop :=
  if u then ∃ v x, a !! v = Some x ∧ m_present x = true ∧ m_page x = b ∧ v < 1024 * i + j
  else ∃ i', i' < i ∧ t !! i' = Some b.

Lemma table_left i j pt : t !! i = Some pt → in_use p false pt ∧ ¬ so_far i j false pt.
Proof using Hd Ht.
  intros Hi. split; [apply (d_used _ _ _ _ Hd pd (Some i)); by exists t |]. intros (i' & Hi' & E).
  destruct (d_apart _ _ _ _ Hd pd (Some i) pd (Some i') pt) as [_ [= ->]]; [by exists t | by exists t | lia].
Qed.

Lemma dir_left i j : in_use p false pd ∧ ¬ so_far i j false pd.
Proof using Hd Ht.
  split; [apply (d_used _ _ _ _ Hd pd None); by exists t |]. intros (i' & Hi' & E).
  destruct (d_apart _ _ _ _ Hd pd None pd (Some i') pd) as [_ [=]]; [by exists t | by exists t].
Qed.

Lemma ld_left i j o b k s :
  freed ram p (pal s) (so_far i j) → owns T pd o b → ¬ so_far i j false b → 0 ≤ k < 1024 →
  ld (b + 4 * k) s = Ok (word (memory p) (b + 4 * k), s).
Proof using Hd.
  intros Hf Ho Hn Hk. pose proof (d_used _ _ _ _ Hd _ _ _ Ho) as Hu. unfold ld.
  rewrite load_word_ok; [by rewrite (freed_word p _ _ b k (d_pages _ _ _ _ Hd) Hf Hu Hn Hk) |].
  destruct (in_use_page ram (pal s) false b (fr_ok _ _ _ _ Hf)) as (_ & _ & _ & _ & Hm); [by apply (fr_use _ _ _ _ Hf) |].
  eapply mapped_sub; [exact Hm | lia | lia].
Qed.

Lemma free_left i j F u b s :
  freed ram p (pal s) (so_far i j) → in_use p u b → ¬ so_far i j u b →
  (∀ v c, so_far i j v c ∨ (v = u ∧ c = b) ↔ F v c) →
  ∃ p', free_page b s = Ok (tt, set_pal p' s) ∧ freed ram p p' F.
Proof using.
  intros Hf Hu Hn E. destruct (freed_page _ _ _ _ _ Hf Hu Hn) as (p' & Efree & Hf').
  exists p'. split; [unfold free_page; by rewrite Efree | exact (freed_ext _ _ _ _ E Hf')].
Qed.

Lemma destroy_ptes_ok i pt (n : nat) j s :
  0 ≤ i → t !! i = Some pt → 0 ≤ j → j + Z.of_nat n = 1024 → freed ram p (pal s) (so_far i j) →
  ∃ p', destroy_ptes n (pt + 4 * j) s = Ok (tt, set_pal p' s) ∧ freed ram p p' (so_far i 1024).
Proof using Hd Ht Ha Hfr.
  revert j s. induction n as [|n IH]; intros j s Hi0 Hi Hj Hn Hf; cbn [destroy_ptes].
  - exists (pal s). assert (j = 1024) as -> by lia. split; [by destruct s | done].
  - destruct (table_left i j pt Hi) as [Hu Hnf].
    rewrite (st_step _ (ld_left i j (Some i) pt j s Hf ltac:(by exists t) Hnf ltac:(lia))).
    rewrite (d_pte _ _ _ _ Hd pd t a i pt j Ht Ha Hi ltac:(lia)).
    replace (pt + 4 * j + 4) with (pt + 4 * (j + 1)) by lia.
    assert ((∀ x, a !! (1024 * i + j) = Some x → m_present x = false) →
      ∃ p', destroy_ptes n (pt + 4 * (j + 1)) s = Ok (tt, set_pal p' s) ∧ freed ram p p' (so_far i 1024)) as Hskip.
    { intros Hno. apply IH; [done | done | lia | lia |]. eapply freed_ext; [| exact Hf]. intros [|] b; [| done].
      split; intros (v & x & Hv & Hp & Hb & Hlt); exists v, x; split_and!; try done; try lia.
      destruct (decide (v = 1024 * i + j)) as [-> |]; [| lia]. rewrite (Hno x Hv) in Hp. done. }
    destruct (a !! (1024 * i + j)) as [x|] eqn:Ex; cbn [encode_slot].
    2: { destruct Hskip as (p' & E & Hf'); [done |]. exists p'. change (has_flag 0 PTE_P) with false; cbv iota. by rewrite st_ret_step. }
    destruct (d_map _ _ _ _ Hd pd a _ x Ha Ex) as [Hx _]. destruct (encode_bits x Hx) as [-> _].
    destruct (m_present x) eqn:Ep.
    2: { destruct Hskip as (p' & E & Hf'); [naive_solver |]. exists p'. by rewrite st_ret_step. }
    destruct (free_left i j (so_far i (j + 1)) true (m_page x) s Hf) as (p1 & E1 & Hf1).
    + by apply (fo_used _ _ Hfr _ _ Ex).
    + intros (v & y & Hv & Hp & Hb & Hlt). rewrite (fo_once _ _ Hfr v (1024 * i + j) y x) in Hlt by done. lia.
    + intros [|] c; [| cbn; naive_solver]. split.
      * intros [(v & y & Hv & Hp & Hb & Hlt)|[_ ->]]; [exists v, y | exists (1024 * i + j), x]; split_and!; try done; lia.
      * intros (v & y & Hv & Hp & Hb & Hlt). destruct (decide (v = 1024 * i + j)) as [-> |].
        { right. split; [done |]. congruence. }
        left. exists v, y. split_and!; try done. lia.
    + rewrite st_assoc, (st_lift_step _ _ _ _ (encode_page x Hx)), (st_step _ E1).
      destruct (IH (j + 1) (set_pal p1 s)) as (p' & E & Hf'); [done | done | lia | lia | done |].
      exists p'. by rewrite E.
Qed.

Lemma destroy_pdes_ok (n : nat) i s :
  0 ≤ i → i + Z.of_nat n = 768 → freed ram p (pal s) (so_far i 0) →
  ∃ p', destroy_pdes n (pd + 4 * i) s = Ok (tt, set_pal p' s) ∧ freed ram p p' (so_far 768 0).
Proof using Hd Ht Ha Hfr.
  revert i s. induction n as [|n IH]; intros i s Hi Hn Hf; cbn [destroy_pdes].
  - exists (pal s). assert (i = 768) as -> by lia. split; [by destruct s | done].
  - destruct (dir_left i 0) as [Hu Hnf].
    rewrite (st_step _ (ld_left i 0 None pd i s Hf ltac:(by exists t) Hnf ltac:(lia))).
    pose proof (d_pde _ _ _ _ Hd pd t i Ht ltac:(lia)) as Hw.
    replace (pd + 4 * i + 4) with (pd + 4 * (i + 1)) by lia. destruct (t !! i) as [pt|] eqn:Ept.
    + destruct (pde_get_pt_eq pt _ (owns_frame _ _ _ pd (Some i) pt Hd ltac:(by exists t)) Hw) as (_ & -> & Eg & _).
      rewrite st_assoc, (st_lift_step _ _ _ _ Eg).
      destruct (destroy_ptes_ok i pt 1024 0 s Hi Ept ltac:(lia) ltac:(lia) Hf) as (p1 & E1 & Hf1).
      rewrite Z.mul_0_r, Z.add_0_r in E1. change (Z.to_nat (PGSIZE / 4)) with 1024%nat.
      rewrite st_assoc, (st_step _ E1). destruct (table_left i 1024 pt Ept) as [Hpu Hpn].
      destruct (free_left i 1024 (so_far (i + 1) 0) false pt (set_pal p1 s) Hf1 Hpu Hpn) as (p2 & E2 & Hf2).
      { intros [|] c; cbn.
        - split; [intros [(v & y & ?)|[? _]]; [exists v, y | done] | intros (v & y & ?); left; exists v, y]; split_and!; try apply H; lia.
        - split; [intros [(i' & ? & ?)|[_ ->]]; [exists i' | exists i]; split; [lia | done | lia | done] |].
          intros (i' & Hi' & E). destruct (decide (i' = i)) as [-> |]; [right; split; [done | congruence] |].
          left. exists i'. split; [lia | done]. }
      rewrite (st_step _ E2). destruct (IH (i + 1) (set_pal p2 (set_pal p1 s))) as (p' & E & Hf'); [lia | lia | done |].
      exists p'. by rewrite E.
    + unfold pde_ok in Hw. rewrite Hw. change (has_flag 0 PTE_P) with false; cbv iota. rewrite st_ret_step.
      apply IH; [lia | lia |]. eapply freed_ext; [| exact Hf]. intros [|] b; cbn.
      * split; intros (v & y & Hv & Hp & Hb & Hlt); exists v, y; split_and!; try done; [lia |].
        destruct (d_map _ _ _ _ Hd pd a v y Ha Hv) as (_ & t' & i' & j' & pt & Ht' & Hpt & Hj' & E).
        assert (i' ≠ i) by congruence. lia.
      * split; intros (i' & Hi' & E); exists i'; (split; [| done]); [lia |].
        assert (i' ≠ i) by congruence. lia.
Qed.

Lemma destroy_all s : pal s = p →
  ∃ p', (destroy_pdes 768 pd;; free_page pd) s = Ok (tt, set_pal p' s) ∧ freed ram p p' (dir_pages pd t a).
Proof using Hd Ht Ha Hfr.
  intros Es. destruct (destroy_pdes_ok 768 0 s) as (p1 & E1 & Hf1); [lia | lia | |].
  { rewrite Es. eapply freed_ext; [| apply freed_refl, Hd]. intros [|] b; cbn; (split; [done |]).
    - intros (v & x & Hv & _ & _ & Hlt). destruct (d_map _ _ _ _ Hd pd a v x Ha Hv) as (_ & t' & i & j & pt & Ht' & Hpt & ? & ?).
      pose proof (d_index _ _ _ _ Hd pd t' i pt Ht' Hpt). lia.
    - intros (i & Hi & Hpt). pose proof (d_index _ _ _ _ Hd pd t i b Ht Hpt). lia. }
  rewrite Z.mul_0_r, Z.add_0_r in E1. rewrite (st_step _ E1). destruct (dir_left 768 0) as [Hu Hn].
  destruct (free_left 768 0 (dir_pages pd t a) false pd (set_pal p1 s) Hf1 Hu Hn) as (p2 & E2 & Hf2); [| by exists p2; rewrite E2].
  intros [|] b; cbn.
  - split; [intros [(v & x & ? & ? & ? & _)|[? _]]; [by exists v, x | done] |]. intros (v & x & Hv & Hp & Hb). left.
    exists v, x. split_and!; try done. destruct (d_map _ _ _ _ Hd pd a v x Ha Hv) as (_ & t' & i & j & pt & Ht' & Hpt & ? & ?).
    pose proof (d_index _ _ _ _ Hd pd t' i pt Ht' Hpt). lia.
  - split; [intros [(i & _ & Hpt)|[_ ->]]; [right; by exists i | by left] |].
    intros [-> |(i & Hpt)]; [by right | left]. exists i. split; [| done].
    pose proof (d_index _ _ _ _ Hd pd t i b Ht Hpt). lia.
Qed.
End destroy.

Section destroy_dir.
Context {ram : Z}.

Lemma dirs_ok_delete p T A pd : dirs_ok ram p T A → dirs_ok ram p (delete pd T) (delete pd A).
Proof.
  intros H. assert (∀ pd' o b, owns (delete pd T) pd' o b → owns T pd' o b ∧ pd' ≠ pd) as Ho.
  { intros pd' o b (t & [? ?]%lookup_delete_Some & Hb). split; [by exists t | congruence]. }
  split.
  - apply H.
  - intros pd'. destruct (decide (pd' = pd)) as [-> |]; [by rewrite !lookup_delete_eq |].
    rewrite !lookup_delete_ne by done. apply (d_dom _ _ _ _ H).
  - intros pd' o b [Hb _]%Ho. by eapply (d_used _ _ _ _ H).
  - intros pd1 o1 pd2 o2 b [H1 _]%Ho [H2 _]%Ho. by eapply (d_apart _ _ _ _ H).
  - intros pd' t i pt [_ Ht]%lookup_delete_Some. by eapply (d_index _ _ _ _ H).
  - intros pd' t i [_ Ht]%lookup_delete_Some. by apply (d_pde _ _ _ _ H).
  - intros pd' t a i pt j [_ Ht]%lookup_delete_Some [_ Ha]%lookup_delete_Some. by eapply (d_pte _ _ _ _ H).
  - intros pd' a v x [Hn Ha]%lookup_delete_Some Hv. rewrite lookup_delete_ne by congruence.
    by eapply (d_map _ _ _ _ H).
Qed.

Lemma pagedir_destroy_ok s T A pd t a :
  repr ram s T A → T !! pd = Some t → A !! pd = Some a → frames_ok (pal s) a →
  pd ≠ init_page_dir s → pd ≠ active s →
  ∃ s', pagedir_destroy pd s = Ok (tt, s') ∧ repr ram s' (delete pd T) (delete pd A) ∧
    freed ram (pal s) (pal s') (dir_pages pd t a) ∧ same_cpu s s' ∧ tlb s' = tlb s.
Proof.
  intros Hr Ht Ha Hfr Hi Hact. pose proof Hr as [H [[C1 C1'] C2 C3]].
  destruct (repr_frame _ _ _ pd Hr) as (F1 & _); [eauto |]. unfold pagedir_destroy.
  destruct (Z.eqb_spec pd 0); [unfold PHYS_BASE in *; lia |]. rewrite st_get_step.
  rewrite st_assert_true by (by destruct (Z.eqb_spec pd (init_page_dir s))).
  change (Z.to_nat (pd_no PHYS_BASE)) with 768%nat.
  destruct (destroy_all (pal s) T A pd t a H Ht Ha Hfr s eq_refl) as (p' & E & Hf).
  exists (set_pal p' s). split; [exact E |]. split; [split | done].
  - apply (dirs_ok_same (pal s)); [by apply dirs_ok_delete | apply Hf |].
    intros pd' o b (t' & [Hne Ht']%lookup_delete_Some & Hb). assert (owns T pd' o b) as Hob by (by exists t').
    pose proof (d_used _ _ _ _ H _ _ _ Hob) as Hu.
    assert (∀ u c, dir_pages pd t a u c → in_use (pal s) u c ∧ (u, c) ≠ (false, b)) as Hpages.
    { intros [|] c Hc; cbn in Hc.
      - destruct Hc as (v & x & Hv & Hp & <-). split; [by apply (fo_used _ _ Hfr _ _ Hv) | done].
      - assert (∃ o', owns T pd o' c) as (o' & Ho').
        { destruct Hc as [-> |(i & Hpt)]; [exists None | exists (Some i)]; by exists t. }
        split; [by apply (d_used _ _ _ _ H _ _ _ Ho') |]. intros [= ->].
        by destruct (d_apart _ _ _ _ H _ _ _ _ _ Hob Ho'). }
    split.
    + apply Hf. split; [done |]. intros Hc. by destruct (Hpages _ _ Hc) as [_ ?].
    + intros c Hc. apply (fr_mem _ _ _ _ Hf). intros u d Hdp. destruct (Hpages _ _ Hdp) as [Hdu Hdn].
      unfold off_page, PGSIZE. destruct (used_apart ram (pal s) u false d b (d_pages _ _ _ _ H) Hdu Hu Hdn); lia.
  - split; cbn.
    + by rewrite !lookup_delete_ne by congruence.
    + change (is_Some (delete pd A !! active s)). by rewrite lookup_delete_ne by congruence.
    + intros v e b Hv Hb. change (delete pd A !! active s = Some b) in Hb. rewrite lookup_delete_ne in Hb by congruence.
      by eapply C3.
Qed.
End destroy_dir.
