(* ===== verification/PagedirInit.v ===== *)
(** [paging_init] maps all of physical memory at [PHYS_BASE], kernel text read
    only, and nothing below: the state pagedir.c starts from. *)
From S2P Require Import Prelude Bytes Bitmap CString CStringThm Words Vaddr Palloc PageMem Pagedir PagedirThm.
Local Open Scope Z_scope.

Section init.
Context {ram : Z} (text_start text_end : Z).
Implicit Types (p : palloc_state) (K : gmap Z Z).

(** The entry of physical page [n]. *)
Definition kernel_pte (n : Z) : Z :=
  let v := PHYS_BASE + 4096 * n in
  4096 * n + 1 + (if (text_start <=? v) && (v <? text_end) then 0 else 2).

(** The first [n] pages are mapped by the tables [K], which are those the first
    [c] pages need. *)
Record kernel_map (p : palloc_state) (pd : Z) (K : gmap Z Z) (n c : Z) : Prop := {
  km_pages : pages_ok ram p;
  km_dir : in_use p false pd;
  km_table i pt : K !! i = Some pt → in_use p false pt ∧ pt ≠ pd;
  km_inj i j pt : K !! i = Some pt → K !! j = Some pt → i = j;
  km_dom i : is_Some (K !! i) ↔ 768 ≤ i ∧ 1024 * (i - 768) < c;
  km_pde i : 0 ≤ i < 1024 → word (memory p) (pd + 4 * i) = match K !! i with Some pt => pt - PHYS_BASE + 7 | None => 0 end;
  km_pte m pt : 0 ≤ m < n → K !! (768 + m / 1024) = Some pt → word (memory p) (pt + 4 * (m `mod` 1024)) = kernel_pte m;
}.

Lemma km_page p pd K n c a :
  kernel_map p pd K n c → in_use p false a → frame_ok a ∧ mapped (memory p) a 4096.
Proof.
  intros H Ha. destruct (in_use_page _ _ _ _ (km_pages _ _ _ _ _ H) Ha) as (? & ? & _ & ? & ?). by split; [split_and! |].
Qed.

(** A word of one of these pages is stored; the words of the others stay. *)
Lemma km_store p pd K n c a k v s :
  kernel_map p pd K n c → pal s = p → in_use p false a → 0 ≤ k < 1024 → 0 ≤ v < 4294967296 →
  ∃ m, st (a + 4 * k) v s = Ok (tt, set_pal (set_memory m p) s) ∧ pages_ok ram (set_memory m p) ∧
    word m (a + 4 * k) = v ∧
    ∀ b j, in_use p false b → 0 ≤ j < 1024 → (b, j) ≠ (a, k) → word m (b + 4 * j) = word (memory p) (b + 4 * j).
Proof.
  intros H <- Ha Hk Hv. destruct (km_page _ _ _ _ _ _ H Ha) as [(F1 & F2 & F3) Hm].
  destruct (store_word_ok (memory (pal s)) (a + 4 * k) v) as (m & E & Hb & Hout & Hw & Hs);
    [eapply mapped_sub; [exact Hm | lia | lia] | apply H |].
  exists m. unfold st. rewrite E. split; [done |]. split; [apply pages_ok_set_memory; [apply H | done |]; intros e; apply Hs |].
  split; [by rewrite Hw, u32_id |]. intros b j Hbu Hj Hn. apply (word_outside _ _ _ _ _ Hout).
  destruct (decide (b = a)) as [-> |Hne]; [assert (j ≠ k) by congruence; lia |].
  destruct (km_page _ _ _ _ _ _ H Hbu) as [(_ & _ & G3) _]. destruct (pages_apart _ _ G3 F3 Hne); lia.
Qed.

Lemma pte_kernel n : 0 ≤ n < 262144 →
  let v := PHYS_BASE + 4096 * n in
  pte_create_kernel v (negb ((text_start <=? v) && (v <? text_end))) = Ok (kernel_pte n) ∧ 0 ≤ kernel_pte n < 4294967296.
Proof.
  intros Hn v. assert (v - PHYS_BASE = 4096 * n) as E by (unfold v; lia).
  assert ((4096 * n) `mod` 4096 = 0) as Hal by (rewrite Z.mul_comm; apply Z_mod_mult).
  split; [| unfold kernel_pte; destruct ((text_start <=? _) && _); lia]. unfold pte_create_kernel. rewrite pg_ofs_eq.
  assert (v `mod` 4096 = 0) as Hv by (unfold v, PHYS_BASE; replace (0xc0000000 + 4096 * n) with ((786432 + n) * 4096) by lia; apply Z_mod_mult).
  rewrite Hv. destruct (ptov_vtop v) as [-> _]; [unfold v, PHYS_BASE; lia |].
  cbn [Z.eqb assert_that mbind outcome_bind]. rewrite E. unfold kernel_pte. fold v.
  rewrite <-(Z.add_0_r (4096 * n)) at 1. unfold PTE_P, PTE_W.
  rewrite (flag_lor _ 0 1) by (done || lia). change (Z.lor 0 1) with 1.
  destruct ((text_start <=? v) && (v <? text_end)); cbn [negb].
  - by rewrite Z.lor_0_r, Z.add_0_r.
  - rewrite flag_lor by (done || lia). f_equal. change (Z.lor 1 2) with 3. lia.
Qed.

Lemma got_kernel_map p p' pd K n c a :
  kernel_map p pd K n c → page_got ram (PAL_ASSERT + PAL_ZERO) a p p' →
  kernel_map p' pd K n c ∧ in_use p' false a ∧ a ≠ pd ∧ (∀ i, K !! i ≠ Some a) ∧
  ∀ j, 0 ≤ j < 1024 → word (memory p') (a + 4 * j) = 0.
Proof.
  intros H G. pose proof (pg_page _ _ _ _ _ G) as Hu. change (has_flag (PAL_ASSERT + PAL_ZERO) PAL_USER) with false in Hu.
  pose proof (pg_new _ _ _ _ _ G false) as Hn.
  destruct (in_use_page _ _ _ _ (pg_ok _ _ _ _ _ G) Hu) as (_ & Ha & _).
  assert (∀ b j, in_use p false b → 0 ≤ j < 1024 → word (memory p') (b + 4 * j) = word (memory p) (b + 4 * j)) as Hw.
  { intros b j Hb Hj. apply word_same. intros e Hc. apply (pg_other _ _ _ _ _ G). unfold off_page, PGSIZE.
    assert (b ≠ a) as Hba by (intros ->; done).
    destruct (in_use_page _ _ _ _ (km_pages _ _ _ _ _ H) Hb) as (_ & Hb' & _). destruct (pages_apart _ _ Hb' Ha Hba); lia. }
  split; [split | split; [done | split; [| split]]].
  - apply G.
  - apply G. left. apply H.
  - intros i pt Hi. destruct (km_table _ _ _ _ _ H i pt Hi). split; [apply G; by left | done].
  - apply H.
  - apply H.
  - intros i Hi. rewrite Hw; [by apply H | apply H | lia].
  - intros m pt Hm Hpt. rewrite Hw; [by apply H | by apply (km_table _ _ _ _ _ H _ _ Hpt) |].
    pose proof (Z.mod_pos_bound m 1024). lia.
  - intros ->. apply Hn, H.
  - intros i Hi. by apply Hn, (km_table _ _ _ _ _ H i).
  - intros j Hj. rewrite (word_filled _ _ 0); [done |]. intros e Hc. apply (pg_zero _ _ _ _ _ G); [done |].
    unfold off_page, PGSIZE. lia.
Qed.

(** One page of the loop, once its table [pt] is there. *)
Lemma map_kernel_page p pd K n pt s :
  kernel_map p pd K n (n + 1) → pal s = p → 0 ≤ n < ram → K !! (768 + n / 1024) = Some pt →
  ∃ p', st (pt + 4 * (n `mod` 1024)) (kernel_pte n) s = Ok (tt, set_pal p' s) ∧
    free_count p' false = free_count p false ∧ kernel_map p' pd K (n + 1) (n + 1).
Proof.
  intros H Hs Hn Hpt. pose proof (ram_fits _ _ (km_pages _ _ _ _ _ H)) as Hram.
  pose proof (Z.mod_pos_bound n 1024 ltac:(lia)) as Hj. destruct (km_table _ _ _ _ _ H _ _ Hpt) as [Hu Hne].
  destruct (km_store p pd K n (n + 1) pt (n `mod` 1024) (kernel_pte n) s H Hs Hu Hj) as (m & E & Hp & Hw & Hf);
    [by apply pte_kernel; lia |].
  exists (set_memory m p). split; [done |]. split; [done |]. split; try apply H; [done | |].
  - intros i Hi. change (memory (set_memory m p)) with m. rewrite Hf; [by apply H | apply H | lia | congruence].
  - intros k pt' Hk Hpt'. change (memory (set_memory m p)) with m. pose proof (Z.mod_pos_bound k 1024 ltac:(lia)).
    destruct (decide (k = n)) as [-> |Hkn]; [by rewrite Hpt in Hpt'; injection Hpt' as <- |].
    rewrite Hf; [apply H; [lia | done] | by apply (km_table _ _ _ _ _ H _ _ Hpt') | lia |].
    intros [= -> Ej]. pose proof (km_inj _ _ _ _ _ H _ _ _ Hpt Hpt').
    pose proof (Z.div_mod k 1024 ltac:(lia)). pose proof (Z.div_mod n 1024 ltac:(lia)). lia.
Qed.

(** A new table. *)
Lemma add_kernel_table p pd K n pt s :
  kernel_map p pd K n n → pal s = p → 0 ≤ n < ram → n `mod` 1024 = 0 →
  in_use p false pt → pt ≠ pd → (∀ i, K !! i ≠ Some pt) →
  ∃ p', st (pd + 4 * (768 + n / 1024)) (pt - PHYS_BASE + 7) s = Ok (tt, set_pal p' s) ∧
    free_count p' false = free_count p false ∧
    kernel_map p' pd (<[768 + n / 1024 := pt]> K) n (n + 1).
Proof.
  intros H Hs Hn Hmod Hu Hne HnK. pose proof (ram_fits _ _ (km_pages _ _ _ _ _ H)) as Hram.
  destruct (km_page _ _ _ _ _ _ H Hu) as [(F1 & F2 & F3) _].
  assert (0 ≤ n / 1024 < 256) as Hi by (split; [apply Z.div_pos; lia | apply Z.div_lt_upper_bound; lia]).
  destruct (km_store p pd K n n pd (768 + n / 1024) (pt - PHYS_BASE + 7) s H Hs (km_dir _ _ _ _ _ H)) as (m & E & Hp & Hw & Hf);
    [lia | unfold PHYS_BASE in *; lia |].
  exists (set_memory m p). split; [done |]. split; [done |]. pose proof (Z.div_mod n 1024 ltac:(lia)) as Hdm.
  split; change (memory (set_memory m p)) with m.
  - done.
  - apply in_use_set_memory, H.
  - intros i q Hq. destruct (decide (i = 768 + n / 1024)) as [-> |].
    + rewrite lookup_insert_eq in Hq. injection Hq as <-. split; [by apply in_use_set_memory | done].
    + rewrite lookup_insert_ne in Hq by done. by apply (km_table _ _ _ _ _ H i).
  - intros i j q Hiq Hjq.
    destruct (decide (i = 768 + n / 1024)) as [-> |], (decide (j = 768 + n / 1024)) as [-> |]; [done | ..].
    + rewrite lookup_insert_eq in Hiq. injection Hiq as <-. rewrite lookup_insert_ne in Hjq by done. by destruct (HnK j).
    + rewrite lookup_insert_eq in Hjq. injection Hjq as <-. rewrite lookup_insert_ne in Hiq by done. by destruct (HnK i).
    + rewrite lookup_insert_ne in Hiq by done. rewrite lookup_insert_ne in Hjq by done. by eapply (km_inj _ _ _ _ _ H).
  - intros i. destruct (decide (i = 768 + n / 1024)) as [-> |].
    + rewrite lookup_insert_eq. split; [intros _; lia | eauto].
    + rewrite lookup_insert_ne by done. rewrite (km_dom _ _ _ _ _ H). lia.
  - intros i Hi'. destruct (decide (i = 768 + n / 1024)) as [-> |].
    + by rewrite lookup_insert_eq, Hw.
    + rewrite lookup_insert_ne by done. rewrite Hf; [by apply H | apply H | done | congruence].
  - intros k q Hk Hq. pose proof (Z.div_mod k 1024 ltac:(lia)). pose proof (Z.mod_pos_bound k 1024 ltac:(lia)).
    pose proof (Z.mod_pos_bound n 1024 ltac:(lia)).
    assert (768 + k / 1024 ≠ 768 + n / 1024) as Hkn by lia. rewrite lookup_insert_ne in Hq by done.
    rewrite Hf; [by apply H | by apply (km_table _ _ _ _ _ H _ _ Hq) | lia |].
    intros [= -> _]. by destruct (km_table _ _ _ _ _ H _ _ Hq).
Qed.

(** Where the kernel address of a physical page is in the tables. *)
Lemma kernel_page n : 0 ≤ n < 262144 →
  let v := PHYS_BASE + 4096 * n in
  ptov (u32 (n * PGSIZE)) = Ok v ∧ pd_no v = 768 + n / 1024 ∧ pt_no v = n `mod` 1024.
Proof.
  intros Hn v. unfold PGSIZE, PHYS_BASE in *. rewrite u32_id by lia.
  destruct (ptov_vtop v) as [_ E]; [unfold v, PHYS_BASE; lia |].
  replace (v - PHYS_BASE) with (n * 4096) in E by (unfold v, PHYS_BASE; lia). split; [done |].
  rewrite pd_no_eq, pt_no_eq by (unfold is_addr, v; lia). unfold v.
  split; Z.to_euclidean_division_equations; lia.
Qed.

(** The page tables that the first [n] pages need. *)
Definition tables_for (n : Z) : Z := (n + 1023) / 1024.

Lemma tables_step n : 0 ≤ n → tables_for (n + 1) = tables_for n + if decide (n `mod` 1024 = 0) then 1 else 0.
Proof. intros. unfold tables_for. case_decide; Z.to_euclidean_division_equations; lia. Qed.

Lemma tables_mono n m : n ≤ m → tables_for n ≤ tables_for m.
Proof. intros. unfold tables_for. apply Z.div_le_mono; lia. Qed.

(** The loop maps the pages that are left, and panics exactly when the kernel
    pool has too few pages for their tables. *)
Lemma paging_loop_ok (k : nat) n K pt s pd :
  kernel_map (pal s) pd K n n → 0 ≤ n → n + Z.of_nat k = ram →
  (n `mod` 1024 ≠ 0 → K !! (768 + n / 1024) = Some pt) →
  if decide (tables_for ram - tables_for n ≤ free_count (pal s) false) then
    ∃ p' K', paging_loop text_start text_end k n pd pt s = Ok (tt, set_pal p' s) ∧ kernel_map p' pd K' ram ram
  else paging_loop text_start text_end k n pd pt s = Err KernelPanic.
Proof.
  revert n K pt s. induction k as [|k IH]; intros n K pt s H Hn Hk Hpt; cbn [paging_loop].
  - assert (n = ram) as <- by lia. rewrite decide_True by (unfold free_count; lia).
    exists (pal s), K. split; [by destruct s | done].
  - pose proof (ram_fits _ _ (km_pages _ _ _ _ _ H)) as Hram.
    destruct (kernel_page n) as (Ev & Epd & Ept); [lia |]. rewrite (st_lift_step _ _ _ _ Ev). rewrite Epd, Ept.
    assert (0 ≤ n / 1024 < 256) as Hi by (split; [apply Z.div_pos; lia | apply Z.div_lt_upper_bound; lia]).
    pose proof (Z.div_mod n 1024 ltac:(lia)) as Hdm. pose proof (Z.mod_pos_bound n 1024 ltac:(lia)) as Hmr.
    assert (ld (pd + 4 * (768 + n / 1024)) s = Ok (word (memory (pal s)) (pd + 4 * (768 + n / 1024)), s)) as Eld.
    { unfold ld. destruct (km_page _ _ _ _ _ _ H (km_dir _ _ _ _ _ H)) as [_ Hm].
      rewrite load_word_ok; [done |]. eapply mapped_sub; [exact Hm | lia | lia]. }
    rewrite (st_step _ Eld), (km_pde _ _ _ _ _ H) by lia.
    destruct (pte_kernel n) as [Epte _]; [lia |].
    pose proof (tables_mono (n + 1) ram ltac:(lia)) as Htm.
    set (rest := λ pt1, e ← st_lift (pte_create_kernel (PHYS_BASE + 4096 * n)
           (negb ((text_start <=? PHYS_BASE + 4096 * n) && (PHYS_BASE + 4096 * n <? text_end))));
       st (pt1 + 4 * (n `mod` 1024)) e;; paging_loop text_start text_end k (n + 1) pd pt1).
    assert (∀ s1 K1 pt1, kernel_map (pal s1) pd K1 n (n + 1) → K1 !! (768 + n / 1024) = Some pt1 →
      if decide (tables_for ram - tables_for (n + 1) ≤ free_count (pal s1) false) then
        ∃ p' K', rest pt1 s1 = Ok (tt, set_pal p' s1) ∧ kernel_map p' pd K' ram ram
      else rest pt1 s1 = Err KernelPanic) as Hstep.
    { intros s1 K1 pt1 H1 Hp1. unfold rest. rewrite (st_lift_step _ _ _ _ Epte).
      destruct (map_kernel_page (pal s1) pd K1 n pt1 s1 H1 eq_refl ltac:(lia) Hp1) as (p2 & E2 & Ef & H2).
      rewrite (st_step _ E2).
      assert ((n + 1) `mod` 1024 ≠ 0 → K1 !! (768 + (n + 1) / 1024) = Some pt1) as Hpt1.
      { intros Hm. replace ((n + 1) / 1024) with (n / 1024); [done |]. Z.to_euclidean_division_equations. lia. }
      specialize (IH (n + 1) K1 pt1 (set_pal p2 s1) H2 ltac:(lia) ltac:(lia) Hpt1).
      change (pal (set_pal p2 s1)) with p2 in IH. rewrite Ef in IH. case_decide; [| done].
      destruct IH as (p' & K' & E & H'). exists p', K'. by rewrite E. }
    pose proof (tables_step n Hn) as Hts.
    destruct (decide (n `mod` 1024 = 0)) as [Hm|Hm].
    + assert (K !! (768 + n / 1024) = None) as HK.
      { apply eq_None_not_Some. rewrite (km_dom _ _ _ _ _ H). lia. }
      rewrite HK, Z.eqb_refl, st_assoc.
      destruct (get_page_ok ram (PAL_ASSERT + PAL_ZERO) (pal s) (km_pages _ _ _ _ _ H)) as [[E Hno]|(q & p1 & E & Hq & _ & G)].
      * change (has_flag (PAL_ASSERT + PAL_ZERO) PAL_USER) with false in Hno. rewrite page_free_count in Hno.
        rewrite decide_False by lia. unfold mbind at 1, st_bind at 1, get_page at 1. by rewrite E.
      * assert (get_page (PAL_ASSERT + PAL_ZERO) s = Ok (q, set_pal p1 s)) as Eg by (unfold get_page; by rewrite E).
        pose proof (page_got_count _ _ _ _ _ G) as Hfc. change (has_flag (PAL_ASSERT + PAL_ZERO) PAL_USER) with false in Hfc.
        cbv zeta in Hfc.
        rewrite (st_step _ Eg). destruct (got_kernel_map _ _ _ _ _ _ _ H G) as (H1 & Hu & Hne & HnK & Hz).
        destruct (km_page _ _ _ _ _ _ H1 Hu) as [Hfr _].
        rewrite st_assoc, (st_lift_step _ _ _ _ (pde_create_eq q Hfr)).
        destruct (add_kernel_table p1 pd K n q (set_pal p1 s) H1 eq_refl ltac:(lia) Hm Hu Hne HnK) as (p2 & E2 & Ef & H2).
        rewrite st_assoc, (st_step _ E2), st_ret_step. fold (rest q).
        specialize (Hstep (set_pal p2 (set_pal p1 s)) _ q H2 (lookup_insert_eq _ _ _)).
        change (pal (set_pal p2 (set_pal p1 s))) with p2 in Hstep.
        rewrite (decide_ext _ (tables_for ram - tables_for n ≤ free_count (pal s) false)) in Hstep by lia.
        case_decide; [| exact Hstep]. destruct Hstep as (p' & K' & E3 & H'). exists p', K'. by rewrite E3.
    + rewrite (Hpt Hm). destruct (km_table _ _ _ _ _ H _ _ (Hpt Hm)) as [Hu _].
      destruct (km_page _ _ _ _ _ _ H Hu) as [(F1 & _) _].
      destruct (Z.eqb_spec (pt - PHYS_BASE + 7) 0); [unfold PHYS_BASE in *; lia |]. rewrite st_ret_step. fold (rest pt).
      rewrite (decide_ext _ (tables_for ram - tables_for (n + 1) ≤ free_count (pal s) false)) by lia.
      apply (Hstep s K pt); [| by apply Hpt]. split; try apply H. intros i. rewrite (km_dom _ _ _ _ _ H).
      split; intros [? ?]; (split; [done |]); Z.to_euclidean_division_equations; lia.
Qed.
End init.
