(* ===== verification/PagedirSpec.v ===== *)
(** What the page tables promise: for each directory a map from pages to frames,
    seen alike by the kernel's calls and by a program's accesses through the
    processor's cache.  [paging_init] establishes it, each call preserves it,
    and [pagedir_destroy] frees exactly a directory's pages. *)
From S2P Require Import Prelude Bytes Bitmap CString CStringThm Words Vaddr Palloc PageMem Pagedir PagedirThm PagedirOps PagedirFree PagedirInit.
Local Open Scope Z_scope.

(** ** The specification *)

Record spec := Spec { maps : spaces; current : Z; initial : Z }.

Inductive pd_call :=
| Create
| Activate (pd : Z)
| SetPage (pd upage kpage : Z) (writable : bool)
| GetPage (pd uaddr : Z)
| ClearPage (pd upage : Z)
| IsDirty (pd vpage : Z)
| SetDirty (pd vpage : Z) (dirty : bool)
| IsAccessed (pd vpage : Z)
| SetAccessed (pd vpage : Z) (accessed : bool)
| Access (va : Z) (write : bool).

Inductive pd_answer := AUnit | ABool (b : bool) | AAddr (a : Z) | AReach (a : option Z).

Definition exec_call (ram : Z) (c : pd_call) : PM pd_answer :=
  match c with
  | Create => pd ← pagedir_create; mret (AAddr pd)
  | Activate pd => pagedir_activate pd;; mret AUnit
  | SetPage pd u k w => b ← pagedir_set_page ram pd u k w; mret (ABool b)
  | GetPage pd u => a ← pagedir_get_page pd u; mret (AAddr a)
  | ClearPage pd u => pagedir_clear_page pd u;; mret AUnit
  | IsDirty pd v => b ← pagedir_is_dirty pd v; mret (ABool b)
  | SetDirty pd v b => pagedir_set_dirty pd v b;; mret AUnit
  | IsAccessed pd v => b ← pagedir_is_accessed pd v; mret (ABool b)
  | SetAccessed pd v b => pagedir_set_accessed pd v b;; mret AUnit
  | Access va w => r ← mmu_access va w; mret (AReach r)
  end.

(** The slot of a page, and a change of it. *)
Definition slot (a : spec) (pd va : Z) : option mapping := maps a !! pd ≫= λ m, m !! pg_no va.
Definition change_slot (f : mapping → mapping) (pd va : Z) (a : spec) : spec :=
  Spec (alter (alter f (pg_no va)) pd (maps a)) (current a) (initial a).

Inductive spec_step (a : spec) : pd_call → pd_answer → spec → Prop :=
| SCreate pd :
    maps a !! pd = None → pd ≠ 0 →
    spec_step a Create (AAddr pd) (Spec (<[pd := ∅]> (maps a)) (current a) (initial a))
| SCreateFail : spec_step a Create (AAddr 0) a
| SActivate pd :
    spec_step a (Activate pd) AUnit (Spec (maps a) (if pd =? 0 then initial a else pd) (initial a))
| SSet pd u k w m :
    maps a !! pd = Some m →
    spec_step a (SetPage pd u k w) (ABool true)
      (Spec (<[pd := <[pg_no u := Mapping k true w false false]> m]> (maps a)) (current a) (initial a))
| SSetFail pd u k w : spec_step a (SetPage pd u k w) (ABool false) a
| SGet pd u :
    spec_step a (GetPage pd u)
      (AAddr (match slot a pd u with Some x => if m_present x then m_page x + pg_ofs u else 0 | None => 0 end)) a
| SClear pd u : spec_step a (ClearPage pd u) AUnit (change_slot (PagedirThm.set_present false) pd u a)
| SIsDirty pd v :
    spec_step a (IsDirty pd v) (ABool (match slot a pd v with Some x => m_dirty x | None => false end)) a
| SSetDirty pd v b : spec_step a (SetDirty pd v b) AUnit (change_slot (PagedirThm.set_dirty b) pd v a)
| SIsAccessed pd v :
    spec_step a (IsAccessed pd v) (ABool (match slot a pd v with Some x => m_accessed x | None => false end)) a
| SSetAccessed pd v b : spec_step a (SetAccessed pd v b) AUnit (change_slot (PagedirThm.set_accessed b) pd v a)
| SAccess va w :
    spec_step a (Access va w) (AReach (translate (slot a (current a) va) va w))
      (change_slot (λ x, if permits w x then touch w x else x) (current a) va a).

(** What the callers respect: user addresses, directories that exist, page
    alignment; a frame inside memory for a page that has none; and the bits
    only of pages that were mapped. *)
Definition user_page (va : Z) : Prop := 0 ≤ va < PHYS_BASE ∧ va `mod` 4096 = 0.

Definition call_ok (ram : Z) (a : spec) (c : pd_call) : Prop :=
  match c with
  | Create => True
  | Activate pd => pd = 0 ∨ is_Some (maps a !! pd)
  | SetPage pd u k w => is_Some (maps a !! pd) ∧ pd ≠ initial a ∧ user_page u ∧ frame_ok k ∧
      k + 4096 ≤ PHYS_BASE + 4096 * ram ∧ ∀ x, slot a pd u = Some x → m_present x = false
  | GetPage pd u | IsDirty pd u | IsAccessed pd u => is_Some (maps a !! pd) ∧ 0 ≤ u < PHYS_BASE
  | ClearPage pd u => is_Some (maps a !! pd) ∧ user_page u
  | SetDirty pd v _ | SetAccessed pd v _ => is_Some (slot a pd v) ∧ 0 ≤ v < PHYS_BASE
  | Access va _ => 0 ≤ va < PHYS_BASE
  end.

(** Calls that report failure. *)
Definition refused (ans : pd_answer) (c : pd_call) : bool :=
  match c, ans with
  | Create, AAddr a => a =? 0
  | SetPage _ _ _ _, ABool b => negb b
  | _, _ => false
  end.

Definition view (s : machine) (A : spaces) : spec := Spec A (active s) (init_page_dir s).

(** ** The code implements it *)

Section refine.
Context {ram : Z}.
Implicit Types (s : machine) (T : tables) (A : spaces).

Lemma view_same s s' A' : same_cpu s s' → view s' A' = Spec A' (active s) (init_page_dir s).
Proof. intros [E1 E2]. unfold view, active. by rewrite E1, E2. Qed.

Lemma slot_at s A pd va a : A !! pd = Some a → slot (view s A) pd va = a !! pg_no va.
Proof. intros E. unfold slot. cbn. by rewrite E. Qed.

Lemma change_at s s' A pd va f a :
  A !! pd = Some a → same_cpu s s' →
  change_slot f pd va (view s A) = view s' (<[pd := alter f (pg_no va) a]> A).
Proof.
  intros Ha Hc. rewrite (view_same s s') by done. unfold change_slot. cbn. f_equal. apply map_eq. intros pd'.
  destruct (decide (pd' = pd)) as [-> |].
  - by rewrite lookup_alter_eq, lookup_insert_eq, Ha.
  - by rewrite lookup_alter_ne, lookup_insert_ne.
Qed.

(** Run a call whose function is done in one step. *)
Lemma call_done {B : Type} (m : PM B) (f : B → pd_answer) s s' r : m s = Ok (r, s') → (x ← m; mret (f x)) s = Ok (f r, s').
Proof. intros E. by rewrite (st_step _ E). Qed.

(** C32: The page tables implement a map for each page directory.  From a state
    that represents the maps, every call with arguments in its domain returns,
    and its answer and the new maps are those of the specification:
    [pagedir_set_page] maps a page, or refuses, only when no kernel page is free
    for a table and without changing anything; [pagedir_get_page] translates;
    [pagedir_clear_page] unmaps and keeps the accessed and dirty bits; the bits
    read back as set; and a program's access, served by the processor from its
    cache or from the tables, reaches the frame that the map gives or faults,
    and leaves its accessed and dirty bits in the map: so the invalidations are
    enough for the cache never to be stale.  A new directory has the entries of
    the initial one for the kernel's addresses.  Memory that holds no tables, and
    the use of all other pages, does not change. *)
Theorem pagedir_refines_map s T A c :
  repr ram s T A → call_ok ram (view s A) c →
  ∃ ans s' T' A', exec_call ram c s = Ok (ans, s') ∧ repr ram s' T' A' ∧
    spec_step (view s A) c ans (view s' A') ∧ dirs_step T' (pal s) (pal s') ∧
    (refused ans c = true → ¬ page_free (pal s) false ∧ s' = s) ∧
    ∀ pd, c = Create → ans = AAddr pd → pd ≠ 0 → ∀ i, 768 ≤ i < 1024 →
      word (memory (pal s')) (pd + 4 * i) = word (memory (pal s)) (init_page_dir s + 4 * i).
Proof.
  intros Hr Hok. destruct c as [|pd|pd u k w|pd u|pd u|pd v|pd v b|pd v|pd v b|va w]; cbn [exec_call call_ok] in *.
  - destruct (pagedir_create_ok s T A Hr) as [[E Hf]|(pd & s' & E & Hn & HA & _ & Hr' & Hd & Hc & Hk)];
      rewrite (call_done _ _ _ _ _ E).
    + exists (AAddr 0), s, T, A. split_and!; [done | done | constructor | apply dirs_step_refl | done | by intros ? _ [= <-]].
    + exists (AAddr pd), s', (<[pd:=∅]> T), (<[pd:=∅]> A). split_and!; [done | done | | done | cbn | intros ? _ [= <-] _; exact Hk].
      * rewrite (view_same s s' _ Hc). by apply (SCreate (view s A)).
      * by destruct (Z.eqb_spec pd 0).
  - destruct (activate_ok s T A pd Hr Hok) as (s' & E & Hr' & Ep & Ea & _ & Ei). rewrite (st_step _ E).
    exists AUnit, s', T, A. split_and!; [done | done | | rewrite Ep; apply dirs_step_refl | done | done].
    unfold view at 2. rewrite Ea, Ei. apply (SActivate (view s A)).
  - destruct Hok as ([a Ha] & Hi & [Hu1 Hu2] & Hk & Hram & Hn). cbn in Ha, Hi. rewrite (slot_at _ _ _ _ a) in Hn by done.
    destruct (pagedir_set_page_ok s T A pd a u k w Hr Ha Hi Hu1 Hu2 Hk Hram Hn) as [[E Hf]|(s' & T' & E & Hr' & Hd & Hc)];
      rewrite (call_done _ _ _ _ _ E).
    + exists (ABool false), s, T, A. split_and!; [done | done | constructor | apply dirs_step_refl | done | done].
    + exists (ABool true), s', T'. eexists. split_and!; [done | exact Hr' | | done | done | done].
      rewrite (view_same s s' _ Hc). by apply (SSet (view s A)).
  - destruct Hok as [[a Ha] Hu]. cbn in Ha. rewrite (call_done _ _ _ _ _ (pagedir_get_page_ok s T A pd a u Hr Ha Hu)).
    eexists _, s, T, A. split_and!; [done | done | | apply dirs_step_refl | done | done].
    rewrite <-(slot_at s A pd u a) by done. constructor.
  - destruct Hok as [[a Ha] [Hu1 Hu2]]. cbn in Ha.
    destruct (pagedir_clear_page_ok s T A pd a u Hr Ha Hu1 Hu2) as (s' & E & Hr' & Hd & Hc). rewrite (st_step _ E).
    exists AUnit, s', T. eexists. split_and!; [done | exact Hr' | | done | done | done].
    rewrite <-(change_at s s' A) by done. constructor.
  - destruct Hok as [[a Ha] Hu]. cbn in Ha. rewrite (call_done _ _ _ _ _ (pagedir_is_dirty_ok s T A pd a v Hr Ha Hu)).
    eexists _, s, T, A. split_and!; [done | done | | apply dirs_step_refl | done | done].
    rewrite <-(slot_at s A pd v a) by done. constructor.
  - destruct Hok as [[x Hx] Hv]. unfold slot in Hx. cbn in Hx. destruct (A !! pd) as [a|] eqn:Ha; [cbn in Hx | done].
    destruct (pagedir_set_dirty_ok s T A pd a v x b Hr Ha Hv Hx) as (s' & E & Hr' & Hd & Hc). rewrite (st_step _ E).
    exists AUnit, s', T. eexists. split_and!; [done | exact Hr' | | done | done | done].
    rewrite <-(alter_some _ _ _ x), <-(change_at s s' A) by done. constructor.
  - destruct Hok as [[a Ha] Hu]. cbn in Ha. rewrite (call_done _ _ _ _ _ (pagedir_is_accessed_ok s T A pd a v Hr Ha Hu)).
    eexists _, s, T, A. split_and!; [done | done | | apply dirs_step_refl | done | done].
    rewrite <-(slot_at s A pd v a) by done. constructor.
  - destruct Hok as [[x Hx] Hv]. unfold slot in Hx. cbn in Hx. destruct (A !! pd) as [a|] eqn:Ha; [cbn in Hx | done].
    destruct (pagedir_set_accessed_ok s T A pd a v x b Hr Ha Hv Hx) as (s' & E & Hr' & Hd & Hc). rewrite (st_step _ E).
    exists AUnit, s', T. eexists. split_and!; [done | exact Hr' | | done | done | done].
    rewrite <-(alter_some _ _ _ x), <-(change_at s s' A) by done. constructor.
  - destruct (c_active _ _ _ (r_cpu _ _ _ _ Hr)) as [a Ha].
    destruct (mmu_access_ok s T A a va w Hr Ha Hok) as (s' & E & Hr' & Hd & Hc). rewrite (call_done _ _ _ _ _ E).
    eexists _, s', T. eexists. split_and!; [done | exact Hr' | | done | done | done].
    rewrite <-(slot_at s A _ va a) by done.
    match goal with |- spec_step _ _ _ (view s' ?X) => replace (view s' X)
      with (change_slot (λ x, if permits w x then touch w x else x) (active s) va (view s A)) end; [constructor |].
    rewrite (change_at s s' A _ _ _ a) by done. f_equal. rewrite (slot_at s A _ va a) by done. destruct (a !! pg_no va) as [x|] eqn:Ex.
    + rewrite (alter_some _ _ _ x) by done. destruct (permits w x); [done |]. by rewrite (insert_id a), insert_id.
    + rewrite alter_same by naive_solver. by rewrite insert_id.
Qed.

(** C33: [pagedir_destroy] gives back exactly what the directory holds.  For a
    directory that is neither the initial nor the active one and maps each of
    its frames once, it frees the frames of the pages that are present, the
    page tables and the directory, each once, and no other page; the other
    directories keep their maps, and memory outside the freed pages is
    untouched. *)
Theorem pagedir_destroy_frees s T A pd t a :
  repr ram s T A → T !! pd = Some t → A !! pd = Some a → frames_ok (pal s) a →
  pd ≠ init_page_dir s → pd ≠ active s →
  ∃ s', pagedir_destroy pd s = Ok (tt, s') ∧ repr ram s' (delete pd T) (delete pd A) ∧
    (∀ u b, in_use (pal s') u b ↔ in_use (pal s) u b ∧ ¬ dir_pages pd t a u b) ∧
    (∀ b, (∀ u c, dir_pages pd t a u c → off_page c b) → memory (pal s') !! b = memory (pal s) !! b).
Proof.
  intros Hr Ht Ha Hfr Hi Hact.
  destruct (pagedir_destroy_ok s T A pd t a Hr Ht Ha Hfr Hi Hact) as (s' & E & Hr' & Hf & _).
  exists s'. split; [done |]. split; [done |]. split; apply Hf.
Qed.

(** ** Initialization *)

Lemma kernel_map_dirs text_start text_end p pd K n c :
  kernel_map (ram := ram) text_start text_end p pd K n c → dirs_ok ram p {[pd := ∅]} {[pd := ∅]}.
Proof.
  intros H. assert (∀ pd' o a, owns {[pd := ∅]} pd' o a → pd' = pd ∧ o = None ∧ a = pd) as Ho.
  { intros pd' o a (t & [<- <-]%lookup_singleton_Some & Ho). by destruct o. }
  split.
  - apply H.
  - intros pd'. destruct (decide (pd' = pd)) as [-> |]; [by rewrite !lookup_singleton_eq | by rewrite !lookup_singleton_ne].
  - intros pd' o a (_ & _ & ->)%Ho. apply H.
  - intros pd1 o1 pd2 o2 a (-> & -> & _)%Ho (-> & -> & _)%Ho. done.
  - intros pd' t i pt [<- <-]%lookup_singleton_Some Hi. done.
  - intros pd' t i [<- <-]%lookup_singleton_Some Hi. rewrite lookup_empty. unfold pde_ok.
    rewrite (km_pde _ _ _ _ _ _ _ H) by lia. destruct (K !! i) eqn:E; [| done].
    assert (is_Some (K !! i)) as Hs by eauto. apply (km_dom _ _ _ _ _ _ _ H) in Hs. lia.
  - intros pd' t a i pt j [<- <-]%lookup_singleton_Some _ Hi. done.
  - intros pd' a v x [<- <-]%lookup_singleton_Some Hv. done.
Qed.

(** C34: [paging_init] maps every page of physical memory at its kernel address,
    kernel text read only, with [cr3] pointing to the new directory, which maps
    no user page: from a well-formed allocator it reaches the state the other
    functions start from if the kernel pool has a free page for the directory
    and one for each table, one per 1024 pages of memory, and otherwise it
    panics. *)
Theorem paging_init_correct text_start text_end s :
  pages_ok ram (pal s) → 0 ≤ ram →
  if decide (1 + (ram + 1023) / 1024 ≤ free_count (pal s) false) then
    ∃ s', paging_init text_start text_end ram s = Ok (tt, s') ∧
      let pd := init_page_dir s' in
      repr ram s' {[pd := ∅]} {[pd := ∅]} ∧ active s' = pd ∧
      ∀ n, 0 ≤ n < ram → let v := PHYS_BASE + 4096 * n in
        ∃ pt, word (memory (pal s')) (pd + 4 * pd_no v) = pt - PHYS_BASE + 7 ∧
          word (memory (pal s')) (pt + 4 * pt_no v) =
            4096 * n + 1 + (if (text_start <=? v) && (v <? text_end) then 0 else 2)
  else paging_init text_start text_end ram s = Err KernelPanic.
Proof.
  intros Hp Hram. unfold paging_init.
  destruct (get_page_ok ram (PAL_ASSERT + PAL_ZERO) (pal s) Hp) as [[E Hno]|(pd & p1 & E & Hpd & _ & G)].
  { change (has_flag (PAL_ASSERT + PAL_ZERO) PAL_USER) with false in Hno. rewrite page_free_count in Hno.
    assert (0 ≤ (ram + 1023) / 1024) by (apply Z.div_pos; lia). rewrite decide_False by lia.
    unfold mbind at 1, st_bind at 1, get_page at 1. by rewrite E. }
  assert (get_page (PAL_ASSERT + PAL_ZERO) s = Ok (pd, set_pal p1 s)) as Eg by (unfold get_page; by rewrite E).
  rewrite (st_step _ Eg). set (s1 := Machine p1 (cr3 s) (tlb s) pd).
  assert (st_modify (λ s, Machine (pal s) (cr3 s) (tlb s) pd) (set_pal p1 s) = Ok (tt, s1)) as Em by done.
  rewrite (st_step _ Em).
  assert (kernel_map (ram := ram) text_start text_end p1 pd ∅ 0 0) as H0.
  { pose proof (pg_page _ _ _ _ _ G) as Hu. change (has_flag (PAL_ASSERT + PAL_ZERO) PAL_USER) with false in Hu. split.
    - apply G.
    - done.
    - intros i pt Hi. done.
    - intros i j pt Hi. done.
    - intros i. rewrite lookup_empty. split; [by intros [] | lia].
    - intros i Hi. rewrite lookup_empty, (word_filled _ _ 0); [done |]. intros c Hc.
      apply (pg_zero _ _ _ _ _ G); [done |]. unfold off_page, PGSIZE. lia.
    - intros m pt Hm. lia. }
  pose proof (paging_loop_ok text_start text_end (Z.to_nat ram) 0 ∅ 0 s1 pd H0 ltac:(lia) ltac:(lia) ltac:(done)) as HL.
  pose proof (page_got_count _ _ _ _ _ G) as Hfc. change (has_flag (PAL_ASSERT + PAL_ZERO) PAL_USER) with false in Hfc.
  cbv zeta in Hfc. change (pal s1) with p1 in HL. change (tables_for 0) with 0 in HL. unfold tables_for in HL.
  rewrite (decide_ext _ (1 + (ram + 1023) / 1024 ≤ free_count (pal s) false)) in HL by lia.
  case_decide; [| unfold mbind at 1, st_bind at 1; by rewrite HL].
  destruct HL as (p' & K & El & HK). rewrite (st_step _ El), st_get_step. change (init_page_dir (set_pal p' s1)) with pd.
  destruct (km_page _ _ _ _ _ _ _ _ HK (km_dir _ _ _ _ _ _ _ HK)) as [(F1 & F2 & F3) _].
  destruct (ptov_vtop pd) as [Ev _]; [unfold PHYS_BASE in *; lia |]. rewrite (st_lift_step _ _ _ _ Ev).
  eexists. split; [done |]. cbn [init_page_dir pal]. assert (pd - PHYS_BASE + PHYS_BASE = pd) as Epd by lia.
  split; [split | split; [done |]].
  - by eapply kernel_map_dirs.
  - split; cbn; unfold active; cbn; rewrite ?Epd.
    + by rewrite !lookup_insert_eq.
    + rewrite lookup_insert_eq. eauto.
    + intros v e a Hv. done.
  - intros n Hn. pose proof (ram_fits _ _ Hp) as Hfit. destruct (kernel_page n) as (_ & -> & ->); [lia |].
    assert (is_Some (K !! (768 + n / 1024))) as [pt Hpt].
    { apply (km_dom _ _ _ _ _ _ _ HK). split; [assert (0 ≤ n / 1024) by (apply Z.div_pos; lia); lia |].
      pose proof (Z.div_mod n 1024 ltac:(lia)). pose proof (Z.mod_pos_bound n 1024 ltac:(lia)). lia. }
    exists pt. split.
    + change (pal (set_pal p' s1)) with p'. rewrite (km_pde _ _ _ _ _ _ _ HK).
      * by rewrite Hpt.
      * split; [assert (0 ≤ n / 1024) by (apply Z.div_pos; lia); lia |].
        assert (n / 1024 < 256) by (apply Z.div_lt_upper_bound; lia). lia.
    + change (pal (set_pal p' s1)) with p'. by rewrite (km_pte _ _ _ _ _ _ _ HK n pt Hn Hpt).
Qed.
End refine.

(** ** A machine with 272 pages of memory *)

Definition example_base : Z := 0xc0100000.

Definition example_bytes : mem := gset_to_gmap 0 (list_to_set (seqZ example_base 65536)).

Lemma example_bytes_Some a b : example_bytes !! a = Some b ↔ example_base ≤ a < example_base + 65536 ∧ b = 0.
Proof.
  unfold example_bytes. rewrite lookup_gset_to_gmap_Some, elem_of_list_to_set, elem_of_seqZ. split; [intros []; lia | lia].
Qed.

#[local] Opaque example_bytes.

(** Sixteen pages for the two pools; [used] is the first word of the kernel
    pool's bitmap. *)
Definition example_pages (used : Z) : palloc_state :=
  Palloc (Pool (Bitmap 8 [used]) example_base) (Pool (Bitmap 8 [0]) (example_base + 32768)) example_bytes.

Lemma example_memory used b : example_base ≤ b < example_base + 65536 → memory (example_pages used) !! b = Some 0.
Proof. intros Hb. by apply example_bytes_Some. Qed.

Lemma example_pages_ok used : 0 ≤ used < 256 → pages_ok 272 (example_pages used).
Proof.
  intros Hu. assert (∀ w b, 0 ≤ w < 256 → (b = example_base ∨ b = example_base + 32768) →
    pool_ok (memory (example_pages used)) (Pool (Bitmap 8 [w]) b)) as Hp.
  { intros w b Hw Hb. unfold example_base in Hb. split; cbn [base used_map bit_cnt].
    - split; [cbn; lia |]. split; [done |]. constructor; [cbn; lia | done].
    - lia.
    - by destruct Hb as [-> | ->].
    - unfold PGSIZE. lia.
    - intros a Ha. exists 0. apply example_memory. unfold PGSIZE, example_base in *. lia. }
  split.
  - split; [apply Hp; [done | by left] | apply Hp; [done | by right] | left; done].
  - intros a b [_ ->]%example_bytes_Some. unfold is_byte. lia.
  - intros [|]; cbn; unfold example_base, PHYS_BASE, PGSIZE; lia.
  - lia.
Qed.

Definition example_machine (used : Z) : machine := Machine (example_pages used) 0x100000 ∅ example_base.

Lemma example_repr used : 0 ≤ used < 256 → Z.testbit used 0 = true →
  repr 272 (example_machine used) {[example_base := ∅]} {[example_base := ∅]}.
Proof.
  intros Hu Hb. split.
  - apply (kernel_map_dirs 0 0 _ _ ∅ 0 0). split.
    + by apply example_pages_ok.
    + exists 0%nat. split; [done |]. rewrite bits_of_lookup by (cbn; lia).
      f_equal. exact Hb.
    + done.
    + intros i j pt Hi. done.
    + intros i. rewrite lookup_empty. split; [by intros [] | lia].
    + intros i Hi. rewrite lookup_empty, (word_filled _ _ 0); [done |]. intros c Hc. apply example_memory. lia.
    + intros m pt Hm. lia.
  - split; [by cbn; rewrite !lookup_insert_eq | by exists ∅ | done].
Qed.

Lemma paging_init_correct_witness :
  ∃ s', paging_init example_base example_base 272 (example_machine 0) = Ok (tt, s') ∧ active s' = init_page_dir s'.
Proof.
  pose proof (paging_init_correct (ram := 272) example_base example_base (example_machine 0)
    (example_pages_ok 0 ltac:(lia)) ltac:(lia)) as H.
  rewrite decide_True in H by done. destruct H as (s' & E & _ & Ha & _). exists s'. split; [exact E | exact Ha].
Defined.

(** A directory is created, with the kernel's half of the initial one. *)
Lemma pagedir_refines_map_witness :
  ∃ pd s', exec_call 272 Create (example_machine 1) = Ok (AAddr pd, s') ∧ pd ≠ 0 ∧
    ∀ i, 768 ≤ i < 1024 → word (memory (pal s')) (pd + 4 * i) = word (memory (example_pages 1)) (example_base + 4 * i).
Proof.
  destruct (pagedir_refines_map (example_machine 1) _ _ Create (example_repr 1 ltac:(lia) eq_refl) I)
    as (ans & s' & T' & A' & E & _ & Hs & _ & Hf & Hk).
  assert (page_free (example_pages 1) false) as Hfree by (by apply page_free_count).
  inversion Hs as [pd H1 Hpd| | | | | | | | | | |]; subst.
  - exists pd, s'. split_and!; [exact E | exact Hpd | by apply (Hk pd)].
  - by destruct (Hf eq_refl) as [[] _].
Defined.

(** Destroying a directory that maps nothing frees its page. *)
Lemma example_two : repr 272 (example_machine 3) (<[example_base + 4096 := ∅]> {[example_base := ∅]})
  (<[example_base + 4096 := ∅]> {[example_base := ∅]}).
Proof.
  destruct (example_repr 3 ltac:(lia) eq_refl) as [Hd [[C1 C2] C3 C4]]. split.
  - apply add_dir; [done | | |].
    + exists 1%nat. split; [done |]. reflexivity.
    + intros pd o (t & [<- <-]%lookup_singleton_Some & Ho). by destruct o.
    + intros i Hi. rewrite (word_filled _ _ 0); [done |]. intros c Hc. apply example_memory. lia.
  - split; [by cbn | | by intros v e a Hv]. by exists ∅.
Qed.

Lemma pagedir_destroy_frees_witness :
  ∃ s', pagedir_destroy (example_base + 4096) (example_machine 3) = Ok (tt, s') ∧
    ¬ in_use (pal s') false (example_base + 4096) ∧ in_use (pal s') false example_base.
Proof.
  destruct (pagedir_destroy_frees (example_machine 3) _ _ (example_base + 4096) ∅ ∅ example_two) as (s' & E & _ & Hu & _).
  - reflexivity.
  - reflexivity.
  - split; intros v; intros; discriminate.
  - discriminate.
  - discriminate.
  - exists s'. split; [exact E |]. split; rewrite Hu.
    + intros [_ Hn]. apply Hn. by left.
    + split; [exists 0%nat; split; reflexivity |]. intros [|(i & Hi)]; discriminate.
Defined.
