(* ===== verification/Malloc.v ===== *)
(** threads/malloc.c: the block allocator.  Small requests are rounded up to a
    power of two and served from the free list of their descriptor, which is
    refilled with the blocks of a page, an arena; larger ones get whole pages.

    The header that the code keeps at the start of an arena's page is in the
    map [arenas], by page address; a page that is not an arena does not have
    the magic number.  The free lists are the sequences their [struct list]s
    hold.  Accordingly the stores of the header (the first [arena_size] bytes
    of an arena) and of the list elements (the first 8 bytes of a free block)
    are not stores to [memory]: they fall on bytes of no allocated block, and
    the statements about memory below are to be read for the other bytes.
    The locks of the descriptors make the critical sections single
    steps.  Memory is taken from, and given back to, the page allocator of
    Palloc. *)
From S2P Require Import Prelude Bytes Bitmap CString CStringThm Vaddr Palloc.
Local Open Scope Z_scope.

(** ** The code *)

Record desc := Desc { d_block_size : Z; blocks_per_arena : Z; free_list : list Z }.

Definition ARENA_MAGIC : Z := 0x9a548eed.

(** [a_desc] is an index into [descs], or [None] for the null pointer. *)
Record arena := Arena { magic : Z; a_desc : option nat; free_cnt : Z }.

(** [sizeof (struct arena)] *)
Definition arena_size : Z := 12.

Record heap := Heap { descs : list desc; arenas : gmap Z arena; pages : palloc_state }.

Definition set_arena (a : Z) (x : arena) (h : heap) : heap := Heap (descs h) (<[a := x]> (arenas h)) (pages h).
Definition set_pages (p : palloc_state) (h : heap) : heap := Heap (descs h) (arenas h) p.
Definition set_free_list (i : nat) (l : list Z) (h : heap) : heap :=
  Heap (alter (λ d, Desc (d_block_size d) (blocks_per_arena d) l) i (descs h)) (arenas h) (pages h).

(** [for (block_size = 16; block_size < PGSIZE / 2; block_size *= 2)] *)
Fixpoint malloc_init_loop (fuel : nat) (block_size : Z) (ds : list desc) : outcome (list desc) :=
  if block_size <? PGSIZE / 2 then
    match fuel with
    | O => Err OutOfFuel
    | S fuel =>
        assert_that (Z.of_nat (length ds) + 1 <=? 10);;
        malloc_init_loop fuel (block_size * 2) (ds ++ [Desc block_size ((PGSIZE - arena_size) / block_size) []])
    end
  else Ok ds.

Definition malloc_init (p : palloc_state) : outcome heap :=
  ds ← malloc_init_loop 10 16 []; Ok (Heap ds ∅ p).

Definition get_desc (h : heap) (i : nat) : outcome desc := from_option_err BadPointer (descs h !! i).

(** The header of an arena, and the assertion on its magic number. *)
Definition get_arena (h : heap) (a : Z) : outcome arena :=
  assert_that (negb (a =? 0));;
  x ← from_option_err AssertFail (arenas h !! a);
  assert_that (magic x =? ARENA_MAGIC);;
  Ok x.

Definition block_to_arena (h : heap) (b : Z) : outcome (Z * arena) :=
  let a := pg_round_down b in
  x ← get_arena h a;
  match a_desc x with
  | Some i =>
      d ← get_desc h i;
      assert_that (u32 (pg_ofs b - arena_size) `mod` d_block_size d =? 0);; Ok (a, x)
  | None => assert_that (pg_ofs b =? arena_size);; Ok (a, x)
  end.

Definition arena_to_block (h : heap) (a idx : Z) : outcome Z :=
  x ← get_arena h a;
  i ← from_option_err BadPointer (a_desc x);
  d ← get_desc h i;
  assert_that (idx <? blocks_per_arena d);;
  Ok (a + arena_size + idx * d_block_size d).

(** Pushes the blocks of arena [a], from index [i] on, with [n] left. *)
Fixpoint push_blocks (n : nat) (h : heap) (a idx : Z) (l : list Z) : outcome (list Z) :=
  match n with
  | O => Ok l
  | S n => b ← arena_to_block h a idx; push_blocks n h a (idx + 1) (l ++ [b])
  end.

(** Refills the free list of descriptor [i] if it is empty; false without
    memory. *)
Definition refill (i : nat) (h : heap) : outcome (bool * heap) :=
  d ← get_desc h i;
  match free_list d with
  | [] =>
      '(a, p) ← palloc_get_page 0 (pages h);
      let h := set_pages p h in
      if a =? 0 then Ok (false, h)
      else
        let h := set_arena a (Arena ARENA_MAGIC (Some i) (blocks_per_arena d)) h in
        l ← push_blocks (Z.to_nat (blocks_per_arena d)) h a 0 [];
        Ok (true, set_free_list i l h)
  | _ => Ok (true, h)
  end.

(** Returns the block, 0 for [NULL]. *)
Definition malloc (size : Z) (h : heap) : outcome (Z * heap) :=
  if size =? 0 then Ok (0, h)
  else match list_find (λ d, size ≤ d_block_size d) (descs h) with
  | None =>
      let page_cnt := u32 (u32 (size + arena_size) + PGSIZE - 1) / PGSIZE in
      '(a, p) ← palloc_get_multiple 0 page_cnt (pages h);
      let h := set_pages p h in
      if a =? 0 then Ok (0, h)
      else Ok (a + arena_size, set_arena a (Arena ARENA_MAGIC None page_cnt) h)
  | Some (i, _) =>
      '(ok, h) ← refill i h;
      if negb ok then Ok (0, h)
      else
        d ← get_desc h i;
        match free_list d with
        | [] => Err AssertFail
        | b :: l =>
            let h := set_free_list i l h in
            '(a, x) ← block_to_arena h b;
            Ok (b, set_arena a (Arena (magic x) (a_desc x) (u32 (free_cnt x - 1))) h)
        end
  end.

(** Removes the blocks of arena [a] from a free list. *)
Fixpoint remove_blocks (n : nat) (h : heap) (a idx : Z) (l : list Z) : outcome (list Z) :=
  match n with
  | O => Ok l
  | S n =>
      b ← arena_to_block h a idx;
      if bool_decide (b ∈ l) then remove_blocks n h a (idx + 1) (filter (λ x, x ≠ b) l) else Err BadPointer
  end.

Definition free (p : Z) (h : heap) : outcome heap :=
  if p =? 0 then Ok h
  else
    '(a, x) ← block_to_arena h p;
    match a_desc x with
    | Some i =>
        d ← get_desc h i;
        '(_, m) ← memset (memory (pages h)) p 0xcc (d_block_size d);
        let h := set_pages (Palloc (kernel_pool (pages h)) (user_pool (pages h)) m) h in
        let l := p :: free_list d in
        let h := set_free_list i l h in
        let x := Arena (magic x) (a_desc x) (u32 (free_cnt x + 1)) in
        let h := set_arena a x h in
        if blocks_per_arena d <=? free_cnt x then
          assert_that (free_cnt x =? blocks_per_arena d);;
          l ← remove_blocks (Z.to_nat (blocks_per_arena d)) h a 0 l;
          let h := set_free_list i l h in
          p ← palloc_free_page a (pages h);
          Ok (Heap (descs h) (delete a (arenas h)) p)
        else Ok h
    | None =>
        p ← palloc_free_multiple a (free_cnt x) (pages h);
        Ok (Heap (descs h) (delete a (arenas h)) p)
    end.

Definition block_size (h : heap) (block : Z) : outcome Z :=
  '(_, x) ← block_to_arena h block;
  match a_desc x with
  | Some i => d ← get_desc h i; Ok (d_block_size d)
  | None => Ok (u32 (PGSIZE * free_cnt x - pg_ofs block))
  end.

Definition set_memory (m : mem) (h : heap) : heap :=
  set_pages (Palloc (kernel_pool (pages h)) (user_pool (pages h)) m) h.

Definition calloc (a b : Z) (h : heap) : outcome (Z * heap) :=
  let size := u32 (a * b) in
  if (size <? a) || (size <? b) then Ok (0, h)
  else
    '(p, h) ← malloc size h;
    if negb (p =? 0) then '(_, m) ← memset (memory (pages h)) p 0 size; Ok (p, set_memory m h)
    else Ok (p, h).

Definition realloc (old_block new_size : Z) (h : heap) : outcome (Z * heap) :=
  if new_size =? 0 then h ← free old_block h; Ok (0, h)
  else
    '(new_block, h) ← malloc new_size h;
    if negb (old_block =? 0) && negb (new_block =? 0) then
      old_size ← block_size h old_block;
      let min_size := if new_size <? old_size then new_size else old_size in
      '(_, m) ← memcpy (memory (pages h)) new_block old_block min_size;
      h ← free old_block (set_memory m h);
      Ok (new_block, h)
    else Ok (new_block, h).
