(* ===== verification/MallocThm.v ===== *)
(** Correctness of threads/malloc.c: the blocks handed out are disjoint, large
    enough, and go back where they came from. *)
From S2P Require Import Prelude Bytes Bitmap CString CStringThm Vaddr Palloc Malloc.
Local Open Scope Z_scope.

(** ** Blocks and arenas *)

(** The blocks of an arena at [a] for descriptor [d]. *)
Definition arena_blocks (a : Z) (d : desc) : list Z :=
  (λ idx, a + arena_size + idx * d_block_size d) <$> seqZ 0 (blocks_per_arena d).

(** The sizes of descriptor [i]. *)
Definition desc_ok (i : nat) (d : desc) : Prop :=
  d_block_size d = 16 * 2 ^ Z.of_nat i ∧ blocks_per_arena d = 4084 / d_block_size d ∧ (i < 7)%nat.

Definition arena_pages (x : arena) : Z := match a_desc x with Some _ => 1 | None => free_cnt x end.

Record arena_ok (p : palloc_state) (ds : list desc) (a : Z) (x : arena) : Prop := {
  ar_align : a `mod` 4096 = 0;
  ar_magic : magic x = ARENA_MAGIC;
  ar_pages : 1 ≤ arena_pages x;
  ar_used : ∀ k, 0 ≤ k < arena_pages x → in_use p false (a + PGSIZE * k);
  ar_desc : ∀ i, a_desc x = Some i → ∃ d, ds !! i = Some d ∧
    free_cnt x = Z.of_nat (length (filter (λ b, b ∈ arena_blocks a d) (free_list d)))
}.

Record heap_ok (h : heap) : Prop := {
  ho_pages : palloc_ok (pages h);
  ho_len : length (descs h) = 7%nat;
  ho_descs : ∀ i d, descs h !! i = Some d → desc_ok i d;
  ho_arena : ∀ a x, arenas h !! a = Some x → arena_ok (pages h) (descs h) a x;
  ho_disjoint : ∀ a x b y, arenas h !! a = Some x → arenas h !! b = Some y → a ≠ b →
    disjoint_blocks a (PGSIZE * arena_pages x) b (PGSIZE * arena_pages y);
  ho_free : ∀ i d b, descs h !! i = Some d → b ∈ free_list d →
    ∃ a x, arenas h !! a = Some x ∧ a_desc x = Some i ∧ b ∈ arena_blocks a d;
  ho_nodup : ∀ i d, descs h !! i = Some d → NoDup (free_list d)
}.

(** [p] is a block of [n] bytes of the arena [x] at [a]. *)
Definition is_block (h : heap) (p : Z) (a : Z) (x : arena) (n : Z) : Prop :=
  arenas h !! a = Some x ∧
  match a_desc x with
  | Some i => ∃ d, descs h !! i = Some d ∧ p ∈ arena_blocks a d ∧ n = d_block_size d
  | None => p = a + arena_size ∧ n = PGSIZE * free_cnt x - arena_size
  end.

Definition is_free (h : heap) (p : Z) : Prop := ∃ i d, descs h !! i = Some d ∧ p ∈ free_list d.

(** [p] is an allocated block of [n] bytes. *)
Definition live (h : heap) (p n : Z) : Prop := (∃ a x, is_block h p a x n) ∧ ¬ is_free h p.

Lemma desc_bounds i d :
  desc_ok i d → 16 ≤ d_block_size d ≤ 1024 ∧ 3 ≤ blocks_per_arena d ≤ 255 ∧
    blocks_per_arena d * d_block_size d ≤ 4084.
Proof.
  intros (Hb & Hp & Hi). rewrite Hp, Hb.
  do 7 (destruct i as [|i]; [vm_compute; split_and!; congruence |]). lia.
Qed.

Lemma elem_of_arena_blocks a d b :
  b ∈ arena_blocks a d ↔ ∃ idx, 0 ≤ idx < blocks_per_arena d ∧ b = a + arena_size + idx * d_block_size d.
Proof.
  unfold arena_blocks. rewrite list_elem_of_fmap. split.
  - intros (idx & -> & Hi%elem_of_seqZ). exists idx. split; [lia | done].
  - intros (idx & Hi & ->). exists idx. split; [done |]. apply elem_of_seqZ. lia.
Qed.

Lemma arena_blocks_NoDup a i d : desc_ok i d → NoDup (arena_blocks a d).
Proof.
  intros Hd. destruct (desc_bounds _ _ Hd) as (Hs & _). unfold arena_blocks. apply NoDup_fmap_2_strong; [| apply NoDup_seqZ].
  intros x y _ _ H. nia.
Qed.

Lemma arena_blocks_length a d : 0 ≤ blocks_per_arena d → Z.of_nat (length (arena_blocks a d)) = blocks_per_arena d.
Proof. intros. unfold arena_blocks. rewrite length_fmap, length_seqZ. lia. Qed.

(** A block lies in its arena's page, after the header. *)
Lemma arena_block_range a i d b :
  desc_ok i d → b ∈ arena_blocks a d → a + arena_size ≤ b ∧ b + d_block_size d ≤ a + 4096.
Proof.
  intros Hd (idx & Hi & ->)%elem_of_arena_blocks. destruct (desc_bounds _ _ Hd) as (Hs & Hp & Hm).
  unfold arena_size. nia.
Qed.

Lemma arena_block_page a i d b :
  desc_ok i d → 0 ≤ a < 4294967296 → a `mod` 4096 = 0 → b ∈ arena_blocks a d →
  pg_round_down b = a ∧ u32 (pg_ofs b - arena_size) `mod` d_block_size d = 0.
Proof.
  intros Hd Ha Hal Hb. pose proof (arena_block_range _ _ _ _ Hd Hb) as Hr. unfold arena_size in Hr.
  destruct (desc_bounds _ _ Hd) as (Hs & _). apply elem_of_arena_blocks in Hb as (idx & Hi & Eb). unfold arena_size in Eb.
  assert (b `mod` 4096 = b - a) as Em.
  { symmetry. apply Z.mod_unique with (a / 4096); [lia |]. pose proof (Z.div_mod a 4096). lia. }
  assert (a ≤ 4294963200) as Ha2 by (Z.to_euclidean_division_equations; lia).
  rewrite pg_round_down_eq by (unfold is_addr; lia). rewrite pg_ofs_eq, Em. split; [lia |].
  unfold arena_size. rewrite u32_id by lia. replace (b - a - 12) with (idx * d_block_size d) by lia.
  apply Z_mod_mult.
Qed.

(** An arena's first page is mapped kernel memory. *)
Lemma in_use_range s user a : palloc_ok s → in_use s user a → 0 < a ∧ a + 4096 ≤ 4294967296 ∧ mapped (memory s) a 4096.
Proof.
  intros Hs (n & -> & Hn). pose proof (pool_of_ok s user Hs) as Hp. pose proof (lookup_lt_Some _ _ _ Hn) as Hl.
  rewrite bits_of_length in Hl. pose proof (pool_base _ _ Hp). pose proof (pool_end _ _ Hp) as He.
  unfold page_addr, PGSIZE in *. split; [lia |]. split; [lia |].
  intros a Ha. apply (pool_mapped _ _ Hp). unfold PGSIZE. lia.
Qed.

Lemma arena_range h a x :
  heap_ok h → arenas h !! a = Some x → 0 < a ∧ a + 4096 ≤ 4294967296 ∧ a `mod` 4096 = 0 ∧ mapped (memory (pages h)) a 4096.
Proof.
  intros Hh Hx. pose proof (ho_arena _ Hh _ _ Hx) as Ha. pose proof (ar_pages _ _ _ _ Ha) as Hp.
  destruct (in_use_range (pages h) false (a + PGSIZE * 0)) as (H1 & H2 & H3);
    [apply Hh | apply Ha; lia |]. rewrite Z.mul_0_r, Z.add_0_r in *. split_and!; [done | done | apply Ha | done].
Qed.

Lemma get_arena_ok h a x :
  0 < a → arenas h !! a = Some x → magic x = ARENA_MAGIC → get_arena h a = Ok x.
Proof.
  intros Ha Hx Hm. unfold get_arena. destruct (Z.eqb_spec a 0); [lia |]. rewrite Hx. cbn [negb assert_that mbind outcome_bind from_option_err].
  rewrite Hm. done.
Qed.

Lemma get_desc_ok h i d : descs h !! i = Some d → get_desc h i = Ok d.
Proof. intros E. unfold get_desc. by rewrite E. Qed.

Lemma block_to_arena_small h a x i d b :
  0 < a < 4294967296 → a `mod` 4096 = 0 → arenas h !! a = Some x → magic x = ARENA_MAGIC → a_desc x = Some i →
  descs h !! i = Some d → desc_ok i d → b ∈ arena_blocks a d → block_to_arena h b = Ok (a, x).
Proof.
  intros Ha Hal Hx Hm Hi Hd Hok Hb. destruct (arena_block_page a i d b) as [Hr Ho]; [done | lia | done | done |].
  unfold block_to_arena. rewrite Hr, (get_arena_ok h a x) by (done || lia). cbn [mbind outcome_bind].
  rewrite Hi, (get_desc_ok h i d Hd). cbn [mbind outcome_bind]. by rewrite Ho.
Qed.

Lemma block_to_arena_large h a x :
  0 < a < 4294967296 → a `mod` 4096 = 0 → arenas h !! a = Some x → magic x = ARENA_MAGIC → a_desc x = None →
  block_to_arena h (a + arena_size) = Ok (a, x).
Proof.
  intros Ha Hal Hx Hm Hi. unfold arena_size.
  assert ((a + 12) `mod` 4096 = 12) as Em by (symmetry; apply Z.mod_unique with (a / 4096); [lia |]; pose proof (Z.div_mod a 4096); lia).
  assert (a ≤ 4294963200) as Ha2 by (Z.to_euclidean_division_equations; lia).
  unfold block_to_arena. rewrite pg_round_down_eq by (unfold is_addr; lia). rewrite Em.
  replace (a + 12 - 12) with a by lia. rewrite (get_arena_ok h a x) by (done || lia). cbn [mbind outcome_bind].
  rewrite Hi, pg_ofs_eq, Em. done.
Qed.

Lemma arena_to_block_ok h a x i d idx :
  0 < a → arenas h !! a = Some x → magic x = ARENA_MAGIC → a_desc x = Some i → descs h !! i = Some d →
  idx < blocks_per_arena d → arena_to_block h a idx = Ok (a + arena_size + idx * d_block_size d).
Proof.
  intros Ha Hx Hm Hi Hd Hlt. unfold arena_to_block. rewrite (get_arena_ok h a x) by done. cbn [mbind outcome_bind].
  rewrite Hi. cbn [from_option_err mbind outcome_bind]. rewrite (get_desc_ok h i d Hd). cbn [mbind outcome_bind].
  by destruct (Z.ltb_spec idx (blocks_per_arena d)); [| lia].
Qed.

Lemma push_blocks_ok n h a x i d idx l :
  0 < a → arenas h !! a = Some x → magic x = ARENA_MAGIC → a_desc x = Some i → descs h !! i = Some d →
  idx + Z.of_nat n ≤ blocks_per_arena d →
  push_blocks n h a idx l = Ok (l ++ ((λ k, a + arena_size + k * d_block_size d) <$> seqZ idx (Z.of_nat n))).
Proof.
  intros Ha Hx Hm Hi Hd. revert idx l. induction n as [|n IH]; intros idx l Hn; cbn [push_blocks].
  - by rewrite app_nil_r.
  - rewrite (arena_to_block_ok h a x i d idx) by (done || lia). cbn [mbind outcome_bind]. rewrite IH by lia.
    f_equal. rewrite <-app_assoc. f_equal. rewrite (seqZ_cons idx) by lia. cbn [fmap list_fmap app].
    by replace (Z.pred (Z.of_nat (S n))) with (Z.of_nat n) by lia.
Qed.

(** The blocks of an arena from index [idx] on. *)
Definition blocks_from (a : Z) (d : desc) (idx : Z) : list Z :=
  (λ k, a + arena_size + k * d_block_size d) <$> seqZ idx (blocks_per_arena d - idx).

Lemma blocks_from_0 a d : blocks_from a d 0 = arena_blocks a d.
Proof. unfold blocks_from. by rewrite Z.sub_0_r. Qed.

Lemma blocks_from_cons a d idx :
  idx < blocks_per_arena d →
  blocks_from a d idx = (a + arena_size + idx * d_block_size d) :: blocks_from a d (idx + 1).
Proof.
  intros. unfold blocks_from. rewrite seqZ_cons by lia. cbn [fmap list_fmap].
  by replace (Z.pred (blocks_per_arena d - idx)) with (blocks_per_arena d - (idx + 1)) by lia.
Qed.

Lemma remove_blocks_ok n h a x i d idx l :
  0 < a → arenas h !! a = Some x → magic x = ARENA_MAGIC → a_desc x = Some i → descs h !! i = Some d → desc_ok i d →
  0 ≤ idx → idx + Z.of_nat n = blocks_per_arena d → (∀ b, b ∈ blocks_from a d idx → b ∈ l) →
  remove_blocks n h a idx l = Ok (filter (λ b, b ∉ blocks_from a d idx) l).
Proof.
  intros Ha Hx Hm Hi Hd Hok. destruct (desc_bounds _ _ Hok) as (Hs & _). revert idx l.
  induction n as [|n IH]; intros idx l H0 Hn Hin; cbn [remove_blocks].
  - f_equal. symmetry. apply filter_all. intros b _. unfold blocks_from.
    replace (blocks_per_arena d - idx) with 0 by lia. apply not_elem_of_nil.
  - rewrite (arena_to_block_ok h a x i d idx) by (done || lia). cbn [mbind outcome_bind].
    rewrite (blocks_from_cons a d idx) in Hin |- * by lia. set (b := a + arena_size + idx * d_block_size d) in *.
    rewrite bool_decide_true by (apply Hin; left). rewrite IH; [| lia | lia |].
    + f_equal. rewrite list_filter_filter. apply list_filter_iff. intros y. rewrite not_elem_of_cons. tauto.
    + intros y Hy. apply list_elem_of_filter. split; [| apply Hin; by right]. intros ->.
      unfold blocks_from in Hy. apply list_elem_of_fmap in Hy as (k & Ek & Hk%elem_of_seqZ). unfold b in Ek. nia.
Qed.

(** ** Pages of arenas *)

Lemma large_block_page a : 0 ≤ a → a + 4096 ≤ 4294967296 → a `mod` 4096 = 0 → pg_round_down (a + arena_size) = a.
Proof.
  intros H0 Ha Hal. unfold arena_size. rewrite pg_round_down_eq by (unfold is_addr; lia).
  assert ((a + 12) `mod` 4096 = 12) as -> by (symmetry; apply Z.mod_unique with (a / 4096); [lia |]; pose proof (Z.div_mod a 4096); lia).
  lia.
Qed.

Lemma is_block_page h p a x n : heap_ok h → is_block h p a x n → pg_round_down p = a.
Proof.
  intros Hh [Hx Hb]. destruct (arena_range h a x Hh Hx) as (H1 & H2 & H3 & _).
  destruct (a_desc x) as [i|].
  - destruct Hb as (d & Hd & Hp & _). apply (arena_block_page a i d p); [by apply (ho_descs _ Hh) | lia | done | done].
  - destruct Hb as [-> _]. apply large_block_page; lia.
Qed.

Lemma is_block_unique h p a x n b y m : heap_ok h → is_block h p a x n → is_block h p b y m → a = b ∧ x = y ∧ n = m.
Proof.
  intros Hh H1 H2. pose proof (is_block_page _ _ _ _ _ Hh H1) as <-. pose proof (is_block_page _ _ _ _ _ Hh H2) as E.
  destruct H1 as [Hx H1], H2 as [Hy H2]. rewrite E in *. rewrite Hx in Hy. injection Hy as <-.
  split_and!; [done | done |]. destruct (a_desc x) as [i|].
  - destruct H1 as (d & Hd & _ & ->), H2 as (d' & Hd' & _ & ->). congruence.
  - destruct H1 as [_ ->], H2 as [_ ->]. done.
Qed.

Lemma is_free_block h p : heap_ok h → is_free h p → ∃ a x i d, arenas h !! a = Some x ∧ a_desc x = Some i ∧
  descs h !! i = Some d ∧ p ∈ arena_blocks a d ∧ p ∈ free_list d.
Proof.
  intros Hh (i & d & Hd & Hp). destruct (ho_free _ Hh i d p Hd Hp) as (a & x & Hx & Hi & Hb). eauto 10.
Qed.

Lemma small_is_block h a x i d p :
  arenas h !! a = Some x → a_desc x = Some i → descs h !! i = Some d → p ∈ arena_blocks a d →
  is_block h p a x (d_block_size d).
Proof. intros Hx Hi Hd Hp. split; [done |]. rewrite Hi. eauto. Qed.

(** Pages that are aligned and have no page in common do not overlap. *)
Lemma pages_disjoint a b n m :
  a `mod` 4096 = 0 → b `mod` 4096 = 0 → 
  ¬ (∃ k, 0 ≤ k < n ∧ b = a + 4096 * k) → ¬ (∃ k, 0 ≤ k < m ∧ a = b + 4096 * k) →
  disjoint_blocks a (PGSIZE * n) b (PGSIZE * m).
Proof.
  intros Ha Hb H1 H2. unfold disjoint_blocks, PGSIZE.
  destruct (Z.le_gt_cases (a + 4096 * n) b) as [|Hgt]; [by left |].
  destruct (Z.le_gt_cases (b + 4096 * m) a) as [|Hgt2]; [by right |]. exfalso.
  destruct (Z.le_gt_cases a b).
  - apply H1. exists ((b - a) / 4096). Z.to_euclidean_division_equations; lia.
  - apply H2. exists ((a - b) / 4096). Z.to_euclidean_division_equations; lia.
Qed.

Lemma has_flag_0 f : has_flag 0 f = false.
Proof. unfold has_flag. by rewrite Z.land_0_l. Qed.

(** Pages just allocated for an arena are away from every arena. *)
Lemma get_pages h cnt :
  heap_ok h → 0 < cnt < 4294967296 →
  (palloc_get_multiple 0 cnt (pages h) = Ok (0, pages h) ∧ ∀ i, ¬ free_run (pages h) false i cnt) ∨
  ∃ a p, palloc_get_multiple 0 cnt (pages h) = Ok (a, p) ∧ palloc_ok p ∧ memory p = memory (pages h) ∧
    0 < a ∧ a `mod` 4096 = 0 ∧ arenas h !! a = None ∧
    (∀ k, 0 ≤ k < cnt → in_use p false (a + PGSIZE * k)) ∧
    (∀ b, in_use (pages h) false b → in_use p false b) ∧
    ∀ b y, arenas h !! b = Some y → disjoint_blocks a (PGSIZE * cnt) b (PGSIZE * arena_pages y).
Proof.
  intros Hh Hc. destruct (palloc_get_ok 0 cnt (pages h) (ho_pages _ Hh) Hc)
    as [[E Hno]|(i & a & p & E & Hp & Hf & _ & Ea & H0 & Ho & Hu & _ & Hm & _)]; rewrite !has_flag_0 in *; [by left |].
  right. exists a, p. rewrite pg_ofs_eq in Ho.
  assert (∀ k, 0 ≤ k < cnt → ¬ in_use (pages h) false (a + PGSIZE * k)) as Hnew.
  { intros k Hk. destruct Hf as (_ & _ & Hf). specialize (Hf k Hk). unfold page_addr in *. rewrite Ea.
    by replace (base (pool_of false (pages h)) + PGSIZE * i + PGSIZE * k)
      with (base (pool_of false (pages h)) + PGSIZE * (i + k)) by lia. }
  assert (∀ b y k, arenas h !! b = Some y → 0 ≤ k < arena_pages y → in_use (pages h) false (b + PGSIZE * k)) as Hold
    by (intros b y k Hy Hk; by apply (ar_used _ _ _ _ (ho_arena _ Hh _ _ Hy))).
  split; [done |]. split; [done |]. split.
  { apply map_eq. intros b. rewrite Hm. by rewrite decide_False by naive_solver. }
  split; [done |]. split; [done |]. split.
  { destruct (arenas h !! a) as [y|] eqn:Ey; [exfalso | done]. pose proof (ar_pages _ _ _ _ (ho_arena _ Hh _ _ Ey)).
    apply (Hnew 0); [lia |]. apply (Hold a y 0 Ey). lia. }
  split; [intros k Hk; apply Hu; left; by exists k |]. split; [intros b Hb; apply Hu; by right |].
  intros b y Hy. apply pages_disjoint; [done | by apply (ho_arena _ Hh _ _ Hy) | |].
  - intros (k & Hk & ->). apply (Hnew k Hk). pose proof (ar_pages _ _ _ _ (ho_arena _ Hh _ _ Hy)).
    pose proof (Hold _ y 0 Hy ltac:(lia)) as Hq. by rewrite Z.mul_0_r, Z.add_0_r in Hq.
  - intros (k & Hk & ->). apply (Hnew 0); [lia |]. rewrite Z.mul_0_r, Z.add_0_r. by apply (Hold b y k).
Qed.

Lemma arena_ok_mono p p' ds a x :
  arena_ok p ds a x → (∀ b, in_use p false b → in_use p' false b) → arena_ok p' ds a x.
Proof. intros Ha Hm. split; try apply Ha. intros k Hk. by apply Hm, Ha. Qed.

(** ** Free lists *)

Lemma set_free_list_lookup i l h j :
  descs (set_free_list i l h) !! j =
    if decide (j = i) then (λ d, Desc (d_block_size d) (blocks_per_arena d) l) <$> descs h !! i else descs h !! j.
Proof.
  cbn. destruct (decide (j = i)) as [-> |]; [apply list_lookup_alter_eq | by apply list_lookup_alter_ne].
Qed.

Lemma blocks_other_arena h a x b y i d :
  heap_ok h → arenas h !! a = Some x → arenas h !! b = Some y → a_desc x = Some i → a_desc y = Some i →
  descs h !! i = Some d → a ≠ b → ∀ p, p ∈ arena_blocks b d → p ∉ arena_blocks a d.
Proof.
  intros Hh Hx Hy Hi Hj Hd Hne p Hp Hp'. apply Hne.
  by destruct (is_block_unique h p a x _ b y _ Hh (small_is_block h a x i d p Hx Hi Hd Hp')
    (small_is_block h b y i d p Hy Hj Hd Hp)).
Qed.

(** A new free list, whose blocks of arenas other than [a] are those of the old
    one, and the count of [a] that goes with it. *)
Lemma set_free_ok h a x i d l :
  heap_ok h → arenas h !! a = Some x → a_desc x = Some i → descs h !! i = Some d → NoDup l →
  (∀ b, b ∈ l → b ∈ free_list d ∨ b ∈ arena_blocks a d) →
  filter (λ b, b ∉ arena_blocks a d) l = filter (λ b, b ∉ arena_blocks a d) (free_list d) →
  heap_ok (set_arena a (Arena (magic x) (Some i) (Z.of_nat (length (filter (λ b, b ∈ arena_blocks a d) l))))
    (set_free_list i l h)).
Proof.
  intros Hh Hx Hi Hd Hl Hin Hother. set (x' := Arena _ _ _). 
  assert (∀ b y, arenas (set_arena a x' (set_free_list i l h)) !! b = Some y →
    ∃ y0, arenas h !! b = Some y0 ∧ a_desc y0 = a_desc y ∧ arena_pages y0 = arena_pages y ∧ magic y0 = magic y ∧
      (a ≠ b → y0 = y)) as Har.
  { intros b y Hy. cbn in Hy. destruct (decide (a = b)) as [<- |Hne].
    - rewrite lookup_insert_eq in Hy. injection Hy as <-. exists x. split; [done |]. unfold arena_pages. by rewrite Hi.
    - rewrite lookup_insert_ne in Hy by done. by exists y. }
  split; cbn [pages descs arenas set_arena]; try apply Hh.
  - cbn. rewrite length_alter. apply Hh.
  - intros j dj Hj. rewrite set_free_list_lookup in Hj. case_decide as Hji; [subst j | by apply (ho_descs _ Hh)].
    rewrite Hd in Hj. injection Hj as <-. apply (ho_descs _ Hh _ _ Hd).
  - intros b y Hy. destruct (Har b y Hy) as (y0 & Hy0 & Hdy & Hpy & Hmy & Heq). pose proof (ho_arena _ Hh _ _ Hy0) as Ho.
    split; rewrite <-?Hpy, <-?Hmy; try apply Ho.
    intros j Hj. rewrite <-Hdy in Hj. destruct (ar_desc _ _ _ _ Ho j Hj) as (dj & Hdj & Hcnt).
    rewrite set_free_list_lookup. case_decide as Hji.
    + subst j. rewrite Hd in Hdj |- *. injection Hdj as <-. cbn [fmap option_fmap option_map]. eexists. split; [done |].
      cbn [free_list]. destruct (decide (a = b)) as [<- |Hne].
      * cbn in Hy. rewrite lookup_insert_eq in Hy. injection Hy as <-. done.
      * rewrite <-(Heq Hne), Hcnt. do 2 f_equal.
        assert (∀ k : list Z, filter (λ p, p ∈ arena_blocks b d) k =
          filter (λ p, p ∈ arena_blocks b d) (filter (λ p, p ∉ arena_blocks a d) k)) as Hf.
        { intros k. symmetry. apply list_filter_filter_l. by apply (blocks_other_arena h a x b y0 i d). }
        change (arena_blocks b (Desc (d_block_size d) (blocks_per_arena d) l)) with (arena_blocks b d).
        by rewrite (Hf l), Hother, <-Hf.
    + exists dj. split; [done |]. destruct (decide (a = b)) as [<- |Hne]; [congruence | by rewrite <-(Heq Hne)].
  - intros b y c z Hy Hz Hne. destruct (Har b y Hy) as (y0 & Hy0 & _ & <- & _), (Har c z Hz) as (z0 & Hz0 & _ & <- & _).
    by apply (ho_disjoint _ Hh).
  - assert (∀ b y0, arenas h !! b = Some y0 → ∃ y, arenas (set_arena a x' (set_free_list i l h)) !! b = Some y ∧
      a_desc y = a_desc y0) as Hback.
    { intros b y0 Hy0. cbn. destruct (decide (a = b)) as [<- |Hne].
      - exists x'. rewrite lookup_insert_eq. split; [done |]. unfold x'; cbn [a_desc]; congruence.
      - exists y0. by rewrite lookup_insert_ne. }
    intros j dj b Hj Hb. rewrite set_free_list_lookup in Hj. case_decide as Hji.
    + subst j. rewrite Hd in Hj. injection Hj as <-. cbn [free_list] in Hb.
      assert (∃ b0 y0, arenas h !! b0 = Some y0 ∧ a_desc y0 = Some i ∧ b ∈ arena_blocks b0 d) as (b0 & y0 & Hy0 & Hdy & Hbb).
      { destruct (Hin b Hb) as [Hf|Hf]; [by apply (ho_free _ Hh) | by exists a, x]. }
      destruct (Hback b0 y0 Hy0) as (y & Hy & Hyd). exists b0, y. split; [exact Hy |]. split; [congruence | done].
    + destruct (ho_free _ Hh j dj b Hj Hb) as (b0 & y0 & Hy0 & Hdy & Hbb).
      destruct (Hback b0 y0 Hy0) as (y & Hy & Hyd). exists b0, y. split; [exact Hy |]. split; [congruence | done].
  - intros j dj Hj. rewrite set_free_list_lookup in Hj. case_decide as Hji; [subst j | by apply (ho_nodup _ Hh j)].
    rewrite Hd in Hj. by injection Hj as <-.
Qed.

(** Blocks do not depend on the free lists. *)
Lemma set_free_is_block h a x i d l c p b n :
  arenas h !! a = Some x → a_desc x = Some i → descs h !! i = Some d →
  (∃ y, is_block (set_arena a (Arena (magic x) (Some i) c) (set_free_list i l h)) p b y n) ↔ ∃ y, is_block h p b y n.
Proof.
  intros Hx Hi Hd. unfold is_block. cbn [arenas set_arena].
  assert (∀ j, (∃ d0, descs (set_arena a (Arena (magic x) (Some i) c) (set_free_list i l h)) !! j = Some d0 ∧
      p ∈ arena_blocks b d0 ∧ n = d_block_size d0) ↔
    ∃ d0, descs h !! j = Some d0 ∧ p ∈ arena_blocks b d0 ∧ n = d_block_size d0) as Hds.
  { intros j. cbn [descs set_arena]. rewrite set_free_list_lookup. case_decide as Hji; [| done]. subst j. rewrite Hd.
    cbn [fmap option_fmap option_map]. split.
    - intros (d0 & [= <-] & Hp & Hn). by exists d.
    - intros (d0 & [= <-] & Hp & Hn). eexists. split; [done |]. done. }
  split; intros (y & Hy & Hb).
  - destruct (decide (a = b)) as [<- |Hne].
    + rewrite lookup_insert_eq in Hy. injection Hy as <-. exists x. split; [done |]. rewrite Hi. by apply Hds.
    + rewrite lookup_insert_ne in Hy by done. exists y. split; [done |]. destruct (a_desc y); [by apply Hds | done].
  - destruct (decide (a = b)) as [<- |Hne].
    + exists (Arena (magic x) (Some i) c). rewrite lookup_insert_eq. split; [done |]. cbn [a_desc].
      rewrite Hx in Hy. injection Hy as <-. rewrite Hi in Hb. by apply Hds.
    + exists y. rewrite lookup_insert_ne by done. split; [done |]. destruct (a_desc y); [by apply Hds | done].
Qed.

Lemma set_free_is_free h a x i d l c p :
  descs h !! i = Some d →
  is_free (set_arena a (Arena (magic x) (Some i) c) (set_free_list i l h)) p ↔
    p ∈ l ∨ ∃ j dj, j ≠ i ∧ descs h !! j = Some dj ∧ p ∈ free_list dj.
Proof.
  intros Hd. unfold is_free. cbn [descs set_arena]. split.
  - intros (j & dj & Hj & Hp). rewrite set_free_list_lookup in Hj. case_decide as Hji.
    + subst j. rewrite Hd in Hj. injection Hj as <-. by left.
    + right. by exists j, dj.
  - intros [Hp|(j & dj & Hne & Hj & Hp)].
    + exists i. rewrite set_free_list_lookup, decide_True, Hd by done. by eexists.
    + exists j, dj. by rewrite set_free_list_lookup, decide_False by done.
Qed.

Lemma is_free_split h i d p :
  descs h !! i = Some d → is_free h p ↔ p ∈ free_list d ∨ ∃ j dj, j ≠ i ∧ descs h !! j = Some dj ∧ p ∈ free_list dj.
Proof.
  intros Hd. unfold is_free. split.
  - intros (j & dj & Hj & Hp). destruct (decide (j = i)) as [-> |]; [left; congruence | right; by exists j, dj].
  - intros [Hp|(j & dj & _ & Hj & Hp)]; [by exists i, d | by exists j, dj].
Qed.

(** A block is in the free list of its own descriptor only. *)
Lemma free_own_desc h a x i d p j dj :
  heap_ok h → arenas h !! a = Some x → a_desc x = Some i → descs h !! i = Some d → p ∈ arena_blocks a d →
  descs h !! j = Some dj → p ∈ free_list dj → j = i.
Proof.
  intros Hh Hx Hi Hd Hp Hj Hf. destruct (ho_free _ Hh j dj p Hj Hf) as (b & y & Hy & Hdy & Hpb).
  destruct (is_block_unique h p a x _ b y _ Hh (small_is_block h a x i d p Hx Hi Hd Hp)
    (small_is_block h b y j dj p Hy Hdy Hj Hpb)) as (_ & <- & _). congruence.
Qed.

(** Taking the first block off a free list, or putting a block back. *)
Lemma pop_ok h a x i d b l :
  heap_ok h → arenas h !! a = Some x → a_desc x = Some i → descs h !! i = Some d → free_list d = b :: l →
  b ∈ arena_blocks a d →
  let h' := set_arena a (Arena (magic x) (a_desc x) (u32 (free_cnt x - 1))) (set_free_list i l h) in
  heap_ok h' ∧ ¬ live h b (d_block_size d) ∧
  ∀ p n, live h' p n ↔ live h p n ∨ p = b ∧ n = d_block_size d.
Proof.
  intros Hh Hx Hi Hd Hl Hb h'. pose proof (ho_nodup _ Hh _ _ Hd) as Hnd. rewrite Hl in Hnd.
  apply NoDup_cons in Hnd as [Hbl Hnd].
  assert (u32 (free_cnt x - 1) = Z.of_nat (length (filter (λ y, y ∈ arena_blocks a d) l))) as Ec.
  { destruct (ar_desc _ _ _ _ (ho_arena _ Hh _ _ Hx) i Hi) as (d' & Hd' & Hc). rewrite Hd in Hd'. injection Hd' as <-.
    rewrite Hl, filter_cons, decide_True in Hc by done. cbn [length] in Hc.
    assert (length (filter (λ y, y ∈ arena_blocks a d) l) ≤ length (arena_blocks a d))%nat as Hle.
    { apply submseteq_length, NoDup_submseteq; [by apply NoDup_filter |]. intros y [Hy _]%list_elem_of_filter. done. }
    destruct (desc_bounds _ _ (ho_descs _ Hh _ _ Hd)) as (_ & Hbp & _).
    pose proof (arena_blocks_length a d ltac:(lia)). rewrite u32_id by lia. lia. }
  unfold h'. rewrite Ec, Hi. split; [| split].
  - apply set_free_ok; try done.
    + intros y Hy. left. rewrite Hl. by right.
    + rewrite Hl, filter_cons, decide_False by tauto. done.
  - intros [_ Hnf]. apply Hnf. exists i, d. rewrite Hl. split; [done | left].
  - intros p n. unfold live. setoid_rewrite set_free_is_block; [| done ..].
    rewrite set_free_is_free, (is_free_split h i d p), Hl, elem_of_cons by done. split.
    + intros [Hblk Hnf]. destruct (decide (p = b)) as [-> |Hne]; [right; split; [done |] | left; tauto].
      destruct Hblk as (c & y & Hblk).
      by destruct (is_block_unique _ _ _ _ _ _ _ _ Hh Hblk (small_is_block h a x i d b Hx Hi Hd Hb)) as (_ & _ & ->).
    + intros [[Hblk Hnf]|[-> ->]]; [split; [done | tauto] |]. split.
      * exists a, x. by apply (small_is_block h a x i d).
      * intros [|(j & dj & Hne & Hj & Hp)]; [done |].
        by rewrite (free_own_desc h a x i d b j dj Hh Hx Hi Hd Hb Hj Hp) in Hne.
Qed.

Lemma push_ok h a x i d b :
  heap_ok h → arenas h !! a = Some x → a_desc x = Some i → descs h !! i = Some d → b ∈ arena_blocks a d →
  b ∉ free_list d →
  let h' := set_arena a (Arena (magic x) (a_desc x) (u32 (free_cnt x + 1))) (set_free_list i (b :: free_list d) h) in
  heap_ok h' ∧ (∀ p n, live h' p n ↔ live h p n ∧ p ≠ b) ∧
  u32 (free_cnt x + 1) = Z.of_nat (length (filter (λ y, y ∈ arena_blocks a d) (b :: free_list d))) ∧
  u32 (free_cnt x + 1) ≤ blocks_per_arena d.
Proof.
  intros Hh Hx Hi Hd Hb Hbl h'. pose proof (ho_nodup _ Hh _ _ Hd) as Hnd.
  assert (NoDup (b :: free_list d)) as Hnd2 by (by apply NoDup_cons).
  assert (length (filter (λ y, y ∈ arena_blocks a d) (b :: free_list d)) ≤ length (arena_blocks a d))%nat as Hle.
  { apply submseteq_length, NoDup_submseteq; [by apply NoDup_filter |]. intros y [Hy _]%list_elem_of_filter. done. }
  destruct (desc_bounds _ _ (ho_descs _ Hh _ _ Hd)) as (_ & Hbp & _).
  pose proof (arena_blocks_length a d ltac:(lia)) as Hlen.
  assert (u32 (free_cnt x + 1) = Z.of_nat (length (filter (λ y, y ∈ arena_blocks a d) (b :: free_list d)))) as Ec.
  { destruct (ar_desc _ _ _ _ (ho_arena _ Hh _ _ Hx) i Hi) as (d' & Hd' & Hc). rewrite Hd in Hd'. injection Hd' as <-.
    rewrite filter_cons, decide_True in Hle |- * by done. cbn [length] in *. rewrite u32_id by lia. lia. }
  split; [| split; [| split; [done | lia]]].
  - unfold h'. rewrite Ec, Hi. apply set_free_ok; try done.
    + intros y [-> |Hy]%elem_of_cons; [by right | by left].
    + rewrite filter_cons, decide_False by tauto. done.
  - intros p n. unfold h', live. rewrite Hi. setoid_rewrite set_free_is_block; [| done ..].
    rewrite set_free_is_free, (is_free_split h i d p), elem_of_cons by done. tauto.
Qed.

(** A free list that is empty is refilled from a new page. *)
Lemma refill_ok i d h :
  heap_ok h → descs h !! i = Some d →
  (refill i h = Ok (false, h) ∧ ∀ k, ¬ free_run (pages h) false k 1) ∨
  ∃ h' d', refill i h = Ok (true, h') ∧ heap_ok h' ∧ (∀ p n, live h' p n ↔ live h p n) ∧
    memory (pages h') = memory (pages h) ∧ descs h' !! i = Some d' ∧ d_block_size d' = d_block_size d ∧ free_list d' ≠ [].
Proof.
  intros Hh Hd. unfold refill. rewrite (get_desc_ok h i d Hd). cbn [mbind outcome_bind].
  destruct (free_list d) as [|b l] eqn:El.
  2: { right. exists h, d. rewrite El. done. }
  unfold palloc_get_page. pose proof (ho_descs _ Hh _ _ Hd) as Hok. destruct (desc_bounds _ _ Hok) as (Hs & Hbp & _).
  destruct (get_pages h 1 Hh ltac:(lia)) as [[-> Hno]|(a & p & -> & Hp & Hm & Ha & Hal & Hnew & Hu & Hold & Hdis)];
    cbn [mbind outcome_bind].
  { left. cbn [Z.eqb]. split; [by destruct h | done]. }
  right. destruct (Z.eqb_spec a 0); [lia |]. set (x := Arena ARENA_MAGIC (Some i) (blocks_per_arena d)).
  rewrite (push_blocks_ok (Z.to_nat (blocks_per_arena d)) (set_arena a x (set_pages p h)) a x i d 0 []);
    [| done | cbn; apply lookup_insert_eq | done | done | done | lia].
  cbn [mbind outcome_bind app]. rewrite Z2Nat.id by lia. fold (arena_blocks a d).
  set (h' := set_free_list i (arena_blocks a d) (set_arena a x (set_pages p h))).
  assert (∀ j, descs h' !! j = if decide (j = i) then Some (Desc (d_block_size d) (blocks_per_arena d) (arena_blocks a d)) else descs h !! j) as Hds.
  { intros j. unfold h'. rewrite set_free_list_lookup. cbn [descs set_arena set_pages]. by rewrite Hd. }
  assert (∀ b y, arenas h' !! b = Some y → b = a ∧ y = x ∨ b ≠ a ∧ arenas h !! b = Some y) as Har.
  { intros b y. cbn. destruct (decide (a = b)) as [<- |Hne].
    - rewrite lookup_insert_eq. intros [= <-]. by left.
    - rewrite lookup_insert_ne by done. by right. }
  assert (∀ b y, b ≠ a → arenas h !! b = Some y → arenas h' !! b = Some y) as Har2
    by (intros b y Hne Hy; cbn; by rewrite lookup_insert_ne).
  assert (arenas h' !! a = Some x) as Hax by apply lookup_insert_eq.
  assert (heap_ok h') as Hh'.
  { split.
    - exact Hp.
    - cbn. rewrite length_alter. apply Hh.
    - intros j dj Hj. rewrite Hds in Hj. case_decide as Hji; [| by apply (ho_descs _ Hh)]. subst j. by injection Hj as <-.
    - intros b y [[-> ->]|[Hne Hy]]%Har.
      + split; cbn [arena_pages x a_desc magic free_cnt]; try done.
        intros j [= <-]. eexists. rewrite Hds, decide_True by done. split; [done |]. cbn [free_list].
        rewrite filter_all by done. rewrite arena_blocks_length by lia. done.
      + pose proof (ho_arena _ Hh _ _ Hy) as Ho. split; try apply Ho.
        * intros k Hk. apply Hold. by apply Ho.
        * intros j Hj. destruct (ar_desc _ _ _ _ Ho j Hj) as (dj & Hdj & Hc). rewrite Hds. case_decide as Hji; [| by exists dj].
          subst j. rewrite Hd in Hdj. injection Hdj as <-. rewrite El in Hc. cbn in Hc. eexists. split; [done |].
          cbn [free_list]. rewrite Hc, filter_none; [done |]. intros q Hq Hq2.
          destruct (arena_block_page a i d q) as [E1 _]; [done | | done | done |].
          { destruct (in_use_range p false (a + PGSIZE * 0) Hp (Hu 0 ltac:(lia))) as (_ & H2 & _).
            rewrite Z.mul_0_r, Z.add_0_r in H2. lia. }
          destruct (arena_range h b y Hh Hy) as (? & ? & Hbal & _).
          destruct (arena_block_page b i d q) as [E2 _]; [done | lia | done | exact Hq2 |]. congruence.
    - intros b y c z Hy Hz Hne. destruct (Har b y Hy) as [[-> ->]|[Hba Hy0]], (Har c z Hz) as [[-> ->]|[Hca Hz0]]; [done | | |].
      + by apply Hdis.
      + pose proof (Hdis b y Hy0) as Hd0. unfold disjoint_blocks in *. cbn [arena_pages x a_desc]. tauto.
      + by apply (ho_disjoint _ Hh).
    - intros j dj b Hj Hb. rewrite Hds in Hj. case_decide as Hji.
      + subst j. injection Hj as <-. exists a, x. done.
      + destruct (ho_free _ Hh j dj b Hj Hb) as (c & y & Hy & Hdy & Hby). exists c, y. split; [| done].
        apply Har2; [| done]. intros ->. congruence.
    - intros j dj Hj. rewrite Hds in Hj. case_decide as Hji; [| by apply (ho_nodup _ Hh j)]. subst j. injection Hj as <-.
      by apply (arena_blocks_NoDup a i d). }
  exists h', (Desc (d_block_size d) (blocks_per_arena d) (arena_blocks a d)).
  split; [done |]. split; [done |]. split; [| split; [exact Hm | split; [by rewrite Hds, decide_True |]]].
  2: { split; [done |]. cbn [free_list]. intros E. apply (f_equal length) in E.
       pose proof (arena_blocks_length a d ltac:(lia)). rewrite E in *. cbn in *. lia. }
  assert (∀ q n1 b y, b ≠ a → is_block h' q b y n1 ↔ is_block h q b y n1) as Hblk.
  { intros q n1 b y Hne. unfold is_block. split; intros [Hy Hb].
    - destruct (Har b y Hy) as [[]|[_ Hy0]]; [done |]. split; [done |]. destruct (a_desc y) as [j|]; [| done].
      destruct Hb as (dj & Hj & Hq & Hn). rewrite Hds in Hj. case_decide as Hji; [subst j | by exists dj].
      injection Hj as <-. exists d. done.
    - split; [by apply Har2 |]. destruct (a_desc y) as [j|]; [| done]. destruct Hb as (dj & Hj & Hq & Hn).
      rewrite Hds. case_decide as Hji; [subst j | by exists dj]. rewrite Hd in Hj. injection Hj as <-. by eexists. }
  intros q n1. unfold live. split.
  - intros [(b & y & Hb) Hnf]. destruct (decide (b = a)) as [-> |Hne].
    + exfalso. apply Hnf. destruct Hb as [Hy Hb]. rewrite Hax in Hy. injection Hy as <-. cbn [a_desc x] in Hb.
      destruct Hb as (dj & Hj & Hq & _). exists i, dj. split; [done |]. rewrite Hds, decide_True in Hj by done.
      by injection Hj as <-.
    + split; [exists b, y; by apply Hblk |]. intros (j & dj & Hj & Hq). apply Hnf.
      assert (j ≠ i) by (intros ->; rewrite Hd in Hj; injection Hj as <-; rewrite El in Hq; by apply elem_of_nil in Hq).
      exists j, dj. by rewrite Hds, decide_False.
  - intros [(b & y & Hb) Hnf]. assert (b ≠ a) as Hne by (intros ->; destruct Hb as [Hy _]; congruence).
    apply Hblk in Hb; [| done]. split; [by exists b, y |]. intros (j & dj & Hj & Hq). rewrite Hds in Hj. case_decide as Hji.
    + subst j. injection Hj as <-. cbn [free_list] in Hq.
      assert (is_block h' q a x (d_block_size d)) as Hba.
      { split; [done |]. cbn [a_desc x]. eexists. rewrite Hds, decide_True by done. split; [done |]. done. }
      by destruct (is_block_unique _ _ _ _ _ _ _ _ Hh' Hb Hba).
    + apply Hnf. by exists j, dj.
Qed.

(** ** Live blocks are disjoint *)

Lemma is_block_range h p a x n :
  heap_ok h → is_block h p a x n → a + arena_size ≤ p ∧ p + n ≤ a + PGSIZE * arena_pages x.
Proof.
  intros Hh [Hx Hb]. unfold arena_pages, PGSIZE. destruct (a_desc x) as [i|].
  - destruct Hb as (d & Hd & Hp & ->). pose proof (arena_block_range a i d p (ho_descs _ Hh _ _ Hd) Hp). lia.
  - destruct Hb as [-> ->]. unfold PGSIZE. lia.
Qed.

Lemma blocks_disjoint h p a x n q b y m :
  heap_ok h → is_block h p a x n → is_block h q b y m → p ≠ q → disjoint_blocks p n q m.
Proof.
  intros Hh H1 H2 Hne. pose proof (is_block_range _ _ _ _ _ Hh H1) as R1. pose proof (is_block_range _ _ _ _ _ Hh H2) as R2.
  destruct H1 as [Hx H1], H2 as [Hy H2]. unfold arena_size in *. destruct (decide (a = b)) as [<- |Hab].
  - rewrite Hx in Hy. injection Hy as <-. destruct (a_desc x) as [i|]; [| destruct H1, H2; congruence].
    destruct H1 as (d & Hd & Hp & ->), H2 as (d' & Hd' & Hq & ->). rewrite Hd in Hd'. injection Hd' as <-.
    apply elem_of_arena_blocks in Hp as (i1 & Hi1 & ->), Hq as (i2 & Hi2 & ->).
    destruct (desc_bounds _ _ (ho_descs _ Hh _ _ Hd)) as (Hs & _). unfold disjoint_blocks.
    destruct (Z.lt_total i1 i2) as [|[|]]; [left; nia | congruence | right; nia].
  - pose proof (ho_disjoint _ Hh a x b y Hx Hy Hab) as Hd. unfold disjoint_blocks in *. lia.
Qed.

(** ** Allocation *)

(** The pages a request of [size] bytes may need. *)
Definition pages_for (size : Z) : Z := if size <=? 1024 then 1 else (size + arena_size + PGSIZE - 1) / PGSIZE.

Lemma size_class h size :
  heap_ok h → 0 < size →
  if size <=? 1024 then ∃ i d, list_find (λ d, size ≤ d_block_size d) (descs h) = Some (i, d) ∧
      descs h !! i = Some d ∧ size ≤ d_block_size d
  else list_find (λ d, size ≤ d_block_size d) (descs h) = None.
Proof.
  intros Hh Hs. destruct (Z.leb_spec size 1024) as [Hle|Hgt].
  - destruct (list_find (λ d, size ≤ d_block_size d) (descs h)) as [[i d]|] eqn:E.
    + apply list_find_Some in E as (Hi & Hd & _). by exists i, d.
    + exfalso. apply list_find_None in E. destruct (lookup_lt_is_Some_2 (descs h) 6) as [d Hd]; [rewrite (ho_len _ Hh); lia |].
      apply (proj1 (Forall_lookup _ _) E 6%nat d Hd). destruct (ho_descs _ Hh _ _ Hd) as (-> & _). cbn. lia.
  - apply list_find_None, Forall_lookup. intros i d Hd.
    destruct (desc_bounds _ _ (ho_descs _ Hh _ _ Hd)) as (Hb & _). lia.
Qed.

(** A new arena for a large block. *)
Lemma large_ok h cnt a p :
  heap_ok h → 0 < cnt → palloc_ok p → 0 < a → a `mod` 4096 = 0 → arenas h !! a = None →
  (∀ k, 0 ≤ k < cnt → in_use p false (a + PGSIZE * k)) → (∀ b, in_use (pages h) false b → in_use p false b) →
  (∀ b y, arenas h !! b = Some y → disjoint_blocks a (PGSIZE * cnt) b (PGSIZE * arena_pages y)) →
  let h' := set_arena a (Arena ARENA_MAGIC None cnt) (set_pages p h) in
  heap_ok h' ∧ ∀ q m, live h' q m ↔ live h q m ∨ q = a + arena_size ∧ m = PGSIZE * cnt - arena_size.
Proof.
  intros Hh Hc Hp Ha Hal Hnew Hu Hold Hdis h'. set (x := Arena ARENA_MAGIC None cnt) in *.
  assert (∀ b y, arenas h' !! b = Some y ↔ b = a ∧ y = x ∨ b ≠ a ∧ arenas h !! b = Some y) as Har.
  { intros b y. cbn. destruct (decide (a = b)) as [<- |Hne].
    - rewrite lookup_insert_eq. naive_solver.
    - rewrite lookup_insert_ne by done. naive_solver. }
  assert (heap_ok h') as Hh'.
  { split; try apply Hh.
    - exact Hp.
    - intros b y [[-> ->]|[Hne Hy]]%Har; [split; cbn [arena_pages x a_desc free_cnt]; done || lia |].
      eapply arena_ok_mono; [apply (ho_arena _ Hh _ _ Hy) | done].
    - intros b y c z Hy Hz Hne. destruct (proj1 (Har b y) Hy) as [[-> ->]|[Hba Hy0]], (proj1 (Har c z) Hz) as [[-> ->]|[Hca Hz0]];
        [done | by apply Hdis | | by apply (ho_disjoint _ Hh)].
      pose proof (Hdis b y Hy0) as Hd0. unfold disjoint_blocks in *. cbn [arena_pages x a_desc free_cnt]. tauto.
    - intros i d b Hd Hb. destruct (ho_free _ Hh i d b Hd Hb) as (c & y & Hy & Hdy & Hby).
      exists c, y. split; [| done]. apply Har. right. split; [congruence | done]. }
  split; [done |].
  assert (∀ q b y m, is_block h' q b y m ↔ b = a ∧ y = x ∧ q = a + arena_size ∧ m = PGSIZE * cnt - arena_size ∨
    b ≠ a ∧ is_block h q b y m) as Hblk.
  { intros q b y m. unfold is_block. rewrite Har. change (descs h') with (descs h). split.
    - intros [[[-> ->]|[Hne Hy]] Hb]; [left; cbn in Hb; naive_solver | by right].
    - intros [(-> & -> & -> & ->)|[Hne [Hy Hb]]]; [split; [by left | done] | split; [by right | done]]. }
  intros q m. unfold live. change (is_free h' q) with (is_free h q). split.
  - intros [(b & y & Hb) Hnf]. apply Hblk in Hb as [(-> & -> & -> & ->)|[_ Hb]]; [by right |]. left. eauto.
  - intros [[(b & y & Hb) Hnf]|[-> ->]].
    + split; [| done]. exists b, y. apply Hblk. right. split; [| done]. destruct Hb as [Hy _]. congruence.
    + split; [exists a, x; apply Hblk; by left |]. intros Hf.
      destruct (is_free_block h _ Hh Hf) as (b & y & i & d & Hy & Hdy & Hd & Hby & _).
      assert (is_block h' (a + arena_size) b y (d_block_size d)) as Hb.
      { apply Hblk. right. split; [congruence |]. by apply (small_is_block h b y i d). }
      assert (is_block h' (a + arena_size) a x (PGSIZE * cnt - arena_size)) as Hb2 by (apply Hblk; by left).
      destruct (is_block_unique _ _ _ _ _ _ _ _ Hh' Hb Hb2) as (-> & _). congruence.
Qed.

Lemma malloc_ok size h :
  heap_ok h → 0 < size < 4294963189 →
  (malloc size h = Ok (0, h) ∧ ∀ k, ¬ free_run (pages h) false k (pages_for size)) ∨
  ∃ p n h', malloc size h = Ok (p, h') ∧ heap_ok h' ∧ 0 < p ∧ size ≤ n ∧ memory (pages h') = memory (pages h) ∧
    (∀ m, ¬ live h p m) ∧ (∀ q m, live h q m → disjoint_blocks p n q m) ∧
    ∀ q m, live h' q m ↔ live h q m ∨ q = p ∧ m = n.
Proof.
  intros Hh Hs. unfold malloc, pages_for. destruct (Z.eqb_spec size 0); [lia |].
  pose proof (size_class h size Hh ltac:(lia)) as Hc. destruct (Z.leb_spec size 1024) as [Hle|Hgt].
  - destruct Hc as (i & d & -> & Hd & Hsz).
    destruct (refill_ok i d h Hh Hd) as [[-> Hno]|(h1 & d1 & -> & Hh1 & Hlive & Hmem & Hd1 & Hbs & Hfl)];
      cbn [mbind outcome_bind negb]; [by left |].
    right. rewrite (get_desc_ok h1 i d1 Hd1). cbn [mbind outcome_bind].
    destruct (free_list d1) as [|b l] eqn:El; [done |]. clear Hfl.
    destruct (ho_free _ Hh1 i d1 b Hd1 ltac:(rewrite El; left)) as (a & x & Hx & Hi & Hb).
    destruct (arena_range h1 a x Hh1 Hx) as (Ha0 & Ha1 & Hal & _).
    rewrite (block_to_arena_small (set_free_list i l h1) a x i (Desc (d_block_size d1) (blocks_per_arena d1) l) b);
      [| lia | done | done | apply (ho_arena _ Hh1 _ _ Hx) | done
       | by rewrite set_free_list_lookup, decide_True, Hd1 | apply (ho_descs _ Hh1 _ _ Hd1) | exact Hb].
    cbn [mbind outcome_bind].
    destruct (pop_ok h1 a x i d1 b l Hh1 Hx Hi Hd1 El Hb) as (Hh2 & Hnl & Hl2).
    exists b, (d_block_size d1). eexists. split; [done |]. split; [exact Hh2 |].
    pose proof (arena_block_range a i d1 b (ho_descs _ Hh1 _ _ Hd1) Hb) as Hr. unfold arena_size in Hr.
    split; [lia |]. split; [lia |]. split; [exact Hmem |].
    assert (∀ m, ¬ live h b m) as Hnb.
    { intros m Hm. apply Hlive in Hm. apply Hm. exists i, d1. rewrite El. split; [done | left]. }
    split; [done |]. split.
    + intros q m Hq. pose proof Hq as [(c & y & Hblk) _]%Hlive.
      eapply blocks_disjoint; [exact Hh1 | by apply (small_is_block h1 a x i d1) | exact Hblk |].
      intros <-. by apply (Hnb m).
    + intros q m. by rewrite Hl2, Hlive.
  - rewrite Hc. unfold arena_size, PGSIZE. rewrite (u32_id (size + 12)) by lia. rewrite u32_id by lia.
    set (cnt := (size + 12 + 4096 - 1) / 4096).
    assert (0 < cnt < 4294967296 ∧ size + 12 ≤ 4096 * cnt) as [Hcnt Hfit]
      by (subst cnt; Z.to_euclidean_division_equations; lia).
    destruct (get_pages h cnt Hh Hcnt) as [[-> Hno]|(a & p & -> & Hp & Hm & Ha & Hal & Hnew & Hu & Hold & Hdis)];
      cbn [mbind outcome_bind].
    { left. cbn [Z.eqb]. split; [by destruct h | done]. }
    right. destruct (Z.eqb_spec a 0); [lia |].
    destruct (large_ok h cnt a p Hh ltac:(lia) Hp Ha Hal Hnew Hu Hold Hdis) as [Hh' Hl].
    exists (a + 12), (4096 * cnt - 12). eexists. split; [done |]. split; [exact Hh' |].
    split; [lia |]. split; [lia |]. split; [exact Hm |].
    assert (∀ q m, live h q m → ∃ b y, b ≠ a ∧ is_block h q b y m) as Hb.
    { intros q m [(b & y & Hq) _]. exists b, y. split; [| done]. destruct Hq as [Hy _]. congruence. }
    assert (∀ q m, live h q m → disjoint_blocks (a + 12) (4096 * cnt - 12) q m) as Hdd.
    { intros q m Hq. destruct (Hb q m Hq) as (b & y & Hne & Hblk).
      pose proof (is_block_range _ _ _ _ _ Hh Hblk) as Hr. destruct Hblk as [Hy _]. pose proof (Hdis b y Hy) as Hd0.
      unfold disjoint_blocks, PGSIZE, arena_size in *. lia. }
    split; [| split; [done | exact Hl]].
    intros m Hq. destruct (Hb _ _ Hq) as (b & y & Hne & Hblk). apply Hne.
    pose proof (is_block_page _ _ _ _ _ Hh Hblk) as <-.
    apply large_block_page; [lia | | done].
    destruct (in_use_range p false (a + PGSIZE * 0) Hp (Hu 0 ltac:(lia))) as (_ & H2 & _). lia.
Qed.

(** C17: [malloc] hands out disjoint blocks: it returns null, changing nothing,
    only when the kernel pool has no run of the pages it needs; otherwise the
    block is at least as large as the request, was not allocated, and overlaps
    no block that is; every other allocated block stays allocated, memory
    contents do not change (the headers of arenas and the links of free blocks
    are not part of [memory], see Malloc), and the allocator's invariant is
    kept.  (Requests within a page of 4 GB overflow and are excluded.) *)
Theorem malloc_correct size h :
  heap_ok h → 0 < size < 4294963189 →
  (malloc size h = Ok (0, h) ∧ ∀ k, ¬ free_run (pages h) false k (pages_for size)) ∨
  ∃ p n h', malloc size h = Ok (p, h') ∧ heap_ok h' ∧ 0 < p ∧ size ≤ n ∧ memory (pages h') = memory (pages h) ∧
    (∀ m, ¬ live h p m) ∧ (∀ q m, live h q m → disjoint_blocks p n q m) ∧
    ∀ q m, live h' q m ↔ live h q m ∨ q = p ∧ m = n.
Proof. apply malloc_ok. Qed.

(** ** Freeing *)

(** The pages of an arena, given back. *)
Lemma free_pages h a x :
  heap_ok h → arenas h !! a = Some x →
  ∃ p, palloc_free_multiple a (arena_pages x) (pages h) = Ok p ∧ palloc_ok p ∧
    (∀ b, in_use p false b ↔ in_use (pages h) false b ∧ ¬ ∃ k, 0 ≤ k < arena_pages x ∧ b = a + PGSIZE * k) ∧
    ∀ b, ¬ a ≤ b < a + PGSIZE * arena_pages x → memory p !! b = memory (pages h) !! b.
Proof.
  intros Hh Hx. pose proof (ho_arena _ Hh _ _ Hx) as Ha. pose proof (ar_pages _ _ _ _ Ha) as Hn.
  destruct (ar_used _ _ _ _ Ha 0 ltac:(lia)) as (n0 & E0 & H0). rewrite Z.mul_0_r, Z.add_0_r in E0.
  destruct (ar_used _ _ _ _ Ha (arena_pages x - 1) ltac:(lia)) as (n1 & E1 & H1).
  apply lookup_lt_Some in H1. rewrite bits_of_length in H1.
  assert (Z.of_nat n0 + arena_pages x ≤ bit_cnt (used_map (pool_of false (pages h)))) as Hl
    by (rewrite E0 in E1; unfold page_addr, PGSIZE in E1; lia).
  destruct (palloc_free_ok (pages h) false (Z.of_nat n0) (arena_pages x) (ho_pages _ Hh) ltac:(lia) ltac:(lia) Hl)
    as [Hfree _]. rewrite <-E0 in Hfree.
  destruct Hfree as (p & E & Hp & Hu & _ & Hm & _); [intros b (k & Hk & ->); by apply Ha |].
  exists p. split; [done |]. split; [done |]. split; [exact Hu |].
  intros b Hb. by rewrite Hm, decide_False.
Qed.

Lemma remove_arena_ok h a x :
  heap_ok h → arenas h !! a = Some x → (∀ q, is_free h q → pg_round_down q ≠ a) →
  ∃ p, palloc_free_multiple a (arena_pages x) (pages h) = Ok p ∧
    let h' := Heap (descs h) (delete a (arenas h)) p in
    heap_ok h' ∧ (∀ q m, live h' q m ↔ live h q m ∧ pg_round_down q ≠ a) ∧
    (∀ b, in_use p false b ↔ in_use (pages h) false b ∧ ¬ ∃ k, 0 ≤ k < arena_pages x ∧ b = a + PGSIZE * k) ∧
    ∀ b, ¬ a ≤ b < a + PGSIZE * arena_pages x → memory p !! b = memory (pages h) !! b.
Proof.
  intros Hh Hx Hnf. destruct (free_pages h a x Hh Hx) as (p & E & Hp & Hu & Hm).
  exists p. split; [done |]. intros h'.
  assert (∀ b y, arenas h' !! b = Some y ↔ b ≠ a ∧ arenas h !! b = Some y) as Har.
  { intros b y. unfold h'. cbn. rewrite lookup_delete_Some. naive_solver. }
  split; [| split; [| split; [exact Hu | exact Hm]]].
  - split; try apply Hh.
    + exact Hp.
    + intros b y [Hne Hy]%Har. pose proof (ho_arena _ Hh _ _ Hy) as Hb. split; try apply Hb.
      intros k Hk. apply Hu. split; [by apply Hb |]. intros (k' & Hk' & Ek).
      pose proof (ho_disjoint _ Hh a x b y Hx Hy ltac:(congruence)) as Hd. unfold disjoint_blocks, PGSIZE in *. lia.
    + intros b y c z [_ Hy]%Har [_ Hz]%Har. by apply (ho_disjoint _ Hh).
    + intros i d b Hd Hb. destruct (ho_free _ Hh i d b Hd Hb) as (c & y & Hy & Hdy & Hby).
      exists c, y. split; [| done]. apply Har. split; [| done]. intros ->.
      apply (Hnf b); [by exists i, d |]. by apply (is_block_page h b a y _ Hh (small_is_block h a y i d b Hy Hdy Hd Hby)).
  - intros q m. unfold live. change (is_free h' q) with (is_free h q). unfold is_block. split.
    + intros [(b & y & [Hne Hy]%Har & Hb) Hf]. change (descs h') with (descs h) in Hb.
      split; [split; [by exists b, y | done] |].
      intros E1. apply Hne. symmetry. rewrite <-E1. by apply (is_block_page h q b y m Hh).
    + intros [[(b & y & Hy & Hb) Hf] Hne]. split; [| done]. exists b, y. split; [| exact Hb].
      apply Har. split; [| done]. intros ->. apply Hne. by apply (is_block_page h q a y m Hh).
Qed.

Lemma set_memory_ok h m :
  heap_ok h → (∀ a, is_Some (memory (pages h) !! a) → is_Some (m !! a)) →
  heap_ok (set_memory m h) ∧ ∀ q n, live (set_memory m h) q n ↔ live h q n.
Proof.
  intros Hh Hm. split; [| done]. split; try apply Hh.
  - split; cbn; [eapply pool_ok_mono; [apply (ho_pages _ Hh) | done] | eapply pool_ok_mono; [apply (ho_pages _ Hh) | done] |].
    apply (ho_pages _ Hh).
  - intros a x Hx. by apply (ho_arena _ Hh) in Hx as [].
Qed.

(** All the blocks of an arena whose count is full are free. *)
Lemma full_arena h a x i d :
  heap_ok h → arenas h !! a = Some x → a_desc x = Some i → descs h !! i = Some d →
  free_cnt x = blocks_per_arena d → ∀ b, b ∈ arena_blocks a d → b ∈ free_list d.
Proof.
  intros Hh Hx Hi Hd Hc b Hb. destruct (ar_desc _ _ _ _ (ho_arena _ Hh _ _ Hx) i Hi) as (d' & Hd' & Hcnt).
  rewrite Hd in Hd'. injection Hd' as <-. destruct (desc_bounds _ _ (ho_descs _ Hh _ _ Hd)) as (_ & Hbp & _).
  pose proof (arena_blocks_length a d ltac:(lia)) as Hlen.
  set (f := filter (λ y, y ∈ arena_blocks a d) (free_list d)) in *.
  assert (f ≡ₚ arena_blocks a d) as Hp.
  { apply submseteq_length_Permutation.
    - apply NoDup_submseteq; [apply NoDup_filter, (ho_nodup _ Hh _ _ Hd) |]. by intros y [Hy _]%list_elem_of_filter.
    - lia. }
  assert (b ∈ f) as Hf by (by rewrite Hp). by apply list_elem_of_filter in Hf as [_ Hf].
Qed.

(** The free list of an arena's descriptor without the arena's blocks. *)
Lemma drop_arena_blocks h a x i d :
  heap_ok h → arenas h !! a = Some x → a_desc x = Some i → descs h !! i = Some d →
  free_cnt x = blocks_per_arena d →
  let h1 := set_arena a (Arena (magic x) (Some i) 0) (set_free_list i (filter (λ b, b ∉ arena_blocks a d) (free_list d)) h) in
  heap_ok h1 ∧ (∀ q, is_free h1 q → pg_round_down q ≠ a) ∧
  ∀ q m, live h1 q m ∧ pg_round_down q ≠ a ↔ live h q m.
Proof.
  intros Hh Hx Hi Hd Hc h1. set (l := filter (λ b, b ∉ arena_blocks a d) (free_list d)) in *.
  assert (0 = Z.of_nat (length (filter (λ b, b ∈ arena_blocks a d) l))) as E0.
  { rewrite filter_none; [done |]. by intros y [Hy _]%list_elem_of_filter. }
  assert (heap_ok h1) as Hh1.
  { unfold h1. rewrite E0. apply set_free_ok; try done.
    - apply NoDup_filter, (ho_nodup _ Hh _ _ Hd).
    - intros b [_ Hb]%list_elem_of_filter. by left.
    - unfold l. rewrite list_filter_filter. apply list_filter_iff. tauto. }
  assert (∀ q, is_free h1 q → is_free h q ∧ q ∉ arena_blocks a d) as Hf1.
  { intros q Hq. unfold h1 in Hq. apply set_free_is_free with (d := d) in Hq; [| done].
    destruct Hq as [Hq|(j & dj & Hne & Hj & Hq)].
    - apply list_elem_of_filter in Hq as [Hq1 Hq2]. split; [by exists i, d | done].
    - split; [by exists j, dj |]. intros Hqa. apply Hne. by apply (free_own_desc h a x i d q j dj). }
  split; [done |]. split.
  - intros q Hq Hqa. destruct (Hf1 q Hq) as [Hf Hno]. destruct (is_free_block h q Hh Hf) as (b & y & j & dj & Hy & Hj & Hdj & Hb & _).
    pose proof (small_is_block h b y j dj q Hy Hj Hdj Hb) as Hblk.
    pose proof (is_block_page _ _ _ _ _ Hh Hblk) as E. rewrite Hqa in E. subst b.
    rewrite Hx in Hy. injection Hy as <-. assert (j = i) by congruence. subst j. congruence.
  - intros q m. unfold live, h1. setoid_rewrite set_free_is_block; [| done ..]. rewrite (set_free_is_free h a x i d) by done. split.
    + intros [[Hblk Hnf] Hne]. split; [done |]. intros (j & dj & Hj & Hq). apply Hnf.
      destruct (decide (j = i)) as [-> |]; [left | right; by exists j, dj]. rewrite Hd in Hj. injection Hj as <-.
      apply list_elem_of_filter. split; [| done]. intros Hqa. apply Hne.
      by apply (is_block_page h q a x _ Hh (small_is_block h a x i d q Hx Hi Hd Hqa)).
    + intros [Hblk Hnf]. split; [split; [done |] |].
      * intros Hq. apply Hnf. destruct Hq as [Hq|(j & dj & _ & Hj & Hq)]; [| by exists j, dj].
        apply list_elem_of_filter in Hq as [_ Hq]. by exists i, d.
      * intros Hqa. destruct Hblk as (b & y & Hblk). pose proof (is_block_page _ _ _ _ _ Hh Hblk) as E.
        rewrite Hqa in E. subst b. destruct Hblk as [Hy Hblk]. rewrite Hx in Hy. injection Hy as <-. rewrite Hi in Hblk.
        destruct Hblk as (d' & Hd' & Hq & _). rewrite Hd in Hd'. injection Hd' as <-.
        apply Hnf. exists i, d. split; [done |]. by apply (full_arena h a x i d).
Qed.

(** An arena whose count is not full has a block that is not free. *)
Lemma arena_has_live h a x i d :
  heap_ok h → arenas h !! a = Some x → a_desc x = Some i → descs h !! i = Some d →
  free_cnt x < blocks_per_arena d → ∃ q m, live h q m ∧ pg_round_down q = a.
Proof.
  intros Hh Hx Hi Hd Hc. destruct (ar_desc _ _ _ _ (ho_arena _ Hh _ _ Hx) i Hi) as (d' & Hd' & Hcnt).
  rewrite Hd in Hd'. injection Hd' as <-. destruct (desc_bounds _ _ (ho_descs _ Hh _ _ Hd)) as (_ & Hbp & _).
  pose proof (arena_blocks_length a d ltac:(lia)) as Hlen.
  destruct (decide (Forall (λ b, b ∈ free_list d) (arena_blocks a d))) as [Hall|Hno].
  - exfalso. rewrite Forall_forall in Hall.
    assert (length (arena_blocks a d) ≤ length (filter (λ b, b ∈ arena_blocks a d) (free_list d)))%nat; [| lia].
    apply submseteq_length, NoDup_submseteq; [by apply (arena_blocks_NoDup a i), (ho_descs _ Hh) |].
    intros b Hb. apply list_elem_of_filter. auto.
  - apply not_Forall_Exists in Hno; [| apply _]. apply Exists_exists in Hno as (q & Hq & Hnf). cbn in Hnf.
    pose proof (small_is_block h a x i d q Hx Hi Hd Hq) as Hblk. exists q, (d_block_size d).
    split; [split; [by exists a, x |] | by apply (is_block_page _ _ _ _ _ Hh Hblk)].
    intros (j & dj & Hj & Hqj). apply Hnf. destruct (decide (j = i)) as [->|Hne]; [congruence |].
    exfalso. apply Hne. by apply (free_own_desc h a x i d q j dj).
Qed.

(** A block put back on its free list; its arena's page goes back to the page
    allocator when all of its blocks are free. *)
Lemma free_small h p a x i d :
  heap_ok h → arenas h !! a = Some x → a_desc x = Some i → descs h !! i = Some d → p ∈ arena_blocks a d →
  p ∉ free_list d →
  ∃ h', free p h = Ok h' ∧ heap_ok h' ∧ (∀ q m, live h' q m ↔ live h q m ∧ q ≠ p) ∧
    (∀ b, in_use (pages h') false b ↔
       in_use (pages h) false b ∧ ¬ ((∀ q m, live h' q m → pg_round_down q ≠ a) ∧ b = a)) ∧
    ∀ b, memory (pages h') !! b = memory (pages h) !! b ∨
      (p ≤ b < p + d_block_size d ∨ a ≤ b < a + 4096 ∧ ∀ q m, live h' q m → pg_round_down q ≠ a).
Proof.
  intros Hh Hx Hi Hd Hp Hnf. destruct (arena_range h a x Hh Hx) as (Ha0 & Ha1 & Hal & Hmap).
  pose proof (ho_descs _ Hh _ _ Hd) as Hok. destruct (desc_bounds _ _ Hok) as (Hs & Hbp & _).
  pose proof (arena_block_range a i d p Hok Hp) as Hr. unfold arena_size in Hr.
  unfold free. destruct (Z.eqb_spec p 0) as [|Hp0]; [lia |].
  rewrite (block_to_arena_small h a x i d p) by (done || lia || apply (ho_arena _ Hh _ _ Hx)).
  cbn [mbind outcome_bind]. rewrite Hi, (get_desc_ok h i d Hd). cbn [mbind outcome_bind].
  destruct (memset_ok (memory (pages h)) p 0xcc (d_block_size d)) as (m & -> & Hm); [lia | lia | intros b Hb; apply Hmap; lia |].
  cbn [mbind outcome_bind]. fold (set_memory m h).
  destruct (set_memory_ok h m Hh) as [Hh0 Hl0]; [intros b Hb; rewrite Hm; by case_decide |].
  destruct (push_ok (set_memory m h) a x i d p Hh0 Hx Hi Hd Hp Hnf) as (Hh1 & Hl1 & _ & Hle). rewrite Hi in Hh1, Hl1.
  set (x1 := Arena (magic x) (Some i) (u32 (free_cnt x + 1))) in *.
  set (h1 := set_arena a x1 (set_free_list i (p :: free_list d) (set_memory m h))) in *.
  set (d1 := Desc (d_block_size d) (blocks_per_arena d) (p :: free_list d)).
  assert (arenas h1 !! a = Some x1) as Hx1 by apply lookup_insert_eq.
  assert (descs h1 !! i = Some d1) as Hd1.
  { unfold h1. cbn [descs set_arena]. rewrite set_free_list_lookup, decide_True by done. cbn [descs set_memory set_pages]. by rewrite Hd. }
  assert (∀ q n, live h1 q n ↔ live h q n ∧ q ≠ p) as Hlive by (intros q n; by rewrite Hl1, Hl0).
  cbn [free_cnt x1]. destruct (Z.leb_spec (blocks_per_arena d) (u32 (free_cnt x + 1))) as [Hfull|Hnot].
  2: { exists h1. split; [done |]. split; [done |]. split; [done |].
       destruct (arena_has_live h1 a x1 i d1 Hh1 Hx1 eq_refl Hd1) as (q & n & Hq & Hqa); [cbn; lia |].
       split; [intros b; split; [intros ?; split; [done | intros [Hno _]; by apply (Hno q n)] | by intros [? _]] |].
       intros b. cbn [pages h1 set_arena]. cbn. rewrite Hm. case_decide; [by right; left | by left]. }
  assert (free_cnt x1 = blocks_per_arena d1) as Hc by (cbn; lia).
  cbn [free_cnt x1] in Hc. change (blocks_per_arena d1) with (blocks_per_arena d) in Hc. rewrite Hc, Z.eqb_refl.
  cbn [assert_that mbind outcome_bind].
  rewrite (remove_blocks_ok _ h1 a x1 i d1 0); [| lia | done | apply (ho_arena _ Hh _ _ Hx) | done | done | exact Hok | lia | cbn; lia |].
  2: { rewrite blocks_from_0. apply (full_arena h1 a x1 i d1 Hh1 Hx1); done. }
  rewrite blocks_from_0. cbn [mbind outcome_bind].
  destruct (drop_arena_blocks h1 a x1 i d1 Hh1 Hx1 eq_refl Hd1 Hc) as (Hh2 & Hf2 & Hl2).
  destruct (remove_arena_ok _ a (Arena (magic x1) (Some i) 0) Hh2 ltac:(apply lookup_insert_eq) Hf2) as (p' & Ep & Hh3 & Hl3 & Hu3 & Hm3).
  unfold palloc_free_page. cbn [pages set_free_list set_arena arena_pages a_desc] in Ep. cbn [pages set_free_list].
  rewrite Ep. cbn [mbind outcome_bind]. eexists. split; [done |].
  cbn [arenas set_arena set_free_list] in Hh3, Hl3. rewrite delete_insert_eq in Hh3, Hl3.
  split; [exact Hh3 |]. split; [| split].
  - intros q n. etransitivity; [apply Hl3 |]. etransitivity; [apply Hl2 | apply Hlive].
  - intros b. cbn [pages]. rewrite Hu3. cbn [arena_pages a_desc]. split.
    + intros [Hb Hne]. split; [exact Hb |]. intros [_ ->]. apply Hne. exists 0. unfold PGSIZE. lia.
    + intros [Hb Hne]. split; [exact Hb |]. intros (k & Hk & ->). apply Hne. split; [| unfold PGSIZE; lia].
      intros q n Hq. by apply Hl3 in Hq as [_ ?].
  - intros b. cbn [pages]. destruct (decide (a ≤ b < a + 4096)) as [Hin|Hout].
    + right. right. split; [done |]. intros q n Hq. by apply Hl3 in Hq as [_ ?].
    + rewrite Hm3 by (cbn; unfold PGSIZE; lia). cbn. rewrite Hm. case_decide; [by right; left | by left].
Qed.

(** C18: [free] undoes [malloc]: freeing an allocated block succeeds, keeps the
    allocator's invariant, leaves exactly the other blocks allocated with their
    contents unchanged, and freeing null does nothing.  The pages of the block
    go back to the page allocator exactly when no allocated block is left in
    its arena, which is always so for a large block; all other pages stay in
    use. *)
Theorem free_correct p n h :
  heap_ok h → live h p n →
  free 0 h = Ok h ∧
  ∃ h', free p h = Ok h' ∧ heap_ok h' ∧ (∀ q m, live h' q m ↔ live h q m ∧ q ≠ p) ∧
    (∀ b, in_use (pages h') false b ↔ in_use (pages h) false b ∧
       ¬ ((∀ q m, live h' q m → pg_round_down q ≠ pg_round_down p) ∧
          ∃ k, 0 ≤ k ∧ b = pg_round_down p + PGSIZE * k ∧ b < p + n)) ∧
    (1024 < n → ∀ q m, live h' q m → pg_round_down q ≠ pg_round_down p) ∧
    ∀ q m b, live h' q m → q ≤ b < q + m → memory (pages h') !! b = memory (pages h) !! b.
Proof.
  intros Hh [(a & x & Hblk) Hnf]. split; [done |]. destruct (arena_range h a x Hh ltac:(apply Hblk)) as (Ha0 & Ha1 & Hal & _).
  pose proof Hblk as [Hx Hb]. pose proof (is_block_range _ _ _ _ _ Hh Hblk) as Hrp. unfold arena_size in Hrp.
  rewrite (is_block_page _ _ _ _ _ Hh Hblk).
  destruct (a_desc x) as [i|] eqn:Hi.
  - destruct Hb as (d & Hd & Hp & ->).
    destruct (free_small h p a x i d Hh Hx Hi Hd Hp) as (h' & E & Hh' & Hl & Hu & Hm).
    { intros Hf. apply Hnf. by exists i, d. }
    destruct (desc_bounds _ _ (ho_descs _ Hh _ _ Hd)) as (Hbs & _).
    pose proof (arena_block_range a i d p (ho_descs _ Hh _ _ Hd) Hp) as Hpr. unfold arena_size in Hpr.
    exists h'. split; [done |]. split; [done |]. split; [done |]. split; [| split; [lia |]].
    { intros b. rewrite Hu. unfold PGSIZE. split; intros [Hb Hne]; (split; [exact Hb |]); intros [Hno Hk]; apply Hne; (split; [exact Hno |]).
      - destruct Hk as (k & Hk & -> & Hlt). assert (k = 0) as -> by lia. lia.
      - exists 0. lia. }
    intros q m b Hq Hqb. pose proof Hq as [[(c & y & Hbq) _] Hne]%Hl.
    destruct (Hm b) as [|[Hin|[Hin Hpg]]]; [done | exfalso | exfalso].
    + pose proof (blocks_disjoint _ _ _ _ _ _ _ _ _ Hh Hblk Hbq ltac:(congruence)) as Hdd.
      unfold disjoint_blocks in Hdd. lia.
    + assert (c ≠ a) as Hca by (rewrite <-(is_block_page _ _ _ _ _ Hh Hbq); by apply (Hpg q m)).
      pose proof (is_block_range _ _ _ _ _ Hh Hbq) as Hr. unfold arena_size in Hr. destruct Hbq as [Hy _].
      pose proof (ho_disjoint _ Hh c y a x Hy Hx Hca) as Hdd.
      pose proof (ar_pages _ _ _ _ (ho_arena _ Hh _ _ Hx)). unfold disjoint_blocks, PGSIZE in *. lia.
  - destruct Hb as [-> ->]. unfold free. destruct (Z.eqb_spec (a + arena_size) 0); [unfold arena_size in *; lia |].
    rewrite (block_to_arena_large h a x) by (done || lia || apply (ho_arena _ Hh _ _ Hx)). cbn [mbind outcome_bind]. rewrite Hi.
    destruct (remove_arena_ok h a x Hh Hx) as (p' & Ep & Hh' & Hl & Hu & Hm).
    { intros q Hq Hqa. destruct (is_free_block h q Hh Hq) as (b & y & j & dj & Hy & Hj & Hdj & Hb & _).
      pose proof (is_block_page _ _ _ _ _ Hh (small_is_block h b y j dj q Hy Hj Hdj Hb)) as E. congruence. }
    assert (arena_pages x = free_cnt x) as Eap by (unfold arena_pages; by rewrite Hi). rewrite <-Eap, Ep. cbn [mbind outcome_bind].
    eexists. split; [done |]. split; [exact Hh' |]. split; [| split; [| split]].
    + intros q m. rewrite Hl. split.
      * intros [Hq Hne]. split; [done |]. intros ->. apply Hne, large_block_page; lia.
      * intros [Hq Hne]. split; [done |]. intros Hqa. apply Hne. destruct Hq as [(c & y & Hbq) _].
        pose proof (is_block_page _ _ _ _ _ Hh Hbq) as E. rewrite Hqa in E. subst c. destruct Hbq as [Hy Hbq].
        rewrite Hx in Hy. injection Hy as <-. rewrite Hi in Hbq. by destruct Hbq.
    + intros b. cbn [pages]. rewrite Hu, Eap. unfold arena_size, PGSIZE.
      split; intros [Hb Hne]; (split; [exact Hb |]); [intros [_ (k & Hk)] | intros (k & Hk)]; apply Hne.
      * exists k. lia.
      * split; [| exists k; lia]. intros q m Hq. by apply Hl in Hq as [_ ?].
    + intros _ q m Hq. by apply Hl in Hq as [_ ?].
    + intros q m b Hq Hqb. apply Hm. apply Hl in Hq as [[(c & y & Hbq) _] Hne].
      assert (c ≠ a) as Hca by (by rewrite <-(is_block_page _ _ _ _ _ Hh Hbq)).
      pose proof (is_block_range _ _ _ _ _ Hh Hbq) as Hr. unfold arena_size in Hr. destruct Hbq as [Hy _].
      pose proof (ho_disjoint _ Hh c y a x Hy Hx Hca) as Hdd. unfold disjoint_blocks in Hdd. lia.
Qed.

(** ** Overflow *)

(** [malloc] does not check [size + sizeof *a] for overflow: a request of
    almost 4 GB is answered with one page.  [calloc]'s test does not catch every
    overflow of [a * b]: 65537 elements of 65537 bytes get a block for 131073
    bytes. *)
Lemma malloc_overflow h a p :
  heap_ok h → palloc_get_multiple 0 1 (pages h) = Ok (a, p) → a ≠ 0 →
  malloc 4294967288 h = Ok (a + arena_size, set_arena a (Arena ARENA_MAGIC None 1) (set_pages p h)).
Proof.
  intros Hh E Ha. unfold malloc. cbn [Z.eqb]. pose proof (size_class h 4294967288 Hh ltac:(lia)) as Hc.
  cbn [Z.leb Z.compare Pos.compare Pos.compare_cont] in Hc. rewrite Hc.
  change (u32 (u32 (4294967288 + arena_size) + PGSIZE - 1) / PGSIZE) with 1. rewrite E. cbn [mbind outcome_bind].
  by destruct (Z.eqb_spec a 0).
Qed.

Lemma calloc_overflow h :
  calloc 65537 65537 h = ('(p, h) ← malloc 131073 h;
    if negb (p =? 0) then '(_, m) ← memset (memory (pages h)) p 0 131073; Ok (p, set_memory m h) else Ok (p, h)).
Proof. reflexivity. Qed.

(** ** A heap with one page in use *)

Definition example_heap : heap :=
  Heap [Desc 16 255 []; Desc 32 127 []; Desc 64 63 []; Desc 128 31 []; Desc 256 15 []; Desc 512 7 []; Desc 1024 3 []]
    ∅ example_palloc.

Lemma example_heap_ok : heap_ok example_heap ∧ ∃ ds, malloc_init example_palloc = Ok (Heap ds ∅ example_palloc) ∧ ds = descs example_heap.
Proof.
  split; [| eexists; split; [reflexivity | reflexivity]]. split.
  - apply example_palloc_ok.
  - done.
  - intros i d. do 7 (destruct i as [|i]; [intros [= <-]; split; [done | split; [done | lia]] |]). done.
  - intros a x Hx. change (arenas example_heap) with (∅ : gmap Z arena) in Hx. by apply lookup_empty_Some in Hx.
  - intros a x b y Hx. change (arenas example_heap) with (∅ : gmap Z arena) in Hx. by apply lookup_empty_Some in Hx.
  - intros i d b. do 7 (destruct i as [|i]; [intros [= <-] Hb; by apply elem_of_nil in Hb |]). done.
  - intros i d. do 7 (destruct i as [|i]; [intros [= <-]; constructor |]). done.
Qed.

Lemma example_free_page : free_run example_palloc false 0 1.
Proof. split; [done |]. split; [done |]. intros k _. apply example_unused. Qed.

Lemma malloc_correct_witness : ∃ p n h', malloc 20 example_heap = Ok (p, h') ∧ heap_ok h' ∧ live h' p n ∧ 20 ≤ n.
Proof.
  destruct (malloc_correct 20 example_heap (proj1 example_heap_ok) ltac:(lia))
    as [[_ Hno]|(p & n & h' & E & Hh & _ & Hn & _ & _ & _ & Hl)].
  - exfalso. apply (Hno 0). exact example_free_page.
  - exists p, n, h'. split; [exact E |]. split; [exact Hh |]. split; [| exact Hn]. apply Hl. by right.
Defined.

Lemma example_live : ∃ p n h', malloc 20 example_heap = Ok (p, h') ∧ heap_ok h' ∧ live h' p n ∧
  pg_round_down p < p + n ∧ ∀ q m, live h' q m → q = p.
Proof.
  destruct (malloc_ok 20 example_heap (proj1 example_heap_ok) ltac:(lia))
    as [[_ Hno]|(p & n & h' & E & Hh & _ & Hn & _ & _ & _ & Hl)].
  - exfalso. apply (Hno 0). exact example_free_page.
  - assert (live h' p n) as Hp by (apply Hl; by right). exists p, n, h'. split_and!; [done.. | |].
    + destruct Hp as [(a & x & Hblk) _]. rewrite (is_block_page _ _ _ _ _ Hh Hblk).
      pose proof (is_block_range _ _ _ _ _ Hh Hblk). unfold arena_size in *. lia.
    + intros q m [[(a & x & [Hx _]) _]|[-> _]]%Hl; [| done].
      change ((∅ : gmap Z arena) !! a = Some x) in Hx. by rewrite lookup_empty in Hx.
Qed.

(** The only block of an arena, freed: its page goes back. *)
Lemma free_correct_witness : ∃ p h h', malloc 20 example_heap = Ok (p, h) ∧ free p h = Ok h' ∧ heap_ok h' ∧
  ¬ in_use (pages h') false (pg_round_down p).
Proof.
  destruct example_live as (p & n & h & E & Hh & Hl & Hp & Hone).
  destruct (free_correct p n h Hh Hl) as [_ (h' & E' & Hh' & Hl' & Hu & _)]. exists p, h, h'.
  split_and!; [exact E | exact E' | exact Hh' |]. intros [_ Hno]%Hu. apply Hno. split.
  - intros q m [Hq Hne]%Hl'. by destruct (Hne (Hone q m Hq)).
  - exists 0. unfold PGSIZE. lia.
Defined.
