(* ===== verification/Block.v ===== *)
(** devices/block.c and devices/partition.c: block devices, their roles, and
    the partitions of a disk.

    The driver of a disk (devices/ide.c, port I/O) is a parameter: the class
    [Device], with the laws of a medium that keeps what is written to it.  The
    block layer is again a [Device] for each of its blocks, which is what the
    file system is written against. *)
From S2P Require Import Prelude Bytes.
Local Open Scope Z_scope.

Abbreviation loc := positive.

Definition BLOCK_SECTOR_SIZE : Z := 512.

(** A sector's contents. *)
Definition is_sector (x : list Z) : Prop := length x = 512%nat ∧ Forall is_byte x.

#[export] Instance is_sector_dec x : Decision (is_sector x).
Proof. unfold is_sector. apply _. Defined.

(** ** The interface of a device *)

Class Device (D : Type) := {
  device_size : D → Z;
  device_read : Z → ST D (list Z);
  device_write : Z → list Z → ST D unit;
}.

(** [sectors d] is what the medium holds. *)
Class DeviceLaws (D : Type) `{!Device D} := {
  device_ok : D → Prop;
  sectors : D → list (list Z);
  device_ok_size d : device_ok d → Z.of_nat (length (sectors d)) = device_size d ∧ device_size d < 4294967296;
  device_ok_sectors d : device_ok d → Forall is_sector (sectors d);
  device_read_ok d i x : device_ok d → 0 ≤ i → sectors d !! Z.to_nat i = Some x →
    ∃ d', device_read i d = Ok (x, d') ∧ device_ok d' ∧ sectors d' = sectors d;
  device_write_ok d i x : device_ok d → 0 ≤ i < device_size d → is_sector x →
    ∃ d', device_write i x d = Ok (tt, d') ∧ device_ok d' ∧ sectors d' = <[Z.to_nat i := x]> (sectors d);
}.

(** ** A medium in memory *)

Definition ramdisk : Type := list (list Z).

#[export] Instance ramdisk_device : Device ramdisk := {|
  device_size d := Z.of_nat (length d);
  device_read i d := match d !! Z.to_nat i with Some x => Ok (x, d) | None => Err KernelPanic end;
  device_write i x d := if decide (Z.to_nat i < length d)%nat then Ok (tt, <[Z.to_nat i := x]> d) else Err KernelPanic;
|}.

#[export, refine] Instance ramdisk_laws : DeviceLaws ramdisk := {|
  device_ok d := Z.of_nat (length d) < 4294967296 ∧ Forall is_sector d;
  sectors d := d;
|}.
Proof.
  - by intros d [? _].
  - by intros d [_ ?].
  - intros d i x Hd Hi Hx. exists d. cbn. by rewrite Hx.
  - intros d i x [Hl Hd] Hi Hx. cbn in *. rewrite decide_True by lia. eexists. split; [done |].
    split_and!; [by rewrite length_insert | by apply Forall_insert | done].
Defined.

(** ** Block devices *)

Inductive block_type :=
| BLOCK_KERNEL | BLOCK_FILESYS | BLOCK_SCRATCH | BLOCK_SWAP | BLOCK_RAW | BLOCK_FOREIGN.

#[export] Instance block_type_eq_dec : EqDecision block_type.
Proof. solve_decision. Defined.

Definition type_idx (t : block_type) : nat :=
  match t with
  | BLOCK_KERNEL => 0 | BLOCK_FILESYS => 1 | BLOCK_SCRATCH => 2 | BLOCK_SWAP => 3
  | BLOCK_RAW => 4 | BLOCK_FOREIGN => 5
  end.
Definition BLOCK_ROLE_CNT : nat := 4.

(** The [ops] and [aux] of a block: the driver of a disk, or
    [partition_operations] with its [struct partition]. *)
Inductive block_ops :=
| DiskOps (disk : loc)
| PartitionOps (block : loc) (start : Z).

#[export] Instance block_ops_eq_dec : EqDecision block_ops.
Proof. solve_decision. Defined.

Record block := Block {
  b_name : list Z;
  b_type : block_type;
  b_size : Z;
  b_ops : block_ops;
  read_cnt : Z;
  write_cnt : Z;
}.

Record block_state (D : Type) := BlockState {
  all_blocks : list loc;
  block_tab : gmap loc block;
  block_by_role : list (option loc);
  drivers : gmap loc D;
}.
Arguments BlockState {D}. Arguments all_blocks {D}. Arguments block_tab {D}.
Arguments block_by_role {D}. Arguments drivers {D}.

Section block.
Context {D : Type} `{!Device D}.
(** Whether [malloc] fails while the next block to register would be this one. *)
Context (out_of_memory : loc → bool).

Definition BM : Type → Type := ST (block_state D).

Definition set_block (b : loc) (x : block) (s : block_state D) : block_state D :=
  BlockState (all_blocks s) (<[b := x]> (block_tab s)) (block_by_role s) (drivers s).
Definition set_driver (d : loc) (x : D) (s : block_state D) : block_state D :=
  BlockState (all_blocks s) (block_tab s) (block_by_role s) (<[d := x]> (drivers s)).

Definition get_block (b : loc) : BM block :=
  s ← st_get; st_lift (from_option_err BadPointer (block_tab s !! b)).

(** A call of the driver of a disk. *)
Definition on_driver {A} (d : loc) (f : ST D A) : BM A := λ s,
  match drivers s !! d with
  | None => Err BadPointer
  | Some x => match f x with Ok (a, x) => Ok (a, set_driver d x s) | Err e => Err e end
  end.

Definition block_get_role (role : block_type) : BM (option loc) :=
  st_assert (bool_decide (type_idx role < BLOCK_ROLE_CNT)%nat);;
  s ← st_get; mret (mjoin (block_by_role s !! type_idx role)).

Definition block_set_role (role : block_type) (b : option loc) : BM unit :=
  st_assert (bool_decide (type_idx role < BLOCK_ROLE_CNT)%nat);;
  st_modify (λ s, BlockState (all_blocks s) (block_tab s)
    (<[type_idx role := b]> (block_by_role s)) (drivers s)).

Definition block_first : BM (option loc) := s ← st_get; mret (head (all_blocks s)).

Definition block_next (b : loc) : BM (option loc) :=
  s ← st_get;
  match list_find (b =.) (all_blocks s) with
  | Some (i, _) => mret (all_blocks s !! S i)
  | None => st_fail BadPointer
  end.

Definition block_get_by_name (nm : list Z) : BM (option loc) :=
  s ← st_get;
  mret (snd <$> list_find (λ b, (b_name <$> (block_tab s !! b)) = Some nm) (all_blocks s)).

Definition check_sector (x : block) (sector : Z) : BM unit :=
  if b_size x <=? sector then st_fail KernelPanic else mret tt.

Definition partition_read (read : loc → Z → BM (list Z)) (p : loc) (start sector : Z) : BM (list Z) :=
  read p (u32 (start + sector)).

Definition partition_write (write : loc → Z → list Z → BM unit) (p : loc) (start sector : Z)
    (buffer : list Z) : BM unit :=
  write p (u32 (start + sector)) buffer.

(** A partition's operations call [block_read] and [block_write] of its disk;
    the fuel bounds that nesting. *)
Fixpoint block_read_fuel (fuel : nat) (b : loc) (sector : Z) : BM (list Z) :=
  match fuel with
  | O => st_fail OutOfFuel
  | S fuel =>
      x ← get_block b; check_sector x sector;;
      buffer ← match b_ops x with
               | DiskOps d => on_driver d (device_read sector)
               | PartitionOps p start => partition_read (block_read_fuel fuel) p start sector
               end;
      x ← get_block b;
      st_modify (set_block b (Block (b_name x) (b_type x) (b_size x) (b_ops x)
        (u64 (read_cnt x + 1)) (write_cnt x)));;
      mret buffer
  end.

Fixpoint block_write_fuel (fuel : nat) (b : loc) (sector : Z) (buffer : list Z) : BM unit :=
  match fuel with
  | O => st_fail OutOfFuel
  | S fuel =>
      x ← get_block b; check_sector x sector;;
      st_assert (bool_decide (b_type x ≠ BLOCK_FOREIGN));;
      match b_ops x with
      | DiskOps d => on_driver d (device_write sector buffer)
      | PartitionOps p start => partition_write (block_write_fuel fuel) p start sector buffer
      end;;
      x ← get_block b;
      st_modify (set_block b (Block (b_name x) (b_type x) (b_size x) (b_ops x)
        (read_cnt x) (u64 (write_cnt x + 1))))
  end.

Definition block_read (b : loc) (sector : Z) : BM (list Z) :=
  s ← st_get; block_read_fuel (S (size (block_tab s))) b sector.

Definition block_write (b : loc) (sector : Z) (buffer : list Z) : BM unit :=
  s ← st_get; block_write_fuel (S (size (block_tab s))) b sector buffer.

Definition block_size (s : block_state D) (b : loc) : Z :=
  default 0 (b_size <$> (block_tab s !! b)).

(** [block_register], apart from its messages; a [name] has 16 bytes. *)
Definition block_register (nm : list Z) (t : block_type) (size : Z) (ops : block_ops) : BM loc :=
  s ← st_get;
  let b := fresh (dom (block_tab s)) in
  if out_of_memory b then st_fail KernelPanic
  else
    st_put (BlockState (all_blocks s ++ [b])
      (<[b := Block (take 15 nm) t size ops 0 0]> (block_tab s)) (block_by_role s) (drivers s));;
    mret b.

(** ** Partitions *)

Record partition_entry := PartitionEntry { e_type : Z; e_offset : Z; e_size : Z }.

(** [pt->partitions[i]] and [pt->signature] of a sector read as a
    [struct partition_table]. *)
Definition partition_entry_of (sector : list Z) (i : nat) : partition_entry :=
  let e := drop (446 + 16 * i) sector in
  PartitionEntry (e !!! 4%nat) (u32_of_bytes (take 4 (drop 8 e))) (u32_of_bytes (take 4 (drop 12 e))).

Definition signature (sector : list Z) : Z := sector !!! 510%nat + 256 * sector !!! 511%nat.

(** The decimal digits of [n], as [snprintf] prints a positive number. *)
Fixpoint decimal (fuel : nat) (n : Z) : list Z :=
  match fuel with
  | O => []
  | S fuel => (if n <? 10 then [] else decimal fuel (n / 10)) ++ [48 + n `mod` 10]
  end.

Definition partition_block_type (part_type : Z) : block_type :=
  if part_type =? 0x20 then BLOCK_KERNEL
  else if part_type =? 0x21 then BLOCK_FILESYS
  else if part_type =? 0x22 then BLOCK_SCRATCH
  else if part_type =? 0x23 then BLOCK_SWAP
  else BLOCK_FOREIGN.

Definition found_partition (b : loc) (part_type start size part_nr : Z) : BM unit :=
  x ← get_block b;
  if b_size x <=? start then mret tt
  else if (u32 (start + size) <? start) || (b_size x <? u32 (start + size)) then mret tt
  else
    s ← st_get;
    if out_of_memory (fresh (dom (block_tab s))) then st_fail KernelPanic
    else
      block_register (take 15 (b_name x ++ decimal 10 part_nr)) (partition_block_type part_type)
        size (PartitionOps b start);;
      mret tt.

Definition is_extended (part_type : Z) : bool :=
  (part_type =? 0x05) || (part_type =? 0x0f) || (part_type =? 0x85) || (part_type =? 0xc5).

(** The entries [es] of the table at [sector]; returns the new [*part_nr]. *)
Fixpoint scan_entries (read_table : Z → Z → Z → BM Z) (b : loc) (sector primary : Z)
    (es : list partition_entry) (part_nr : Z) : BM Z :=
  match es with
  | [] => mret part_nr
  | e :: es =>
      part_nr ←
        (if (e_size e =? 0) || (e_type e =? 0) then mret part_nr
         else if is_extended (e_type e) then
           if sector =? 0 then read_table (e_offset e) (e_offset e) part_nr
           else read_table (u32 (e_offset e + primary)) primary part_nr
         else
           let part_nr := i32 (part_nr + 1) in
           found_partition b (e_type e) (u32 (e_offset e + sector)) (e_size e) part_nr;;
           mret part_nr);
      scan_entries read_table b sector primary es part_nr
  end.

Fixpoint read_partition_table (fuel : nat) (b : loc) (sector primary part_nr : Z) : BM Z :=
  match fuel with
  | O => st_fail OutOfFuel
  | S fuel =>
      x ← get_block b;
      if b_size x <=? sector then mret part_nr
      else
        s ← st_get;
        if out_of_memory (fresh (dom (block_tab s))) then st_fail KernelPanic
        else
          pt ← block_read b 0;
          if negb (signature pt =? 0xaa55) then mret part_nr
          else scan_entries (read_partition_table fuel b) b sector primary
                 (partition_entry_of pt <$> seq 0 4) part_nr
  end.

Definition partition_scan (fuel : nat) (b : loc) : BM Z := read_partition_table fuel b 0 0 0.
End block.
