(* ===== verification/Swap.v ===== *)
(** vm/swap.c: pages on the swap device.  A slot is eight sectors; a bitmap says
    which slots hold a page.  The lock makes each use of the bitmap one step. *)
From S2P Require Import Prelude Bytes Bitmap CString CStringThm Words Vaddr Block.
Local Open Scope Z_scope.

Definition SECTORS_PER_PAGE : Z := PGSIZE / BLOCK_SECTOR_SIZE.

Record swap (D : Type) := Swap { Swap_block : option D; Swap_bitmap : bitmap }.
Arguments Swap {D}. Arguments Swap_block {D}. Arguments Swap_bitmap {D}.

Section swap.
Context {D : Type} `{!Device D}.

Definition set_bitmap (b : bitmap) (s : swap D) : swap D := Swap (Swap_block s) b.

(** [block] is [block_get_role (BLOCK_SWAP)]; [b_ok] and [words] are what the
    allocations of [bitmap_create] give. *)
Definition swap_init (block : option D) (b_ok : bool) (words : option (list Z)) : outcome (swap D) :=
  let slot_cnt := match block with None => 0 | Some d => device_size d / SECTORS_PER_PAGE end in
  b ← bitmap_create b_ok words slot_cnt;
  match b with Some b => Ok (Swap block b) | None => Err KernelPanic end.

Definition block_io {A} (f : ST D A) : ST (swap D) A := λ s,
  match Swap_block s with
  | Some d => '(a, d) ← f d; Ok (a, Swap (Some d) (Swap_bitmap s))
  | None => Err BadPointer
  end.

(** The loop of [swap_out], from sector [i] on, [n] sectors left. *)
Fixpoint out_loop (n : nat) (slot i kpage : Z) (m : mem) : ST (swap D) unit :=
  match n with
  | O => mret tt
  | S n =>
      l ← st_lift (read_bytes (Z.to_nat BLOCK_SECTOR_SIZE) m (kpage + i * BLOCK_SECTOR_SIZE));
      block_io (device_write (slot * SECTORS_PER_PAGE + i) l);; out_loop n slot (i + 1) kpage m
  end.

Definition swap_out (kpage : Z) (m : mem) : ST (swap D) Z :=
  s ← st_get;
  r ← st_lift (bitmap_scan_and_flip (Swap_bitmap s) 0 1 false);
  st_modify (set_bitmap r.2);;
  let slot := r.1 in
  if slot =? BITMAP_ERROR then st_fail KernelPanic
  else out_loop (Z.to_nat SECTORS_PER_PAGE) slot 0 kpage m;; mret slot.

Fixpoint in_loop (n : nat) (slot i kpage : Z) (m : mem) : ST (swap D) mem :=
  match n with
  | O => mret m
  | S n =>
      l ← block_io (device_read (slot * SECTORS_PER_PAGE + i));
      m ← st_lift (write_bytes l m (kpage + i * BLOCK_SECTOR_SIZE)); in_loop n slot (i + 1) kpage m
  end.

Definition test_slot (slot : Z) : ST (swap D) unit :=
  s ← st_get; b ← st_lift (bitmap_test (Swap_bitmap s) slot); st_assert b.

Definition reset_slot (slot : Z) : ST (swap D) unit :=
  s ← st_get; b ← st_lift (bitmap_reset (Swap_bitmap s) slot); st_modify (set_bitmap b).

Definition swap_in (slot kpage : Z) (m : mem) : ST (swap D) mem :=
  test_slot slot;;
  m ← in_loop (Z.to_nat SECTORS_PER_PAGE) slot 0 kpage m;
  reset_slot slot;; mret m.

Definition swap_free (slot : Z) : ST (swap D) unit := test_slot slot;; reset_slot slot.

(** ** What swap holds *)

Context `{!DeviceLaws D}.

Definition slot_used (s : swap D) (slot : Z) : Prop :=
  0 ≤ slot ∧ bits_of (Swap_bitmap s) !! Z.to_nat slot = Some true.

Definition swap_sectors (s : swap D) : list (list Z) :=
  match Swap_block s with Some d => sectors d | None => [] end.

(** The page in a slot. *)
Definition slot_bytes (s : swap D) (slot : Z) : list Z :=
  concat (take 8 (drop (Z.to_nat (8 * slot)) (swap_sectors s))).

Record swap_ok (s : swap D) : Prop := {
  so_bitmap : bitmap_ok (Swap_bitmap s);
  so_device d : Swap_block s = Some d → device_ok d;
  so_room : 8 * bit_cnt (Swap_bitmap s) ≤ Z.of_nat (length (swap_sectors s));
}.

(** A page in memory. *)
Definition is_page (l : list Z) : Prop := length l = 4096%nat ∧ Forall is_byte l.

Lemma swap_sectors_ok s : swap_ok s → Forall is_sector (swap_sectors s).
Proof.
  intros H. unfold swap_sectors. destruct (Swap_block s) as [d|] eqn:E; [| done].
  by apply device_ok_sectors, (so_device _ H).
Qed.

Lemma slot_used_range s slot : slot_used s slot → 0 ≤ slot < bit_cnt (Swap_bitmap s).
Proof. intros [H0 H]. apply lookup_lt_Some in H. rewrite bits_of_length in H. lia. Qed.

Lemma slot_page s slot : swap_ok s → 0 ≤ slot < bit_cnt (Swap_bitmap s) → is_page (slot_bytes s slot).
Proof.
  intros H Hs. pose proof (so_room _ H). pose proof (swap_sectors_ok s H) as Hall. unfold slot_bytes.
  set (L := take 8 (drop (Z.to_nat (8 * slot)) (swap_sectors s))).
  assert (Forall is_sector L) as HL by (by apply Forall_take, Forall_drop).
  assert (length L = 8%nat) as Hl by (unfold L; rewrite length_take, length_drop; lia).
  clearbody L. split.
  - do 8 (destruct L as [|? L]; [done |]; apply Forall_cons in HL as [[? _] HL]). destruct L; [| done].
    cbn. rewrite !length_app. cbn. lia.
  - apply Forall_concat. eapply Forall_impl; [exact HL |]. by intros x [_ ?].
Qed.

(** The page at [a] of a memory. *)
Definition page_at (m : mem) (a : Z) : list Z := bytes_from m a 4096.

(** *** Sectors *)

Lemma block_io_ok {A} (f : ST D A) s d a d' :
  Swap_block s = Some d → f d = Ok (a, d') → block_io f s = Ok (a, Swap (Some d') (Swap_bitmap s)).
Proof. intros E Ef. unfold block_io. by rewrite E, Ef. Qed.

Lemma swap_device s slot : swap_ok s → 0 ≤ slot < bit_cnt (Swap_bitmap s) →
  ∃ d, Swap_block s = Some d ∧ device_ok d ∧ swap_sectors s = sectors d ∧ 8 * slot + 8 ≤ device_size d.
Proof.
  intros H Hs. pose proof (so_room _ H) as Hr. unfold swap_sectors in *. destruct (Swap_block s) as [d|] eqn:E; [| cbn in Hr; lia].
  exists d. destruct (device_ok_size d (so_device _ H _ E)) as [Hl _]. split_and!; [done | by apply H | done | lia].
Qed.

(** One sector replaced, the rest of [swap] as it was. *)
Lemma swap_ok_sectors s d L :
  swap_ok s → device_ok d → sectors d = L → length L = length (swap_sectors s) → swap_ok (Swap (Some d) (Swap_bitmap s)).
Proof.
  intros H Hd HL Hlen. split; cbn [Swap_bitmap Swap_block]; [apply H | by intros ? [= <-] |].
  change (swap_sectors (Swap (Some d) (Swap_bitmap s))) with (sectors d). rewrite HL, Hlen. apply H.
Qed.

Lemma length_swap_sectors s d : Swap_block s = Some d → swap_sectors s = sectors d.
Proof. intros E. unfold swap_sectors. by rewrite E. Qed.

Lemma out_loop_ok (n : nat) slot i kpage m s :
  swap_ok s → 0 ≤ slot < bit_cnt (Swap_bitmap s) → 0 ≤ i → i + Z.of_nat n = 8 →
  mapped m kpage 4096 → bytes_mem m →
  ∃ s', out_loop n slot i kpage m s = Ok (tt, s') ∧ swap_ok s' ∧ Swap_bitmap s' = Swap_bitmap s ∧
    length (swap_sectors s') = length (swap_sectors s) ∧
    ∀ j : nat, swap_sectors s' !! j =
      if decide (8 * slot + i ≤ Z.of_nat j < 8 * slot + 8)
      then Some (bytes_from m (kpage + (Z.of_nat j - 8 * slot) * 512) 512) else swap_sectors s !! j.
Proof.
  intros H Hs Hi Hn Hm Hb. revert i s H Hs Hi Hn. induction n as [|n IH]; intros i s H Hs Hi Hn; cbn [out_loop].
  - exists s. split_and!; try done. intros j. by rewrite decide_False by lia.
  - change (Z.to_nat BLOCK_SECTOR_SIZE) with 512%nat. unfold BLOCK_SECTOR_SIZE. change SECTORS_PER_PAGE with 8.
    assert (read_bytes 512 m (kpage + i * 512) = Ok (bytes_from m (kpage + i * 512) 512)) as El
      by (apply read_bytes_ok; eapply mapped_sub; [exact Hm | lia | lia]).
    rewrite (st_lift_step _ _ _ _ El). destruct (swap_device s slot H Hs) as (d & Ed & Hd & Es & Hsz).
    assert (is_sector (bytes_from m (kpage + i * 512) 512)) as Hsec.
    { split; [by rewrite length_bytes_from | by apply bytes_from_byte]. }
    destruct (device_write_ok d (slot * 8 + i) _ Hd ltac:(lia) Hsec) as (d' & Ew & Hd' & Es').
    rewrite (st_step _ (block_io_ok _ s d _ _ Ed Ew)). set (s1 := Swap (Some d') (Swap_bitmap s)).
    assert (swap_sectors s1 = <[Z.to_nat (slot * 8 + i) := bytes_from m (kpage + i * 512) 512]> (swap_sectors s)) as E1
      by (by rewrite Es, <-Es').
    assert (length (swap_sectors s1) = length (swap_sectors s)) as Hlen by (by rewrite E1, length_insert).
    assert (swap_ok s1) as H1 by (apply (swap_ok_sectors s d' (swap_sectors s1)); done).
    destruct (IH (i + 1) s1) as (s' & E & H' & Hbm & Hl & Hj); [done | done | lia | lia |].
    exists s'. split; [done |]. split; [done |]. split; [done |]. split; [by rewrite Hl |]. intros j. rewrite Hj.
    pose proof (so_room _ H). case_decide; [by rewrite decide_True by lia |].
    rewrite E1. destruct (decide (Z.of_nat j = slot * 8 + i)) as [Ej|Ej].
    + rewrite decide_True by lia. replace (Z.to_nat (slot * 8 + i)) with j by lia.
      rewrite list_lookup_insert_eq by lia. do 2 f_equal. lia.
    + rewrite decide_False by lia. rewrite list_lookup_insert_ne by lia. done.
Qed.

Lemma slot_bytes_same s s' slot :
  0 ≤ slot →
  (∀ j : nat, 8 * slot ≤ Z.of_nat j < 8 * slot + 8 → swap_sectors s' !! j = swap_sectors s !! j) →
  slot_bytes s' slot = slot_bytes s slot.
Proof.
  intros Hs H. unfold slot_bytes. f_equal. apply list_eq. intros k. destruct (decide (k < 8)%nat).
  - rewrite !lookup_take_lt, !lookup_drop by done. apply H. lia.
  - by rewrite !lookup_take_ge by lia.
Qed.

Lemma slot_bytes_chunks s slot m kpage :
  0 ≤ slot →
  (∀ j : nat, 8 * slot ≤ Z.of_nat j < 8 * slot + 8 →
    swap_sectors s !! j = Some (bytes_from m (kpage + (Z.of_nat j - 8 * slot) * 512) 512)) →
  slot_bytes s slot = page_at m kpage.
Proof.
  intros Hs H. unfold slot_bytes, page_at.
  assert (take 8 (drop (Z.to_nat (8 * slot)) (swap_sectors s)) =
    (λ k, bytes_from m (kpage + Z.of_nat k * 512) 512) <$> seq 0 8) as ->.
  { apply list_eq. intros k. destruct (decide (k < 8)%nat).
    - rewrite lookup_take_lt, lookup_drop, H by lia. rewrite list_lookup_fmap, lookup_seq_lt by done. cbn [fmap option_fmap option_map].
      do 2 f_equal. lia.
    - rewrite lookup_take_ge by lia. by rewrite lookup_ge_None_2 by (rewrite length_fmap, length_seq; lia). }
  cbn [seq fmap list_fmap concat]. rewrite app_nil_r.
  change 4096%nat with (512 + (512 + (512 + (512 + (512 + (512 + (512 + 512)))))))%nat.
  rewrite !bytes_from_app. change (Z.of_nat 512) with 512.
  assert (∀ x y, x = y → bytes_from m x 512 = bytes_from m y 512) as Hc by congruence.
  do 7 (apply (f_equal2 app); [apply Hc; lia |]). apply Hc. lia.
Qed.

(** *** The operations *)

(** [s'] has the page [l] in [slot], which was free; the rest is as in [s]. *)
Record slot_filled (s s' : swap D) (slot : Z) (l : list Z) : Prop := {
  sf_ok : swap_ok s';
  sf_range : 0 ≤ slot < bit_cnt (Swap_bitmap s);
  sf_free : ¬ slot_used s slot;
  sf_cnt : bit_cnt (Swap_bitmap s') = bit_cnt (Swap_bitmap s);
  sf_used j : slot_used s' j ↔ j = slot ∨ slot_used s j;
  sf_page : slot_bytes s' slot = l;
  sf_other j : slot_used s j → slot_bytes s' j = slot_bytes s j;
}.

(** [s'] has [slot] free; the rest is as in [s]. *)
Record slot_emptied (s s' : swap D) (slot : Z) : Prop := {
  se_ok : swap_ok s';
  se_cnt : bit_cnt (Swap_bitmap s') = bit_cnt (Swap_bitmap s);
  se_used j : slot_used s' j ↔ j ≠ slot ∧ slot_used s j;
  se_other j : slot_bytes s' j = slot_bytes s j;
}.

Lemma one_run j v l : 0 ≤ j → j < Z.of_nat (length l) → run j 1 v l ↔ l !! Z.to_nat j = Some v.
Proof.
  intros Hj Hl. unfold run, slice. change (Z.to_nat 1) with 1%nat.
  destruct (lookup_lt_is_Some_2 l (Z.to_nat j) ltac:(lia)) as [x Hx].
  rewrite (drop_S _ x) by done. cbn. rewrite take_0, Hx. split; congruence.
Qed.

Lemma find_slot s :
  swap_ok s →
  (bitmap_scan_and_flip (Swap_bitmap s) 0 1 false = Ok (BITMAP_ERROR, Swap_bitmap s) ∧
   ∀ j, 0 ≤ j < bit_cnt (Swap_bitmap s) → slot_used s j) ∨
  ∃ slot b, bitmap_scan_and_flip (Swap_bitmap s) 0 1 false = Ok (slot, b) ∧ slot ≠ BITMAP_ERROR ∧
    0 ≤ slot < bit_cnt (Swap_bitmap s) ∧ ¬ slot_used s slot ∧ (∀ j, 0 ≤ j < slot → slot_used s j) ∧
    bitmap_ok b ∧ bit_cnt b = bit_cnt (Swap_bitmap s) ∧ bits_of b = <[Z.to_nat slot := true]> (bits_of (Swap_bitmap s)).
Proof.
  intros H. pose proof (so_bitmap _ H) as Hb. pose proof Hb as [Hbc _]. set (b0 := Swap_bitmap s) in *.
  pose proof (bits_of_length b0) as Hl.
  assert (∀ j, 0 ≤ j < bit_cnt b0 → ¬ run j 1 false (bits_of b0) → slot_used s j) as Hused.
  { intros j Hj Hn. split; [lia |]. fold b0. rewrite one_run in Hn by lia.
    destruct (lookup_lt_is_Some_2 (bits_of b0) (Z.to_nat j) ltac:(lia)) as [[|] E]; [done | by rewrite E in Hn]. }
  unfold bitmap_scan_and_flip. destruct (bitmap_scan_ok b0 0 1 false Hb ltac:(lia) ltac:(lia)) as (r & -> & [[-> Hr]|(H1 & H2 & H3 & H4)]).
  - left. split; [done |]. intros j Hj. apply Hused; [done |]. apply Hr; lia.
  - right. cbn [mbind outcome_bind]. destruct (Z.eqb_spec r BITMAP_ERROR); [unfold BITMAP_ERROR in *; lia |].
    destruct (bitmap_set_multiple_ok b0 r 1 (negb false) Hb) as (b & -> & Hb' & Hc & Hbits); [lia | lia | lia |].
    exists r, b. split; [done |]. split; [done |]. split; [lia |]. rewrite one_run in H3 by lia.
    split; [intros [_ Hu]; fold b0 in Hu; congruence |]. split; [intros j Hj; apply Hused; [lia | apply H4; lia] |].
    split; [done |]. split; [done |]. rewrite Hbits. apply list_eq. intros k.
    destruct (decide (k < length (bits_of b0))%nat).
    + rewrite fill_lookup by lia. destruct (decide (k = Z.to_nat r)) as [-> |].
      * rewrite decide_True by lia. by rewrite list_lookup_insert_eq by lia.
      * rewrite decide_False by lia. by rewrite list_lookup_insert_ne by done.
    + rewrite !lookup_ge_None_2; [done | rewrite length_insert; lia | rewrite fill_length by lia; lia].
Qed.

Lemma slot_used_set s s' slot v :
  0 ≤ slot < bit_cnt (Swap_bitmap s) → bits_of (Swap_bitmap s') = <[Z.to_nat slot := v]> (bits_of (Swap_bitmap s)) →
  ∀ j, slot_used s' j ↔ if decide (j = slot) then v = true else slot_used s j.
Proof.
  intros Hs E j. unfold slot_used. rewrite E. destruct (decide (j = slot)) as [-> |].
  - rewrite list_lookup_insert_eq by (rewrite bits_of_length; lia). split; [by intros [_ [= ->]] | by intros ->; split; [lia |]].
  - split; intros [H1 H2]; (split; [done |]); [rewrite list_lookup_insert_ne in H2 by lia | rewrite list_lookup_insert_ne by lia]; done.
Qed.

Lemma swap_out_ok kpage m s :
  swap_ok s → mapped m kpage 4096 → bytes_mem m →
  (swap_out kpage m s = Err KernelPanic ∧ ∀ j, 0 ≤ j < bit_cnt (Swap_bitmap s) → slot_used s j) ∨
  ∃ slot s', swap_out kpage m s = Ok (slot, s') ∧ slot_filled s s' slot (page_at m kpage) ∧
    ∀ j, 0 ≤ j < slot → slot_used s j.
Proof.
  intros H Hm Hb. unfold swap_out. rewrite st_get_step.
  destruct (find_slot s H) as [[E Hall]|(slot & b & E & Hne & Hr & Hfree & Hfirst & Hb' & Hc & Hbits)];
    rewrite (st_lift_step _ _ _ _ E); cbn [fst snd].
  - left. split; [| done]. unfold st_modify. unfold mbind, st_bind. by rewrite Z.eqb_refl.
  - right. set (s1 := set_bitmap b s).
    assert (st_modify (set_bitmap b) s = Ok (tt, s1)) as Em by done. rewrite (st_step _ Em).
    destruct (Z.eqb_spec slot BITMAP_ERROR); [done |]. change (Z.to_nat SECTORS_PER_PAGE) with 8%nat.
    assert (swap_ok s1) as H1 by (split; cbn; [done | apply H | rewrite Hc; apply H]).
    destruct (out_loop_ok 8 slot 0 kpage m s1 H1) as (s' & Eo & H' & Hbm & Hl & Hj); [cbn; lia | lia | lia | done | done |].
    rewrite (st_step _ Eo). exists slot, s'. split; [reflexivity |]. split; [| exact Hfirst].
    assert (∀ j, slot_used s' j ↔ j = slot ∨ slot_used s j) as Hused.
    { intros j. rewrite (slot_used_set s s' slot true); [| exact Hr | rewrite Hbm; exact Hbits].
      case_decide; [split; [by left | done] | split; [by right | by intros [|]]]. }
    split.
    + exact H'.
    + exact Hr.
    + exact Hfree.
    + rewrite Hbm. exact Hc.
    + exact Hused.
    + apply slot_bytes_chunks; [lia |]. intros j Hjr. rewrite Hj, decide_True by lia. done.
    + intros j Hu. pose proof (slot_used_range _ _ Hu). apply slot_bytes_same; [lia |]. intros k Hk.
      rewrite Hj. rewrite decide_False; [reflexivity |]. assert (j ≠ slot) by (by intros ->). lia.
Qed.

Lemma test_slot_ok s slot : swap_ok s → 0 ≤ slot →
  (slot_used s slot → test_slot slot s = Ok (tt, s)) ∧ (¬ slot_used s slot → test_slot slot s = Err AssertFail).
Proof.
  intros H H0. unfold test_slot. pose proof (bitmap_test_ok _ slot (so_bitmap _ H) H0) as E. unfold slot_used.
  rewrite !st_get_step. destruct (Z.ltb_spec slot (bit_cnt (Swap_bitmap s))) as [Hlt|Hge].
  - rewrite (st_lift_step _ _ _ _ E).
    destruct (lookup_lt_is_Some_2 (bits_of (Swap_bitmap s)) (Z.to_nat slot)) as [v Hv]; [rewrite bits_of_length; lia |].
    rewrite (list_lookup_total_correct _ _ _ Hv), Hv. split; [intros [_ [= ->]] | intros Hn; destruct v; [by destruct Hn |]]; done.
  - split; [intros [_ Hu]; apply lookup_lt_Some in Hu; rewrite bits_of_length in Hu; lia |].
    intros _. unfold mbind, st_bind, st_lift. by rewrite E.
Qed.

Lemma reset_slot_ok s slot : swap_ok s → slot_used s slot →
  ∃ b, reset_slot slot s = Ok (tt, set_bitmap b s) ∧ slot_emptied s (set_bitmap b s) slot.
Proof.
  intros H Hu. pose proof (slot_used_range _ _ Hu) as Hr. pose proof (so_bitmap _ H) as Hb.
  destruct (bitmap_set_ok _ slot false Hb Hr) as (b & E & Hb' & Hc & Hbits).
  unfold bitmap_set in E. destruct (Z.ltb_spec slot (bit_cnt (Swap_bitmap s))); [| lia]. cbn in E.
  exists b. unfold reset_slot. rewrite st_get_step, (st_lift_step _ _ _ _ E). split; [done |]. split.
  - split; cbn; [done | apply H | rewrite Hc; apply H].
  - done.
  - intros j. rewrite (slot_used_set s _ slot false) by done. case_decide; naive_solver.
  - intros j. unfold slot_bytes. done.
Qed.

Lemma in_loop_ok (n : nat) slot i kpage m s :
  swap_ok s → 0 ≤ slot < bit_cnt (Swap_bitmap s) → 0 ≤ i → i + Z.of_nat n = 8 → mapped m kpage 4096 →
  ∃ s' m', in_loop n slot i kpage m s = Ok (m', s') ∧ swap_ok s' ∧ Swap_bitmap s' = Swap_bitmap s ∧
    swap_sectors s' = swap_sectors s ∧
    (∀ k x, i ≤ k < 8 → swap_sectors s !! Z.to_nat (8 * slot + k) = Some x → bytes_at m' (kpage + k * 512) x) ∧
    outside m m' (kpage + i * 512) ((8 - i) * 512) ∧ (∀ b, is_Some (m' !! b) ↔ is_Some (m !! b)) ∧
    (bytes_mem m → bytes_mem m').
Proof.
  revert i m s. induction n as [|n IH]; intros i m s H Hs Hi Hn Hm; cbn [in_loop].
  - exists s, m. assert (i = 8) as -> by lia. split_and!; try done. intros k x Hk. lia.
  - unfold BLOCK_SECTOR_SIZE. change SECTORS_PER_PAGE with 8. destruct (swap_device s slot H Hs) as (d & Ed & Hd & Es & Hsz).
    destruct (device_ok_size d Hd) as [Hlen _].
    destruct (lookup_lt_is_Some_2 (sectors d) (Z.to_nat (slot * 8 + i))) as [x Hx]; [lia |].
    destruct (device_read_ok d (slot * 8 + i) x Hd ltac:(lia) Hx) as (d' & Er & Hd' & Es').
    rewrite (st_step _ (block_io_ok _ s d _ _ Ed Er)). set (s1 := Swap (Some d') (Swap_bitmap s)).
    assert (swap_sectors s1 = swap_sectors s) as E1 by (by rewrite Es, <-Es').
    assert (swap_ok s1) as H1 by (by apply (swap_ok_sectors s d' (swap_sectors s1)); rewrite ?E1).
    assert (is_sector x) as [Hxl Hxb].
    { pose proof (device_ok_sectors d Hd) as Hall. by apply (Forall_lookup_1 _ _ _ _ Hall Hx). }
    destruct (write_bytes_ok x m (kpage + i * 512)) as (m1 & Ew & Hat & Hout & Hsome & Hbm);
      [eapply mapped_sub; [exact Hm | lia | rewrite Hxl; lia] |].
    rewrite Hxl in Hout. change (Z.of_nat 512) with 512 in Hout. rewrite (st_lift_step _ _ _ _ Ew).
    destruct (IH (i + 1) m1 s1) as (s' & m' & E & H' & Hb' & Es2 & Hat' & Hout' & Hsome' & Hbm'); [done | done | lia | lia | |].
    { intros b Hb. apply Hsome, Hm. lia. }
    exists s', m'. split; [done |]. split; [done |]. split; [done |]. split; [by rewrite Es2 |]. split; [| split; [| split]].
    + intros k y Hk Hy. destruct (decide (k = i)) as [-> |].
      * replace (8 * slot + i) with (slot * 8 + i) in Hy by lia. rewrite Es, Hx in Hy. injection Hy as <-.
        eapply bytes_at_frame; [exact Hat |]. intros b Hb. rewrite Hxl in Hb. apply Hout'. lia.
      * apply Hat'; [lia | by rewrite E1].
    + intros b Hb. rewrite Hout', Hout by lia. done.
    + intros b. by rewrite Hsome'.
    + auto.
Qed.

Lemma swap_in_ok slot kpage m s :
  swap_ok s → slot_used s slot → mapped m kpage 4096 →
  ∃ s' m', swap_in slot kpage m s = Ok (m', s') ∧ slot_emptied s s' slot ∧ page_at m' kpage = slot_bytes s slot ∧
    outside m m' kpage 4096 ∧ (∀ b, is_Some (m' !! b) ↔ is_Some (m !! b)) ∧ (bytes_mem m → bytes_mem m').
Proof.
  intros H Hu Hm. pose proof (slot_used_range _ _ Hu) as Hr. unfold swap_in.
  destruct (test_slot_ok s slot H ltac:(lia)) as [Et _]. rewrite (st_step _ (Et Hu)).
  change (Z.to_nat SECTORS_PER_PAGE) with 8%nat.
  destruct (in_loop_ok 8 slot 0 kpage m s H Hr ltac:(lia) ltac:(lia) Hm) as (s1 & m' & E & H1 & Hb & Es & Hat & Hout & Hsome & Hbm).
  rewrite (st_step _ E). assert (slot_used s1 slot) as Hu1 by (by unfold slot_used; rewrite Hb).
  destruct (reset_slot_ok s1 slot H1 Hu1) as (b & Er & He). rewrite (st_step _ Er).
  assert (∀ j, slot_bytes s1 j = slot_bytes s j) as Hsame by (intros j; unfold slot_bytes; by rewrite Es).
  exists (set_bitmap b s1), m'. split; [done |]. split; [| split; [| split_and!]]; try done.
  - split; [apply He | rewrite <-Hb; apply He | | ].
    + intros j. rewrite (se_used _ _ _ He). unfold slot_used. by rewrite Hb.
    + intros j. by rewrite (se_other _ _ _ He).
  - symmetry. apply slot_bytes_chunks; [lia |]. intros j Hj. pose proof (so_room _ H).
    destruct (lookup_lt_is_Some_2 (swap_sectors s) j) as [x Hx]; [lia |]. rewrite Hx. f_equal.
    pose proof (swap_sectors_ok s H) as Hall. destruct (Forall_lookup_1 _ _ _ _ Hall Hx) as [Hxl _].
    symmetry. etransitivity; [| apply bytes_from_at; apply (Hat (Z.of_nat j - 8 * slot) x); [lia |]].
    + by rewrite Hxl.
    + by replace (Z.to_nat (8 * slot + (Z.of_nat j - 8 * slot))) with j by lia.
  - rewrite Z.mul_0_l, Z.add_0_r in Hout. exact Hout.
Qed.

Lemma swap_free_ok slot s : swap_ok s → slot_used s slot →
  ∃ s', swap_free slot s = Ok (tt, s') ∧ slot_emptied s s' slot.
Proof.
  intros H Hu. unfold swap_free. destruct (test_slot_ok s slot H) as [Et _]; [apply Hu |]. rewrite (st_step _ (Et Hu)).
  destruct (reset_slot_ok s slot H Hu) as (b & E & He). by exists (set_bitmap b s).
Qed.

Lemma swap_init_ok block words :
  (∀ d, block = Some d → device_ok d) →
  let cnt := match block with None => 0 | Some d => device_size d / 8 end in
  words_for cnt words →
  ∃ s, swap_init block true (Some words) = Ok s ∧ swap_ok s ∧ bit_cnt (Swap_bitmap s) = cnt ∧ ∀ j, ¬ slot_used s j.
Proof.
  intros Hd cnt Hw. unfold swap_init. change SECTORS_PER_PAGE with 8. fold cnt.
  assert (0 ≤ cnt ≤ 536870911 ∧ 8 * cnt ≤ Z.of_nat (length (swap_sectors (Swap block (Bitmap 0 []))))) as [Hc Hroom].
  { subst cnt. unfold swap_sectors. cbn [Swap_block]. destruct block as [d|]; [| cbn; lia].
    destruct (device_ok_size d (Hd d eq_refl)) as [Hl Hlt]. rewrite Hl. Z.to_euclidean_division_equations. lia. }
  destruct (bitmap_create_ok cnt words) as [(b & E & Hb & Hbc & Hbits) _]; [lia | done |].
  rewrite E. cbn [mbind outcome_bind]. exists (Swap block b). split; [done |]. split; [split; cbn [Swap_bitmap Swap_block] | split; [done |]].
  - done.
  - done.
  - rewrite Hbc. exact Hroom.
  - intros j [_ Hj]. cbn in Hj. rewrite Hbits in Hj. by apply lookup_replicate in Hj as [? _].
Qed.

(** C35: What goes out to swap comes back.  [swap_out] stores a page in the first
    free slot, or panics exactly when every slot is in use; the pages in other
    slots stay.  However the slot's page is then read back, into any page of
    any memory, it is the page that went out, nothing else of that memory
    changes, and the slots are as they were before.  Reading or freeing a slot
    that holds no page fails an assertion. *)
Theorem swap_roundtrip kpage m s :
  swap_ok s → mapped m kpage 4096 → bytes_mem m →
  ((swap_out kpage m s = Err KernelPanic ∧ ∀ j, 0 ≤ j < bit_cnt (Swap_bitmap s) → slot_used s j) ∨
   ∃ slot s', swap_out kpage m s = Ok (slot, s') ∧ slot_filled s s' slot (page_at m kpage) ∧
     (∀ j, 0 ≤ j < slot → slot_used s j) ∧
     ∀ kpage' m', mapped m' kpage' 4096 →
       ∃ s'' m'', swap_in slot kpage' m' s' = Ok (m'', s'') ∧ page_at m'' kpage' = page_at m kpage ∧
         outside m' m'' kpage' 4096 ∧ swap_ok s'' ∧
         ∀ j, (slot_used s'' j ↔ slot_used s j) ∧ (slot_used s j → slot_bytes s'' j = slot_bytes s j)) ∧
  ∀ j, 0 ≤ j → ¬ slot_used s j → swap_in j kpage m s = Err AssertFail ∧ swap_free j s = Err AssertFail.
Proof.
  intros H Hm Hb. split.
  - destruct (swap_out_ok kpage m s H Hm Hb) as [?|(slot & s' & E & Hf & Hfirst)]; [by left | right].
    exists slot, s'. split; [done |]. split; [done |]. split; [done |]. intros kpage' m' Hm'.
    destruct (swap_in_ok slot kpage' m' s' (sf_ok _ _ _ _ Hf)) as (s'' & m'' & E' & He & Hp & Hout & _); [apply (sf_used _ _ _ _ Hf); by left | done |].
    exists s'', m''. split; [done |]. rewrite Hp, (sf_page _ _ _ _ Hf). split; [done |]. split; [done |]. split; [apply He |].
    pose proof (sf_free _ _ _ _ Hf) as Hn. intros j. rewrite (se_used _ _ _ He), (sf_used _ _ _ _ Hf). split; [naive_solver |].
    intros Hu. by rewrite (se_other _ _ _ He), (sf_other _ _ _ _ Hf).
  - intros j Hj Hn. destruct (test_slot_ok s j H Hj) as [_ Et]. specialize (Et Hn).
    unfold swap_in, swap_free, mbind, st_bind. by rewrite Et.
Qed.
End swap.

(** A swap device of two slots: the page of zeros goes out. *)
Definition example_swap : swap ramdisk := Swap (Some (replicate 16 (replicate 512 7))) (Bitmap 2 [0]).

Lemma example_swap_ok : swap_ok example_swap.
Proof.
  split.
  - split; [cbn; lia |]. split; [done |]. constructor; [lia | done].
  - intros d Hd. apply Some_inj in Hd as <-. split; [done |]. apply Forall_replicate. split; [done |].
    apply Forall_replicate. unfold is_byte. lia.
  - cbn. lia.
Qed.

Lemma swap_roundtrip_witness :
  ∃ s', swap_out 4096 (gset_to_gmap 0 (list_to_set (seqZ 4096 4096))) example_swap = Ok (0, s') ∧ slot_used s' 0.
Proof.
  assert (∀ j, ¬ slot_used example_swap j) as Hno.
  { intros j [_ Hj]. change (bits_of (Swap_bitmap example_swap)) with [false; false] in Hj.
    destruct (Z.to_nat j) as [|[|]]; discriminate. }
  destruct (swap_roundtrip 4096 (gset_to_gmap 0 (list_to_set (seqZ 4096 4096))) example_swap example_swap_ok)
    as [[[_ Hall]|(slot & s' & E & Hf & Hfirst & _)] _].
  - intros a Ha. exists 0. apply lookup_gset_to_gmap_Some. split; [| reflexivity].
    apply elem_of_list_to_set, elem_of_seqZ. lia.
  - intros a b [_ <-]%lookup_gset_to_gmap_Some. unfold is_byte. lia.
  - exfalso. apply (Hno 0), Hall. cbn. lia.
  - assert (slot = 0) as ->.
    { destruct (sf_range _ _ _ _ Hf) as [H0 _]. destruct (Z.eq_dec slot 0) as [|Hn]; [assumption |].
      exfalso. apply (Hno 0), Hfirst. lia. }
    exists s'. split; [exact E |]. apply (sf_used _ _ _ _ Hf). left. reflexivity.
Defined.
