(* ===== verification/Vm.v ===== *)
(** vm/frame.c and vm/page.c: frames, eviction, and demand paging.

    Threads, frames, pages and mappings are records at addresses, as in the
    heap; [out_of_memory] says which allocations fail.  The file system and the
    swap device are reached through interfaces, [FileStore] and [Device].  The
    locks of the two files make each section they guard one step: what runs
    between them here runs to the end. *)
From S2P Require Import Prelude Bytes Bitmap Hash CString CStringThm Words Vaddr Palloc PageMem Pagedir Block Swap.
Local Open Scope Z_scope.

(** ** The files pages come from *)

Class FileStore (F : Type) := {
  store_read_at : loc → Z → Z → ST F (list Z);
  store_write_at : loc → list Z → Z → Z → ST F Z;
  store_length : loc → ST F Z;
  store_reopen : loc → ST F (option loc);
  store_close : option loc → ST F unit;
}.

(** ** Data *)

Inductive page_type := PAGE_BIN | PAGE_MMAP | PAGE_ANON.

#[export] Instance page_type_eq_dec : EqDecision page_type.
Proof. solve_decision. Defined.

Definition PAGE_NO_SLOT : Z := 4294967295.
Definition STACK_LIMIT : Z := 8 * 1024 * 1024.

(** [struct page]; [p_kpage] is 0 for [NULL]. *)
Record page := Page {
  p_upage : Z;
  p_kpage : Z;
  p_type : page_type;
  p_writable : bool;
  p_file : option loc;
  p_ofs : Z;
  p_read_bytes : Z;
  p_zero_bytes : Z;
  p_swap_slot : Z;
}.

Definition set_kpage (k : Z) (p : page) : page :=
  Page (p_upage p) k (p_type p) (p_writable p) (p_file p) (p_ofs p) (p_read_bytes p) (p_zero_bytes p) (p_swap_slot p).
Definition set_type (t : page_type) (p : page) : page :=
  Page (p_upage p) (p_kpage p) t (p_writable p) (p_file p) (p_ofs p) (p_read_bytes p) (p_zero_bytes p) (p_swap_slot p).
Definition set_slot (n : Z) (p : page) : page :=
  Page (p_upage p) (p_kpage p) (p_type p) (p_writable p) (p_file p) (p_ofs p) (p_read_bytes p) (p_zero_bytes p) n.

(** [struct frame]. *)
Record frame := Frame { f_kpage : Z; f_upage : Z; f_owner : loc; f_page : option loc; f_pinned : bool }.

Definition set_pinned (b : bool) (f : frame) : frame := Frame (f_kpage f) (f_upage f) (f_owner f) (f_page f) b.
Definition set_frame_page (p : option loc) (f : frame) : frame :=
  Frame (f_kpage f) (f_upage f) (f_owner f) p (f_pinned f).

(** [struct mmap_file]. *)
Record mmap_file := MmapFile { mapid : Z; m_file : loc; m_addr : Z; page_cnt : Z }.

(** An element of a supplemental page table: the page and its key, the
    [upage] it was inserted with. *)
Definition spt_elem : Type := Z * loc.

Definition page_hash (e : spt_elem) : Z := hash_bytes (bytes_of_u32 e.1).
Definition page_less (a b : spt_elem) : bool := a.1 <? b.1.

(** What a thread keeps for its process's memory. *)
Record proc := Proc {
  pagedir : Z;
  Spt : hash_table spt_elem;
  Mmap_list : list loc;
  next_mapid : Z;
}.

Definition set_spt (h : hash_table spt_elem) (t : proc) : proc := Proc (pagedir t) h (Mmap_list t) (next_mapid t).
Definition set_mmaps (l : list loc) (t : proc) : proc := Proc (pagedir t) (Spt t) l (next_mapid t).

(** [Clock_hand]: null, the end of [Frame_list], or an element. *)
Inductive hand := HNull | HEnd | HAt (f : loc).

#[export] Instance hand_eq_dec : EqDecision hand.
Proof. solve_decision. Defined.

Record vm (D F : Type) := Vm {
  mach : machine;
  Frame_list : list loc;
  Clock_hand : hand;
  frames : gmap loc frame;
  pages : gmap loc page;
  procs : gmap loc proc;
  mmaps : gmap loc mmap_file;
  running : loc;
  swap_state : swap D;
  filesys : F;
  next_addr : loc;
}.
Arguments Vm {D F}. Arguments mach {D F}. Arguments Frame_list {D F}. Arguments Clock_hand {D F}.
Arguments frames {D F}. Arguments pages {D F}. Arguments procs {D F}. Arguments mmaps {D F}.
Arguments running {D F}. Arguments swap_state {D F}. Arguments filesys {D F}. Arguments next_addr {D F}.

(** [hand_begin], and [hand_next] of an element. *)
Definition hand_begin (l : list loc) : hand := match l with [] => HEnd | x :: _ => HAt x end.

Fixpoint hand_next (l : list loc) (x : loc) : hand :=
  match l with
  | [] => HEnd
  | y :: l => if decide (y = x) then hand_begin l else hand_next l x
  end.

Definition drop_elem (x : loc) (l : list loc) : list loc := filter (λ y, y ≠ x) l.

Section vm.
Context {D : Type} `{!Device D} {F : Type} `{!FileStore F}.
Context (init_ram_pages : Z) (out_of_memory : loc → bool).
Implicit Types s : vm D F.

Abbreviation VM := (ST (vm D F)).

(** *** The parts of the state *)

Definition set_mach (x : machine) s : vm D F :=
  Vm x (Frame_list s) (Clock_hand s) (frames s) (pages s) (procs s) (mmaps s) (running s) (swap_state s) (filesys s) (next_addr s).
Definition set_list (x : list loc) s : vm D F :=
  Vm (mach s) x (Clock_hand s) (frames s) (pages s) (procs s) (mmaps s) (running s) (swap_state s) (filesys s) (next_addr s).
Definition set_hand (x : hand) s : vm D F :=
  Vm (mach s) (Frame_list s) x (frames s) (pages s) (procs s) (mmaps s) (running s) (swap_state s) (filesys s) (next_addr s).
Definition set_frames (f : gmap loc frame → gmap loc frame) s : vm D F :=
  Vm (mach s) (Frame_list s) (Clock_hand s) (f (frames s)) (pages s) (procs s) (mmaps s) (running s) (swap_state s) (filesys s) (next_addr s).
Definition set_pages (f : gmap loc page → gmap loc page) s : vm D F :=
  Vm (mach s) (Frame_list s) (Clock_hand s) (frames s) (f (pages s)) (procs s) (mmaps s) (running s) (swap_state s) (filesys s) (next_addr s).
Definition set_procs (f : gmap loc proc → gmap loc proc) s : vm D F :=
  Vm (mach s) (Frame_list s) (Clock_hand s) (frames s) (pages s) (f (procs s)) (mmaps s) (running s) (swap_state s) (filesys s) (next_addr s).
Definition set_mmap_files (f : gmap loc mmap_file → gmap loc mmap_file) s : vm D F :=
  Vm (mach s) (Frame_list s) (Clock_hand s) (frames s) (pages s) (procs s) (f (mmaps s)) (running s) (swap_state s) (filesys s) (next_addr s).
Definition set_swap (x : swap D) s : vm D F :=
  Vm (mach s) (Frame_list s) (Clock_hand s) (frames s) (pages s) (procs s) (mmaps s) (running s) x (filesys s) (next_addr s).
Definition set_filesys (x : F) s : vm D F :=
  Vm (mach s) (Frame_list s) (Clock_hand s) (frames s) (pages s) (procs s) (mmaps s) (running s) (swap_state s) x (next_addr s).
Definition set_next (x : loc) s : vm D F :=
  Vm (mach s) (Frame_list s) (Clock_hand s) (frames s) (pages s) (procs s) (mmaps s) (running s) (swap_state s) (filesys s) x.

Definition on_mach {A} (f : PM A) : VM A := λ s,
  match f (mach s) with Ok (a, m) => Ok (a, set_mach m s) | Err e => Err e end.
Definition on_swap {A} (f : mem → ST (swap D) A) : VM A := λ s,
  match f (memory (pal (mach s))) (swap_state s) with Ok (a, x) => Ok (a, set_swap x s) | Err e => Err e end.
Definition on_files {A} (f : ST F A) : VM A := λ s,
  match f (filesys s) with Ok (a, x) => Ok (a, set_filesys x s) | Err e => Err e end.

Definition get_frame (f : loc) : VM frame := s ← st_get; st_lift (from_option_err BadPointer (frames s !! f)).
Definition get_pg (p : loc) : VM page := s ← st_get; st_lift (from_option_err BadPointer (pages s !! p)).
Definition get_proc (t : loc) : VM proc := s ← st_get; st_lift (from_option_err BadPointer (procs s !! t)).
Definition put_frame (f : loc) (x : frame) : VM unit := st_modify (set_frames (<[f := x]>)).
Definition put_pg (p : loc) (x : page) : VM unit := st_modify (set_pages (<[p := x]>)).
Definition put_proc (t : loc) (x : proc) : VM unit := st_modify (set_procs (<[t := x]>)).

(** [current_proc ()] *)
Definition current_proc : VM (loc * proc) := s ← st_get; t ← get_proc (running s); mret (running s, t).

Definition vm_malloc : VM (option loc) := λ s,
  Ok (if out_of_memory (next_addr s) then None else Some (next_addr s), set_next (Pos.succ (next_addr s)) s).

(** Memory written by the kernel through its own addresses. *)
Definition on_memory (f : mem → outcome mem) : VM unit := λ s,
  match f (memory (pal (mach s))) with
  | Ok m => Ok (tt, set_mach (set_pal (set_memory m (pal (mach s))) (mach s)) s)
  | Err e => Err e
  end.
Definition vm_memset (dst value size : Z) : VM unit := on_memory (λ m, r ← memset m dst value size; Ok r.2).

(** ** vm/frame.c *)

Definition frame_init s : vm D F := set_list [] (set_hand HNull s).

(** The loop of [frame_evict], [n] turns left. *)
Fixpoint evict_loop (n : nat) : VM (option loc) :=
  match n with
  | O => mret None
  | S n =>
      s ← st_get;
      let h := match Clock_hand s with HNull | HEnd => hand_begin (Frame_list s) | h => h end in
      st_modify (set_hand h);;
      match h with
      | HAt x =>
          f ← get_frame x;
          st_modify (set_hand (hand_next (Frame_list s) x));;
          if f_pinned f || bool_decide (f_page f = None) then evict_loop n
          else
            t ← get_proc (f_owner f);
            accessed ← on_mach (pagedir_is_accessed (pagedir t) (f_upage f));
            if (accessed : bool) then
              on_mach (pagedir_set_accessed (pagedir t) (f_upage f) false);; evict_loop n
            else mret (Some x)
      | _ => mret None
      end
  end.

(** [frame_evict] from the choice of the victim on, up to the [memset]. *)
Definition evict_victim (victim : loc) : VM Z :=
  f ← get_frame victim;
  pl ← st_lift (from_option_err BadPointer (f_page f));
  t ← get_proc (f_owner f);
  s ← st_get;
  (if decide (Clock_hand s = HAt victim) then st_modify (set_hand (hand_next (Frame_list s) victim)) else mret tt);;
  st_modify (λ s, set_list (drop_elem victim (Frame_list s)) s);;
  p ← get_pg pl;
  put_pg pl (set_kpage 0 p);;
  on_mach (pagedir_clear_page (pagedir t) (p_upage p));;
  dirty ← (if decide (p_type p = PAGE_ANON) then mret true else on_mach (pagedir_is_dirty (pagedir t) (p_upage p)));
  (if (dirty : bool) then
     slot ← on_swap (swap_out (f_kpage f));
     p ← get_pg pl;
     put_pg pl (set_slot slot p);;
     (if decide (p_type p = PAGE_BIN) then p ← get_pg pl; put_pg pl (set_type PAGE_ANON p) else mret tt)
   else mret tt);;
  st_modify (set_frames (delete victim));;
  mret (f_kpage f).

Definition frame_evict (flags : Z) : VM Z :=
  s ← st_get;
  v ← evict_loop (2 * length (Frame_list s));
  match v with
  | None => st_fail KernelPanic
  | Some victim =>
      kpage ← evict_victim victim;
      (if has_flag flags PAL_ZERO then vm_memset kpage 0 PGSIZE else mret tt);;
      mret kpage
  end.

(** Returns 0 for [NULL]. *)
Definition frame_alloc (flags upage : Z) : VM Z :=
  st_assert (has_flag flags PAL_USER);;
  kpage ← on_mach (get_page flags);
  kpage ← (if kpage =? 0 then frame_evict flags else mret kpage);
  if kpage =? 0 then mret 0
  else
    o ← vm_malloc;
    match o with
    | None => on_mach (free_page kpage);; mret 0
    | Some f =>
        s ← st_get;
        put_frame f (Frame kpage upage (running s) None true);;
        st_modify (λ s, set_list (Frame_list s ++ [f]) s);;
        mret kpage
    end.

(** The first frame of the list that satisfies a test: the [for] loops that end
    with a [break]. *)
Fixpoint find_frame (l : list loc) (test : frame → bool) : VM (option loc) :=
  match l with
  | [] => mret None
  | x :: l => f ← get_frame x; if test f then mret (Some x) else find_frame l test
  end.

Definition frame_free (kpage : Z) : VM unit :=
  s ← st_get;
  found ← find_frame (Frame_list s) (λ f, f_kpage f =? kpage);
  (match found with
   | Some e =>
       (if decide (Clock_hand s = HAt e) then st_modify (set_hand (hand_next (Frame_list s) e)) else mret tt);;
       st_modify (λ s, set_list (drop_elem e (Frame_list s)) s);;
       st_modify (set_frames (delete e))
   | None => mret tt
   end);;
  on_mach (free_page kpage).

(** The loop over the list; [l] is what is left of it. *)
Fixpoint remove_owner_loop (l : list loc) (t : loc) (removed : list loc) : VM (list loc) :=
  match l with
  | [] => mret removed
  | e :: l =>
      f ← get_frame e;
      if decide (f_owner f = t) then
        s ← st_get;
        (if decide (Clock_hand s = HAt e) then st_modify (set_hand (hand_next (Frame_list s) e)) else mret tt);;
        st_modify (λ s, set_list (drop_elem e (Frame_list s)) s);;
        remove_owner_loop l t (removed ++ [e])
      else remove_owner_loop l t removed
  end.

Definition frame_remove_owner (t : loc) : VM unit :=
  s ← st_get;
  removed ← remove_owner_loop (Frame_list s) t [];
  st_modify (set_frames (λ m, foldr delete m removed)).

Definition frame_install (kpage : Z) (pl : loc) : VM unit :=
  s ← st_get;
  found ← find_frame (Frame_list s) (λ f, f_kpage f =? kpage);
  match found with
  | Some e => f ← get_frame e; put_frame e (set_pinned false (set_frame_page (Some pl) f))
  | None => mret tt
  end.

Definition frame_pin_resident (pl : loc) : VM bool :=
  s ← st_get;
  p ← get_pg pl;
  if negb (p_kpage p =? 0) then
    found ← find_frame (Frame_list s) (λ f, f_kpage f =? p_kpage p);
    match found with
    | Some e => f ← get_frame e; put_frame e (set_pinned true f);; mret true
    | None => mret false
    end
  else mret false.

Fixpoint unpin_loop (l : list loc) (t : loc) : VM unit :=
  match l with
  | [] => mret tt
  | e :: l =>
      f ← get_frame e;
      (if bool_decide (f_owner f = t) && bool_decide (f_page f ≠ None) then put_frame e (set_pinned false f) else mret tt);;
      unpin_loop l t
  end.

Definition frame_unpin_owner (t : loc) : VM unit := s ← st_get; unpin_loop (Frame_list s) t.
End vm.
