(* ===== verification/Page.v ===== *)
(** vm/page.c and the paging part of [page_fault] in userprog/exception.c: the
    supplemental page table of a process, faults, stack growth and mappings. *)
From S2P Require Import Prelude Bytes Bitmap Hash CString CStringThm Words Vaddr Palloc PageMem Pagedir Block Swap Vm.
Local Open Scope Z_scope.

Section page.
Context {D : Type} `{!Device D} {F : Type} `{!FileStore F}.
Context (init_ram_pages : Z) (out_of_memory : loc → bool).
Implicit Types s : vm D F.

Abbreviation VM := (ST (vm D F)).

(** Is there memory for the buckets a rehash wants? *)
Definition rehash_memory s : bool := negb (out_of_memory (next_addr s)).

Definition page_table_init : VM bool :=
  s ← st_get;
  '(t, p) ← current_proc;
  match hash_init (E := spt_elem) (rehash_memory s) with
  | Some h => put_proc t (set_spt h p);; mret true
  | None => mret false
  end.

Definition page_destructor (e : spt_elem) (o : outcome (vm D F)) : outcome (vm D F) :=
  s ← o;
  '(_, s) ← (p ← get_pg e.2;
    (if (p_kpage p =? 0) && negb (p_swap_slot p =? PAGE_NO_SLOT) then on_swap (λ _, swap_free (p_swap_slot p)) else mret tt);;
    st_modify (set_pages (delete e.2))) s;
  Ok s.

Definition page_table_destroy (t : loc) : VM unit := λ s,
  match procs s !! t with
  | Some p => s ← hash_destroy (Some page_destructor) (Spt p) (Ok s); Ok (tt, s)
  | None => Err BadPointer
  end.

(** The common part of [page_add_file], [page_add_anon] and [page_add_mmap]: a
    new page in the table of the running process, or null. *)
Definition page_add (p : page) : VM (option loc) :=
  st_assert (pg_ofs (p_upage p) =? 0);;
  o ← vm_malloc out_of_memory;
  match o with
  | None => mret None
  | Some pl =>
      put_pg pl p;;
      s ← st_get;
      '(t, x) ← current_proc;
      '(old, h) ← st_lift (hash_insert page_hash page_less (rehash_memory s) (Spt x) (p_upage p, pl));
      put_proc t (set_spt h x);;
      match old with
      | Some _ => st_modify (set_pages (delete pl));; mret None
      | None => mret (Some pl)
      end
  end.

Definition page_add_file (upage : Z) (file : loc) (ofs read_bytes zero_bytes : Z) (writable : bool) : VM (option loc) :=
  page_add (Page upage 0 PAGE_BIN writable (Some file) ofs read_bytes zero_bytes PAGE_NO_SLOT).

Definition page_add_anon (upage : Z) (writable : bool) : VM (option loc) :=
  page_add (Page upage 0 PAGE_ANON writable None 0 0 PGSIZE PAGE_NO_SLOT).

Definition page_add_mmap (upage : Z) (file : loc) (ofs read_bytes zero_bytes : Z) : VM (option loc) :=
  page_add (Page upage 0 PAGE_MMAP true (Some file) ofs read_bytes zero_bytes PAGE_NO_SLOT).

(** The key's page pointer is not looked at. *)
Definition page_find (h : hash_table spt_elem) (vaddr : Z) : outcome (option loc) :=
  e ← hash_find page_hash page_less h (pg_round_down vaddr, 1%positive);
  Ok (match e with Some (_, pl) => Some pl | None => None end).

(** Fill a frame from its page's file, or with zeros; false when the file is
    too short. *)
Definition load_frame (p : page) (kpage : Z) : VM bool :=
  if decide (p_type p ≠ PAGE_ANON) then
    f ← st_lift (from_option_err BadPointer (p_file p));
    got ← on_files (store_read_at f (p_read_bytes p) (p_ofs p));
    on_memory (λ m, write_bytes got m kpage);;
    if negb (Z.of_nat (length got) =? i32 (p_read_bytes p)) then mret false
    else vm_memset (kpage + p_read_bytes p) 0 (p_zero_bytes p);; mret true
  else vm_memset kpage 0 PGSIZE;; mret true.

Definition handle_mm_fault (pl : loc) : VM bool :=
  p ← get_pg pl;
  st_assert (p_kpage p =? 0);;
  kpage ← frame_alloc out_of_memory PAL_USER (p_upage p);
  if kpage =? 0 then mret false
  else
    p ← get_pg pl;
    loaded ← load_frame p kpage;
    if negb (loaded : bool) then frame_free kpage;; mret false
    else
      let from_swap := negb (p_swap_slot p =? PAGE_NO_SLOT) in
      (if from_swap then
         s ← st_get;
         m ← on_swap (swap_in (p_swap_slot p) kpage);
         on_memory (λ _, Ok m);;
         put_pg pl (set_slot PAGE_NO_SLOT p)
       else mret tt);;
      '(_, t) ← current_proc;
      ok ← on_mach (pagedir_set_page init_ram_pages (pagedir t) (p_upage p) kpage (p_writable p));
      if negb (ok : bool) then frame_free kpage;; mret false
      else
        (if bool_decide (p_type p = PAGE_MMAP) && from_swap
         then on_mach (pagedir_set_dirty (pagedir t) (p_upage p) true) else mret tt);;
        p ← get_pg pl;
        put_pg pl (set_kpage kpage p);;
        frame_install kpage pl;;
        mret true.

(** The loop of [page_pin], [fuel] turns. *)
Fixpoint page_pin_fuel (fuel : nat) (pl : loc) : VM bool :=
  match fuel with
  | O => st_fail OutOfFuel
  | S fuel =>
      pinned ← frame_pin_resident pl;
      if (pinned : bool) then mret true
      else
        ok ← handle_mm_fault pl;
        if (ok : bool) then page_pin_fuel fuel pl else mret false
  end.

Definition page_pin : loc → VM bool := page_pin_fuel 2.

Definition page_is_stack_access (addr esp : Z) : bool :=
  is_user_vaddr addr && (u32 (PHYS_BASE - STACK_LIMIT) <=? addr) && (u32 (esp - 32) <=? addr).

Definition page_grow_stack (addr : Z) : VM bool :=
  o ← page_add_anon (pg_round_down addr) true;
  match o with None => mret false | Some pl => handle_mm_fault pl end.

(** The loop of [page_unmap], from page [i] on, [n] pages left. *)
Fixpoint unmap_loop (n : nat) (m : mmap_file) (i : Z) : VM unit :=
  match n with
  | O => mret tt
  | S n =>
      let upage := u32 (m_addr m + i * PGSIZE) in
      '(_, t) ← current_proc;
      o ← st_lift (page_find (Spt t) upage);
      (match o with
       | None => mret tt
       | Some pl =>
           pinned ← page_pin pl;
           (if (pinned : bool) then
              dirty ← on_mach (pagedir_is_dirty (pagedir t) upage);
              p ← get_pg pl;
              (if (dirty : bool) then
                 s ← st_get;
                 l ← st_lift (read_bytes (Z.to_nat (p_read_bytes p)) (memory (pal (mach s))) (p_kpage p));
                 on_files (store_write_at (m_file m) l (p_read_bytes p) (p_ofs p));; mret tt
               else mret tt);;
              p ← get_pg pl;
              on_mach (pagedir_clear_page (pagedir t) upage);;
              put_pg pl (set_kpage 0 p);;
              frame_free (p_kpage p)
            else mret tt);;
           s ← st_get;
           '(c, t) ← current_proc;
           p ← get_pg pl;
           '(_, h) ← st_lift (hash_delete page_hash page_less (rehash_memory s) (Spt t) (p_upage p, pl));
           put_proc c (set_spt h t);;
           (if negb (p_swap_slot p =? PAGE_NO_SLOT) then on_swap (λ _, swap_free (p_swap_slot p)) else mret tt);;
           st_modify (set_pages (delete pl))
       end);;
      unmap_loop n m (i + 1)
  end.

Definition page_unmap (ml : loc) : VM unit :=
  s ← st_get;
  m ← st_lift (from_option_err BadPointer (mmaps s !! ml));
  unmap_loop (Z.to_nat (page_cnt m)) m 0;;
  on_files (store_close (Some (m_file m)));;
  '(t, x) ← current_proc;
  put_proc t (set_mmaps (drop_elem ml (Mmap_list x)) x);;
  st_modify (set_mmap_files (delete ml)).

Fixpoint page_unmap_all (fuel : nat) : VM unit :=
  match fuel with
  | O => st_fail OutOfFuel
  | S fuel =>
      '(_, t) ← current_proc;
      match Mmap_list t with
      | [] => mret tt
      | ml :: _ => page_unmap ml;; page_unmap_all fuel
      end
  end.

(** ** [page_fault] of userprog/exception.c

    Does the handler repair the fault?  If not it kills the process (or, in
    kernel mode, the kernel panics).  [esp] is the program's stack pointer:
    [f->esp] for a fault in user mode, [user_esp] in a system call. *)
Definition page_fault (not_present write : bool) (fault_addr esp : Z) : VM bool :=
  '(_, t) ← current_proc;
  if not_present && is_user_vaddr fault_addr && negb (pagedir t =? 0) then
    o ← st_lift (page_find (Spt t) fault_addr);
    match o with
    | Some pl =>
        p ← get_pg pl;
        if (p_kpage p =? 0) && (negb write || p_writable p) then handle_mm_fault pl else mret false
    | None => if page_is_stack_access fault_addr esp then page_grow_stack fault_addr else mret false
    end
  else mret false.
End page.
