(* ===== verification/VmInv.v ===== *)
(** The invariant of virtual memory: frames, supplemental page tables, hardware
    page tables, swap slots and files agree; and what a page holds, wherever it
    is. *)
From S2P Require Import Prelude Bytes Bitmap Hash CString CStringThm Words Vaddr Palloc PageMem Pagedir PagedirThm PagedirOps Block Swap Vm Page.
Local Open Scope Z_scope.

(** What the file system promises: the bytes of an open file, which reading
    does not change. *)
Class FileStoreLaws (F : Type) `{!FileStore F} := {
  store_ok : F → Prop;
  store_bytes : F → loc → option (list Z);
  store_bytes_ok s f b : store_ok s → store_bytes s f = Some b → Forall is_byte b;
  store_read_ok s f b size ofs : store_ok s → store_bytes s f = Some b →
    0 ≤ ofs < 2147483648 → 0 ≤ size < 2147483648 →
    ∃ s', store_read_at f size ofs s = Ok (take (Z.to_nat size) (drop (Z.to_nat ofs) b), s') ∧ store_ok s' ∧
      ∀ g, store_bytes s' g = store_bytes s g;
}.

Section inv.
Context {D : Type} `{!Device D} `{!DeviceLaws D} {F : Type} `{!FileStore F} `{!FileStoreLaws F}.
Context (ram : Z).
Implicit Types s : vm D F.

(** ** Views of the state *)

(** The supplemental page table of a process: pages by address. *)
Definition spt_map s (t : loc) : gmap Z loc :=
  match procs s !! t with Some x => snd <$> hmap fst (Spt x) | None => ∅ end.

(** A slot of a page directory, the accessed bit apart. *)
Definition entry (A : spaces) (pd v : Z) : option mapping :=
  PagedirThm.set_accessed false <$> (A !! pd ≫= λ m, m !! v).

Definition frame_bytes s (k : Z) : list Z := page_at (memory (pal (mach s))) k.

(** What a page holds when it is neither in memory nor in swap. *)
Definition backing s (p : page) : list Z :=
  match p_type p with
  | PAGE_ANON => replicate 4096 0
  | _ =>
      match p_file p ≫= store_bytes (filesys s) with
      | Some b => take (Z.to_nat (p_read_bytes p)) (drop (Z.to_nat (p_ofs p)) b) ++ replicate (Z.to_nat (p_zero_bytes p)) 0
      | None => []
      end
  end.

(** What a page holds. *)
Definition value s (p : page) : list Z :=
  if p_kpage p =? 0 then
    if p_swap_slot p =? PAGE_NO_SLOT then backing s p else slot_bytes (swap_state s) (p_swap_slot p)
  else frame_bytes s (p_kpage p).

(** ** The invariant *)

Record page_ok s (p : page) : Prop := {
  po_upage : 0 ≤ p_upage p < PHYS_BASE ∧ p_upage p `mod` 4096 = 0;
  po_bytes : 0 ≤ p_read_bytes p ∧ 0 ≤ p_zero_bytes p ∧ p_read_bytes p + p_zero_bytes p = 4096;
  po_file : p_type p ≠ PAGE_ANON → 0 ≤ p_ofs p < 2147483648 ∧ is_Some (p_file p ≫= store_bytes (filesys s));
  po_slot : p_swap_slot p = PAGE_NO_SLOT ∨ slot_used (swap_state s) (p_swap_slot p);
  po_kpage : p_kpage p ≠ 0 → p_swap_slot p = PAGE_NO_SLOT;
  po_bin : p_type p = PAGE_BIN → p_swap_slot p = PAGE_NO_SLOT;
}.

(** A page in memory has a frame and is mapped to it; clean, it is what its file
    says.  A page elsewhere is not mapped. *)
Definition placed s (A : spaces) (pd : Z) (pl : loc) (p : page) : Prop :=
  if decide (p_kpage p = 0) then ∀ m, entry A pd (pg_no (p_upage p)) = Some m → m_present m = false
  else (∃ f x, frames s !! f = Some x ∧ f_page x = Some pl) ∧
    ∃ d, entry A pd (pg_no (p_upage p)) = Some (Mapping (p_kpage p) true (p_writable p) false d) ∧
      (d = false → p_type p ≠ PAGE_ANON → frame_bytes s (p_kpage p) = backing s p).

Record vm_ok s (T : tables) (A : spaces) : Prop := {
  v_mach : repr ram (mach s) T A;
  v_swap : swap_ok (swap_state s);
  v_files : store_ok (filesys s);
  v_list : NoDup (Frame_list s);
  v_dom f : f ∈ Frame_list s ↔ is_Some (frames s !! f);
  v_hand f : Clock_hand s = HAt f → f ∈ Frame_list s;
  v_fresh l : is_Some (frames s !! l) ∨ is_Some (pages s !! l) → (l < next_addr s)%positive;
  v_frame f x : frames s !! f = Some x → in_use (pal (mach s)) true (f_kpage x) ∧ is_Some (procs s !! f_owner x) ∧
    (f_page x = None → f_pinned x = true);
  v_frame_page f x pl : frames s !! f = Some x → f_page x = Some pl →
    ∃ p, pages s !! pl = Some p ∧ p_kpage p = f_kpage x ∧ p_upage p = f_upage x ∧
      spt_map s (f_owner x) !! p_upage p = Some pl;
  v_kpage f g x y : frames s !! f = Some x → frames s !! g = Some y → f_kpage x = f_kpage y → f = g;
  v_proc t x : procs s !! t = Some x → hash_ok page_hash fst (Spt x) ∧ (pagedir x = 0 → spt_map s t = ∅) ∧
    (pagedir x ≠ 0 → is_Some (A !! pagedir x) ∧ pagedir x ≠ init_page_dir (mach s));
  v_dirs t u x y : procs s !! t = Some x → procs s !! u = Some y → pagedir x = pagedir y → pagedir x ≠ 0 → t = u;
  v_spt t u pl : spt_map s t !! u = Some pl → ∃ p, pages s !! pl = Some p ∧ p_upage p = u ∧ page_ok s p;
  v_inj t t' u u' pl : spt_map s t !! u = Some pl → spt_map s t' !! u' = Some pl → t = t';
  v_placed t u pl p x : spt_map s t !! u = Some pl → pages s !! pl = Some p → procs s !! t = Some x →
    placed s A (pagedir x) pl p;
  v_mapped t x v m : procs s !! t = Some x → entry A (pagedir x) v = Some m → m_present m = true →
    ∃ u pl, spt_map s t !! u = Some pl ∧ pg_no u = v;
  v_slots t t' u u' pl pl' p p' : spt_map s t !! u = Some pl → spt_map s t' !! u' = Some pl' →
    pages s !! pl = Some p → pages s !! pl' = Some p' →
    p_swap_slot p = p_swap_slot p' → p_swap_slot p ≠ PAGE_NO_SLOT → pl = pl';
  v_running : ∃ x, procs s !! running s = Some x ∧
    active (mach s) = if pagedir x =? 0 then init_page_dir (mach s) else pagedir x;
}.

(** From [s] to [s'] the processes and what their pages hold stay as they are,
    but for the page [lost]. *)
Record preserves (lost : option loc) s s' : Prop := {
  k_procs : procs s' = procs s;
  k_running : running s' = running s;
  k_pages t u pl p : spt_map s t !! u = Some pl → pages s !! pl = Some p →
    ∃ p', pages s' !! pl = Some p' ∧ p_upage p' = p_upage p ∧ p_writable p' = p_writable p ∧
      (Some pl ≠ lost → value s' p' = value s p);
}.

Lemma preserves_refl lost s : preserves lost s s.
Proof. split; try done. intros t u pl p _ Hp. by exists p. Qed.

Lemma spt_map_procs s s' t : procs s' = procs s → spt_map s' t = spt_map s t.
Proof. intros E. unfold spt_map. by rewrite E. Qed.

Lemma preserves_trans lost s1 s2 s3 : preserves lost s1 s2 → preserves lost s2 s3 → preserves lost s1 s3.
Proof.
  intros H1 H2. split.
  - rewrite (k_procs _ _ _ H2). apply H1.
  - rewrite (k_running _ _ _ H2). apply H1.
  - intros t u pl p Ht Hp. destruct (k_pages _ _ _ H1 t u pl p Ht Hp) as (p2 & Hp2 & E1 & E2 & E3).
    destruct (k_pages _ _ _ H2 t u pl p2) as (p3 & Hp3 & E4 & E5 & E6); [by rewrite (spt_map_procs s1 s2) by apply H1 | done |].
    exists p3. split; [done |]. split; [congruence |]. split; [congruence |]. intros Hn. by rewrite E6, E3.
Qed.

Lemma preserves_weaken lost s s' : preserves None s s' → preserves lost s s'.
Proof.
  intros H. split; [apply H | apply H |]. intros t u pl p Ht Hp.
  destruct (k_pages _ _ _ H t u pl p Ht Hp) as (p' & H1 & H2 & H3 & H4). exists p'. split_and!; [done.. |].
  intros _. by apply H4.
Qed.

(** *** Frames and tables *)

Lemma frame_nonzero s T A f x : vm_ok s T A → frames s !! f = Some x → f_kpage x ≠ 0 ∧ frame_ok (f_kpage x).
Proof.
  intros H Hf. destruct (v_frame _ _ _ H f x Hf) as [Hu _].
  destruct (in_use_page _ _ _ _ (d_pages _ _ _ _ (r_dirs _ _ _ _ (v_mach _ _ _ H))) Hu) as (H1 & H2 & _ & H3 & _).
  unfold PHYS_BASE in *. split; [lia |]. by split_and!.
Qed.

(** Two pages in the same frame are the same. *)
Lemma same_kpage s T A t t' u u' pl pl' p p' :
  vm_ok s T A → spt_map s t !! u = Some pl → spt_map s t' !! u' = Some pl' →
  pages s !! pl = Some p → pages s !! pl' = Some p' → p_kpage p = p_kpage p' → p_kpage p ≠ 0 → pl = pl'.
Proof.
  intros H Ht Ht' Hp Hp' E Hn.
  assert (∀ t u pl p, spt_map s t !! u = Some pl → pages s !! pl = Some p → p_kpage p ≠ 0 →
    ∃ f x, frames s !! f = Some x ∧ f_page x = Some pl ∧ f_kpage x = p_kpage p) as Hfr.
  { intros t1 u1 pl1 p1 Ht1 Hp1 Hn1. unfold spt_map in Ht1. destruct (procs s !! t1) as [x1|] eqn:Ex; [| done].
    pose proof (v_placed _ _ _ H t1 u1 pl1 p1 x1) as Hpl. unfold spt_map in Hpl. rewrite Ex in Hpl.
    specialize (Hpl Ht1 Hp1 eq_refl). unfold placed in Hpl. rewrite decide_False in Hpl by done.
    destruct Hpl as [(f & x & Hf & Hx) _]. exists f, x. split; [done |]. split; [done |].
    destruct (v_frame_page _ _ _ H f x pl1 Hf Hx) as (p2 & Hp2 & Ek & _). congruence. }
  destruct (Hfr t u pl p Ht Hp Hn) as (f & x & Hf & Hx & Ek). destruct (Hfr t' u' pl' p' Ht' Hp' ltac:(congruence)) as (g & y & Hg & Hy & Ek').
  assert (f = g) as -> by (eapply (v_kpage _ _ _ H); [done | done | congruence]). congruence.
Qed.

(** The frame of a page in memory. *)
Lemma page_frame s T A t u pl p :
  vm_ok s T A → spt_map s t !! u = Some pl → pages s !! pl = Some p → p_kpage p ≠ 0 →
  ∃ f x, frames s !! f = Some x ∧ f_page x = Some pl ∧ f_kpage x = p_kpage p ∧ f_owner x = t ∧ f_upage x = u.
Proof.
  intros H Ht Hp Hn. pose proof Ht as Ht0. unfold spt_map in Ht0. destruct (procs s !! t) as [x1|] eqn:Ex; [| done].
  pose proof (v_placed _ _ _ H t u pl p x1 Ht Hp Ex) as Hpl. unfold placed in Hpl. rewrite decide_False in Hpl by done.
  destruct Hpl as [(f & x & Hf & Hx) _]. exists f, x.
  destruct (v_frame_page _ _ _ H f x pl Hf Hx) as (p2 & Hp2 & Ek & Eu & Hs). assert (p2 = p) as -> by congruence.
  destruct (v_spt _ _ _ H t u pl Ht) as (p3 & Hp3 & E3 & _). split_and!; try done; [| congruence].
  by eapply (v_inj _ _ _ H).
Qed.

Lemma frame_bytes_outside s m k :
  (∀ b, k ≤ b < k + 4096 → memory (pal m) !! b = memory (pal (mach s)) !! b) → frame_bytes (set_mach m s) k = frame_bytes s k.
Proof. intros H. apply bytes_from_same. intros b Hb. apply H. lia. Qed.

(** An operation on page tables leaves the frames alone. *)
Lemma step_frame p p' T A k :
  dirs_ok ram p' T A → dirs_step T p p' → in_use p true k →
  in_use p' true k ∧ ∀ b, k ≤ b < k + 4096 → memory p' !! b = memory p !! b.
Proof.
  intros Hd Hs Hk. pose proof (ds_use _ _ _ Hs _ _ Hk) as Hk'. split; [done |]. intros b Hb.
  apply (ds_mem _ _ _ Hs). intros pd o a Ho. unfold off_page, PGSIZE.
  pose proof (d_used _ _ _ _ Hd _ _ _ Ho) as Ha. destruct (pools_apart _ _ _ _ (d_pages _ _ _ _ Hd) Ha Hk'); lia.
Qed.

(** *** Changes of the machine only *)

(** A program's access may set the dirty bit of an entry. *)
Definition same_or_dirtied (o o' : option mapping) : Prop :=
  o' = o ∨ ∃ n, o = Some n ∧ o' = Some (PagedirThm.set_dirty true n).

Lemma placed_mach lost s A A' m pd pl p :
  (∀ v, same_or_dirtied (entry A pd v) (entry A' pd v)) →
  (p_kpage p ≠ 0 → Some pl ≠ lost → frame_bytes (set_mach m s) (p_kpage p) = frame_bytes s (p_kpage p)) →
  (Some pl = lost → ∀ n, entry A' pd (pg_no (p_upage p)) = Some n → m_dirty n = true) →
  placed s A pd pl p → placed (set_mach m s) A' pd pl p.
Proof.
  intros He Hb Hl. unfold placed. specialize (He (pg_no (p_upage p))). destruct (decide (p_kpage p = 0)) as [|Hn].
  - intros H n Hn. destruct He as [E|(n' & E & E')]; [apply H; by rewrite <-E |].
    rewrite E' in Hn. injection Hn as <-. apply (H n'). done.
  - intros [Hf (d & E & Hc)]. split; [done |]. destruct He as [E'|(n' & E1 & E')].
    + exists d. rewrite E'. split; [done |]. intros Hd Ht. destruct (decide (Some pl = lost)) as [El|Hne].
      * rewrite E', E in Hl. specialize (Hl El _ eq_refl). cbn in Hl. congruence.
      * rewrite (Hb Hn Hne). by apply Hc.
    + exists true. rewrite E', E in *. injection E1 as <-. done.
Qed.

Lemma vm_ok_change lost s T A T' A' m :
  vm_ok s T A → repr ram m T' A' →
  (∀ t x, procs s !! t = Some x → pagedir x ≠ 0 → is_Some (A !! pagedir x) →
    is_Some (A' !! pagedir x)) →
  (∀ t x v, procs s !! t = Some x → same_or_dirtied (entry A (pagedir x) v) (entry A' (pagedir x) v)) →
  (∀ f x, frames s !! f = Some x → in_use (pal m) true (f_kpage x) ∧
    (f_page x ≠ None → f_page x ≠ lost → frame_bytes (set_mach m s) (f_kpage x) = frame_bytes s (f_kpage x))) →
  (∀ t u pl p x n, lost = Some pl → spt_map s t !! u = Some pl → pages s !! pl = Some p → procs s !! t = Some x →
    entry A' (pagedir x) (pg_no (p_upage p)) = Some n → m_dirty n = true) →
  same_cpu (mach s) m →
  vm_ok (set_mach m s) T' A' ∧ preserves lost s (set_mach m s).
Proof.
  intros H Hr Hdom Hent Hfr Hdirty [Ec Ei].
  assert (∀ t u pl p, spt_map s t !! u = Some pl → pages s !! pl = Some p → p_kpage p ≠ 0 → Some pl ≠ lost →
    frame_bytes (set_mach m s) (p_kpage p) = frame_bytes s (p_kpage p)) as Hb.
  { intros t u pl p Ht Hp Hn Hl. destruct (page_frame _ _ _ _ _ _ _ H Ht Hp Hn) as (f & x & Hf & Hx & <- & _).
    apply Hfr in Hf as [_ Hf]. apply Hf; congruence. }
  split; [split; try apply H |].
  - done.
  - intros f x Hf. destruct (v_frame _ _ _ H f x Hf) as (_ & H2 & H3). split; [by eapply Hfr | done].
  - intros t x Ht. destruct (v_proc _ _ _ H t x Ht) as (H1 & H2 & H3). split; [done |]. split; [done |].
    intros Hn. destruct (H3 Hn) as [H4 H5]. split; [by eapply Hdom |]. cbn. by rewrite Ei.
  - intros t u pl Ht. destruct (v_spt _ _ _ H t u pl Ht) as (p & Hp & Hu & Hok). exists p. split; [done |]. split; [done |].
    destruct Hok. by split.
  - intros t u pl p x Ht Hp Hx. eapply (placed_mach lost); [intros; by eapply Hent | | | by eapply (v_placed _ _ _ H)].
    + by eapply Hb.
    + intros El n. by eapply Hdirty.
  - intros t x v y Ht Hv Hpr. destruct (Hent t x v Ht) as [E|(n & E & E')].
    + rewrite E in Hv. by eapply (v_mapped _ _ _ H).
    + rewrite E' in Hv. injection Hv as <-. by apply (v_mapped _ _ _ H t x v n).
  - destruct (v_running _ _ _ H) as (x & Hx & Ha). exists x. split; [done |].
    unfold active in *. cbn. by rewrite Ec, Ei.
  - split; [done | done |]. intros t u pl p Ht Hp. exists p. split_and!; try done. intros Hl. unfold value.
    destruct (Z.eqb_spec (p_kpage p) 0); [done |]. by eapply Hb.
Qed.

Lemma vm_ok_mach s T A T' A' m :
  vm_ok s T A → repr ram m T' A' →
  (∀ t x, procs s !! t = Some x → pagedir x ≠ 0 → is_Some (A !! pagedir x) →
    is_Some (A' !! pagedir x)) →
  (∀ t x v, procs s !! t = Some x → entry A' (pagedir x) v = entry A (pagedir x) v) →
  (∀ f x, frames s !! f = Some x → in_use (pal m) true (f_kpage x) ∧
    (f_page x ≠ None → frame_bytes (set_mach m s) (f_kpage x) = frame_bytes s (f_kpage x))) →
  same_cpu (mach s) m →
  vm_ok (set_mach m s) T' A' ∧ preserves None s (set_mach m s).
Proof.
  intros H Hr Hdom Hent Hfr Hc. apply (vm_ok_change None s T A T' A'); try done.
  - intros t x v Hx. left. by eapply Hent.
  - intros f x Hf. destruct (Hfr f x Hf) as [H1 H2]. split; [done |]. intros Hn _. by apply H2.
Qed.

(** Changes of accessed bits are of this kind. *)
Lemma entry_insert A pd v x y m : A !! pd = Some m → m !! v = Some x →
  PagedirThm.set_accessed false y = PagedirThm.set_accessed false x →
  ∀ pd' w, entry (<[pd := <[v := y]> m]> A) pd' w = entry A pd' w.
Proof.
  intros Ha Hv E pd' w. unfold entry. destruct (decide (pd' = pd)) as [-> |].
  - rewrite lookup_insert_eq, Ha. cbn [mbind option_bind]. destruct (decide (w = v)) as [-> |].
    + rewrite lookup_insert_eq, Hv. cbn. by rewrite E.
    + by rewrite lookup_insert_ne.
  - by rewrite lookup_insert_ne.
Qed.

Lemma vm_ok_step s T A T' A' m :
  vm_ok s T A → repr ram m T' A' →
  (∀ t x, procs s !! t = Some x → pagedir x ≠ 0 → is_Some (A !! pagedir x) → is_Some (A' !! pagedir x)) →
  (∀ t x v, procs s !! t = Some x → entry A' (pagedir x) v = entry A (pagedir x) v) →
  dirs_step T' (pal (mach s)) (pal m) → same_cpu (mach s) m →
  vm_ok (set_mach m s) T' A' ∧ preserves None s (set_mach m s).
Proof.
  intros H Hr Hdom Hent Hs Hc. apply (vm_ok_mach s T A T' A'); try done. intros f x Hf.
  destruct (v_frame _ _ _ H f x Hf) as [Hu _]. destruct (step_frame _ _ _ _ _ (r_dirs _ _ _ _ Hr) Hs Hu) as [Hu' Hb].
  split; [done |]. intros _. by apply frame_bytes_outside.
Qed.
End inv.

(** The contents of pages are compared by their names, not by computing 4096
    bytes. *)
#[global] Arguments backing : simpl never.
#[global] Arguments value : simpl never.
#[global] Arguments frame_bytes : simpl never.
#[global] Strategy 1000 [value backing frame_bytes page_at].
