(* ===== verification/VmEvict.v ===== *)
(** Eviction: the clock of [frame_evict], its victim, and what the victim's page
    holds afterwards. *)
From S2P Require Import Prelude Bytes Bitmap Hash CString CStringThm Words Vaddr Palloc PageMem Pagedir PagedirThm PagedirOps Block Swap Vm Page VmInv.
Local Open Scope Z_scope.

Lemma st_step_err {S A B} {m : ST S A} {s e} (f : A → ST S B) : m s = Err e → (m ≫= f) s = Err e.
Proof. unfold mbind, st_bind. by intros ->. Qed.

(** ** The order in which the clock visits the frames *)

Fixpoint from (x : loc) (l : list loc) : list loc :=
  match l with [] => [] | y :: r => if decide (y = x) then l else from x r end.

Fixpoint before (x : loc) (l : list loc) : list loc :=
  match l with [] => [] | y :: r => if decide (y = x) then [] else y :: before x r end.

Definition rotation (h : hand) (l : list loc) : list loc :=
  match h with HAt x => from x l ++ before x l | _ => l end.

Lemma before_from x l : before x l ++ from x l = l.
Proof. induction l as [|y l IH]; [done |]. cbn. case_decide; [done |]. cbn. by rewrite IH. Qed.

Lemma from_cons x l : x ∈ l → ∃ r, from x l = x :: r.
Proof.
  induction l as [|y l IH]; [by intros ?%not_elem_of_nil |]. cbn. case_decide; [subst; by eauto |].
  intros [?|Hx]%elem_of_cons; [congruence |]. by apply IH.
Qed.

Lemma rotation_elem h l x : x ∈ rotation h l ↔ x ∈ l.
Proof.
  destruct h; cbn; [done.. |]. rewrite <-(before_from f l) at 3. rewrite !elem_of_app. tauto.
Qed.

(** The first element of a list that passes a test. *)
Fixpoint first_of (test : loc → bool) (l : list loc) : option loc :=
  match l with [] => None | x :: l => if test x then Some x else first_of test l end.

Lemma first_of_app test l r :
  first_of test (l ++ r) = match first_of test l with Some x => Some x | None => first_of test r end.
Proof. induction l as [|x l IH]; [done |]. cbn. by destruct (test x). Qed.

Lemma first_of_ext test test' l : (∀ x, x ∈ l → test x = test' x) → first_of test l = first_of test' l.
Proof.
  induction l as [|x l IH]; [done |]. intros H. cbn. rewrite (H x), IH by (by left || (intros; apply H; by right)). done.
Qed.

Lemma first_of_None test l : first_of test l = None ↔ ∀ x, x ∈ l → test x = false.
Proof.
  induction l as [|y l IH]; cbn; [split; [by intros _ x ?%not_elem_of_nil | done] |].
  destruct (test y) eqn:Ey.
  - split; [done |]. intros H. rewrite (H y) in Ey by left. done.
  - rewrite IH. split; intros H x; [| intros Hx; apply H; by right].
    intros [->|Hx]%elem_of_cons; [done | by apply H].
Qed.

Lemma first_of_Some test l x : first_of test l = Some x →
  test x = true ∧ ∃ r, l = before x l ++ x :: r ∧ ∀ y, y ∈ before x l → test y = false.
Proof.
  induction l as [|y l IH]; cbn; [done |]. destruct (test y) eqn:Ey.
  - intros [= ->]. rewrite decide_True by done. split; [done |]. exists l. split; [done |].
    by intros z ?%not_elem_of_nil.
  - intros Hx. destruct (IH Hx) as (H1 & r & H2 & H3). split; [done |].
    rewrite decide_False by congruence. exists r. split; [cbn; by rewrite <-H2 |].
    intros z [->|Hz]%elem_of_cons; [done | by apply H3].
Qed.

Lemma hand_next_split p x r : x ∉ p → hand_next (p ++ x :: r) x = hand_begin r.
Proof.
  induction p as [|y p IH]; cbn; [by rewrite decide_True |].
  intros [? ?]%not_elem_of_cons. rewrite decide_False by congruence. by apply IH.
Qed.

Lemma hand_next_elem l x y : hand_next l x = HAt y → y ∈ l.
Proof.
  induction l as [|z l IH]; cbn; [done |]. case_decide.
  - destruct l as [|w l]; cbn; [done |]. intros [= ->]. right. by left.
  - intros H'. right. by apply IH.
Qed.

Section evict.
Context {D : Type} `{!Device D} `{!DeviceLaws D} {F : Type} `{!FileStore F} `{!FileStoreLaws F}.
Context (ram : Z).
Implicit Types s : vm D F.

(** May the frame be evicted, and has its page been used since the clock last
    came by? *)
Definition evictable s (x : loc) : bool :=
  match frames s !! x with Some f => negb (f_pinned f) && bool_decide (f_page f ≠ None) | None => false end.

Definition frame_slot s (x : loc) : option (Z * Z) :=
  f ← frames s !! x; t ← procs s !! f_owner f; Some (pagedir t, pg_no (f_upage f)).

Definition accessed s (A : spaces) (x : loc) : bool :=
  match frame_slot s x with
  | Some (pd, v) => match A !! pd ≫= λ a, a !! v with Some m => m_accessed m | None => false end
  | None => false
  end.

(** The second-chance rule: the first frame from the hand on whose page was not
    used, or else the first that may be evicted at all. *)
Definition second_chance s (A : spaces) : option loc :=
  let order := rotation (Clock_hand s) (Frame_list s) in
  match first_of (λ x, evictable s x && negb (accessed s A x)) order with
  | Some x => Some x
  | None => first_of (evictable s) order
  end.

(** The frames that get their second chance. *)
Definition passed s (A : spaces) : list loc :=
  let order := rotation (Clock_hand s) (Frame_list s) in
  match first_of (λ x, evictable s x && negb (accessed s A x)) order with Some x => before x order | None => order end.

(** *** A page in memory *)

Record resident s (A : spaces) (f : frame) (pl : loc) (p : page) (t : proc) (a : gmap Z mapping) (m : mapping) : Prop := {
  rs_page : pages s !! pl = Some p;
  rs_kpage : p_kpage p = f_kpage f;
  rs_upage : p_upage p = f_upage f;
  rs_spt : spt_map s (f_owner f) !! f_upage f = Some pl;
  rs_proc : procs s !! f_owner f = Some t;
  rs_pd : pagedir t ≠ 0 ∧ pagedir t ≠ init_page_dir (mach s);
  rs_dir : A !! pagedir t = Some a;
  rs_map : a !! pg_no (f_upage f) = Some m;
  rs_mapping : set_accessed false m = Mapping (f_kpage f) true (p_writable p) false (m_dirty m);
  rs_clean : m_dirty m = false → p_type p ≠ PAGE_ANON → frame_bytes s (f_kpage f) = backing s p;
  rs_ok : page_ok s p;
  rs_addr : 0 ≤ f_upage f < PHYS_BASE ∧ f_upage f `mod` 4096 = 0;
}.

Lemma frame_resident s T A x f pl :
  vm_ok ram s T A → frames s !! x = Some f → f_page f = Some pl →
  ∃ p t a m, resident s A f pl p t a m.
Proof.
  intros H Hf Hp. destruct (v_frame_page _ _ _ _ H x f pl Hf Hp) as (p & Hpl & Ek & Eu & Hs).
  destruct (v_spt _ _ _ _ H _ _ _ Hs) as (p' & Hp' & Hu & Hok). assert (p' = p) as -> by congruence.
  pose proof Hs as Hs0. unfold spt_map in Hs0. destruct (procs s !! f_owner f) as [t|] eqn:Et; [| done].
  destruct (frame_nonzero _ _ _ _ _ _ H Hf) as [Hk _].
  pose proof (v_placed _ _ _ _ H _ _ _ _ _ Hs Hpl Et) as Hpla. unfold placed in Hpla. rewrite decide_False in Hpla by congruence.
  destruct Hpla as [_ (d & He & Hc)]. unfold entry in He.
  destruct (A !! pagedir t) as [a|] eqn:Ea; [| done]. cbn [mbind option_bind] in He. rewrite Eu in He.
  destruct (a !! pg_no (f_upage f)) as [m|] eqn:Em; [| done]. cbn in He. injection He as He1 He2 He3 He4.
  destruct (v_proc _ _ _ _ H _ _ Et) as (_ & H0 & Hn). assert (pagedir t ≠ 0) as Hpd.
  { intros E. rewrite (H0 E) in Hs. by rewrite lookup_empty in Hs. }
  exists p, t, a, m. split; try done.
  - by rewrite <-Eu.
  - split; [done |]. by apply Hn.
  - unfold set_accessed. rewrite He1, He2, He3, Ek. done.
  - intros Ed. rewrite <-Ek. apply Hc. congruence.
  - rewrite <-Eu. by destruct Hok.
Qed.

Lemma evictable_frame s x : evictable s x = true → ∃ f pl, frames s !! x = Some f ∧ f_page f = Some pl ∧ f_pinned f = false.
Proof.
  unfold evictable. destruct (frames s !! x) as [f|]; [| done]. intros [H1 H2%bool_decide_eq_true]%andb_prop.
  destruct (f_page f) as [pl|] eqn:E; [| done]. exists f, pl. split_and!; try done. by destruct (f_pinned f).
Qed.

Lemma accessed_resident s A x f pl p t a m :
  frames s !! x = Some f → resident s A f pl p t a m → accessed s A x = m_accessed m.
Proof.
  intros Hf H. unfold accessed, frame_slot. rewrite Hf. cbn [mbind option_bind]. rewrite (rs_proc _ _ _ _ _ _ _ _ H).
  cbn [mbind option_bind]. rewrite (rs_dir _ _ _ _ _ _ _ _ H). cbn [mbind option_bind].
  by rewrite (rs_map _ _ _ _ _ _ _ _ H).
Qed.

(** Two frames with pages are mapped at different places. *)
Lemma frame_slot_inj s T A x y f g pl pl' :
  vm_ok ram s T A → frames s !! x = Some f → frames s !! y = Some g → f_page f = Some pl → f_page g = Some pl' →
  frame_slot s x = frame_slot s y → x = y.
Proof.
  intros H Hf Hg Hp Hp' E. destruct (frame_resident _ _ _ _ _ _ H Hf Hp) as (p & t & a & m & R).
  destruct (frame_resident _ _ _ _ _ _ H Hg Hp') as (p' & t' & a' & m' & R').
  unfold frame_slot in E. rewrite Hf, Hg in E. cbn [mbind option_bind] in E.
  rewrite (rs_proc _ _ _ _ _ _ _ _ R), (rs_proc _ _ _ _ _ _ _ _ R') in E. cbn [mbind option_bind] in E.
  injection E as Epd Ev.
  assert (f_owner f = f_owner g) as Eo.
  { eapply (v_dirs _ _ _ _ H); [apply R | apply R' | done | apply R]. }
  assert (f_upage f = f_upage g) as Eu.
  { destruct (rs_addr _ _ _ _ _ _ _ _ R) as [H1 H2], (rs_addr _ _ _ _ _ _ _ _ R') as [H3 H4].
    rewrite !pg_no_eq in Ev. Z.to_euclidean_division_equations. lia. }
  eapply (v_kpage _ _ _ _ H); [done | done |].
  pose proof (rs_spt _ _ _ _ _ _ _ _ R) as S1. pose proof (rs_spt _ _ _ _ _ _ _ _ R') as S2.
  rewrite Eo, Eu in S1. assert (pl' = pl) as -> by congruence.
  pose proof (rs_page _ _ _ _ _ _ _ _ R). pose proof (rs_page _ _ _ _ _ _ _ _ R'). assert (p' = p) as -> by congruence.
  by rewrite <-(rs_kpage _ _ _ _ _ _ _ _ R), <-(rs_kpage _ _ _ _ _ _ _ _ R').
Qed.
(** *** One pass of the clock *)

Lemma vm_ok_hand s T A h :
  vm_ok ram s T A → (∀ f, h = HAt f → f ∈ Frame_list s) → vm_ok ram (set_hand h s) T A ∧ preserves None s (set_hand h s).
Proof.
  intros H Hh. split.
  - split; try apply H; [exact Hh |]. intros t u pl Ht. destruct (v_spt _ _ _ _ H t u pl Ht) as (p & Hp & Hu & Hok).
    exists p. split; [done |]. split; [done |]. destruct Hok. by split.
  - split; [done | done |]. intros t u pl p _ Hp. by exists p.
Qed.

(** From [s] to [s'] the clock gave the frames of [q] their second chance. *)
Record scanned (q : list loc) s (A : spaces) s' (A' : spaces) (T : tables) : Prop := {
  sc_ok : vm_ok ram s' T A';
  sc_preserves : preserves None s s';
  sc_only : ∃ m h, s' = set_mach m (set_hand h s);
  sc_step : dirs_step T (pal (mach s)) (pal (mach s'));
  sc_cpu : same_cpu (mach s) (mach s');
  sc_bits y : evictable s y = true → accessed s' A' y = if decide (y ∈ q) then false else accessed s A y;
}.

Lemma scanned_evictable q s A s' A' T y : scanned q s A s' A' T → evictable s' y = evictable s y.
Proof. intros H. by destruct (sc_only _ _ _ _ _ _ H) as (m & h & ->). Qed.

Lemma scanned_trans q r s1 A1 s2 A2 s3 A3 T :
  scanned q s1 A1 s2 A2 T → scanned r s2 A2 s3 A3 T → scanned (q ++ r) s1 A1 s3 A3 T.
Proof.
  intros H1 H2.
  split; [apply H2 | eapply preserves_trans; [apply H1 | apply H2] | | eapply dirs_step_trans; [apply H1 | apply H2] | |].
  - destruct (sc_only _ _ _ _ _ _ H1) as (m & h & ->), (sc_only _ _ _ _ _ _ H2) as (m' & h' & ->). by exists m', h'.
  - destruct (sc_cpu _ _ _ _ _ _ H1), (sc_cpu _ _ _ _ _ _ H2). split; congruence.
  - intros y Hy. rewrite (sc_bits _ _ _ _ _ _ H2) by (by rewrite (scanned_evictable _ _ _ _ _ _ _ H1)).
    rewrite (sc_bits _ _ _ _ _ _ H1) by done. destruct (decide (y ∈ q)); repeat case_decide; set_solver.
Qed.

Lemma scanned_mono q r s A s' A' T :
  (∀ y, evictable s y = true → (y ∈ q ↔ y ∈ r)) → scanned q s A s' A' T → scanned r s A s' A' T.
Proof.
  intros E H. split; try apply H. intros y Hy. rewrite (sc_bits _ _ _ _ _ _ H) by done.
  destruct (decide (y ∈ q)) as [Hq|Hq], (decide (y ∈ r)) as [Hr|Hr]; try done; exfalso; [by apply Hr, E | by apply Hq, E].
Qed.

Lemma scanned_hand s T A h :
  vm_ok ram s T A → (∀ f, h = HAt f → f ∈ Frame_list s) → scanned [] s A (set_hand h s) A T.
Proof.
  intros H Hh. destruct (vm_ok_hand s T A h H Hh) as [H1 H2].
  split; [done | done | | apply dirs_step_refl | done |].
  - exists (mach s), h. by destruct s.
  - intros y _. done.
Qed.

(** Clearing the accessed bit of a frame's page. *)
Lemma clear_accessed s T A x f pl :
  vm_ok ram s T A → frames s !! x = Some f → f_page f = Some pl →
  ∃ t m A', procs s !! f_owner f = Some t ∧
    on_mach (pagedir_set_accessed (pagedir t) (f_upage f) false) s = Ok (tt, set_mach m s) ∧
    scanned [x] s A (set_mach m s) A' T.
Proof.
  intros H Hf Hp. destruct (frame_resident _ _ _ _ _ _ H Hf Hp) as (p & t & a & m & R).
  pose proof (rs_dir _ _ _ _ _ _ _ _ R) as Ha. pose proof (rs_map _ _ _ _ _ _ _ _ R) as Hm.
  destruct (pagedir_set_accessed_ok (mach s) T A (pagedir t) a (f_upage f) m false (v_mach _ _ _ _ H) Ha)
    as (m' & E & Hr & Hd & Hc); [apply R | done |].
  set (A' := <[pagedir t := <[pg_no (f_upage f) := set_accessed false m]> a]> A) in *.
  exists t, m', A'. split; [apply R |]. split; [unfold on_mach; by rewrite E |].
  destruct (vm_ok_step ram s T A T A' m') as [H1 H2]; try done.
  - intros u y Hu Hy Hs. destruct (decide (pagedir y = pagedir t)) as [->|]; unfold A';
      [rewrite lookup_insert_eq; eauto | by rewrite lookup_insert_ne].
  - intros u y v _. by apply (entry_insert A _ _ m).
  - split; [done | done | by exists m', (Clock_hand s); destruct s | done | done |].
    intros y Hy. destruct (evictable_frame _ _ Hy) as (g & pl' & Hg & Hpl' & _).
    destruct (frame_resident _ _ _ _ _ _ H Hg Hpl') as (p' & t' & a' & n & R').
    destruct (frame_resident _ _ _ _ _ _ H1 Hg Hpl') as (p'' & t'' & a'' & n'' & R'').
    rewrite (accessed_resident (set_mach m' s) _ _ _ _ _ _ _ _ Hg R''), (accessed_resident _ _ _ _ _ _ _ _ _ Hg R').
    pose proof (rs_proc _ _ _ _ _ _ _ _ R') as P'. pose proof (rs_proc _ _ _ _ _ _ _ _ R'') as P''. cbn in P''.
    assert (t'' = t') as -> by congruence.
    pose proof (rs_dir _ _ _ _ _ _ _ _ R'') as Ha''. pose proof (rs_map _ _ _ _ _ _ _ _ R'') as Hm''.
    case_decide as Hin.
    + apply list_elem_of_singleton in Hin as ->. assert (g = f) as -> by congruence. pose proof (rs_proc _ _ _ _ _ _ _ _ R).
      assert (t' = t) as -> by congruence. unfold A' in Ha''. rewrite lookup_insert_eq in Ha''. injection Ha'' as <-.
      rewrite lookup_insert_eq in Hm''. by injection Hm'' as <-.
    + pose proof (rs_dir _ _ _ _ _ _ _ _ R') as Ha'. pose proof (rs_map _ _ _ _ _ _ _ _ R') as Hm'.
      unfold A' in Ha''. destruct (decide (pagedir t = pagedir t')) as [Ep|Hn].
      * rewrite Ep, lookup_insert_eq in Ha''. injection Ha'' as <-. rewrite Ep in Ha. assert (a' = a) as -> by congruence.
        destruct (decide (pg_no (f_upage f) = pg_no (f_upage g))) as [Ev|].
        -- destruct Hin. apply list_elem_of_singleton. eapply (frame_slot_inj s T A); try done.
           unfold frame_slot. rewrite Hf, Hg. cbn [mbind option_bind]. rewrite P', (rs_proc _ _ _ _ _ _ _ _ R).
           cbn. by rewrite Ep, Ev.
        -- rewrite lookup_insert_ne in Hm'' by done. congruence.
      * rewrite lookup_insert_ne in Ha'' by done. congruence.
Qed.

Lemma read_accessed s T A x f pl :
  vm_ok ram s T A → frames s !! x = Some f → f_page f = Some pl →
  ∃ t, procs s !! f_owner f = Some t ∧
    on_mach (pagedir_is_accessed (pagedir t) (f_upage f)) s = Ok (accessed s A x, s).
Proof.
  intros H Hf Hp. destruct (frame_resident _ _ _ _ _ _ H Hf Hp) as (p & t & a & m & R).
  exists t. split; [apply R |]. unfold on_mach.
  rewrite (pagedir_is_accessed_ok (mach s) T A (pagedir t) a (f_upage f) (v_mach _ _ _ _ H)) by apply R.
  rewrite (rs_map _ _ _ _ _ _ _ _ R), (accessed_resident _ _ _ _ _ _ _ _ _ Hf R). by destruct s.
Qed.

Lemma get_frame_ok s x f : frames s !! x = Some f → get_frame x s = Ok (f, s).
Proof. intros E. unfold get_frame. rewrite st_get_step, E. done. Qed.

Lemma get_pg_ok s x p : pages s !! x = Some p → get_pg x s = Ok (p, s).
Proof. intros E. unfold get_pg. rewrite st_get_step, E. done. Qed.

Lemma get_proc_ok s x t : procs s !! x = Some t → get_proc x s = Ok (t, s).
Proof. intros E. unfold get_proc. rewrite st_get_step, E. done. Qed.

(** One turn of the loop, the hand at frame [x]. *)
Lemma evict_turn s T A x :
  vm_ok ram s T A → Clock_hand s = HAt x →
  let next := hand_next (Frame_list s) x in
  if evictable s x && negb (accessed s A x) then ∀ n, evict_loop (S n) s = Ok (Some x, set_hand next s)
  else ∃ s' A', (∀ n, evict_loop (S n) s = evict_loop n s') ∧ scanned [x] s A s' A' T ∧ Clock_hand s' = next.
Proof.
  intros H Hh next. pose proof (v_hand _ _ _ _ H _ Hh) as Hx. apply (v_dom _ _ _ _ H) in Hx as [f Hf].
  assert (∀ f, next = HAt f → f ∈ Frame_list s) as Hnext by (intros g; apply hand_next_elem).
  pose proof (scanned_hand s T A next H Hnext) as Hsc. set (s1 := set_hand next s) in *.
  assert (∀ n, evict_loop (S n) s =
    (if f_pinned f || bool_decide (f_page f = None) then evict_loop n
     else t ← get_proc (f_owner f); c ← on_mach (pagedir_is_accessed (pagedir t) (f_upage f));
       if (c : bool) then on_mach (pagedir_set_accessed (pagedir t) (f_upage f) false);; evict_loop n else mret (Some x)) s1) as E.
  { intros n. cbn [evict_loop]. rewrite st_get_step, Hh.
    assert (st_modify (set_hand (HAt x)) s = Ok (tt, s)) as Em by (rewrite <-Hh; by destruct s).
    rewrite (st_step _ Em), (st_step _ (get_frame_ok s x f Hf)).
    assert (st_modify (set_hand (hand_next (Frame_list s) x)) s = Ok (tt, s1)) as En by done. by rewrite (st_step _ En). }
  assert (evictable s x = negb (f_pinned f || bool_decide (f_page f = None))) as Ee.
  { unfold evictable. rewrite Hf, negb_orb. destruct (f_page f); done. }
  destruct (f_pinned f || bool_decide (f_page f = None)) eqn:Ep.
  - rewrite Ee. cbn [negb andb]. exists s1, A. split; [done |]. split; [| done].
    eapply scanned_mono; [| exact Hsc]. intros y Hy. split; [by intros ?%not_elem_of_nil |].
    intros ->%list_elem_of_singleton. rewrite Ee in Hy. done.
  - rewrite Ee. cbn [negb andb]. apply orb_false_elim in Ep as [_ Ep%bool_decide_eq_false].
    destruct (f_page f) as [pl|] eqn:Epl; [| done].
    destruct (read_accessed s1 T A x f pl (sc_ok _ _ _ _ _ _ Hsc) Hf Epl) as (t & Ht & Er).
    change (accessed s1 A x) with (accessed s A x) in Er.
    destruct (accessed s A x) eqn:Eacc; cbn [negb].
    + destruct (clear_accessed s1 T A x f pl (sc_ok _ _ _ _ _ _ Hsc) Hf Epl) as (t' & m & A' & Ht' & Ec & Hsc').
      assert (t' = t) as -> by congruence.
      exists (set_mach m s1), A'. split; [| split; [| done]].
      * intros n. rewrite E, (st_step _ (get_proc_ok s1 _ t Ht)), (st_step _ Er), (st_step _ Ec). done.
      * exact (scanned_trans [] [x] _ _ _ _ _ _ _ Hsc Hsc').
    + intros n. by rewrite E, (st_step _ (get_proc_ok s1 _ t Ht)), (st_step _ Er).
Qed.
Definition unused s (A : spaces) (x : loc) : bool := evictable s x && negb (accessed s A x).

(** The hand passes over [q], or stops there at the first page not used. *)
Lemma evict_scan q p r s T A :
  vm_ok ram s T A → Frame_list s = p ++ q ++ r → Clock_hand s = hand_begin (q ++ r) →
  match first_of (unused s A) q with
  | Some x => ∃ s' A', (∀ m, evict_loop (length q + m) s = Ok (Some x, s')) ∧ scanned (before x q) s A s' A' T
  | None => ∃ s' A', (∀ m, evict_loop (length q + m) s = evict_loop m s') ∧ scanned q s A s' A' T ∧
      Clock_hand s' = hand_begin r
  end.
Proof.
  revert p s A. induction q as [|x q IH]; intros p s A H El Eh.
  - exists s, A. split; [done |]. split; [| done].
    replace s with (set_hand (Clock_hand s) s) at 2 by (by destruct s). apply scanned_hand; [done | apply H].
  - cbn [app hand_begin] in Eh. pose proof (v_list _ _ _ _ H) as Hnd. rewrite El in Hnd.
    apply NoDup_app in Hnd as (_ & Hp & Hq). cbn [app] in Hq. apply NoDup_cons in Hq as [Hxq Hq].
    assert (x ∉ p) as Hxp by (intros Hx; apply (Hp x Hx); left).
    pose proof (evict_turn s T A x H Eh) as Ht. cbv zeta in Ht.
    rewrite El in Ht. cbn [app] in Ht. rewrite hand_next_split in Ht by done.
    cbn [first_of]. unfold unused at 1. destruct (evictable s x && negb (accessed s A x)) eqn:Ex.
    + exists (set_hand (hand_begin (q ++ r)) s), A. split; [intros m; apply Ht |].
      cbn [before]. rewrite decide_True by done. apply scanned_hand; [done |]. intros f Hf.
      rewrite El. change ((x :: q) ++ r) with (x :: (q ++ r)). destruct (q ++ r) as [|y l]; [done |].
      injection Hf as ->. apply elem_of_app. right. right. left.
    + destruct Ht as (s1 & A1 & Et & Hsc & Eh1).
      assert (Frame_list s1 = (p ++ [x]) ++ q ++ r) as El1.
      { destruct (sc_only _ _ _ _ _ _ Hsc) as (m & h & ->). cbn. rewrite El, <-app_assoc. done. }
      pose proof (IH _ s1 A1 (sc_ok _ _ _ _ _ _ Hsc) El1 Eh1) as IH1.
      assert (first_of (unused s1 A1) q = first_of (unused s A) q) as Ef.
      { apply first_of_ext. intros y Hy. unfold unused.
        rewrite (scanned_evictable _ _ _ _ _ _ _ Hsc). destruct (evictable s y) eqn:Ey; [| done].
        rewrite (sc_bits _ _ _ _ _ _ Hsc) by done. rewrite decide_False; [done |].
        intros ->%list_elem_of_singleton. by apply Hxq, elem_of_app; left. }
      rewrite Ef in IH1. destruct (first_of (unused s A) q) as [y|] eqn:Ey.
      * destruct IH1 as (s2 & A2 & E2 & Hsc2). exists s2, A2. split; [intros m; cbn [length Nat.add]; by rewrite Et |].
        cbn [before]. rewrite decide_False; [by apply (scanned_trans [x] (before y q) s A s1 A1) |].
        intros ->. apply first_of_Some in Ey as (_ & l & Ey & _). apply Hxq, elem_of_app. left. rewrite Ey. apply elem_of_app. right. left.
      * destruct IH1 as (s2 & A2 & E2 & Hsc2 & Eh2). exists s2, A2. split; [intros m; cbn [length Nat.add]; by rewrite Et |].
        split; [by apply (scanned_trans [x] q s A s1 A1) | done].
Qed.

(** A hand that points nowhere starts at the front. *)
Lemma evict_wrap s n : (Clock_hand s = HNull ∨ Clock_hand s = HEnd) →
  evict_loop (S n) s = evict_loop (S n) (set_hand (hand_begin (Frame_list s)) s).
Proof.
  intros H. cbn [evict_loop]. rewrite !st_get_step. destruct H as [-> | ->]; cbn [Clock_hand set_hand];
    destruct (Frame_list s) as [|y l] eqn:El; cbn; by rewrite El.
Qed.

(** The whole list from its front. *)
Lemma evict_front s T A :
  vm_ok ram s T A → (Clock_hand s = HNull ∨ Clock_hand s = HEnd) →
  ∀ l r, Frame_list s = l ++ r →
  match first_of (unused s A) l with
  | Some x => ∃ s' A', (∀ m, evict_loop (length l + m) s = Ok (Some x, s')) ∧ scanned (before x l) s A s' A' T
  | None => l ≠ [] → ∃ s' A', (∀ m, evict_loop (length l + m) s = evict_loop m s') ∧ scanned l s A s' A' T ∧
      Clock_hand s' = hand_begin r
  end.
Proof.
  intros H Hh l r El. set (s1 := set_hand (hand_begin (Frame_list s)) s).
  assert (∀ f, hand_begin (Frame_list s) = HAt f → f ∈ Frame_list s) as Hb.
  { intros f. destruct (Frame_list s); [done |]. intros [= ->]. left. }
  pose proof (scanned_hand s T A _ H Hb) as Hsc. fold s1 in Hsc.
  pose proof (evict_scan l [] r s1 T A (sc_ok _ _ _ _ _ _ Hsc) El) as Hs. cbn [Clock_hand] in Hs.
  specialize (Hs (f_equal hand_begin El)). change (unused s1 A) with (unused s A) in Hs.
  destruct l as [|y l]; [by intros [] |].
  assert (∀ m, evict_loop (length (y :: l) + m) s = evict_loop (length (y :: l) + m) s1) as Ew by (intros m; by apply evict_wrap).
  destruct (first_of (unused s A) (y :: l)) as [x|].
  - destruct Hs as (s2 & A2 & E & H2). exists s2, A2. split; [intros m; by rewrite Ew |].
    exact (scanned_trans [] _ _ _ _ _ _ _ _ Hsc H2).
  - intros _. destruct Hs as (s2 & A2 & E & H2 & Eh). exists s2, A2. split; [intros m; by rewrite Ew |]. split; [| done].
    exact (scanned_trans [] _ _ _ _ _ _ _ _ Hsc H2).
Qed.
Lemma before_app_notin x q p : x ∉ q → before x (q ++ p) = q ++ before x p.
Proof.
  induction q as [|y q IH]; [done |]. intros [Hx Hq]%not_elem_of_cons. cbn. rewrite decide_False by congruence.
  by rewrite IH.
Qed.

Lemma before_app_in x q p : x ∈ q → before x (q ++ p) = before x q.
Proof.
  induction q as [|y q IH]; [by intros ?%not_elem_of_nil |]. intros Hx. cbn. case_decide; [done |].
  apply elem_of_cons in Hx as [?|Hx]; [congruence |]. by rewrite IH.
Qed.

Lemma first_of_elem test l x : first_of test l = Some x → x ∈ l.
Proof. intros (_ & r & -> & _)%first_of_Some. apply elem_of_app. right. left. Qed.

(** Once around. *)
Lemma evict_round s T A :
  vm_ok ram s T A → let o := rotation (Clock_hand s) (Frame_list s) in
  match first_of (unused s A) o with
  | Some x => ∃ s' A', (∀ m, evict_loop (length o + m) s = Ok (Some x, s')) ∧ scanned (before x o) s A s' A' T
  | None => o ≠ [] → ∃ s' A', (∀ m, evict_loop (length o + m) s = evict_loop m s') ∧ scanned o s A s' A' T ∧
      rotation (Clock_hand s') (Frame_list s') = o
  end.
Proof.
  intros H o. assert (∀ q s' A', scanned q s A s' A' T → Frame_list s' = Frame_list s) as Hl.
  { intros q s' A' Hs. by destruct (sc_only _ _ _ _ _ _ Hs) as (m & h & ->). }
  destruct (Clock_hand s) as [| |x] eqn:Eh.
  1, 2: pose proof (evict_front s T A H ltac:(auto) (Frame_list s) [] ltac:(by rewrite app_nil_r)) as Hr;
    change (Frame_list s) with o in Hr; destruct (first_of (unused s A) o); [exact Hr |]; intros Hne;
    destruct (Hr Hne) as (s' & A' & E & Hs & Eh'); exists s', A'; split; [exact E |]; split; [exact Hs |];
    rewrite (Hl _ _ _ Hs), Eh'; done.
  pose proof (v_hand _ _ _ _ H _ Eh) as Hx. pose proof (before_from x (Frame_list s)) as El.
  destruct (from_cons x _ Hx) as [r Er]. set (q := from x (Frame_list s)) in *. set (p := before x (Frame_list s)) in *.
  change o with (q ++ p). clear o.
  pose proof (evict_scan q p [] s T A H ltac:(by rewrite app_nil_r)) as Hr. rewrite app_nil_r in Hr.
  specialize (Hr ltac:(by rewrite Eh, Er)). rewrite first_of_app, length_app.
  assert (∀ y, y ∈ p → y ∉ q) as Hpq.
  { pose proof (v_list _ _ _ _ H) as Hnd. rewrite <-El in Hnd. apply NoDup_app in Hnd as (_ & Hd & _). exact Hd. }
  destruct (first_of (unused s A) q) as [y|] eqn:Ey.
  - destruct Hr as (s1 & A1 & E1 & Hs1). exists s1, A1. split; [intros m; by rewrite <-Nat.add_assoc |].
    by rewrite before_app_in by by eapply first_of_elem.
  - destruct Hr as (s1 & A1 & E1 & Hs1 & Eh1).
    pose proof (evict_front s1 T A1 (sc_ok _ _ _ _ _ _ Hs1) ltac:(by right) p q ltac:(by rewrite (Hl _ _ _ Hs1))) as Hf.
    assert (first_of (unused s1 A1) p = first_of (unused s A) p) as Ef.
    { apply first_of_ext. intros y Hy. unfold unused. rewrite (scanned_evictable _ _ _ _ _ _ _ Hs1).
      destruct (evictable s y) eqn:Ee; [| done]. rewrite (sc_bits _ _ _ _ _ _ Hs1) by done.
      by rewrite decide_False by auto. }
    rewrite Ef in Hf. destruct (first_of (unused s A) p) as [y|] eqn:Ey'.
    + destruct Hf as (s2 & A2 & E2 & Hs2). exists s2, A2. split; [intros m; by rewrite <-Nat.add_assoc, E1 |].
      rewrite before_app_notin by (apply Hpq; by eapply first_of_elem).
      by apply (scanned_trans q _ s A s1 A1).
    + intros _. destruct p as [|z p'] eqn:Ep.
      * exists s1, A1. split; [intros m; rewrite <-Nat.add_assoc; apply E1 |]. rewrite app_nil_r. split; [done |].
        rewrite (Hl _ _ _ Hs1), Eh1. by rewrite <-El.
      * destruct Hf as (s2 & A2 & E2 & Hs2 & Eh2); [done |]. exists s2, A2.
        pose proof (scanned_trans q _ s A s1 A1 _ _ _ Hs1 Hs2) as Hs3. split; [intros m; by rewrite <-Nat.add_assoc, E1 |].
        split; [done |]. rewrite (Hl _ _ _ Hs3), Eh2, Er. cbn [hand_begin rotation].
        change (from x (Frame_list s) ++ before x (Frame_list s) = (x :: r) ++ z :: p'). by rewrite <-Er, <-Ep.
Qed.

(** The loop of [frame_evict] follows the second-chance rule. *)
Lemma evict_loop_ok s T A :
  vm_ok ram s T A →
  ∃ s' A', evict_loop (2 * length (Frame_list s)) s = Ok (second_chance s A, s') ∧ scanned (passed s A) s A s' A' T.
Proof.
  intros H. pose proof (evict_round s T A H) as H1. cbv zeta in H1.
  unfold second_chance, passed. fold (unused s A). set (o := rotation (Clock_hand s) (Frame_list s)) in *.
  assert (length (Frame_list s) = length o) as El.
  { subst o. destruct (Clock_hand s); [done.. |]. cbn [rotation]. rewrite <-(before_from f (Frame_list s)) at 1.
    rewrite !length_app. lia. }
  rewrite El. replace (2 * length o)%nat with (length o + length o)%nat by lia.
  destruct (first_of (unused s A) o) as [x|]; [destruct H1 as (s' & A' & E & Hs); by exists s', A' |].
  destruct (decide (o = [])) as [Eo|Hn].
  { rewrite Eo. exists (set_hand (Clock_hand s) s), A. split; [by destruct s |]. apply scanned_hand; [done | apply H]. }
  destruct (H1 Hn) as (s1 & A1 & E1 & Hs1 & Eo1).
  pose proof (evict_round s1 T A1 (sc_ok _ _ _ _ _ _ Hs1)) as H2. cbv zeta in H2. rewrite Eo1 in H2.
  assert (first_of (unused s1 A1) o = first_of (evictable s) o) as Ef.
  { apply first_of_ext. intros y Hy. unfold unused. rewrite (scanned_evictable _ _ _ _ _ _ _ Hs1).
    destruct (evictable s y) eqn:Ee; [| done]. rewrite (sc_bits _ _ _ _ _ _ Hs1) by done. by rewrite decide_True. }
  rewrite Ef in H2. rewrite E1. destruct (first_of (evictable s) o) as [x|] eqn:Ex.
  - destruct H2 as (s2 & A2 & E2 & Hs2). exists s2, A2. rewrite <-(Nat.add_0_r (length o)), E2. split; [done |].
    eapply scanned_mono; [| by eapply scanned_trans]. intros y Hy. rewrite elem_of_app. split; [| by left].
    intros [?|Hb]; [done |]. destruct (first_of_Some _ _ _ Ex) as (_ & r & _ & Hno). by rewrite Hno in Hy.
  - destruct (H2 Hn) as (s2 & A2 & E2 & Hs2 & _). exists s2, A2. rewrite <-(Nat.add_0_r (length o)), E2. split; [done |].
    eapply scanned_mono; [| by eapply scanned_trans]. intros y Hy. rewrite elem_of_app. tauto.
Qed.

(** The loop leaves the list alone, and the hand behind the victim. *)
Lemma evict_loop_hand n s x s' :
  evict_loop n s = Ok (Some x, s') → Frame_list s' = Frame_list s ∧ Clock_hand s' = hand_next (Frame_list s) x.
Proof.
  revert s. induction n as [|n IH]; intros s; [done |]. cbn [evict_loop]. rewrite st_get_step.
  set (h := match Clock_hand s with HNull | HEnd => hand_begin (Frame_list s) | h => h end).
  assert (st_modify (set_hand h) s = Ok (tt, set_hand h s)) as E0 by done. rewrite (st_step _ E0).
  destruct h as [| |y]; [done.. |]. unfold get_frame. rewrite st_assoc, st_get_step.
  change (frames (set_hand (HAt y) s)) with (frames s).
  destruct (frames s !! y) as [f|]; [| done]. rewrite (st_lift_step _ f) by done.
  set (s1 := set_hand (hand_next (Frame_list s) y) (set_hand (HAt y) s)).
  assert (st_modify (set_hand (hand_next (Frame_list s) y)) (set_hand (HAt y) s) = Ok (tt, s1)) as E1 by done.
  rewrite (st_step _ E1). destruct (f_pinned f || _); [intros E; by apply IH in E |].
  unfold get_proc. rewrite st_assoc, st_get_step.
  destruct (procs s1 !! f_owner f) as [t|]; [| done]. rewrite (st_lift_step _ t) by done.
  unfold mbind at 1, st_bind at 1, on_mach.
  match goal with |- context [pagedir_is_accessed ?a ?b ?c] => destruct (pagedir_is_accessed a b c) as [[c' m]|] end; [| done].
  destruct c'; [| by intros [= <- <-]].
  unfold mbind, st_bind.
  match goal with |- context [pagedir_set_accessed ?a ?b ?c ?d] => destruct (pagedir_set_accessed a b c d) as [[[] m']|] end; [| done].
  intros E. by apply IH in E.
Qed.

(** *** Taking a page out of its frame *)

Lemma entry_alter (g : mapping → mapping) A pd a v : A !! pd = Some a →
  ∀ pd' w, entry (<[pd := alter g v a]> A) pd' w =
    if decide (pd' = pd ∧ w = v) then PagedirThm.set_accessed false <$> (g <$> a !! v) else entry A pd' w.
Proof.
  intros Ha pd' w. unfold entry. destruct (decide (pd' = pd)) as [-> |].
  - rewrite lookup_insert_eq, Ha. cbn [mbind option_bind]. destruct (decide (w = v)) as [-> |].
    + by rewrite decide_True, lookup_alter_eq.
    + rewrite lookup_alter_ne by congruence. by rewrite decide_False by naive_solver.
  - by rewrite lookup_insert_ne, decide_False by naive_solver.
Qed.

(** [s'] is [s] with the frame [x] gone, its page [pl] now [p'] and not in
    memory. *)
Record unloaded s s' (x pl : loc) (p' : page) : Prop := {
  ul_list : Frame_list s' = drop_elem x (Frame_list s);
  ul_hand g : Clock_hand s' = HAt g → g ∈ Frame_list s';
  ul_frames : frames s' = delete x (frames s);
  ul_pages : pages s' = <[pl := p']> (pages s);
  ul_procs : procs s' = procs s;
  ul_running : running s' = running s;
  ul_files : filesys s' = filesys s;
  ul_next : next_addr s' = next_addr s;
  ul_cpu : same_cpu (mach s) (mach s');
  ul_swap : swap_ok (swap_state s');
  ul_used j : slot_used (swap_state s) j → slot_used (swap_state s') j ∧ slot_bytes (swap_state s') j = slot_bytes (swap_state s) j;
  ul_kpage : p_kpage p' = 0;
  ul_slot : p_swap_slot p' ≠ PAGE_NO_SLOT → ¬ slot_used (swap_state s) (p_swap_slot p');
  ul_ok : page_ok s' p';
}.

Lemma page_ok_mono s s' p :
  page_ok s p → filesys s' = filesys s → (∀ j, slot_used (swap_state s) j → slot_used (swap_state s') j) → page_ok s' p.
Proof. intros [] Ef Hu. split; rewrite ?Ef; try done. naive_solver. Qed.

Lemma backing_files s s' p : filesys s' = filesys s → backing s' p = backing s p.
Proof. intros E. unfold backing. by rewrite E. Qed.

(** The same place in the tables is the same page. *)
Lemma same_place s T A t t' u u' pl pl' x x' :
  vm_ok ram s T A → spt_map s t !! u = Some pl → spt_map s t' !! u' = Some pl' → procs s !! t = Some x → procs s !! t' = Some x' →
  pagedir x = pagedir x' → pg_no u = pg_no u' → pl = pl'.
Proof.
  intros H Hs Hs' Hx Hx' Ed Eu. destruct (v_spt _ _ _ _ H _ _ _ Hs) as (p & _ & E1 & Hp).
  destruct (v_spt _ _ _ _ H _ _ _ Hs') as (p' & _ & E2 & Hp'). destruct (po_upage _ _ Hp) as [H1 H2], (po_upage _ _ Hp') as [H3 H4].
  rewrite E1 in H1, H2. rewrite E2 in H3, H4.
  assert (u = u') as -> by (rewrite !pg_no_eq in Eu; Z.to_euclidean_division_equations; lia).
  assert (t = t') as ->; [| congruence]. eapply (v_dirs _ _ _ _ H); [done | done | done |]. intros E0.
  destruct (v_proc _ _ _ _ H _ _ Hx) as (_ & Hz & _). rewrite (Hz E0) in Hs. by rewrite lookup_empty in Hs.
Qed.

Lemma vm_ok_unload lost s s' T A x f pl p p' t a m :
  vm_ok ram s T A → frames s !! x = Some f → f_page f = Some pl → resident s A f pl p t a m →
  unloaded s s' x pl p' → p_upage p' = p_upage p → p_writable p' = p_writable p →
  let A' := <[pagedir t := alter (PagedirThm.set_present false) (pg_no (f_upage f)) a]> A in
  repr ram (mach s') T A' → dirs_step T (pal (mach s)) (pal (mach s')) →
  (Some pl ≠ lost → value s' p' = value s p) →
  vm_ok ram s' T A' ∧ preserves lost s s'.
Proof.
  intros H Hf Hpl R U Eu Ew A' Hr Hd Hv.
  pose proof (entry_alter (PagedirThm.set_present false) A (pagedir t) a (pg_no (f_upage f)) (rs_dir _ _ _ _ _ _ _ _ R)) as Hent. fold A' in Hent.
  assert (∀ t, spt_map s' t = spt_map s t) as Hspt by (intros ?; apply spt_map_procs, U).
  assert (∀ g y, frames s' !! g = Some y → g ≠ x ∧ frames s !! g = Some y ∧ f_page y ≠ Some pl) as Hfr.
  { intros g y Hg. rewrite (ul_frames _ _ _ _ _ U) in Hg. apply lookup_delete_Some in Hg as [Hn Hg]. split; [done |]. split; [done |].
    intros Hy. destruct (v_frame_page _ _ _ _ H _ _ _ Hg Hy) as (p1 & Hp1 & Ek & _).
    pose proof (rs_page _ _ _ _ _ _ _ _ R). pose proof (rs_kpage _ _ _ _ _ _ _ _ R).
    apply Hn. eapply (v_kpage _ _ _ _ H); [exact Hf | done | congruence]. }
  assert (∀ q y, pages s' !! q = Some y → q ≠ pl → pages s !! q = Some y) as Hpg.
  { intros q y Hq Hn. rewrite (ul_pages _ _ _ _ _ U), lookup_insert_ne in Hq by done. done. }
  assert (pages s' !! pl = Some p') as Hpl' by (rewrite (ul_pages _ _ _ _ _ U); apply lookup_insert_eq).
  assert (∀ g y, frames s !! g = Some y → frame_bytes s' (f_kpage y) = frame_bytes s (f_kpage y)) as Hb.
  { intros g y Hg. apply bytes_from_same. intros b Hb.
    destruct (v_frame _ _ _ _ H g y Hg) as [Hu _].
    by apply (step_frame ram _ _ _ _ _ (r_dirs _ _ _ _ Hr) Hd Hu). }
  assert (∀ q, p_kpage q ≠ 0 → (∃ g y, frames s !! g = Some y ∧ f_kpage y = p_kpage q) → value s' q = value s q) as Hres.
  { intros q Hq (g & y & Hg & Ek). unfold value. apply Z.eqb_neq in Hq as ->. rewrite <-Ek. by eapply Hb. }
  assert (∀ t u q y, spt_map s t !! u = Some q → pages s !! q = Some y → value s' y = value s y) as Hval.
  { intros t1 u1 q y Hs1 Hy. destruct (decide (p_kpage y = 0)) as [E0|Hn].
    - unfold value. rewrite E0. cbn [Z.eqb]. destruct (Z.eqb_spec (p_swap_slot y) PAGE_NO_SLOT); [by apply backing_files, U |].
      destruct (v_spt _ _ _ _ H _ _ _ Hs1) as (y' & Hy' & _ & Hok). assert (y' = y) as -> by congruence.
      destruct (po_slot _ _ Hok) as [|Hu]; [done |]. by apply (ul_used _ _ _ _ _ U).
    - apply Hres; [done |]. destruct (page_frame _ _ _ _ _ _ _ _ H Hs1 Hy Hn) as (g & z & Hg & _ & Ek & _). eauto. }
  split; [split |].
  - done.
  - apply U.
  - rewrite (ul_files _ _ _ _ _ U). apply H.
  - rewrite (ul_list _ _ _ _ _ U). apply NoDup_filter, H.
  - intros g. rewrite (ul_list _ _ _ _ _ U), (ul_frames _ _ _ _ _ U). unfold drop_elem. rewrite list_elem_of_filter, (v_dom _ _ _ _ H).
    destruct (decide (g = x)) as [-> |]; [rewrite lookup_delete_eq; split; [tauto | by intros []] | rewrite lookup_delete_ne by done; tauto].
  - apply U.
  - intros l Hl. rewrite (ul_next _ _ _ _ _ U). apply (v_fresh _ _ _ _ H). destruct Hl as [[y Hy]|Hy].
    + apply Hfr in Hy as (_ & Hy & _). eauto.
    + right. rewrite (ul_pages _ _ _ _ _ U) in Hy. destruct (decide (l = pl)) as [-> |];
        [exists p; apply R | by rewrite lookup_insert_ne in Hy].
  - intros g y Hg. apply Hfr in Hg as (_ & Hg & _). destruct (v_frame _ _ _ _ H _ _ Hg) as (H1 & H2 & H3).
    rewrite (ul_procs _ _ _ _ _ U). split; [by apply Hd | done].
  - intros g y q Hg Hy. apply Hfr in Hg as (Hn & Hg & Hpy). destruct (v_frame_page _ _ _ _ H _ _ _ Hg Hy) as (p1 & Hp1 & E1 & E2 & E3).
    exists p1. rewrite Hspt. split; [| done]. rewrite (ul_pages _ _ _ _ _ U), lookup_insert_ne; [done | congruence].
  - intros g h y z Hg Hh. apply Hfr in Hg as (_ & Hg & _). apply Hfr in Hh as (_ & Hh & _). by apply (v_kpage _ _ _ _ H).
  - intros u y. rewrite (ul_procs _ _ _ _ _ U), Hspt. intros Hy. destruct (v_proc _ _ _ _ H _ _ Hy) as (H1 & H2 & H3).
    split; [done |]. split; [done |]. intros Hn. destruct (H3 Hn) as [H4 H5]. destruct (ul_cpu _ _ _ _ _ U) as [_ ->]. split; [| done].
    unfold A'. destruct (decide (pagedir y = pagedir t)) as [-> |]; [rewrite lookup_insert_eq; eauto | by rewrite lookup_insert_ne].
  - intros u1 u2 y z. rewrite (ul_procs _ _ _ _ _ U). apply (v_dirs _ _ _ _ H).
  - intros u v q. rewrite Hspt. intros Hq. destruct (v_spt _ _ _ _ H _ _ _ Hq) as (p1 & Hp1 & E1 & Hok).
    destruct (decide (q = pl)) as [-> |].
    + exists p'. split; [done |]. assert (p1 = p) as -> by (pose proof (rs_page _ _ _ _ _ _ _ _ R); congruence).
      split; [congruence | apply U].
    + exists p1. rewrite (ul_pages _ _ _ _ _ U), lookup_insert_ne by done. split; [done |]. split; [done |].
      eapply page_ok_mono; [done | apply U | apply U].
  - intros u1 u2 v1 v2 q. rewrite !Hspt. apply (v_inj _ _ _ _ H).
  - intros t1 u1 q y z. rewrite Hspt, (ul_procs _ _ _ _ _ U). intros Hq Hy Hz. unfold placed.
    destruct (decide (q = pl)) as [-> |Hn].
    + assert (y = p') as -> by congruence. rewrite decide_True by apply U. intros n. rewrite Hent.
      assert (t1 = f_owner f) as -> by (eapply (v_inj _ _ _ _ H); [exact Hq | apply R]).
      assert (z = t) as -> by (pose proof (rs_proc _ _ _ _ _ _ _ _ R); congruence).
      rewrite decide_True by (by rewrite Eu, (rs_upage _ _ _ _ _ _ _ _ R)). rewrite (rs_map _ _ _ _ _ _ _ _ R).
      by intros [= <-].
    + pose proof (Hpg _ _ Hy Hn) as Hy0. pose proof (v_placed _ _ _ _ H _ _ _ _ _ Hq Hy0 Hz) as Hpla. unfold placed in Hpla.
      assert (entry A' (pagedir z) (pg_no (p_upage y)) = entry A (pagedir z) (pg_no (p_upage y))) as ->.
      { rewrite Hent, decide_False; [done |]. intros [E1 E2]. apply Hn. destruct (v_spt _ _ _ _ H _ _ _ Hq) as (y' & Hy' & Ey & _).
           assert (y' = y) as -> by congruence. rewrite Ey in E2.
           eapply (same_place s T A); [done | exact Hq | apply R | exact Hz | apply R | done | done]. }
      destruct (decide (p_kpage y = 0)) as [|Hk]; [done |]. destruct Hpla as [(g & w & Hg & Hw) (d & Ed & Hc)]. split.
      * exists g, w. rewrite (ul_frames _ _ _ _ _ U). rewrite lookup_delete_ne; [done |]. intros <-. congruence.
      * exists d. split; [done |]. intros E0 Ht. rewrite (backing_files s s' y) by apply U. rewrite <-Hc by done.
        pose proof (Hval _ _ _ _ Hq Hy0) as Hvy. unfold value in Hvy. apply Z.eqb_neq in Hk. by rewrite Hk in Hvy.
  - intros t1 z v n. rewrite (ul_procs _ _ _ _ _ U), Hspt, Hent. intros Hz. case_decide as Hc.
    + rewrite (rs_map _ _ _ _ _ _ _ _ R). by intros [= <-].
    + intros Hn1 Hn2. by eapply (v_mapped _ _ _ _ H).
  - intros t1 t2 u1 u2 q1 q2 y1 y2. rewrite !Hspt. intros Hq1 Hq2 Hy1 Hy2 Es Hn.
    assert (∀ t u q y, spt_map s t !! u = Some q → pages s' !! q = Some y → q ≠ pl → p_swap_slot y ≠ PAGE_NO_SLOT →
      slot_used (swap_state s) (p_swap_slot y)) as Hused.
    { intros t3 u3 q y Hq Hy Hne Hsl. apply Hpg in Hy; [| done]. destruct (v_spt _ _ _ _ H _ _ _ Hq) as (y' & Hy' & _ & Hok).
      assert (y' = y) as -> by congruence. by destruct (po_slot _ _ Hok). }
    destruct (decide (q1 = pl)) as [-> |], (decide (q2 = pl)) as [-> |]; [done | | |].
    + exfalso. assert (y1 = p') as -> by congruence. rewrite Es in Hn. apply (ul_slot _ _ _ _ _ U); [congruence |]. rewrite Es. eauto.
    + exfalso. assert (y2 = p') as -> by congruence. apply (ul_slot _ _ _ _ _ U); [congruence |]. rewrite <-Es. eauto.
    + eapply (v_slots _ _ _ _ H); eauto.
  - destruct (v_running _ _ _ _ H) as (z & Hz & Ha). exists z. rewrite (ul_procs _ _ _ _ _ U), (ul_running _ _ _ _ _ U).
    split; [done |]. destruct (ul_cpu _ _ _ _ _ U) as [Ec Ei]. unfold active in *. by rewrite Ec, Ei.
  - split; [apply U | apply U |]. intros t1 u1 q y Hq Hy. destruct (decide (q = pl)) as [-> |Hn].
    + exists p'. assert (y = p) as -> by (pose proof (rs_page _ _ _ _ _ _ _ _ R); congruence). done.
    + exists y. rewrite (ul_pages _ _ _ _ _ U), lookup_insert_ne by done. split_and!; try done. intros _. by eapply Hval.
Qed.
(** *** Writing to a frame that holds no page yet *)

Definition put_memory (m : mem) s : vm D F := set_mach (set_pal (set_memory m (pal (mach s))) (mach s)) s.

(** A frame of the user pool that no entry of the frame table has. *)
Definition loose s (k : Z) : Prop :=
  in_use (pal (mach s)) true k ∧ ∀ f x, frames s !! f = Some x → f_kpage x ≠ k.

Definition unloaded_frame s (k : Z) : Prop :=
  in_use (pal (mach s)) true k ∧ ∀ f x, frames s !! f = Some x → f_page x ≠ None → f_kpage x ≠ k.

Lemma loose_unloaded s k : loose s k → unloaded_frame s k.
Proof. intros [H1 H2]. split; [done |]. intros f x Hf _. by eapply H2. Qed.

Lemma repr_memory m T A M k :
  repr ram m T A → in_use (pal m) true k → bytes_mem M → (∀ b, is_Some (memory (pal m) !! b) → is_Some (M !! b)) →
  outside (memory (pal m)) M k 4096 → repr ram (set_pal (set_memory M (pal m)) m) T A.
Proof.
  intros [Hd [C1 C2 C3]] Hk Hm Hs Ho. split; [| by split].
  apply (dirs_ok_same (pal m)); [done | by apply pages_ok_set_memory; [apply Hd |..] |].
  intros pd o a Ha. pose proof (d_used _ _ _ _ Hd _ _ _ Ha) as Hu. split; [by apply in_use_set_memory |].
  intros b Hb. cbn. apply Ho. destruct (pools_apart _ _ _ _ (d_pages _ _ _ _ Hd) Hu Hk); lia.
Qed.

Lemma frame_mapped s T A k : vm_ok ram s T A → in_use (pal (mach s)) true k →
  0 < k ∧ frame_ok k ∧ k + 4096 ≤ PHYS_BASE + 4096 * ram ∧
  mapped (memory (pal (mach s))) k 4096 ∧ bytes_mem (memory (pal (mach s))).
Proof.
  intros H Hk. pose proof (d_pages _ _ _ _ (r_dirs _ _ _ _ (v_mach _ _ _ _ H))) as Hp.
  destruct (in_use_page _ _ _ _ Hp Hk) as (H1 & H2 & H3 & H4 & H5). unfold frame_ok, PHYS_BASE in *.
  split; [lia |]. split; [by split_and! |]. split; [done |]. split; [done |]. apply Hp.
Qed.

Lemma vm_ok_memory s T A M k :
  vm_ok ram s T A → unloaded_frame s k → bytes_mem M → (∀ b, is_Some (memory (pal (mach s)) !! b) → is_Some (M !! b)) →
  outside (memory (pal (mach s))) M k 4096 →
  vm_ok ram (put_memory M s) T A ∧ preserves None s (put_memory M s).
Proof.
  intros H [Hk Hn] Hm Hs Ho. apply (vm_ok_mach ram s T A T A); try done; [by eapply repr_memory; [apply H |..] |].
  intros f x Hf. destruct (v_frame _ _ _ _ H _ _ Hf) as [Hu _]. split; [by apply in_use_set_memory |].
  intros Hp. apply frame_bytes_outside. intros b Hb. cbn. apply Ho.
  destruct (frame_mapped _ _ _ _ H Hk) as (_ & (_ & _ & K1) & _), (frame_mapped _ _ _ _ H Hu) as (_ & (_ & _ & K2) & _).
  destruct (pages_apart _ _ K1 K2); [| lia..]. intros ->. by eapply Hn.
Qed.

Lemma bytes_zero m k (n : nat) : (∀ b, k ≤ b < k + Z.of_nat n → m !! b = Some 0) → bytes_from m k n = replicate n 0.
Proof.
  intros Hm. apply list_eq. intros i. destruct (decide (i < n)%nat) as [Hi|Hi].
  - rewrite bytes_from_lookup, lookup_replicate_2 by done. f_equal. apply lookup_total_correct, Hm. lia.
  - rewrite !lookup_ge_None_2; [done | rewrite length_replicate; lia | rewrite length_bytes_from; lia].
Qed.

Lemma page_zero m k : (∀ b, k ≤ b < k + 4096 → m !! b = Some 0) → page_at m k = replicate 4096 0.
Proof. intros Hm. apply bytes_zero. intros b Hb. apply Hm. lia. Qed.

Lemma on_memory_ok (f : mem → outcome mem) s M : f (memory (pal (mach s))) = Ok M → on_memory f s = Ok (tt, put_memory M s).
Proof. intros E. unfold on_memory. by rewrite E. Qed.

(** Filling a part of a frame with zeros. *)
Lemma vm_memset_ok s T A k a n :
  vm_ok ram s T A → unloaded_frame s k → k ≤ a → 0 ≤ n → a + n ≤ k + 4096 →
  ∃ M, vm_memset a 0 n s = Ok (tt, put_memory M s) ∧ vm_ok ram (put_memory M s) T A ∧ preserves None s (put_memory M s) ∧
    (∀ b, M !! b = if decide (a ≤ b < a + n) then Some 0 else memory (pal (mach s)) !! b).
Proof.
  intros H Hk Ha Hn He. destruct (frame_mapped _ _ _ _ H (proj1 Hk)) as (K0 & _ & _ & Hm & Hb).
  destruct (memset_ok (memory (pal (mach s))) a 0 n) as (M & E & HM); [lia | done | by eapply mapped_sub |].
  change (u8 0) with 0 in HM. destruct (vm_ok_memory s T A M k H Hk) as [H1 H2].
  - intros b c. rewrite HM. case_decide; [intros [= <-]; unfold is_byte; lia | apply Hb].
  - intros b Hs. rewrite HM. case_decide; [eauto | done].
  - intros b Ho. by rewrite HM, decide_False by lia.
  - exists M. split; [| done]. unfold vm_memset. apply on_memory_ok. by rewrite E.
Qed.
(** *** [frame_evict] *)

(** The hand when [x] leaves the list. *)
Definition hand_past s (x : loc) : hand :=
  if decide (Clock_hand s = HAt x) then hand_next (Frame_list s) x else Clock_hand s.

Lemma hand_past_step s x :
  (if decide (Clock_hand s = HAt x) then st_modify (set_hand (hand_next (Frame_list s) x)) else mret tt) s =
  Ok (tt, set_hand (hand_past s x) s).
Proof. unfold hand_past. case_decide; [done |]. by destruct s. Qed.

Lemma hand_past_elem s T A x : vm_ok ram s T A → x ∈ Frame_list s →
  ∀ g, hand_past s x = HAt g → g ∈ drop_elem x (Frame_list s).
Proof.
  intros H Hx g Hg. apply list_elem_of_filter. unfold hand_past in Hg. destruct (decide (Clock_hand s = HAt x)) as [E|E].
  - destruct (list_elem_of_split _ _ Hx) as (p & r & El). pose proof (v_list _ _ _ _ H) as Hnd.
    pose proof (hand_next_elem _ _ _ Hg) as Hin. split; [| done]. intros ->.
    rewrite El in Hnd, Hg. apply NoDup_app in Hnd as (_ & Hp & Hr).
    rewrite hand_next_split in Hg by (intros Hxp; apply (Hp x Hxp); left). destruct r as [|y r]; [done |].
    injection Hg as ->. apply NoDup_cons in Hr as [Hr _]. apply Hr. left.
  - split; [congruence | by apply (v_hand _ _ _ _ H)].
Qed.

(** The hand has already passed the victim. *)
Lemma hand_past_next s x :
  Clock_hand s = hand_next (Frame_list s) x → hand_past s x = hand_next (Frame_list s) x.
Proof. intros Eh. unfold hand_past. by case_decide. Qed.

(** The victim [x] is gone; what [frame_evict] leaves alone. *)
Record evicted s s' (x : loc) : Prop := {
  ev_list : Frame_list s' = drop_elem x (Frame_list s);
  ev_hand : Clock_hand s' = hand_next (Frame_list s) x;
  ev_frames : frames s' = delete x (frames s);
  ev_pages : ∃ f pl p p', frames s !! x = Some f ∧ f_page f = Some pl ∧ pages s !! pl = Some p ∧
    p_kpage p = f_kpage f ∧ p_kpage p' = 0 ∧ pages s' = <[pl := p']> (pages s);
  ev_files : filesys s' = filesys s;
  ev_mmaps : mmaps s' = mmaps s;
  ev_next : next_addr s' = next_addr s;
  ev_use u b : in_use (pal (mach s')) u b ↔ in_use (pal (mach s)) u b;
  ev_cpu : same_cpu (mach s) (mach s');
  ev_pools : same_pools (pal (mach s)) (pal (mach s'));
}.

(** The page that goes to swap, or not. *)
Definition evicted_page (dirty : bool) (slot : Z) (p : page) : page :=
  if dirty then let p := set_slot slot (set_kpage 0 p) in if decide (p_type p = PAGE_BIN) then set_type PAGE_ANON p else p
  else set_kpage 0 p.


Lemma evicted_page_fields d slot p :
  p_upage (evicted_page d slot p) = p_upage p ∧ p_writable (evicted_page d slot p) = p_writable p ∧
  p_kpage (evicted_page d slot p) = 0 ∧ p_swap_slot (evicted_page d slot p) = (if d then slot else p_swap_slot p).
Proof. unfold evicted_page. destruct d; [| done]. by destruct (decide _). Qed.

Lemma backing_kpage s k p : backing s (set_kpage k p) = backing s p.
Proof. done. Qed.

(** The state after the eviction. *)
Definition after_evict s (m2 : machine) (x pl : loc) (p' : page) (sw : swap D) : vm D F :=
  Vm m2 (drop_elem x (Frame_list s)) (hand_past s x) (delete x (frames s)) (<[pl := p']> (pages s)) (procs s) (mmaps s)
    (running s) sw (filesys s) (next_addr s).

(** What swap must have done with a page of bytes [l]. *)
Record swapped (sw sw' : swap D) (dirty : bool) (slot : Z) (l : list Z) : Prop := {
  sp_ok : swap_ok sw';
  sp_used j : slot_used sw j → slot_used sw' j ∧ slot_bytes sw' j = slot_bytes sw j;
  sp_slot : dirty = true → slot_used sw' slot ∧ ¬ slot_used sw slot ∧ slot_bytes sw' slot = l ∧ slot ≠ PAGE_NO_SLOT;
}.

Lemma evict_done s T A x f pl p t a m m2 d slot sw :
  vm_ok ram s T A → Clock_hand s = hand_next (Frame_list s) x → frames s !! x = Some f → f_page f = Some pl → resident s A f pl p t a m →
  let A' := <[pagedir t := alter (PagedirThm.set_present false) (pg_no (f_upage f)) a]> A in
  repr ram m2 T A' → dirs_step T (pal (mach s)) (pal m2) → same_cpu (mach s) m2 →
  d = (if decide (p_type p = PAGE_ANON) then true else m_dirty m) →
  swapped (swap_state s) sw d slot (frame_bytes s (f_kpage f)) →
  let s' := after_evict s m2 x pl (evicted_page d slot p) sw in
  vm_ok ram s' T A' ∧ preserves None s s' ∧ evicted s s' x ∧ dirs_step T (pal (mach s)) (pal (mach s')).
Proof.
  intros H Eh Hf Hpl R A' Hr Hd Hc Ed W s'. assert (x ∈ Frame_list s) as Hx by (apply (v_dom _ _ _ _ H); eauto).
  destruct (evicted_page_fields d slot p) as (F1 & F2 & F3 & F4).
  destruct (frame_nonzero _ _ _ _ _ _ H Hf) as [Hk _]. pose proof (rs_ok _ _ _ _ _ _ _ _ R) as Hok.
  assert (p_swap_slot p = PAGE_NO_SLOT) as Hno by (apply (po_kpage _ _ Hok); by rewrite (rs_kpage _ _ _ _ _ _ _ _ R)).
  assert (d = false → m_dirty m = false ∧ p_type p ≠ PAGE_ANON) as Hclean by (rewrite Ed; by case_decide).
  assert (p_type (evicted_page d slot p) = PAGE_BIN → d = false) as Hbin.
  { unfold evicted_page. destruct d; [| done]. cbn. destruct (decide (p_type p = PAGE_BIN)) as [|Hn]; [done |]. by intros ?%Hn. }
  assert (p_type (evicted_page d slot p) ≠ PAGE_ANON → p_type p ≠ PAGE_ANON ∧ p_file (evicted_page d slot p) = p_file p ∧
    p_ofs (evicted_page d slot p) = p_ofs p) as Hfile.
  { unfold evicted_page. destruct d; [| done]. cbn. destruct (decide (p_type p = PAGE_BIN)); [by intros [] | done]. }
  assert (p_read_bytes (evicted_page d slot p) = p_read_bytes p ∧ p_zero_bytes (evicted_page d slot p) = p_zero_bytes p) as [Eb Ez].
  { unfold evicted_page. destruct d; [| done]. cbn. by destruct (decide (p_type p = PAGE_BIN)). }
  assert (unloaded s s' x pl (evicted_page d slot p)) as U.
  { split; try done; [by apply (hand_past_elem s T A) | apply W | apply W | |].
    - rewrite F4. destruct d; [by destruct (sp_slot _ _ _ _ _ W eq_refl) as (_ & ? & _) | congruence].
    - destruct Hok. split; rewrite ?F1, ?F3, ?F4, ?Eb, ?Ez; try done.
      + intros Ht. destruct (Hfile Ht) as (Ht' & -> & ->). by apply po_file.
      + destruct d; [right; by destruct (sp_slot _ _ _ _ _ W eq_refl) | by left].
      + intros Hb. by rewrite (Hbin Hb). }
  destruct (vm_ok_unload None s s' T A x f pl p (evicted_page d slot p) t a m H Hf Hpl R U F1 F2 Hr Hd) as [H1 H2].
  { intros _. unfold value. rewrite F3, F4. cbn [Z.eqb]. destruct (Z.eqb_spec (p_kpage p) 0) as [E|_].
    { by rewrite (rs_kpage _ _ _ _ _ _ _ _ R) in E. }
    rewrite (rs_kpage _ _ _ _ _ _ _ _ R). destruct d.
    - destruct (sp_slot _ _ _ _ _ W eq_refl) as (_ & _ & Hb & Hn). by apply Z.eqb_neq in Hn as ->.
    - rewrite Hno, Z.eqb_refl. destruct (Hclean eq_refl) as [Hm Ht]. by rewrite (rs_clean _ _ _ _ _ _ _ _ R). }
  split; [done |]. split; [done |]. split; [| done]. split; try done.
  - exact (hand_past_next s x Eh).
  - exists f, pl, p, (evicted_page d slot p). split_and!; try done; apply R.
  - intros u b. split; [| apply Hd]. intros Hb. apply (ds_new _ _ _ Hd) in Hb as [Hb|[-> (pd & o & Ho)]]; [done |].
    by apply (d_used _ _ _ _ (r_dirs _ _ _ _ (v_mach _ _ _ _ H)) pd o b).
  - apply Hd.
Qed.

Lemma evict_victim_ok s T A x f pl p t a m :
  vm_ok ram s T A → Clock_hand s = hand_next (Frame_list s) x → frames s !! x = Some f → f_page f = Some pl → resident s A f pl p t a m →
  (evict_victim x s = Err KernelPanic ∧ ∀ j, 0 ≤ j < bit_cnt (Swap_bitmap (swap_state s)) → slot_used (swap_state s) j) ∨
  ∃ s' A', evict_victim x s = Ok (f_kpage f, s') ∧ vm_ok ram s' T A' ∧ preserves None s s' ∧ evicted s s' x ∧
    dirs_step T (pal (mach s)) (pal (mach s')).
Proof.
  intros H Eh Hf Hpl R. assert (x ∈ Frame_list s) as Hx by (apply (v_dom _ _ _ _ H); eauto).
  pose proof (hand_past_elem s T A x H Hx) as Hhand. pose proof (rs_upage _ _ _ _ _ _ _ _ R) as Eu.
  unfold evict_victim. rewrite (st_step _ (get_frame_ok s x f Hf)), Hpl. rewrite (st_lift_step _ pl _ _ eq_refl).
  rewrite (st_step _ (get_proc_ok s _ t (rs_proc _ _ _ _ _ _ _ _ R))), st_get_step, (st_step _ (hand_past_step s x)).
  set (s2 := set_list (drop_elem x (Frame_list s)) (set_hand (hand_past s x) s)).
  assert (st_modify (λ s, set_list (drop_elem x (Frame_list s)) s) (set_hand (hand_past s x) s) = Ok (tt, s2)) as E2 by done.
  rewrite (st_step _ E2), (st_step _ (get_pg_ok s2 pl p (rs_page _ _ _ _ _ _ _ _ R))).
  set (s3 := set_pages (<[pl := set_kpage 0 p]>) s2). assert (put_pg pl (set_kpage 0 p) s2 = Ok (tt, s3)) as E3 by done.
  rewrite (st_step _ E3), Eu.
  destruct (pagedir_clear_page_ok (mach s) T A (pagedir t) a (f_upage f) (v_mach _ _ _ _ H)) as (m2 & E4 & Hr & Hd & Hc);
    [apply R.. |]. set (A' := <[pagedir t := _]> A) in Hr. set (s4 := set_mach m2 s3).
  assert (on_mach (pagedir_clear_page (pagedir t) (f_upage f)) s3 = Ok (tt, s4)) as E4'
    by (unfold on_mach; change (mach s3) with (mach s); by rewrite E4).
  rewrite (st_step _ E4').
  set (d := if decide (p_type p = PAGE_ANON) then true else m_dirty m).
  assert ((if decide (p_type p = PAGE_ANON) then mret true else on_mach (pagedir_is_dirty (pagedir t) (f_upage f))) s4 = Ok (d, s4)) as E5.
  { unfold d. case_decide; [done |]. unfold on_mach. change (mach s4) with m2.
    rewrite (pagedir_is_dirty_ok m2 T A' (pagedir t) (alter (PagedirThm.set_present false) (pg_no (f_upage f)) a) (f_upage f) Hr);
      [| apply lookup_insert_eq | apply R]. by rewrite lookup_alter_eq, (rs_map _ _ _ _ _ _ _ _ R). }
  rewrite (st_step _ E5).
  assert (frame_bytes s4 (f_kpage f) = frame_bytes s (f_kpage f)) as Eb.
  { apply bytes_from_same. intros b Hb. destruct (v_frame _ _ _ _ H _ _ Hf) as [Hu _].
    by apply (step_frame ram _ _ _ _ _ (r_dirs _ _ _ _ Hr) Hd Hu). }
  assert (∀ slot sw, swapped (swap_state s) sw d slot (frame_bytes s (f_kpage f)) →
    ∃ s' A', Ok (f_kpage f, after_evict s m2 x pl (evicted_page d slot p) sw) = Ok (f_kpage f, s') ∧
      vm_ok ram s' T A' ∧ preserves None s s' ∧ evicted s s' x ∧ dirs_step T (pal (mach s)) (pal (mach s'))) as Hdone.
  { intros slot sw W. eexists _, A'. split; [done |]. by apply (evict_done s T A x f pl p t a m m2 d slot sw). }
  destruct d eqn:Edd.
  - destruct (v_frame _ _ _ _ H _ _ Hf) as [Hu _]. apply (ds_use _ _ _ Hd) in Hu.
    destruct (in_use_page _ _ _ _ (d_pages _ _ _ _ (r_dirs _ _ _ _ Hr)) Hu) as (_ & _ & _ & _ & Hmap).
    destruct (swap_out_ok (f_kpage f) (memory (pal m2)) (swap_state s) (v_swap _ _ _ _ H) Hmap) as [[E Hfull]|(slot & sw & E & W & _)];
      [apply (d_pages _ _ _ _ (r_dirs _ _ _ _ Hr)) | left | right].
    + split; [| done]. rewrite st_assoc. apply st_step_err. unfold on_swap. change (swap_state s4) with (swap_state s).
      change (mach s4) with m2. by rewrite E.
    + assert (swapped (swap_state s) sw true slot (frame_bytes s (f_kpage f))) as W'.
      { split; [apply W | intros j Hj; split; [by apply (sf_used _ _ _ _ W); right | by apply W] |]. intros _.
        split; [by apply (sf_used _ _ _ _ W); left |]. split; [apply W |]. split; [by rewrite (sf_page _ _ _ _ W) |].
        destruct (sf_range _ _ _ _ W) as [_ Hlt]. destruct (so_bitmap _ (v_swap _ _ _ _ H)) as [[_ Hle] _]. unfold PAGE_NO_SLOT. lia. }
      destruct (Hdone _ _ W') as (s' & B & Es & Hrest). exists s', B. split; [| exact Hrest]. rewrite <-Es.
      assert (on_swap (swap_out (f_kpage f)) s4 = Ok (slot, set_swap sw s4)) as E6
        by (unfold on_swap; change (swap_state s4) with (swap_state s); change (mach s4) with m2; by rewrite E).
      rewrite st_assoc, (st_step _ E6), st_assoc.
      rewrite (st_step _ (get_pg_ok (set_swap sw s4) pl (set_kpage 0 p) (lookup_insert_eq _ _ _))).
      unfold evicted_page. cbn [p_type set_slot set_kpage].
      set (s5 := set_pages (<[pl := set_slot slot (set_kpage 0 p)]>) (set_swap sw s4)).
      assert (put_pg pl (set_slot slot (set_kpage 0 p)) (set_swap sw s4) = Ok (tt, s5)) as E7 by done.
      rewrite st_assoc, (st_step _ E7). unfold after_evict. destruct (decide (p_type p = PAGE_BIN)).
      * rewrite st_assoc, (st_step _ (get_pg_ok s5 pl (set_slot slot (set_kpage 0 p)) (lookup_insert_eq _ _ _))).
        rewrite <-(insert_insert_eq (pages s) pl _ (set_slot slot (set_kpage 0 p))).
        by rewrite <-(insert_insert_eq (pages s) pl (set_slot slot (set_kpage 0 p)) (set_kpage 0 p)).
      * by rewrite <-(insert_insert_eq (pages s) pl (set_slot slot (set_kpage 0 p)) (set_kpage 0 p)).
  - right. apply (Hdone 0 (swap_state s)). split; [apply H | done | done].
Qed.
Lemma step_use s T A p' : vm_ok ram s T A → dirs_step T (pal (mach s)) p' → ∀ u b, in_use p' u b ↔ in_use (pal (mach s)) u b.
Proof.
  intros H Hd u b. split; [| apply Hd]. intros Hb. apply (ds_new _ _ _ Hd) in Hb as [Hb|[-> (pd & o & Ho)]]; [done |].
  by apply (d_used _ _ _ _ (r_dirs _ _ _ _ (v_mach _ _ _ _ H)) pd o b).
Qed.

Lemma frame_evict_ok flags s T A :
  vm_ok ram s T A →
  match second_chance s A with
  | None => frame_evict flags s = Err KernelPanic
  | Some x => ∃ f, frames s !! x = Some f ∧
      ((frame_evict flags s = Err KernelPanic ∧
        ∀ j, 0 ≤ j < bit_cnt (Swap_bitmap (swap_state s)) → slot_used (swap_state s) j) ∨
       ∃ s' A', frame_evict flags s = Ok (f_kpage f, s') ∧ vm_ok ram s' T A' ∧ preserves None s s' ∧ evicted s s' x ∧
         loose s' (f_kpage f) ∧ (has_flag flags PAL_ZERO = true → frame_bytes s' (f_kpage f) = replicate 4096 0))
  end.
Proof.
  intros H. destruct (evict_loop_ok s T A H) as (s1 & A1 & E1 & Hs1). unfold frame_evict. rewrite st_get_step, (st_step _ E1).
  destruct (second_chance s A) as [x|] eqn:Ex; [| done].
  assert (evictable s x = true) as Hev.
  { unfold second_chance in Ex. destruct (first_of _ _) eqn:E in Ex;
      apply first_of_Some in E || apply first_of_Some in Ex; [| tauto]. injection Ex as ->. by destruct E as [[? _]%andb_prop _]. }
  destruct (evictable_frame _ _ Hev) as (f & pl & Hf & Hpl & _). exists f. split; [done |].
  destruct (sc_only _ _ _ _ _ _ Hs1) as (m1 & h1 & Es1). assert (frames s1 = frames s) as Efr by by rewrite Es1.
  pose proof (sc_ok _ _ _ _ _ _ Hs1) as H1. assert (frames s1 !! x = Some f) as Hf1 by by rewrite Efr.
  destruct (frame_resident _ _ _ _ _ _ H1 Hf1 Hpl) as (p & t & a & m & R).
  pose proof (proj2 (evict_loop_hand _ _ _ _ E1)) as Eh. rewrite <-(proj1 (evict_loop_hand _ _ _ _ E1)) in Eh.
  destruct (evict_victim_ok s1 T A1 x f pl p t a m H1 Eh Hf1 Hpl R) as [[E2 Hfull]|(s2 & A2 & E2 & H2 & P2 & Ev & Hd)].
  { left. split; [by apply st_step_err |]. by rewrite Es1 in Hfull. }
  right. rewrite (st_step _ E2). pose proof (sc_preserves _ _ _ _ _ _ Hs1) as P1.
  pose proof (preserves_trans _ _ _ _ P1 P2) as P12.
  assert (loose s2 (f_kpage f)) as Hl.
  { split; [apply (ev_use _ _ _ Ev); by destruct (v_frame _ _ _ _ H1 _ _ Hf1) |]. intros g y Hg Ek.
    rewrite (ev_frames _ _ _ Ev) in Hg. apply lookup_delete_Some in Hg as [Hn Hg]. apply Hn.
    by apply (v_kpage _ _ _ _ H1 x g f y). }
  assert (evicted s s2 x) as Ev2.
  { destruct Ev. rewrite Es1 in *. split; try done.
    - intros u b. rewrite ev_use0. apply (step_use s T A); [done |]. apply Hs1.
    - destruct (sc_cpu _ _ _ _ _ _ Hs1), ev_cpu0. split; congruence.
    - eapply same_pools_trans; [apply Hs1 | done]. }
  destruct (has_flag flags PAL_ZERO) eqn:Ez.
  - destruct (vm_memset_ok s2 T A2 (f_kpage f) (f_kpage f) 4096 H2 (loose_unloaded _ _ Hl)) as (M & E3 & H3 & P3 & HM); [lia.. |].
    unfold PGSIZE. rewrite (st_step _ E3). exists (put_memory M s2), A2. split; [done |]. split; [done |].
    split; [by eapply preserves_trans |]. split; [| split].
    + by destruct Ev2.
    + destruct Hl. split; [by apply in_use_set_memory | done].
    + intros _. apply page_zero. intros b Hb. cbn. by rewrite HM, decide_True.
  - rewrite st_ret_step. exists s2, A2. by split_and!.
Qed.
End evict.
