(* ===== verification/VmFault.v ===== *)
(** Page faults: a frame for the page, its contents, its entry in the page
    table. *)
From S2P Require Import Prelude Bytes Bitmap Hash CString CStringThm Words Vaddr Palloc PageMem Pagedir PagedirThm PagedirOps Block Swap Vm Page VmInv VmEvict.
Local Open Scope Z_scope.

Section fault.
Context {D : Type} `{!Device D} `{!DeviceLaws D} {F : Type} `{!FileStore F} `{!FileStoreLaws F}.
Context (ram : Z) (out_of_memory : loc → bool).
Implicit Types s : vm D F.

(** *** Small steps *)

Lemma vm_ok_files s T A x :
  vm_ok ram s T A → store_ok x → (∀ g, store_bytes x g = store_bytes (filesys s) g) →
  vm_ok ram (set_filesys x s) T A ∧ preserves None s (set_filesys x s).
Proof.
  intros H Hx Hb. assert (∀ p, backing (set_filesys x s) p = backing s p) as Eb.
  { intros p. unfold backing. cbn. destruct (p_file p) as [g|]; [cbn; by rewrite Hb | done]. }
  assert (∀ p, value (set_filesys x s) p = value s p) as Ev by (intros p; unfold value; by rewrite Eb).
  split; [split; try apply H; try done |].
  - intros t u pl Ht. destruct (v_spt _ _ _ _ H t u pl Ht) as (p & Hp & Hu & Hok).
    exists p. split; [done |]. split; [done |]. destruct Hok. split; try done. cbn. intros Ht'. destruct (po_file Ht') as [H1 [b H2]].
    split; [done |]. destruct (p_file p) as [g|]; [| done]. cbn in *. rewrite Hb. eauto.
  - intros t u pl p y Ht Hp Hy. pose proof (v_placed _ _ _ _ H t u pl p y Ht Hp Hy) as Hpl. unfold placed in *. cbn. by rewrite Eb.
  - split; [done | done |]. intros t u pl p _ Hp. exists p. by rewrite Ev.
Qed.

Lemma vm_ok_next s T A n : vm_ok ram s T A → (next_addr s ≤ n)%positive →
  vm_ok ram (set_next n s) T A ∧ preserves None s (set_next n s).
Proof.
  intros H Hn. split; [split; try apply H |].
  - intros l Hl. pose proof (v_fresh _ _ _ _ H l Hl). cbn. lia.
  - intros t u pl Ht. destruct (v_spt _ _ _ _ H t u pl Ht) as (p & Hp & Hu & Hok).
    exists p. split; [done |]. split; [done |]. destruct Hok. by split.
  - split; [done | done |]. intros t u pl p _ Hp. by exists p.
Qed.

(** What an allocation leaves alone. *)
Record kept s s' : Prop := {
  kp_pages q y : pages s !! q = Some y → p_kpage y = 0 → pages s' !! q = Some y;
  kp_procs : procs s' = procs s;
  kp_running : running s' = running s;
  kp_mmaps : mmaps s' = mmaps s;
  kp_files g : store_bytes (filesys s') g = store_bytes (filesys s) g;
  kp_cpu : same_cpu (mach s) (mach s');
  kp_free : page_free (pal (mach s)) false → page_free (pal (mach s')) false;
}.

Lemma kept_refl s : kept s s.
Proof. by split. Qed.

Lemma kept_trans s1 s2 s3 : kept s1 s2 → kept s2 s3 → kept s1 s3.
Proof.
  intros H1 H2. split.
  - intros q y Hq Hy. apply (kp_pages _ _ H2); [by apply (kp_pages _ _ H1) | done].
  - rewrite (kp_procs _ _ H2). apply H1.
  - rewrite (kp_running _ _ H2). apply H1.
  - rewrite (kp_mmaps _ _ H2). apply H1.
  - intros g. rewrite (kp_files _ _ H2). apply H1.
  - destruct (kp_cpu _ _ H1), (kp_cpu _ _ H2). split; congruence.
  - intros Hf. by apply (kp_free _ _ H2), (kp_free _ _ H1).
Qed.

Lemma evicted_kept s s' x : evicted s s' x → preserves None s s' → (∀ f, frames s !! x = Some f → f_kpage f ≠ 0) → kept s s'.
Proof.
  intros Ev P Hn. split; try apply Ev; try apply P.
  - intros q y Hq Hy. destruct (ev_pages _ _ _ Ev) as (f & pl & p & p' & Hf & _ & Hp & Ek & _ & E). rewrite E.
    destruct (decide (q = pl)) as [-> |]; [| by rewrite lookup_insert_ne]. exfalso. apply (Hn f Hf). congruence.
  - intros g. by rewrite (ev_files _ _ _ Ev).
  - apply page_free_mono; [apply Ev |]. intros b. by apply Ev.
Qed.

(** *** A page from the pool, and back *)

Lemma vm_ok_got s T A flags a p' :
  vm_ok ram s T A → has_flag flags PAL_USER = true → page_got ram flags a (pal (mach s)) p' →
  let s' := set_mach (set_pal p' (mach s)) s in
  vm_ok ram s' T A ∧ preserves None s s' ∧ loose s' a.
Proof.
  intros H Hu G s'. pose proof (v_mach _ _ _ _ H) as [Hd [C1 C2 C3]].
  destruct (vm_ok_mach ram s T A T A (set_pal p' (mach s))) as [H1 H2]; try done.
  - split; [by eapply dirs_ok_got | by split].
  - intros f x Hf. destruct (v_frame _ _ _ _ H _ _ Hf) as [Hin _]. split; [apply (pg_old _ _ _ _ _ G); by left |].
    intros _. apply frame_bytes_outside. intros b Hb. apply (pg_other _ _ _ _ _ G). unfold off_page, PGSIZE.
    assert (a ≠ f_kpage x) as Hne by (intros ->; by apply (pg_new _ _ _ _ _ G true)).
    destruct (in_use_page _ _ _ _ (pg_ok _ _ _ _ _ G) (pg_page _ _ _ _ _ G)) as (_ & K1 & _).
    destruct (frame_mapped _ _ _ _ _ H Hin) as (_ & (_ & _ & K2) & _). destruct (pages_apart _ _ K1 K2 Hne); lia.
  - split; [done |]. split; [done |]. split; [rewrite <-Hu; apply G |]. intros f x Hf.
    destruct (v_frame _ _ _ _ H _ _ Hf) as [Hin _]. intros <-. by apply (pg_new _ _ _ _ _ G true).
Qed.

Lemma free_loose s T A k :
  vm_ok ram s T A → loose s k →
  ∃ s', on_mach (free_page k) s = Ok (tt, s') ∧ vm_ok ram s' T A ∧ preserves None s s' ∧ kept s s' ∧
    frames s' = frames s ∧ pages s' = pages s.
Proof.
  intros H [Hk Hl]. pose proof (v_mach _ _ _ _ H) as [Hd [C1 C2 C3]].
  destruct (free_page_ok ram (pal (mach s)) true k (d_pages _ _ _ _ Hd) Hk) as (p' & E & Hp' & Hu & Hm & Hpo).
  assert (free_page k (mach s) = Ok (tt, set_pal p' (mach s))) as E' by (unfold free_page; by rewrite E).
  exists (set_mach (set_pal p' (mach s)) s). split; [unfold on_mach; by rewrite E' |].
  destruct (vm_ok_mach ram s T A T A (set_pal p' (mach s))) as [H1 H2]; try done.
  - split; [| by split]. apply (dirs_ok_same (pal (mach s))); [done | done |]. intros pd o a Ho.
    pose proof (d_used _ _ _ _ Hd _ _ _ Ho) as Ha. destruct (pools_apart _ _ _ _ (d_pages _ _ _ _ Hd) Ha Hk) as [Hap|Hap].
    all: split; [apply Hu; split; [done | lia] | intros b Hb; apply Hm; unfold off_page, PGSIZE; lia].
  - intros f x Hf. destruct (v_frame _ _ _ _ H _ _ Hf) as [Hin _]. pose proof (Hl _ _ Hf) as Hne. split; [by apply Hu |].
    intros _. apply frame_bytes_outside. intros b Hb. apply Hm. unfold off_page, PGSIZE.
    destruct (frame_mapped _ _ _ _ _ H Hin) as (_ & (_ & _ & K2) & _), (frame_mapped _ _ _ _ _ H Hk) as (_ & (_ & _ & K1) & _).
    destruct (pages_apart _ _ K1 K2); [congruence | lia..].
  - split; [done |]. split; [done |]. split; [| done]. split; try done.
    apply page_free_mono; [done |]. intros b Hb. by apply Hu.
Qed.

(** A frame for a loose page. *)
Lemma vm_ok_push s T A f k u :
  vm_ok ram s T A → loose s k → (f < next_addr s)%positive → frames s !! f = None →
  let s' := set_list (Frame_list s ++ [f]) (set_frames (<[f := Frame k u (running s) None true]>) s) in
  vm_ok ram s' T A ∧ preserves None s s'.
Proof.
  intros H [Hk Hl] Hf Hn s'.
  assert (∀ g x, frames s' !! g = Some x → g = f ∧ x = Frame k u (running s) None true ∨ g ≠ f ∧ frames s !! g = Some x) as Hfr.
  { intros g x Hg. cbn in Hg. apply lookup_insert_Some in Hg. naive_solver. }
  split; [| split; [done | done |]; intros t v pl p _ Hp; by exists p].
  split; try apply H.
  - apply NoDup_app. split; [apply H |]. split; [| apply NoDup_singleton].
    intros g Hg ->%list_elem_of_singleton. apply (v_dom _ _ _ _ H) in Hg. rewrite Hn in Hg. by destruct Hg.
  - intros g. cbn. rewrite elem_of_app, list_elem_of_singleton, (v_dom _ _ _ _ H).
    destruct (decide (g = f)) as [-> |]; [rewrite lookup_insert_eq; naive_solver | rewrite lookup_insert_ne by done; naive_solver].
  - intros g Hg. apply elem_of_app. left. by apply (v_hand _ _ _ _ H).
  - intros l [[x Hx]|Hl']; [apply Hfr in Hx as [[-> _]|[_ Hx]]; [done |] |]; apply (v_fresh _ _ _ _ H); eauto.
  - intros g x [[-> ->]|[_ Hg]]%Hfr; [| by apply (v_frame _ _ _ _ H) in Hg]. split; [done |]. split; [| done].
    destruct (v_running _ _ _ _ H) as (x & Hx & _). by exists x.
  - intros g x pl [[-> ->]|[_ Hg]]%Hfr Hp; [done |]. by apply (v_frame_page _ _ _ _ H g x pl).
  - intros g h x y [[-> ->]|[? Hg]]%Hfr [[-> ->]|[? Hh]]%Hfr E; [done | by apply Hl in Hh | by apply Hl in Hg | by eapply (v_kpage _ _ _ _ H)].
  - intros t v pl Ht. destruct (v_spt _ _ _ _ H t v pl Ht) as (p & Hp & Hu & Hok).
    exists p. split; [done |]. split; [done |]. destruct Hok. by split.
  - intros t v pl p x Ht Hp Hx. pose proof (v_placed _ _ _ _ H t v pl p x Ht Hp Hx) as Hpla. unfold placed in *.
    destruct (decide (p_kpage p = 0)); [done |]. destruct Hpla as [(g & y & Hg & Hy) Hrest]. split; [| done].
    exists g, y. cbn. rewrite lookup_insert_ne by congruence. done.
Qed.
(** The frame being loaded. *)
Definition loading s (f : loc) (k u : Z) : Prop := frames s !! f = Some (Frame k u (running s) None true).

Lemma loading_unloaded s T A f k u : vm_ok ram s T A → loading s f k u → unloaded_frame s k.
Proof.
  intros H Hf. split; [apply (v_frame _ _ _ _ H _ _ Hf) |]. intros g x Hg Hp E.
  assert (f = g) as -> by (eapply (v_kpage _ _ _ _ H); [exact Hf | exact Hg | done]). unfold loading in Hf. rewrite Hf in Hg. by injection Hg as <-.
Qed.

(** *** [frame_alloc] *)

(** Nothing can be evicted: every frame is pinned or being loaded, or the
    chosen page has to go to a full swap. *)
Definition exhausted s (A : spaces) : Prop :=
  ¬ page_free (pal (mach s)) true ∧
  (second_chance s A = None ∨ ∀ j, 0 ≤ j < bit_cnt (Swap_bitmap (swap_state s)) → slot_used (swap_state s) j).

Lemma frame_alloc_push s T A k u :
  vm_ok ram s T A → loose s k → k ≠ 0 →
  (∃ s', (if k =? 0 then mret 0 else
    o ← vm_malloc out_of_memory;
    match o with
    | None => on_mach (free_page k);; mret 0
    | Some f => s ← st_get; put_frame f (Frame k u (running s) None true);; st_modify (λ s, set_list (Frame_list s ++ [f]) s);; mret k
    end) s = Ok (0, s') ∧ vm_ok ram s' T A ∧ preserves None s s' ∧ kept s s' ∧ out_of_memory (next_addr s) = true) ∨
  ∃ s' f, (if k =? 0 then mret 0 else
    o ← vm_malloc out_of_memory;
    match o with
    | None => on_mach (free_page k);; mret 0
    | Some f => s ← st_get; put_frame f (Frame k u (running s) None true);; st_modify (λ s, set_list (Frame_list s ++ [f]) s);; mret k
    end) s = Ok (k, s') ∧ vm_ok ram s' T A ∧ preserves None s s' ∧ kept s s' ∧ loading s' f k u ∧
    memory (pal (mach s')) = memory (pal (mach s)).
Proof.
  intros H Hl Hk. apply Z.eqb_neq in Hk as ->.
  destruct (vm_ok_next s T A (Pos.succ (next_addr s)) H ltac:(lia)) as [H1 P1]. set (s1 := set_next (Pos.succ (next_addr s)) s) in *.
  assert (vm_malloc out_of_memory s = Ok (if out_of_memory (next_addr s) then None else Some (next_addr s), s1)) as E1 by done.
  rewrite (st_step _ E1). assert (loose s1 k) as Hl1 by done. destruct (out_of_memory (next_addr s)) eqn:Eo.
  - left. destruct (free_loose s1 T A k H1 Hl1) as (s2 & E2 & H2 & P2 & K2 & _). rewrite (st_step _ E2).
    exists s2. split; [done |]. split; [done |]. split; [by eapply preserves_trans |]. split; [by apply (kept_trans s s1) | done].
  - right. set (f := next_addr s). rewrite st_get_step.
    destruct (vm_ok_push s1 T A f k u H1 Hl1) as [H2 P2]; [cbn; lia | |].
    { destruct (frames s1 !! f) as [y|] eqn:E; [| done]. exfalso. assert (f < next_addr s)%positive; [| unfold f in *; lia].
      apply (v_fresh _ _ _ _ H). left. by exists y. }
    eexists _, f. split; [done |]. split; [exact H2 |]. split; [by apply (preserves_trans _ _ _ _ P1 P2) |]. split; [done |].
    split; [| done]. unfold loading. cbn. apply lookup_insert_eq.
Qed.

Lemma frame_alloc_ok flags u s T A :
  vm_ok ram s T A → has_flag flags PAL_USER = true → has_flag flags PAL_ASSERT = false →
  (frame_alloc out_of_memory flags u s = Err KernelPanic ∧ exhausted s A) ∨
  (∃ s' A', frame_alloc out_of_memory flags u s = Ok (0, s') ∧ vm_ok ram s' T A' ∧ preserves None s s' ∧ kept s s' ∧
    ∃ l, out_of_memory l = true) ∨
  ∃ k s' A' f, frame_alloc out_of_memory flags u s = Ok (k, s') ∧ vm_ok ram s' T A' ∧ preserves None s s' ∧ kept s s' ∧
    loading s' f k u ∧ (has_flag flags PAL_ZERO = true → frame_bytes s' k = replicate 4096 0).
Proof.
  intros H Hu Ha. unfold frame_alloc. rewrite st_assert_true by done.
  destruct (get_page_ok ram flags (pal (mach s)) (d_pages _ _ _ _ (r_dirs _ _ _ _ (v_mach _ _ _ _ H)))) as [[E Hn]|(a & p' & E & Ha0 & _ & G)].
  - rewrite Ha in E. rewrite Hu in Hn.
    assert (on_mach (get_page flags) s = Ok (0, s)) as E1.
    { unfold on_mach, get_page. rewrite E. cbn. by destruct s as [[] ? ? ? ? ? ? ? ? ? ?]. }
    rewrite (st_step _ E1). change (0 =? 0) with true. cbv iota.
    pose proof (frame_evict_ok ram flags s T A H) as Hev. destruct (second_chance s A) as [x|] eqn:Ex.
    2: { left. split; [by apply st_step_err |]. split; [done | by left]. }
    destruct Hev as (f & Hf & [[E2 Hfull]|(s2 & A2 & E2 & H2 & P2 & Ev & Hl & Hz)]).
    { left. split; [by apply st_step_err |]. split; [done | by right]. }
    destruct (frame_nonzero _ _ _ _ _ _ H Hf) as [Hk _].
    assert (kept s s2) as K2 by (apply (evicted_kept _ _ _ Ev P2); intros; congruence).
    right. rewrite (st_step _ E2).
    destruct (frame_alloc_push s2 T A2 (f_kpage f) u H2 Hl Hk) as [(s3 & E3 & H3 & P3 & K3 & Ho)|(s3 & g & E3 & H3 & P3 & K3 & Hg & Em)].
    + left. exists s3, A2. split; [exact E3 |]. split; [done |]. split; [by eapply preserves_trans |]. split; [by eapply kept_trans | eauto].
    + right. exists (f_kpage f), s3, A2, g. split; [exact E3 |]. split; [done |].
      split; [by eapply preserves_trans |]. split; [by eapply kept_trans |]. split; [done |]. intros Hf0. unfold frame_bytes. rewrite Em. by apply Hz.
  - right. destruct (vm_ok_got s T A flags a p' H Hu G) as (H2 & P2 & Hl). set (s2 := set_mach (set_pal p' (mach s)) s) in *.
    assert (on_mach (get_page flags) s = Ok (a, s2)) as E1 by (unfold on_mach, get_page; by rewrite E).
    rewrite (st_step _ E1). assert (a ≠ 0) as Hk by lia. pose proof Hk as Hk'. apply Z.eqb_neq in Hk' as ->. rewrite st_ret_step.
    assert (kept s s2) as K2.
    { split; try done. apply page_free_mono; [apply G |]. intros b Hb. apply (pg_old _ _ _ _ _ G) in Hb as [|[Eu _]]; [done |].
      by rewrite Hu in Eu. }
    destruct (frame_alloc_push s2 T A a u H2 Hl Hk) as [(s3 & E3 & H3 & P3 & K3 & Ho)|(s3 & g & E3 & H3 & P3 & K3 & Hg & Em)].
    + left. exists s3, A. split; [exact E3 |]. split; [done |]. split; [by eapply preserves_trans |]. split; [by eapply kept_trans | eauto].
    + right. exists a, s3, A, g. split; [exact E3 |]. split; [done |].
      split; [by eapply preserves_trans |]. split; [by eapply kept_trans |]. split; [done |]. intros Hf0. unfold frame_bytes. rewrite Em.
      apply page_zero. intros b Hb. apply (pg_zero _ _ _ _ _ G); [done |]. unfold off_page, PGSIZE. lia.
Qed.
(** *** Filling the frame *)

Lemma page_sizes s p :
  page_ok s p → i32 (p_read_bytes p) = p_read_bytes p ∧ (Z.to_nat (p_read_bytes p) + Z.to_nat (p_zero_bytes p) = 4096)%nat.
Proof. intros Hp. destruct (po_bytes _ _ Hp) as (H1 & H2 & H3). split; [apply i32_id; lia | lia]. Qed.

Lemma load_frame_ok s T A f k u p :
  vm_ok ram s T A → loading s f k u → page_ok s p →
  ∃ b s', load_frame p k s = Ok (b, s') ∧ vm_ok ram s' T A ∧ preserves None s s' ∧ kept s s' ∧ loading s' f k u ∧
    pages s' = pages s ∧ (if b then frame_bytes s' k = backing s p else length (backing s p) ≠ 4096%nat).
Proof.
  intros H Hf Hp. pose proof (loading_unloaded _ _ _ _ _ _ H Hf) as Hk.
  destruct (frame_mapped _ _ _ _ _ H (proj1 Hk)) as (K0 & _ & _ & Hm & Hb).
  unfold load_frame. destruct (decide (p_type p ≠ PAGE_ANON)) as [Ht|Ht].
  - destruct (po_file _ _ Hp Ht) as [Hofs [b Hbs]]. destruct (p_file p) as [g|] eqn:Eg; [cbn in Hbs | done].
    rewrite (st_lift_step _ g _ _ eq_refl). destruct (po_bytes _ _ Hp) as (B1 & B2 & B3).
    destruct (store_read_ok (filesys s) g b (p_read_bytes p) (p_ofs p) (v_files _ _ _ _ H) Hbs Hofs) as (x & E & Hx & Hsame); [lia |].
    set (got := take _ (drop _ b)) in E. assert (length got ≤ Z.to_nat (p_read_bytes p))%nat as Hlen by (unfold got; rewrite length_take; lia).
    destruct (vm_ok_files s T A x H Hx Hsame) as [H1 P1]. set (s1 := set_filesys x s) in *.
    assert (on_files (store_read_at g (p_read_bytes p) (p_ofs p)) s = Ok (got, s1)) as E1 by (unfold on_files; by rewrite E).
    rewrite (st_step _ E1).
    destruct (write_bytes_ok got (memory (pal (mach s))) k) as (M & Ew & Hat & Hout & Hsome & Hbm);
      [eapply mapped_sub; [exact Hm | lia | lia] |].
    destruct (vm_ok_memory ram s1 T A M k H1 Hk) as [H2 P2].
    { apply Hbm; [done |]. unfold got. apply Forall_take, Forall_drop. by eapply store_bytes_ok; [apply H |]. }
    { intros c Hc. by apply Hsome. }
    { intros c Hc. apply Hout. lia. }
    rewrite (st_step _ (on_memory_ok _ s1 M Ew)). set (s2 := put_memory M s1) in *.
    pose proof (preserves_trans _ _ _ _ P1 P2) as P12.
    destruct (page_sizes s p Hp) as [-> Hsum].
    destruct (Z.eqb_spec (Z.of_nat (length got)) (p_read_bytes p)) as [El|]; cbn [negb].
    + destruct (vm_memset_ok ram s2 T A k (k + p_read_bytes p) (p_zero_bytes p) H2 Hk) as (M3 & E3 & H3 & P3 & HM3); [lia.. |].
      rewrite (st_step _ E3). exists true, (put_memory M3 s2). split; [done |]. split; [done |].
      split; [by apply (preserves_trans _ s s2) |]. split; [by split; try apply Hsame |]. split; [done |]. split; [done |].
      unfold frame_bytes, page_at. rewrite <-Hsum, bytes_from_app.
      unfold backing. rewrite Eg. cbn [mbind option_bind]. rewrite Hbs. destruct (p_type p) eqn:Etp; [| | done].
      all: f_equal; [| apply bytes_zero; intros c Hc; cbn; rewrite HM3; by rewrite decide_True by lia].
      all: fold got; replace (Z.to_nat (p_read_bytes p)) with (length got) by lia; apply bytes_from_at.
      all: intros i c Hc; cbn; rewrite HM3, decide_False; [by apply Hat | apply lookup_lt_Some in Hc; lia].
    + exists false, s2. split; [done |]. split; [done |]. split; [done |]. split; [by split; try apply Hsame |].
      split; [done |]. split; [done |]. unfold backing. rewrite Eg. cbn [mbind option_bind]. rewrite Hbs. fold got.
      destruct (p_type p); [| | done]; rewrite length_app, length_replicate; lia.
  - destruct (vm_memset_ok ram s T A k k 4096 H Hk) as (M & E & H1 & P1 & HM); [lia.. |].
    unfold PGSIZE. rewrite (st_step _ E). exists true, (put_memory M s). split; [done |]. split; [done |]. split; [done |].
    split; [done |]. split; [done |]. split; [done |]. unfold backing.
    assert (p_type p = PAGE_ANON) as -> by (destruct (decide (p_type p = PAGE_ANON)); [done | by destruct Ht]).
    apply page_zero. intros c Hc. cbn. by rewrite HM, decide_True.
Qed.
(** *** The page comes back from swap *)

Definition swapped_in s (M : mem) (sw : swap D) (pl : loc) (p : page) : vm D F :=
  set_pages (<[pl := set_slot PAGE_NO_SLOT p]>) (put_memory M (set_swap sw s)).

Lemma vm_ok_swapped_in s T A f k t u pl p M sw :
  vm_ok ram s T A → loading s f k u → spt_map s t !! u = Some pl → pages s !! pl = Some p → p_kpage p = 0 →
  p_swap_slot p ≠ PAGE_NO_SLOT → slot_emptied (swap_state s) sw (p_swap_slot p) →
  bytes_mem M → (∀ b, is_Some (memory (pal (mach s)) !! b) → is_Some (M !! b)) →
  outside (memory (pal (mach s))) M k 4096 →
  vm_ok ram (swapped_in s M sw pl p) T A ∧ preserves (Some pl) s (swapped_in s M sw pl p).
Proof.
  intros H Hf Ht Hp Hk Hsl He HM HMs HMo. pose proof (loading_unloaded _ _ _ _ _ _ H Hf) as Hu.
  destruct (vm_ok_memory ram s T A M k H Hu HM HMs HMo) as [H0 P0].
  set (s' := swapped_in s M sw pl p). pose proof (v_mach _ _ _ _ H0) as Hmach.
  assert (∀ k', frame_bytes s' k' = frame_bytes (put_memory M s) k') as Eb by done.
  assert (∀ q y, pages s' !! q = Some y → q = pl ∧ y = set_slot PAGE_NO_SLOT p ∨ q ≠ pl ∧ pages s !! q = Some y) as Hpg.
  { intros q y Hq. change (pages s') with (<[pl := set_slot PAGE_NO_SLOT p]> (pages s)) in Hq.
    apply lookup_insert_Some in Hq. naive_solver. }
  assert (∀ q, backing s' q = backing s q) as Ebk by done.
  (* other slots in use *)
  assert (∀ t u q y, spt_map s t !! u = Some q → pages s !! q = Some y → q ≠ pl → p_swap_slot y ≠ PAGE_NO_SLOT →
    p_swap_slot y ≠ p_swap_slot p ∧ slot_used sw (p_swap_slot y) ∧ slot_bytes sw (p_swap_slot y) = slot_bytes (swap_state s) (p_swap_slot y)) as Hslot.
  { intros t1 u1 q y Hq Hy Hn Hs. assert (p_swap_slot y ≠ p_swap_slot p) as Hd.
    { intros E. apply Hn. by apply (v_slots _ _ _ _ H t1 t u1 u q pl y p). }
    split; [done |]. destruct (v_spt _ _ _ _ H _ _ _ Hq) as (y' & Hy' & _ & Hok). assert (y' = y) as -> by congruence.
    destruct (po_slot _ _ Hok) as [|Hus]; [done |]. split; [by apply (se_used _ _ _ He) | apply (se_other _ _ _ He)]. }
  split.
  - split; try apply H; try done.
    + apply He.
    + intros l Hl. apply (v_fresh _ _ _ _ H). destruct Hl as [?|[y [[-> _]|[_ ?]]%Hpg]]; eauto.
    + intros g x q Hg Hx. destruct (v_frame_page _ _ _ _ H g x q Hg Hx) as (y & Hy & E1 & E2 & E3).
      assert (q ≠ pl) as Hn.
      { intros ->. assert (y = p) as -> by congruence. destruct (frame_nonzero _ _ _ _ _ _ H Hg) as [Hz _]. congruence. }
      exists y. split; [cbn; by rewrite lookup_insert_ne | done].
    + intros t1 u1 q Hq. destruct (v_spt _ _ _ _ H _ _ _ Hq) as (y & Hy & E1 & Hok).
      destruct (decide (q = pl)) as [-> |Hn].
      * assert (y = p) as -> by congruence. exists (set_slot PAGE_NO_SLOT p). split; [apply lookup_insert_eq |]. split; [done |].
        destruct Hok. split; try done. by left.
      * exists y. split; [cbn; by rewrite lookup_insert_ne |]. split; [done |]. pose proof (Hslot _ _ _ _ Hq Hy Hn) as Hsy.
        destruct Hok. split; try done. cbn. destruct (decide (p_swap_slot y = PAGE_NO_SLOT)); [by left | right; by apply Hsy].
    + intros t1 u1 q y x Hq Hy Hx. apply Hpg in Hy as [[-> ->]|[Hn Hy]].
      * pose proof (v_placed _ _ _ _ H _ _ _ _ _ Hq Hp Hx) as Hpl. unfold placed in *. cbn. by rewrite decide_True in Hpl |- * by done.
      * pose proof (v_placed _ _ _ _ H0 _ _ _ _ _ Hq Hy Hx) as Hpl. exact Hpl.
    + intros t1 t2 u1 u2 q1 q2 y1 y2 Hq1 Hq2 [[-> ->]|[Hn1 Hy1]]%Hpg [[-> ->]|[Hn2 Hy2]]%Hpg E Hno; try done.
      by apply (v_slots _ _ _ _ H t1 t2 u1 u2 q1 q2 y1 y2).
  - split; [done | done |]. intros t1 u1 q y Hq Hy. destruct (decide (q = pl)) as [-> |Hn].
    + exists (set_slot PAGE_NO_SLOT p). assert (y = p) as -> by congruence. split; [apply lookup_insert_eq |]. by split_and!.
    + exists y. split; [cbn; by rewrite lookup_insert_ne |]. split; [done |]. split; [done |]. intros _.
      destruct (k_pages _ _ _ P0 _ _ _ _ Hq Hy) as (y' & Hy' & _ & _ & Hv). cbn in Hy'. assert (y' = y) as -> by congruence.
      specialize (Hv ltac:(done)). unfold value in *. rewrite Eb, Ebk.
      destruct (p_kpage y =? 0); [| done]. destruct (Z.eqb_spec (p_swap_slot y) PAGE_NO_SLOT); [done |].
      by destruct (Hslot _ _ _ _ Hq Hy Hn) as (_ & _ & ?).
Qed.
(** *** Finding a frame, and dropping it *)

Lemma find_frame_ok s T A x f :
  vm_ok ram s T A → frames s !! x = Some f →
  find_frame (Frame_list s) (λ g, f_kpage g =? f_kpage f) s = Ok (Some x, s).
Proof.
  intros H Hf. assert (x ∈ Frame_list s) as Hx by (apply (v_dom _ _ _ _ H); eauto).
  assert (∀ l, (∀ y, y ∈ l → y ∈ Frame_list s) → x ∈ l → find_frame l (λ g, f_kpage g =? f_kpage f) s = Ok (Some x, s)) as Hl.
  { induction l as [|y l IH]; [by intros _ ?%not_elem_of_nil |]. intros Hin Hxl.
    assert (y ∈ Frame_list s) as Hy by (apply Hin; left). apply (v_dom _ _ _ _ H) in Hy as [g Hg].
    cbn [find_frame]. rewrite (st_step _ (get_frame_ok s y g Hg)). destruct (Z.eqb_spec (f_kpage g) (f_kpage f)) as [E|E].
    - by rewrite (v_kpage _ _ _ _ H y x g f).
    - apply elem_of_cons in Hxl as [<-|Hxl]; [by rewrite Hf in Hg; injection Hg as <- |].
      apply IH; [| done]. intros z Hz. apply Hin. by right. }
  by apply Hl.
Qed.

Definition popped s (f : loc) : vm D F := set_frames (delete f) (set_list (drop_elem f (Frame_list s)) (set_hand (hand_past s f) s)).

Lemma vm_ok_pop s T A f k u :
  vm_ok ram s T A → loading s f k u → vm_ok ram (popped s f) T A ∧ preserves None s (popped s f) ∧ loose (popped s f) k.
Proof.
  intros H Hf. assert (f ∈ Frame_list s) as Hx by (apply (v_dom _ _ _ _ H); eauto).
  pose proof (hand_past_elem ram s T A f H Hx) as Hh.
  assert (∀ g x, frames (popped s f) !! g = Some x → g ≠ f ∧ frames s !! g = Some x) as Hfr.
  { intros g x Hg. change (frames (popped s f)) with (delete f (frames s)) in Hg. apply lookup_delete_Some in Hg. naive_solver. }
  split; [| split].
  - split; try apply H; try done.
    + apply NoDup_filter, H.
    + intros g. change (frames (popped s f)) with (delete f (frames s)). change (Frame_list (popped s f)) with (drop_elem f (Frame_list s)).
      unfold drop_elem. rewrite list_elem_of_filter, (v_dom _ _ _ _ H).
      destruct (decide (g = f)) as [-> |]; [rewrite lookup_delete_eq; split; [tauto | by intros []] | rewrite lookup_delete_ne by done; tauto].
    + intros l [[x [_ Hx']%Hfr]|Hl]; apply (v_fresh _ _ _ _ H); eauto.
    + intros g x [_ Hg]%Hfr. by apply (v_frame _ _ _ _ H) in Hg.
    + intros g x pl [_ Hg]%Hfr. by apply (v_frame_page _ _ _ _ H g x pl).
    + intros g h x y [_ Hg]%Hfr [_ Hh']%Hfr. by apply (v_kpage _ _ _ _ H).
    + intros t v pl Ht. destruct (v_spt _ _ _ _ H t v pl Ht) as (p & Hp & Hu & Hok).
      exists p. split; [done |]. split; [done |]. destruct Hok. by split.
    + intros t v pl p x Ht Hp Hy. pose proof (v_placed _ _ _ _ H t v pl p x Ht Hp Hy) as Hpla. unfold placed in *.
      destruct (decide (p_kpage p = 0)); [done |]. destruct Hpla as [(g & y & Hg & Hgy) Hrest]. split; [| done].
      exists g, y. split; [| done]. change (delete f (frames s) !! g = Some y). rewrite lookup_delete_ne; [done |].
      intros <-. unfold loading in Hf. rewrite Hf in Hg. by injection Hg as <-.
  - split; [done | done |]. intros t v pl p _ Hp. by exists p.
  - split; [apply (v_frame _ _ _ _ H _ _ Hf) |]. intros g x [Hn Hg]%Hfr E. apply Hn.
    by apply (v_kpage _ _ _ _ H g f x (Frame k u (running s) None true)).
Qed.

Lemma frame_free_ok s T A f k u :
  vm_ok ram s T A → loading s f k u →
  ∃ s', frame_free k s = Ok (tt, s') ∧ vm_ok ram s' T A ∧ preserves None s s' ∧ kept s s'.
Proof.
  intros H Hf. unfold frame_free. rewrite st_get_step.
  pose proof (find_frame_ok s T A f _ H Hf) as Ef. cbn [f_kpage] in Ef. rewrite (st_step _ Ef).
  destruct (vm_ok_pop s T A f k u H Hf) as (H1 & P1 & Hl).
  destruct (free_loose (popped s f) T A k H1 Hl) as (s' & E & H' & P' & K' & _).
  exists s'. split; [| split; [done |]].
  - rewrite st_assoc, (st_step _ (hand_past_step s f)). exact E.
  - split; [by eapply preserves_trans | by apply (kept_trans s (popped s f))].
Qed.
(** *** The page gets its frame *)

Lemma entry_put A pd a v y : A !! pd = Some a →
  ∀ pd' w, entry (<[pd := <[v := y]> a]> A) pd' w =
    if decide (pd' = pd ∧ w = v) then Some (PagedirThm.set_accessed false y) else entry A pd' w.
Proof.
  intros Ha pd' w. unfold entry. destruct (decide (pd' = pd)) as [-> |].
  - rewrite lookup_insert_eq, Ha. cbn [mbind option_bind]. destruct (decide (w = v)) as [-> |].
    + by rewrite decide_True, lookup_insert_eq.
    + rewrite lookup_insert_ne by congruence. by rewrite decide_False by naive_solver.
  - by rewrite lookup_insert_ne, decide_False by naive_solver.
Qed.

Definition installed s (m : machine) (f : loc) (k : Z) (pl : loc) (p : page) : vm D F :=
  set_frames (<[f := Frame k (p_upage p) (running s) (Some pl) false]>) (set_pages (<[pl := set_kpage k p]>) (set_mach m s)).

Section install.
Context (lost : option loc) (s : vm D F) (T T' : tables) (A : spaces) (f : loc) (k : Z) (pl : loc) (p : page) (x : proc)
  (a : gmap Z mapping) (m : machine) (d : bool).
Context (H : vm_ok ram s T A) (Hf : loading s f k (p_upage p)) (Hx : procs s !! running s = Some x)
  (Hs : spt_map s (running s) !! p_upage p = Some pl) (Hp : pages s !! pl = Some p) (Hk0 : p_kpage p = 0)
  (Hslot : p_swap_slot p = PAGE_NO_SLOT) (Ha : A !! pagedir x = Some a).
Let A' : spaces := <[pagedir x := <[pg_no (p_upage p) := Mapping k true (p_writable p) false d]> a]> A.
Context (Hr : repr ram m T' A') (Hd : dirs_step T' (pal (mach s)) (pal m)) (Hc : same_cpu (mach s) m).
Context (Hclean : d = false → p_type p ≠ PAGE_ANON → frame_bytes s k = backing s p)
  (Hval : Some pl ≠ lost → frame_bytes s k = value s p).
Let s' := installed s m f k pl p.

Lemma in_bytes b : in_use (pal (mach s)) true b → frame_bytes s' b = frame_bytes s b.
Proof using Hr Hd.
  intros Hb. apply bytes_from_same. intros c Hcc. by apply (step_frame ram _ _ _ _ _ (r_dirs _ _ _ _ Hr) Hd Hb).
Qed.

Lemma in_frames g y : frames s' !! g = Some y →
  (g = f ∧ y = Frame k (p_upage p) (running s) (Some pl) false) ∨ (g ≠ f ∧ frames s !! g = Some y).
Proof.
  intros Hg. change (frames s') with (<[f := Frame k (p_upage p) (running s) (Some pl) false]> (frames s)) in Hg.
  apply lookup_insert_Some in Hg as [[<- <-]|[Hn Hg]]; [by left | right]. by split.
Qed.

Lemma in_pages q y : pages s' !! q = Some y → (q = pl ∧ y = set_kpage k p) ∨ (q ≠ pl ∧ pages s !! q = Some y).
Proof.
  intros Hq. change (pages s') with (<[pl := set_kpage k p]> (pages s)) in Hq.
  apply lookup_insert_Some in Hq as [[<- <-]|[Hn Hq]]; [by left | right]. by split.
Qed.

(** No frame had the page. *)
Lemma in_no_frame g y : frames s !! g = Some y → f_page y ≠ Some pl.
Proof using H Hp Hk0.
  intros Hg Hy. destruct (v_frame_page _ _ _ _ H g y pl Hg Hy) as (p1 & Hp1 & E & _).
  destruct (frame_nonzero _ _ _ _ _ _ H Hg) as [Hn _]. congruence.
Qed.

Lemma in_value t u q y : spt_map s t !! u = Some q → pages s !! q = Some y → value s' y = value s y.
Proof using H Hr Hd.
  intros Hq Hy. unfold value. destruct (Z.eqb_spec (p_kpage y) 0) as [|Hn]; [done |]. apply in_bytes.
  destruct (page_frame _ _ _ _ _ _ _ _ H Hq Hy Hn) as (g & z & Hg & _ & <- & _). by apply (v_frame _ _ _ _ H _ _ Hg).
Qed.

Lemma in_placed t u q y z :
  spt_map s' t !! u = Some q → pages s' !! q = Some y → procs s' !! t = Some z → placed s' A' (pagedir z) q y.
Proof using H Hf Hx Hs Hp Hk0 Ha Hr Hd Hclean.
  intros Hq Hy Hz. change (spt_map s' t) with (spt_map s t) in Hq. change (procs s') with (procs s) in Hz.
  pose proof (entry_put A (pagedir x) a (pg_no (p_upage p)) (Mapping k true (p_writable p) false d) Ha) as Hent. fold A' in Hent.
  destruct (frame_nonzero _ _ _ _ _ _ H Hf) as [Hk _]. cbn in Hk.
  apply in_pages in Hy as [[-> ->]|[Hn Hy]].
  - assert (t = running s) as -> by (by apply (v_inj _ _ _ _ H t (running s) u (p_upage p) pl)).
    assert (z = x) as -> by congruence. unfold placed. cbn [p_kpage set_kpage p_upage p_writable p_type].
    rewrite decide_False by done. split.
    + exists f, (Frame k (p_upage p) (running s) (Some pl) false). split; [apply lookup_insert_eq | done].
    + exists d. rewrite Hent, decide_True by done. split; [done |]. intros E Ht. rewrite in_bytes by by apply (v_frame _ _ _ _ H _ _ Hf).
      by apply Hclean.
  - pose proof (v_placed _ _ _ _ H _ _ _ _ _ Hq Hy Hz) as Hpl. unfold placed in *.
    destruct (v_spt _ _ _ _ H _ _ _ Hq) as (y' & Hy' & Eu & _). assert (y' = y) as -> by congruence.
    assert (entry A' (pagedir z) (pg_no (p_upage y)) = entry A (pagedir z) (pg_no (p_upage y))) as ->.
    { rewrite Hent, decide_False; [done |]. intros [E1 E2]. apply Hn. rewrite Eu in E2.
      by eapply (same_place ram s T A); [done | exact Hq | exact Hs | exact Hz | exact Hx | done | done]. }
    destruct (decide (p_kpage y = 0)) as [|Hk1]; [done |]. destruct Hpl as [(g & w & Hg & Hw) (c & Ec & Hcl)]. split.
    + exists g, w. split; [| done]. change (<[f := Frame k (p_upage p) (running s) (Some pl) false]> (frames s) !! g = Some w).
      rewrite lookup_insert_ne; [done |]. intros <-. unfold loading in Hf. rewrite Hf in Hg. by injection Hg as <-.
    + exists c. split; [done |]. intros E Ht. pose proof (in_value _ _ _ _ Hq Hy) as Hv. unfold value in Hv.
      apply Z.eqb_neq in Hk1. rewrite Hk1 in Hv. rewrite Hv. by apply Hcl.
Qed.

Lemma vm_ok_installed : vm_ok ram s' T' A' ∧ preserves lost s s'.
Proof using All.
  pose proof (entry_put A (pagedir x) a (pg_no (p_upage p)) (Mapping k true (p_writable p) false d) Ha) as Hent. fold A' in Hent.
  destruct (frame_nonzero _ _ _ _ _ _ H Hf) as [Hk _]. cbn in Hk.
  split; [split; try apply H; try done |].
  - intros g. change (frames s') with (<[f := Frame k (p_upage p) (running s) (Some pl) false]> (frames s)).
    change (Frame_list s') with (Frame_list s). rewrite (v_dom _ _ _ _ H).
    destruct (decide (g = f)) as [-> |]; [unfold loading in Hf; rewrite lookup_insert_eq, Hf | by rewrite lookup_insert_ne].
    split; intros _; by eexists.
  - intros l Hl. apply (v_fresh _ _ _ _ H). destruct Hl as [[y [[-> _]|[_ Hy]]%in_frames]|[y [[-> _]|[_ Hy]]%in_pages]]; eauto.
  - intros g y [[-> ->]|[_ Hg]]%in_frames.
    + destruct (v_frame _ _ _ _ H _ _ Hf) as (H1 & H2 & _). split; [by apply Hd | done].
    + destruct (v_frame _ _ _ _ H _ _ Hg) as (H1 & H2 & H3). split; [by apply Hd | done].
  - intros g y q [[-> ->]|[_ Hg]]%in_frames Hq.
    + injection Hq as <-. exists (set_kpage k p). split; [apply lookup_insert_eq | done].
    + destruct (v_frame_page _ _ _ _ H g y q Hg Hq) as (p1 & Hp1 & Hrest). exists p1. split; [| done].
      change (<[pl := set_kpage k p]> (pages s) !! q = Some p1). rewrite lookup_insert_ne; [done |]. intros E. apply (in_no_frame _ _ Hg). congruence.
  - intros g h y z [[-> ->]|[? Hg]]%in_frames [[-> ->]|[? Hh]]%in_frames E; [done | | | by apply (v_kpage _ _ _ _ H g h y z)].
    + exfalso. assert (f = h); [by apply (v_kpage _ _ _ _ H f h _ z Hf) | congruence].
    + exfalso. assert (g = f); [by apply (v_kpage _ _ _ _ H g f y _ Hg Hf) | congruence].
  - intros u y Hy. destruct (v_proc _ _ _ _ H _ _ Hy) as (H1 & H2 & H3). split; [done |]. split; [done |]. intros Hn.
    destruct (H3 Hn) as [H4 H5]. destruct Hc as [_ Ei]. change (mach s') with m. rewrite Ei. split; [| done].
    unfold A'. destruct (decide (pagedir y = pagedir x)) as [-> |]; [rewrite lookup_insert_eq; eauto | by rewrite lookup_insert_ne].
  - intros t u q Hq. destruct (v_spt _ _ _ _ H _ _ _ Hq) as (y & Hy & Eu & Hok). destruct (decide (q = pl)) as [-> |Hn].
    + assert (y = p) as -> by congruence. exists (set_kpage k p). split; [apply lookup_insert_eq |]. split; [done |]. destruct Hok. by split.
    + exists y. split; [change (<[pl := set_kpage k p]> (pages s) !! q = Some y); by rewrite lookup_insert_ne |].
      split; [done |]. destruct Hok. by split.
  - exact in_placed.
  - intros t z v n Hz He Hpr. rewrite Hent in He. case_decide as Hd'; [| by apply (v_mapped _ _ _ _ H t z v n)].
    destruct Hd' as [E ->]. assert (t = running s) as ->.
    { destruct (decide (pagedir z = 0)) as [E0|]; [| by apply (v_dirs _ _ _ _ H t (running s) z x)].
      destruct (v_proc _ _ _ _ H _ _ Hx) as (_ & Hzero & _). rewrite E in E0. by rewrite (Hzero E0) in Hs. }
    by exists (p_upage p), pl.
  - intros t1 t2 u1 u2 q1 q2 y1 y2 Hq1 Hq2 Hy1 Hy2 E Hno.
    assert (∀ q y, pages s' !! q = Some y → ∃ y', pages s !! q = Some y' ∧ p_swap_slot y' = p_swap_slot y) as Hsame.
    { intros q y [[-> ->]|[_ ?]]%in_pages; eauto. }
    destruct (Hsame _ _ Hy1) as (z1 & Hz1 & E1), (Hsame _ _ Hy2) as (z2 & Hz2 & E2).
    apply (v_slots _ _ _ _ H t1 t2 u1 u2 q1 q2 z1 z2); try done; congruence.
  - destruct (v_running _ _ _ _ H) as (y & Hy & Hact). exists y. split; [done |]. destruct Hc as [Ec Ei]. unfold active in *.
    change (mach s') with m. by rewrite Ec, Ei.
  - split; [done | done |]. intros t u q y Hq Hy. destruct (decide (q = pl)) as [-> |Hn].
    + assert (y = p) as -> by congruence. exists (set_kpage k p). split; [apply lookup_insert_eq |]. split; [done |]. split; [done |].
      intros Hl. rewrite <-Hval by done. unfold value. cbn [p_kpage set_kpage]. apply Z.eqb_neq in Hk as ->.
      apply in_bytes. by apply (v_frame _ _ _ _ H _ _ Hf).
    + exists y. split; [change (<[pl := set_kpage k p]> (pages s) !! q = Some y); by rewrite lookup_insert_ne |].
      split; [done |]. split; [done |]. intros _. by eapply in_value.
Qed.
End install.
(** ** [handle_mm_fault] *)

(** Looking for a frame depends on the frame table only. *)
Lemma find_frame_same l test s s' r :
  frames s' = frames s → find_frame l test s = Ok (r, s) → find_frame l test s' = Ok (r, s').
Proof.
  intros E. induction l as [|y l IH]; cbn [find_frame]; [by intros [= ->] |]. unfold get_frame, mbind, st_bind. cbn. rewrite E.
  destruct (frames s !! y) as [g|]; [| done]. cbn. destruct (test g); [by intros [= <-] | exact IH].
Qed.

(** The process whose pages fault. *)
Lemma running_proc s T A u pl :
  vm_ok ram s T A → spt_map s (running s) !! u = Some pl →
  ∃ x a, procs s !! running s = Some x ∧ A !! pagedir x = Some a ∧ pagedir x ≠ init_page_dir (mach s) ∧
    pagedir x ≠ 0 ∧ active (mach s) = pagedir x.
Proof.
  intros H Hs. destruct (v_running _ _ _ _ H) as (x & Hx & Ha). destruct (v_proc _ _ _ _ H _ _ Hx) as (_ & H0 & Hn).
  assert (pagedir x ≠ 0) as Hne by (intros E; rewrite (H0 E) in Hs; by rewrite lookup_empty in Hs).
  destruct (Hn Hne) as [[a HA] Hi]. exists x, a. split_and!; try done. rewrite Ha. by apply Z.eqb_neq in Hne as ->.
Qed.

Lemma current_proc_ok s x : procs s !! running s = Some x → current_proc s = Ok ((running s, x), s).
Proof. intros E. unfold current_proc. by rewrite st_get_step, (st_step _ (get_proc_ok s _ x E)). Qed.

(** What a fault leaves alone besides the contents of pages. *)
Definition undisturbed s s' : Prop :=
  mmaps s' = mmaps s ∧ (∀ g, store_bytes (filesys s') g = store_bytes (filesys s) g) ∧ init_page_dir (mach s') = init_page_dir (mach s).

Lemma undisturbed_trans s1 s2 s3 : undisturbed s1 s2 → undisturbed s2 s3 → undisturbed s1 s3.
Proof. intros (E1 & E2 & E3) (F1 & F2 & F3). split; [congruence |]. split; [| congruence]. intros g. by rewrite F2. Qed.

Lemma kept_undisturbed s s' : kept s s' → undisturbed s s'.
Proof. intros K. split; [apply K |]. split; apply K. Qed.

Lemma backing_kept s s' p : kept s s' → backing s' p = backing s p.
Proof. intros K. unfold backing. destruct (p_file p) as [g|]; [| done]. cbn. by rewrite (kp_files _ _ K). Qed.

(** The last part of [handle_mm_fault]: the page table, the page, the frame. *)
Definition map_loaded (pl : loc) (p : page) (kpage : Z) (dirty : bool) : ST (vm D F) bool :=
  '(_, t) ← current_proc;
  ok ← on_mach (pagedir_set_page ram (pagedir t) (p_upage p) kpage (p_writable p));
  if negb (ok : bool) then frame_free kpage;; mret false
  else
    (if dirty then on_mach (pagedir_set_dirty (pagedir t) (p_upage p) true) else mret tt);;
    p ← get_pg pl;
    put_pg pl (set_kpage kpage p);;
    frame_install kpage pl;;
    mret true.

Lemma install_run s s' f k pl p T A :
  vm_ok ram s T A → loading s f k (p_upage p) → pages s !! pl = Some p → frames s' = frames s → Frame_list s' = Frame_list s →
  pages s' = pages s → (p ← get_pg pl; put_pg pl (set_kpage k p);; frame_install k pl;; mret true) s' =
    Ok (true, set_frames (<[f := Frame k (p_upage p) (running s) (Some pl) false]>) (set_pages (<[pl := set_kpage k p]>) s')).
Proof.
  intros H Hf Hp E1 E2 E3. assert (pages s' !! pl = Some p) as Hp' by congruence. rewrite (st_step _ (get_pg_ok s' pl p Hp')).
  set (s2 := set_pages (<[pl := set_kpage k p]>) s'). assert (put_pg pl (set_kpage k p) s' = Ok (tt, s2)) as Ep by done.
  rewrite (st_step _ Ep). unfold frame_install. rewrite st_assoc, st_get_step, st_assoc.
  pose proof (find_frame_ok s T A f _ H Hf) as Ef. cbn [f_kpage] in Ef.
  apply (find_frame_same _ _ s s2) in Ef; [| done]. change (Frame_list s2) with (Frame_list s'). rewrite E2, (st_step _ Ef).
  assert (frames s2 !! f = Some (Frame k (p_upage p) (running s) None true)) as Hf2 by (change (frames s2) with (frames s'); by rewrite E1).
  by rewrite st_assoc, (st_step _ (get_frame_ok s2 f _ Hf2)).
Qed.

Lemma map_loaded_ok lost s T A f k pl p dirty :
  vm_ok ram s T A → loading s f k (p_upage p) → spt_map s (running s) !! p_upage p = Some pl → pages s !! pl = Some p →
  p_kpage p = 0 → p_swap_slot p = PAGE_NO_SLOT →
  (dirty = false → p_type p ≠ PAGE_ANON → frame_bytes s k = backing s p) → (Some pl ≠ lost → frame_bytes s k = value s p) →
  ∃ b s' T' A', map_loaded pl p k dirty s = Ok (b, s') ∧ vm_ok ram s' T' A' ∧ preserves (if b then lost else None) s s' ∧
    undisturbed s s' ∧ (b = true → pages s' !! pl = Some (set_kpage k p) ∧ frame_bytes s' k = frame_bytes s k) ∧ k ≠ 0 ∧
    (b = false → ¬ page_free (pal (mach s)) false).
Proof.
  intros H Hf Hs Hp Hk0 Hsl Hclean Hval. destruct (running_proc s T A _ _ H Hs) as (x & a & Hx & Ha & Hi & Hn0 & _).
  destruct (frame_nonzero _ _ _ _ _ _ H Hf) as [Hk Hfok]. cbn [f_kpage] in Hk, Hfok.
  destruct (frame_mapped _ _ _ _ _ H (proj1 (v_frame _ _ _ _ H _ _ Hf))) as (_ & _ & Hram & _). cbn [f_kpage] in Hram.
  destruct (v_spt _ _ _ _ H _ _ _ Hs) as (p' & Hp' & _ & Hok). assert (p' = p) as -> by congruence.
  destruct (po_upage _ _ Hok) as [Hu1 Hu2].
  unfold map_loaded. rewrite (st_step _ (current_proc_ok s x Hx)).
  assert (∀ m, a !! pg_no (p_upage p) = Some m → m_present m = false) as Hnp.
  { intros m Hm. pose proof (v_placed _ _ _ _ H _ _ _ _ _ Hs Hp Hx) as Hpl. unfold placed in Hpl. rewrite decide_True in Hpl by done.
    assert (m_present (PagedirThm.set_accessed false m) = false) as E; [| exact E]. apply Hpl. unfold entry.
    rewrite Ha. cbn. by rewrite Hm. }
  destruct (pagedir_set_page_ok (mach s) T A (pagedir x) a (p_upage p) k (p_writable p) (v_mach _ _ _ _ H) Ha Hi Hu1 Hu2 Hfok Hram Hnp)
    as [[E Hfull]|(m & T' & E & Hr & Hd & Hc)].
  - assert (on_mach (pagedir_set_page ram (pagedir x) (p_upage p) k (p_writable p)) s = Ok (false, s)) as E1
      by (unfold on_mach; rewrite E; by destruct s).
    rewrite (st_step _ E1). cbn [negb]. destruct (frame_free_ok s T A f k _ H Hf) as (s' & E2 & H2 & P2 & K2).
    rewrite (st_step _ E2). exists false, s', T, A. split; [done |]. split; [done |]. split; [done |]. split; [by apply kept_undisturbed |]. by split_and!.
  - assert (on_mach (pagedir_set_page ram (pagedir x) (p_upage p) k (p_writable p)) s = Ok (true, set_mach m s)) as E1
      by (unfold on_mach; by rewrite E).
    rewrite (st_step _ E1). cbn [negb]. set (A1 := <[pagedir x := _]> A) in Hr.
    assert (∃ m2, (if dirty then on_mach (pagedir_set_dirty (pagedir x) (p_upage p) true) else mret tt) (set_mach m s) = Ok (tt, set_mach m2 s) ∧
      repr ram m2 T' (<[pagedir x := <[pg_no (p_upage p) := Mapping k true (p_writable p) false dirty]> a]> A) ∧
      dirs_step T' (pal (mach s)) (pal m2) ∧ same_cpu (mach s) m2) as (m2 & E2 & Hr2 & Hd2 & Hc2).
    { destruct dirty; [| by exists m].
      destruct (pagedir_set_dirty_ok m T' A1 (pagedir x) (<[pg_no (p_upage p) := Mapping k true (p_writable p) false false]> a)
        (p_upage p) (Mapping k true (p_writable p) false false) true Hr) as (m2 & E2 & Hr2 & Hd2 & Hc2);
        [apply lookup_insert_eq | done | apply lookup_insert_eq |].
      exists m2. split; [unfold on_mach; change (mach (set_mach m s)) with m; by rewrite E2 |].
      unfold A1 in Hr2. rewrite !insert_insert_eq in Hr2. split; [done |]. split; [by eapply dirs_step_trans |].
      destruct Hc, Hc2. split; congruence. }
    rewrite (st_step _ E2).
    rewrite (install_run s (set_mach m2 s) f k pl p T A) by done.
    destruct (vm_ok_installed lost s T T' A f k pl p x a m2 dirty) as [H3 P3]; try done.
    exists true, (installed s m2 f k pl p), T'. eexists. split; [done |]. split; [exact H3 |]. split; [exact P3 |].
    split; [split; [done | split; [done | apply Hc2]] |]. split; [| by split]. intros _. split; [apply lookup_insert_eq |].
    apply (in_bytes s T' A f k pl p x a m2 dirty Hr2 Hd2). by apply (v_frame _ _ _ _ H _ _ Hf).
Qed.
(** The contents of the page, from its file or from swap. *)
Definition load_page (pl : loc) (p : page) (kpage : Z) : ST (vm D F) bool :=
  loaded ← load_frame p kpage;
  if negb (loaded : bool) then frame_free kpage;; mret false
  else
    (if negb (p_swap_slot p =? PAGE_NO_SLOT) then
       s ← st_get;
       m ← on_swap (swap_in (p_swap_slot p) kpage);
       on_memory (λ _, Ok m);;
       put_pg pl (set_slot PAGE_NO_SLOT p)
     else mret tt);;
    map_loaded pl p kpage (bool_decide (p_type p = PAGE_MMAP) && negb (p_swap_slot p =? PAGE_NO_SLOT)).

Lemma preserves_found s s' pl p p' :
  preserves (Some pl) s s' → pages s !! pl = Some p → pages s' !! pl = Some p' →
  value s' p' = value s p → preserves None s s'.
Proof.
  intros P Hp Hp' Hv. split; try apply P. intros t1 u1 q y Hq Hy.
  destruct (k_pages _ _ _ P _ _ _ _ Hq Hy) as (y' & Hy' & E1 & E2 & E3). exists y'. split_and!; try done. intros _.
  destruct (decide (q = pl)) as [-> |]; [congruence |]. apply E3. congruence.
Qed.

Lemma swap_in_run s T A f k t u pl p :
  vm_ok ram s T A → loading s f k u → spt_map s t !! u = Some pl → pages s !! pl = Some p → p_kpage p = 0 →
  p_swap_slot p ≠ PAGE_NO_SLOT →
  ∃ s', (s ← st_get; m ← on_swap (swap_in (p_swap_slot p) k); on_memory (λ _, Ok m);; put_pg pl (set_slot PAGE_NO_SLOT p)) s =
      Ok (tt, s') ∧ vm_ok ram s' T A ∧ preserves (Some pl) s s' ∧ undisturbed s s' ∧ loading s' f k u ∧
    pages s' !! pl = Some (set_slot PAGE_NO_SLOT p) ∧ frame_bytes s' k = value s p ∧
    (page_free (pal (mach s)) false → page_free (pal (mach s')) false).
Proof.
  intros H Hf Hs Hp Hk0 Hsl. destruct (v_spt _ _ _ _ H _ _ _ Hs) as (p' & Hp' & _ & Hok). assert (p' = p) as -> by congruence.
  destruct (po_slot _ _ Hok) as [|Hus]; [done |].
  destruct (frame_mapped _ _ _ _ _ H (proj1 (v_frame _ _ _ _ H _ _ Hf))) as (_ & _ & _ & Hm & Hb). cbn [f_kpage] in Hm.
  destruct (swap_in_ok (p_swap_slot p) k (memory (pal (mach s))) (swap_state s) (v_swap _ _ _ _ H) Hus Hm)
    as (sw & M & E & He & Hpage & Hout & Hdom & HbM).
  exists (swapped_in s M sw pl p). rewrite st_get_step.
  assert (on_swap (swap_in (p_swap_slot p) k) s = Ok (M, set_swap sw s)) as E1 by (unfold on_swap; by rewrite E).
  rewrite (st_step _ E1). split; [done |].
  destruct (vm_ok_swapped_in s T A f k t u pl p M sw H Hf Hs Hp Hk0 Hsl He (HbM Hb) (λ b, proj2 (Hdom b)) Hout) as [H1 P1].
  split; [done |]. split; [done |]. split; [done |]. split; [done |]. split; [apply lookup_insert_eq |].
  split; [| done]. unfold value. rewrite Hk0. cbn [Z.eqb]. apply Z.eqb_neq in Hsl as ->. exact Hpage.
Qed.

(** Why a fault cannot be served. *)
Definition starved s (p : page) : Prop :=
  (∃ l, out_of_memory l = true) ∨ length (backing s p) ≠ 4096%nat ∨ ¬ page_free (pal (mach s)) false.

Lemma load_page_ok s T A f k pl p :
  vm_ok ram s T A → loading s f k (p_upage p) → spt_map s (running s) !! p_upage p = Some pl → pages s !! pl = Some p →
  p_kpage p = 0 →
  ∃ b s' T' A', load_page pl p k s = Ok (b, s') ∧ vm_ok ram s' T' A' ∧
    preserves (if negb b && negb (p_swap_slot p =? PAGE_NO_SLOT) then Some pl else None) s s' ∧ undisturbed s s' ∧
    (if b then pages s' !! pl = Some (set_slot PAGE_NO_SLOT (set_kpage k p)) ∧ k ≠ 0 else starved s p).
Proof.
  intros H Hf Hs Hp Hk0. destruct (v_spt _ _ _ _ H _ _ _ Hs) as (p' & Hp' & _ & Hok). assert (p' = p) as -> by congruence.
  destruct (load_frame_ok s T A f k _ p H Hf Hok) as (b & s1 & E1 & H1 & P1 & K1 & Hf1 & Ep1 & Hb1). unfold load_page.
  rewrite (st_step _ E1). destruct b; cbn [negb].
  2: { destruct (frame_free_ok s1 T A f k _ H1 Hf1) as (s2 & E2 & H2 & P2 & K2). rewrite (st_step _ E2).
       exists false, s2, T, A. split; [done |]. split; [done |]. pose proof (preserves_trans _ _ _ _ P1 P2) as P12.
       split; [by destruct (_ && _); [apply preserves_weaken |] |]. split; [| by right; left].
       eapply undisturbed_trans; by apply kept_undisturbed. }
  assert (spt_map s1 (running s1) !! p_upage p = Some pl) as Hs1.
  { rewrite (k_running _ _ _ P1). rewrite (spt_map_procs s s1) by apply P1. done. }
  assert (pages s1 !! pl = Some p) as Hp1 by by rewrite Ep1.
  assert (backing s1 p = backing s p) as Ebk.
  { by apply backing_kept. }
  cbn [negb] in Hb1.
  destruct (Z.eqb_spec (p_swap_slot p) PAGE_NO_SLOT) as [Esl|Hsl]; cbn [negb].
  - rewrite st_ret_step, andb_false_r.
    assert (frame_bytes s1 k = value s1 p) as Hv.
    { unfold value. rewrite Hk0, Esl. cbn [Z.eqb]. by rewrite Z.eqb_refl, Ebk. }
    destruct (map_loaded_ok None s1 T A f k pl p false H1 Hf1 Hs1 Hp1 Hk0 Esl) as (b & s2 & T2 & A2 & E2 & H2 & P2 & U2 & Hb2 & Hk & Hno);
      [by rewrite Ebk | done |].
    exists b, s2, T2, A2. split; [done |]. split; [done |]. rewrite andb_false_r.
    split; [eapply preserves_trans; [done | by destruct b] |]. split; [eapply undisturbed_trans; [by apply kept_undisturbed | done] |].
    destruct b; [| right; right; intros Hfr; by apply (Hno eq_refl), (kp_free _ _ K1)].
    split; [| done]. destruct (Hb2 eq_refl) as [-> _]. f_equal. unfold set_slot, set_kpage. cbn. by rewrite Esl.
  - destruct (swap_in_run s1 T A f k _ _ pl p H1 Hf1 Hs1 Hp1 Hk0 Hsl) as (s2 & E2 & H2 & P2 & U2 & Hf2 & Hp2 & Hv2 & Hfr2).
    rewrite (st_step _ E2). rewrite andb_true_r. set (p2 := set_slot PAGE_NO_SLOT p) in *.
    change (map_loaded pl p) with (map_loaded pl p2).
    assert (spt_map s2 (running s2) !! p_upage p2 = Some pl) as Hs2.
    { rewrite (k_running _ _ _ P2). rewrite (spt_map_procs s1 s2) by apply P2. done. }
    destruct (map_loaded_ok (Some pl) s2 T A f k pl p2 (bool_decide (p_type p = PAGE_MMAP)) H2 Hf2 Hs2 Hp2 Hk0 eq_refl)
      as (b & s3 & T3 & A3 & E3 & H3 & P3 & U3 & Hb3 & Hk & Hno); [| done |].
    { intros Ed%bool_decide_eq_false Ht. destruct (p_type p) eqn:Et; [| done |].
      - by destruct Hsl; apply (po_bin _ _ Hok).
      - done. }
    exists b, s3, T3, A3. split; [done |]. split; [done |]. rewrite andb_true_r.
    split; [| split; [by eapply undisturbed_trans; [by apply kept_undisturbed | by eapply undisturbed_trans] |
      destruct b; [by destruct (Hb3 eq_refl) as [-> _] | right; right; intros Hfr; by apply (Hno eq_refl), Hfr2, (kp_free _ _ K1)]]].
    destruct b; cbn [negb].
    + eapply preserves_trans; [done |]. destruct (Hb3 eq_refl) as [Hp3 Eb3].
      apply (preserves_found s1 s3 pl p (set_kpage k p2)); [by eapply preserves_trans | done | done |].
      rewrite <-Hv2. unfold value. cbn [p_kpage set_kpage]. apply Z.eqb_neq in Hk as ->. exact Eb3.
    + eapply preserves_trans; [by apply preserves_weaken |]. eapply preserves_trans; [exact P2 | by apply preserves_weaken].
Qed.
Lemma handle_mm_fault_eq pl :
  handle_mm_fault ram out_of_memory pl =
    (p ← get_pg pl; st_assert (p_kpage p =? 0);; kpage ← frame_alloc out_of_memory PAL_USER (p_upage p);
     if kpage =? 0 then mret false else p ← get_pg pl; load_page pl p kpage) :> ST (vm D F) bool.
Proof. done. Qed.

(** A fault on a page that is not in memory brings it in and changes no page's
    contents; or it fails, and then at most loses that page, when it was in
    swap; or the kernel panics, because nothing can be evicted. *)
Lemma handle_mm_fault_ok s T A pl p :
  vm_ok ram s T A → spt_map s (running s) !! p_upage p = Some pl → pages s !! pl = Some p → p_kpage p = 0 →
  (handle_mm_fault ram out_of_memory pl s = Err KernelPanic ∧ exhausted s A) ∨
  ∃ b s' T' A', handle_mm_fault ram out_of_memory pl s = Ok (b, s') ∧ vm_ok ram s' T' A' ∧
    preserves (if negb b && negb (p_swap_slot p =? PAGE_NO_SLOT) then Some pl else None) s s' ∧ undisturbed s s' ∧
    (if b then ∃ k, k ≠ 0 ∧ pages s' !! pl = Some (set_slot PAGE_NO_SLOT (set_kpage k p)) else starved s p).
Proof.
  intros H Hs Hp Hk0. rewrite handle_mm_fault_eq, (st_step _ (get_pg_ok s pl p Hp)), st_assert_true by (by rewrite Hk0).
  destruct (frame_alloc_ok PAL_USER (p_upage p) s T A H eq_refl eq_refl)
    as [[E Hex]|[(s1 & A1 & E & H1 & P1 & K1 & Ho)|(k & s1 & A1 & f & E & H1 & P1 & K1 & Hf & _)]].
  - left. split; [by apply st_step_err | done].
  - right. rewrite (st_step _ E). exists false, s1, T, A1. split; [done |]. split; [done |].
    split; [by destruct (_ && _); [apply preserves_weaken |] |]. split; [by apply kept_undisturbed | by left].
  - right. rewrite (st_step _ E). destruct (frame_nonzero _ _ _ _ _ _ H1 Hf) as [Hk _]. cbn in Hk.
    pose proof Hk as Hk'. apply Z.eqb_neq in Hk' as ->.
    assert (pages s1 !! pl = Some p) as Hp1 by by apply (kp_pages _ _ K1).
    assert (spt_map s1 (running s1) !! p_upage p = Some pl) as Hs1.
    { rewrite (k_running _ _ _ P1). rewrite (spt_map_procs s s1) by apply P1. done. }
    rewrite (st_step _ (get_pg_ok s1 pl p Hp1)).
    destruct (load_page_ok s1 T A1 f k pl p H1 Hf Hs1 Hp1 Hk0) as (b & s2 & T2 & A2 & E2 & H2 & P2 & U2 & Hb2).
    exists b, s2, T2, A2. split; [done |]. split; [done |].
    split; [eapply preserves_trans; [by destruct (_ && _); [apply preserves_weaken |] | done] |].
    split; [eapply undisturbed_trans; [by apply kept_undisturbed | done] |]. destruct b; [destruct Hb2; by exists k |].
    destruct Hb2 as [?|[Hl|Hno]]; [by left | right; left | right; right; intros Hfr; by apply Hno, (kp_free _ _ K1)].
    rewrite <-(backing_kept s s1) by done. done.
Qed.
End fault.
