(* ===== verification/VmUser.v ===== *)
(** Supplemental page tables: finding and adding pages, growing the stack. *)
From S2P Require Import Prelude Bytes Bitmap Hash CString CStringThm Words Vaddr Palloc PageMem Pagedir PagedirThm PagedirOps Block Swap Vm Page VmInv VmEvict VmFault.
Local Open Scope Z_scope.

Lemma page_less_key (a b : spt_elem) : negb (page_less a b) && negb (page_less b a) = bool_decide (a.1 = b.1).
Proof. unfold page_less. case_bool_decide; destruct (Z.ltb_spec a.1 b.1), (Z.ltb_spec b.1 a.1); done || lia. Qed.

Lemma page_hash_key (a b : spt_elem) : a.1 = b.1 → page_hash a = page_hash b.
Proof. unfold page_hash. by intros ->. Qed.

Section user.
Context {D : Type} `{!Device D} `{!DeviceLaws D} {F : Type} `{!FileStore F} `{!FileStoreLaws F}.
Context (ram : Z) (out_of_memory : loc → bool).
Implicit Types s : vm D F.

(** [s'] has the pages of [s], with the same contents, and maybe more. *)
Record extends s s' : Prop := {
  e_running : running s' = running s;
  e_pages t u pl p : spt_map s t !! u = Some pl → pages s !! pl = Some p → spt_map s' t !! u = Some pl ∧
    ∃ p', pages s' !! pl = Some p' ∧ p_upage p' = p_upage p ∧ p_writable p' = p_writable p ∧ value s' p' = value s p;
}.

Lemma preserves_extends s s' : preserves None s s' → extends s s'.
Proof.
  intros P. split; [apply P |]. intros t u pl p Ht Hp. split; [by rewrite (spt_map_procs s s') by apply P |].
  destruct (k_pages _ _ _ P _ _ _ _ Ht Hp) as (p' & H1 & H2 & H3 & H4). exists p'. split_and!; try done. by apply H4.
Qed.

Lemma vm_extends_trans s1 s2 s3 : extends s1 s2 → extends s2 s3 → extends s1 s3.
Proof.
  intros H1 H2. split; [rewrite (e_running _ _ H2); apply H1 |]. intros t u pl p Ht Hp.
  destruct (e_pages _ _ H1 _ _ _ _ Ht Hp) as (Ht2 & p2 & Hp2 & E1 & E2 & E3).
  destruct (e_pages _ _ H2 _ _ _ _ Ht2 Hp2) as (Ht3 & p3 & Hp3 & E4 & E5 & E6).
  split; [done |]. exists p3. split_and!; congruence.
Qed.

Lemma page_find_ok s T A t x va :
  vm_ok ram s T A → procs s !! t = Some x → page_find (Spt x) va = Ok (spt_map s t !! pg_round_down va).
Proof.
  intros H Hx. unfold page_find. destruct (v_proc _ _ _ _ H _ _ Hx) as (Hh & _).
  rewrite (hash_find_ok page_hash page_less fst page_less_key page_hash_key) by done. cbn [mbind outcome_bind fst].
  unfold spt_map. rewrite Hx, lookup_fmap. unfold spt_elem. by destruct (hmap fst (Spt x) !! pg_round_down va) as [[]|].
Qed.

(** *** A new page *)

(** A page that is neither in memory nor in swap. *)
Definition fresh_page s (p : page) : Prop := page_ok s p ∧ p_kpage p = 0 ∧ p_swap_slot p = PAGE_NO_SLOT.

Definition added s (pl : loc) (p : page) (x : proc) (h : hash_table spt_elem) : vm D F :=
  set_procs (<[running s := set_spt h x]>) (set_pages (<[pl := p]>) s).

Lemma vm_ok_added s T A pl p x h :
  vm_ok ram s T A → procs s !! running s = Some x → pagedir x ≠ 0 → fresh_page s p →
  spt_map s (running s) !! p_upage p = None → pages s !! pl = None → (pl < next_addr s)%positive →
  hash_ok page_hash fst h → hmap fst h = <[p_upage p := (p_upage p, pl)]> (hmap fst (Spt x)) →
  let s' := added s pl p x h in
  vm_ok ram s' T A ∧ extends s s' ∧ spt_map s' (running s') !! p_upage p = Some pl ∧ pages s' !! pl = Some p.
Proof.
  intros H Hx Hpd (Hok & Hk0 & Hsl) Hnew Hpl Hlt Hh Hm s'.
  assert (∀ t, spt_map s' t = if decide (t = running s) then <[p_upage p := pl]> (spt_map s t) else spt_map s t) as Hspt.
  { intros t. unfold spt_map, s'. cbn. case_decide as Ht.
    - subst t. rewrite lookup_insert_eq, Hx. cbn. by rewrite Hm, fmap_insert.
    - by rewrite lookup_insert_ne. }
  assert (∀ t u q, spt_map s' t !! u = Some q →
    (t = running s ∧ u = p_upage p ∧ q = pl) ∨ (q ≠ pl ∧ spt_map s t !! u = Some q)) as Hold.
  { intros t u q Hq. rewrite Hspt in Hq.
    assert (∀ t' u', spt_map s t' !! u' = Some q → q ≠ pl) as Hne.
    { intros t' u' Hq' ->. destruct (v_spt _ _ _ _ H _ _ _ Hq') as (? & ? & _). congruence. }
    case_decide as Ht; [| right; eauto]. apply lookup_insert_Some in Hq as [[<- <-]|[_ Hq]]; [by left | right; eauto]. }
  assert (∀ t y, procs s' !! t = Some y → ∃ y0, procs s !! t = Some y0 ∧ pagedir y = pagedir y0) as Hproc.
  { intros t y Hy. unfold s' in Hy. cbn in Hy. apply lookup_insert_Some in Hy as [[<- <-]|[_ Hy]]; eauto. }
  assert (∀ q, q ≠ pl → pages s' !! q = pages s !! q) as Hpg by (intros q Hq; unfold s'; cbn; by rewrite lookup_insert_ne).
  assert (pages s' !! pl = Some p) as Hpl' by apply lookup_insert_eq.
  assert (∀ t u q, spt_map s t !! u = Some q → spt_map s' t !! u = Some q) as Hkeep.
  { intros t u q Hq. rewrite Hspt. case_decide as Ht; [| done]. subst t. rewrite lookup_insert_ne; [done |]. congruence. }
  assert (∀ t u q, spt_map s t !! u = Some q → q ≠ pl) as Hne.
  { intros t u q Hq ->. destruct (v_spt _ _ _ _ H _ _ _ Hq) as (? & ? & _). congruence. }
  split; [split; try apply H; try done | split; [split; [done |] | split; [by rewrite Hspt, decide_True, lookup_insert_eq | done]]].
  - intros l [?|Hl]; [apply (v_fresh _ _ _ _ H); by left |]. destruct (decide (l = pl)) as [-> |Hn]; [done |].
    apply (v_fresh _ _ _ _ H). right. by rewrite <-Hpg.
  - intros f y Hf. destruct (v_frame _ _ _ _ H f y Hf) as (H1 & [z Hz] & H3). split; [done |]. split; [| done].
    unfold s'. cbn. destruct (decide (f_owner y = running s)) as [-> |]; [rewrite lookup_insert_eq; eauto | rewrite lookup_insert_ne; eauto].
  - intros f y q Hf Hq. destruct (v_frame_page _ _ _ _ H f y q Hf Hq) as (p1 & Hp1 & E1 & E2 & E3). exists p1.
    rewrite Hpg by (intros ->; congruence). split_and!; try done. by apply Hkeep.
  - intros t y Hy. unfold s' in Hy. cbn in Hy. apply lookup_insert_Some in Hy as [[<- <-]|[Hn Hy]].
    + destruct (v_proc _ _ _ _ H _ _ Hx) as (H1 & H2 & H3). split; [done |]. split; [done |]. exact H3.
    + destruct (v_proc _ _ _ _ H _ _ Hy) as (H1 & H2 & H3). split; [done |]. split; [| exact H3].
      rewrite Hspt, decide_False by done. done.
  - intros t u y z Hy Hz. destruct (Hproc _ _ Hy) as (y0 & Hy0 & ->), (Hproc _ _ Hz) as (z0 & Hz0 & ->). by apply (v_dirs _ _ _ _ H).
  - intros t u q [(-> & -> & ->)|[Hn Hq]]%Hold.
    + exists p. split; [done |]. split; [done |]. destruct Hok. by split.
    + destruct (v_spt _ _ _ _ H _ _ _ Hq) as (y & Hy & Eu & Hy'). exists y. rewrite Hpg by done. split; [done |]. split; [done |].
      destruct Hy'. by split.
  - intros t t' u u' q [(-> & -> & ->)|[Hn Hq]]%Hold [(E1 & E2 & E3)|[Hn' Hq']]%Hold; try congruence. by eapply (v_inj _ _ _ _ H).
  - intros t u q y z Hq Hy Hz. destruct (Hproc _ _ Hz) as (z0 & Hz0 & ->). apply Hold in Hq as [(-> & -> & ->)|[Hn Hq]].
    + assert (y = p) as -> by congruence. assert (z0 = x) as -> by congruence. unfold placed. rewrite decide_True by done.
      intros m Hm'. destruct (m_present m) eqn:Ep; [| done]. exfalso.
      destruct (v_mapped _ _ _ _ H _ _ _ _ Hx Hm' Ep) as (u & q & Hq & Eu). destruct (v_spt _ _ _ _ H _ _ _ Hq) as (y & _ & Ey & Hoy).
      destruct (po_upage _ _ Hoy) as [U1 U2], (po_upage _ _ Hok) as [U3 U4]. rewrite Ey in U1, U2. rewrite !pg_no_eq in Eu.
      assert (u = p_upage p) as -> by (Z.to_euclidean_division_equations; lia). congruence.
    + rewrite Hpg in Hy by done. exact (v_placed _ _ _ _ H _ _ _ _ _ Hq Hy Hz0).
  - intros t y v m Hy He Hpr. destruct (Hproc _ _ Hy) as (y0 & Hy0 & E). rewrite E in He.
    destruct (v_mapped _ _ _ _ H _ _ _ _ Hy0 He Hpr) as (u & q & Hq & Eu). exists u, q. split; [by apply Hkeep | done].
  - intros t t' u u' q q' y y' [(-> & -> & ->)|[Hn Hq]]%Hold [(-> & -> & ->)|[Hn' Hq']]%Hold Hy Hy' Es Hno.
    + done.
    + assert (y = p) as -> by congruence. congruence.
    + assert (y' = p) as -> by congruence. congruence.
    + rewrite Hpg in Hy, Hy' by done. by eapply (v_slots _ _ _ _ H).
  - destruct (v_running _ _ _ _ H) as (y & Hy & Ha). assert (y = x) as -> by congruence. exists (set_spt h x).
    split; [apply lookup_insert_eq | done].
  - intros t u q y Hq Hy. split; [by apply Hkeep |]. exists y. rewrite Hpg by by eapply Hne. by split_and!.
Qed.

(** A table that was only reorganised. *)
Lemma vm_ok_rehashed s T A x h :
  vm_ok ram s T A → procs s !! running s = Some x → hash_ok page_hash fst h → hmap fst h = hmap fst (Spt x) →
  let s' := set_procs (<[running s := set_spt h x]>) s in vm_ok ram s' T A ∧ extends s s'.
Proof.
  intros H Hx Hh Hm s'.
  assert (∀ t, spt_map s' t = spt_map s t) as Hspt.
  { intros t. unfold spt_map, s'. cbn. destruct (decide (t = running s)) as [-> |]; [| by rewrite lookup_insert_ne].
    rewrite lookup_insert_eq, Hx. cbn. by rewrite Hm. }
  assert (∀ t y, procs s' !! t = Some y → ∃ y0, procs s !! t = Some y0 ∧ pagedir y = pagedir y0) as Hproc.
  { intros t y Hy. unfold s' in Hy. cbn in Hy. apply lookup_insert_Some in Hy as [[<- <-]|[_ Hy]]; eauto. }
  split; [split; try apply H; try done | split; [done |]].
  - intros f y Hf. destruct (v_frame _ _ _ _ H f y Hf) as (H1 & [z Hz] & H3). split; [done |]. split; [| done].
    unfold s'. cbn. destruct (decide (f_owner y = running s)) as [-> |]; [rewrite lookup_insert_eq; eauto | rewrite lookup_insert_ne; eauto].
  - intros f y q Hf Hq. rewrite Hspt. by apply (v_frame_page _ _ _ _ H f y q).
  - intros t y Hy. rewrite Hspt. unfold s' in Hy. cbn in Hy. apply lookup_insert_Some in Hy as [[<- <-]|[Hn Hy]].
    + destruct (v_proc _ _ _ _ H _ _ Hx) as (H1 & H2 & H3). split; [done |]. split; [exact H2 | exact H3].
    + exact (v_proc _ _ _ _ H _ _ Hy).
  - intros t u y z Hy Hz. destruct (Hproc _ _ Hy) as (y0 & Hy0 & ->), (Hproc _ _ Hz) as (z0 & Hz0 & ->). by apply (v_dirs _ _ _ _ H).
  - intros t u q. rewrite Hspt. intros Hq. destruct (v_spt _ _ _ _ H _ _ _ Hq) as (y & Hy & Eu & Hy'). exists y.
    split; [done |]. split; [done |]. destruct Hy'. by split.
  - intros t t' u u' q. rewrite !Hspt. apply (v_inj _ _ _ _ H).
  - intros t u q y z. rewrite Hspt. intros Hq Hy Hz. destruct (Hproc _ _ Hz) as (z0 & Hz0 & ->).
    exact (v_placed _ _ _ _ H _ _ _ _ _ Hq Hy Hz0).
  - intros t y v m Hy He Hpr. destruct (Hproc _ _ Hy) as (y0 & Hy0 & E). rewrite E in He. rewrite Hspt. by eapply (v_mapped _ _ _ _ H).
  - intros t t' u u' q q' y y'. rewrite !Hspt. apply (v_slots _ _ _ _ H).
  - destruct (v_running _ _ _ _ H) as (y & Hy & Ha). assert (y = x) as -> by congruence. exists (set_spt h x).
    split; [apply lookup_insert_eq | done].
  - intros t u q y Hq Hy. rewrite Hspt. split; [done |]. by exists y.
Qed.

Lemma page_add_ok s T A x p :
  vm_ok ram s T A → procs s !! running s = Some x → pagedir x ≠ 0 → fresh_page s p →
  (∃ s', page_add out_of_memory p s = Ok (None, s') ∧ vm_ok ram s' T A ∧ extends s s' ∧ undisturbed s s' ∧
    ((∃ l, out_of_memory l = true) ∨ is_Some (spt_map s (running s) !! p_upage p))) ∨
  ∃ pl s', page_add out_of_memory p s = Ok (Some pl, s') ∧ vm_ok ram s' T A ∧ extends s s' ∧ undisturbed s s' ∧
    spt_map s (running s) !! p_upage p = None ∧ spt_map s' (running s') !! p_upage p = Some pl ∧ pages s' !! pl = Some p ∧
    mach s' = mach s.
Proof.
  intros H Hx Hpd Hp. destruct Hp as (Hok & Hk0 & Hsl). destruct (po_upage _ _ Hok) as [Hu1 Hu2].
  unfold page_add. rewrite st_assert_true by (by apply aligned_assert).
  destruct (vm_ok_next ram s T A (Pos.succ (next_addr s)) H ltac:(lia)) as [H1 P1].
  set (s1 := set_next (Pos.succ (next_addr s)) s) in *.
  assert (vm_malloc out_of_memory s = Ok (if out_of_memory (next_addr s) then None else Some (next_addr s), s1)) as E1 by done.
  rewrite (st_step _ E1). destruct (out_of_memory (next_addr s)) eqn:Eo.
  { left. exists s1. split; [done |]. split; [done |]. split; [by apply preserves_extends |]. split; [done |]. eauto. }
  set (pl := next_addr s). assert (pages s !! pl = None) as Hnew.
  { destruct (pages s !! pl) eqn:E; [| done]. exfalso. assert (pl < next_addr s)%positive; [| unfold pl in *; lia].
    apply (v_fresh _ _ _ _ H). right. by eexists. }
  set (s2 := set_pages (<[pl := p]>) s1). assert (put_pg pl p s1 = Ok (tt, s2)) as E2 by done.
  rewrite (st_step _ E2), st_get_step. assert (current_proc s2 = Ok ((running s, x), s2)) as E3 by (by apply (current_proc_ok s2 x)).
  rewrite (st_step _ E3). destruct (v_proc _ _ _ _ H _ _ Hx) as (Hh & _).
  destruct (hash_insert_ok page_hash page_less fst page_less_key page_hash_key (rehash_memory out_of_memory s2) (Spt x) (p_upage p, pl) Hh)
    as (h & Ei & Hh' & Hm). rewrite (st_lift_step _ _ _ _ Ei). cbn [fst] in *.
  assert (spt_map s (running s) !! p_upage p = snd <$> (hmap fst (Spt x) !! p_upage p)) as Es.
  { unfold spt_map. by rewrite Hx, lookup_fmap. }
  unfold spt_elem in *. destruct (hmap fst (Spt x) !! p_upage p) as [e|] eqn:Ee.
  - left. set (s3 := set_procs (<[running s := set_spt h x]>) s2). assert (put_proc (running s) (set_spt h x) s2 = Ok (tt, s3)) as E4 by done.
    rewrite (st_step _ E4). exists (set_pages (delete pl) s3). split; [done |].
    assert (vm_ok ram (set_pages (delete pl) s3) T A ∧ extends s (set_pages (delete pl) s3)) as [H3 X3].
    { assert (set_pages (delete pl) s3 = set_procs (<[running s := set_spt h x]>) s1) as ->.
      { unfold s3, s2, set_pages. cbn. f_equal. by rewrite delete_insert_id. }
      destruct (vm_ok_rehashed s1 T A x h H1 Hx Hh') as [H3 X3]; [exact Hm |].
      split; [done |]. eapply vm_extends_trans; [by apply preserves_extends | exact X3]. }
    split; [done |]. split; [done |]. split; [done |]. right. rewrite Es. eauto.
  - right. exists pl. set (s3 := set_procs (<[running s := set_spt h x]>) s2). assert (put_proc (running s) (set_spt h x) s2 = Ok (tt, s3)) as E4 by done.
    rewrite (st_step _ E4). exists s3. split; [done |].
    destruct (vm_ok_added s1 T A pl p x h H1 Hx Hpd) as (H3 & X3 & Hs3 & Hp3); try done.
    + split; [| done]. destruct Hok. by split.
    + unfold pl. cbn. lia.
    + split; [exact H3 |]. split; [eapply vm_extends_trans; [by apply preserves_extends | exact X3] |]. split; [done |].
      split; [by rewrite Es |]. done.
Qed.
End user.
