(* ===== verification/VmAccess.v ===== *)
(** A program's loads and stores: the processor, [page_fault], and what the
    program sees of it. *)
From S2P Require Import Prelude Bytes Bitmap Hash CString CStringThm Words Vaddr Palloc PageMem Pagedir PagedirThm PagedirOps Block Swap Vm Page VmInv VmEvict VmFault VmUser.
Local Open Scope Z_scope.

(** Bit 0 of the error code of a page fault: was the page present? *)
Definition mmu_present (va : Z) : ST machine bool :=
  s ← st_get;
  pd ← st_lift (ptov (Z.land (cr3 s) PTE_ADDR));
  pde ← ld (pd + 4 * pd_no va);
  if negb (has_flag pde PTE_P) then mret false
  else
    pt ← st_lift (ptov (Z.land pde PTE_ADDR));
    pte ← ld (pt + 4 * pt_no va);
    mret (has_flag pte PTE_P).

Section access.
Context {D : Type} `{!Device D} {F : Type} `{!FileStore F}.
Context (ram : Z) (out_of_memory : loc → bool).
Implicit Types s : vm D F.

(** One access of a program to a user address, [fuel] attempts: a fault that
    [page_fault] repairs restarts the instruction.  The result is the kernel
    address of the byte; [None] is a killed process. *)
Fixpoint user_access (fuel : nat) (va : Z) (write : bool) (esp : Z) : ST (vm D F) (option Z) :=
  match fuel with
  | O => st_fail OutOfFuel
  | S fuel =>
      a ← on_mach (mmu_access va write);
      match a with
      | Some a => mret (Some a)
      | None =>
          present ← on_mach (mmu_present va);
          repaired ← page_fault ram out_of_memory (negb present) write va esp;
          if (repaired : bool) then user_access fuel va write esp else mret None
      end
  end.

Definition user_load (va esp : Z) : ST (vm D F) (option Z) :=
  a ← user_access 2 va false esp;
  match a with
  | Some a => s ← st_get; b ← st_lift (load (memory (pal (mach s))) a); mret (Some b)
  | None => mret None
  end.

Definition user_store (va b esp : Z) : ST (vm D F) (option unit) :=
  a ← user_access 2 va true esp;
  match a with Some a => on_memory (λ m, store m a (u8 b));; mret (Some tt) | None => mret None end.

Context `{!DeviceLaws D} `{!FileStoreLaws F}.

(** *** The processor's view *)

Lemma mmu_present_ok m T A a va :
  repr ram m T A → A !! active m = Some a → 0 ≤ va < PHYS_BASE →
  mmu_present va m = Ok (match a !! pg_no va with Some x => m_present x | None => false end, m).
Proof.
  intros Hr Ha Hva. destruct (page_no_split va Hva) as (Hi & Hj & Ev).
  destruct (repr_frame _ _ _ _ Hr (c_active _ _ _ (r_cpu _ _ _ _ Hr))) as (F1 & F2 & F3).
  destruct (repr_table _ _ _ _ _ Hr Ha) as [t Ht]. set (pd := active m) in *.
  unfold mmu_present. rewrite st_get_step, (st_lift_step _ _ _ _ (cr3_page _ _ _ Hr)).
  rewrite (st_step _ (ld_word (pal m) T A pd None pd (pd_no va) m (r_dirs _ _ _ _ Hr) eq_refl ltac:(by exists t) ltac:(lia))).
  pose proof (d_pde _ _ _ _ (r_dirs _ _ _ _ Hr) pd t (pd_no va) Ht Hi) as Hw. destruct (t !! pd_no va) as [pt|] eqn:Ept.
  2: { unfold pde_ok in Hw. rewrite Hw. destruct (a !! pg_no va) as [x|] eqn:Hx; [| done].
       destruct (entry_of _ _ _ _ _ _ _ _ Hr Ht Ha Hva Hx) as (pt & ? & _). congruence. }
  destruct (pde_get_pt_eq pt _ (owns_frame _ _ _ pd (Some (pd_no va)) pt (r_dirs _ _ _ _ Hr) ltac:(by exists t)) Hw)
    as (_ & -> & _ & Eg & _). cbn [negb]. rewrite (st_lift_step _ _ _ _ Eg).
  rewrite (st_step _ (ld_word (pal m) T A pd (Some (pd_no va)) pt (pt_no va) m (r_dirs _ _ _ _ Hr) eq_refl ltac:(by exists t) Hj)).
  rewrite (d_pte _ _ _ _ (r_dirs _ _ _ _ Hr) pd t a (pd_no va) pt (pt_no va) Ht Ha Ept Hj), <-Ev.
  destruct (a !! pg_no va) as [x|] eqn:Hx; cbn [encode_slot]; [| done].
  destruct (d_map _ _ _ _ (r_dirs _ _ _ _ Hr) pd a _ x Ha Hx) as [Hok _]. by destruct (encode_bits x Hok) as [-> _].
Qed.

(** The page of the running process at an address. *)
Definition user_page s (va : Z) : option (loc * page) :=
  pl ← spt_map s (running s) !! pg_round_down va; p ← pages s !! pl; Some (pl, p).

(** The slot that translates the address. *)
Lemma round_down va : 0 ≤ va < PHYS_BASE → pg_no (pg_round_down va) = pg_no va ∧
  pg_round_down va = va - va `mod` 4096 ∧ 0 ≤ pg_round_down va < PHYS_BASE ∧ pg_round_down va `mod` 4096 = 0.
Proof.
  intros H. rewrite pg_round_down_eq by (unfold is_addr, PHYS_BASE in *; lia). rewrite !pg_no_eq.
  Z.to_euclidean_division_equations. lia.
Qed.
(** *** An access that needs no handler *)

Lemma same_or_dirtied_refl (o : option mapping) : same_or_dirtied o o.
Proof. by left. Qed.

Lemma access_ok s T A x a va write :
  vm_ok ram s T A → active (mach s) = pagedir x → A !! pagedir x = Some a → 0 ≤ va < PHYS_BASE →
  ∃ m A', on_mach (mmu_access va write) s = Ok (translate (a !! pg_no va) va write, set_mach m s) ∧
    vm_ok ram (set_mach m s) T A' ∧ preserves None s (set_mach m s) ∧ undisturbed s (set_mach m s) ∧
    A' = (match a !! pg_no va with
      | Some y => if permits write y then <[pagedir x := <[pg_no va := touch write y]> a]> A else A | None => A end) ∧
    (∀ u, page_free (pal (mach s)) u → page_free (pal m) u) ∧ active m = active (mach s) ∧
    (∀ k, in_use (pal (mach s)) true k → in_use (pal m) true k ∧ frame_bytes (set_mach m s) k = frame_bytes s k).
Proof.
  intros H Hact Ha Hva. rewrite <-Hact in Ha.
  destruct (mmu_access_ok (mach s) T A a va write (v_mach _ _ _ _ H) Ha Hva) as (m & E & Hr & Hd & Hc).
  rewrite Hact in *. set (A' := match a !! pg_no va with Some _ => _ | None => _ end) in Hr.
  exists m, A'. split; [unfold on_mach; by rewrite E |].
  assert (∀ pd v, same_or_dirtied (entry A pd v) (entry A' pd v)) as He.
  { intros pd v. unfold A'. destruct (a !! pg_no va) as [y|] eqn:Ey; [| apply same_or_dirtied_refl].
    destruct (permits write y); [| apply same_or_dirtied_refl]. rewrite entry_put by done. case_decide as Hd'; [| apply same_or_dirtied_refl].
    destruct Hd' as [-> ->]. unfold entry, same_or_dirtied. rewrite Ha. cbn [mbind option_bind]. rewrite Ey. cbn.
    destruct write; [right; by eexists | by left]. }
  assert (∀ k, in_use (pal (mach s)) true k → in_use (pal m) true k ∧ frame_bytes (set_mach m s) k = frame_bytes s k) as Hk.
  { intros k Hk. destruct (step_frame ram _ _ _ _ _ (r_dirs _ _ _ _ Hr) Hd Hk) as [H1 H2]. split; [done |]. by apply frame_bytes_outside. }
  destruct (vm_ok_change ram None s T A T A' m) as [H1 P1]; try done.
  - intros t y Hy Hn Hs. unfold A'. destruct (a !! pg_no va) as [z|]; [| done]. destruct (permits write z); [| done].
    destruct (decide (pagedir y = pagedir x)) as [-> |]; [rewrite lookup_insert_eq; eauto | by rewrite lookup_insert_ne].
  - intros f y Hf. destruct (v_frame _ _ _ _ H _ _ Hf) as [Hu _]. destruct (Hk _ Hu). done.
  - split; [done |]. split; [done |]. split; [split; [done | split; [done | apply Hc]] |]. split; [done |].
    split; [| split; [destruct Hc as [Ec _]; unfold active; by rewrite Ec | done]].
    intros u. apply page_free_mono; [apply Hd |]. intros b. by apply (step_use ram s T A).
Qed.

(** Where the tables send an access to a page. *)
Lemma user_slot s T A x a va pl p :
  vm_ok ram s T A → procs s !! running s = Some x → A !! pagedir x = Some a → 0 ≤ va < PHYS_BASE →
  user_page s va = Some (pl, p) →
  if decide (p_kpage p = 0) then ∀ m, a !! pg_no va = Some m → m_present m = false
  else ∃ m, a !! pg_no va = Some m ∧ m_present m = true ∧ m_page m = p_kpage p ∧ m_writable m = p_writable p.
Proof.
  intros H Hx Ha Hva Hu. destruct (round_down va Hva) as (En & _). unfold user_page in Hu.
  destruct (spt_map s (running s) !! pg_round_down va) as [q|] eqn:Eq; [| done]. cbn in Hu.
  destruct (pages s !! q) as [y|] eqn:Ey; [| done]. cbn in Hu. injection Hu as -> ->.
  destruct (v_spt _ _ _ _ H _ _ _ Eq) as (y' & Hy' & Eu & _). assert (y' = p) as -> by congruence.
  pose proof (v_placed _ _ _ _ H _ _ _ _ _ Eq Ey Hx) as Hpl. unfold placed, entry in Hpl. rewrite Eu, En, Ha in Hpl. cbn [mbind option_bind] in Hpl.
  destruct (decide (p_kpage p = 0)) as [E0|Hn].
  - intros m Hm. rewrite Hm in Hpl. exact (Hpl _ eq_refl).
  - destruct Hpl as [_ (d & E & _)]. destruct (a !! pg_no va) as [m|]; [| done]. cbn in E. injection E as E1 E2 E3 E4.
    exists m. by split_and!.
Qed.

(** No page, no entry. *)
Lemma user_slot_none s T A x a va :
  vm_ok ram s T A → procs s !! running s = Some x → A !! pagedir x = Some a → 0 ≤ va < PHYS_BASE →
  user_page s va = None → ∀ m, a !! pg_no va = Some m → m_present m = false.
Proof.
  intros H Hx Ha Hva Hu m Hm. destruct (m_present m) eqn:Ep; [| done]. exfalso. destruct (round_down va Hva) as (_ & Er & _).
  destruct (v_mapped _ _ _ _ H (running s) x (pg_no va) (PagedirThm.set_accessed false m) Hx) as (u & q & Hq & Eu); [| done |].
  { unfold entry. rewrite Ha. cbn. by rewrite Hm. }
  destruct (v_spt _ _ _ _ H _ _ _ Hq) as (y & Hy & Ey & Hok). destruct (po_upage _ _ Hok) as [U1 U2]. rewrite Ey in U1, U2.
  assert (pg_round_down va = u) as E.
  { rewrite Er. rewrite !pg_no_eq in Eu. Z.to_euclidean_division_equations. lia. }
  unfold user_page in Hu. rewrite E, Hq in Hu. cbn in Hu. by rewrite Hy in Hu.
Qed.

(** *** A store to a page in memory *)

Lemma bytes_from_insert m k (n i : nat) b : (i < n)%nat →
  bytes_from (<[k + Z.of_nat i := b]> m) k n = <[i := b]> (bytes_from m k n).
Proof.
  intros Hi. apply list_eq. intros j. destruct (decide (j < n)%nat) as [Hj|Hj].
  - rewrite bytes_from_lookup by done. destruct (decide (j = i)) as [-> |Hn].
    + rewrite list_lookup_insert_eq by by rewrite length_bytes_from. f_equal. rewrite lookup_total_insert. by rewrite decide_True.
    + rewrite list_lookup_insert_ne by done. rewrite bytes_from_lookup by done. f_equal. rewrite lookup_total_insert. rewrite decide_False; [done | lia].
  - rewrite !lookup_ge_None_2; [done | rewrite length_insert, length_bytes_from; lia | rewrite length_bytes_from; lia].
Qed.

Lemma vm_ok_store s T A x pl p t u (i : nat) b :
  vm_ok ram s T A → spt_map s t !! u = Some pl → pages s !! pl = Some p → procs s !! t = Some x → p_kpage p ≠ 0 →
  (∀ n, entry A (pagedir x) (pg_no (p_upage p)) = Some n → m_dirty n = true) → (i < 4096)%nat → is_byte b →
  let s' := put_memory (<[p_kpage p + Z.of_nat i := b]> (memory (pal (mach s)))) s in
  on_memory (λ m, store m (p_kpage p + Z.of_nat i) b) s = Ok (tt, s') ∧ vm_ok ram s' T A ∧ preserves (Some pl) s s' ∧
  value s' p = <[i := b]> (value s p).
Proof.
  intros H Ht Hp Hx Hk Hd Hi Hb s'. destruct (page_frame _ _ _ _ _ _ _ _ H Ht Hp Hk) as (f & y & Hf & Hy & Ek & Eo & _).
  destruct (v_frame _ _ _ _ H _ _ Hf) as [Hu _]. rewrite Ek in Hu.
  destruct (frame_mapped _ _ _ _ _ H Hu) as (K0 & (_ & _ & K1) & _ & Hm & Hbm).
  split; [apply on_memory_ok; apply CStringThm.store_ok; apply Hm; lia |].
  destruct (vm_ok_change ram (Some pl) s T A T A (mach s')) as [H1 P1]; try done.
  - apply repr_memory with (k := p_kpage p); [apply H | done | | |].
    + intros c v. rewrite lookup_insert_Some. intros [[_ <-]|[_ Hc]]; [done | by eapply Hbm].
    + intros c Hc. destruct (decide (p_kpage p + Z.of_nat i = c)) as [<-|]; [rewrite lookup_insert_eq; eauto | by rewrite lookup_insert_ne].
    + intros c Hc. rewrite lookup_insert_ne; [done | lia].
  - intros. apply same_or_dirtied_refl.
  - intros g z Hg. destruct (v_frame _ _ _ _ H _ _ Hg) as [Hug _]. split; [by apply in_use_set_memory |]. intros _ Hne.
    apply frame_bytes_outside. intros c Hc. cbn. rewrite lookup_insert_ne; [done |]. intros E.
    destruct (frame_mapped _ _ _ _ _ H Hug) as (_ & (_ & _ & K2) & _).
    destruct (decide (p_kpage p = f_kpage z)) as [Ez|Hz].
    + apply Hne. assert (f = g) as -> by (eapply (v_kpage _ _ _ _ H); [done | done | congruence]). congruence.
    + destruct (pages_apart _ _ K1 K2 Hz); lia.
  - intros t' u' q p' x' n [= <-] Ht' Hp' Hx' Hn. assert (p' = p) as -> by congruence.
    assert (t' = t) as -> by by eapply (v_inj _ _ _ _ H). assert (x' = x) as -> by congruence. by eapply Hd.
  - change (set_mach (mach s') s) with s' in *. split; [done |]. split; [done |].
    unfold value. apply Z.eqb_neq in Hk as ->. by apply bytes_from_insert.
Qed.
(** *** [page_fault] *)

Lemma user_page_Some s va pl p :
  user_page s va = Some (pl, p) → spt_map s (running s) !! pg_round_down va = Some pl ∧ pages s !! pl = Some p.
Proof.
  unfold user_page. destruct (spt_map s (running s) !! pg_round_down va) as [q|]; [| done]. cbn.
  destruct (pages s !! q) as [y|] eqn:E; [| done]. cbn. by intros [= -> ->].
Qed.

Lemma user_page_None s T A va : vm_ok ram s T A → user_page s va = None → spt_map s (running s) !! pg_round_down va = None.
Proof.
  intros H. unfold user_page. destruct (spt_map s (running s) !! pg_round_down va) as [q|] eqn:E; [| done]. cbn.
  destruct (v_spt _ _ _ _ H _ _ _ E) as (y & Hy & _). by rewrite Hy.
Qed.

Lemma page_fault_find s T A x va (np write : bool) esp :
  vm_ok ram s T A → procs s !! running s = Some x → pagedir x ≠ 0 → 0 ≤ va < PHYS_BASE →
  page_fault ram out_of_memory np write va esp s =
    (if np then
       match user_page s va with
       | Some (pl, p) => if (p_kpage p =? 0) && (negb write || p_writable p) then handle_mm_fault ram out_of_memory pl else mret false
       | None => if page_is_stack_access va esp then page_grow_stack ram out_of_memory va else mret false
       end
     else mret false) s.
Proof.
  intros H Hx Hpd Hva. unfold page_fault. rewrite (st_step _ (current_proc_ok s x Hx)), user_assert by done.
  apply Z.eqb_neq in Hpd as ->. destruct np; [| done]. cbn [andb negb].
  rewrite (st_lift_step _ _ _ _ (page_find_ok ram s T A _ x va H Hx)). destruct (user_page s va) as [[pl p]|] eqn:Eu.
  - apply user_page_Some in Eu as [-> Hp]. by rewrite (st_step _ (get_pg_ok s pl p Hp)).
  - by rewrite (user_page_None s T A va H Eu).
Qed.

(** After the first, failed attempt. *)
Lemma user_access_fault n s T A x a va write esp :
  vm_ok ram s T A → procs s !! running s = Some x → pagedir x ≠ 0 → active (mach s) = pagedir x → A !! pagedir x = Some a →
  0 ≤ va < PHYS_BASE → translate (a !! pg_no va) va write = None →
  ∃ m, user_access (S n) va write esp s =
      (r ← page_fault ram out_of_memory (match a !! pg_no va with Some y => negb (m_present y) | None => true end) write va esp;
       if (r : bool) then user_access n va write esp else mret None) (set_mach m s) ∧
    vm_ok ram (set_mach m s) T A ∧ preserves None s (set_mach m s) ∧ undisturbed s (set_mach m s) ∧
    (∀ u, page_free (pal (mach s)) u → page_free (pal m) u) ∧ active m = active (mach s).
Proof.
  intros H Hx Hpd Hact Ha Hva Ht. destruct (access_ok s T A x a va write H Hact Ha Hva) as (m & A' & E & H1 & P1 & U1 & EA & Hf & Hact' & _).
  rewrite Ht in E. assert (A' = A) as ->.
  { rewrite EA. unfold translate in Ht. destruct (a !! pg_no va) as [y|]; [| done]. by destruct (permits write y). }
  exists m. split; [| done]. cbn [user_access]. rewrite (st_step _ E).
  assert (on_mach (mmu_present va) (set_mach m s) =
    Ok (match a !! pg_no va with Some y => m_present y | None => false end, set_mach m s)) as Ep.
  { unfold on_mach. change (mach (set_mach m s)) with m. rewrite (mmu_present_ok m T A a va (v_mach _ _ _ _ H1)); [done | | done].
    by rewrite Hact', Hact. }
  rewrite (st_step _ Ep). by destruct (a !! pg_no va).
Qed.

(** An access to a page in memory. *)
Lemma user_access_resident n s T A x va write esp pl p :
  vm_ok ram s T A → procs s !! running s = Some x → 0 ≤ va < PHYS_BASE → user_page s va = Some (pl, p) →
  p_kpage p ≠ 0 → (write = true → p_writable p = true) →
  ∃ m A', user_access (S n) va write esp s = Ok (Some (p_kpage p + pg_ofs va), set_mach m s) ∧
    vm_ok ram (set_mach m s) T A' ∧ preserves None s (set_mach m s) ∧ undisturbed s (set_mach m s) ∧
    value (set_mach m s) p = value s p ∧
    (write = true → ∀ n, entry A' (pagedir x) (pg_no (p_upage p)) = Some n → m_dirty n = true).
Proof.
  intros H Hx Hva Hu Hk Hw. pose proof (user_page_Some _ _ _ _ Hu) as [Hs Hp]. destruct (round_down va Hva) as (En & _).
  destruct (running_proc ram s T A _ _ H Hs) as (x' & a & Hx' & Ha & _ & _ & Hact). assert (x' = x) as -> by congruence.
  pose proof (user_slot s T A x a va pl p H Hx Ha Hva Hu) as Hsl. rewrite decide_False in Hsl by done.
  destruct Hsl as (y & Hy & E1 & E2 & E3).
  destruct (access_ok s T A x a va write H Hact Ha Hva) as (m & A' & E & H1 & P1 & U1 & EA & _ & _ & Hin).
  assert (permits write y = true) as Hper. { unfold permits. rewrite E1, E3. destruct write; [by rewrite Hw | done]. }
  exists m, A'. rewrite Hy in E, EA. unfold translate in E. rewrite Hper, E2 in E. rewrite Hper in EA.
  split; [cbn [user_access]; by rewrite (st_step _ E) |]. split; [done |]. split; [done |]. split; [done |]. split.
  - destruct (k_pages _ _ _ P1 _ _ _ _ Hs Hp) as (p' & Hp' & _ & _ & Hv). assert (p' = p) as -> by (cbn in Hp'; congruence). by apply Hv.
  - intros -> n' Hn'. destruct (v_spt _ _ _ _ H _ _ _ Hs) as (p' & Hp' & Eu & _). assert (p' = p) as -> by congruence.
    rewrite Eu, En in Hn'. rewrite EA in Hn'. unfold entry in Hn'. rewrite lookup_insert_eq in Hn'. cbn [mbind option_bind] in Hn'.
    rewrite lookup_insert_eq in Hn'. by injection Hn' as <-.
Qed.

(** An access to any page of the process that allows it. *)
Lemma user_access_page s T A x va write esp pl p :
  vm_ok ram s T A → procs s !! running s = Some x → pagedir x ≠ 0 → 0 ≤ va < PHYS_BASE → user_page s va = Some (pl, p) →
  (write = true → p_writable p = true) →
  (user_access 2 va write esp s = Err KernelPanic ∧ p_kpage p = 0 ∧ exhausted s A) ∨
  (∃ s' T' A', user_access 2 va write esp s = Ok (None, s') ∧ p_kpage p = 0 ∧ starved out_of_memory s p ∧
    vm_ok ram s' T' A' ∧ preserves (Some pl) s s' ∧ undisturbed s s') ∨
  ∃ s' T' A' p', user_access 2 va write esp s = Ok (Some (p_kpage p' + pg_ofs va), s') ∧ vm_ok ram s' T' A' ∧ preserves None s s' ∧
    undisturbed s s' ∧ user_page s' va = Some (pl, p') ∧ p_kpage p' ≠ 0 ∧ value s' p' = value s p ∧
    (write = true → ∀ n, entry A' (pagedir x) (pg_no (p_upage p')) = Some n → m_dirty n = true).
Proof.
  intros H Hx Hpd Hva Hu Hw. destruct (decide (p_kpage p = 0)) as [Hk|Hk].
  2: { right. right. destruct (user_access_resident 1 s T A x va write esp pl p H Hx Hva Hu Hk Hw) as (m & A' & E & H1 & P1 & U1 & Hv & Hd).
       exists (set_mach m s), T, A', p. by split_and!. }
  pose proof (user_page_Some _ _ _ _ Hu) as [Hs Hp].
  destruct (running_proc ram s T A _ _ H Hs) as (x' & a & Hx' & Ha & _ & _ & Hact). assert (x' = x) as -> by congruence.
  pose proof (user_slot s T A x a va pl p H Hx Ha Hva Hu) as Hsl. rewrite decide_True in Hsl by done.
  assert (match a !! pg_no va with Some y => negb (m_present y) | None => true end = true) as Hnp.
  { destruct (a !! pg_no va) as [y|] eqn:Ey; [by rewrite (Hsl y) | done]. }
  destruct (user_access_fault 1 s T A x a va write esp H Hx Hpd Hact Ha Hva) as (m & E & H1 & P1 & U1 & Hf & Hact').
  { unfold translate, permits. destruct (a !! pg_no va) as [y|] eqn:Ey; [by rewrite (Hsl y) | done]. }
  rewrite Hnp in E. set (s1 := set_mach m s) in *.
  assert (negb write || p_writable p = true) as Hok by (destruct write; [by rewrite Hw | done]).
  assert (user_page s1 va = Some (pl, p)) as Hu1 by exact Hu.
  assert (page_fault ram out_of_memory true write va esp s1 = handle_mm_fault ram out_of_memory pl s1) as Epf.
  { rewrite (page_fault_find s1 T A x) by done. by rewrite Hu1, Hk, Hok. }
  destruct (v_spt _ _ _ _ H _ _ _ Hs) as (p' & Hp' & Eu & _). assert (p' = p) as -> by congruence.
  destruct (handle_mm_fault_ok ram out_of_memory s1 T A pl p H1) as [[E2 Hex]|(b & s2 & T2 & A2 & E2 & H2 & P2 & U2 & Hb)];
    [by rewrite Eu | done | done | |].
  - left. split; [rewrite E; apply st_step_err; by rewrite Epf |]. split; [done |]. destruct Hex as [Hn Hrest]. split; [| done].
    intros Hfree. by apply Hn, Hf.
  - right. rewrite <-Epf in E2. rewrite (st_step _ E2) in E. destruct b.
    + right. destruct Hb as (k & Hkn & Hpk). cbn [negb andb] in P2. set (p2 := set_slot PAGE_NO_SLOT (set_kpage k p)) in *.
      assert (running s2 = running s ∧ procs s2 = procs s) as [Er Epr] by (split; [apply P2 | apply P2]).
      assert (user_page s2 va = Some (pl, p2)) as Hu2.
      { unfold user_page. rewrite Er, (spt_map_procs s s2), Hs by done. cbn. by rewrite Hpk. }
      destruct (user_access_resident 0 s2 T2 A2 x va write esp pl p2 H2) as (m3 & A3 & E3 & H3 & P3 & U3 & Hv3 & Hd3);
        [by rewrite Epr, Er | done | done | done | exact Hw |].
      exists (set_mach m3 s2), T2, A3, p2. split; [by rewrite E |]. split; [done |].
      split; [eapply preserves_trans; [exact P1 | by eapply preserves_trans] |].
      split; [eapply undisturbed_trans; [exact U1 | by eapply undisturbed_trans] |]. split; [exact Hu2 |]. split; [done |].
      split; [| done]. rewrite Hv3.
      destruct (k_pages _ _ _ (preserves_trans _ _ _ _ P1 P2) _ _ _ _ Hs Hp) as (p' & Hp'' & _ & _ & Hv).
      assert (p' = p2) as -> by congruence. by apply Hv.
    + left. exists s2, T2, A2. split; [done |]. split; [done |]. split; [| split; [done |]].
      * destruct Hb as [?|[?|Hno]]; [by left | by right; left | right; right]. intros Hfree. by apply Hno, Hf.
      * split; [| by eapply undisturbed_trans]. eapply preserves_trans; [by apply preserves_weaken |].
        destruct (_ && _); [done | by apply preserves_weaken].
Qed.
(** *** Growing the stack *)

Definition stack_page (va : Z) : page := Page (pg_round_down va) 0 PAGE_ANON true None 0 0 PGSIZE PAGE_NO_SLOT.

Lemma stack_page_fresh s va : 0 ≤ va < PHYS_BASE → fresh_page s (stack_page va).
Proof.
  intros H. destruct (round_down va H) as (_ & _ & H1 & H2). split; [| done]. split; cbn; try done. by left.
Qed.

(** The stack could not grow. *)
Definition no_stack s : Prop := (∃ l, out_of_memory l = true) ∨ ¬ page_free (pal (mach s)) false.

Lemma page_grow_stack_ok s T A x va :
  vm_ok ram s T A → procs s !! running s = Some x → pagedir x ≠ 0 → 0 ≤ va < PHYS_BASE → user_page s va = None →
  (page_grow_stack ram out_of_memory va s = Err KernelPanic ∧ ¬ page_free (pal (mach s)) true) ∨
  ∃ b s' T' A', page_grow_stack ram out_of_memory va s = Ok (b, s') ∧ vm_ok ram s' T' A' ∧ extends s s' ∧ undisturbed s s' ∧
    if b then ∃ pl p, user_page s' va = Some (pl, p) ∧ p_kpage p ≠ 0 ∧ p_writable p = true ∧ value s' p = replicate 4096 0 ∧
      (∃ y, procs s' !! running s' = Some y ∧ pagedir y ≠ 0)
    else no_stack s.
Proof.
  intros H Hx Hpd Hva Hu. unfold page_grow_stack, page_add_anon. fold (stack_page va).
  pose proof (user_page_None s T A va H Hu) as Hn.
  destruct (page_add_ok ram out_of_memory s T A x (stack_page va) H Hx Hpd (stack_page_fresh s va Hva))
    as [(s1 & E1 & H1 & X1 & U1 & Hwhy)|(pl & s1 & E1 & H1 & X1 & U1 & _ & Hs1 & Hp1 & Em)]; rewrite (st_step _ E1).
  - right. exists false, s1, T, A. split_and!; try done. destruct Hwhy as [?|Hs]; [by left |].
    change (is_Some (spt_map s (running s) !! pg_round_down va)) in Hs. rewrite Hn in Hs. by destruct Hs.
  - destruct (handle_mm_fault_ok ram out_of_memory s1 T A pl (stack_page va) H1 Hs1 Hp1 eq_refl)
      as [[E2 [Hno _]]|(b & s2 & T2 & A2 & E2 & H2 & P2 & U2 & Hb)].
    + left. split; [done |]. by rewrite Em in Hno.
    + right. exists b, s2, T2, A2. split; [done |]. split; [done |]. cbn [p_swap_slot stack_page] in P2.
      rewrite Z.eqb_refl, andb_false_r in P2. pose proof (preserves_extends _ _ P2) as X2.
      split; [by eapply vm_extends_trans |]. split; [by eapply undisturbed_trans |]. destruct b.
      * destruct Hb as (k & Hk & Hpk). exists pl. eexists. pose proof (k_running _ _ _ P2) as Er.
        assert (spt_map s2 (running s2) !! pg_round_down va = Some pl) as Hs2 by (by rewrite Er, (spt_map_procs s1 s2) by apply P2).
        split; [unfold user_page; rewrite Hs2; cbn; by rewrite Hpk |]. split; [done |]. split; [done |]. split.
        -- destruct (k_pages _ _ _ P2 _ _ _ _ Hs1 Hp1) as (p' & Hp' & _ & _ & Hv). rewrite Hpk in Hp'. injection Hp' as <-.
           rewrite Hv by done. done.
        -- destruct (running_proc ram s2 T2 A2 _ _ H2 Hs2) as (y & ? & Hy & _ & _ & Hne & _). by exists y.
      * unfold no_stack. rewrite <-Em. destruct Hb as [?|[Hl|?]]; [by left | | by right]. by destruct Hl.
Qed.

Lemma user_access_none s T A x va write esp :
  vm_ok ram s T A → procs s !! running s = Some x → pagedir x ≠ 0 → 0 ≤ va < PHYS_BASE → user_page s va = None →
  if page_is_stack_access va esp then
    (user_access 2 va write esp s = Err KernelPanic ∧ ¬ page_free (pal (mach s)) true) ∨
    (∃ s' T' A', user_access 2 va write esp s = Ok (None, s') ∧ no_stack s ∧ vm_ok ram s' T' A' ∧ extends s s' ∧ undisturbed s s') ∨
    ∃ s' T' A' pl p y, user_access 2 va write esp s = Ok (Some (p_kpage p + pg_ofs va), s') ∧ vm_ok ram s' T' A' ∧ extends s s' ∧
      undisturbed s s' ∧ user_page s' va = Some (pl, p) ∧ p_kpage p ≠ 0 ∧ value s' p = replicate 4096 0 ∧
      procs s' !! running s' = Some y ∧
      (write = true → ∀ n, entry A' (pagedir y) (pg_no (p_upage p)) = Some n → m_dirty n = true)
  else ∃ s', user_access 2 va write esp s = Ok (None, s') ∧ vm_ok ram s' T A ∧ preserves None s s' ∧ undisturbed s s'.
Proof.
  intros H Hx Hpd Hva Hu. destruct (v_running _ _ _ _ H) as (x' & Hx' & Hact). assert (x' = x) as -> by congruence.
  pose proof Hpd as Hpd'. apply Z.eqb_neq in Hpd' as Ez. rewrite Ez in Hact.
  destruct (v_proc _ _ _ _ H _ _ Hx) as (_ & _ & Hdir). destruct (Hdir Hpd) as [[a Ha] _].
  pose proof (user_slot_none s T A x a va H Hx Ha Hva Hu) as Hsl.
  assert (match a !! pg_no va with Some y => negb (m_present y) | None => true end = true) as Hnp.
  { destruct (a !! pg_no va) as [y|] eqn:Ey; [by rewrite (Hsl y) | done]. }
  destruct (user_access_fault 1 s T A x a va write esp H Hx Hpd Hact Ha Hva) as (m & E & H1 & P1 & U1 & Hf & Hact').
  { unfold translate, permits. destruct (a !! pg_no va) as [y|] eqn:Ey; [by rewrite (Hsl y) | done]. }
  rewrite Hnp in E. set (s1 := set_mach m s) in *. assert (user_page s1 va = None) as Hu1 by exact Hu.
  pose proof (page_fault_find s1 T A x va true write esp H1 Hx Hpd Hva) as Epf. rewrite Hu1 in Epf.
  destruct (page_is_stack_access va esp).
  2: { assert (page_fault ram out_of_memory true write va esp s1 = Ok (false, s1)) as E2 by exact Epf.
       rewrite (st_step _ E2) in E. exists s1. by split_and!. }
  destruct (page_grow_stack_ok s1 T A x va H1 Hx Hpd Hva Hu1) as [[E2 Hno]|(b & s2 & T2 & A2 & E2 & H2 & X2 & U2 & Hb)];
    rewrite <-Epf in E2.
  - left. rewrite E. split; [by apply st_step_err |]. intros Hfree. by apply Hno, Hf.
  - right. rewrite (st_step _ E2) in E. pose proof (vm_extends_trans _ _ _ (preserves_extends _ _ P1) X2) as X12.
    pose proof (undisturbed_trans _ _ _ U1 U2) as U12. destruct b.
    + right. destruct Hb as (pl & p & Hu2 & Hk & Hw & Hv & y & Hy & Hyd).
      destruct (user_access_resident 0 s2 T2 A2 y va write esp pl p H2 Hy Hva Hu2 Hk (λ _, Hw)) as (m3 & A3 & E3 & H3 & P3 & U3 & Hv3 & Hd3).
      exists (set_mach m3 s2), T2, A3, pl, p, y. rewrite E, E3. split; [done |]. split; [done |].
      split; [eapply vm_extends_trans; [done | by apply preserves_extends] |]. split; [by eapply undisturbed_trans |].
      split; [exact Hu2 |]. split; [done |]. split; [by rewrite Hv3 |]. by split.
    + left. exists s2, T2, A2. rewrite E. split; [done |]. split; [| done].
      destruct Hb as [?|Hno]; [by left | right]. intros Hfree. by apply Hno, Hf.
Qed.

(** Writing to a page that is read only. *)
Lemma user_access_readonly s T A x va esp pl p :
  vm_ok ram s T A → procs s !! running s = Some x → pagedir x ≠ 0 → 0 ≤ va < PHYS_BASE → user_page s va = Some (pl, p) →
  p_writable p = false →
  ∃ s', user_access 2 va true esp s = Ok (None, s') ∧ vm_ok ram s' T A ∧ preserves None s s' ∧ undisturbed s s'.
Proof.
  intros H Hx Hpd Hva Hu Hw. pose proof (user_page_Some _ _ _ _ Hu) as [Hs Hp].
  destruct (running_proc ram s T A _ _ H Hs) as (x' & a & Hx' & Ha & _ & _ & Hact). assert (x' = x) as -> by congruence.
  pose proof (user_slot s T A x a va pl p H Hx Ha Hva Hu) as Hsl.
  destruct (user_access_fault 1 s T A x a va true esp H Hx Hpd Hact Ha Hva) as (m & E & H1 & P1 & U1 & _).
  { unfold translate, permits. destruct (a !! pg_no va) as [y|] eqn:Ey; [| done].
    destruct (decide (p_kpage p = 0)); [by rewrite (Hsl y) |]. destruct Hsl as (y' & Hy' & _ & _ & Ew). simplify_eq.
    by rewrite Ew, Hw, andb_false_r. }
  exists (set_mach m s). split; [| done]. rewrite E.
  set (np := match a !! pg_no va with Some y => negb (m_present y) | None => true end).
  assert (page_fault ram out_of_memory np true va esp (set_mach m s) = Ok (false, set_mach m s)) as E2; [| by rewrite (st_step _ E2)].
  rewrite (page_fault_find (set_mach m s) T A x) by done. destruct np; [| done].
  change (user_page (set_mach m s) va) with (user_page s va). rewrite Hu, Hw. by rewrite andb_false_r.
Qed.
End access.
