(* ===== verification/VmThm.v ===== *)
(** What virtual memory promises: programs see their pages and nothing else,
    wherever the pages are; eviction follows the second-chance rule. *)
From S2P Require Import Prelude Bytes Bitmap Hash CString CStringThm Words Vaddr Palloc PageMem Pagedir PagedirThm PagedirOps PagedirSpec Block Swap Vm Page VmInv VmEvict VmFault VmUser VmAccess.
Local Open Scope Z_scope.

Section theorems.
Context {D : Type} `{!Device D} `{!DeviceLaws D} {F : Type} `{!FileStore F} `{!FileStoreLaws F}.
Context (ram : Z) (out_of_memory : loc → bool).
Implicit Types s : vm D F.

Lemma value_length s T A pl p va : vm_ok ram s T A → user_page s va = Some (pl, p) → p_kpage p ≠ 0 →
  ∃ b, value s p !! Z.to_nat (pg_ofs va) = Some b ∧ load (memory (pal (mach s))) (p_kpage p + pg_ofs va) = Ok b.
Proof.
  intros H Hu Hk. apply user_page_Some in Hu as [Hs Hp]. destruct (page_frame _ _ _ _ _ _ _ _ H Hs Hp Hk) as (f & y & Hf & _ & Ek & _).
  destruct (v_frame _ _ _ _ H _ _ Hf) as [Hin _]. rewrite Ek in Hin. destruct (frame_mapped _ _ _ _ _ H Hin) as (_ & _ & _ & Hm & _).
  rewrite pg_ofs_eq. pose proof (Z.mod_pos_bound va 4096 ltac:(lia)). exists (memory (pal (mach s)) !!! (p_kpage p + va `mod` 4096)). split.
  - unfold value. apply Z.eqb_neq in Hk as ->. unfold frame_bytes, page_at. rewrite bytes_from_lookup by lia. by rewrite Z2Nat.id by lia.
  - apply load_total, Hm. lia.
Qed.

(** C36: A load reads the byte of the program's page, wherever the page is.  For
    an address in the process's space the load returns the byte that the page
    holds, in memory, in swap or in its file, and changes the contents of no
    page of any process; the only exceptions, both for pages that are not in
    memory, are that the process is killed because memory for the bookkeeping
    is gone or the file is shorter than the page says, and that the kernel
    panics because nothing can be evicted.  An address with no page reads zero
    from a new page when it looks like a stack access, and otherwise kills the
    process and changes nothing.  Two attempts always suffice. *)
Theorem user_load_correct s T A x va esp :
  vm_ok ram s T A → procs s !! running s = Some x → pagedir x ≠ 0 → 0 ≤ va < PHYS_BASE →
  match user_page s va with
  | Some (pl, p) =>
      (user_load ram out_of_memory va esp s = Err KernelPanic ∧ p_kpage p = 0 ∧ exhausted s A) ∨
      (∃ s' T' A', user_load ram out_of_memory va esp s = Ok (None, s') ∧ p_kpage p = 0 ∧ starved out_of_memory s p ∧
        vm_ok ram s' T' A' ∧ preserves (Some pl) s s') ∨
      ∃ b s' T' A', user_load ram out_of_memory va esp s = Ok (Some b, s') ∧ value s p !! Z.to_nat (pg_ofs va) = Some b ∧
        vm_ok ram s' T' A' ∧ preserves None s s'
  | None =>
      if page_is_stack_access va esp then
        (user_load ram out_of_memory va esp s = Err KernelPanic ∧ ¬ page_free (pal (mach s)) true) ∨
        (∃ s' T' A', user_load ram out_of_memory va esp s = Ok (None, s') ∧ no_stack out_of_memory s ∧ vm_ok ram s' T' A' ∧ extends s s') ∨
        ∃ s' T' A' pl p, user_load ram out_of_memory va esp s = Ok (Some 0, s') ∧ vm_ok ram s' T' A' ∧ extends s s' ∧
          user_page s' va = Some (pl, p) ∧ value s' p = replicate 4096 0
      else ∃ s', user_load ram out_of_memory va esp s = Ok (None, s') ∧ vm_ok ram s' T A ∧ preserves None s s'
  end.
Proof.
  intros H Hx Hpd Hva. unfold user_load. destruct (user_page s va) as [[pl p]|] eqn:Hu.
  - destruct (user_access_page ram out_of_memory s T A x va false esp pl p H Hx Hpd Hva Hu ltac:(done))
      as [[E Hex]|[(s' & T' & A' & E & Hk & Hst & H' & P' & _)|(s' & T' & A' & p' & E & H' & P' & _ & Hu' & Hk' & Hv & _)]].
    + left. split; [by apply st_step_err | done].
    + right. left. exists s', T', A'. by rewrite (st_step _ E).
    + right. right. destruct (value_length s' T' A' pl p' va H' Hu' Hk') as (b & Hb & El). exists b, s', T', A'.
      rewrite (st_step _ E), st_get_step, (st_lift_step _ _ _ _ El), <-Hv. done.
  - pose proof (user_access_none ram out_of_memory s T A x va false esp H Hx Hpd Hva Hu) as Hn. destruct (page_is_stack_access va esp).
    + destruct Hn as [[E Hex]|[(s' & T' & A' & E & Hst & H' & P' & _)|(s' & T' & A' & pl & p & y & E & H' & X & _ & Hu' & Hk' & Hv & _)]].
      * left. split; [by apply st_step_err | done].
      * right. left. exists s', T', A'. by rewrite (st_step _ E).
      * right. right. destruct (value_length s' T' A' pl p va H' Hu' Hk') as (b & Hb & El). exists s', T', A', pl, p.
        rewrite Hv in Hb. apply lookup_replicate in Hb as [-> _].
        rewrite (st_step _ E), st_get_step, (st_lift_step _ _ _ _ El). done.
    + destruct Hn as (s' & E & H' & P' & _). exists s'. by rewrite (st_step _ E).
Qed.

(** The byte [b] is written to the page at [va], no other page changes. *)
Definition stored s s' (va b : Z) (pl : loc) (l : list Z) : Prop :=
  ∃ p', user_page s' va = Some (pl, p') ∧ value s' p' = <[Z.to_nat (pg_ofs va) := u8 b]> l.

Lemma store_done s T A x va b pl p :
  vm_ok ram s T A → user_page s va = Some (pl, p) → procs s !! running s = Some x → p_kpage p ≠ 0 →
  (∀ n, entry A (pagedir x) (pg_no (p_upage p)) = Some n → m_dirty n = true) →
  ∃ s', on_memory (λ m, store m (p_kpage p + pg_ofs va) (u8 b)) s = Ok (tt, s') ∧ vm_ok ram s' T A ∧ preserves (Some pl) s s' ∧
    stored s s' va b pl (value s p).
Proof.
  intros H Hu Hx Hk Hd. pose proof (user_page_Some _ _ _ _ Hu) as [Hs Hp].
  rewrite pg_ofs_eq. pose proof (Z.mod_pos_bound va 4096 ltac:(lia)) as Hm.
  destruct (vm_ok_store ram s T A x pl p (running s) _ (Z.to_nat (va `mod` 4096)) (u8 b) H Hs Hp Hx Hk Hd) as (E & H' & P' & Hv); [lia | apply u8_range |].
  rewrite Z2Nat.id in * by lia. eexists. split; [exact E |]. split; [exact H' |]. split; [exact P' |]. exists p.
  rewrite pg_ofs_eq. split; [exact Hu | exact Hv].
Qed.

(** C37: A store changes one byte of one page.  It writes the byte at the address
    into the program's page when the page is writable, and no other byte of any
    page of any process; a store to a page that is not writable, or to an
    address with no page that is not a stack access, kills the process and
    changes nothing; otherwise it fails only as loads do. *)
Theorem user_store_correct s T A x va b esp :
  vm_ok ram s T A → procs s !! running s = Some x → pagedir x ≠ 0 → 0 ≤ va < PHYS_BASE →
  match user_page s va with
  | Some (pl, p) =>
      if p_writable p then
        (user_store ram out_of_memory va b esp s = Err KernelPanic ∧ p_kpage p = 0 ∧ exhausted s A) ∨
        (∃ s' T' A', user_store ram out_of_memory va b esp s = Ok (None, s') ∧ p_kpage p = 0 ∧ starved out_of_memory s p ∧
          vm_ok ram s' T' A' ∧ preserves (Some pl) s s') ∨
        ∃ s' T' A', user_store ram out_of_memory va b esp s = Ok (Some tt, s') ∧ vm_ok ram s' T' A' ∧ preserves (Some pl) s s' ∧
          stored s s' va b pl (value s p)
      else ∃ s', user_store ram out_of_memory va b esp s = Ok (None, s') ∧ vm_ok ram s' T A ∧ preserves None s s'
  | None =>
      if page_is_stack_access va esp then
        (user_store ram out_of_memory va b esp s = Err KernelPanic ∧ ¬ page_free (pal (mach s)) true) ∨
        (∃ s' T' A', user_store ram out_of_memory va b esp s = Ok (None, s') ∧ no_stack out_of_memory s ∧ vm_ok ram s' T' A' ∧ extends s s') ∨
        ∃ s1 s' T' A' pl, user_store ram out_of_memory va b esp s = Ok (Some tt, s') ∧ vm_ok ram s' T' A' ∧ extends s s1 ∧
          preserves (Some pl) s1 s' ∧ stored s s' va b pl (replicate 4096 0)
      else ∃ s', user_store ram out_of_memory va b esp s = Ok (None, s') ∧ vm_ok ram s' T A ∧ preserves None s s'
  end.
Proof.
  intros H Hx Hpd Hva. unfold user_store. destruct (user_page s va) as [[pl p]|] eqn:Hu.
  - destruct (p_writable p) eqn:Hw.
    2: { destruct (user_access_readonly ram out_of_memory s T A x va esp pl p H Hx Hpd Hva Hu Hw) as (s' & E & H' & P' & _).
         exists s'. by rewrite (st_step _ E). }
    destruct (user_access_page ram out_of_memory s T A x va true esp pl p H Hx Hpd Hva Hu ltac:(done))
      as [[E Hex]|[(s' & T' & A' & E & Hk & Hst & H' & P' & _)|(s' & T' & A' & p' & E & H' & P' & _ & Hu' & Hk' & Hv & Hd)]].
    + left. split; [by apply st_step_err | done].
    + right. left. exists s', T', A'. by rewrite (st_step _ E).
    + right. right. destruct (store_done s' T' A' x va b pl p' H' Hu') as (s2 & E2 & H2 & P2 & S2); [| done | by apply Hd |].
      { by rewrite (k_procs _ _ _ P'), (k_running _ _ _ P'). }
      exists s2, T', A'. rewrite (st_step _ E), (st_step _ E2), <-Hv. split; [done |]. split; [done |].
      split; [| exact S2]. eapply preserves_trans; [by apply preserves_weaken | done].
  - pose proof (user_access_none ram out_of_memory s T A x va true esp H Hx Hpd Hva Hu) as Hn. destruct (page_is_stack_access va esp).
    + destruct Hn as [[E Hex]|[(s' & T' & A' & E & Hst & H' & P' & _)|(s' & T' & A' & pl & p & y & E & H' & X & _ & Hu' & Hk' & Hv & Hy & Hd)]].
      * left. split; [by apply st_step_err | done].
      * right. left. exists s', T', A'. by rewrite (st_step _ E).
      * right. right. destruct (store_done s' T' A' y va b pl p H' Hu' Hy Hk' (Hd eq_refl)) as (s2 & E2 & H2 & P2 & S2).
        exists s', s2, T', A', pl. rewrite (st_step _ E), (st_step _ E2). rewrite Hv in S2. done.
    + destruct Hn as (s' & E & H' & P' & _). exists s'. by rewrite (st_step _ E).
Qed.

(** C38: Eviction is the second-chance rule, and it loses nothing.  The victim is
    the first frame from the clock hand on that is not pinned, has a page and
    whose page was not used since the hand last passed; when all were used, the
    first that may be evicted at all.  The kernel panics when there is none,
    and otherwise only when swap is full.  The page of the frame returned
    belongs to no process any more, the hand is at the frame behind the victim,
    and every page of every process still holds what it held. *)
Theorem frame_evict_second_chance flags s T A :
  vm_ok ram s T A →
  match second_chance s A with
  | None => frame_evict flags s = Err KernelPanic ∧ ∀ x, x ∈ Frame_list s → evictable s x = false
  | Some x => ∃ f, frames s !! x = Some f ∧ evictable s x = true ∧
      ((frame_evict flags s = Err KernelPanic ∧
        ∀ j, 0 ≤ j < bit_cnt (Swap_bitmap (swap_state s)) → slot_used (swap_state s) j) ∨
       ∃ s' A', frame_evict flags s = Ok (f_kpage f, s') ∧ vm_ok ram s' T A' ∧ preserves None s s' ∧ loose s' (f_kpage f) ∧
         Frame_list s' = drop_elem x (Frame_list s) ∧ Clock_hand s' = hand_next (Frame_list s) x ∧
         (has_flag flags PAL_ZERO = true → frame_bytes s' (f_kpage f) = replicate 4096 0))
  end.
Proof.
  clear out_of_memory. intros H. pose proof (frame_evict_ok ram flags s T A H) as Hev. destruct (second_chance s A) as [x|] eqn:Ex.
  - destruct Hev as (f & Hf & Hev). exists f. split; [done |]. split.
    + unfold second_chance in Ex. destruct (first_of _ _) eqn:E in Ex;
        apply first_of_Some in E || apply first_of_Some in Ex; [| tauto]. injection Ex as ->. by destruct E as [[? _]%andb_prop _].
    + destruct Hev as [?|(s' & A' & E & H' & P' & Ev & Hl & Hz)]; [by left | right]. exists s', A'.
      split_and!; try done; apply Ev.
  - split; [done |]. intros x Hx. unfold second_chance in Ex. destruct (first_of (λ _, _ && _) _); [done |].
    rewrite first_of_None in Ex. apply Ex. by apply rotation_elem.
Qed.
End theorems.

(** ** A process with one page of a file *)

(** Files kept in memory, by address. *)
Definition ramfiles : Type := gmap loc (list Z).

#[export] Instance ramfiles_store : FileStore ramfiles := {|
  store_read_at := λ f size ofs s,
    Ok (match s !! f with Some b => take (Z.to_nat size) (drop (Z.to_nat ofs) b) | None => [] end, s);
  store_write_at := λ f l size ofs s, Ok (0, s);
  store_length := λ f s, Ok (match s !! f with Some b => Z.of_nat (length b) | None => 0 end, s);
  store_reopen := λ f s, Ok (Some f, s);
  store_close := λ _ s, Ok (tt, s);
|}.

#[export, refine] Instance ramfiles_laws : FileStoreLaws ramfiles := {|
  store_ok := λ s, map_Forall (λ _ b, Forall is_byte b) s;
  store_bytes := λ s f, s !! f;
|}.
Proof.
  - intros s f b Hs Hf. exact (Hs f b Hf).
  - intros s f b size ofs Hs Hf Hofs Hsize. exists s. unfold store_read_at. cbn. by rewrite Hf.
Defined.

Definition example_page : page := Page 0x8048000 0 PAGE_BIN false (Some 7%positive) 0 3 4093 PAGE_NO_SLOT.

Definition empty_spt : hash_table spt_elem := HashTable 0 4 [[]; []; []; []].

Definition example_spt : hash_table spt_elem :=
  match hash_insert page_hash page_less true empty_spt (0x8048000, 5%positive) with Ok (_, h) => h | Err _ => empty_spt end.

Lemma empty_spt_ok : hash_ok page_hash fst empty_spt.
Proof.
  split; [exists 2; split; [lia | reflexivity] | reflexivity | | constructor | reflexivity].
  intros i b e Hi He. assert (b = []) as ->; [| by apply not_elem_of_nil in He].
  do 4 (destruct i as [|i]; [by injection Hi |]). done.
Qed.

Lemma example_spt_ok : hash_ok page_hash fst example_spt ∧ hmap fst example_spt = {[0x8048000 := (0x8048000, 5%positive)]}.
Proof.
  destruct (hash_insert_ok page_hash page_less fst page_less_key page_hash_key true empty_spt (0x8048000, 5%positive) empty_spt_ok)
    as (h & E & Hh & Hm). unfold example_spt. rewrite E. split; [done |]. exact Hm.
Qed.

Definition example_proc : proc := Proc (example_base + 4096) example_spt [] 0.

Definition example_vm : vm ramdisk ramfiles :=
  Vm (Machine (example_pages 3) 0x101000 ∅ example_base) [] HNull ∅ {[5%positive := example_page]} {[1%positive := example_proc]} ∅
    1%positive example_swap {[7%positive := [10; 20; 30]]} 10%positive.

Definition example_dirs : gmap Z (gmap Z Z) := <[example_base + 4096 := ∅]> {[example_base := ∅]}.
Definition example_spaces : gmap Z (gmap Z mapping) := <[example_base + 4096 := ∅]> {[example_base := ∅]}.

Lemma example_mach_ok : repr 272 (mach example_vm) example_dirs example_spaces.
Proof.
  destruct example_two as [Hd [C1 C2 C3]]. split; [exact Hd |]. split; [exact C1 | | by intros v e a Hv]. by exists ∅.
Qed.

Lemma example_spt_map t : spt_map example_vm t = if decide (t = 1%positive) then {[0x8048000 := 5%positive]} else ∅.
Proof.
  unfold spt_map. change (procs example_vm) with ({[1%positive := example_proc]} : gmap loc proc). case_decide as Ht.
  - subst t. rewrite lookup_singleton_eq. change (Spt example_proc) with example_spt. destruct example_spt_ok as [_ ->]. by rewrite map_fmap_singleton.
  - by rewrite lookup_singleton_ne.
Qed.

Lemma example_spt_lookup t u pl : spt_map example_vm t !! u = Some pl → t = 1%positive ∧ u = 0x8048000 ∧ pl = 5%positive.
Proof. rewrite example_spt_map. case_decide; [| done]. intros [<- <-]%lookup_singleton_Some. done. Qed.

Lemma example_entry v : entry example_spaces (example_base + 4096) v = None.
Proof. done. Qed.

Lemma example_vm_ok : vm_ok 272 example_vm example_dirs example_spaces.
Proof.
  assert (∀ t x, procs example_vm !! t = Some x → t = 1%positive ∧ x = example_proc) as Hproc.
  { intros t x Hx. change (procs example_vm) with ({[1%positive := example_proc]} : gmap loc proc) in Hx.
    apply lookup_singleton_Some in Hx as [<- <-]. done. }
  assert (∀ f x, frames example_vm !! f = Some x → False) as Hfr by done.
  split.
  - exact example_mach_ok.
  - exact example_swap_ok.
  - change (map_Forall (λ _ b, Forall is_byte b) ({[7%positive := [10; 20; 30]]} : gmap loc (list Z))).
    rewrite map_Forall_singleton. repeat constructor; done.
  - constructor.
  - intros f. split; [by intros ?%not_elem_of_nil | by intros []].
  - done.
  - intros l [[? ?]|[p Hp]]; [done |]. change (({[5%positive := example_page]} : gmap loc page) !! l = Some p) in Hp.
    by apply lookup_singleton_Some in Hp as [<- _].
  - by intros f x ?%Hfr.
  - by intros f x pl ?%Hfr.
  - by intros f g x y ?%Hfr.
  - intros t x [-> ->]%Hproc. split; [apply example_spt_ok |]. split; [done |]. intros _. split; [by exists ∅ | done].
  - intros t u x y [-> ->]%Hproc [-> ->]%Hproc. done.
  - intros t u pl (-> & -> & ->)%example_spt_lookup. exists example_page. split; [done |]. split; [done |].
    split; cbn; try done; [by left].
  - intros t t' u u' pl (-> & -> & ->)%example_spt_lookup (-> & _)%example_spt_lookup. done.
  - intros t u pl p x (-> & -> & ->)%example_spt_lookup Hp [_ ->]%Hproc.
    change (pages example_vm) with ({[5%positive := example_page]} : gmap loc page) in Hp. rewrite lookup_singleton_eq in Hp. injection Hp as <-.
    unfold placed. rewrite decide_True by done. intros m Hm. change (pagedir example_proc) with (example_base + 4096) in Hm.
    by rewrite example_entry in Hm.
  - intros t x v m [_ ->]%Hproc Hm. change (pagedir example_proc) with (example_base + 4096) in Hm. by rewrite example_entry in Hm.
  - intros t t' u u' pl pl' p p' (_ & _ & ->)%example_spt_lookup (_ & _ & ->)%example_spt_lookup. done.
  - exists example_proc. split; [done |]. reflexivity.
Qed.

Lemma example_free u : page_free (pal (mach example_vm)) u.
Proof.
  assert (∀ p, pages_ok 272 p → ∀ i, 0 ≤ i → i + 1 ≤ bit_cnt (used_map (pool_of u p)) →
    bits_of (used_map (pool_of u p)) !! Z.to_nat i = Some false → page_free p u) as Hf.
  { intros p _ i H0 H1 Hb. exists i. split; [done |]. split; [done |]. intros k Hk (n & E & Hn).
    unfold page_addr, PGSIZE in E. assert (n = Z.to_nat i) as -> by lia. congruence. }
  destruct u; [apply (Hf _ (example_pages_ok 3 ltac:(lia)) 0) | apply (Hf _ (example_pages_ok 3 ltac:(lia)) 2)]; cbn; done || lia.
Qed.

Lemma example_user_page : user_page example_vm 0x8048001 = Some (5%positive, example_page).
Proof. unfold user_page. rewrite example_spt_map. reflexivity. Qed.

(** The second byte of the page comes from the file. *)
Lemma user_load_correct_witness :
  ∃ s', user_load 272 (λ _, false) 0x8048001 0xc0000000 example_vm = Ok (Some 20, s').
Proof.
  pose proof (user_load_correct 272 (λ _, false) example_vm example_dirs example_spaces example_proc 0x8048001 0xc0000000
    example_vm_ok eq_refl) as H.
  rewrite example_user_page in H.
  destruct H as [(_ & _ & Hex)|[(s' & T' & A' & _ & _ & Hst & _)|(b & s' & T' & A' & E & Hb & _)]].
  - discriminate.
  - unfold PHYS_BASE. lia.
  - destruct Hex as [Hn _]. destruct (Hn (example_free true)).
  - destruct Hst as [[l Hl]|[Hl|Hn]]; [discriminate | | destruct (Hn (example_free false))]. exfalso. apply Hl. reflexivity.
  - exists s'. rewrite E. change (value example_vm example_page) with ([10; 20; 30] ++ replicate 4093 0) in Hb.
    change (Z.to_nat (pg_ofs 134512641)) with 1%nat in Hb. injection Hb as <-. reflexivity.
Defined.

Lemma example_stack_page : user_page example_vm 0xbffffff4 = None.
Proof. unfold user_page. rewrite example_spt_map. reflexivity. Qed.

(** A store to the page of the file, which is read only, and one to the stack,
    which gets its first page. *)
Lemma user_store_correct_witness :
  (∃ s', user_store 272 (λ _, false) 0x8048001 1 0xc0000000 example_vm = Ok (None, s') ∧ preserves None example_vm s') ∧
  ∃ s' pl, user_store 272 (λ _, false) 0xbffffff4 77 0xbffffff0 example_vm = Ok (Some tt, s') ∧
    stored example_vm s' 0xbffffff4 77 pl (replicate 4096 0).
Proof.
  pose proof (λ va esp, user_store_correct 272 (λ _, false) example_vm example_dirs example_spaces example_proc va
    (if va =? 0x8048001 then 1 else 77) esp example_vm_ok eq_refl) as H. split.
  - specialize (H 0x8048001 0xc0000000). rewrite example_user_page in H. destruct H as (s' & E & _ & P).
    + discriminate.
    + unfold PHYS_BASE. lia.
    + exists s'. split; [exact E | exact P].
  - specialize (H 0xbffffff4 0xbffffff0). rewrite example_stack_page in H.
    destruct H as [(_ & Hn)|[(s' & T' & A' & _ & Hn & _)|(s1 & s' & T' & A' & pl & E & _ & _ & _ & Hs)]].
    + discriminate.
    + unfold PHYS_BASE. lia.
    + destruct (Hn (example_free true)).
    + destruct Hn as [[l Hl]|Hn]; [discriminate | destruct (Hn (example_free false))].
    + exists s', pl. split; [exact E | exact Hs].
Defined.

Lemma frame_evict_second_chance_witness : frame_evict PAL_USER example_vm = Err KernelPanic.
Proof. exact (proj1 (frame_evict_second_chance 272 PAL_USER example_vm example_dirs example_spaces example_vm_ok)). Defined.
