(* ===== verification/Args.v ===== *)
(** The command line of a new process: [construct_stack] of userprog/process.c,
    which splits the command line into words and lays out [argc] and [argv] on
    the stack of the process, and what the program finds there. *)
From S2P Require Import Prelude Bytes CString CStringThm Words Vaddr.
Local Open Scope Z_scope.

Definition MAX_CMD_LEN : Z := 128.
Definition MAX_ARGC : Z := 64.

(** ** The code

    [delims] is the address of the string literal of one space, [Cmd_copy] that
    of the array of the same name; [Argv] is a list. *)

(** The loop around [strtok_r]; [argc] words have been found. *)
Fixpoint argv_loop (fuel : nat) (m : mem) (s delims save_ptr argc : Z) : outcome (list Z * mem) :=
  match fuel with
  | O => Err OutOfFuel
  | S fuel =>
      '(token, save_ptr, m) ← strtok_r m s delims save_ptr;
      if negb (token =? 0) && (argc <? MAX_ARGC) then
        '(Argv, m) ← argv_loop fuel m 0 delims save_ptr (argc + 1); Ok (token :: Argv, m)
      else Ok ([], m)
  end.

(** The words, the last one first; the list is the new [Argv]. *)
Fixpoint push_strings (Argv : list Z) (m : mem) (esp : Z) : outcome (list Z * Z * mem) :=
  match Argv with
  | [] => Ok ([], esp, m)
  | word :: Argv =>
      '(Argv, esp, m) ← push_strings Argv m esp;
      len ← strlen m word;
      let len := i32 (len + 1) in
      let esp := u32 (esp - len) in
      '(_, m) ← memcpy m esp word len;
      Ok (esp :: Argv, esp, m)
  end.

(** [while ((uintptr_t) *esp % 4 != 0)] *)
Fixpoint align_loop (fuel : nat) (m : mem) (esp : Z) : outcome (Z * mem) :=
  match fuel with
  | O => Err OutOfFuel
  | S fuel =>
      if negb (esp `mod` 4 =? 0) then
        let esp := u32 (esp - 1) in
        m ← store m esp 0;
        align_loop fuel m esp
      else Ok (esp, m)
  end.

Definition push_word (m : mem) (esp v : Z) : outcome (Z * mem) :=
  let esp := u32 (esp - 4) in
  m ← store_word m esp v; Ok (esp, m).

(** The pointers of [Argv], the last one first. *)
Fixpoint push_argv (Argv : list Z) (m : mem) (esp : Z) : outcome (Z * mem) :=
  match Argv with
  | [] => Ok (esp, m)
  | p :: Argv => '(esp, m) ← push_argv Argv m esp; push_word m esp p
  end.

(** [construct_stack] from the second loop on: the stack. *)
Definition push_frame (Argv : list Z) (m : mem) (esp : Z) : outcome (Z * mem) :=
  '(Argv, esp, m) ← push_strings Argv m esp;
  '(esp, m) ← align_loop 4 m esp;
  '(esp, m) ← push_word m esp 0;
  '(esp, m) ← push_argv Argv m esp;
  let argv_base := esp in
  '(esp, m) ← push_word m esp argv_base;
  '(esp, m) ← push_word m esp (Z.of_nat (length Argv));
  push_word m esp 0.

(** Returns the new [*esp]. *)
Definition construct_stack (m : mem) (cmdline Cmd_copy delims esp : Z) : outcome (Z * mem) :=
  '(_, m) ← strlcpy m Cmd_copy cmdline MAX_CMD_LEN;
  '(Argv, m) ← argv_loop 65 m Cmd_copy delims 0 0;
  push_frame Argv m esp.

(** ** The words *)

(** [m'] differs from [m] only in the bytes from [lo] to [hi], and maps the
    same addresses to bytes. *)
Record wrote (m m' : mem) (lo hi : Z) : Prop := {
  w_frame a : ¬ lo ≤ a < hi → m' !! a = m !! a;
  w_mapped a : is_Some (m' !! a) ↔ is_Some (m !! a);
  w_bytes : bytes_mem m → bytes_mem m';
}.

Lemma wrote_refl m lo hi : wrote m m lo hi.
Proof. by split. Qed.

Lemma wrote_trans m1 m2 m3 lo hi : wrote m1 m2 lo hi → wrote m2 m3 lo hi → wrote m1 m3 lo hi.
Proof.
  intros [F1 M1 B1] [F2 M2 B2]. split; [| | tauto].
  - intros a Ha. by rewrite F2, F1.
  - intros a. by rewrite M2, M1.
Qed.

Lemma wrote_weaken m m' lo hi lo' hi' : wrote m m' lo hi → lo' ≤ lo → hi ≤ hi' → wrote m m' lo' hi'.
Proof. intros [F M B] ? ?. split; [| done | done]. intros a Ha. apply F. lia. Qed.

Lemma wrote_mapped m m' lo hi p n : wrote m m' lo hi → mapped m p n → mapped m' p n.
Proof. intros H Hm a Ha. apply (w_mapped _ _ _ _ H). by apply Hm. Qed.

Lemma wrote_cstring m m' lo hi p s :
  wrote m m' lo hi → p + Z.of_nat (length s) < lo ∨ hi ≤ p → cstring m p s → cstring m' p s.
Proof.
  intros H Hd Hs. apply (cstring_frame m); [done |]. intros a Ha. apply (w_frame _ _ _ _ H). lia.
Qed.

Lemma wrote_insert m a v lo hi : is_Some (m !! a) → lo ≤ a < hi → is_byte v → wrote m (<[a := v]> m) lo hi.
Proof.
  intros Ha Hr Hv. split.
  - intros b Hb. rewrite lookup_insert_ne; [done | lia].
  - intros b. destruct (decide (a = b)) as [<-|]; [rewrite lookup_insert_eq; naive_solver | by rewrite lookup_insert_ne].
  - intros Hm. by apply map_Forall_insert_2.
Qed.

Lemma wrote_copied m m' dst src n :
  copied m m' dst src n → mapped m dst n → mapped m src n → wrote m m' dst (dst + n).
Proof.
  intros Hc Hd Hs. split.
  - by apply copied_outside in Hc.
  - intros a. rewrite (Hc a). case_decide; [| done]. split; intros _; [by apply Hd | apply Hs; lia].
  - intros Hb. by eapply copied_bytes_mem.
Qed.

Lemma wrote_word m m' a v :
  store_word m a v = Ok m' → mapped m a 4 → bytes_mem m → wrote m m' a (a + 4) ∧ word m' a = u32 v.
Proof.
  intros E Hm Hb. destruct (store_word_ok m a v Hm Hb) as (m2 & E2 & B & O & W & M).
  assert (m2 = m') as -> by congruence. split; [| done]. by split.
Qed.

Lemma strlcpy_wrote m dst src s size :
  cstring m src s → 0 < dst → 0 < size → mapped m dst size →
  disjoint_blocks dst size src (Z.of_nat (length s) + 1) →
  ∃ m', strlcpy m dst src size = Ok (Z.of_nat (length s), m') ∧ cstring m' dst (take (Z.to_nat (size - 1)) s) ∧
    wrote m m' dst (dst + size).
Proof.
  intros Hs Hd Hsz Hm Hdis. pose proof Hs as (Hp & _ & _ & Hby). unfold disjoint_blocks in Hdis.
  set (k := (length s `min` Z.to_nat (size - 1))%nat).
  destruct (copy_terminate m dst src s k) as (m1 & m2 & E1 & E2 & H2 & _);
    [done | lia | done | intros a Ha; apply Hm; lia | unfold disjoint_blocks; lia |].
  assert (mapped m dst (Z.of_nat k)) as Hmd by (intros a Ha; apply Hm; lia).
  assert (mapped m src (Z.of_nat k)) as Hms.
  { intros a Ha. destruct (lookup_lt_is_Some_2 (s ++ [0]) (Z.to_nat (a - src))) as [c Hc]; [rewrite length_app; cbn; lia |].
    apply Hby in Hc. exists c. rewrite <-Hc. f_equal. lia. }
  destruct (memcpy_ok m dst src (Z.of_nat k)) as (m1' & E1' & C); [lia | done | done | done | done | lia |].
  assert (m1' = m1) as -> by congruence. pose proof (wrote_copied _ _ _ _ _ C Hmd Hms) as W1.
  exists m2. split; [| split].
  - unfold strlcpy. rewrite !assert_ptr_ok by done. cbn [mbind outcome_bind]. rewrite (strlen_ok _ _ _ Hs).
    cbn [mbind outcome_bind]. destruct (Z.ltb_spec 0 size); [| lia].
    replace (if _ <? _ then _ else _) with (Z.of_nat k); [by rewrite E1; cbn [mbind outcome_bind]; rewrite E2 |].
    subst k. destruct (Z.ltb_spec (Z.of_nat (length s)) (size - 1)); lia.
  - replace (take (Z.to_nat (size - 1)) s) with (take k s); [done |]. subst k.
    destruct (decide (length s ≤ Z.to_nat (size - 1))%nat); [rewrite !take_ge by lia; done | f_equal; lia].
  - eapply wrote_trans; [eapply wrote_weaken; [exact W1 | lia | lia] |].
    assert (is_Some (m1 !! (dst + Z.of_nat k))) as Hst by (apply (w_mapped _ _ _ _ W1), Hm; lia).
    rewrite store_ok in E2 by done. injection E2 as <-. apply wrote_insert; [done | lia | unfold is_byte; lia].
Qed.

Lemma strtok_r_wrote m s save p str q t save' m' :
  (if s =? 0 then save else s) = p → cstring m p str → strtok_r m s q save = Ok (t, save', m') →
  (∀ a, ¬ p ≤ a < p + Z.of_nat (length str) → m' !! a = m !! a) → wrote m m' p (p + Z.of_nat (length str)).
Proof.
  intros Ep (_ & _ & _ & Hby) E Hf. split; [done | |]; unfold strtok_r in E; rewrite Ep in E;
    apply outcome_bind_Ok in E as (? & _ & E); apply outcome_bind_Ok in E as (? & _ & E);
    apply outcome_bind_Ok in E as ([s1 more] & _ & E); destruct more; cbn [negb] in E; [| by simplify_eq | | by simplify_eq];
    apply outcome_bind_Ok in E as (s2 & _ & E); apply outcome_bind_Ok in E as (c & _ & E);
    (destruct (negb (c =? 0)); [| by simplify_eq]); apply outcome_bind_Ok in E as (m2 & Est & E); simplify_eq;
    unfold store in Est; destruct (m !! s2) eqn:Es; simplify_eq.
  - intros a. destruct (decide (s2 = a)) as [<-|]; [rewrite lookup_insert_eq; naive_solver | by rewrite lookup_insert_ne].
  - intros Hm. apply map_Forall_insert_2; [unfold is_byte; lia | done].
Qed.

Lemma argv_loop_ok fuel m s save p str q ds argc :
  (if s =? 0 then save else s) = p → cstring m p str → cstring m q ds →
  disjoint_blocks p (Z.of_nat (length str) + 1) q (Z.of_nat (length ds) + 1) →
  0 ≤ argc ≤ MAX_ARGC → MAX_ARGC - argc < Z.of_nat fuel →
  ∃ ts m', argv_loop fuel m s q save argc = Ok (ts, m') ∧
    Forall2 (λ t w, cstring m' t w ∧ p ≤ t ∧ t + Z.of_nat (length w) ≤ p + Z.of_nat (length str))
      ts (take (Z.to_nat (MAX_ARGC - argc)) (tokens ds [] str)) ∧
    wrote m m' p (p + Z.of_nat (length str)).
Proof.
  revert m s save p str argc. induction fuel as [|fuel IH]; intros m s save p str argc Ep Hs Hd Hdis Hc Hf; [lia |].
  cbn [argv_loop]. unfold disjoint_blocks in *. destruct (strtok_r_ok m s save p str q ds Ep Hs Hd Hdis)
    as [[Et (save' & ->)]|(tok & rest & t & save' & m1 & Et & Hl & E & Htok & Hrest & H1 & H2 & H3 & H4 & Hfr)].
  - cbn [mbind outcome_bind Z.eqb negb andb]. exists [], m. rewrite Et, take_nil. split_and!; [done | done | apply wrote_refl].
  - pose proof (strtok_r_wrote _ _ _ _ _ _ _ _ _ Ep Hs E Hfr) as W. rewrite E. cbn [mbind outcome_bind].
    pose proof Htok as (Ht0 & _). destruct (Z.eqb_spec t 0); [lia |]. cbn [negb andb].
    destruct (Z.ltb_spec argc MAX_ARGC).
    2: { exists [], m1. replace (MAX_ARGC - argc) with 0 by lia. split_and!; [done | done | exact W]. }
    destruct (IH m1 0 save' save' rest (argc + 1)) as (ts & m2 & -> & Hts & W2);
      [done | done | eapply cstring_frame; [exact Hd |]; intros a Ha; apply Hfr; lia | lia | lia | lia |].
    cbn [mbind outcome_bind]. exists (t :: ts), m2. split; [done |]. split.
    + rewrite Et. replace (Z.to_nat (MAX_ARGC - argc)) with (S (Z.to_nat (MAX_ARGC - (argc + 1)))) by lia. cbn [take].
      constructor; [| eapply Forall2_impl; [exact Hts |]; intros a w (? & ? & ?); split_and!; [done | lia | lia]].
      split_and!; [| lia | lia]. destruct H4 as [H4| ->].
      * eapply wrote_cstring; [exact W2 | lia | done].
      * eapply cstring_frame; [exact Htok |]. intros a Ha. apply (w_frame _ _ _ _ W2). cbn. lia.
    + eapply wrote_trans; [exact W |]. eapply wrote_weaken; [exact W2 | lia | lia].
Qed.

(** The room that words take on the stack, with their terminators. *)
Fixpoint room (ws : list (list Z)) : Z :=
  match ws with [] => 0 | w :: ws => room ws + Z.of_nat (length w) + 1 end.

Lemma room_nonneg ws : 0 ≤ room ws.
Proof. induction ws; cbn; lia. Qed.

Lemma push_strings_ok ws ts m lo esp a b :
  Forall2 (λ t w, cstring m t w ∧ a ≤ t ∧ t + Z.of_nat (length w) < b) ts ws →
  room ws ≤ esp - lo → 0 < lo → esp ≤ 4294967296 → mapped m lo (esp - lo) → b ≤ lo ∨ esp ≤ a → b - a < 2147483648 →
  ∃ ps m', push_strings ts m esp = Ok (ps, esp - room ws, m') ∧
    Forall2 (λ p w, cstring m' p w ∧ esp - room ws ≤ p ∧ p + Z.of_nat (length w) < esp) ps ws ∧
    wrote m m' (esp - room ws) esp.
Proof.
  revert ts. induction ws as [|w ws IH]; intros ts Hts Hr Hlo Hesp Hm Hd Hab.
  { apply Forall2_nil_inv_r in Hts as ->. cbn. exists [], m. rewrite Z.sub_0_r. split_and!; [done | done | apply wrote_refl]. }
  apply Forall2_cons_inv_r in Hts as (t & ts' & (Ht & Ha & Hb) & Hts & ->). cbn [room] in *.
  pose proof (room_nonneg ws). set (n := Z.of_nat (length w)) in *.
  destruct (IH ts' Hts) as (ps & m1 & E & Hps & W); [lia | done | done | done | done | done |].
  cbn [push_strings]. rewrite E. cbn [mbind outcome_bind].
  assert (cstring m1 t w) as Ht1 by (eapply wrote_cstring; [exact W | fold n; lia | done]).
  rewrite (strlen_ok _ _ _ Ht1). cbn [mbind outcome_bind]. fold n. rewrite i32_id, u32_id by lia.
  set (d := esp - room ws - (n + 1)).
  assert (mapped m1 d (n + 1)) as Hmd by (eapply wrote_mapped; [exact W |]; eapply mapped_sub; [exact Hm | lia | lia]).
  assert (mapped m1 t (n + 1)) as Hmt.
  { destruct Ht1 as (_ & _ & _ & Hby). intros c Hc.
    destruct (lookup_lt_is_Some_2 (w ++ [0]) (Z.to_nat (c - t))) as [x Hx]; [rewrite length_app; cbn; lia |].
    apply Hby in Hx. exists x. rewrite <-Hx. f_equal. lia. }
  pose proof Ht as (Ht0 & _).
  destruct (memcpy_ok m1 d t (n + 1)) as (m2 & E2 & C); [lia | lia | done | done | done | lia |].
  rewrite E2. cbn [mbind outcome_bind]. pose proof (wrote_copied _ _ _ _ _ C Hmd Hmt) as W2.
  exists (d :: ps), m2. replace (esp - (room ws + n + 1)) with d by lia. split; [done |]. split.
  - constructor.
    + split; [| lia]. destruct Ht1 as (_ & Hb1 & H01 & Hby). split; [lia |]. split; [done |]. split; [done |].
      intros i c Hi. pose proof (lookup_lt_Some _ _ _ Hi) as Hl. rewrite length_app in Hl. cbn in Hl.
      rewrite (C _), decide_True by lia. rewrite <-(Hby i c Hi). f_equal. lia.
    + eapply Forall2_impl; [exact Hps |]. intros p v (Hp & ? & ?). split; [| lia].
      eapply wrote_cstring; [exact W2 | lia | done].
  - eapply wrote_trans; (eapply wrote_weaken; [eassumption | lia | lia]).
Qed.

Lemma align_loop_ok fuel m lo esp :
  esp `mod` 4 < Z.of_nat fuel → 0 < lo → esp ≤ 4294967296 → mapped m lo (esp - lo) → lo ≤ esp - esp `mod` 4 →
  ∃ m', align_loop fuel m esp = Ok (esp - esp `mod` 4, m') ∧ wrote m m' (esp - esp `mod` 4) esp.
Proof.
  revert m esp. induction fuel as [|fuel IH]; intros m esp Hf Hlo Hesp Hm Hr; pose proof (Z.mod_pos_bound esp 4 ltac:(lia)); [lia |].
  cbn [align_loop]. destruct (Z.eqb_spec (esp `mod` 4) 0) as [E|E]; cbn [negb].
  { exists m. rewrite E, Z.sub_0_r. split; [done | apply wrote_refl]. }
  rewrite u32_id by lia. assert (is_Some (m !! (esp - 1))) as Hs by (apply Hm; lia).
  assert (wrote m (<[esp - 1 := 0]> m) (esp - 1) esp) as W by (apply wrote_insert; [done | lia | unfold is_byte; lia]).
  rewrite store_ok by done. cbn [mbind outcome_bind].
  assert ((esp - 1) `mod` 4 = esp `mod` 4 - 1) as Em by (Z.div_mod_to_equations; lia).
  destruct (IH (<[esp - 1 := 0]> m) (esp - 1)) as (m' & E' & W'); [lia | done | lia | | lia |].
  { eapply wrote_mapped; [exact W |]. eapply mapped_sub; [exact Hm | lia | lia]. }
  rewrite Em in *. replace (esp - 1 - (esp `mod` 4 - 1)) with (esp - esp `mod` 4) in * by lia.
  exists m'. split; [done |]. eapply wrote_trans; (eapply wrote_weaken; [eassumption | lia | lia]).
Qed.

Lemma push_word_ok m lo esp v :
  0 < lo → lo ≤ esp - 4 → esp ≤ 4294967296 → mapped m lo (esp - lo) → bytes_mem m →
  ∃ m', push_word m esp v = Ok (esp - 4, m') ∧ wrote m m' (esp - 4) esp ∧ word m' (esp - 4) = u32 v.
Proof.
  intros. unfold push_word. rewrite u32_id by lia.
  assert (mapped m (esp - 4) 4) as Hm by (eapply mapped_sub; [eassumption | lia | lia]).
  destruct (store_word_ok m (esp - 4) v Hm) as (m' & E & _); [done |]. rewrite E. cbn [mbind outcome_bind].
  destruct (wrote_word _ _ _ _ E Hm) as [W Hw]; [done |]. exists m'. split; [done |]. split; [| done].
  eapply wrote_weaken; [exact W | lia | lia].
Qed.

Lemma wrote_same_word m m' lo hi a : wrote m m' lo hi → a + 4 ≤ lo ∨ hi ≤ a → word m' a = word m a.
Proof. intros W Ha. apply word_same. intros b Hb. apply (w_frame _ _ _ _ W). lia. Qed.

Lemma push_argv_ok ps m lo esp :
  Forall (in_u 32) ps → 0 < lo → lo ≤ esp - 4 * Z.of_nat (length ps) → esp ≤ 4294967296 → mapped m lo (esp - lo) → bytes_mem m →
  ∃ m', push_argv ps m esp = Ok (esp - 4 * Z.of_nat (length ps), m') ∧
    wrote m m' (esp - 4 * Z.of_nat (length ps)) esp ∧
    ∀ i p, ps !! i = Some p → word m' (esp - 4 * Z.of_nat (length ps) + 4 * Z.of_nat i) = p.
Proof.
  intros Hps Hlo. induction Hps as [|p ps Hp _ IH]; intros Hr Hesp Hm Hb; cbn [push_argv length] in *.
  { exists m. rewrite Z.sub_0_r. split_and!; [done | apply wrote_refl | done]. }
  destruct IH as (m1 & E & W & Hw); [lia | done | done | done |]. rewrite E. cbn [mbind outcome_bind].
  set (e := esp - 4 * Z.of_nat (length ps)) in *.
  destruct (push_word_ok m1 lo e p) as (m2 & E2 & W2 & Hw2); [done | lia | lia | | by apply (w_bytes _ _ _ _ W) |].
  { eapply wrote_mapped; [exact W |]. eapply mapped_sub; [exact Hm | lia | lia]. }
  replace (esp - 4 * Z.of_nat (S (length ps))) with (e - 4) by lia. exists m2. split; [done |]. split.
  - eapply wrote_trans; (eapply wrote_weaken; [eassumption | lia | lia]).
  - intros [|i] q Hi; cbn in Hi.
    + injection Hi as ->. rewrite Z.mul_0_r, Z.add_0_r, Hw2. by apply u32_id.
    + rewrite (wrote_same_word _ _ _ _ _ W2) by lia. replace (e - 4 + 4 * Z.of_nat (S i)) with (e + 4 * Z.of_nat i) by lia. by apply Hw.
Qed.

Lemma room_tokens ds cur s : room (tokens ds cur s) ≤ Z.of_nat (length cur) + Z.of_nat (length s) + 1.
Proof.
  revert cur. induction s as [|c s IH]; intros cur; cbn [tokens].
  - destruct cur; cbn [room length]; lia.
  - case_decide.
    + destruct cur as [|x cur]; cbn [room]; specialize (IH []); cbn [length] in *; lia.
    + specialize (IH (cur ++ [c])). rewrite length_app in IH. cbn [length] in *. lia.
Qed.

Lemma room_take n ws : room (take n ws) ≤ room ws.
Proof. revert n. induction ws as [|w ws IH]; intros [|n]; cbn [take room]; try lia; [pose proof (room_nonneg ws); lia | specialize (IH n); lia]. Qed.

(** ** The stack of a new process *)

(** The words of a command line: at most 64, of its first 127 characters. *)
Definition words_of (cmd : list Z) : list (list Z) := take 64 (tokens [32] [] (take 127 cmd)).

(** What a program finds at its stack pointer: a return address, [argc], and
    [argv], an array of strings that ends with a null pointer. *)
Record args_at (m : mem) (esp top : Z) (args : list (list Z)) : Prop := {
  args_return : word m esp = 0;
  args_argc : word m (esp + 4) = Z.of_nat (length args);
  args_argv : word m (esp + 8) = esp + 12;
  args_strings i w : args !! i = Some w →
    let p := word m (esp + 12 + 4 * Z.of_nat i) in cstring m p w ∧ esp ≤ p ∧ p + Z.of_nat (length w) < top;
  args_null : word m (esp + 12 + 4 * Z.of_nat (length args)) = 0;
}.

Lemma wrote_args_at m m' lo hi esp top args :
  wrote m m' lo hi → hi ≤ esp → top ≤ 4294967296 → args_at m esp top args → args_at m' esp top args.
Proof.
  intros W Hhi Htop []. split; rewrite ?(wrote_same_word _ _ _ _ _ W) by lia; try done.
  intros i w Hi. rewrite (wrote_same_word _ _ _ _ _ W) by lia. destruct (args_strings0 i w Hi) as (Hs & H1 & H2).
  split; [| done]. eapply wrote_cstring; [exact W | lia | done].
Qed.

(** Three words below [argv] make the frame. *)
Lemma push_header_ok m lo esp top args :
  bytes_mem m → 0 < lo → lo ≤ esp - 12 → esp < top → top ≤ 4294967296 → mapped m lo (esp - lo) → (length args ≤ 64)%nat →
  (∀ i w, args !! i = Some w → let p := word m (esp + 4 * Z.of_nat i) in cstring m p w ∧ esp ≤ p ∧ p + Z.of_nat (length w) < top) →
  word m (esp + 4 * Z.of_nat (length args)) = 0 →
  ∃ m', ('(esp1, m) ← push_word m esp esp; '(esp1, m) ← push_word m esp1 (Z.of_nat (length args)); push_word m esp1 0) = Ok (esp - 12, m') ∧
    args_at m' (esp - 12) top args ∧ wrote m m' (esp - 12) esp.
Proof.
  intros Hb Hlo Hl Ht Htop Hm Hn Hs H0.
  destruct (push_word_ok m lo esp esp) as (m1 & -> & W1 & V1); [done | lia | lia | done | done |]. cbn [mbind outcome_bind].
  destruct (push_word_ok m1 lo (esp - 4) (Z.of_nat (length args))) as (m2 & -> & W2 & V2); [done | lia | lia | | by apply (w_bytes _ _ _ _ W1) |].
  { eapply wrote_mapped; [exact W1 |]. eapply mapped_sub; [exact Hm | lia | lia]. }
  cbn [mbind outcome_bind].
  destruct (push_word_ok m2 lo (esp - 4 - 4) 0) as (m3 & -> & W3 & V3); [done | lia | lia | | by apply (w_bytes _ _ _ _ W2), (w_bytes _ _ _ _ W1) |].
  { eapply wrote_mapped; [exact W2 |]. eapply wrote_mapped; [exact W1 |]. eapply mapped_sub; [exact Hm | lia | lia]. }
  assert (wrote m m3 (esp - 12) esp) as W.
  { eapply wrote_trans; [| eapply wrote_trans]; (eapply wrote_weaken; [eassumption | lia | lia]). }
  exists m3. replace (esp - 4 - 4 - 4) with (esp - 12) in * by lia. replace (esp - 4 - 4) with (esp - 8) in * by lia.
  split; [done |]. split; [| done]. split.
  - by rewrite V3.
  - replace (esp - 12 + 4) with (esp - 8) by lia. rewrite (wrote_same_word _ _ _ _ _ W3), V2 by lia. apply u32_id. lia.
  - replace (esp - 12 + 8) with (esp - 4) by lia.
    rewrite (wrote_same_word _ _ _ _ _ W3), (wrote_same_word _ _ _ _ _ W2), V1 by lia. rewrite u32_id by lia. lia.
  - intros i w Hi. destruct (Hs i w Hi) as (Hc & H1 & H2). replace (esp - 12 + 12) with esp by lia.
    rewrite (wrote_same_word _ _ _ _ _ W) by lia. cbv zeta. split; [eapply wrote_cstring; [exact W | lia | done] | lia].
  - replace (esp - 12 + 12) with esp by lia. rewrite (wrote_same_word _ _ _ _ _ W) by lia. done.
Qed.

(** The strings and the words of [argv]. *)
Lemma push_frame_ok args ts m lo esp a b :
  bytes_mem m → Forall2 (λ t w, cstring m t w ∧ a ≤ t ∧ t + Z.of_nat (length w) < b) ts args →
  (length args ≤ 64)%nat → room args ≤ 128 → 0 < lo → lo ≤ esp - 512 → esp ≤ 4294967296 → mapped m lo (esp - lo) →
  b ≤ lo ∨ esp ≤ a → b - a < 2147483648 →
  ∃ esp' m', push_frame ts m esp = Ok (esp', m') ∧ esp' `mod` 4 = 0 ∧ esp - 512 ≤ esp' < esp ∧ args_at m' esp' esp args ∧
    wrote m m' esp' esp.
Proof.
  intros Hb Hts Hn Hroom Hlo Hesp Htop Hm Hd Hab. pose proof (room_nonneg args).
  assert (∀ m' x, wrote m m' x esp → ∀ e, e ≤ esp → bytes_mem m' ∧ mapped m' lo (e - lo)) as Hkeep.
  { intros m' x W e He. split; [by apply (w_bytes _ _ _ _ W) |]. eapply mapped_sub; [by eapply wrote_mapped | lia | lia]. }
  destruct (push_strings_ok args ts m lo esp a b) as (ps & m1 & E1 & Hps & W1); [done | lia | done | done | done | done | done |].
  unfold push_frame. rewrite E1. cbn [mbind outcome_bind]. set (e1 := esp - room args) in *.
  pose proof (Z.mod_pos_bound e1 4 ltac:(lia)).
  destruct (Hkeep _ _ W1 e1) as [B1 M1]; [lia |].
  destruct (align_loop_ok 4 m1 lo e1) as (m2 & E2 & W2); [lia | done | lia | done | lia |]. rewrite E2. cbn [mbind outcome_bind].
  set (e2 := e1 - e1 `mod` 4) in *. assert (wrote m m2 e2 esp) as V2 by (eapply wrote_trans; (eapply wrote_weaken; [eassumption | lia | lia])).
  destruct (Hkeep _ _ V2 e2) as [B2 M2]; [lia |].
  destruct (push_word_ok m2 lo e2 0) as (m3 & E3 & W3 & Z3); [done | lia | lia | done | done |]. rewrite E3. cbn [mbind outcome_bind].
  assert (wrote m m3 (e2 - 4) esp) as V3 by (eapply wrote_trans; (eapply wrote_weaken; [eassumption | lia | lia])).
  destruct (Hkeep _ _ V3 (e2 - 4)) as [B3 M3]; [lia |].
  pose proof (Forall2_length _ _ _ Hps) as Hlen.
  destruct (push_argv_ok ps m3 lo (e2 - 4)) as (m4 & E4 & W4 & A4); [| done | lia | lia | done | done |].
  { apply Forall_lookup. intros i p Hp. destruct (Forall2_lookup_l _ _ _ _ _ Hps Hp) as (w & _ & (Hp0 & _) & _ & ?). unfold in_u. lia. }
  rewrite E4. cbn [mbind outcome_bind]. rewrite Hlen in *. set (e4 := e2 - 4 - 4 * Z.of_nat (length args)) in *.
  assert (wrote m m4 e4 esp) as V4 by (eapply wrote_trans; (eapply wrote_weaken; [eassumption | lia | lia])).
  destruct (Hkeep _ _ V4 e4) as [B4 M4]; [lia |].
  assert (wrote m1 m4 e4 e1) as V14.
  { eapply wrote_trans; [| eapply wrote_trans]; (eapply wrote_weaken; [eassumption | lia | lia]). }
  destruct (push_header_ok m4 lo e4 esp args) as (m5 & E5 & HA & W5); [done | done | lia | lia | done | done | done | | |].
  - intros i w Hi. destruct (Forall2_lookup_r _ _ _ _ _ Hps Hi) as (p & Hp & Hw & ? & ?). rewrite (A4 i p Hp).
    split; [eapply wrote_cstring; [exact V14 | lia | done] | lia].
  - rewrite (wrote_same_word _ _ _ _ _ W4) by lia. replace (e4 + 4 * Z.of_nat (length args)) with (e2 - 4) by lia. exact Z3.
  - rewrite E5. exists (e4 - 12), m5. split; [done |]. split; [subst e4 e2; Z.div_mod_to_equations; lia |].
    split; [lia |]. split; [done |]. eapply wrote_trans; (eapply wrote_weaken; [eassumption | lia | lia]).
Qed.

Lemma words_of_room cmd : room (words_of cmd) ≤ 128 ∧ (length (words_of cmd) ≤ 64)%nat.
Proof.
  unfold words_of. split; [| rewrite length_take; lia]. pose proof (room_take 64 (tokens [32] [] (take 127 cmd))).
  pose proof (room_tokens [32] [] (take 127 cmd)) as Htok. rewrite length_take in Htok. cbn [length] in Htok. lia.
Qed.

(** C40: A new process gets the words of its command line: when
    [construct_stack] returns, the stack pointer is aligned and at it are a
    return address, [argc] and [argv], in the format that the C calling
    convention gives to [main]; [argv] holds the words of the command line in
    order, as strings on the same stack, and a null pointer.  Nothing else of
    memory changes, apart from the array the words were cut out of, and the
    stack never leaves its first page, however long the command line is: it is
    cut at 127 characters, and at 64 words. *)
Theorem construct_stack_correct m cmdline cmd Cmd_copy delims esp :
  bytes_mem m → cstring m cmdline cmd → cstring m delims [32] →
  0 < Cmd_copy → mapped m Cmd_copy 128 → 4096 < esp ≤ 4294967296 → mapped m (esp - 4096) 4096 →
  disjoint_blocks Cmd_copy 128 cmdline (Z.of_nat (length cmd) + 1) →
  disjoint_blocks Cmd_copy 128 delims 2 → disjoint_blocks Cmd_copy 128 (esp - 4096) 4096 →
  ∃ esp' m', construct_stack m cmdline Cmd_copy delims esp = Ok (esp', m') ∧
    esp' `mod` 4 = 0 ∧ esp - 4096 ≤ esp' < esp ∧ args_at m' esp' esp (words_of cmd) ∧
    ∀ a, ¬ esp' ≤ a < esp → ¬ Cmd_copy ≤ a < Cmd_copy + 128 → m' !! a = m !! a.
Proof.
  intros Hb Hcmd Hsp Hc0 Hc Hesp Hst Hd1 Hd2 Hd3. unfold disjoint_blocks in *. set (str := take 127 cmd).
  destruct (strlcpy_wrote m Cmd_copy cmdline cmd 128) as (m1 & E1 & Hs1 & W1); [done | done | lia | done | done |].
  change (take _ cmd) with str in Hs1.
  assert (Z.of_nat (length str) ≤ 127) as Hlen by (unfold str; rewrite length_take; lia).
  destruct (argv_loop_ok 65 m1 Cmd_copy 0 Cmd_copy str delims [32] 0) as (ts & m2 & E2 & Hts & W2).
  { by destruct (Z.eqb_spec Cmd_copy 0); [lia |]. } { done. }
  { eapply wrote_cstring; [exact W1 | cbn; lia | done]. } { unfold disjoint_blocks. cbn. lia. } { unfold MAX_ARGC. lia. } { unfold MAX_ARGC. lia. }
  change (take _ (tokens _ _ _)) with (words_of cmd) in Hts. destruct (words_of_room cmd) as [Hroom Hargc].
  assert (wrote m m2 Cmd_copy (Cmd_copy + 128)) as V2 by (eapply wrote_trans; [exact W1 |]; eapply wrote_weaken; [exact W2 | lia | lia]).
  destruct (push_frame_ok (words_of cmd) ts m2 (esp - 4096) esp Cmd_copy (Cmd_copy + 128)) as (e & m3 & E3 & He & Hr & HA & W3);
    [by apply (w_bytes _ _ _ _ V2) | | done | done | lia | lia | lia | | lia | lia |].
  { eapply Forall2_impl; [exact Hts |]. intros t w (? & ? & ?). split; [done | lia]. }
  { replace (esp - (esp - 4096)) with 4096 by lia. by eapply wrote_mapped. }
  exists e, m3. unfold construct_stack. change MAX_CMD_LEN with 128. rewrite E1. cbn [mbind outcome_bind]. rewrite E2. cbn [mbind outcome_bind].
  split; [done |]. split; [done |]. split; [lia |]. split; [done |].
  intros a H1 H2. by rewrite (w_frame _ _ _ _ W3), (w_frame _ _ _ _ V2).
Qed.

(** "cp a  b", at the top of a page of stack. *)
Definition example_command : mem :=
  list_to_map (zip (seqZ 100 8) [99; 112; 32; 97; 32; 32; 98; 0]) ∪ list_to_map (zip (seqZ 200 2) [32; 0]) ∪
  list_to_map (zip (seqZ 300 128) (replicate 128 0)) ∪ list_to_map (zip (seqZ 4096 4096) (replicate 4096 0)).

Lemma mapped_check m p n : Forall (λ a, is_Some (m !! a)) (seqZ p n) → mapped m p n.
Proof. intros H a Ha. rewrite Forall_forall in H. apply H, elem_of_seqZ. lia. Qed.

Lemma construct_stack_correct_witness :
  ∃ esp' m', construct_stack example_command 100 300 200 8192 = Ok (esp', m') ∧ esp' `mod` 4 = 0 ∧
    args_at m' esp' 8192 [[99; 112]; [97]; [98]].
Proof.
  destruct (construct_stack_correct example_command 100 [99; 112; 32; 97; 32; 32; 98] 300 200 8192) as (e & m' & E & Ha & _ & H & _).
  - apply (bool_decide_unpack _). vm_compute. exact I.
  - apply cstring_check_ok. vm_compute. reflexivity.
  - apply cstring_check_ok. vm_compute. reflexivity.
  - lia.
  - apply mapped_check, (bool_decide_unpack _). vm_compute. exact I.
  - lia.
  - apply mapped_check, (bool_decide_unpack _). vm_compute. exact I.
  - right. cbn. lia.
  - right. lia.
  - left. lia.
  - exists e, m'. split; [exact E |]. split; [exact Ha |]. change (words_of _) with [[99; 112]; [97]; [98]] in H. exact H.
Defined.
