(* ===== verification/Process.v ===== *)
(** The life of processes: process_execute, start_process, process_wait and
    process_exit of userprog/process.c, and the parts of thread_create and
    thread_exit that touch the same fields.

    Each process is a thread whose [struct thread] the kernel frees when the
    thread is gone; parents and children share these structures and meet at
    three semaphores of the child.  The code runs in steps, one for each
    operation on a semaphore and each access to another thread's structure, and
    the steps of all threads interleave in any order; a step that touches a
    structure already freed is [BadPointer].  Threads are named by their
    identifiers, which are never reused.  The idle thread, which never ends, is
    left out; so is the exception that the kernel makes for its first thread,
    whose block it keeps when that thread ends (nothing refers to it then). *)
From S2P Require Import Prelude.

Definition tid : Type := nat.

(** ** Data *)

(** Where a thread is in the code. *)
Inductive pc :=
| Created                                   (* before [start_process] *)
| LoadUp (success : bool)                   (* before [sema_up (&Load_sema)] *)
| User                                      (* in its program *)
| ExecFind (child : tid)                    (* in [process_execute]: before [get_child_process], *)
| ExecDown (child : tid)                    (* before [sema_down (&Child->Load_sema)], *)
| ExecRead (child : tid)                    (* before the test of [is_loaded] *)
| WaitDown (child : tid)                    (* in [process_wait]: before [sema_down (&Child->Exit_sema)], *)
| WaitRead (child : tid)                    (* before the read of [exit_status], *)
| WaitRemove (child : tid) (status : Z)     (* before [list_remove], *)
| WaitUp (child : tid) (status : Z)         (* before [sema_up (&Child->Destroy_sema)] *)
| ExitUp (rest : list tid)                  (* in [process_exit]: in the loop, at the first of [rest], *)
| ExitNext (child : tid) (rest : list tid)  (* before [list_next] at [child], *)
| ExitSignal                                (* before [sema_up (&cur->Exit_sema)], *)
| ExitDown                                  (* before [sema_down (&cur->Destroy_sema)] *)
| Dying.                                    (* before the kernel frees the structure *)

(** The fields of [struct thread] that these functions use; [pagedir] tells
    whether there is a page directory. *)
Record thread := Thread {
  Parent : option tid;
  Child_list : list tid;
  pagedir : bool;
  is_loaded : bool;
  exit_status : Z;
  Load_sema : nat;
  Exit_sema : nat;
  Destroy_sema : nat;
  at_pc : pc;
}.

Record procs := Procs { threads : gmap tid thread; next_tid : tid }.

Definition set_pc (k : pc) (x : thread) : thread :=
  Thread (Parent x) (Child_list x) (pagedir x) (is_loaded x) (exit_status x) (Load_sema x) (Exit_sema x) (Destroy_sema x) k.
Definition set_children (l : list tid) (x : thread) : thread :=
  Thread (Parent x) l (pagedir x) (is_loaded x) (exit_status x) (Load_sema x) (Exit_sema x) (Destroy_sema x) (at_pc x).
Definition set_status (st : Z) (x : thread) : thread :=
  Thread (Parent x) (Child_list x) (pagedir x) (is_loaded x) st (Load_sema x) (Exit_sema x) (Destroy_sema x) (at_pc x).
Definition set_loaded (pd b : bool) (x : thread) : thread :=
  Thread (Parent x) (Child_list x) pd b (exit_status x) (Load_sema x) (Exit_sema x) (Destroy_sema x) (at_pc x).
Definition set_Load (n : nat) (x : thread) : thread :=
  Thread (Parent x) (Child_list x) (pagedir x) (is_loaded x) (exit_status x) n (Exit_sema x) (Destroy_sema x) (at_pc x).
Definition set_Exit (n : nat) (x : thread) : thread :=
  Thread (Parent x) (Child_list x) (pagedir x) (is_loaded x) (exit_status x) (Load_sema x) n (Destroy_sema x) (at_pc x).
Definition set_Destroy (n : nat) (x : thread) : thread :=
  Thread (Parent x) (Child_list x) (pagedir x) (is_loaded x) (exit_status x) (Load_sema x) (Exit_sema x) n (at_pc x).

(** The fields as thread_create leaves them. *)
Definition new_thread (parent : option tid) : thread := Thread parent [] false false 0 0 0 0 Created.

(** What a step leaves to the program, the memory and the file system. *)
Inductive choice :=
| DoExec (created : bool)          (* the program calls exec; does thread_create get its memory? *)
| DoWait (child : tid)             (* it calls wait *)
| DoExit (status : Z)              (* it calls exit, or is killed *)
| DoLoad (pd success : bool)       (* load: does it get a page directory, does it succeed? *)
| Go.                              (* the next step of the code *)

(** What happens to processes, and what the calls return. *)
Inductive event :=
| Spawned (parent child : tid)
| Loads (process : tid) (success : bool)
| ExecReturns (parent : tid) (child : option tid) (success : bool)
| WaitReturns (parent child : tid) (result : option Z)
| Exits (process : tid) (status : Z).

(** ** The steps

    [None]: the choice does not fit, or the thread waits at a semaphore. *)

Definition result : Type := option (outcome (procs * list event)).

Definition put (t : tid) (x : thread) (s : procs) : procs := Procs (<[t := x]> (threads s)) (next_tid s).

Definition done_with (s : procs) (h : list event) : result := Some (Ok (s, h)).

(** The structure of [t], which must not be gone. *)
Definition with_thread (s : procs) (t : tid) (f : thread → result) : result :=
  match threads s !! t with Some x => f x | None => Some (Err BadPointer) end.

(** [get_child_process]: the structures of the children are read up to the one
    looked for. *)
Fixpoint get_child_process (s : procs) (l : list tid) (child : tid) : outcome (option tid) :=
  match l with
  | [] => Ok None
  | c :: l =>
      match threads s !! c with
      | None => Err BadPointer
      | Some _ => if decide (c = child) then Ok (Some c) else get_child_process s l child
      end
  end.

(** The elements next to [c] in a list: [list_remove] writes to them. *)
Definition neighbours (c : tid) (l : list tid) : list tid :=
  match list_find (eq c) l with
  | Some (i, _) => (if i is S j then option_list (l !! j) else []) ++ option_list (l !! S i)
  | None => []
  end.

Definition all_live (s : procs) (l : list tid) : bool := forallb (λ c, bool_decide (is_Some (threads s !! c))) l.

(** thread_create by [t]: the child goes to the end of [Child_list]. *)
Definition create_child (t : tid) (x : thread) (s : procs) : result :=
  if all_live s (option_list (last (Child_list x))) then
    let c := next_tid s in
    done_with (Procs (<[t := set_pc (ExecFind c) (set_children (Child_list x ++ [c]) x)]>
                     (<[c := new_thread (Some t)]> (threads s))) (S c)) [Spawned t c]
  else Some (Err BadPointer).

(** A step of [process_execute], after thread_create. *)
Definition process_execute (t : tid) (x : thread) (s : procs) : result :=
  match at_pc x with
  | ExecFind c =>
      match get_child_process s (Child_list x) c with
      | Err e => Some (Err e)
      | Ok None => done_with (put t (set_pc User x) s) [ExecReturns t None false]
      | Ok (Some c) => done_with (put t (set_pc (ExecDown c) x) s) []
      end
  | ExecDown c => with_thread s c (λ y,
      match Load_sema y with
      | O => None
      | S n => done_with (put t (set_pc (ExecRead c) x) (put c (set_Load n y) s)) []
      end)
  | ExecRead c => with_thread s c (λ y,
      done_with (put t (set_pc User x) s) [ExecReturns t (Some c) (is_loaded y)])
  | _ => None
  end.

(** A step of [start_process], after [load]. *)
Definition start_process (t : tid) (x : thread) (s : procs) : result :=
  match at_pc x with
  | LoadUp success =>
      done_with (put t (set_pc (if success then User else ExitUp (Child_list x)) (set_Load (S (Load_sema x)) x)) s) []
  | _ => None
  end.

(** A step of [process_wait], after [get_child_process]. *)
Definition process_wait (t : tid) (x : thread) (s : procs) : result :=
  match at_pc x with
  | WaitDown c => with_thread s c (λ y,
      match Exit_sema y with
      | O => None
      | S n => done_with (put t (set_pc (WaitRead c) x) (put c (set_Exit n y) s)) []
      end)
  | WaitRead c => with_thread s c (λ y, done_with (put t (set_pc (WaitRemove c (exit_status y)) x) s) [])
  | WaitRemove c st =>
      if all_live s (c :: neighbours c (Child_list x)) then
        done_with (put t (set_pc (WaitUp c st) (set_children (filter (λ d, d ≠ c) (Child_list x)) x)) s) []
      else Some (Err BadPointer)
  | WaitUp c st => with_thread s c (λ y,
      done_with (put t (set_pc User x) (put c (set_Destroy (S (Destroy_sema y)) y) s)) [WaitReturns t c (Some st)])
  | _ => None
  end.

(** A step of the loop of [process_exit]. *)
Definition release_children (t : tid) (x : thread) (s : procs) : result :=
  match at_pc x with
  | ExitUp [] => done_with (put t (set_pc ExitSignal x) s) []
  | ExitUp (c :: rest) => with_thread s c (λ y,
      done_with (put t (set_pc (ExitNext c rest) x) (put c (set_Destroy (S (Destroy_sema y)) y) s)) [])
  | ExitNext c rest => with_thread s c (λ _, done_with (put t (set_pc (ExitUp rest) x) s) [])
  | _ => None
  end.

(** A step of [process_exit] after the loop, and of the rest of thread_exit. *)
Definition process_exit (t : tid) (x : thread) (s : procs) : result :=
  match at_pc x with
  | ExitSignal =>
      if pagedir x then done_with (put t (set_pc ExitDown (set_Exit (S (Exit_sema x)) x)) s) [Exits t (exit_status x)]
      else done_with (put t (set_pc Dying x) s) [Exits t (exit_status x)]
  | ExitDown =>
      match Destroy_sema x with
      | O => None
      | S n => done_with (put t (set_pc Dying (set_Destroy n x)) s) []
      end
  | Dying => done_with (Procs (delete t (threads s)) (next_tid s)) []
  | _ => release_children t x s
  end.

(** One step of thread [t]. *)
Definition step (t : tid) (a : choice) (s : procs) : result :=
  match threads s !! t with
  | None => None
  | Some x =>
      match a, at_pc x with
      | DoLoad pd success, Created =>
          if implb success pd
          then done_with (put t (set_pc (LoadUp success) (set_loaded pd success (set_status (-1) x))) s) [Loads t success] else None
      | DoExec created, User =>
          if created then create_child t x s else done_with s [ExecReturns t None false]
      | DoWait c, User =>
          match get_child_process s (Child_list x) c with
          | Err e => Some (Err e)
          | Ok None => done_with s [WaitReturns t c None]
          | Ok (Some c) => done_with (put t (set_pc (WaitDown c) x) s) []
          end
      | DoExit st, User => done_with (put t (set_pc (ExitUp (Child_list x)) (set_status st x)) s) []
      | Go, LoadUp _ => start_process t x s
      | Go, (ExecFind _ | ExecDown _ | ExecRead _) => process_execute t x s
      | Go, (WaitDown _ | WaitRead _ | WaitRemove _ _ | WaitUp _ _) => process_wait t x s
      | Go, (ExitUp _ | ExitNext _ _ | ExitSignal | ExitDown | Dying) => process_exit t x s
      | _, _ => None
      end
  end.

(** The kernel's main thread, which starts the first process. *)
Definition boot : procs := Procs {[1 := set_pc User (new_thread None)]} 2.

(** Runs, with the events so far, the last one first. *)
Inductive reach (P : choice → Prop) : procs → list event → Prop :=
| reach_boot : reach P boot []
| reach_step s h t a s' e : reach P s h → P a → step t a s = Some (Ok (s', e)) → reach P s' (rev e ++ h).

(** Every process gets a page directory. *)
Definition with_pagedirs (a : choice) : Prop := match a with DoLoad pd _ => pd = true | _ => True end.

(** A run, the choices of which all fit, from a state on. *)
Fixpoint run (l : list (tid * choice)) (s : procs) (h : list event) : result :=
  match l with
  | [] => Some (Ok (s, h))
  | (t, a) :: l =>
      match step t a s with
      | Some (Ok (s, e)) => run l s (rev e ++ h)
      | r => r
      end
  end.
