(* ===== verification/ProcessThm.v ===== *)
(** Correctness of the life of processes: the invariant that ties each child to
    its parent, and what it promises about statuses, freed structures and
    waiting. *)
From S2P Require Import Prelude Process.

(** ** The invariant *)

(** The children whose [Destroy_sema] the thread has yet to up. *)
Definition owed (x : thread) : list tid :=
  match at_pc x with
  | ExitUp rest | ExitNext _ rest => rest
  | ExitSignal | ExitDown | Dying => []
  | WaitUp c _ => c :: Child_list x
  | _ => Child_list x
  end.

Definition started (x : thread) : bool := match at_pc x with Created | LoadUp _ => false | _ => true end.
Definition exited (x : thread) : bool := match at_pc x with ExitDown | Dying => true | _ => false end.
Definition dying (x : thread) : nat := match at_pc x with Dying => 1 | _ => 0 end.

(** The thread has taken the signal of [c]'s exit, but not taken [c] off its
    list. *)
Definition reading (x : thread) (c : tid) : Prop :=
  match at_pc x with WaitRead d | WaitRemove d _ => c = d | _ => False end.
Definition reaping (x : thread) (c : tid) : Prop :=
  match at_pc x with WaitRead d | WaitRemove d _ | WaitUp d _ => c = d | _ => False end.
Definition starting (x : thread) (c : tid) : Prop :=
  match at_pc x with ExecFind d | ExecDown d => c = d | _ => False end.

(** A parent [x] and its child [y], of name [c]. *)
Record edge (x : thread) (c : tid) (y : thread) : Prop := {
  e_destroy : Destroy_sema y + dying y = if decide (c ∈ owed x) then 0 else 1;
  e_exit : c ∈ Child_list x → ¬ reading x c → Exit_sema y = if exited y then 1 else 0;
  e_taken : reading x c → Exit_sema y = 0;
  e_reaping : reaping x c → at_pc y = ExitDown;
  e_starting : starting x c → Load_sema y = if started y then 1 else 0;
  e_started : at_pc x = ExecRead c → started y = true;
}.

(** A thread by itself; [n] is the next name. *)
Record own (t : tid) (x : thread) (n : tid) : Prop := {
  o_nodup : NoDup (Child_list x);
  o_range c : c ∈ Child_list x → t < c < n;
  o_pc : match at_pc x with
         | ExecFind c | ExecDown c | ExecRead c | WaitDown c | WaitRead c | WaitRemove c _ => c ∈ Child_list x
         | WaitUp c _ => c ∉ Child_list x ∧ t < c < n
         | ExitUp rest => ∃ pre, Child_list x = pre ++ rest
         | ExitNext c rest => ∃ pre, Child_list x = pre ++ c :: rest
         | _ => True
         end;
  o_pagedir : Parent x ≠ None → at_pc x ≠ Created → pagedir x = true;
  o_root : Parent x = None → pagedir x = false ∧ started x = true ∧ at_pc x ≠ ExitDown;
  o_parent p : Parent x = Some p → p < t;
  o_name : t < n;
}.

Record inv (s : procs) : Prop := {
  i_own t x : threads s !! t = Some x → own t x (next_tid s);
  i_owed t x c : threads s !! t = Some x → c ∈ owed x → ∃ y, threads s !! c = Some y ∧ Parent y = Some t;
  i_edge c y p x : threads s !! c = Some y → Parent y = Some p → threads s !! p = Some x → edge x c y;
  i_orphan c y p : threads s !! c = Some y → Parent y = Some p → threads s !! p = None → Destroy_sema y + dying y = 1;
}.

(** *** Steps of one thread, or of a thread and its child *)

Lemma inv_put s t x x' :
  inv s → threads s !! t = Some x → Parent x' = Parent x → own t x' (next_tid s) →
  (∀ c, c ∈ owed x' → c ∈ owed x) → (∀ c y, Parent y = Some t → edge x c y → edge x' c y) →
  (∀ p z, Parent x = Some p → threads s !! p = Some z → edge z t x → edge z t x') →
  (Parent x ≠ None → Destroy_sema x' + dying x' = Destroy_sema x + dying x) →
  inv (put t x' s).
Proof.
  intros H Hx Hp Ho Hw He Hc Hd.
  assert (∀ u z, threads (put t x' s) !! u = Some z → u = t ∧ z = x' ∨ u ≠ t ∧ threads s !! u = Some z) as Hl.
  { intros u z Hu. cbn in Hu. apply lookup_insert_Some in Hu. naive_solver. }
  split; cbn [next_tid put].
  - intros u z [[-> ->]|[_ Hu]]%Hl; [done | by apply (i_own _ H)].
  - intros u z c Hu Hin. assert (∃ y, threads s !! c = Some y ∧ Parent y = Some u) as (y & Hy & Hpy).
    { apply Hl in Hu as [[-> ->]|[_ Hu]]; [apply (i_owed _ H _ x); [done | by apply Hw] | by apply (i_owed _ H _ z)]. }
    destruct (decide (c = t)) as [-> |Hn].
    + exists x'. cbn. rewrite lookup_insert_eq. split; [done |]. congruence.
    + exists y. cbn. by rewrite lookup_insert_ne.
  - intros c y p z [[-> ->]|[Hn Hy]]%Hl Hpy Hz.
    + apply Hl in Hz as [[-> ->]|[_ Hz]].
      * rewrite Hp in Hpy. pose proof (o_parent _ _ _ (i_own _ H _ _ Hx) _ Hpy). lia.
      * rewrite Hp in Hpy. apply (Hc p z Hpy Hz). by apply (i_edge _ H t x p z).
    + apply Hl in Hz as [[-> ->]|[_ Hz]]; [apply He; [done |] |]; by eapply (i_edge _ H).
  - intros c y p Hc' Hpy Hn. cbn in Hn. apply lookup_insert_None in Hn as [Hn Hne].
    apply Hl in Hc' as [[-> ->]|[_ Hy]]; [rewrite Hd by congruence; apply (i_orphan _ H t x p); [done | congruence | done] | by apply (i_orphan _ H c y p)].
Qed.

(** A thread as its children see it. *)
Definition same_parent (x x' : thread) : Prop := Child_list x' = Child_list x ∧ at_pc x' = at_pc x.

Lemma edge_same_parent x x' c y : same_parent x x' → edge x c y → edge x' c y.
Proof. destruct x, x'. intros [E1 E2] []. cbn in *. subst. by split. Qed.

Lemma edge_same_child z t x x' :
  Destroy_sema x' + dying x' = Destroy_sema x + dying x → Exit_sema x' = Exit_sema x → exited x' = exited x →
  (at_pc x = ExitDown → at_pc x' = ExitDown) → Load_sema x' = Load_sema x → started x' = started x →
  edge z t x → edge z t x'.
Proof. intros E1 E2 E3 E4 E5 E6 []. split; rewrite ?E1, ?E2, ?E3, ?E5, ?E6; auto. Qed.

Lemma inv_put_child s t x x' c y y' :
  inv s → threads s !! t = Some x → threads s !! c = Some y → Parent y = Some t →
  Parent x' = Parent x → Parent y' = Parent y → own t x' (next_tid s) → pagedir y' = pagedir y → same_parent y y' →
  (∀ d, d ∈ owed x' → d ∈ owed x) → (edge x c y → edge x' c y') →
  (∀ d z, d ≠ c → edge x d z → edge x' d z) → (∀ z, edge z t x → edge z t x') →
  Destroy_sema x' + dying x' = Destroy_sema x + dying x →
  inv (put t x' (put c y' s)).
Proof.
  intros H Hx Hy Hpy Hpx Hpy' Ho Hpd Hs Hw Hedge Hother Hup Hd.
  pose proof (o_parent _ _ _ (i_own _ H _ _ Hy) _ Hpy) as Hlt.
  assert (∀ u z, threads (put t x' (put c y' s)) !! u = Some z →
    u = t ∧ z = x' ∨ u ≠ t ∧ u = c ∧ z = y' ∨ u ≠ t ∧ u ≠ c ∧ threads s !! u = Some z) as Hl.
  { intros u z Hu. cbn in Hu. apply lookup_insert_Some in Hu as [[<- <-]|[? Hu]]; [by left | right].
    apply lookup_insert_Some in Hu. naive_solver. }
  assert (∀ u z, threads s !! u = Some z → ∃ z', threads (put t x' (put c y' s)) !! u = Some z' ∧ Parent z' = Parent z) as Hlive.
  { intros u z Hu. cbn. destruct (decide (u = t)) as [-> |]; [rewrite lookup_insert_eq | rewrite lookup_insert_ne by done].
    - exists x'. split; [done |]. congruence.
    - destruct (decide (u = c)) as [-> |]; [rewrite lookup_insert_eq | rewrite lookup_insert_ne by done]; [| eauto].
      exists y'. split; [done |]. congruence. }
  split; cbn [next_tid put].
  - intros u z [[-> ->]|[(_ & -> & ->)|(_ & _ & Hu)]]%Hl; [done | | by apply (i_own _ H)].
    destruct (i_own _ H _ _ Hy), y, y', Hs. cbn in *. subst. by split.
  - intros u z d Hu Hin. assert (∃ w, threads s !! d = Some w ∧ Parent w = Some u) as (w & Hw1 & Hw2).
    { apply Hl in Hu as [[-> ->]|[(_ & -> & ->)|(_ & _ & Hu)]]; [apply (i_owed _ H _ x); [done | by apply Hw] | | by apply (i_owed _ H _ z)].
      apply (i_owed _ H _ y); [done |]. destruct y, y', Hs. cbn in *. by subst. }
    destruct (Hlive d w Hw1) as (w' & ? & ?). exists w'. split; [done |]. congruence.
  - intros d w p z Hd' Hpw Hz. apply Hl in Hd' as [[-> ->]|[(? & -> & ->)|(? & ? & Hd')]].
    + apply Hl in Hz as [[-> ->]|[(_ & -> & ->)|(_ & _ & Hz)]].
      * rewrite Hpx in Hpw. pose proof (o_parent _ _ _ (i_own _ H _ _ Hx) _ Hpw). lia.
      * rewrite Hpx in Hpw. pose proof (o_parent _ _ _ (i_own _ H _ _ Hx) _ Hpw). lia.
      * apply Hup, (i_edge _ H t x p z); [done | congruence | done].
    + rewrite Hpy', Hpy in Hpw. injection Hpw as <-. apply Hl in Hz as [[_ ->]|[(? & _)|(? & _)]]; [| done..].
      apply Hedge. by apply (i_edge _ H c y t x).
    + apply Hl in Hz as [[-> ->]|[(? & -> & ->)|(_ & _ & Hz)]].
      * apply Hother; [done |]. by apply (i_edge _ H d w t x).
      * eapply edge_same_parent; [exact Hs |]. by apply (i_edge _ H d w c y).
      * by apply (i_edge _ H d w p z).
  - intros d w p Hd' Hpw Hn. assert (threads s !! p = None) as Hn'.
    { destruct (threads s !! p) eqn:E; [| done]. destruct (Hlive _ _ E) as (? & E' & _). congruence. }
    apply Hl in Hd' as [[-> ->]|[(_ & -> & ->)|(_ & _ & Hd')]].
    + rewrite Hd. apply (i_orphan _ H t x p); [done | congruence | done].
    + congruence.
    + by apply (i_orphan _ H d w p).
Qed.

Lemma own_mono t x n m : n ≤ m → own t x n → own t x m.
Proof.
  intros Hn []. split; try done.
  - intros c Hc. pose proof (o_range0 c Hc). lia.
  - destruct (at_pc x); try done. destruct o_pc0. split; [done | lia].
  - lia.
Qed.

Lemma inv_create s t x :
  inv s → threads s !! t = Some x → at_pc x = User →
  inv (Procs (<[t := set_pc (ExecFind (next_tid s)) (set_children (Child_list x ++ [next_tid s]) x)]>
        (<[next_tid s := new_thread (Some t)]> (threads s))) (S (next_tid s))).
Proof.
  intros H Hx Epc. set (c := next_tid s). set (x' := set_pc _ _). pose proof (i_own _ H _ _ Hx) as Ho.
  pose proof (o_name _ _ _ Ho) as Htc. fold c in Htc.
  assert (∀ u z, threads s !! u = Some z → u < c) as Hlt by (intros u z Hu; by apply (o_name _ _ _ (i_own _ H _ _ Hu))).
  assert (threads s !! c = None) as Hc by (destruct (threads s !! c) eqn:E; [apply Hlt in E; lia | done]).
  set (T := <[t := x']> (<[c := new_thread (Some t)]> (threads s))).
  assert (∀ u z, T !! u = Some z → u = t ∧ z = x' ∨ u = c ∧ z = new_thread (Some t) ∨ u ≠ t ∧ u ≠ c ∧ threads s !! u = Some z) as Hl.
  { intros u z Hu. apply lookup_insert_Some in Hu as [[<- <-]|[? Hu]]; [by left | right].
    apply lookup_insert_Some in Hu. naive_solver. }
  assert (∀ u z, threads s !! u = Some z → ∃ z', T !! u = Some z' ∧ Parent z' = Parent z) as Hlive.
  { intros u z Hu. unfold T. destruct (decide (u = t)) as [-> |]; [rewrite lookup_insert_eq | rewrite lookup_insert_ne by done].
    - exists x'. split; [done |]. cbn. congruence.
    - rewrite lookup_insert_ne by (apply Hlt in Hu; lia). eauto. }
  assert (c ∉ Child_list x) as Hcx by (intros Hin; apply (o_range _ _ _ Ho) in Hin; fold c in Hin; lia).
  split; cbn [next_tid threads].
  - intros u z [[-> ->]|[[-> ->]|(_ & _ & Hu)]]%Hl; [| | eapply own_mono; [| by apply (i_own _ H)]; lia].
    + destruct Ho. split; cbn; try done.
      * apply NoDup_app. split; [done |]. split; [intros d Hd ->%list_elem_of_singleton; done | apply NoDup_singleton].
      * intros d [Hd| ->%list_elem_of_singleton]%elem_of_app; [apply o_range0 in Hd; fold c in Hd; lia | lia].
      * apply elem_of_app. right. by apply list_elem_of_singleton.
      * intros Hp _. apply o_pagedir0; [done |]. congruence.
      * intros Hp. apply o_root0 in Hp as (? & _). done.
      * lia.
    + split; cbn; try done; [constructor | by intros d ?%not_elem_of_nil | | lia]. intros p [= <-]. done.
  - intros u z d Hu Hin. apply Hl in Hu as [[-> ->]|[[-> ->]|(_ & _ & Hu)]].
    + cbn in Hin. apply elem_of_app in Hin as [Hin| ->%list_elem_of_singleton].
      * destruct (i_owed _ H t x d Hx) as (y & Hy & ?); [by unfold owed; rewrite Epc |].
        destruct (Hlive _ _ Hy) as (y' & ? & ?). exists y'. split; [done |]. congruence.
      * exists (new_thread (Some t)). unfold T. rewrite lookup_insert_ne by lia. by rewrite lookup_insert_eq.
    + by apply not_elem_of_nil in Hin.
    + destruct (i_owed _ H u z d Hu Hin) as (y & Hy & ?). destruct (Hlive _ _ Hy) as (y' & ? & ?).
      exists y'. split; [done |]. congruence.
  - intros d y p z Hd Hpy Hz. apply Hl in Hd as [[-> ->]|[[-> ->]|(? & ? & Hd)]].
    + pose proof (o_parent _ _ _ Ho _ Hpy) as Hpt. apply Hl in Hz as [[-> _]|[[-> _]|(_ & _ & Hz)]]; [lia | lia |].
      apply (edge_same_child z t x); try done; [by cbn; unfold dying; rewrite Epc | by cbn; unfold exited; rewrite Epc
        | congruence | by cbn; unfold started; rewrite Epc | by apply (i_edge _ H t x p)].
    + cbn in Hpy. injection Hpy as <-. apply Hl in Hz as [[_ ->]|[[? _]|(? & _)]]; [| lia | done].
      split; cbn; try done. rewrite decide_True; [done |]. apply elem_of_app. right. by apply list_elem_of_singleton.
    + apply Hl in Hz as [[-> ->]|[[-> _]|(_ & _ & Hz)]].
      * destruct (i_edge _ H d y t x Hd Hpy Hx). unfold owed, reaping, starting, reading in *. rewrite Epc in *.
        split; cbn; try done.
        -- rewrite e_destroy0. destruct (decide (d ∈ Child_list x)); [rewrite decide_True; set_solver |].
           rewrite decide_False; [done |]. rewrite elem_of_app, list_elem_of_singleton. naive_solver.
        -- intros [Hd'| ->%list_elem_of_singleton]%elem_of_app; [| done]. by apply e_exit0.
      * pose proof (o_parent _ _ _ (i_own _ H _ _ Hd) _ Hpy). apply Hlt in Hd. lia.
      * by apply (i_edge _ H d y p).
  - intros d y p Hd Hpy Hn. assert (threads s !! p = None) as Hn'.
    { destruct (threads s !! p) eqn:E; [| done]. destruct (Hlive _ _ E) as (? & E' & _). congruence. }
    apply Hl in Hd as [[-> ->]|[[-> ->]|(? & ? & Hd)]].
    + cbn. pose proof (i_orphan _ H t x p Hx Hpy Hn') as Hor. unfold dying in Hor. by rewrite Epc in Hor.
    + cbn in Hpy. congruence.
    + by apply (i_orphan _ H d y p).
Qed.

Lemma inv_delete s t x : inv s → threads s !! t = Some x → at_pc x = Dying → inv (Procs (delete t (threads s)) (next_tid s)).
Proof.
  intros H Hx Epc.
  split; cbn [next_tid threads].
  - intros u z [_ Hu]%lookup_delete_Some. by apply (i_own _ H).
  - intros u z c [Hne Hu]%lookup_delete_Some Hin. destruct (i_owed _ H u z c Hu Hin) as (y & Hy & Hp).
    exists y. split; [| done]. rewrite lookup_delete_ne; [done |]. intros <-. assert (y = x) as -> by congruence.
    destruct (i_edge _ H t x u z Hx Hp Hu) as [Hd _ _ _ _ _]. unfold dying in Hd. rewrite Epc, decide_True in Hd by done. lia.
  - intros c y p z [_ Hc]%lookup_delete_Some Hp [_ Hz]%lookup_delete_Some. by apply (i_edge _ H c y p).
  - intros c y p [_ Hc]%lookup_delete_Some Hp Hn. apply lookup_delete_None in Hn as [<-|Hn]; [| by apply (i_orphan _ H c y p)].
    destruct (i_edge _ H c y t x Hc Hp Hx) as [Hd _ _ _ _ _]. unfold owed in Hd. rewrite Epc, decide_False in Hd by apply not_elem_of_nil. done.
Qed.

Lemma inv_boot : inv boot.
Proof.
  assert (∀ t x, threads boot !! t = Some x → t = 1 ∧ x = set_pc User (new_thread None)) as H.
  { intros t x Hx. change (({[1 := set_pc User (new_thread None)]} : gmap tid thread) !! t = Some x) in Hx.
    apply lookup_singleton_Some in Hx as [<- <-]. done. }
  split.
  - intros t x [-> ->]%H. split; cbn; try done; [constructor | by intros c ?%not_elem_of_nil | lia].
  - intros t x c [-> ->]%H Hc. by apply not_elem_of_nil in Hc.
  - intros c y p x [-> ->]%H Hp. done.
  - intros c y p [-> ->]%H Hp. done.
Qed.

(** ** Every step keeps the invariant *)

(** Structures as constructor terms, so that their fields compute. *)
Ltac open_thread x := destruct x as [?parent ?children ?pd ?loaded ?status ?load ?exit ?destroy ?k]; cbn in *; subst; cbn in *.

Ltac edge_solve :=
  intros; match goal with H : edge _ _ _ |- _ => destruct H end;
  split; unfold owed, dying, exited, started, reading, reaping, starting in *; cbn in *; try done; try naive_solver.

(** A thread keeps its own invariant when it moves on. *)
Ltac own_solve := match goal with H : own _ _ _ |- _ => destruct H end; cbn in *; split; cbn; try done;
  try (let Hp := fresh in intros Hp _; match goal with H : _ ≠ None → _ |- _ => by apply H end);
  try (let Hp := fresh in intros Hp; match goal with H : _ = None → _ |- _ => by destruct (H Hp) as (? & ? & ?) end).

Lemma get_child_process_found s l c d : get_child_process s l c = Ok (Some d) → d = c ∧ c ∈ l.
Proof.
  induction l as [|b l IH]; cbn; [done |]. destruct (threads s !! b); [| done]. case_decide.
  - intros [= <-]. split; [done |]. subst. by left.
  - intros [? ?]%IH. split; [done | by right].
Qed.

Lemma inv_load s t x success :
  inv s → threads s !! t = Some x → at_pc x = Created →
  inv (put t (set_pc (LoadUp success) (set_loaded true success (set_status (-1) x))) s).
Proof.
  intros H Hx E. pose proof (i_own _ H _ _ Hx) as Ho. open_thread x. apply (inv_put _ _ _ _ H Hx); cbn; try done.
  - destruct Ho. cbn in *. split; cbn; try done. intros Hp. by apply o_root0 in Hp as (_ & ? & _).
  - edge_solve.
  - edge_solve.
Qed.

Lemma inv_start_process s t x s' e :
  inv s → threads s !! t = Some x → start_process t x s = Some (Ok (s', e)) → inv s'.
Proof.
  intros H Hx E. pose proof (i_own _ H _ _ Hx) as Ho. unfold start_process in E.
  destruct (at_pc x) eqn:Epc; try done. injection E as <- _.
  assert (∀ z, edge z t x → edge z t (set_pc (if success then User else ExitUp (Child_list x)) (set_Load (S (Load_sema x)) x))) as Hup.
  { open_thread x. destruct success; edge_solve. }
  open_thread x. apply (inv_put _ _ _ _ H Hx); cbn; try done; try (by destruct success); try (by intros p z _ _; apply Hup).
  - destruct Ho. cbn in *. split; cbn; try done.
    + destruct success; [done | by exists []].
    + intros Hp _. by apply o_pagedir0.
    + intros Hp. by apply o_root0 in Hp as (_ & ? & _).
  - destruct success; edge_solve.
Qed.

(** A child in its parent's list, when the parent is not exiting, is live. *)
Lemma child_live s t x c :
  inv s → threads s !! t = Some x → c ∈ owed x → ∃ y, threads s !! c = Some y ∧ Parent y = Some t ∧ edge x c y.
Proof.
  intros H Hx Hc. destruct (i_owed _ H t x c Hx Hc) as (y & Hy & Hp). exists y. split; [done |]. split; [done |].
  by apply (i_edge _ H c y t x).
Qed.

Lemma inv_process_execute s t x s' e :
  inv s → threads s !! t = Some x → process_execute t x s = Some (Ok (s', e)) → inv s'.
Proof.
  intros H Hx E. pose proof (i_own _ H _ _ Hx) as Ho. unfold process_execute in E. destruct (at_pc x) as [| | |c|c|c| | | | | | | | |] eqn:Epc; try done.
  - destruct (get_child_process s (Child_list x) c) as [[d|]|] eqn:Ec; injection E as <- _ || discriminate E.
    + apply get_child_process_found in Ec as [-> Hin]. open_thread x. apply (inv_put _ _ _ _ H Hx); cbn; try done.
      * own_solve.
      * edge_solve.
      * edge_solve.
    + open_thread x. apply (inv_put _ _ _ _ H Hx); cbn; try done.
      * own_solve.
      * edge_solve.
      * edge_solve.
  - assert (c ∈ owed x) as Hc by (unfold owed; rewrite Epc; destruct Ho as [_ _ Hpc]; by rewrite Epc in Hpc).
    destruct (child_live _ _ _ _ H Hx Hc) as (y & Hy & Hp & He). unfold with_thread in E. rewrite Hy in E.
    destruct (Load_sema y) as [|n] eqn:El; [done |]. injection E as <- _.
    assert (started y = true) as Hst.
    { destruct He as [_ _ _ _ Hst _]. specialize (Hst ltac:(unfold starting; by rewrite Epc)). destruct (started y); [done | congruence]. }
    open_thread x. apply (inv_put_child _ _ _ _ _ y _ H Hx Hy Hp); cbn; try done.
    + own_solve.
    + open_thread y. edge_solve.
    + edge_solve.
    + edge_solve.
  - assert (c ∈ owed x) as Hc by (unfold owed; rewrite Epc; destruct Ho as [_ _ Hpc]; by rewrite Epc in Hpc).
    destruct (child_live _ _ _ _ H Hx Hc) as (y & Hy & Hp & He). unfold with_thread in E. rewrite Hy in E. injection E as <- _.
    open_thread x. apply (inv_put _ _ _ _ H Hx); cbn; try done.
    + own_solve.
    + edge_solve.
    + edge_solve.
Qed.

Lemma inv_process_wait s t x s' e :
  inv s → threads s !! t = Some x → process_wait t x s = Some (Ok (s', e)) → inv s'.
Proof.
  intros H Hx E. pose proof (i_own _ H _ _ Hx) as Ho. unfold process_wait in E. destruct (at_pc x) as [| | | | | |c|c|c st|c st| | | | |] eqn:Epc; try done.
  - assert (c ∈ owed x) as Hc by (unfold owed; rewrite Epc; destruct Ho as [_ _ Hpc]; by rewrite Epc in Hpc).
    destruct (child_live _ _ _ _ H Hx Hc) as (y & Hy & Hp & He). unfold with_thread in E. rewrite Hy in E.
    destruct (Exit_sema y) as [|n] eqn:El; [done |]. injection E as <- _.
    open_thread x. apply (inv_put_child _ _ _ _ _ y _ H Hx Hy Hp); cbn; try done.
    + own_solve.
    + intros _. open_thread y. assert (k = ExitDown ∧ n = 0) as [-> ->]; [| edge_solve].
      destruct He as [Hd He _ _ _ _]. unfold owed, dying in Hd. cbn in *. rewrite decide_True in Hd by done.
      specialize (He Hc ltac:(tauto)). unfold exited in He. destruct k; cbn in *; split; done || lia.
    + edge_solve.
    + edge_solve.
  - assert (c ∈ owed x) as Hc by (unfold owed; rewrite Epc; destruct Ho as [_ _ Hpc]; by rewrite Epc in Hpc).
    destruct (child_live _ _ _ _ H Hx Hc) as (y & Hy & Hp & He). unfold with_thread in E. rewrite Hy in E. injection E as <- _.
    open_thread x. apply (inv_put _ _ _ _ H Hx); cbn; try done.
    + own_solve.
    + edge_solve.
    + edge_solve.
  - destruct (all_live s _); [| done]. injection E as <- _.
    open_thread x. apply (inv_put _ _ _ _ H Hx); cbn; try done.
    + own_solve.
      * by apply NoDup_filter.
      * intros d [_ Hd]%list_elem_of_filter. by apply o_range0.
      * split; [intros [? _]%list_elem_of_filter; done | by apply o_range0].
    + unfold owed. cbn. destruct Ho as [_ _ Hpc _ _ _ _]. cbn in Hpc. intros d [-> |[_ Hd]%list_elem_of_filter]%elem_of_cons; done.
    + destruct Ho as [_ _ Hpc _ _ _ _]. cbn in Hpc. intros d y _ []. split; unfold owed, dying, exited, started, reading, reaping, starting in *; cbn in *; try done.
      * rewrite e_destroy0. apply decide_ext. rewrite elem_of_cons, list_elem_of_filter. destruct (decide (d = c)) as [-> |]; naive_solver.
      * intros [Hn Hd]%list_elem_of_filter _. by apply e_exit0.
    + edge_solve.
  - assert (c ∈ owed x) as Hc by (unfold owed; rewrite Epc; by left).
    destruct (child_live _ _ _ _ H Hx Hc) as (y & Hy & Hp & He). unfold with_thread in E. rewrite Hy in E. injection E as <- _.
    open_thread x. apply (inv_put_child _ _ _ _ _ y _ H Hx Hy Hp); cbn; try done.
    + own_solve.
    + unfold owed. cbn. intros d Hd. by right.
    + destruct Ho as [_ _ [Hpc _] _ _ _ _]. cbn in Hpc. destruct He. unfold owed in *. cbn in *.
      rewrite decide_True in e_destroy0 by by left. open_thread y. split; unfold owed, dying, exited, started, reading, reaping, starting in *; cbn in *; try done.
      rewrite decide_False by done. lia.
    + intros d z Hn []. split; unfold owed, dying, exited, started, reading, reaping, starting in *; cbn in *; try done.
      rewrite e_destroy0. apply decide_ext. rewrite elem_of_cons. naive_solver.
    + edge_solve.
Qed.

(** A child that its parent is reaping still waits for it. *)
Lemma reaping_owed t x n c : own t x n → reaping x c → c ∈ owed x.
Proof.
  intros [_ _ Hpc _ _ _ _]. unfold reaping, owed. destruct (at_pc x); try done; intros ->; [done | done | by left].
Qed.

Lemma inv_process_exit s t x s' e :
  inv s → threads s !! t = Some x → process_exit t x s = Some (Ok (s', e)) → inv s'.
Proof.
  intros H Hx E. pose proof (i_own _ H _ _ Hx) as Ho. unfold process_exit, release_children in E.
  destruct (at_pc x) as [| | | | | | | | | |[|c rest]|c rest| | |] eqn:Epc; try done.
  - injection E as <- _. open_thread x. apply (inv_put _ _ _ _ H Hx); cbn; try done; [own_solve | edge_solve | edge_solve].
  - assert (c ∈ owed x) as Hc by (unfold owed; rewrite Epc; by left).
    destruct (child_live _ _ _ _ H Hx Hc) as (y & Hy & Hp & He). unfold with_thread in E. rewrite Hy in E. injection E as <- _.
    open_thread x. assert (c ∉ rest) as Hnin.
    { destruct Ho as [Hnd _ [pre Hpre] _ _ _ _]. cbn in *. subst. apply NoDup_app in Hnd as (_ & _ & Hnd). by apply NoDup_cons in Hnd as [? _]. }
    apply (inv_put_child _ _ _ _ _ y _ H Hx Hy Hp); cbn; try done.
    + own_solve.
    + unfold owed. cbn. intros d Hd. by right.
    + intros _. destruct He. unfold owed in *. cbn in *. rewrite decide_True in e_destroy0 by by left. open_thread y.
      split; unfold owed, dying, exited, started, reading, reaping, starting in *; cbn in *; try done. rewrite decide_False by done. lia.
    + intros d z Hn []. split; unfold owed, dying, exited, started, reading, reaping, starting in *; cbn in *; try done.
      rewrite e_destroy0. apply decide_ext. rewrite elem_of_cons. naive_solver.
    + edge_solve.
  - unfold with_thread in E. destruct (threads s !! c) eqn:Hc; [| done]. injection E as <- _.
    open_thread x. apply (inv_put _ _ _ _ H Hx); cbn; try done; [| edge_solve | edge_solve].
    own_solve. destruct o_pc0 as [pre ->]. exists (pre ++ [c]). by rewrite <-app_assoc.
  - destruct (pagedir x) eqn:Epd; injection E as <- _; open_thread x; apply (inv_put _ _ _ _ H Hx); cbn; try done.
    + own_solve.
    + edge_solve.
    + intros p z _ _ []. split; unfold owed, dying, exited, started, reading, reaping, starting in *; cbn in *; try done.
      * intros Hin Hr. by rewrite (e_exit0 Hin Hr).
      * intros Hr. exfalso. destruct (at_pc z); naive_solver.
    + own_solve.
    + edge_solve.
    + intros p z -> _ _. destruct Ho as [_ _ _ Hpd _ _ _]. by specialize (Hpd ltac:(done) ltac:(done)).
    + intros Hp. destruct Ho as [_ _ _ Hpd _ _ _]. by specialize (Hpd Hp ltac:(done)).
  - destruct (Destroy_sema x) as [|n] eqn:Ed; [done |]. injection E as <- _.
    assert (∀ p z, Parent x = Some p → threads s !! p = Some z → edge z t x → ¬ reaping z t) as Hnr.
    { intros p z _ Hz [Hd _ _ _ _ _] Hr%(reaping_owed _ _ _ _ (i_own _ H _ _ Hz)). rewrite decide_True in Hd by done. lia. }
    open_thread x. apply (inv_put _ _ _ _ H Hx); cbn; try done; try (intros _; unfold dying; cbn; lia); [own_solve | edge_solve |].
    intros p z Hp Hz He. pose proof (Hnr p z Hp Hz He) as Hn. destruct He.
    split; unfold owed, dying, exited, started, reading, reaping, starting in *; cbn in *; try done. lia.
  - injection E as <- _. by eapply inv_delete.
Qed.

Lemma inv_step s t a s' e : inv s → with_pagedirs a → step t a s = Some (Ok (s', e)) → inv s'.
Proof.
  intros H Ha E. unfold step in E. destruct (threads s !! t) as [x|] eqn:Hx; [| done].
  pose proof (i_own _ H _ _ Hx) as Ho.
  destruct a as [created|c|st|pd success|], (at_pc x) eqn:Epc; try done;
    try (by eapply inv_start_process); try (by eapply inv_process_execute); try (by eapply inv_process_wait);
    try (by eapply inv_process_exit).
  - destruct created; [| by injection E as <- _]. unfold create_child in E. destruct (all_live _ _); [| done].
    injection E as <- _. by eapply inv_create.
  - destruct (get_child_process s (Child_list x) c) as [[d|]|] eqn:Ec; injection E as <- _ || discriminate E; [| done].
    apply get_child_process_found in Ec as [-> Hin]. open_thread x. apply (inv_put _ _ _ _ H Hx); cbn; try done; [own_solve | edge_solve | edge_solve].
  - injection E as <- _. open_thread x. apply (inv_put _ _ _ _ H Hx); cbn; try done; [own_solve | edge_solve | edge_solve]. by exists [].
  - destruct (implb success pd) eqn:Ei; [| done]. injection E as <- _. cbn in Ha. subst pd. by apply inv_load.
Qed.

Lemma reach_inv s h : reach with_pagedirs s h → inv s.
Proof. induction 1 as [|s h t a s' e _ IH Ha E]; [apply inv_boot | by eapply inv_step]. Qed.

(** ** What the calls return *)

(** Is an event right, after the events [h]?  Names are not used twice; a
    process loads once and exits once; exec reports whether the child that it
    made was loaded; wait returns the status that a child of the caller exited
    with, each at most once, and fails only for what is no child or has been
    waited for. *)
Definition event_ok (ev : event) (h : list event) : Prop :=
  match ev with
  | Spawned p c => ∀ p', Spawned p' c ∉ h
  | Loads c b => ∀ b', Loads c b' ∉ h
  | ExecReturns p (Some c) b => Spawned p c ∈ h ∧ Loads c b ∈ h
  | ExecReturns p None b => b = false
  | WaitReturns p c (Some st) => Spawned p c ∈ h ∧ Exits c st ∈ h ∧ ∀ st', WaitReturns p c (Some st') ∉ h
  | WaitReturns p c None => Spawned p c ∈ h → ∃ st, WaitReturns p c (Some st) ∈ h
  | Exits c st => ∀ st', Exits c st' ∉ h
  end.

Fixpoint lawful (h : list event) : Prop :=
  match h with [] => True | ev :: h => event_ok ev h ∧ lawful h end.

(** The children that [x] has not reported. *)
Definition held (x : thread) (c : tid) : Prop := c ∈ Child_list x ∨ match at_pc x with WaitUp d _ => c = d | _ => False end.

(** What the history tells of a live thread. *)
Record told (t : tid) (x : thread) (h : list event) : Prop := {
  h_parent p : Parent x = Some p → Spawned p t ∈ h;
  h_held c : held x c → Spawned t c ∈ h ∧ ∀ st, WaitReturns t c (Some st) ∉ h;
  h_known c : Spawned t c ∈ h → held x c ∨ ∃ st, WaitReturns t c (Some st) ∈ h;
  h_created b : at_pc x = Created → Loads t b ∉ h;
  h_loaded : at_pc x ≠ Created → Parent x ≠ None → Loads t (is_loaded x) ∈ h;
  h_running st : exited x = false → Exits t st ∉ h;
  h_exited : exited x = true → Exits t (exit_status x) ∈ h;
  h_reap : match at_pc x with WaitRemove c st | WaitUp c st => Exits c st ∈ h | _ => True end;
}.

Record hist (s : procs) (h : list event) : Prop := {
  hi_told t x : threads s !! t = Some x → told t x h;
  hi_spawned p c : Spawned p c ∈ h → p < next_tid s ∧ c < next_tid s;
  hi_names c : (∃ b, Loads c b ∈ h) ∨ (∃ st, Exits c st ∈ h) → c < next_tid s;
  hi_lawful : lawful h;
}.

Definition about (t : tid) (ev : event) : Prop :=
  match ev with
  | Spawned _ _ => False
  | Loads c _ | Exits c _ => c = t
  | WaitReturns p _ _ => p = t
  | ExecReturns _ _ _ => True
  end.

Lemma told_other u t z ev h : about t ev → u ≠ t → told u z h → told u z (ev :: h).
Proof.
  intros Ha Hne []. split; try setoid_rewrite elem_of_cons.
  - auto.
  - intros c Hc. destruct (h_held0 c Hc) as [? Hn]. split; [by right |]. intros st [<-|?]; [by apply Hne | by apply (Hn st)].
  - intros c [<-|Hc]; [done |]. destruct (h_known0 c Hc) as [?|[st ?]]; [by left | right; exists st; by right].
  - intros b Hp [<-|?]; [by apply Hne | by apply (h_created0 b)].
  - intros. right. auto.
  - intros st Hp [<-|?]; [by apply Hne | by apply (h_running0 st)].
  - intros. right. auto.
  - destruct (at_pc z); try done; by right.
Qed.

(** The history of a step of [t] that changes only its structure. *)
Lemma hist_put s t x x' e h :
  hist s h → threads s !! t = Some x → t < next_tid s → told t x' (option_list e ++ h) →
  (∀ ev, e = Some ev → about t ev ∧ event_ok ev h) → hist (put t x' s) (option_list e ++ h).
Proof.
  intros H Hx Ht Ho He. split.
  - intros u z Hu. cbn in Hu. apply lookup_insert_Some in Hu as [[<- <-]|[Hne Hu]]; [done |].
    apply (hi_told _ _ H) in Hu. destruct e as [ev|]; [| done]. by apply (told_other _ t); [apply He | |].
  - intros p c Hc. destruct e as [ev|]; cbn in Hc; [| by apply (hi_spawned _ _ H)].
    apply elem_of_cons in Hc as [<-|Hc]; [by destruct (He _ eq_refl) | by apply (hi_spawned _ _ H)].
  - intros c Hc. destruct e as [ev|]; cbn in Hc; [| by apply (hi_names _ _ H)]. destruct (He _ eq_refl) as [Ha _].
    setoid_rewrite elem_of_cons in Hc. cbn [next_tid put].
    destruct Hc as [[b [<-|?]]|[st [<-|?]]]; cbn in Ha; try (by subst); apply (hi_names _ _ H); eauto.
  - destruct e as [ev|]; cbn; [| apply H]. split; [by apply He | apply H].
Qed.

Definition harmless (ev : event) : Prop :=
  match ev with ExecReturns _ _ _ | WaitReturns _ _ None => True | _ => False end.

Lemma told_harmless t x ev h : harmless ev → told t x h → told t x (ev :: h).
Proof.
  intros Ha []. split; try setoid_rewrite elem_of_cons.
  - auto.
  - intros c Hc. destruct (h_held0 c Hc) as [? Hn]. split; [by right |]. intros st [<-|?]; [done | by apply (Hn st)].
  - intros c [<-|Hc]; [done |]. destruct (h_known0 c Hc) as [?|[st ?]]; [by left | right; exists st; by right].
  - intros b Hp [<-|?]; [done | by apply (h_created0 b)].
  - intros. right. auto.
  - intros st Hp [<-|?]; [done | by apply (h_running0 st)].
  - intros. right. auto.
  - destruct (at_pc x); try done; by right.
Qed.

(** A thread that only moves on. *)
Ltac told_solve := match goal with H : told _ _ _ |- _ => destruct H end;
  cbn in *; split; unfold held, exited in *; cbn in *; try done;
  try (intros _ ?; match goal with H : _ ≠ Created → _ |- _ => by apply H end).

(** A child changes only in its semaphores. *)
Lemma hist_child s h c y y' :
  hist s h → threads s !! c = Some y → c < next_tid s → same_parent y y' → Parent y' = Parent y → is_loaded y' = is_loaded y →
  exit_status y' = exit_status y → hist (put c y' s) h.
Proof.
  intros H Hy Hc [E1 E2] E3 E4 E5. apply (hist_put s c y y' None h H Hy Hc); [| done]. pose proof (hi_told _ _ H _ _ Hy) as Hold.
  destruct y, y'. cbn in *. subst. told_solve.
Qed.

Lemma lawful_waited h p c st : lawful h → WaitReturns p c (Some st) ∈ h → Spawned p c ∈ h.
Proof.
  induction h as [|ev h IH]; [by intros _ ?%not_elem_of_nil |]. intros [He Hh] [<-|Hin]%elem_of_cons; right.
  - by destruct He.
  - by apply IH.
Qed.

Lemma hist_create s t x h :
  inv s → hist s h → threads s !! t = Some x → at_pc x = User →
  hist (Procs (<[t := set_pc (ExecFind (next_tid s)) (set_children (Child_list x ++ [next_tid s]) x)]>
        (<[next_tid s := new_thread (Some t)]> (threads s))) (S (next_tid s))) (Spawned t (next_tid s) :: h).
Proof.
  intros H Hh Hx Epc. set (c := next_tid s). pose proof (o_name _ _ _ (i_own _ H _ _ Hx)) as Htc. fold c in Htc.
  assert (∀ p, Spawned p c ∉ h) as Hns by (intros p Hp; apply (hi_spawned _ _ Hh) in Hp; fold c in Hp; lia).
  split; cbn [threads next_tid].
  - intros u z Hu. apply lookup_insert_Some in Hu as [[<- <-]|[Hne Hu]]; [| apply lookup_insert_Some in Hu as [[<- <-]|[Hnc Hu]]].
    + pose proof (hi_told _ _ Hh _ _ Hx) as []. split; unfold held, exited in *; cbn; rewrite ?Epc in *; try done.
      * intros p Hp. right. auto.
      * intros d Hd. assert (d = c ∨ d ∈ Child_list x) as [-> |Hd'].
        { destruct Hd as [[?| ->%list_elem_of_singleton]%elem_of_app|[]]; auto. }
        -- split; [by left |]. intros st [?|Hin]%elem_of_cons; [done |].
           by apply (lawful_waited _ _ _ _ (hi_lawful _ _ Hh)), Hns in Hin.
        -- destruct (h_held0 d) as [? Hn]; [by left |]. split; [by right |]. intros st [?|Hin]%elem_of_cons; [done | by apply (Hn st)].
      * intros d [[= ->]|Hd]%elem_of_cons; [left; left; apply elem_of_app; right; by apply list_elem_of_singleton |].
        destruct (h_known0 d Hd) as [[?|[]]|[st ?]]; [left; left; apply elem_of_app; by left | right; exists st; by right].
      * intros _ Hp. right. by apply h_loaded0.
      * intros st _ [?|Hin]%elem_of_cons; [done | by apply (h_running0 st)].
    + split; unfold held, exited; cbn; try done.
      * intros p [= <-]. by left.
      * intros d [Hd|[]]. by apply not_elem_of_nil in Hd.
      * intros d [[= <- ?]|Hd]%elem_of_cons; [lia |]. apply (hi_spawned _ _ Hh) in Hd. fold c in Hd. lia.
      * intros b _ [?|Hd]%elem_of_cons; [done |]. assert (c < next_tid s) by (apply (hi_names _ _ Hh); eauto). fold c in H0. lia.
      * intros st _ [?|Hd]%elem_of_cons; [done |]. assert (c < next_tid s) by (apply (hi_names _ _ Hh); eauto). fold c in H0. lia.
    + pose proof (hi_told _ _ Hh _ _ Hu) as []. split; try setoid_rewrite elem_of_cons.
      * auto.
      * intros d Hd. destruct (h_held0 d Hd) as [? Hn]. split; [by right |]. intros st [?|?]; [done | by apply (Hn st)].
      * intros d [[= ? ?]|Hd]; [congruence |]. destruct (h_known0 d Hd) as [?|[st ?]]; [by left | right; exists st; by right].
      * intros b Hp [?|?]; [done | by apply (h_created0 b)].
      * intros. right. auto.
      * intros st Hp [?|?]; [done | by apply (h_running0 st)].
      * intros. right. auto.
      * destruct (at_pc z); try done; by right.
  - intros p d [[= -> ->]|Hd]%elem_of_cons; [lia |]. apply (hi_spawned _ _ Hh) in Hd. lia.
  - intros d Hd. assert (d < next_tid s); [| lia]. apply (hi_names _ _ Hh). setoid_rewrite elem_of_cons in Hd. naive_solver.
  - cbn. split; [done | apply Hh].
Qed.

Lemma hist_delete s t h : hist s h → hist (Procs (delete t (threads s)) (next_tid s)) h.
Proof.
  intros []. split; try done. intros u z Hu. cbn in Hu. apply lookup_delete_Some in Hu as [_ Hu]. by apply hi_told0.
Qed.

Lemma name_lt s t x : inv s → threads s !! t = Some x → t < next_tid s.
Proof. intros H Hx. exact (o_name _ _ _ (i_own _ H _ _ Hx)). Qed.

(** Both invariants, for a step of [t] on its own structure. *)
Lemma hist_own s t x x' e h :
  inv s → hist s h → threads s !! t = Some x → (told t x h → told t x' (option_list e ++ h)) →
  (told t x h → ∀ ev, e = Some ev → about t ev ∧ event_ok ev h) → hist (put t x' s) (option_list e ++ h).
Proof.
  intros H Hh Hx Ho He. pose proof (hi_told _ _ Hh _ _ Hx). apply (hist_put s t x x' e h Hh Hx); [by eapply name_lt | by apply Ho | by apply He].
Qed.

Lemma hist_execute s t x s' e h :
  inv s → hist s h → threads s !! t = Some x → process_execute t x s = Some (Ok (s', e)) → hist s' (rev e ++ h).
Proof.
  intros H Hh Hx E. pose proof (i_own _ H _ _ Hx) as Ho. unfold process_execute in E. destruct (at_pc x) as [| | |c|c|c| | | | | | | | |] eqn:Epc; try done.
  - destruct (get_child_process s (Child_list x) c) as [[d|]|] eqn:Ec; injection E as <- <- || discriminate E; open_thread x.
    + apply (hist_own s t _ _ None h H Hh Hx); [| done]. intros. told_solve.
    + apply (hist_own s t _ _ (Some (ExecReturns t None false)) h H Hh Hx); [| by intros _ ev [= <-]]. intros. apply told_harmless; [done |]. told_solve.
  - assert (c ∈ owed x) as Hc by (unfold owed; rewrite Epc; destruct Ho as [_ _ Hpc]; by rewrite Epc in Hpc).
    destruct (child_live _ _ _ _ H Hx Hc) as (y & Hy & Hp & He). unfold with_thread in E. rewrite Hy in E.
    destruct (Load_sema y) as [|n] eqn:El; [done |]. injection E as <- <-. cbn [rev app].
    pose proof (o_parent _ _ _ (i_own _ H _ _ Hy) _ Hp).
    assert (hist (put c (set_Load n y) s) h) as Hh1 by (by apply (hist_child s h c y); [| | eapply name_lt | | | |]).
    apply (hist_put _ t x _ None h Hh1); [cbn; by rewrite lookup_insert_ne by lia | exact (name_lt s t x H Hx) | | done].
    pose proof (hi_told _ _ Hh _ _ Hx). open_thread x. told_solve.
  - assert (c ∈ owed x) as Hc by (unfold owed; rewrite Epc; destruct Ho as [_ _ Hpc]; by rewrite Epc in Hpc).
    destruct (child_live _ _ _ _ H Hx Hc) as (y & Hy & Hp & He). unfold with_thread in E. rewrite Hy in E. injection E as <- <-. cbn [rev app].
    pose proof (hi_told _ _ Hh _ _ Hy) as Hty. pose proof (e_started _ _ _ He Epc) as Hst. open_thread x.
    apply (hist_own s t _ _ (Some (ExecReturns t (Some c) (is_loaded y))) h H Hh Hx); [intros; apply told_harmless; [done |]; told_solve |].
    intros _ ev [= <-]. split; [done |]. split; [by apply Hty |]. apply Hty; [| by rewrite Hp]. intros Ek. unfold started in Hst. by rewrite Ek in Hst.
Qed.

Lemma hist_wait s t x s' e h :
  inv s → hist s h → threads s !! t = Some x → process_wait t x s = Some (Ok (s', e)) → hist s' (rev e ++ h).
Proof.
  intros H Hh Hx E. pose proof (i_own _ H _ _ Hx) as Ho. unfold process_wait in E. destruct (at_pc x) as [| | | | | |c|c|c st|c st| | | | |] eqn:Epc; try done.
  - assert (c ∈ owed x) as Hc by (unfold owed; rewrite Epc; destruct Ho as [_ _ Hpc]; by rewrite Epc in Hpc).
    destruct (child_live _ _ _ _ H Hx Hc) as (y & Hy & Hp & He). unfold with_thread in E. rewrite Hy in E.
    destruct (Exit_sema y) as [|n] eqn:El; [done |]. injection E as <- <-. cbn [rev app].
    pose proof (o_parent _ _ _ (i_own _ H _ _ Hy) _ Hp).
    assert (hist (put c (set_Exit n y) s) h) as Hh1 by (by apply (hist_child s h c y); [| | eapply name_lt | | | |]).
    apply (hist_put _ t x _ None h Hh1); [cbn; by rewrite lookup_insert_ne by lia | exact (name_lt s t x H Hx) | | done].
    pose proof (hi_told _ _ Hh _ _ Hx). open_thread x. told_solve.
  - assert (c ∈ owed x) as Hc by (unfold owed; rewrite Epc; destruct Ho as [_ _ Hpc]; by rewrite Epc in Hpc).
    destruct (child_live _ _ _ _ H Hx Hc) as (y & Hy & Hp & He). unfold with_thread in E. rewrite Hy in E. injection E as <- <-. cbn [rev app].
    assert (at_pc y = ExitDown) as Hey by (apply (e_reaping _ _ _ He); unfold reaping; by rewrite Epc).
    assert (Exits c (exit_status y) ∈ h) as Hex by (apply (h_exited _ _ _ (hi_told _ _ Hh _ _ Hy)); unfold exited; by rewrite Hey).
    open_thread x. apply (hist_own s t _ _ None h H Hh Hx); [| done]. intros. told_solve.
  - destruct (all_live s _); [| done]. injection E as <- <-. cbn [rev app]. destruct Ho as [_ _ Hpc _ _ _ _]. rewrite Epc in Hpc.
    open_thread x. apply (hist_own s t _ _ None h H Hh Hx); [| done]. intros [].
    split; unfold held, exited in *; cbn in *; try done.
    + intros d Hd. apply h_held0. left. destruct Hd as [[_ Hd]%list_elem_of_filter| ->]; done.
    + intros d Hd. destruct (h_known0 d Hd) as [[Hd'|[]]|?]; [| by right]. left. destruct (decide (d = c)); [by right | left].
      by apply list_elem_of_filter.
    + intros _ Hpar. by apply h_loaded0.
  - assert (c ∈ owed x) as Hc by (unfold owed; rewrite Epc; by left).
    destruct (child_live _ _ _ _ H Hx Hc) as (y & Hy & Hp & He). unfold with_thread in E. rewrite Hy in E. injection E as <- <-. cbn [rev app].
    pose proof (o_parent _ _ _ (i_own _ H _ _ Hy) _ Hp).
    assert (hist (put c (set_Destroy (S (Destroy_sema y)) y) s) h) as Hh1 by (by apply (hist_child s h c y); [| | eapply name_lt | | | |]).
    pose proof (hi_told _ _ Hh _ _ Hx) as Ht. destruct Ho as [_ _ Hpc _ _ _ Hn]. rewrite Epc in Hpc.
    apply (hist_put _ t x _ (Some (WaitReturns t c (Some st))) h Hh1); [cbn; by rewrite lookup_insert_ne by lia | done | |].
    + open_thread x. destruct Ht. split; unfold held, exited in *; cbn in *; try done; try setoid_rewrite elem_of_cons.
      * auto.
      * intros d [Hd|[]]. destruct (h_held0 d) as [? Hno]; [by left |]. split; [by right |].
        intros st' [[= -> _]|?]; [naive_solver | by apply (Hno st')].
      * intros d [?|Hd]; [done |]. destruct (h_known0 d Hd) as [[?| ->]|[st' ?]]; eauto.
      * intros. right. auto.
      * intros st' _ [?|?]; [done | by apply (h_running0 st')].
    + intros ev [= <-]. split; [done |]. destruct (h_held _ _ _ Ht c) as [? Hno]; [right; by rewrite Epc |].
      pose proof (h_reap _ _ _ Ht) as Hr. rewrite Epc in Hr. done.
Qed.

Lemma hist_exit s t x s' e h :
  inv s → hist s h → threads s !! t = Some x → process_exit t x s = Some (Ok (s', e)) → hist s' (rev e ++ h).
Proof.
  intros H Hh Hx E. pose proof (i_own _ H _ _ Hx) as Ho. unfold process_exit, release_children in E.
  destruct (at_pc x) as [| | | | | | | | | |[|c rest]|c rest| | |] eqn:Epc; try done.
  - injection E as <- <-. open_thread x. apply (hist_own s t _ _ None h H Hh Hx); [| done]. intros. told_solve.
  - assert (c ∈ owed x) as Hc by (unfold owed; rewrite Epc; by left).
    destruct (child_live _ _ _ _ H Hx Hc) as (y & Hy & Hp & He). unfold with_thread in E. rewrite Hy in E. injection E as <- <-. cbn [rev app].
    pose proof (o_parent _ _ _ (i_own _ H _ _ Hy) _ Hp).
    assert (hist (put c (set_Destroy (S (Destroy_sema y)) y) s) h) as Hh1 by (by apply (hist_child s h c y); [| | eapply name_lt | | | |]).
    apply (hist_put _ t x _ None h Hh1); [cbn; by rewrite lookup_insert_ne by lia | exact (name_lt s t x H Hx) | | done].
    pose proof (hi_told _ _ Hh _ _ Hx). open_thread x. told_solve.
  - unfold with_thread in E. destruct (threads s !! c) eqn:Hc; [| done]. injection E as <- <-.
    open_thread x. apply (hist_own s t _ _ None h H Hh Hx); [| done]. intros. told_solve.
  - destruct (pagedir x) eqn:Epd; injection E as <- <-; cbn [rev app]; open_thread x.
    all: apply (hist_own s t _ _ (Some (Exits t status)) h H Hh Hx).
    all: try (intros [] ev [= <-]; split; [done |]; intros st'; by apply h_running0).
    all: intros []; split; unfold held, exited in *; cbn in *; try done; try setoid_rewrite elem_of_cons; auto.
    all: try (intros d Hd; destruct (h_held0 d Hd) as [? Hno]; split; [by right |]; intros st' [?|?]; [done | by apply (Hno st')]).
    all: try (intros d [?|Hd]; [done |]; destruct (h_known0 d Hd) as [?|[st' ?]]; [by left | right; exists st'; by right]).
    all: intros _ Hpar; right; by apply h_loaded0.
  - destruct (Destroy_sema x) as [|n] eqn:Ed; [done |]. injection E as <- <-.
    open_thread x. apply (hist_own s t _ _ None h H Hh Hx); [| done]. intros. told_solve.
  - injection E as <- <-. by apply hist_delete.
Qed.

Lemma hist_event s ev h : hist s h → harmless ev → event_ok ev h → hist s (ev :: h).
Proof.
  intros [] Hev Hok. split.
  - intros t x Hx. apply told_harmless; [done | by apply hi_told0].
  - intros p c [<-|?]%elem_of_cons; [done | by apply hi_spawned0].
  - intros c Hc. apply hi_names0. setoid_rewrite elem_of_cons in Hc. destruct Hc as [[b [<-|?]]|[st [<-|?]]]; eauto; done.
  - done.
Qed.

Lemma get_child_process_none s l c : get_child_process s l c = Ok None → c ∉ l.
Proof.
  induction l as [|b l IH]; cbn; [by intros _ ?%not_elem_of_nil |]. destruct (threads s !! b); [| done]. case_decide; [done |].
  intros E [->|?]%elem_of_cons; [done | by apply IH].
Qed.

Lemma hist_load s t x pd success h :
  inv s → hist s h → threads s !! t = Some x → at_pc x = Created →
  hist (put t (set_pc (LoadUp success) (set_loaded pd success (set_status (-1) x))) s) (Loads t success :: h).
Proof.
  intros H Hh Hx Epc. open_thread x. apply (hist_own s t _ _ (Some (Loads t success)) h H Hh Hx).
  - intros []; split; unfold held, exited in *; cbn in *; try done; try setoid_rewrite elem_of_cons; auto.
    + intros d Hd. destruct (h_held0 d Hd) as [? Hno]. split; [by right |]. intros st' [?|?]; [done | by apply (Hno st')].
    + intros d [?|Hd]; [done |]. destruct (h_known0 d Hd) as [?|[st' ?]]; [by left | right; exists st'; by right].
    + intros st _ [?|?]; [done | by apply (h_running0 st)].
  - intros [] ev [= <-]. split; [done |]. intros b. by apply h_created0.
Qed.

Lemma hist_step s t a s' e h :
  inv s → hist s h → step t a s = Some (Ok (s', e)) → hist s' (rev e ++ h).
Proof.
  intros H Hh E. unfold step in E. destruct (threads s !! t) as [x|] eqn:Hx; [| done].
  pose proof (i_own _ H _ _ Hx) as Ho. pose proof (hi_told _ _ Hh _ _ Hx) as Ht.
  destruct a as [created|c|st|pd success|], (at_pc x) eqn:Epc; try done;
    try (by eapply hist_execute); try (by eapply hist_wait); try (by eapply hist_exit).
  - destruct created; [unfold create_child in E; destruct (all_live _ _); [| done] |]; injection E as <- <-.
    + by apply hist_create.
    + by apply hist_event.
  - destruct (get_child_process s (Child_list x) c) as [[d|]|] eqn:Ec; injection E as <- <- || discriminate E.
    + open_thread x. apply (hist_own s t _ _ None h H Hh Hx); [| done]. intros. told_solve.
    + apply hist_event; [done | done |]. intros Hs. destruct (h_known _ _ _ Ht c Hs) as [[Hc|Hc]|?]; [| by rewrite Epc in Hc | done].
      by apply get_child_process_none in Ec.
  - injection E as <- <-. open_thread x. apply (hist_own s t _ _ None h H Hh Hx); [| done]. intros. told_solve.
  - destruct (implb success pd); [| done]. injection E as <- <-. by apply hist_load.
  - unfold start_process in E. rewrite Epc in E. injection E as <- <-. open_thread x.
    apply (hist_own s t _ _ None h H Hh Hx); [| done]. intros. destruct success; told_solve.
Qed.

Lemma reach_hist s h : reach with_pagedirs s h → hist s h.
Proof.
  induction 1 as [|s h t a s' e Hr IH Ha E]; [| by eapply hist_step; [eapply reach_inv | |]].
  split; [| by intros ? ? ?%not_elem_of_nil | intros c [[? ?%not_elem_of_nil]|[? ?%not_elem_of_nil]]; done | done].
  intros t x Hx. change (({[1 := set_pc User (new_thread None)]} : gmap tid thread) !! t = Some x) in Hx.
  apply lookup_singleton_Some in Hx as [<- <-]. split; cbn; try done; try (by intros; apply not_elem_of_nil).
  - intros c [?%not_elem_of_nil|[]]. done.
  - intros c ?%not_elem_of_nil. done.
Qed.

(** ** Theorems *)

Lemma all_live_ok s l : (∀ c, c ∈ l → is_Some (threads s !! c)) → all_live s l = true.
Proof.
  intros H. unfold all_live. apply forallb_forall. intros c Hc. apply bool_decide_eq_true, H. by apply list_elem_of_In.
Qed.

Lemma neighbours_in c l d : d ∈ neighbours c l → d ∈ l.
Proof.
  unfold neighbours. destruct (list_find (eq c) l) as [[i b]|]; [| by intros ?%not_elem_of_nil].
  intros [Hd|Hd]%elem_of_app; [destruct i as [|j]; [by apply not_elem_of_nil in Hd |] |];
    (destruct (l !! _) as [z|] eqn:E; cbn in Hd; [apply list_elem_of_singleton in Hd as -> | by apply not_elem_of_nil in Hd]);
    by eapply list_elem_of_lookup_2.
Qed.

Lemma get_child_process_ok s l c : (∀ d, d ∈ l → is_Some (threads s !! d)) → ∃ o, get_child_process s l c = Ok o.
Proof.
  induction l as [|b l IH]; intros H; cbn; [eauto |]. destruct (H b) as [y ->]; [by left |]. case_decide; [eauto |].
  apply IH. intros d Hd. apply H. by right.
Qed.

(** The only step that can touch a freed structure. *)
Lemma step_err s t a e :
  inv s → step t a s = Some (Err e) →
  e = BadPointer ∧ a = Go ∧ ∃ x c rest, threads s !! t = Some x ∧ at_pc x = ExitNext c rest ∧ threads s !! c = None.
Proof.
  intros H E. unfold step in E. destruct (threads s !! t) as [x|] eqn:Hx; [| done].
  pose proof (i_own _ H _ _ Hx) as [_ _ Hpc _ _ _ _].
  assert (∀ c, c ∈ owed x → is_Some (threads s !! c)) as Hl by (intros c Hc; destruct (i_owed _ H t x c Hx Hc) as (y & -> & _); eauto).
  destruct a as [created|w|st|pd success|], (at_pc x) as [|b| |c|c|c|c|c|c st'|c st'|rest|c rest| | |] eqn:Epc; try done; unfold owed in Hl; rewrite Epc in Hl;
    unfold process_execute, start_process, process_wait, process_exit, release_children, with_thread in E; rewrite ?Epc in E; try done.
  - destruct created; [| done]. unfold create_child in E. rewrite all_live_ok in E; [done |].
    intros c Hc. apply Hl. destruct (last (Child_list x)) as [z|] eqn:El; cbn in Hc; [| by apply not_elem_of_nil in Hc].
    apply list_elem_of_singleton in Hc as ->. apply last_Some in El as [l ->]. apply elem_of_app. right. by left.
  - destruct (get_child_process_ok s (Child_list x) w Hl) as [[d|] Eg]; by rewrite Eg in E.
  - by destruct (implb success pd).
  - destruct (get_child_process_ok s (Child_list x) c Hl) as [[d|] Eg]; by rewrite Eg in E.
  - destruct (Hl _ Hpc) as [y Ey]. rewrite Ey in E. by destruct (Load_sema y).
  - destruct (Hl _ Hpc) as [y Ey]. by rewrite Ey in E.
  - destruct (Hl _ Hpc) as [y Ey]. rewrite Ey in E. by destruct (Exit_sema y).
  - destruct (Hl _ Hpc) as [y Ey]. by rewrite Ey in E.
  - rewrite all_live_ok in E; [done |]. intros d [->|Hd%neighbours_in]%elem_of_cons; by apply Hl.
  - destruct (Hl c) as [y Ey]; [by left |]. by rewrite Ey in E.
  - destruct rest as [|c rest]; [done |]. destruct (Hl c) as [y Ey]; [by left |]. by rewrite Ey in E.
  - destruct (threads s !! c) eqn:Ec; [done |]. injection E as <-. split; [done |]. split; [done |]. by exists x, c, rest.
  - by destruct (pagedir x).
  - by destruct (Destroy_sema x).
Qed.

(** A run that the choices determine. *)
Lemma run_reach (P : choice → Prop) l s h s' h' :
  reach P s h → Forall (λ ta, P ta.2) l → run l s h = Some (Ok (s', h')) → reach P s' h'.
Proof.
  intros Hr Hl. revert s h Hr. induction Hl as [|[t a] l Ha Hl IH]; intros s h Hr; cbn; [by intros [= <- <-] |].
  destruct (step t a s) as [[[s1 e]|]|] eqn:E; try done. apply IH. by eapply reach_step.
Qed.

(** What a thread can do at any time, unless it waits. *)
Definition move (x : thread) : choice := match at_pc x with Created => DoLoad true true | User => DoExit 0 | _ => Go end.

(** Every thread but those at a semaphore can go on, and what it waits for. *)
Lemma stuck s t x :
  inv s → threads s !! t = Some x → step t (move x) s = None →
  (∃ c y, (at_pc x = ExecDown c ∧ started y = false ∨ at_pc x = WaitDown c ∧ exited y = false) ∧
    threads s !! c = Some y ∧ t < c) ∨
  at_pc x = ExitDown ∧ ∃ p z, Parent x = Some p ∧ threads s !! p = Some z ∧ t ∈ owed z.
Proof.
  intros H Hx Hn. pose proof (i_own _ H _ _ Hx) as Ho.
  assert (∀ c, c ∈ Child_list x → at_pc x = ExecDown c ∨ at_pc x = WaitDown c →
    ∃ y, threads s !! c = Some y ∧ edge x c y ∧ t < c) as Hc.
  { intros c Hc Hpc. destruct (child_live s t x c H Hx) as (y & Hy & _ & He); [by destruct Hpc as [E|E]; unfold owed; rewrite E |].
    exists y. split; [done |]. split; [done |]. by apply (o_range _ _ _ Ho). }
  rename Hn into Hg. unfold step, move in Hg. rewrite Hx in Hg. pose proof (o_pc _ _ _ Ho) as Hpc.
  destruct (at_pc x) as [|b| |c|c|c|c|c|c st|c st|[|c rest]|c rest| | |] eqn:Epc; try done;
    unfold process_execute, start_process, process_wait, process_exit, release_children, with_thread in Hg; rewrite Epc in Hg; try done.
  - by destruct (get_child_process s (Child_list x) c) as [[]|].
  - destruct (Hc c Hpc) as (y & Hy & He & Ht); [by left |]. rewrite Hy in Hg. destruct (Load_sema y) eqn:El; [| done].
    left. exists c, y. split; [left; split; [done |] | done]. pose proof (e_starting _ _ _ He) as Hs. unfold starting in Hs. rewrite Epc in Hs.
    specialize (Hs eq_refl). by destruct (started y); [congruence |].
  - by destruct (threads s !! c).
  - destruct (Hc c Hpc) as (y & Hy & He & Ht); [by right |]. rewrite Hy in Hg. destruct (Exit_sema y) eqn:El; [| done].
    left. exists c, y. split; [right; split; [done |] | done]. pose proof (e_exit _ _ _ He Hpc) as Hs. unfold reading in Hs. rewrite Epc in Hs.
    specialize (Hs ltac:(tauto)). by destruct (exited y); [congruence |].
  - by destruct (threads s !! c).
  - by destruct (all_live _ _).
  - by destruct (threads s !! c).
  - by destruct (threads s !! c).
  - by destruct (threads s !! c).
  - by destruct (pagedir x).
  - destruct (Destroy_sema x) eqn:Ed; [| done]. right. split; [done |]. destruct (Parent x) as [p|] eqn:Ep.
    2: { destruct (o_root _ _ _ Ho Ep) as (_ & _ & ?). congruence. }
    exists p. destruct (threads s !! p) as [z|] eqn:Ez.
    + exists z. split; [done |]. split; [done |]. pose proof (e_destroy _ _ _ (i_edge _ H t x p z Hx Ep Ez)) as Hd.
      unfold dying in Hd. rewrite Epc, Ed in Hd. by case_decide.
    + pose proof (i_orphan _ H t x p Hx Ep Ez) as Hd. unfold dying in Hd. rewrite Epc, Ed in Hd. done.
Qed.

(** A thread whose children are not all released is no zombie. *)
Lemma owed_running x c : c ∈ owed x → at_pc x ≠ ExitDown.
Proof. unfold owed. intros Hc E. rewrite E in Hc. by apply not_elem_of_nil in Hc. Qed.

Lemma process_calls_lawful s h : reach with_pagedirs s h → lawful h.
Proof. intros H. apply (hi_lawful _ _ (reach_hist _ _ H)). Qed.

(** The structure of a process is not freed while its parent may use it,
    with one exception.  Whatever the interleaving, the only step that can
    touch a freed structure is that of process_exit, from a child that it has
    just released to the next element of the list of children: the child may be
    gone by then. *)
Lemma process_structures_live s h t a e :
  reach with_pagedirs s h → step t a s = Some (Err e) →
  e = BadPointer ∧ a = Go ∧ ∃ x c rest, threads s !! t = Some x ∧ at_pc x = ExitNext c rest ∧ threads s !! c = None.
Proof. intros H. by apply step_err, (reach_inv s h). Qed.

(** No deadlock, and no process stays behind.  While there are processes,
    one of them can go on; and a process that has exited waits only for a
    parent that is alive, and has neither waited for it nor released it on its
    own exit. *)
Lemma processes_progress s h :
  reach with_pagedirs s h →
  (threads s ≠ ∅ → ∃ t a, with_pagedirs a ∧ step t a s ≠ None) ∧
  ∀ t x, threads s !! t = Some x → at_pc x = ExitDown → step t Go s = None →
    ∃ p z, Parent x = Some p ∧ threads s !! p = Some z ∧ t ∈ owed z.
Proof.
  intros Hr. pose proof (reach_inv _ _ Hr) as H.
  split.
  - intros Hne. destruct (decide (Exists (λ tx, is_Some (step tx.1 (move tx.2) s)) (map_to_list (threads s)))) as [He|Hno].
    + apply Exists_exists in He as ([t x] & _ & Hs). exists t, (move x). split; [unfold move; by destruct (at_pc x) |].
      intros E. cbn in Hs. rewrite E in Hs. by destruct Hs.
    + exfalso. assert (∀ t x, threads s !! t = Some x → step t (move x) s = None) as Hn.
      { intros t x Hx. apply eq_None_not_Some. intros Hs. apply Hno, Exists_exists. exists (t, x).
        split; [by apply elem_of_map_to_list | done]. }
      assert (∀ n t x, next_tid s - t ≤ n → threads s !! t = Some x → at_pc x ≠ ExitDown → False) as Hwait.
      { induction n as [|n IH]; intros t x Ht Hx Hex; pose proof (name_lt s t x H Hx); [lia |].
        destruct (stuck s t x H Hx (Hn _ _ Hx)) as [(c & y & Hc & Hy & Hlt)|[? _]]; [| done].
        apply (IH c y); [lia | done |]. intros E. unfold started, exited in Hc. rewrite E in Hc. by destruct Hc as [[_ ?]|[_ ?]]. }
      destruct (map_choose _ Hne) as (t & x & Hx).
      destruct (stuck s t x H Hx (Hn _ _ Hx)) as [(c & y & [[E _]|[E _]] & _)|[_ (p & z & _ & Hz & Ho)]].
      * apply (Hwait _ t x (le_n _) Hx). congruence.
      * apply (Hwait _ t x (le_n _) Hx). congruence.
      * apply (Hwait _ p z (le_n _) Hz). by eapply owed_running.
  - intros t x Hx E Hs. destruct (stuck s t x H Hx) as [(c & y & [[? _]|[? _]] & _)|[_ ?]]; [| congruence.. | done].
    unfold move. by rewrite E.
Qed.

(** C39: Processes that all get a page directory, however their steps interleave.
    The calls keep their word: in every history, exec reports for the child that
    it made whether the child was loaded; wait returns the status that the child
    exited with, and never before it exited; each child is waited for at most
    once; wait fails only for a process that is not a child of the caller or has
    already been waited for; and no process exits twice.  The structure of a
    process is not freed while its parent may use it, with one exception: the
    only step that can touch a freed structure is that of process_exit, from a
    child that it has just released to the next element of the list of children,
    as the child may be gone by then.  There is no deadlock: while there are
    processes, one of them can go on; and a process that has exited waits only
    for a parent that is alive, and has neither waited for it nor released it on
    its own exit. *)
Theorem process_life_cycle s h :
  reach with_pagedirs s h →
  lawful h ∧
  (∀ t a e, step t a s = Some (Err e) →
     e = BadPointer ∧ a = Go ∧ ∃ x c rest, threads s !! t = Some x ∧ at_pc x = ExitNext c rest ∧ threads s !! c = None) ∧
  (threads s ≠ ∅ → ∃ t a, with_pagedirs a ∧ step t a s ≠ None) ∧
  ∀ t x, threads s !! t = Some x → at_pc x = ExitDown → step t Go s = None →
    ∃ p z, Parent x = Some p ∧ threads s !! p = Some z ∧ t ∈ owed z.
Proof.
  intros H. split; [by eapply process_calls_lawful |]. split; [| by eapply processes_progress].
  intros t a e. by eapply process_structures_live.
Qed.

(** ** Runs *)

(** The first process (2) starts another (3), waits for it and exits. *)
Definition wait_run : list (tid * choice) :=
  [(1, DoExec true); (1, Go); (2, DoLoad true true); (2, Go); (1, Go); (1, Go);
   (2, DoExec true); (2, Go); (3, DoLoad true true); (3, Go); (2, Go); (2, Go);
   (2, DoWait 3); (3, DoExit 7); (3, Go); (3, Go); (2, Go); (2, Go); (2, Go); (2, Go)].

(** The same, but process 2 exits when 3 has exited: 3 is gone before 2 goes on
    to the next of its children. *)
Definition race_run : list (tid * choice) :=
  [(1, DoExec true); (1, Go); (2, DoLoad true true); (2, Go); (1, Go); (1, Go);
   (2, DoExec true); (2, Go); (3, DoLoad true true); (3, Go); (2, Go); (2, Go);
   (3, DoExit 7); (3, Go); (3, Go); (2, DoExit 0); (2, Go); (3, Go); (3, Go)].

Definition state_after (l : list (tid * choice)) : procs * list event :=
  match run l boot [] with Some (Ok r) => r | _ => (boot, []) end.

Lemma run_after l : Forall (λ ta, with_pagedirs ta.2) l → is_Some (match run l boot [] with Some (Ok r) => Some r | _ => None end) →
  reach with_pagedirs (state_after l).1 (state_after l).2.
Proof.
  intros Hl Hr. apply (run_reach _ l boot [] _ _ (reach_boot _) Hl). unfold state_after.
  destruct (run l boot []) as [[[s h]|]|]; [done | by destruct Hr..].
Qed.

Lemma wait_run_reach : reach with_pagedirs (state_after wait_run).1 (state_after wait_run).2.
Proof. apply run_after; [by repeat constructor | eexists; vm_compute; reflexivity]. Qed.

Lemma race_run_reach : reach with_pagedirs (state_after race_run).1 (state_after race_run).2.
Proof. apply run_after; [by repeat constructor | eexists; vm_compute; reflexivity]. Qed.

(** A full life cycle; and a process about to read a structure that is gone. *)
Lemma process_life_cycle_witness :
  (state_after wait_run).2 = [WaitReturns 2 3 (Some 7%Z); Exits 3 7; ExecReturns 2 (Some 3) true; Loads 3 true; Spawned 2 3;
    ExecReturns 1 (Some 2) true; Loads 2 true; Spawned 1 2] ∧ lawful (state_after wait_run).2 ∧
  (∃ t a, with_pagedirs a ∧ step t a (state_after wait_run).1 ≠ None) ∧
  step 2 Go (state_after race_run).1 = Some (Err BadPointer) ∧
  ∃ x c rest, threads (state_after race_run).1 !! 2 = Some x ∧ at_pc x = ExitNext c rest ∧ threads (state_after race_run).1 !! c = None.
Proof.
  assert (step 2 Go (state_after race_run).1 = Some (Err BadPointer)) as E by (vm_compute; reflexivity).
  destruct (process_life_cycle _ _ wait_run_reach) as (Hl & _ & Hp & _).
  destruct (process_life_cycle _ _ race_run_reach) as (_ & He & _).
  split; [vm_compute; reflexivity |]. split; [exact Hl |]. split; [apply Hp; vm_compute; discriminate |].
  split; [exact E |]. exact (proj2 (proj2 (He 2 Go BadPointer E))).
Defined.

(** Without memory for the page directory of a new process, exec itself reads
    the structure of a child that is gone: such a child does not wait for its
    parent. *)
Lemma exec_out_of_memory_dangling :
  ∃ s h, reach (λ _, True) s h ∧ step 1 Go s = Some (Err BadPointer).
Proof.
  set (l := [(1, DoExec true); (1, Go); (2, DoLoad false false); (2, Go); (1, Go); (2, Go); (2, Go); (2, Go)]).
  exists (state_after l).1, (state_after l).2. split; [| by vm_compute].
  apply (run_reach _ l boot [] _ _ (reach_boot _)); [by repeat constructor | vm_compute; reflexivity].
Qed.

(** A child that could not be loaded stays, with its structure, until its
    parent exits, which has not been told its name. *)
Lemma failed_exec_leaves_zombie :
  ∃ s h, reach with_pagedirs s h ∧ head h = Some (ExecReturns 1 (Some 2) false) ∧
    (∃ y, threads s !! 2 = Some y ∧ at_pc y = ExitDown) ∧ step 2 Go s = None.
Proof.
  set (l := [(1, DoExec true); (1, Go); (2, DoLoad true false); (2, Go); (2, Go); (2, Go); (1, Go); (1, Go)]).
  exists (state_after l).1, (state_after l).2. split; [| split; [by vm_compute | split; [| by vm_compute]]].
  - apply run_after; [by repeat constructor | eexists; vm_compute; reflexivity].
  - by eexists.
Qed.
