(* ===== verification/BlockThm.v ===== *)
(** Correctness of devices/block.c and devices/partition.c: each block is a
    device of its own, a partition is a window of its disk, and the scan of a
    partition table registers what the table says. *)
From S2P Require Import Prelude Bytes Block.
Local Open Scope Z_scope.

Section block.
Context {D : Type} `{!Device D} `{!DeviceLaws D}.
Implicit Types s : block_state D.

(** What reading and writing leave alone. *)
Definition shape (x : block) : list Z * block_type * Z * block_ops := (b_name x, b_type x, b_size x, b_ops x).

Definition shapes s : gmap loc (list Z * block_type * Z * block_ops) := shape <$> block_tab s.

(** A disk has a driver of its own, of the size of the block; a partition is a
    range of the sectors of a disk. *)
Definition block_wf s (x : block) : Prop :=
  match b_ops x with
  | DiskOps d => b_type x ≠ BLOCK_FOREIGN ∧
      ∃ dr, drivers s !! d = Some dr ∧ device_ok dr ∧ device_size dr = b_size x
  | PartitionOps p start => 0 ≤ start ∧ 0 ≤ b_size x ∧
      ∃ y d, block_tab s !! p = Some y ∧ b_ops y = DiskOps d ∧ start + b_size x ≤ b_size y
  end.

Record blocks_ok s : Prop := {
  ok_wf b x : block_tab s !! b = Some x → block_wf s x;
  ok_driver b1 b2 x1 x2 d : block_tab s !! b1 = Some x1 → block_tab s !! b2 = Some x2 →
    b_ops x1 = DiskOps d → b_ops x2 = DiskOps d → b1 = b2;
}.

(** The sectors of a block, through the driver of its disk. *)
Definition disk_view s (b : loc) : list (list Z) :=
  match b_ops <$> block_tab s !! b with
  | Some (DiskOps d) => from_option sectors [] (drivers s !! d)
  | _ => []
  end.

Definition view s (b : loc) : list (list Z) :=
  match block_tab s !! b with
  | Some x => match b_ops x with
      | DiskOps _ => disk_view s b
      | PartitionOps p start => take (Z.to_nat (b_size x)) (drop (Z.to_nat start) (disk_view s p))
      end
  | None => []
  end.

(** The disk of a block and its first sector there. *)
Definition place (b : loc) (x : block) : loc * Z :=
  match b_ops x with DiskOps _ => (b, 0) | PartitionOps p start => (p, start) end.

Lemma shapes_lookup s s' b x :
  shapes s' = shapes s → block_tab s !! b = Some x → ∃ x', block_tab s' !! b = Some x' ∧ shape x' = shape x.
Proof.
  intros E Hb. assert (shapes s' !! b = Some (shape x)) as H by (rewrite E; unfold shapes; by rewrite lookup_fmap, Hb).
  unfold shapes in H. rewrite lookup_fmap in H. destruct (block_tab s' !! b) as [x'|]; [| done].
  exists x'. split; [done |]. by apply (inj Some).
Qed.

Lemma shapes_insert s b x x' :
  block_tab s !! b = Some x → shape x' = shape x → shape <$> (<[b := x']> (block_tab s)) = shapes s.
Proof.
  intros Hb E. unfold shapes. rewrite fmap_insert, E. apply insert_id. by rewrite lookup_fmap, Hb.
Qed.

(** A step that keeps the shapes and the health of the drivers. *)
Definition drivers_step (m m' : gmap loc D) : Prop := ∀ d x, m !! d = Some x → device_ok x →
  ∃ x', m' !! d = Some x' ∧ device_ok x' ∧ device_size x' = device_size x.

Lemma blocks_ok_step s s' :
  blocks_ok s → shapes s' = shapes s → drivers_step (drivers s) (drivers s') → blocks_ok s'.
Proof.
  intros [Hwf Hd] E Hdr. split.
  - intros b x' Hb. destruct (shapes_lookup s' s b x' ltac:(done) Hb) as (x & Hx & Es).
    apply Hwf in Hx. unfold block_wf in *. injection Es as En Et Ez Eo. rewrite Eo, Et, Ez in Hx.
    destruct (b_ops x') as [d|p st].
    + destruct Hx as (? & dr & H1 & H2 & H3). split; [done |].
      destruct (Hdr _ _ H1 H2) as (dr' & ? & ? & ?). exists dr'. split_and!; [done.. | lia].
    + destruct Hx as (? & ? & y & d & Hy & Ho & ?). split_and!; [done.. |].
      destruct (shapes_lookup s s' p y E Hy) as (y' & Hy' & Ey). injection Ey as _ _ ? ?.
      exists y', d. split_and!; [done | congruence | lia].
  - intros b1 b2 x1 x2 d H1 H2 O1 O2.
    destruct (shapes_lookup s' s b1 x1 ltac:(done) H1) as (y1 & Hy1 & E1).
    destruct (shapes_lookup s' s b2 x2 ltac:(done) H2) as (y2 & Hy2 & E2).
    apply (f_equal snd) in E1, E2. cbn in E1, E2. apply (Hd b1 b2 y1 y2 d); congruence.
Qed.

Lemma disk_view_length s b x d :
  blocks_ok s → block_tab s !! b = Some x → b_ops x = DiskOps d →
  Z.of_nat (length (disk_view s b)) = b_size x ∧ b_size x < 4294967296.
Proof.
  intros [Hwf _] Hb Ho. apply Hwf in Hb as Hx. unfold block_wf in Hx. rewrite Ho in Hx.
  destruct Hx as (_ & dr & Hdr & Hok & Hs). unfold disk_view. rewrite Hb. cbn. rewrite Ho, Hdr. cbn.
  pose proof (device_ok_size _ Hok). lia.
Qed.

Lemma view_length s b x :
  blocks_ok s → block_tab s !! b = Some x → Z.of_nat (length (view s b)) = b_size x ∧ 0 ≤ b_size x < 4294967296.
Proof.
  intros Hok Hb. unfold view. rewrite Hb. destruct (b_ops x) as [d|p st] eqn:Ho.
  - destruct (disk_view_length s b x d) as [? ?]; [done.. | lia].
  - pose proof (ok_wf _ Hok _ _ Hb) as Hx. unfold block_wf in Hx. rewrite Ho in Hx.
    destruct Hx as (? & ? & y & d & Hy & Hyo & ?).
    destruct (disk_view_length s p y d) as [? ?]; [done.. |].
    rewrite length_take, length_drop. lia.
Qed.

Lemma view_sectors s b : blocks_ok s → Forall is_sector (view s b).
Proof.
  assert (∀ b, blocks_ok s → Forall is_sector (disk_view s b)) as Hd.
  { intros b' Hok. unfold disk_view. destruct (block_tab s !! b') as [x|] eqn:Hx; [| by constructor].
    cbn. destruct (b_ops x) as [d|] eqn:Ho; [| by constructor].
    pose proof (ok_wf _ Hok _ _ Hx) as Hw. unfold block_wf in Hw. rewrite Ho in Hw.
    destruct Hw as (_ & dr & -> & ? & _). cbn. by apply device_ok_sectors. }
  intros Hok. unfold view. destruct (block_tab s !! b) as [x|]; [| by constructor].
  destruct (b_ops x); [by apply Hd | by apply Forall_take, Forall_drop, Hd].
Qed.

(** ** Reading and writing *)

Lemma check_sector_ok (x : block) i s : i < b_size x → check_sector x i s = Ok (tt, s).
Proof. intros. unfold check_sector. by destruct (Z.leb_spec (b_size x) i); [lia |]. Qed.

Lemma check_sector_out (x : block) i s : b_size x ≤ i → check_sector x i s = Err KernelPanic.
Proof. intros. unfold check_sector. by destruct (Z.leb_spec (b_size x) i); [| lia]. Qed.

(** The state after a step on disk [d] whose driver becomes [dr']. *)
Lemma step_views s s' (d : loc) (dr dr' : D) :
  blocks_ok s → shapes s' = shapes s → drivers s !! d = Some dr → drivers s' = <[d := dr']> (drivers s) →
  device_ok dr' → device_size dr' = device_size dr →
  blocks_ok s' ∧ ∀ b, disk_view s' b =
    if bool_decide (b_ops <$> block_tab s !! b = Some (DiskOps d)) then sectors dr' else disk_view s b.
Proof.
  intros Hok E Hd Es Hok' Hsz. split.
  - apply (blocks_ok_step s); [done.. |]. intros d2 x Hx Hox. rewrite Es.
    destruct (decide (d2 = d)) as [->|Hne]; [| exists x; by rewrite lookup_insert_ne].
    exists dr'. rewrite lookup_insert_eq. split_and!; [done.. |]. congruence.
  - intros b. unfold disk_view.
    assert (b_ops <$> block_tab s' !! b = b_ops <$> block_tab s !! b) as ->.
    { destruct (block_tab s !! b) as [x|] eqn:Hb.
      - destruct (shapes_lookup s s' b x E Hb) as (x' & -> & [= ? ? ? ?]). cbn. congruence.
      - assert (shapes s' !! b = None) as H by (rewrite E; unfold shapes; by rewrite lookup_fmap, Hb).
        unfold shapes in H. rewrite lookup_fmap in H. by destruct (block_tab s' !! b). }
    destruct (b_ops <$> block_tab s !! b) as [[d2|]|]; [| done..].
    rewrite Es. case_bool_decide as Hc; simplify_eq; [by rewrite lookup_insert_eq |].
    rewrite lookup_insert_ne; [done | congruence].
Qed.

(** A read or write of sector [i] of block [b], which turns the views of the
    blocks into those of [upd], the other facts of the state being kept. *)
Definition access_ok s s' (b : loc) (i : Z) (upd : list (list Z) → list (list Z)) : Prop :=
  blocks_ok s' ∧ shapes s' = shapes s ∧ all_blocks s' = all_blocks s ∧ block_by_role s' = block_by_role s ∧
  ∀ b', disk_view s' b' = if bool_decide (b' = b) then upd (disk_view s b') else disk_view s b'.

Lemma count_access s s1 b x x' (i : Z) upd p :
  access_ok s s1 p i upd → block_tab s1 !! b = Some x → shape x' = shape x →
  access_ok s (set_block b x' s1) p i upd.
Proof.
  intros (Hok & E & Ha & Hr & Hv) Hx Ex.
  assert (shapes (set_block b x' s1) = shapes s1) as E' by (unfold shapes at 1; by apply shapes_insert with x).
  split_and!; [| congruence | done | done |].
  - apply (blocks_ok_step s1); [done.. |]. intros d y ??. by exists y.
  - intros b'. rewrite <-Hv. unfold disk_view. cbn.
    destruct (decide (b' = b)) as [->|]; [| by rewrite lookup_insert_ne].
    rewrite lookup_insert_eq, Hx. cbn. by injection Ex as _ _ _ ->.
Qed.

Lemma on_driver_access s b x d A (f : ST D A) (a : A) dr dr' (i : Z) upd :
  blocks_ok s → block_tab s !! b = Some x → b_ops x = DiskOps d → drivers s !! d = Some dr →
  f dr = Ok (a, dr') → device_ok dr' → device_size dr' = device_size dr → sectors dr' = upd (sectors dr) →
  ∃ s', on_driver d f s = Ok (a, s') ∧ block_tab s' = block_tab s ∧ access_ok s s' b i upd.
Proof.
  intros Hok Hb Ho Hd Hf Hok' Hz Hs. exists (set_driver d dr' s). unfold on_driver. rewrite Hd, Hf.
  destruct (step_views s (set_driver d dr' s) d dr dr') as [H1 H2]; [done.. |].
  split_and!; [done.. |]. split_and!; [done.. |]. intros b'. rewrite H2.
  destruct (decide (b' = b)) as [->|Hne].
  - rewrite !bool_decide_true by (by rewrite ?Hb, <-?Ho). unfold disk_view. by rewrite Hb; cbn; rewrite Ho, Hd.
  - rewrite !bool_decide_false; [done.. |]. intros Hc.
    destruct (block_tab s !! b') as [x'|] eqn:Hb'; simplify_eq/=.
    by pose proof (ok_driver _ Hok _ _ _ _ _ Hb Hb' Ho ltac:(done)).
Qed.

(** The counters of a block. *)
Definition counts s (b : loc) : option (Z * Z) := (λ x, (read_cnt x, write_cnt x)) <$> block_tab s !! b.

Lemma disk_read s b x d n i v :
  blocks_ok s → block_tab s !! b = Some x → b_ops x = DiskOps d → 0 ≤ i → disk_view s b !! Z.to_nat i = Some v →
  ∃ s', block_read_fuel (S n) b i s = Ok (v, s') ∧ access_ok s s' b i (λ l, l) ∧
    block_tab s' = <[b := Block (b_name x) (b_type x) (b_size x) (b_ops x) (u64 (read_cnt x + 1)) (write_cnt x)]> (block_tab s).
Proof.
  intros Hok Hb Ho Hi Hv. destruct (disk_view_length s b x d) as [Hl ?]; [done.. |].
  apply lookup_lt_Some in Hv as ?. pose proof (ok_wf _ Hok _ _ Hb) as Hw. unfold block_wf in Hw. rewrite Ho in Hw.
  destruct Hw as (_ & dr & Hd & Hdok & Hz).
  assert (sectors dr !! Z.to_nat i = Some v) as Hv' by (unfold disk_view in Hv; rewrite Hb in Hv; cbn in Hv; by rewrite Ho, Hd in Hv).
  destruct (device_read_ok dr i v) as (dr' & Er & Hok' & Es); [done.. |].
  destruct (on_driver_access s b x d _ (device_read i) v dr dr' i (λ l, l)) as (s1 & E1 & Et & Ha); [done.. | | done |].
  { rewrite <-(proj1 (device_ok_size _ Hok')), <-(proj1 (device_ok_size _ Hdok)). by rewrite Es. }
  unfold block_read_fuel, get_block, mbind, st_bind, st_get, st_lift. rewrite Hb. cbn [from_option_err].
  rewrite check_sector_ok by lia. rewrite Ho, E1, Et, Hb. cbn. eexists. split; [done |]. split.
  - apply count_access with x; [done | by rewrite Et | unfold shape; cbn; congruence].
  - cbn. rewrite Et. congruence.
Qed.

Lemma disk_write s b x d n i v :
  blocks_ok s → block_tab s !! b = Some x → b_ops x = DiskOps d → 0 ≤ i < b_size x → is_sector v →
  ∃ s', block_write_fuel (S n) b i v s = Ok (tt, s') ∧ access_ok s s' b i (λ l, <[Z.to_nat i := v]> l) ∧
    block_tab s' = <[b := Block (b_name x) (b_type x) (b_size x) (b_ops x) (read_cnt x) (u64 (write_cnt x + 1))]> (block_tab s).
Proof.
  intros Hok Hb Ho Hi Hv.
  pose proof (ok_wf _ Hok _ _ Hb) as Hw. unfold block_wf in Hw. rewrite Ho in Hw.
  destruct Hw as (Hf & dr & Hd & Hdok & Hz).
  destruct (device_write_ok dr i v) as (dr' & Er & Hok' & Es); [done | lia | done |].
  destruct (on_driver_access s b x d _ (device_write i v) tt dr dr' i (λ l, <[Z.to_nat i := v]> l)) as (s1 & E1 & Et & Ha); [done.. | | done |].
  { rewrite <-(proj1 (device_ok_size _ Hok')), <-(proj1 (device_ok_size _ Hdok)). by rewrite Es, length_insert. }
  unfold block_write_fuel, get_block, mbind, st_bind, st_get, st_lift. rewrite Hb. cbn [from_option_err].
  rewrite check_sector_ok by lia. unfold st_assert, st_lift. rewrite bool_decide_true by done. cbn [assert_that].
  rewrite Ho, E1, Et, Hb. cbn. eexists. split; [done |]. split.
  - apply count_access with x; [done | by rewrite Et | unfold shape; cbn; congruence].
  - cbn. rewrite Et. congruence.
Qed.

Lemma tab_size s b x : block_tab s !! b = Some x → ∃ n, size (block_tab s) = S n.
Proof.
  intros Hb. destruct (size (block_tab s)) eqn:E; [| by eexists].
  apply map_size_empty_inv in E. rewrite E in Hb. done.
Qed.

(** The disk under a partition, and a sector of it. *)
Lemma partition_disk s b x p st i :
  blocks_ok s → block_tab s !! b = Some x → b_ops x = PartitionOps p st → 0 ≤ i < b_size x →
  ∃ y d, block_tab s !! p = Some y ∧ b_ops y = DiskOps d ∧ p ≠ b ∧ u32 (st + i) = st + i ∧ 0 ≤ st + i < b_size y ∧
    view s b !! Z.to_nat i = disk_view s p !! Z.to_nat (st + i).
Proof.
  intros Hok Hb Ho Hi. pose proof (ok_wf _ Hok _ _ Hb) as Hw. unfold block_wf in Hw. rewrite Ho in Hw.
  destruct Hw as (? & ? & y & d & Hy & Hyo & ?). destruct (disk_view_length s p y d) as [? ?]; [done.. |].
  exists y, d. split_and!; [done.. | | by apply u32_id; lia | lia | lia |].
  - intros ->. rewrite Hb in Hy. congruence.
  - unfold view. rewrite Hb, Ho, lookup_take_lt, lookup_drop by lia. f_equal. lia.
Qed.

(** Sector [i] of block [b] was reached through the disk and sector [place]
    gives. *)
Lemma read_access s b x i v :
  blocks_ok s → block_tab s !! b = Some x → 0 ≤ i → view s b !! Z.to_nat i = Some v →
  ∃ s', block_read b i s = Ok (v, s') ∧ access_ok s s' (place b x).1 ((place b x).2 + i) (λ l, l) ∧
    counts s' b = Some (u64 (read_cnt x + 1), write_cnt x).
Proof.
  intros Hok Hb Hi Hv. destruct (view_length s b x Hok Hb) as [Hl ?]. apply lookup_lt_Some in Hv as ?.
  unfold block_read, mbind at 1, st_bind at 1, st_get at 1. unfold place.
  destruct (tab_size s b x Hb) as [n ->]. destruct (b_ops x) as [d|p st] eqn:Ho; cbn [fst snd].
  - destruct (disk_read s b x d (S n) i v) as (s' & E & Ha & Et); [done.. | |].
    { unfold view in Hv. by rewrite Hb, Ho in Hv. }
    exists s'. split_and!; [done.. |]. unfold counts. by rewrite Et, lookup_insert_eq.
  - destruct (partition_disk s b x p st i) as (y & d & Hy & Hyo & Hne & Eu & Hr & Ev); [done.. | lia |].
    rewrite Ev in Hv. destruct (disk_read s p y d n (st + i) v) as (s1 & E & Ha & Et); [done.. | lia | done |].
    assert (block_tab s1 !! b = Some x) as Hb1 by (by rewrite Et, lookup_insert_ne).
    remember (S n) as k eqn:Ek. cbn [block_read_fuel].
    unfold get_block, mbind, st_bind, st_get, st_lift. rewrite Hb. cbn [from_option_err].
    rewrite check_sector_ok by lia. rewrite Ho. unfold partition_read. rewrite Eu. subst k. rewrite E, Hb1.
    eexists. split; [done |]. split.
    + apply count_access with x; [done.. | unfold shape; cbn; congruence].
    + unfold counts; cbn. by rewrite lookup_insert_eq.
Qed.

Lemma write_access s b x i v :
  blocks_ok s → block_tab s !! b = Some x → 0 ≤ i < b_size x → is_sector v → b_type x ≠ BLOCK_FOREIGN →
  ∃ s', block_write b i v s = Ok (tt, s') ∧
    access_ok s s' (place b x).1 ((place b x).2 + i) (λ l, <[Z.to_nat ((place b x).2 + i) := v]> l) ∧
    counts s' b = Some (read_cnt x, u64 (write_cnt x + 1)).
Proof.
  intros Hok Hb Hi Hv Hf.
  unfold block_write, mbind at 1, st_bind at 1, st_get at 1. unfold place.
  destruct (tab_size s b x Hb) as [n ->]. destruct (b_ops x) as [d|p st] eqn:Ho; cbn [fst snd].
  - destruct (disk_write s b x d (S n) i v) as (s' & E & Ha & Et); [done.. |].
    exists s'. split_and!; [done.. |]. unfold counts. by rewrite Et, lookup_insert_eq.
  - destruct (partition_disk s b x p st i) as (y & d & Hy & Hyo & Hne & Eu & Hr & Ev); [done.. | lia |].
    destruct (disk_write s p y d n (st + i) v) as (s1 & E & Ha & Et); [done.. |].
    assert (block_tab s1 !! b = Some x) as Hb1 by (by rewrite Et, lookup_insert_ne).
    remember (S n) as k eqn:Ek. cbn [block_write_fuel].
    unfold get_block, mbind, st_bind, st_get, st_lift. rewrite Hb. cbn [from_option_err].
    rewrite check_sector_ok by lia. unfold st_assert, st_lift. rewrite bool_decide_true by done. cbn [assert_that].
    rewrite Ho. unfold partition_write. rewrite Eu. subst k. rewrite E, Hb1.
    eexists. split; [done |]. split.
    + apply count_access with x; [done.. | unfold shape; cbn; congruence].
    + unfold counts; cbn. by rewrite lookup_insert_eq.
Qed.

(** ** Blocks as windows of their disks *)

Lemma view_place s b x :
  block_tab s !! b = Some x → blocks_ok s →
  view s b = take (Z.to_nat (b_size x)) (drop (Z.to_nat (place b x).2) (disk_view s (place b x).1)).
Proof.
  intros Hb Hok. unfold view, place. rewrite Hb. destruct (b_ops x) as [d|p st] eqn:Ho; cbn [fst snd]; [| done].
  rewrite drop_0, take_ge; [done |]. destruct (disk_view_length s b x d); [done.. | lia].
Qed.

Lemma place_nonneg s b x : blocks_ok s → block_tab s !! b = Some x → 0 ≤ (place b x).2.
Proof.
  intros Hok Hb. pose proof (ok_wf _ Hok _ _ Hb) as Hw. unfold block_wf, place in *.
  destruct (b_ops x); [done |]. by destruct Hw.
Qed.

(** Blocks on different disks, or in different parts of one. *)
Definition separate (b : loc) (x : block) (b' : loc) (x' : block) : Prop :=
  (place b x).1 ≠ (place b' x').1 ∨ (place b x).2 + b_size x ≤ (place b' x').2 ∨
  (place b' x').2 + b_size x' ≤ (place b x).2.

Lemma window_insert {A} (l : list A) (n k i : nat) v :
  (i < n)%nat → take n (drop k (<[k + i := v]> l)%nat) = <[i := v]> (take n (drop k l)).
Proof.
  intros Hi. rewrite drop_insert_ge by lia. replace (k + i - k)%nat with i by lia. by rewrite take_insert_lt.
Qed.

Lemma window_insert_out {A} (l : list A) (n k j : nat) v :
  (j < k ∨ k + n ≤ j)%nat → take n (drop k (<[j := v]> l)) = take n (drop k l).
Proof.
  intros [?|?]; [by rewrite drop_insert_lt |].
  rewrite drop_insert_ge by lia. by rewrite take_insert_ge by lia.
Qed.

Lemma view_access s s' p i upd b x :
  access_ok s s' p i upd → blocks_ok s → block_tab s !! b = Some x →
  view s' b = take (Z.to_nat (b_size x)) (drop (Z.to_nat (place b x).2)
    (if bool_decide ((place b x).1 = p) then upd (disk_view s (place b x).1) else disk_view s (place b x).1)).
Proof.
  intros (Hok' & Es & _ & _ & Hv) Hok Hb. destruct (shapes_lookup s s' b x Es Hb) as (x' & Hb' & [= _ _ Ez Eo]).
  assert (place b x' = place b x) as Ep by (unfold place; by rewrite Eo).
  rewrite (view_place s' b x') by done. by rewrite Ep, Ez, Hv.
Qed.

Lemma view_read s s' p i b : access_ok s s' p i (λ l, l) → blocks_ok s → view s' b = view s b.
Proof.
  intros Ha Hok. destruct (block_tab s !! b) as [x|] eqn:Hb.
  - rewrite (view_access s s' p i (λ l, l) b x) by done. rewrite (view_place s b x) by done. by case_bool_decide.
  - destruct Ha as (_ & Es & _). unfold view. rewrite Hb. destruct (block_tab s' !! b) as [x'|] eqn:Hb'; [| done].
    destruct (shapes_lookup s' s b x') as (? & ? & _); [done.. |]. congruence.
Qed.

Lemma view_write s s' b x i v :
  access_ok s s' (place b x).1 ((place b x).2 + i) (λ l, <[Z.to_nat ((place b x).2 + i) := v]> l) →
  blocks_ok s → block_tab s !! b = Some x → 0 ≤ i < b_size x →
  view s' b = <[Z.to_nat i := v]> (view s b) ∧
  ∀ b' x', block_tab s !! b' = Some x' → separate b x b' x' → view s' b' = view s b'.
Proof.
  intros Ha Hok Hb Hi. pose proof (place_nonneg s b x Hok Hb). split.
  - rewrite (view_access _ _ _ _ _ b x Ha) by done. rewrite (view_place s b x) by done.
    rewrite bool_decide_true by done. rewrite Z2Nat.inj_add by lia. apply window_insert. lia.
  - intros b' x' Hb' Hsep. pose proof (place_nonneg s b' x' Hok Hb').
    destruct (view_length s b' x' Hok Hb') as [_ ?].
    rewrite (view_access _ _ _ _ _ b' x' Ha) by done. rewrite (view_place s b' x') by done.
    case_bool_decide as Hp; [| done]. apply window_insert_out. destruct Hsep as [?|Hsep]; [congruence | lia].
Qed.

Lemma block_read_out s b x i : block_tab s !! b = Some x → b_size x ≤ i → block_read b i s = Err KernelPanic.
Proof.
  intros Hb Hi. unfold block_read, mbind, st_bind, st_get. cbn [block_read_fuel].
  unfold get_block, mbind, st_bind, st_get, st_lift. rewrite Hb. cbn [from_option_err]. by rewrite check_sector_out.
Qed.

Lemma block_write_out s b x i v : block_tab s !! b = Some x → b_size x ≤ i → block_write b i v s = Err KernelPanic.
Proof.
  intros Hb Hi. unfold block_write, mbind, st_bind, st_get. cbn [block_write_fuel].
  unfold get_block, mbind, st_bind, st_get, st_lift. rewrite Hb. cbn [from_option_err]. by rewrite check_sector_out.
Qed.

Lemma block_read_view s b x i v :
  blocks_ok s → block_tab s !! b = Some x → 0 ≤ i → view s b !! Z.to_nat i = Some v →
  ∃ s', block_read b i s = Ok (v, s') ∧ blocks_ok s' ∧ shapes s' = shapes s ∧ (∀ b', view s' b' = view s b') ∧
    all_blocks s' = all_blocks s ∧ counts s' b = Some (u64 (read_cnt x + 1), write_cnt x).
Proof.
  intros Hok Hb Hi Hv. destruct (read_access s b x i v) as (s' & E & Ha & Hc); [done.. |].
  exists s'. destruct Ha as (H1 & H2 & H3 & H4 & H5) eqn:EH. split_and!; [done.. | | done | done].
  intros b'. by apply (view_read s s' (place b x).1 ((place b x).2 + i)).
Qed.

Lemma block_write_view s b x i v :
  blocks_ok s → block_tab s !! b = Some x → 0 ≤ i < b_size x → is_sector v → b_type x ≠ BLOCK_FOREIGN →
  ∃ s', block_write b i v s = Ok (tt, s') ∧ blocks_ok s' ∧ shapes s' = shapes s ∧
    view s' b = <[Z.to_nat i := v]> (view s b) ∧
    (∀ b' x', block_tab s !! b' = Some x' → separate b x b' x' → view s' b' = view s b') ∧
    all_blocks s' = all_blocks s ∧ counts s' b = Some (read_cnt x, u64 (write_cnt x + 1)).
Proof.
  intros Hok Hb Hi Hv Hf. destruct (write_access s b x i v) as (s' & E & Ha & Hc); [done.. |].
  exists s'. destruct (view_write _ _ _ _ _ _ Ha) as [V1 V2]; [done.. |].
  destruct Ha as (H1 & H2 & H3 & H4 & H5). by split_and!.
Qed.

(** C30: A block is a device of its own: reading a sector returns what the
    block's window of the disk holds and changes nothing but the counter;
    writing a sector changes that sector of the block and no block that does
    not overlap it; an access past the end of the block panics before any
    device is touched, and a foreign partition cannot be written. *)
Theorem block_io_correct s b x :
  blocks_ok s → block_tab s !! b = Some x →
  (∀ i v, b_size x ≤ i → block_read b i s = Err KernelPanic ∧ block_write b i v s = Err KernelPanic) ∧
  (∀ i v, 0 ≤ i → view s b !! Z.to_nat i = Some v →
    ∃ s', block_read b i s = Ok (v, s') ∧ blocks_ok s' ∧ shapes s' = shapes s ∧ (∀ b', view s' b' = view s b') ∧
      counts s' b = Some (u64 (read_cnt x + 1), write_cnt x)) ∧
  (∀ i v, 0 ≤ i < b_size x → is_sector v →
    if bool_decide (b_type x = BLOCK_FOREIGN) then block_write b i v s = Err AssertFail
    else ∃ s', block_write b i v s = Ok (tt, s') ∧ blocks_ok s' ∧ shapes s' = shapes s ∧
      view s' b = <[Z.to_nat i := v]> (view s b) ∧
      (∀ b' x', block_tab s !! b' = Some x' → separate b x b' x' → view s' b' = view s b') ∧
      counts s' b = Some (read_cnt x, u64 (write_cnt x + 1))).
Proof.
  intros Hok Hb. split_and!.
  - intros. split; [by apply block_read_out with x | by apply block_write_out with x].
  - intros i v Hi Hv. destruct (block_read_view s b x i v) as (s' & ?); [done.. |]. exists s'. naive_solver.
  - intros i v Hi Hv. case_bool_decide as Hf.
    + unfold block_write, mbind, st_bind, st_get. cbn [block_write_fuel].
      unfold get_block, mbind, st_bind, st_get, st_lift. rewrite Hb. cbn [from_option_err].
      rewrite check_sector_ok by lia. unfold st_assert, st_lift. by rewrite bool_decide_false by tauto.
    + destruct (block_write_view s b x i v) as (s' & ?); [done.. |]. exists s'. naive_solver.
Qed.
End block.

(** ** A block as a device for its clients *)

Section client.
Context {D : Type} `{!Device D} `{!DeviceLaws D}.
Implicit Types s : block_state D.

Definition block_device (b : loc) : Device (block_state D) :=
  {| device_size s := block_size s b; device_read := block_read b; device_write := block_write b |}.

Definition block_device_ok (b : loc) s : Prop :=
  blocks_ok s ∧ ∃ x, block_tab s !! b = Some x ∧ b_type x ≠ BLOCK_FOREIGN.

Lemma block_device_ok_shapes b s s' :
  block_device_ok b s → blocks_ok s' → shapes s' = shapes s → block_device_ok b s'.
Proof.
  intros (_ & x & Hb & Hf) Hok E. split; [done |].
  destruct (shapes_lookup s s' b x E Hb) as (x' & ? & [= _ Et _ _]). exists x'. split; [done | congruence].
Qed.

#[refine] Definition block_device_laws (b : loc) : @DeviceLaws (block_state D) (block_device b) :=
  {| device_ok := block_device_ok b; sectors s := view s b |}.
Proof.
  - intros s (Hok & x & Hb & _). cbn. unfold block_size. rewrite Hb. cbn. destruct (view_length s b x); [done.. | lia].
  - intros s (Hok & _). by apply view_sectors.
  - intros s i v Hs Hi Hv. destruct Hs as (Hok & x & Hb & Hf) eqn:Es. clear Es.
    destruct (block_read_view s b x i v) as (s' & E & Hok' & E' & Hv' & _); [done.. |]. exists s'.
    split_and!; [done | by apply (block_device_ok_shapes b s) | apply Hv'].
  - intros s i v Hs Hi Hv. destruct Hs as (Hok & x & Hb & Hf) eqn:Es. clear Es.
    cbn in Hi. unfold block_size in Hi. rewrite Hb in Hi. cbn in Hi.
    destruct (block_write_view s b x i v) as (s' & E & Hok' & E' & Hv' & _); [done.. |]. exists s'.
    split_and!; [done | by apply (block_device_ok_shapes b s) | done].
Defined.
End client.

(** ** Partition tables *)

Section partition.
Context {D : Type} `{!Device D} `{!DeviceLaws D} (out_of_memory : loc → bool).
Context (memory_suffices : ∀ a, out_of_memory a = false).
Implicit Types s : block_state D.

(** What the loop over the entries of a table keeps, for a disk [b]. *)
Definition extends s s' : Prop :=
  drivers s' = drivers s ∧ block_by_role s' = block_by_role s ∧
  ∀ b x, block_tab s !! b = Some x → block_tab s' !! b = Some x.

Lemma extends_refl s : extends s s.
Proof. done. Qed.

Lemma extends_trans s1 s2 s3 : extends s1 s2 → extends s2 s3 → extends s1 s3.
Proof. intros (E1 & R1 & H1) (E2 & R2 & H2). split_and!; [congruence.. | auto]. Qed.

Lemma extends_disk_view s s' b x : extends s s' → block_tab s !! b = Some x → disk_view s' b = disk_view s b.
Proof. intros (E & _ & H) Hb. unfold disk_view. by rewrite (H _ _ Hb), Hb, E. Qed.

(** Is the entry a partition, and does the disk hold it? *)
Definition nonempty (e : partition_entry) : Prop := e_size e ≠ 0 ∧ e_type e ≠ 0.
Definition fits (x : block) (e : partition_entry) : Prop :=
  nonempty e ∧ e_offset e < b_size x ∧ e_offset e + e_size e ≤ b_size x.
#[local] Instance nonempty_dec e : Decision (nonempty e).
Proof. unfold nonempty. apply _. Defined.
#[local] Instance fits_dec x e : Decision (fits x e).
Proof. unfold fits. apply _. Defined.

Definition entry_ok (e : partition_entry) : Prop :=
  0 ≤ e_offset e < 4294967296 ∧ 0 ≤ e_size e < 4294967296.

(** [nb] is the partition of disk [b] that [e] describes. *)
Definition registered s (b nb : loc) (e : partition_entry) : Prop :=
  ∃ y, block_tab s !! nb = Some y ∧ b_type y = partition_block_type (e_type e) ∧ b_size y = e_size e ∧
    b_ops y = PartitionOps b (e_offset e).

Lemma registered_extends s s' b nb e : extends s s' → registered s b nb e → registered s' b nb e.
Proof. intros (_ & _ & H) (y & Hy & ?). exists y. split; [by apply H | done]. Qed.

Lemma found_partition_ok s b x d e nr :
  blocks_ok s → block_tab s !! b = Some x → b_ops x = DiskOps d → entry_ok e → nonempty e →
  ∃ s' new, found_partition out_of_memory b (e_type e) (e_offset e) (e_size e) nr s = Ok (tt, s') ∧
    blocks_ok s' ∧ extends s s' ∧ all_blocks s' = all_blocks s ++ new ∧
    Forall2 (registered s' b) new (if decide (fits x e) then [e] else []).
Proof.
  intros Hok Hb Ho [??] Hn. destruct (disk_view_length s b x d) as [? ?]; [done.. |].
  unfold found_partition, get_block, mbind, st_bind, st_get, st_lift. rewrite Hb. cbn [from_option_err].
  destruct (Z.leb_spec (b_size x) (e_offset e)).
  { exists s, []. rewrite app_nil_r. split_and!; [done.. |]. rewrite decide_False by (unfold fits; lia). constructor. }
  destruct (decide (fits x e)) as [Hf|Hf].
  - pose proof Hf as (_ & ? & ?). rewrite u32_id by lia.
    destruct (Z.ltb_spec (e_offset e + e_size e) (e_offset e)); [lia |].
    destruct (Z.ltb_spec (b_size x) (e_offset e + e_size e)); [lia |]. cbn [orb].
    rewrite memory_suffices. unfold block_register, mbind, st_bind, st_get, st_put. rewrite memory_suffices. cbn.
    pose proof (is_fresh (dom (block_tab s))) as Hfr. set (nb := fresh (dom (block_tab s))) in *.
    apply not_elem_of_dom in Hfr. eexists _, [nb]. split; [done |].
    assert (extends s (BlockState (all_blocks s ++ [nb]) (<[nb := Block (take 15 (take 15 (b_name x ++ decimal 10 nr)))
      (partition_block_type (e_type e)) (e_size e) (PartitionOps b (e_offset e)) 0 0]> (block_tab s))
      (block_by_role s) (drivers s))) as Hex.
    { split_and!; [done.. |]. intros b' x' Hb'. cbn. rewrite lookup_insert_ne; [done |]. congruence. }
    split_and!; [| done | done |].
    + split.
      * intros b' x' Hb'. cbn in Hb'. unfold block_wf. cbn [drivers].
        destruct (decide (b' = nb)) as [->|].
        { rewrite lookup_insert_eq in Hb'. injection Hb' as <-. cbn [b_ops b_size]. split_and!; [lia.. |].
          exists x, d. split_and!; [by apply Hex | done | lia]. }
        rewrite lookup_insert_ne in Hb' by done. pose proof (ok_wf _ Hok _ _ Hb') as Hw. unfold block_wf in Hw.
        destruct (b_ops x'); [done |]. destruct Hw as (? & ? & y & d' & ? & ? & ?). split_and!; [done.. |].
        exists y, d'. split_and!; [by apply Hex | done..].
      * cbn. intros b1 b2 x1 x2 d' H1' H2' O1 O2. apply lookup_insert_Some in H1' as [[<- <-]|[_ H1']]; [done |].
        apply lookup_insert_Some in H2' as [[<- <-]|[_ H2']]; [done |]. by apply (ok_driver _ Hok b1 b2 x1 x2 d').
    + repeat constructor. eexists. cbn. rewrite lookup_insert_eq. by split_and!.
  - assert ((u32 (e_offset e + e_size e) <? e_offset e) || (b_size x <? u32 (e_offset e + e_size e)) = true) as ->.
    { apply orb_true_iff. rewrite !Z.ltb_lt. destruct (decide (e_offset e + e_size e < 4294967296)).
      - right. rewrite u32_id by lia. unfold fits in Hf. destruct (decide (e_offset e + e_size e ≤ b_size x)); [| lia].
        exfalso. apply Hf. split_and!; [done | lia..].
      - left. unfold wrap_u. change (2 ^ 32) with 4294967296. Z.to_euclidean_division_equations; lia. }
    exists s, []. rewrite app_nil_r. split_and!; [done.. | constructor].
Qed.

Lemma scan_entries_ok rt s b x d es nr :
  blocks_ok s → block_tab s !! b = Some x → b_ops x = DiskOps d → Forall entry_ok es →
  Forall (λ e, nonempty e → is_extended (e_type e) = false) es →
  0 ≤ nr → nr + Z.of_nat (length es) < 2147483648 →
  ∃ s' new, scan_entries out_of_memory rt b 0 0 es nr s = Ok (nr + Z.of_nat (length (filter nonempty es)), s') ∧
    blocks_ok s' ∧ extends s s' ∧ all_blocks s' = all_blocks s ++ new ∧
    Forall2 (registered s' b) new (filter (fits x) es).
Proof.
  intros Hok Hb Ho Hes Hne Hnr Hlen. revert s nr Hok Hb Hes Hne Hnr Hlen.
  induction es as [|e es IH]; intros s nr Hok Hb Hes Hne Hnr Hlen.
  { exists s, []. cbn. rewrite app_nil_r, Z.add_0_r. by split_and!; [..| constructor]. }
  apply Forall_cons in Hes as [He Hes]. apply Forall_cons in Hne as [Hx Hne].
  cbn [scan_entries]. rewrite !filter_cons. cbn [length] in Hlen. destruct (decide (nonempty e)) as [Hn|Hn].
  - destruct (found_partition_ok s b x d e (i32 (nr + 1))) as (s1 & new1 & E1 & Hok1 & Hex1 & Ha1 & F1); [done.. |].
    destruct (IH s1 (nr + 1)) as (s2 & new2 & E2 & Hok2 & Hex2 & Ha2 & F2); [done | by apply Hex1 | done | done | lia.. |].
    exists s2, (new1 ++ new2). split_and!; [| done | by eapply extends_trans | by rewrite Ha2, Ha1, app_assoc |].
    + destruct Hn as [Hs Ht]. unfold mbind, st_bind. rewrite Hx by done.
      rewrite (proj2 (Z.eqb_neq _ _) Hs), (proj2 (Z.eqb_neq _ _) Ht). cbn [orb].
      destruct He as [He _]. rewrite Z.add_0_r, u32_id, E1, i32_id by lia. cbn [mret st_ret]. rewrite E2. f_equal.
      f_equal. cbn [length]. lia.
    + assert (Forall2 (registered s2 b) new1 (if decide (fits x e) then [e] else [])) as F1'.
      { eapply Forall2_impl; [exact F1 |]. intros nb e' ?. by apply registered_extends with s1. }
      pose proof (Forall2_app F1' F2) as F. by destruct (decide (fits x e)).
  - rewrite decide_False by (unfold fits; tauto).
    assert ((e_size e =? 0) || (e_type e =? 0) = true) as ->.
    { unfold nonempty in Hn. apply orb_true_iff. rewrite !Z.eqb_eq. destruct (decide (e_size e = 0)); [by left | right].
      destruct (decide (e_type e = 0)); [done | tauto]. }
    destruct (IH s nr) as (s2 & new2 & E2 & R); [done | done | done | done | lia.. |]. exists s2, new2. by split.
Qed.

Lemma sector_entry_ok pt i : (i < 4)%nat → is_sector pt → entry_ok (partition_entry_of pt i).
Proof.
  intros Hi [Hl Hby]. unfold entry_ok, partition_entry_of; cbn [e_offset e_size].
  split; apply u32_of_bytes_inv; rewrite ?length_take, ?length_drop; try lia; by apply Forall_take, Forall_drop, Forall_drop.
Qed.

Definition table (pt : list Z) : list partition_entry := partition_entry_of pt <$> seq 0 4.

Lemma table_ok pt : is_sector pt → Forall entry_ok (table pt).
Proof.
  intros Hpt. unfold table. apply Forall_fmap, Forall_forall. intros i Hi%elem_of_seq.
  apply sector_entry_ok; [lia | done].
Qed.

Lemma read_table_step s b x d pt fuel sector primary nr :
  blocks_ok s → block_tab s !! b = Some x → b_ops x = DiskOps d → view s b !! 0%nat = Some pt → sector < b_size x →
  ∃ s', blocks_ok s' ∧ shapes s' = shapes s ∧ all_blocks s' = all_blocks s ∧ (∀ b', view s' b' = view s b') ∧
    read_partition_table out_of_memory (S fuel) b sector primary nr s =
      if signature pt =? 0xaa55
      then scan_entries out_of_memory (read_partition_table out_of_memory fuel b) b sector primary (table pt) nr s'
      else Ok (nr, s').
Proof.
  intros Hok Hb Ho Hv Hs. destruct (block_read_view s b x 0 pt) as (s' & E & Hok' & Esh & Hv' & Ha' & _); [done.. |].
  exists s'. split_and!; [done.. |]. cbn [read_partition_table].
  unfold get_block, mbind, st_bind, st_get, st_lift. rewrite Hb. cbn [from_option_err].
  destruct (Z.leb_spec (b_size x) sector); [lia |]. rewrite memory_suffices, E. by destruct (signature pt =? 0xaa55).
Qed.

(** C31: [partition_scan] of a disk whose table has no extended partition
    registers, in the order of the table, exactly the entries that the disk
    can hold, each as a block of the entry's type whose sectors are the range
    the entry names; it returns the number of non-empty entries.  A table
    without the signature registers nothing. *)
Theorem partition_scan_correct s b x d pt fuel :
  blocks_ok s → block_tab s !! b = Some x → b_ops x = DiskOps d → view s b !! 0%nat = Some pt →
  Forall (λ e, nonempty e → is_extended (e_type e) = false) (table pt) →
  let es := if signature pt =? 0xaa55 then table pt else [] in
  ∃ s' new, partition_scan out_of_memory (S fuel) b s = Ok (Z.of_nat (length (filter nonempty es)), s') ∧
    blocks_ok s' ∧ all_blocks s' = all_blocks s ++ new ∧ view s' b = view s b ∧
    Forall2 (λ nb e, ∃ y, block_tab s' !! nb = Some y ∧ b_type y = partition_block_type (e_type e) ∧
      view s' nb = take (Z.to_nat (e_size e)) (drop (Z.to_nat (e_offset e)) (view s b))) new (filter (fits x) es).
Proof.
  intros Hok Hb Ho Hv Hne es. destruct (view_length s b x Hok Hb) as [Hl ?]. apply lookup_lt_Some in Hv as ?.
  destruct (read_table_step s b x d pt fuel 0 0 0) as (s1 & Hok1 & Esh & Ha1 & Hv1 & E); [done.. | lia |].
  unfold partition_scan. rewrite E. subst es. destruct (shapes_lookup s s1 b x Esh Hb) as (x1 & Hb1 & [= _ _ Ez Eo]).
  destruct (signature pt =? 0xaa55).
  2: { exists s1, []. rewrite app_nil_r. cbn. split_and!; [done.. | constructor]. }
  destruct (scan_entries_ok (read_partition_table out_of_memory fuel b) s1 b x1 d (table pt) 0)
    as (s2 & new & E2 & Hok2 & Hex & Ha2 & F); [done | done | congruence | | done | done | done |].
  { apply table_ok. pose proof (view_sectors s b Hok) as Hall. by apply (Forall_lookup_1 _ _ _ _ Hall Hv). }
  exists s2, new. rewrite E2. assert (view s2 b = view s b) as Evb.
  { rewrite <-Hv1. unfold view. rewrite (proj2 (proj2 Hex) _ _ Hb1), Hb1, Eo, Ho. by apply (extends_disk_view s1 s2 b x1). }
  split_and!; [done | done | congruence | done |].
  replace (filter (fits x) (table pt)) with (filter (fits x1) (table pt))
    by (apply list_filter_iff; intros e; unfold fits; by rewrite Ez).
  eapply Forall2_impl; [exact F |]. intros nb e (y & Hy & Ht & Hsz & Hops). exists y. split_and!; [done.. |].
  rewrite <-Evb. unfold view. rewrite Hy, Hops, Hsz, (proj2 (proj2 Hex) _ _ Hb1), Eo, Ho. done.
Qed.

(** [read_partition_table] reads sector 0 whatever table it is asked for.  So,
    when the first entry of a disk is an extended partition at an offset that
    is not zero and whose double is still on the disk, and memory for the
    tables never runs out, the recursion does not end: no amount of fuel is
    enough. *)
Lemma extended_partition_diverges s b x d pt (e := partition_entry_of pt 0) fuel :
  blocks_ok s → block_tab s !! b = Some x → b_ops x = DiskOps d → view s b !! 0%nat = Some pt →
  signature pt = 0xaa55 → is_extended (e_type e) = true → e_size e ≠ 0 → e_offset e ≠ 0 →
  2 * e_offset e < b_size x →
  partition_scan out_of_memory fuel b s = Err OutOfFuel.
Proof.
  intros Hok Hb Ho Hv Hsig Hex Hsz Hof Hfit. unfold partition_scan.
  assert (entry_ok e) as [Hrange _].
  { apply sector_entry_ok; [lia |]. by apply (Forall_lookup_1 _ _ _ _ (view_sectors s b Hok) Hv). }
  destruct (view_length s b x Hok Hb) as [_ ?].
  assert (e_type e ≠ 0) as Ht by (intros Ht; by rewrite Ht in Hex).
  assert (∀ fuel s sector primary nr x, blocks_ok s → block_tab s !! b = Some x → b_ops x = DiskOps d →
    view s b !! 0%nat = Some pt → 2 * e_offset e < b_size x → b_size x < 4294967296 →
    (sector = 0 ∨ (sector = e_offset e ∨ sector = 2 * e_offset e) ∧ primary = e_offset e) →
    read_partition_table out_of_memory fuel b sector primary nr s = Err OutOfFuel) as Hrec.
  2: { apply (Hrec fuel s 0 0 0 x); [done.. | lia | by left]. }
  clear fuel s x Hok Hb Ho Hv Hfit H.
  intros fuel. induction fuel as [|fuel IH]; [done |]. intros s sector primary nr x Hok Hb Ho Hv Hfit H Hsec.
  destruct (read_table_step s b x d pt fuel sector primary nr) as (s1 & Hok1 & Esh & _ & Hv1 & ->); [done.. | lia |].
  rewrite Hsig. cbn [Z.eqb Pos.eqb]. unfold table. cbn [seq fmap list_fmap scan_entries]. fold e.
  rewrite (proj2 (Z.eqb_neq _ _) Hsz), (proj2 (Z.eqb_neq _ _) Ht), Hex. cbn [orb].
  destruct (shapes_lookup s s1 b x Esh Hb) as (x1 & Hb1 & [= _ _ Ez Eo]).
  unfold mbind, st_bind. destruct (Z.eqb_spec sector 0) as [->|Hs0].
  - rewrite (IH s1 _ _ _ x1); [done | done | done | congruence | by rewrite Hv1 | lia.. |]. right. by split; [left |].
  - destruct Hsec as [|[Hsec ->]]; [done |]. rewrite u32_id by lia.
    rewrite (IH s1 _ _ _ x1); [done | done | done | congruence | by rewrite Hv1 | lia.. |]. right. split; [right; lia | done].
Qed.
End partition.

(** A disk of eight sectors whose table has one entry, [t] at 2 .. 4; sector
    [i] is filled with [i], and the file system's partition is block 2. *)
Definition example_table (t : Z) : list Z :=
  replicate 446 0 ++ [0; 0; 0; 0; t; 0; 0; 0; 2; 0; 0; 0; 3; 0; 0; 0] ++ replicate 48 0 ++ [0x55; 0xaa].

Definition example_disk (t : Z) : ramdisk :=
  example_table t :: ((λ i, replicate 512 (Z.of_nat i)) <$> seq 1 7).

Definition example_blocks (t : Z) : block_state ramdisk :=
  BlockState [1%positive; 2%positive]
    {[ 1%positive := Block [104; 100; 97] BLOCK_RAW 8 (DiskOps 1%positive) 0 0;
       2%positive := Block [104; 100; 97; 49] BLOCK_FILESYS 3 (PartitionOps 1%positive 2) 0 0 ]}
    [None; Some 2%positive; None; None] {[ 1%positive := example_disk t ]}.

Lemma example_blocks_ok t : is_byte t → blocks_ok (example_blocks t).
Proof.
  intros Ht. assert (device_ok (example_disk t)) as Hd.
  { split; [done |]. constructor.
    - split; [done |]. unfold example_table. rewrite !Forall_app. split_and!; [by apply Forall_replicate | | by apply Forall_replicate |];
        repeat constructor; done || apply Ht.
    - apply Forall_fmap, Forall_forall. intros i Hi%elem_of_seq. split; [done |].
      apply Forall_replicate. unfold is_byte. lia. }
  split.
  - intros b x Hb. unfold example_blocks in Hb; cbn [block_tab] in Hb. apply lookup_insert_Some in Hb as [[<- <-]|[_ Hb]].
    { split; [done |]. exists (example_disk t). split; [by apply lookup_singleton_eq | done]. }
    apply lookup_singleton_Some in Hb as [<- <-]. unfold block_wf. cbn [b_ops b_size]. split_and!; [done.. |].
    eexists _, _. split_and!; [apply lookup_insert_eq | done | done].
  - intros b1 b2 x1 x2 d H1 H2 O1 O2. unfold example_blocks in H1, H2; cbn [block_tab] in H1, H2.
    apply lookup_insert_Some in H1 as [[<- <-]|[_ [<- <-]%lookup_singleton_Some]]; [| done].
    apply lookup_insert_Some in H2 as [[<- <-]|[_ [<- <-]%lookup_singleton_Some]]; done.
Qed.

Lemma block_io_correct_witness :
  (∃ s', block_read 2%positive 1 (example_blocks 0x21) = Ok (replicate 512 3, s')) ∧
  block_read 2%positive 3 (example_blocks 0x21) = Err KernelPanic.
Proof.
  assert (blocks_ok (example_blocks 0x21)) as Hok by (by apply example_blocks_ok).
  destruct (block_io_correct (example_blocks 0x21) 2%positive
    (Block [104; 100; 97; 49] BLOCK_FILESYS 3 (PartitionOps 1%positive 2) 0 0) Hok eq_refl) as (H1 & H2 & _).
  split; [| by apply (H1 3 [])].
  destruct (H2 1 (replicate 512 3)) as (s' & E & _); [lia | by vm_compute | by exists s'].
Defined.

Lemma partition_scan_correct_witness :
  ∃ s', partition_scan (λ _, false) 1 1%positive (example_blocks 0x21) = Ok (1, s') ∧
    ∃ nb, all_blocks s' = [1%positive; 2%positive; nb] ∧ view s' nb = [replicate 512 2; replicate 512 3; replicate 512 4].
Proof.
  assert (blocks_ok (example_blocks 0x21)) as Hok by (by apply example_blocks_ok).
  destruct (partition_scan_correct (λ _, false) (λ _, eq_refl) (example_blocks 0x21) 1%positive
    (Block [104; 100; 97] BLOCK_RAW 8 (DiskOps 1%positive) 0 0) 1%positive (example_table 0x21) 0 Hok eq_refl eq_refl eq_refl)
    as (s' & new & E & _ & Ha & _ & F).
  { vm_compute. repeat constructor. all: by intros [? ?]. }
  exists s'. split; [rewrite E; by vm_compute |].
  match type of F with Forall2 _ _ ?l => assert (l = [PartitionEntry 0x21 2 3]) as El by (by vm_compute) end.
  rewrite El in F. apply list.Forall2_cons_inv_r in F as (nb & new' & (y & _ & _ & Hv) & F & ->).
  apply Forall2_nil_inv_r in F as ->. exists nb. split; [done |]. rewrite Hv. by vm_compute.
Defined.

Lemma extended_partition_diverges_witness :
  partition_scan (λ _, false) 1000 1%positive (example_blocks 0x05) = Err OutOfFuel.
Proof.
  assert (blocks_ok (example_blocks 0x05)) as Hok by (by apply example_blocks_ok).
  apply (extended_partition_diverges (λ _, false) (λ _, eq_refl) (example_blocks 0x05) 1%positive
    (Block [104; 100; 97] BLOCK_RAW 8 (DiskOps 1%positive) 0 0) 1%positive (example_table 0x05) 1000 Hok eq_refl eq_refl eq_refl);
    by vm_compute.
Defined.
