(* ===== verification/Inode.v ===== *)
(** filesys/inode.c: the state of the file system, and reading and writing the
    bytes of an inode.

    The file system's device is any [Device].  Objects that the code allocates
    with [malloc] are records in maps by address; a freed object is deleted,
    and its address is not used again, so that a use after it was freed is
    [BadPointer].  [out_of_memory] says which allocations fail. *)
From S2P Require Import Prelude Bytes Bitmap Block.
Local Open Scope Z_scope.

(** ** Data *)

Definition INODE_MAGIC : Z := 0x494e4f44.

Record inode_disk := InodeDisk { d_start : Z; d_length : Z; d_magic : Z; d_unused : list Z }.

(** The 512 bytes of a [struct inode_disk]. *)
Definition inode_disk_bytes (d : inode_disk) : list Z :=
  bytes_of_u32 (d_start d) ++ bytes_of_u32 (d_length d) ++ bytes_of_u32 (d_magic d) ++ d_unused d.

Definition inode_disk_of (l : list Z) : inode_disk :=
  InodeDisk (u32_of_bytes (take 4 l)) (i32 (u32_of_bytes (take 4 (drop 4 l))))
    (u32_of_bytes (take 4 (drop 8 l))) (drop 12 l).

Record inode := Inode {
  i_sector : Z;
  open_cnt : Z;
  removed : bool;
  deny_write_cnt : Z;
  i_data : inode_disk;
}.

Record file := File { f_inode : loc; f_pos : Z; f_deny_write : bool }.

Record dir := Dir { dir_inode : loc; dir_pos : Z }.

Record fs (D : Type) := Fs {
  fs_device : D;
  free_map : bitmap;
  free_map_file : option loc;
  open_inodes : list loc;
  inodes : gmap loc inode;
  files : gmap loc file;
  dirs : gmap loc dir;
  next_addr : loc;
}.
Arguments Fs {D}. Arguments fs_device {D}. Arguments free_map {D}. Arguments free_map_file {D}.
Arguments open_inodes {D}. Arguments inodes {D}. Arguments files {D}. Arguments dirs {D}. Arguments next_addr {D}.

Section inode.
Context {D : Type} `{!Device D} (out_of_memory : loc → bool).
Implicit Types s : fs D.

Definition FM : Type → Type := ST (fs D).

Definition set_device (d : D) s : fs D :=
  Fs d (free_map s) (free_map_file s) (open_inodes s) (inodes s) (files s) (dirs s) (next_addr s).
Definition set_free_map (m : bitmap) s : fs D :=
  Fs (fs_device s) m (free_map_file s) (open_inodes s) (inodes s) (files s) (dirs s) (next_addr s).
Definition set_free_map_file (f : option loc) s : fs D :=
  Fs (fs_device s) (free_map s) f (open_inodes s) (inodes s) (files s) (dirs s) (next_addr s).
Definition set_open_inodes (l : list loc) s : fs D :=
  Fs (fs_device s) (free_map s) (free_map_file s) l (inodes s) (files s) (dirs s) (next_addr s).
Definition set_inodes (f : gmap loc inode → gmap loc inode) s : fs D :=
  Fs (fs_device s) (free_map s) (free_map_file s) (open_inodes s) (f (inodes s)) (files s) (dirs s) (next_addr s).
Definition set_files (f : gmap loc file → gmap loc file) s : fs D :=
  Fs (fs_device s) (free_map s) (free_map_file s) (open_inodes s) (inodes s) (f (files s)) (dirs s) (next_addr s).
Definition set_dirs (f : gmap loc dir → gmap loc dir) s : fs D :=
  Fs (fs_device s) (free_map s) (free_map_file s) (open_inodes s) (inodes s) (files s) (f (dirs s)) (next_addr s).

(** [malloc] (and [calloc], whose result the code initializes). *)
Definition fs_malloc : FM (option loc) := λ s,
  Ok (if out_of_memory (next_addr s) then None else Some (next_addr s),
      Fs (fs_device s) (free_map s) (free_map_file s) (open_inodes s) (inodes s) (files s) (dirs s)
        (Pos.succ (next_addr s))).

Definition on_device {A} (f : ST D A) : FM A := λ s,
  match f (fs_device s) with Ok (a, d) => Ok (a, set_device d s) | Err e => Err e end.
Definition fs_read (sector : Z) : FM (list Z) := on_device (device_read sector).
Definition fs_write (sector : Z) (buffer : list Z) : FM unit := on_device (device_write sector buffer).

Definition get_inode (i : loc) : FM inode := s ← st_get; st_lift (from_option_err BadPointer (inodes s !! i)).
Definition put_inode (i : loc) (x : inode) : FM unit := st_modify (set_inodes (<[i := x]>)).
Definition get_file (f : loc) : FM file := s ← st_get; st_lift (from_option_err BadPointer (files s !! f)).
Definition put_file (f : loc) (x : file) : FM unit := st_modify (set_files (<[f := x]>)).
Definition get_dir (d : loc) : FM dir := s ← st_get; st_lift (from_option_err BadPointer (dirs s !! d)).
Definition put_dir (d : loc) (x : dir) : FM unit := st_modify (set_dirs (<[d := x]>)).

(** ** Positions *)

(** [DIV_ROUND_UP (size, BLOCK_SECTOR_SIZE)] in [off_t], converted to
    [size_t]. *)
Definition bytes_to_sectors (size : Z) : Z :=
  u32 (Z.quot (i32 (i32 (size + BLOCK_SECTOR_SIZE) - 1)) BLOCK_SECTOR_SIZE).

Definition byte_to_sector (x : inode) (pos : Z) : Z :=
  if pos <? d_length (i_data x) then u32 (d_start (i_data x) + Z.quot pos BLOCK_SECTOR_SIZE) else u32 (-1).

Definition inode_length (i : loc) : FM Z := x ← get_inode i; mret (d_length (i_data x)).

Definition inode_get_inumber (i : loc) : FM Z := x ← get_inode i; mret (i_sector x).

(** ** Reading and writing *)

(** The bytes [ofs .. ofs + n) of an object in memory. *)
Definition bytes_at (l : list Z) (ofs n : Z) : outcome (list Z) :=
  if (0 <=? ofs) && (ofs + n <=? Z.of_nat (length l)) then Ok (take (Z.to_nat n) (drop (Z.to_nat ofs) l))
  else Err BadPointer.

(** [l] with [piece] copied over it from [ofs]. *)
Definition bytes_over (l : list Z) (ofs : Z) (piece : list Z) : outcome (list Z) :=
  if (0 <=? ofs) && (ofs + Z.of_nat (length piece) <=? Z.of_nat (length l))
  then Ok (take (Z.to_nat ofs) l ++ piece ++ drop (Z.to_nat ofs + length piece) l)
  else Err BadPointer.

(** The bytes to copy in this turn of the loops: [chunk_size]. *)
Definition chunk_of (x : inode) (size offset : Z) : Z :=
  let sector_ofs := Z.rem offset BLOCK_SECTOR_SIZE in
  let inode_left := i32 (d_length (i_data x) - offset) in
  let sector_left := BLOCK_SECTOR_SIZE - sector_ofs in
  let min_left := if inode_left <? sector_left then inode_left else sector_left in
  if size <? min_left then size else min_left.

(** The bounce buffer is allocated when it is first needed. *)
Definition get_bounce (bounce : bool) : FM bool :=
  if bounce then mret true else a ← fs_malloc; mret (bool_decide (is_Some a)).

(** [acc] is what [buffer] has received so far. *)
Fixpoint read_loop (fuel : nat) (i : loc) (bounce : bool) (size offset : Z) (acc : list Z) : FM (list Z) :=
  if size <=? 0 then mret acc
  else match fuel with
  | O => st_fail OutOfFuel
  | S fuel =>
      x ← get_inode i;
      let sector_idx := byte_to_sector x offset in
      let sector_ofs := Z.rem offset BLOCK_SECTOR_SIZE in
      let chunk_size := chunk_of x size offset in
      if chunk_size <=? 0 then mret acc
      else if (sector_ofs =? 0) && (chunk_size =? BLOCK_SECTOR_SIZE) then
        b ← fs_read sector_idx;
        read_loop fuel i bounce (i32 (size - chunk_size)) (i32 (offset + chunk_size)) (acc ++ b)
      else
        ok ← get_bounce bounce;
        if ok : bool then
          b ← fs_read sector_idx;
          piece ← st_lift (bytes_at b sector_ofs chunk_size);
          read_loop fuel i true (i32 (size - chunk_size)) (i32 (offset + chunk_size)) (acc ++ piece)
        else mret acc
  end.

(** The result is the bytes stored in [buffer_]; [inode_read_at] returns their
    number. *)
Definition inode_read_at (i : loc) (size offset : Z) : FM (list Z) :=
  read_loop (S (Z.to_nat size)) i false size offset [].

Fixpoint write_loop (fuel : nat) (i : loc) (buffer : list Z) (bounce : bool)
    (size offset bytes_written : Z) : FM Z :=
  if size <=? 0 then mret bytes_written
  else match fuel with
  | O => st_fail OutOfFuel
  | S fuel =>
      x ← get_inode i;
      let sector_idx := byte_to_sector x offset in
      let sector_ofs := Z.rem offset BLOCK_SECTOR_SIZE in
      let sector_left := BLOCK_SECTOR_SIZE - sector_ofs in
      let chunk_size := chunk_of x size offset in
      if chunk_size <=? 0 then mret bytes_written
      else if (sector_ofs =? 0) && (chunk_size =? BLOCK_SECTOR_SIZE) then
        piece ← st_lift (bytes_at buffer bytes_written BLOCK_SECTOR_SIZE);
        fs_write sector_idx piece;;
        write_loop fuel i buffer bounce (i32 (size - chunk_size)) (i32 (offset + chunk_size))
          (i32 (bytes_written + chunk_size))
      else
        ok ← get_bounce bounce;
        if ok : bool then
          b ← (if (0 <? sector_ofs) || (chunk_size <? sector_left) then fs_read sector_idx
               else mret (replicate (Z.to_nat BLOCK_SECTOR_SIZE) 0));
          piece ← st_lift (bytes_at buffer bytes_written chunk_size);
          b ← st_lift (bytes_over b sector_ofs piece);
          fs_write sector_idx b;;
          write_loop fuel i buffer true (i32 (size - chunk_size)) (i32 (offset + chunk_size))
            (i32 (bytes_written + chunk_size))
        else mret bytes_written
  end.

Definition inode_write_at (i : loc) (buffer : list Z) (size offset : Z) : FM Z :=
  x ← get_inode i;
  if negb (deny_write_cnt x =? 0) then mret 0
  else write_loop (S (Z.to_nat size)) i buffer false size offset 0.

(** ** Open inodes *)

Definition inode_init : FM unit := st_modify (set_open_inodes []).

Definition inode_reopen (o : option loc) : FM (option loc) :=
  match o with
  | Some i =>
      x ← get_inode i;
      put_inode i (Inode (i_sector x) (i32 (open_cnt x + 1)) (removed x) (deny_write_cnt x) (i_data x));;
      mret o
  | None => mret o
  end.

(** The search of [inode_open] in the list of open inodes. *)
Fixpoint find_open (l : list loc) (sector : Z) : FM (option loc) :=
  match l with
  | [] => mret None
  | i :: l => x ← get_inode i; if i_sector x =? sector then mret (Some i) else find_open l sector
  end.

Definition inode_open (sector : Z) : FM (option loc) :=
  s ← st_get;
  o ← find_open (open_inodes s) sector;
  match o with
  | Some i => inode_reopen (Some i)
  | None =>
      a ← fs_malloc;
      match a with
      | None => mret None
      | Some i =>
          st_modify (λ s, set_open_inodes (i :: open_inodes s) s);;
          d ← fs_read sector;
          put_inode i (Inode sector 1 false 0 (inode_disk_of d));;
          mret (Some i)
      end
  end.

Definition inode_remove (i : loc) : FM unit :=
  x ← get_inode i;
  put_inode i (Inode (i_sector x) (open_cnt x) true (deny_write_cnt x) (i_data x)).

Definition inode_deny_write (i : loc) : FM unit :=
  x ← get_inode i;
  let n := i32 (deny_write_cnt x + 1) in
  put_inode i (Inode (i_sector x) (open_cnt x) (removed x) n (i_data x));;
  st_assert (n <=? open_cnt x).

Definition inode_allow_write (i : loc) : FM unit :=
  x ← get_inode i;
  st_assert (0 <? deny_write_cnt x);;
  st_assert (deny_write_cnt x <=? open_cnt x);;
  put_inode i (Inode (i_sector x) (open_cnt x) (removed x) (i32 (deny_write_cnt x - 1)) (i_data x)).
End inode.
