(* ===== verification/FileSys.v ===== *)
(** filesys/free-map.c, the allocation of inodes (filesys/inode.c),
    filesys/file.c, filesys/directory.c and filesys/filesys.c. *)
From S2P Require Import Prelude Bytes Bitmap Block Inode.
Local Open Scope Z_scope.

Definition FREE_MAP_SECTOR : Z := 0.
Definition ROOT_DIR_SECTOR : Z := 1.
Definition NAME_MAX : Z := 14.

Section filesys.
Context {D : Type} `{!Device D} (out_of_memory : loc → bool).
(** What a [struct dir_entry] on the stack holds before it is assigned. *)
Context (garbage : list Z).
Implicit Types s : fs D.

(** ** Bytes of files *)

Definition file_read_at (f : loc) (size file_ofs : Z) : FM (list Z) :=
  x ← get_file (D:=D) f; inode_read_at out_of_memory (f_inode x) size file_ofs.

Definition file_write_at (f : loc) (buffer : list Z) (size file_ofs : Z) : FM Z :=
  x ← get_file (D:=D) f; inode_write_at out_of_memory (f_inode x) buffer size file_ofs.

(** ** The free map *)

(** [bitmap_write (free_map, free_map_file)]. *)
Definition free_map_write : FM bool :=
  s ← st_get;
  match free_map_file s with
  | None => st_fail BadPointer
  | Some f =>
      n ← file_write_at f (bitmap_write_bytes (free_map s)) (bitmap_file_size (free_map s)) 0;
      mret (bitmap_write (free_map s) n)
  end.

(** What the memory holds that [malloc] returns for the bits of the map. *)
Context (heap_words : nat → Z).

Definition free_map_init : FM unit :=
  s ← st_get;
  let n := device_size (fs_device s) in
  b ← fs_malloc (D:=D) out_of_memory;
  bits ← (if b is Some _ then fs_malloc (D:=D) out_of_memory else mret None);
  o ← st_lift (bitmap_create (bool_decide (is_Some b))
        ((λ _, (λ i, u32 (heap_words i)) <$> seq 0 (Z.to_nat (elem_cnt n))) <$> bits) n);
  match o with
  | None => st_fail KernelPanic
  | Some m =>
      m ← st_lift (bitmap_mark m FREE_MAP_SECTOR);
      m ← st_lift (bitmap_mark m ROOT_DIR_SECTOR);
      st_modify (set_free_map m)
  end.

(** The sector that [free_map_allocate] stores, or [None] when it returns
    false. *)
Definition free_map_allocate (cnt : Z) : FM (option Z) :=
  s ← st_get;
  r ← st_lift (bitmap_scan_and_flip (free_map s) 0 cnt false);
  let '(sector, m) := r in
  st_modify (set_free_map m);;
  fail ← (if negb (sector =? BITMAP_ERROR) && bool_decide (is_Some (free_map_file s))
          then ok ← free_map_write; mret (negb ok) else mret false);
  if fail : bool then
    s ← st_get;
    m ← st_lift (bitmap_set_multiple (free_map s) sector cnt false);
    st_modify (set_free_map m);;
    mret None
  else mret (if sector =? BITMAP_ERROR then None else Some sector).

Definition free_map_release (sector cnt : Z) : FM unit :=
  s ← st_get;
  all ← st_lift (bitmap_all (free_map s) sector cnt); st_assert all;;
  m ← st_lift (bitmap_set_multiple (free_map s) sector cnt false);
  st_modify (set_free_map m);;
  _ ← free_map_write; mret tt.

(** ** Creating and closing inodes *)

(** [for (i = 0; i < sectors; i++) block_write (fs_device, start + i, zeros)]. *)
Fixpoint write_zeros (n : nat) (sector : Z) : FM unit :=
  match n with
  | O => mret tt
  | S n => fs_write (D:=D) (u32 sector) (replicate (Z.to_nat BLOCK_SECTOR_SIZE) 0);; write_zeros n (sector + 1)
  end.

Definition inode_create (sector length : Z) : FM bool :=
  st_assert (0 <=? length);;
  a ← fs_malloc (D:=D) out_of_memory;
  match a with
  | None => mret false
  | Some _ =>
      let sectors := bytes_to_sectors length in
      o ← free_map_allocate sectors;
      match o with
      | None => mret false
      | Some start =>
          fs_write sector (inode_disk_bytes (InodeDisk start length INODE_MAGIC (replicate 500 0)));;
          write_zeros (Z.to_nat sectors) start;;
          mret true
      end
  end.

Definition inode_close (o : option loc) : FM unit :=
  match o with
  | None => mret tt
  | Some i =>
      x ← get_inode (D:=D) i;
      let n := i32 (open_cnt x - 1) in
      put_inode i (Inode (i_sector x) n (removed x) (deny_write_cnt x) (i_data x));;
      if n =? 0 then
        st_modify (λ s, set_open_inodes (filter (λ j, j ≠ i) (open_inodes s)) s);;
        (if removed x then
           free_map_release (i_sector x) 1;;
           free_map_release (d_start (i_data x)) (bytes_to_sectors (d_length (i_data x)))
         else mret tt);;
        st_modify (set_inodes (delete i))
      else mret tt
  end.

(** ** Files *)

Definition file_open (inode : option loc) : FM (option loc) :=
  a ← fs_malloc (D:=D) out_of_memory;
  match inode, a with
  | Some i, Some f => put_file f (File i 0 false);; mret (Some f)
  | _, _ => inode_close inode;; mret None
  end.

Definition file_reopen (f : loc) : FM (option loc) :=
  x ← get_file (D:=D) f; i ← inode_reopen (Some (f_inode x)); file_open i.

Definition file_get_inode (f : loc) : FM loc := x ← get_file (D:=D) f; mret (f_inode x).

Definition file_deny_write (f : loc) : FM unit :=
  x ← get_file (D:=D) f;
  if f_deny_write x then mret tt
  else put_file f (File (f_inode x) (f_pos x) true);; inode_deny_write (f_inode x).

Definition file_allow_write (f : loc) : FM unit :=
  x ← get_file (D:=D) f;
  if f_deny_write x then
    put_file f (File (f_inode x) (f_pos x) false);; inode_allow_write (f_inode x)
  else mret tt.

Definition file_close (o : option loc) : FM unit :=
  match o with
  | None => mret tt
  | Some f =>
      file_allow_write f;;
      x ← get_file f;
      inode_close (Some (f_inode x));;
      st_modify (set_files (delete f))
  end.

Definition file_read (f : loc) (size : Z) : FM (list Z) :=
  x ← get_file (D:=D) f;
  b ← inode_read_at out_of_memory (f_inode x) size (f_pos x);
  put_file f (File (f_inode x) (i32 (f_pos x + Z.of_nat (length b))) (f_deny_write x));;
  mret b.

Definition file_write (f : loc) (buffer : list Z) (size : Z) : FM Z :=
  x ← get_file (D:=D) f;
  n ← inode_write_at out_of_memory (f_inode x) buffer size (f_pos x);
  put_file f (File (f_inode x) (i32 (f_pos x + n)) (f_deny_write x));;
  mret n.

Definition file_length (f : loc) : FM Z := x ← get_file (D:=D) f; inode_length (f_inode x).

Definition file_seek (f : loc) (new_pos : Z) : FM unit :=
  st_assert (0 <=? new_pos);;
  x ← get_file (D:=D) f; put_file f (File (f_inode x) new_pos (f_deny_write x)).

Definition file_tell (f : loc) : FM Z := x ← get_file (D:=D) f; mret (f_pos x).

(** ** The free map's file *)

Definition free_map_open : FM unit :=
  i ← inode_open out_of_memory FREE_MAP_SECTOR;
  o ← file_open i;
  st_modify (set_free_map_file o);;
  match o with
  | None => st_fail KernelPanic
  | Some f =>
      s ← st_get;
      got ← file_read_at f (bitmap_file_size (free_map s)) 0;
      r ← st_lift (bitmap_read (free_map s) got);
      let '(ok, m) := r in
      st_modify (set_free_map m);;
      if ok : bool then mret tt else st_fail KernelPanic
  end.

Definition free_map_close : FM unit := s ← st_get; file_close (free_map_file s).

Definition free_map_create : FM unit :=
  s ← st_get;
  ok ← inode_create FREE_MAP_SECTOR (bitmap_file_size (free_map s));
  if negb ok then st_fail KernelPanic
  else
    i ← inode_open out_of_memory FREE_MAP_SECTOR;
    o ← file_open i;
    st_modify (set_free_map_file o);;
    match o with
    | None => st_fail KernelPanic
    | Some f => ok ← free_map_write; if ok : bool then mret tt else st_fail KernelPanic
    end.

(** ** Directories *)

(** A [struct dir_entry] is 20 bytes: the sector, the 15 bytes of the name,
    and [in_use]. *)
Definition dir_entry_size : Z := 20.
Definition de_sector (e : list Z) : Z := u32_of_bytes (take 4 e).
Definition de_name (e : list Z) : list Z := take 15 (drop 4 e).
Definition de_in_use (e : list Z) : bool := negb (e !!! 19%nat =? 0).

(** [!strcmp (a, b)] on two objects in memory; running over the end of one is
    a bad access. *)
Fixpoint strings_equal (a b : list Z) : outcome bool :=
  match a, b with
  | x :: a, y :: b => if negb (x =? y) then Ok false else if x =? 0 then Ok true else strings_equal a b
  | _, _ => Err BadPointer
  end.

(** [strlcpy (old, name, sizeof old)]. *)
Definition strlcpy_to (old name : list Z) : list Z :=
  let copied := take (length old - 1) name in
  copied ++ [0] ++ drop (length copied + 1) old.

(** [for (ofs = ...; inode_read_at (inode, &e, sizeof e, ofs) == sizeof e;
    ofs += sizeof e) if (found (e)) break;]  The result says whether the loop
    was left by [break], with [ofs] and [e] at that point. *)
Fixpoint scan_dir (fuel : nat) (found : list Z → outcome bool) (i : loc) (e : list Z) (ofs : Z)
    : FM (bool * Z * list Z) :=
  match fuel with
  | O => st_fail OutOfFuel
  | S fuel =>
      got ← inode_read_at (D:=D) out_of_memory i dir_entry_size (i32 ofs);
      let e := got ++ drop (length got) e in
      if Z.of_nat (length got) =? dir_entry_size then
        b ← st_lift (found e);
        if b : bool then mret (true, ofs, e) else scan_dir fuel found i e (u32 (ofs + dir_entry_size))
      else mret (false, ofs, e)
  end.

(** Enough turns to pass the end of the directory's file. *)
Definition scan_fuel (i : loc) : FM nat :=
  n ← inode_length (D:=D) i; mret (S (Z.to_nat n)).

Definition dir_create (sector entry_cnt : Z) : FM bool :=
  inode_create sector (i32 (u32 (entry_cnt * dir_entry_size))).

Definition dir_open (inode : option loc) : FM (option loc) :=
  a ← fs_malloc (D:=D) out_of_memory;
  match inode, a with
  | Some i, Some d => put_dir d (Dir i 0);; mret (Some d)
  | _, _ => inode_close inode;; mret None
  end.

Definition dir_open_root : FM (option loc) :=
  i ← inode_open out_of_memory ROOT_DIR_SECTOR; dir_open i.

Definition dir_reopen (d : loc) : FM (option loc) :=
  x ← get_dir (D:=D) d; i ← inode_reopen (Some (dir_inode x)); dir_open i.

Definition dir_close (o : option loc) : FM unit :=
  match o with
  | None => mret tt
  | Some d =>
      x ← get_dir d;
      inode_close (Some (dir_inode x));;
      st_modify (set_dirs (delete d))
  end.

Definition dir_get_inode (d : loc) : FM loc := x ← get_dir (D:=D) d; mret (dir_inode x).

(** The test of [lookup]: [e.in_use && !strcmp (name, e.name)]; the bytes of
    [e] after the name are [in_use]. *)
Definition entry_is (name e : list Z) : outcome bool :=
  if de_in_use e then strings_equal (name ++ [0]) (drop 4 e) else Ok false.

(** [*ep] and [*ofsp] when [lookup] returns true. *)
Definition lookup_entry (d : loc) (name : list Z) : FM (option (list Z * Z)) :=
  x ← get_dir (D:=D) d;
  n ← scan_fuel (dir_inode x);
  r ← scan_dir n (entry_is name) (dir_inode x) garbage 0;
  let '(found, ofs, e) := r in
  mret (if found : bool then Some (e, ofs) else None).

(** [*inode]; [dir_lookup] returns whether it is not null. *)
Definition dir_lookup (d : loc) (name : list Z) : FM (option loc) :=
  r ← lookup_entry d name;
  match r with
  | Some (e, _) => inode_open out_of_memory (de_sector e)
  | None => mret None
  end.

Definition dir_add (d : loc) (name : list Z) (inode_sector : Z) : FM bool :=
  if bool_decide (name = []) || (NAME_MAX <? Z.of_nat (length name)) then mret false
  else
    r ← lookup_entry d name;
    match r with
    | Some _ => mret false
    | None =>
        x ← get_dir d;
        n ← scan_fuel (dir_inode x);
        r ← scan_dir n (λ e, Ok (negb (de_in_use e))) (dir_inode x) garbage 0;
        let '(_, ofs, e) := r in
        let e := bytes_of_u32 inode_sector ++ strlcpy_to (de_name e) name ++ [1] in
        n ← inode_write_at out_of_memory (dir_inode x) e dir_entry_size (i32 ofs);
        mret (n =? dir_entry_size)
    end.

Definition dir_remove (d : loc) (name : list Z) : FM bool :=
  r ← lookup_entry d name;
  match r with
  | None => inode_close None;; mret false
  | Some (e, ofs) =>
      o ← inode_open out_of_memory (de_sector e);
      match o with
      | None => inode_close None;; mret false
      | Some i =>
          x ← get_dir d;
          let e := take 19 e ++ [0] in
          n ← inode_write_at out_of_memory (dir_inode x) e dir_entry_size (i32 ofs);
          success ← (if negb (n =? dir_entry_size) then mret false else inode_remove i;; mret true);
          inode_close (Some i);;
          mret success
      end
  end.

(** The C string that starts an array. *)
Fixpoint c_string (l : list Z) : list Z :=
  match l with [] => [] | c :: l => if c =? 0 then [] else c :: c_string l end.

(** One turn per entry; [dir->pos] is written before the test. *)
Fixpoint readdir_loop (fuel : nat) (d : loc) (e : list Z) : FM (option (list Z)) :=
  match fuel with
  | O => st_fail OutOfFuel
  | S fuel =>
      x ← get_dir d;
      got ← inode_read_at (D:=D) out_of_memory (dir_inode x) dir_entry_size (dir_pos x);
      let e := got ++ drop (length got) e in
      if Z.of_nat (length got) =? dir_entry_size then
        put_dir d (Dir (dir_inode x) (i32 (dir_pos x + dir_entry_size)));;
        if de_in_use e then mret (Some (take (Z.to_nat NAME_MAX) (c_string (de_name e)))) else readdir_loop fuel d e
      else mret None
  end.

Definition dir_readdir (d : loc) : FM (option (list Z)) :=
  x ← get_dir d; n ← scan_fuel (dir_inode x); readdir_loop n d garbage.

(** ** The file system *)

Definition do_format : FM unit :=
  free_map_create;;
  ok ← dir_create ROOT_DIR_SECTOR 16;
  if negb ok then st_fail KernelPanic else free_map_close.

(** [role] is the device that [block_get_role (BLOCK_FILESYS)] returns. *)
Definition filesys_init (role : option D) (format : bool) : FM unit :=
  (match role with
   | None => st_fail KernelPanic
   | Some d => st_modify (set_device d)
   end);;
  inode_init;;
  free_map_init;;
  (if format then do_format else mret tt);;
  free_map_open.

Definition filesys_done : FM unit := free_map_close.

Definition filesys_create (name : list Z) (initial_size : Z) : FM bool :=
  d ← dir_open_root;
  r ← match d with
      | None => mret (false, 0)
      | Some d =>
          o ← free_map_allocate 1;
          match o with
          | None => mret (false, 0)
          | Some inode_sector =>
              ok ← inode_create inode_sector initial_size;
              if ok : bool then ok ← dir_add d name inode_sector; mret (ok, inode_sector)
              else mret (false, inode_sector)
          end
      end;
  let '(success, inode_sector) := (r : bool * Z) in
  (if negb success && negb (inode_sector =? 0) then free_map_release inode_sector 1 else mret tt);;
  dir_close d;;
  mret success.

Definition filesys_open (name : list Z) : FM (option loc) :=
  d ← dir_open_root;
  inode ← match d with None => mret None | Some d => dir_lookup d name end;
  dir_close d;;
  file_open inode.

Definition filesys_remove (name : list Z) : FM bool :=
  d ← dir_open_root;
  success ← match d with None => mret false | Some d => dir_remove d name end;
  dir_close d;;
  mret success.
End filesys.
