(* ===== verification/InodeThm.v ===== *)
(** Correctness of reading and writing the bytes of an inode: on a device that
    keeps what is written, [inode_read_at] and [inode_write_at] act on the
    bytes of the inode's sectors as on one array. *)
From S2P Require Import Prelude Bytes Bitmap Block Inode.
Local Open Scope Z_scope.

(** ** Arrays of sectors *)

(** [l] with [p] in place of what it holds from [o] on. *)
Definition splice {A} (l : list A) (o : nat) (p : list A) : list A := take o l ++ p ++ drop (o + length p) l.

Lemma splice_length {A} (l : list A) o p : (o + length p ≤ length l)%nat → length (splice l o p) = length l.
Proof. intros. unfold splice. rewrite !length_app, length_take, length_drop. lia. Qed.

Lemma splice_lookup {A} (l : list A) o p j :
  (o + length p ≤ length l)%nat →
  splice l o p !! j = if decide (o ≤ j < o + length p)%nat then p !! (j - o)%nat else l !! j.
Proof.
  intros H. unfold splice. destruct (decide (j < o)%nat).
  { rewrite lookup_app_l by (rewrite length_take; lia). rewrite lookup_take_lt by lia. by rewrite decide_False by lia. }
  rewrite lookup_app_r by (rewrite length_take; lia). rewrite length_take, Nat.min_l by lia.
  case_decide; [by rewrite lookup_app_l by lia |].
  rewrite lookup_app_r by lia. rewrite lookup_drop. f_equal. lia.
Qed.

Lemma splice_nil {A} (l : list A) o : splice l o [] = l.
Proof. unfold splice. cbn. rewrite Nat.add_0_r. apply take_drop. Qed.

Lemma splice_app {A} (l : list A) o p q :
  (o + length p + length q ≤ length l)%nat → splice (splice l o p) (o + length p) q = splice l o (p ++ q).
Proof.
  intros H. apply list_eq. intros j.
  rewrite !splice_lookup by (rewrite ?splice_length, ?length_app; lia). rewrite length_app.
  repeat case_decide; try lia; [rewrite lookup_app_r by lia; f_equal; lia | by rewrite lookup_app_l by lia | done].
Qed.

Lemma splice_take {A} (l : list A) n o p :
  (o + length p ≤ n ≤ length l)%nat → take n (splice l o p) = splice (take n l) o p.
Proof.
  intros H. apply list_eq. intros j. rewrite splice_lookup by (rewrite length_take; lia).
  destruct (decide (j < n)%nat).
  - rewrite !lookup_take_lt, splice_lookup by lia. done.
  - rewrite !lookup_take_ge by lia. by rewrite decide_False by lia.
Qed.

Lemma piece_of_take {A} (l : list A) n o c : (o + c ≤ n)%nat → take c (drop o (take n l)) = take c (drop o l).
Proof. intros. rewrite !take_drop_commute, take_take. do 2 f_equal. lia. Qed.

Lemma concat_lookup {A} (m : nat) (L : list (list A)) k r :
  Forall (λ x, length x = m) L → (r < m)%nat → concat L !! (m * k + r)%nat = L !! k ≫= (.!! r).
Proof.
  intros HL Hr. revert k. induction HL as [|x L Hx HL IH]; intros k; [done |]. cbn [concat].
  destruct k as [|k].
  - rewrite lookup_app_l by lia. cbn. f_equal. lia.
  - rewrite lookup_app_r by lia. transitivity (concat L !! (m * k + r)%nat); [f_equal; lia | apply IH].
Qed.

Lemma concat_lookup_div {A} (m : nat) (L : list (list A)) j :
  Forall (λ x, length x = m) L → (0 < m)%nat → concat L !! j = L !! (j / m)%nat ≫= (.!! (j mod m)%nat).
Proof.
  intros HL Hm. rewrite <-(concat_lookup m) by (done || (apply Nat.mod_upper_bound; lia)).
  f_equal. apply Nat.div_mod. lia.
Qed.

Lemma concat_length {A} (m : nat) (L : list (list A)) :
  Forall (λ x, length x = m) L → length (concat L) = (m * length L)%nat.
Proof. induction 1; cbn; [lia |]. rewrite length_app. lia. Qed.

(** A piece of one sector is a piece of the array. *)
Lemma concat_piece {A} (m : nat) (L : list (list A)) k r c x :
  Forall (λ x, length x = m) L → L !! k = Some x → (r + c ≤ m)%nat →
  take c (drop r x) = take c (drop (m * k + r) (concat L)).
Proof.
  intros HL Hx Hc. apply list_eq. intros j.
  destruct (decide (j < c)%nat); [| by rewrite !lookup_take_ge by lia].
  rewrite !lookup_take_lt, !lookup_drop by lia. rewrite <-Nat.add_assoc, concat_lookup by (done || lia).
  by rewrite Hx.
Qed.

(** Overwriting a piece of one sector overwrites a piece of the array. *)
Lemma concat_splice {A} (m : nat) (L : list (list A)) k r x p :
  Forall (λ x, length x = m) L → L !! k = Some x → (0 < m)%nat → (r + length p ≤ m)%nat →
  concat (<[k := splice x r p]> L) = splice (concat L) (m * k + r) p.
Proof.
  intros HL Hx Hm Hp. assert (length x = m) as Hlx by (by apply (Forall_lookup_1 _ _ _ _ HL Hx)).
  apply lookup_lt_Some in Hx as Hk.
  assert (m * k + m ≤ m * length L)%nat by nia.
  assert (Forall (λ x, length x = m) (<[k := splice x r p]> L)) as HL'.
  { apply Forall_insert; [done |]. rewrite splice_length; lia. }
  apply list_eq. intros j. rewrite splice_lookup by (rewrite (concat_length m) by done; lia).
  pose proof (Nat.div_mod j m ltac:(lia)) as Hj. pose proof (Nat.mod_upper_bound j m ltac:(lia)).
  rewrite !(concat_lookup_div m) by done.
  destruct (decide (j / m = k)%nat) as [Ek|Ek].
  - rewrite Ek, list_lookup_insert_eq by done. cbn. rewrite splice_lookup by lia. rewrite Hx. cbn.
    rewrite Ek in Hj. repeat case_decide; try lia; [f_equal; lia | done].
  - rewrite list_lookup_insert_ne by done. rewrite decide_False; [done |].
    intros ?. apply Ek. symmetry. apply (Nat.div_unique j m k (j - m * k)); lia.
Qed.

Section inode.
Context {D : Type} `{!Device D} `{!DeviceLaws D} (out_of_memory : loc → bool).
Context (memory_suffices : ∀ a, out_of_memory a = false).
Implicit Types s : fs D.

(** ** The bytes of an inode *)

Definition secs s : list (list Z) := sectors (fs_device s).

(** The number of data sectors, and their place on a device of [n] sectors. *)
Definition data_cnt (d : inode_disk) : nat := Z.to_nat ((d_length d + 511) / 512).

Definition inode_wf (n : nat) (d : inode_disk) : Prop :=
  0 ≤ d_length d ≤ 2147483135 ∧ 0 ≤ d_start d ∧ (Z.to_nat (d_start d) + data_cnt d ≤ n)%nat.

Definition inode_area (L : list (list Z)) (d : inode_disk) : list (list Z) :=
  take (data_cnt d) (drop (Z.to_nat (d_start d)) L).

Definition inode_bytes (L : list (list Z)) (d : inode_disk) : list Z :=
  take (Z.to_nat (d_length d)) (concat (inode_area L d)).

(** From [s] to [s'] nothing changes but the sectors, which become [L], and
    the addresses that [malloc] has given out. *)
Definition touch s s' (L : list (list Z)) : Prop :=
  device_ok (fs_device s') ∧ secs s' = L ∧ (next_addr s ≤ next_addr s')%positive ∧
  free_map s' = free_map s ∧ free_map_file s' = free_map_file s ∧ open_inodes s' = open_inodes s ∧
  inodes s' = inodes s ∧ files s' = files s ∧ dirs s' = dirs s.

Ltac touch_split := unfold touch; split_and!; try done.

Lemma touch_refl s : device_ok (fs_device s) → touch s s (secs s).
Proof. intros. touch_split. Qed.

Lemma touch_trans s1 s2 s3 L2 L3 : touch s1 s2 L2 → touch s2 s3 L3 → touch s1 s3 L3.
Proof.
  intros (?&?&?&?&?&?&?&?&?) (?&?&?&?&?&?&?&?&?). unfold touch. split_and!; congruence || lia || done.
Qed.

Lemma data_cnt_le d : 0 ≤ d_length d → (Z.to_nat (d_length d) ≤ 512 * data_cnt d)%nat.
Proof. intros. unfold data_cnt. Z.to_euclidean_division_equations; lia. Qed.

Lemma data_cnt_lt d pos : 0 ≤ pos < d_length d → (Z.to_nat (pos / 512) < data_cnt d)%nat.
Proof. intros. unfold data_cnt. Z.to_euclidean_division_equations; lia. Qed.

Lemma bytes_to_sectors_ok d : 0 ≤ d_length d ≤ 2147483135 → bytes_to_sectors (d_length d) = Z.of_nat (data_cnt d).
Proof.
  intros. unfold bytes_to_sectors, BLOCK_SECTOR_SIZE, data_cnt. rewrite i32_id by (rewrite i32_id; lia).
  rewrite i32_id by lia. rewrite Z.quot_div_nonneg by lia. rewrite Z2Nat.id by (apply Z.div_pos; lia).
  replace (d_length d + 512 - 1) with (d_length d + 511) by lia. apply u32_id.
  Z.to_euclidean_division_equations; lia.
Qed.

Lemma area_length L d : inode_wf (length L) d → length (inode_area L d) = data_cnt d.
Proof. intros (? & ? & ?). unfold inode_area. rewrite length_take, length_drop. lia. Qed.

Lemma area_sectors L d : Forall is_sector L → Forall (λ x, length x = 512%nat) (inode_area L d).
Proof. intros H. unfold inode_area. apply Forall_take, Forall_drop. eapply Forall_impl; [done |]. by intros x []. Qed.

Lemma area_concat_length L d :
  Forall is_sector L → inode_wf (length L) d → length (concat (inode_area L d)) = (512 * data_cnt d)%nat.
Proof. intros. rewrite (concat_length 512) by (by apply area_sectors). by rewrite area_length. Qed.

Lemma inode_bytes_length L d :
  Forall is_sector L → inode_wf (length L) d → length (inode_bytes L d) = Z.to_nat (d_length d).
Proof.
  intros HL Hd. unfold inode_bytes. rewrite length_take, area_concat_length by done.
  pose proof (data_cnt_le d). destruct Hd as (? & _). lia.
Qed.

Lemma area_lookup L d k :
  inode_wf (length L) d → (k < data_cnt d)%nat → inode_area L d !! k = L !! (Z.to_nat (d_start d) + k)%nat.
Proof. intros. unfold inode_area. by rewrite lookup_take_lt, lookup_drop by lia. Qed.

(** The sector that holds position [pos]. *)
Lemma sector_at L d pos :
  inode_wf (length L) d → 0 ≤ pos < d_length d →
  ∃ x, L !! Z.to_nat (d_start d + pos / 512) = Some x ∧ inode_area L d !! Z.to_nat (pos / 512) = Some x.
Proof.
  intros Hd Hp. pose proof (data_cnt_lt d pos Hp) as Hk.
  destruct (lookup_lt_is_Some_2 (inode_area L d) (Z.to_nat (pos / 512))) as [x Hx]; [by rewrite area_length |].
  exists x. split; [| done]. rewrite area_lookup in Hx by done. destruct Hd as (_ & ? & _).
  assert (0 ≤ pos / 512) by (apply Z.div_pos; lia). by rewrite Z2Nat.inj_add by lia.
Qed.

Lemma pos_split pos : 0 ≤ pos → Z.to_nat pos = (512 * Z.to_nat (pos / 512) + Z.to_nat (pos `mod` 512))%nat.
Proof. intros. Z.to_euclidean_division_equations. lia. Qed.

(** A piece of a sector is a piece of the inode. *)
Lemma sector_piece L d pos c x :
  Forall is_sector L → inode_wf (length L) d → 0 ≤ pos → pos + Z.of_nat c ≤ d_length d →
  (Z.to_nat (pos `mod` 512) + c ≤ 512)%nat → inode_area L d !! Z.to_nat (pos / 512) = Some x →
  take c (drop (Z.to_nat (pos `mod` 512)) x) = take c (drop (Z.to_nat pos) (inode_bytes L d)).
Proof.
  intros HL Hd Hp Hc Hr Hx. rewrite (concat_piece 512 (inode_area L d) (Z.to_nat (pos / 512))) by (done || by apply area_sectors).
  rewrite <-pos_split by done. unfold inode_bytes. rewrite piece_of_take by lia. done.
Qed.

Lemma chunk_of_ok x size offset :
  0 ≤ d_length (i_data x) < 2147483648 → 0 ≤ offset < 2147483648 →
  chunk_of x size offset = Z.min size (Z.min (d_length (i_data x) - offset) (512 - offset `mod` 512)).
Proof.
  intros Hl Ho. unfold chunk_of, BLOCK_SECTOR_SIZE. rewrite Z.rem_mod_nonneg by lia. rewrite i32_id by lia.
  destruct (Z.ltb_spec (d_length (i_data x) - offset) (512 - offset `mod` 512));
    match goal with |- context [?a <? ?b] => destruct (Z.ltb_spec a b) end; lia.
Qed.

Lemma byte_to_sector_ok x (n : nat) pos :
  inode_wf n (i_data x) → Z.of_nat n < 4294967296 → 0 ≤ pos < d_length (i_data x) →
  byte_to_sector x pos = d_start (i_data x) + pos / 512.
Proof.
  intros (? & ? & ?) Hn Hp. unfold byte_to_sector, BLOCK_SECTOR_SIZE.
  destruct (Z.ltb_spec pos (d_length (i_data x))); [| lia]. rewrite Z.quot_div_nonneg by lia.
  pose proof (data_cnt_lt _ _ Hp). assert (0 ≤ pos / 512) by (apply Z.div_pos; lia). apply u32_id. lia.
Qed.

(** ** Reading *)

Lemma device_small s : device_ok (fs_device s) → Z.of_nat (length (secs s)) < 4294967296.
Proof. intros H. pose proof (device_ok_size _ H). unfold secs. lia. Qed.

Lemma device_sectors s : device_ok (fs_device s) → Forall is_sector (secs s).
Proof. apply device_ok_sectors. Qed.

Lemma fs_read_ok s k x :
  device_ok (fs_device s) → 0 ≤ k → secs s !! Z.to_nat k = Some x →
  ∃ s', fs_read k s = Ok (x, s') ∧ touch s s' (secs s).
Proof.
  intros Hd Hk Hx. destruct (device_read_ok (fs_device s) k x) as (d & E & Hd' & Es); [done.. |].
  exists (set_device d s). unfold fs_read, on_device. rewrite E. split; [done |]. touch_split.
Qed.

Lemma fs_write_ok s k x :
  device_ok (fs_device s) → 0 ≤ k < Z.of_nat (length (secs s)) → is_sector x →
  ∃ s', fs_write k x s = Ok (tt, s') ∧ touch s s' (<[Z.to_nat k := x]> (secs s)).
Proof.
  intros Hd Hk Hx. pose proof (device_ok_size _ Hd).
  destruct (device_write_ok (fs_device s) k x) as (d & E & Hd' & Es); [done | unfold secs in Hk; lia | done |].
  exists (set_device d s). unfold fs_write, on_device. rewrite E. split; [done |]. touch_split.
Qed.

Lemma fs_malloc_ok s :
  device_ok (fs_device s) →
  ∃ s', fs_malloc out_of_memory s = Ok (Some (next_addr s), s') ∧ touch s s' (secs s) ∧
    next_addr s' = Pos.succ (next_addr s).
Proof.
  intros Hd. unfold fs_malloc. rewrite memory_suffices. eexists. split; [done |]. split; [| done].
  touch_split. cbn. lia.
Qed.

Lemma get_bounce_ok s bounce :
  device_ok (fs_device s) → ∃ s', get_bounce out_of_memory bounce s = Ok (true, s') ∧ touch s s' (secs s).
Proof.
  intros Hd. unfold get_bounce. destruct bounce; [exists s; split; [done | by apply touch_refl] |].
  destruct (fs_malloc_ok s Hd) as (s' & E & Ht & _). exists s'. unfold mbind, st_bind. by rewrite E.
Qed.

Lemma get_inode_ok s i x : inodes s !! i = Some x → get_inode i s = Ok (x, s).
Proof. intros H. unfold get_inode, mbind, st_bind, st_get, st_lift. by rewrite H. Qed.

Lemma bytes_at_ok l ofs n :
  0 ≤ ofs → ofs + n ≤ Z.of_nat (length l) → bytes_at l ofs n = Ok (take (Z.to_nat n) (drop (Z.to_nat ofs) l)).
Proof.
  intros. unfold bytes_at. destruct (Z.leb_spec 0 ofs), (Z.leb_spec (ofs + n) (Z.of_nat (length l))); [done | lia..].
Qed.

(** The read of one turn, through the bounce buffer or not. *)
Lemma read_step L d offset c x :
  Forall is_sector L → inode_wf (length L) d → 0 ≤ offset → 0 < c →
  c = Z.min c (Z.min (d_length d - offset) (512 - offset `mod` 512)) →
  inode_area L d !! Z.to_nat (offset / 512) = Some x →
  bytes_at x (offset `mod` 512) c = Ok (take (Z.to_nat c) (drop (Z.to_nat offset) (inode_bytes L d))) ∧
  ((offset `mod` 512 =? 0) && (c =? 512) = true → x = take (Z.to_nat c) (drop (Z.to_nat offset) (inode_bytes L d))).
Proof.
  intros HL Hd Ho Hc Ec Hx. pose proof (Z.mod_pos_bound offset 512 ltac:(lia)).
  assert (length x = 512%nat) as Hlx by (by apply (Forall_lookup_1 _ _ _ _ (area_sectors L d HL) Hx)).
  rewrite <-(sector_piece L d offset (Z.to_nat c) x) by (done || lia). split.
  - apply bytes_at_ok; lia.
  - intros [E1%Z.eqb_eq ->%Z.eqb_eq]%andb_true_iff. rewrite E1. rewrite drop_0, take_ge; [done | lia].
Qed.

Lemma read_loop_ok fuel i x bounce size offset acc s :
  device_ok (fs_device s) → inodes s !! i = Some x → inode_wf (length (secs s)) (i_data x) →
  0 ≤ offset < 2147483648 → size < 2147483648 → (Z.to_nat size < fuel)%nat →
  ∃ s', read_loop out_of_memory fuel i bounce size offset acc s =
      Ok (acc ++ take (Z.to_nat size) (drop (Z.to_nat offset) (inode_bytes (secs s) (i_data x))), s') ∧
    touch s s' (secs s).
Proof.
  revert bounce size offset acc s. induction fuel as [|fuel IH]; [lia |].
  intros bounce size offset acc s Hd Hi Hwf Ho Hs Hf. cbn [read_loop].
  pose proof (device_sectors s Hd) as HL. pose proof (inode_bytes_length _ _ HL Hwf) as Hlen.
  destruct (Z.leb_spec size 0).
  { exists s. replace (Z.to_nat size) with 0%nat by lia. rewrite app_nil_r. split; [done | by apply touch_refl]. }
  unfold mbind at 1, st_bind at 1. rewrite (get_inode_ok s i x Hi). pose proof Hwf as (Hlr & _).
  rewrite chunk_of_ok by lia. set (c := Z.min _ _).
  destruct (Z.leb_spec c 0).
  { exists s. pose proof (Z.mod_pos_bound offset 512 ltac:(lia)).
    rewrite drop_ge by (rewrite Hlen; lia). rewrite take_nil, app_nil_r. split; [done | by apply touch_refl]. }
  rewrite (byte_to_sector_ok x (length (secs s))) by (done || lia || by apply device_small).
  destruct (sector_at (secs s) (i_data x) offset) as (b & Hb & Hb2); [done | lia |].
  assert (0 ≤ d_start (i_data x) + offset / 512) by (pose proof (Z.div_pos offset 512); destruct Hwf as (_ & ? & _); lia).
  destruct (read_step (secs s) (i_data x) offset c b) as [E1 E2]; [done.. | lia | done | lia | done |].
  unfold BLOCK_SECTOR_SIZE. rewrite Z.rem_mod_nonneg by lia. set (P := take (Z.to_nat c) _) in *.
  pose proof (Z.mod_pos_bound offset 512 ltac:(lia)).
  assert (∀ s1 bounce' acc', touch s s1 (secs s) → acc' = acc ++ P →
    ∃ s', read_loop out_of_memory fuel i bounce' (i32 (size - c)) (i32 (offset + c)) acc' s1 =
      Ok (acc ++ take (Z.to_nat size) (drop (Z.to_nat offset) (inode_bytes (secs s) (i_data x))), s') ∧ touch s s' (secs s)) as Hrec.
  { intros s1 bounce' acc' Ht ->. pose proof Ht as (Hd1 & Es1 & _ & _ & _ & _ & Ei1 & _).
    rewrite !i32_id by lia.
    destruct (IH bounce' (size - c) (offset + c) (acc ++ P) s1) as (s' & E & Ht');
      [done | by rewrite Ei1 | by rewrite Es1 | lia.. |].
    exists s'. split; [| rewrite Es1 in Ht'; by eapply touch_trans].
    rewrite E, Es1. do 2 f_equal. rewrite <-app_assoc. f_equal. unfold P.
    replace (Z.to_nat (offset + c)) with (Z.to_nat offset + Z.to_nat c)%nat by lia.
    replace (Z.to_nat (size - c)) with (Z.to_nat size - Z.to_nat c)%nat by lia.
    rewrite <-drop_drop, take_take_drop. f_equal. lia. }
  destruct ((offset `mod` 512 =? 0) && (c =? 512)).
  - destruct (fs_read_ok s (d_start (i_data x) + offset / 512) b) as (s1 & Er & Ht); [done.. |].
    unfold mbind, st_bind. rewrite Er. apply Hrec; [done |]. by rewrite E2.
  - destruct (get_bounce_ok s bounce Hd) as (s0 & Eg & Ht0). unfold mbind, st_bind. rewrite Eg.
    pose proof Ht0 as (Hd0 & Es0 & _).
    destruct (fs_read_ok s0 (d_start (i_data x) + offset / 512) b) as (s1 & Er & Ht); [done.. | by rewrite Es0 |].
    rewrite Er, E1. cbn. apply Hrec; [| done]. rewrite Es0 in Ht. by eapply touch_trans.
Qed.

Lemma inode_read_at_ok i x size offset s :
  device_ok (fs_device s) → inodes s !! i = Some x → inode_wf (length (secs s)) (i_data x) →
  0 ≤ offset < 2147483648 → size < 2147483648 →
  ∃ s', inode_read_at out_of_memory i size offset s =
      Ok (take (Z.to_nat size) (drop (Z.to_nat offset) (inode_bytes (secs s) (i_data x))), s') ∧
    touch s s' (secs s).
Proof. intros. apply (read_loop_ok _ i x false size offset []); try done. lia. Qed.

(** ** Writing *)

(** Writing [P] at [offset]: the inode's bytes, and no other sector. *)
Definition write_effect (L : list (list Z)) (d : inode_disk) (offset : Z) (P : list Z) (L' : list (list Z)) : Prop :=
  length L' = length L ∧ Forall is_sector L' ∧
  (∀ k, (k < Z.to_nat (d_start d) ∨ Z.to_nat (d_start d) + data_cnt d ≤ k)%nat → L' !! k = L !! k) ∧
  inode_bytes L' d = splice (inode_bytes L d) (Z.to_nat offset) P.

Lemma write_effect_nil L d offset : Forall is_sector L → write_effect L d offset [] L.
Proof. intros. split_and!; [done.. |]. by rewrite splice_nil. Qed.

Lemma write_effect_app L d offset P L1 Q L2 :
  Forall is_sector L → inode_wf (length L) d → 0 ≤ offset →
  offset + Z.of_nat (length P) + Z.of_nat (length Q) ≤ d_length d →
  write_effect L d offset P L1 → write_effect L1 d (offset + Z.of_nat (length P)) Q L2 →
  write_effect L d offset (P ++ Q) L2.
Proof.
  intros HL Hd Ho Hle (l1 & f1 & o1 & b1) (l2 & f2 & o2 & b2). split_and!; [congruence | done | |].
  - intros k Hk. rewrite o2 by done. by apply o1.
  - rewrite b2, b1. rewrite Z2Nat.inj_add, Nat2Z.id by lia. apply splice_app.
    rewrite inode_bytes_length by done. lia.
Qed.

Lemma splice_bytes (x P : list Z) o :
  is_sector x → Forall is_byte P → (o + length P ≤ 512)%nat → is_sector (splice x o P).
Proof.
  intros [Hl Hb] HP Ho. split; [rewrite splice_length; lia |].
  unfold splice. rewrite !Forall_app. split_and!; [by apply Forall_take | done | by apply Forall_drop].
Qed.

Lemma write_sector L d offset P x :
  Forall is_sector L → inode_wf (length L) d → 0 ≤ offset → (0 < length P)%nat →
  offset + Z.of_nat (length P) ≤ d_length d → (Z.to_nat (offset `mod` 512) + length P ≤ 512)%nat →
  Forall is_byte P → L !! Z.to_nat (d_start d + offset / 512) = Some x →
  write_effect L d offset P (<[Z.to_nat (d_start d + offset / 512) := splice x (Z.to_nat (offset `mod` 512)) P]> L).
Proof.
  intros HL Hd Ho HP Hle Hr HPb Hx. assert (is_sector x) as Hsx by (by apply (Forall_lookup_1 _ _ _ _ HL Hx)).
  pose proof Hd as (? & ? & ?). assert (0 ≤ offset / 512) by (apply Z.div_pos; lia).
  assert (Z.to_nat (offset / 512) < data_cnt d)%nat as Hk by (apply data_cnt_lt; lia).
  assert (Z.to_nat (d_start d + offset / 512) = Z.to_nat (d_start d) + Z.to_nat (offset / 512))%nat as Ek by lia.
  split_and!.
  - by rewrite length_insert.
  - apply Forall_insert; [done |]. by apply splice_bytes.
  - intros k Hk'. rewrite list_lookup_insert_ne; [done | lia].
  - unfold inode_bytes. assert (inode_area (<[Z.to_nat (d_start d + offset / 512) := splice x (Z.to_nat (offset `mod` 512)) P]> L) d
      = <[Z.to_nat (offset / 512) := splice x (Z.to_nat (offset `mod` 512)) P]> (inode_area L d)) as ->.
    { unfold inode_area. rewrite Ek, drop_insert_ge, take_insert_lt by lia. do 2 f_equal. lia. }
    rewrite (concat_splice 512); [| by apply area_sectors | by rewrite area_lookup, <-Ek | lia | done].
    rewrite <-pos_split by done. apply splice_take.
    rewrite area_concat_length by done. pose proof (data_cnt_le d). lia.
Qed.

Lemma bytes_over_ok l ofs P :
  0 ≤ ofs → ofs + Z.of_nat (length P) ≤ Z.of_nat (length l) → bytes_over l ofs P = Ok (splice l (Z.to_nat ofs) P).
Proof.
  intros. unfold bytes_over. destruct (Z.leb_spec 0 ofs), (Z.leb_spec (ofs + Z.of_nat (length P)) (Z.of_nat (length l))); [done | lia..].
Qed.

Definition written (d : inode_disk) (size offset : Z) : Z := Z.max 0 (Z.min size (d_length d - offset)).

Lemma write_loop_ok fuel i x buffer bounce size offset bw s :
  device_ok (fs_device s) → inodes s !! i = Some x → inode_wf (length (secs s)) (i_data x) →
  0 ≤ offset < 2147483648 → 0 ≤ bw → bw + Z.max 0 size ≤ Z.of_nat (length buffer) → Z.of_nat (length buffer) < 2147483648 →
  Forall is_byte buffer → (Z.to_nat size < fuel)%nat →
  ∃ s' L', write_loop out_of_memory fuel i buffer bounce size offset bw s =
      Ok (bw + written (i_data x) size offset, s') ∧ touch s s' L' ∧
    write_effect (secs s) (i_data x) offset
      (take (Z.to_nat (written (i_data x) size offset)) (drop (Z.to_nat bw) buffer)) L'.
Proof.
  revert bounce size offset bw s. induction fuel as [|fuel IH]; [lia |].
  intros bounce size offset bw s Hd Hi Hwf Ho Hbw Hbuf Hbl Hby Hf. cbn [write_loop].
  pose proof (device_sectors s Hd) as HL. pose proof Hwf as (Hlr & Hst & _).
  assert (∀ size, written (i_data x) size offset = 0 →
    ∃ s' L', Ok (bw, s) = Ok (bw + written (i_data x) size offset, s') ∧ touch s s' L' ∧
      write_effect (secs s) (i_data x) offset (take (Z.to_nat (written (i_data x) size offset)) (drop (Z.to_nat bw) buffer)) L') as Hstop.
  { intros sz ->. exists s, (secs s). rewrite Z.add_0_r. split_and!; [done | by apply touch_refl | by apply write_effect_nil]. }
  destruct (Z.leb_spec size 0); [apply Hstop; unfold written; lia |].
  unfold mbind at 1, st_bind at 1. rewrite (get_inode_ok s i x Hi). rewrite chunk_of_ok by lia.
  pose proof (Z.mod_pos_bound offset 512 ltac:(lia)) as Hm. set (c := Z.min _ _).
  destruct (Z.leb_spec c 0); [apply Hstop; unfold written; lia |].
  rewrite (byte_to_sector_ok x (length (secs s))) by (done || lia || by apply device_small).
  destruct (sector_at (secs s) (i_data x) offset) as (b & Hb & Hb2); [done | lia |].
  set (k := d_start (i_data x) + offset / 512) in *.
  assert (0 ≤ k) by (pose proof (Z.div_pos offset 512); lia). apply lookup_lt_Some in Hb as Hklt.
  assert (is_sector b) as Hsb by (by apply (Forall_lookup_1 _ _ _ _ HL Hb)). pose proof Hsb as [Hlb _].
  unfold BLOCK_SECTOR_SIZE. rewrite Z.rem_mod_nonneg by lia.
  set (P := take (Z.to_nat c) (drop (Z.to_nat bw) buffer)).
  assert (length P = Z.to_nat c) as HlP by (unfold P; rewrite length_take, length_drop; lia).
  assert (Forall is_byte P) as HPb by (by apply Forall_take, Forall_drop).
  assert (bytes_at buffer bw c = Ok P) as EP by (apply bytes_at_ok; lia).
  assert (∀ s1 bounce', touch s s1 (<[Z.to_nat k := splice b (Z.to_nat (offset `mod` 512)) P]> (secs s)) →
    ∃ s' L', write_loop out_of_memory fuel i buffer bounce' (i32 (size - c)) (i32 (offset + c)) (i32 (bw + c)) s1 =
      Ok (bw + written (i_data x) size offset, s') ∧ touch s s' L' ∧
      write_effect (secs s) (i_data x) offset (take (Z.to_nat (written (i_data x) size offset)) (drop (Z.to_nat bw) buffer)) L') as Hrec.
  { intros s1 bounce' Ht. pose proof Ht as (Hd1 & Es1 & _ & _ & _ & _ & Ei1 & _). rewrite !i32_id by lia.
    destruct (IH bounce' (size - c) (offset + c) (bw + c) s1) as (s' & L' & E & Ht' & Hw);
      [done | by rewrite Ei1 | by rewrite Es1, length_insert | lia.. | done | lia |].
    exists s', L'. assert (written (i_data x) size offset = c + written (i_data x) (size - c) (offset + c)) as -> by (unfold written; lia).
    split_and!; [rewrite E; do 2 f_equal; lia | by eapply touch_trans |].
    replace (take _ _) with (P ++ take (Z.to_nat (written (i_data x) (size - c) (offset + c))) (drop (Z.to_nat (bw + c)) buffer)).
    2: { unfold P. replace (Z.to_nat (bw + c)) with (Z.to_nat bw + Z.to_nat c)%nat by lia.
         rewrite <-drop_drop, take_take_drop. f_equal. unfold written; lia. }
    rewrite Es1 in Hw. eapply write_effect_app; [done.. | lia | | | ].
    - rewrite HlP, length_take, length_drop. unfold written; lia.
    - apply write_sector; done || lia.
    - rewrite HlP, Z2Nat.id by lia. done. }
  destruct ((offset `mod` 512 =? 0) && (c =? 512)) eqn:Efull.
  - apply andb_true_iff in Efull as [E1%Z.eqb_eq E2%Z.eqb_eq]. unfold mbind, st_bind, st_lift.
    rewrite <-E2, EP. destruct (fs_write_ok s k P) as (s1 & Er & Ht); [done | lia | split; [lia | done] |].
    rewrite Er. apply Hrec. rewrite E1. unfold splice. rewrite drop_ge by lia. by rewrite app_nil_r.
  - destruct (get_bounce_ok s bounce Hd) as (s0 & Eg & Ht0). unfold mbind, st_bind. rewrite Eg.
    pose proof Ht0 as (Hd0 & Es0 & _).
    assert ((0 <? offset `mod` 512) || (c <? 512 - offset `mod` 512) = true) as ->.
    { destruct (Z.ltb_spec 0 (offset `mod` 512)); [done |]. cbn [orb]. apply Z.ltb_lt.
      apply andb_false_iff in Efull. rewrite !Z.eqb_neq in Efull. lia. }
    destruct (fs_read_ok s0 k b) as (s1 & Er & Ht1); [done.. | by rewrite Es0 |].
    rewrite Er. unfold st_lift. rewrite EP, bytes_over_ok by lia.
    pose proof Ht1 as (Hd1 & Es1 & _).
    destruct (fs_write_ok s1 k (splice b (Z.to_nat (offset `mod` 512)) P)) as (s2 & Ew & Ht2).
    { done. } { rewrite Es1, Es0. lia. } { apply splice_bytes; done || lia. }
    rewrite Ew. apply Hrec. rewrite Es1, Es0 in Ht2. rewrite Es0 in Ht1.
    eapply touch_trans; [exact Ht0 |]. by eapply touch_trans.
Qed.

Lemma inode_write_at_ok i x buffer size offset s :
  device_ok (fs_device s) → inodes s !! i = Some x → inode_wf (length (secs s)) (i_data x) →
  0 ≤ offset < 2147483648 → 0 ≤ size ≤ Z.of_nat (length buffer) → Z.of_nat (length buffer) < 2147483648 →
  Forall is_byte buffer → deny_write_cnt x = 0 →
  ∃ s' L', inode_write_at out_of_memory i buffer size offset s = Ok (written (i_data x) size offset, s') ∧ touch s s' L' ∧
    write_effect (secs s) (i_data x) offset (take (Z.to_nat (written (i_data x) size offset)) buffer) L'.
Proof.
  intros Hd Hi Hwf Ho Hs Hb Hby Hdeny. unfold inode_write_at, mbind, st_bind. rewrite (get_inode_ok s i x Hi), Hdeny.
  cbn [Z.eqb negb]. destruct (write_loop_ok (S (Z.to_nat size)) i x buffer false size offset 0 s) as (s' & L' & H); [try done; lia.. |].
  exists s', L'. by rewrite Z.add_0_l, drop_0 in H.
Qed.

(** Inodes whose sectors do not overlap. *)
Definition apart (d d' : inode_disk) : Prop :=
  d_start d + Z.of_nat (data_cnt d) ≤ d_start d' ∨ d_start d' + Z.of_nat (data_cnt d') ≤ d_start d ∨
  data_cnt d = O ∨ data_cnt d' = O.

Lemma same_area L L' d :
  length L' = length L → inode_wf (length L) d →
  (∀ k, (Z.to_nat (d_start d) ≤ k < Z.to_nat (d_start d) + data_cnt d)%nat → L' !! k = L !! k) →
  inode_bytes L' d = inode_bytes L d.
Proof.
  intros Hlen Hd H. unfold inode_bytes. do 2 f_equal. apply list_eq. intros k.
  destruct (decide (k < data_cnt d)%nat).
  - rewrite !area_lookup by (done || by rewrite Hlen). apply H. lia.
  - rewrite !lookup_ge_None_2; [done | |]; rewrite area_length; (done || lia || by rewrite Hlen).
Qed.

Lemma write_effect_apart L d offset P L' d' :
  write_effect L d offset P L' → inode_wf (length L) d → inode_wf (length L) d' → apart d d' →
  inode_bytes L' d' = inode_bytes L d'.
Proof.
  intros (Hl & _ & Ho & _) (_ & ? & _) Hd' Ha. apply same_area; [done.. |]. intros k Hk. apply Ho.
  destruct Hd' as (_ & ? & _). unfold apart in Ha. lia.
Qed.

(** C29: An inode is an array of bytes of fixed length: [inode_read_at] returns
    the part of the range that lies inside it and changes nothing;
    [inode_write_at] stores the part that lies inside it, returns its length,
    and changes no other inode; while writing is denied it does nothing. *)
Theorem inode_io_correct s i x :
  device_ok (fs_device s) → inodes s !! i = Some x → inode_wf (length (secs s)) (i_data x) →
  (∀ size offset, 0 ≤ offset < 2147483648 → size < 2147483648 →
    ∃ s', inode_read_at out_of_memory i size offset s =
      Ok (take (Z.to_nat size) (drop (Z.to_nat offset) (inode_bytes (secs s) (i_data x))), s') ∧ touch s s' (secs s)) ∧
  (∀ buffer offset, let size := Z.of_nat (length buffer) in
    0 ≤ offset < 2147483648 → size < 2147483648 → Forall is_byte buffer →
    if bool_decide (deny_write_cnt x = 0) then
      ∃ s' L', inode_write_at out_of_memory i buffer size offset s = Ok (written (i_data x) size offset, s') ∧
        touch s s' L' ∧
        inode_bytes L' (i_data x) = splice (inode_bytes (secs s) (i_data x)) (Z.to_nat offset)
          (take (Z.to_nat (written (i_data x) size offset)) buffer) ∧
        ∀ d, inode_wf (length (secs s)) d → apart (i_data x) d → inode_bytes L' d = inode_bytes (secs s) d
    else inode_write_at out_of_memory i buffer size offset s = Ok (0, s)).
Proof.
  intros Hd Hi Hwf. split; [intros; by apply inode_read_at_ok |]. intros buffer offset size Ho Hs Hby.
  case_bool_decide as Hdeny.
  - destruct (inode_write_at_ok i x buffer size offset s) as (s' & L' & E & Ht & Hw); [done || lia.. |].
    exists s', L'. split_and!; [done | done | apply Hw |]. intros d ? ?. by eapply write_effect_apart.
  - unfold inode_write_at, mbind, st_bind. rewrite (get_inode_ok s i x Hi). by rewrite (proj2 (Z.eqb_neq _ _) Hdeny).
Qed.
End inode.

(** An open inode of 600 bytes in sectors 2 and 3 of a device of five. *)
Definition example_inode : inode := Inode 1 1 false 0 (InodeDisk 2 600 INODE_MAGIC (replicate 500 0)).

Definition example_fs : fs ramdisk :=
  Fs ((λ i, replicate 512 (Z.of_nat i)) <$> seq 0 5) (Bitmap 0 []) None [1%positive]
    {[ 1%positive := example_inode ]} ∅ ∅ 2%positive.

Lemma inode_io_correct_witness :
  (∃ s', inode_read_at (λ _, false) 1%positive 4 510 example_fs = Ok ([2; 2; 3; 3], s')) ∧
  (∃ s', inode_write_at (λ _, false) 1%positive [7; 8; 9] 3 598 example_fs = Ok (2, s')).
Proof.
  assert (@device_ok _ ramdisk_device ramdisk_laws (fs_device example_fs)) as Hd.
  { split; [done |]. apply Forall_fmap, Forall_forall. intros i Hi%elem_of_seq. split; [done |].
    apply Forall_replicate. unfold is_byte. lia. }
  destruct (inode_io_correct (D:=ramdisk) (λ _, false) (λ _, eq_refl) example_fs 1%positive example_inode Hd eq_refl)
    as [H1 H2]; [split_and!; [done.. | vm_compute; lia] |]. split.
  - destruct (H1 4 510) as (s' & E & _); [lia.. |]. exists s'. rewrite E. by vm_compute.
  - destruct (H2 [7; 8; 9] 598) as (s' & L' & E & _); [lia | by vm_compute | by repeat constructor |]. by exists s'.
Defined.
