(* ===== verification/FsInv.v ===== *)
(** The invariant of the file system: which inodes are on the disk, what the
    root directory says, and how the objects in memory refer to them. *)
From S2P Require Import Prelude Bytes Bitmap Block Inode FileSys InodeThm.
Local Open Scope Z_scope.

(** ** Counting the entries of a map *)

Section count.
Context {A : Type} (P : A → Prop) `{∀ x, Decision (P x)}.
Implicit Types m : gmap loc A.

Definition count m : nat := size (filter (λ p : loc * A, P p.2) m).

Lemma count_insert m f x : m !! f = None → count (<[f := x]> m) = ((if decide (P x) then 1 else 0) + count m)%nat.
Proof.
  intros Hf. unfold count. rewrite map_filter_insert. cbn. case_decide.
  - rewrite map_size_insert_None; [done |]. by rewrite map_lookup_filter, Hf.
  - by rewrite delete_id by done.
Qed.

Lemma count_delete m f x : m !! f = Some x → count m = ((if decide (P x) then 1 else 0) + count (delete f m))%nat.
Proof.
  intros Hf. rewrite <-(insert_delete_id m f x Hf) at 1. apply count_insert. apply lookup_delete_eq.
Qed.

Lemma count_update m f x y :
  m !! f = Some x →
  (count (<[f := y]> m) + (if decide (P x) then 1 else 0) = count m + (if decide (P y) then 1 else 0))%nat.
Proof.
  intros Hf. rewrite (count_delete m f x Hf). rewrite <-insert_delete_eq, count_insert by apply lookup_delete_eq. lia.
Qed.

Lemma count_empty : count ∅ = 0%nat.
Proof. unfold count. by rewrite map_filter_empty. Qed.
Lemma count_le m : (count m ≤ size m)%nat.
Proof.
  induction m as [|f x m Hf IH] using map_ind; [by rewrite count_empty |].
  rewrite count_insert, map_size_insert_None by done. case_decide; lia.
Qed.

Lemma count_pos m f x : m !! f = Some x → P x → (0 < count m)%nat.
Proof. intros Hf Hx. rewrite (count_delete m f x Hf), decide_True by done. lia. Qed.

Lemma count_elem m : (0 < count m)%nat → ∃ f x, m !! f = Some x ∧ P x.
Proof.
  unfold count. intros Hm. destruct (map_choose (filter (λ p, P p.2) m)) as (f & x & [Hf Hx]%map_lookup_filter_Some).
  - intros E. rewrite E in Hm. cbn in Hm. rewrite map_size_empty in Hm. lia.
  - by exists f, x.
Qed.

End count.

(** ** Inodes on disk *)

Definition inode_disk_ok (d : inode_disk) : Prop :=
  0 ≤ d_start d < 4294967296 ∧ 0 ≤ d_length d < 2147483648 ∧ 0 ≤ d_magic d < 4294967296 ∧
  length (d_unused d) = 500%nat ∧ Forall is_byte (d_unused d).

Lemma inode_disk_of_bytes d : inode_disk_ok d → inode_disk_of (inode_disk_bytes d) = d.
Proof.
  intros (? & ? & ? & ? & ?). destruct d as [st len mg un]. cbn [d_start d_length d_magic d_unused] in *.
  unfold inode_disk_of, inode_disk_bytes; cbn [d_start d_length d_magic d_unused].
  replace (take 4 (bytes_of_u32 st ++ _)) with (bytes_of_u32 st) by done.
  replace (take 4 (drop 4 _)) with (bytes_of_u32 len) by done.
  replace (take 4 (drop 8 _)) with (bytes_of_u32 mg) by done.
  replace (drop 12 _) with un by done. rewrite !bytes_of_u32_inv by lia. by rewrite i32_id by lia.
Qed.

Lemma inode_disk_sector d : inode_disk_ok d → is_sector (inode_disk_bytes d).
Proof.
  intros (? & ? & ? & Hl & ?). unfold inode_disk_bytes. split.
  - rewrite !length_app, Hl. done.
  - rewrite !Forall_app. split_and!; [apply bytes_of_u32_byte.. | done].
Qed.

(** The sectors that inode number [k] uses: its own and its data. *)
Definition uses (k : Z) (d : inode_disk) (j : Z) : Prop :=
  j = k ∨ d_start d ≤ j < d_start d + Z.of_nat (data_cnt d).

#[export] Instance uses_dec k d j : Decision (uses k d j).
Proof. unfold uses. apply _. Defined.

(** ** Directory entries *)

Definition name_ok (nm : list Z) : Prop := nm ≠ [] ∧ (length nm ≤ 14)%nat ∧ Forall (λ c, 0 < c < 256) nm.

#[export] Instance name_ok_dec nm : Decision (name_ok nm).
Proof. unfold name_ok. apply _. Defined.

(** Entry [e] names [nm], and inode [k]. *)
Definition names (e : list Z) (nm : list Z) (k : Z) : Prop :=
  name_ok nm ∧ take (S (length nm)) (de_name e) = nm ++ [0] ∧ de_sector e = k.

Definition slot (B : list Z) (j : nat) : list Z := take 20 (drop (20 * j) B).

(** The directory whose bytes are [B] maps the names to inodes as [T] does. *)
Record dir_repr (B : list Z) (m : nat) (T : gmap (list Z) Z) : Prop := {
  dr_length : length B = (20 * m)%nat;
  dr_slot j : (j < m)%nat → de_in_use (slot B j) = true → ∃ nm k, names (slot B j) nm k ∧ T !! nm = Some k;
  dr_entry nm k : T !! nm = Some k → ∃ j, (j < m)%nat ∧ de_in_use (slot B j) = true ∧ names (slot B j) nm k;
  dr_unique nm k1 k2 j1 j2 : (j1 < m)%nat → (j2 < m)%nat →
    de_in_use (slot B j1) = true → de_in_use (slot B j2) = true →
    names (slot B j1) nm k1 → names (slot B j2) nm k2 → j1 = j2;
}.

Section inv.
Context {D : Type} `{!Device D} `{!DeviceLaws D}.
Implicit Types s : fs D.

(** How many files, directories and pointers of the running operation ([H])
    refer to an open inode, and how many files deny writes to it. *)
Definition held (H : list loc) (i : loc) : nat := length (filter (i =.) H).
Definition refs s (i : loc) : nat := count (λ x, f_inode x = i) (files s) + count (λ x, dir_inode x = i) (dirs s).
Definition denies s (i : loc) : nat := count (λ x, f_inode x = i ∧ f_deny_write x = true) (files s).

(** [I] maps the numbers of the inodes on the disk to their contents; [T] is
    the root directory; [H] are the inode pointers, and [K] the numbers of
    inodes without a name, that the running operation holds. *)
Record core s (I : gmap Z inode_disk) (T : gmap (list Z) Z) (H : list loc) (K : list Z) : Prop := {
  r_device : device_ok (fs_device s);
  r_map : bitmap_ok (free_map s) ∧ bit_cnt (free_map s) = Z.of_nat (length (secs s));
  r_disk k d : I !! k = Some d → 0 ≤ k < Z.of_nat (length (secs s)) ∧
    secs s !! Z.to_nat k = Some (inode_disk_bytes d) ∧ inode_wf (length (secs s)) d ∧ inode_disk_ok d;
  r_self k d : I !! k = Some d → ¬ (d_start d ≤ k < d_start d + Z.of_nat (data_cnt d));
  r_disjoint k1 d1 k2 d2 j : I !! k1 = Some d1 → I !! k2 = Some d2 → uses k1 d1 j → uses k2 d2 j → k1 = k2;
  r_used k d j : I !! k = Some d → uses k d j → bits_of (free_map s) !! Z.to_nat j = Some true;
  r_open i x : inodes s !! i = Some x → I !! i_sector x = Some (i_data x) ∧
    open_cnt x = Z.of_nat (refs s i + held H i) ∧ 1 ≤ open_cnt x ∧ deny_write_cnt x = Z.of_nat (denies s i);
  r_list : NoDup (open_inodes s) ∧ ∀ i, i ∈ open_inodes s ↔ is_Some (inodes s !! i);
  r_sector i1 i2 x1 x2 : inodes s !! i1 = Some x1 → inodes s !! i2 = Some x2 → i_sector x1 = i_sector x2 → i1 = i2;
  r_file f x : files s !! f = Some x → is_Some (inodes s !! f_inode x) ∧ 0 ≤ f_pos x < 2147483648;
  r_dir f x : dirs s !! f = Some x → is_Some (inodes s !! dir_inode x);
  r_held i : i ∈ H → is_Some (inodes s !! i);
  r_fresh a : (is_Some (inodes s !! a) ∨ is_Some (files s !! a) ∨ is_Some (dirs s !! a)) → (a < next_addr s)%positive;
  r_live k d : I !! k = Some d → k = FREE_MAP_SECTOR ∨ k = ROOT_DIR_SECTOR ∨ (∃ nm, T !! nm = Some k) ∨ k ∈ K ∨
    ∃ i x, inodes s !! i = Some x ∧ i_sector x = k ∧ removed x = true;
  r_removed i x : inodes s !! i = Some x → removed x = true →
    i_sector x ≠ FREE_MAP_SECTOR ∧ i_sector x ≠ ROOT_DIR_SECTOR ∧ i_sector x ∉ K ∧ ∀ nm, T !! nm ≠ Some (i_sector x);
  r_names nm k : T !! nm = Some k → is_Some (I !! k) ∧ k ≠ FREE_MAP_SECTOR ∧ k ≠ ROOT_DIR_SECTOR ∧ k ∉ K;
  r_inj nm1 nm2 k : T !! nm1 = Some k → T !! nm2 = Some k → nm1 = nm2;
  r_pending k : k ∈ K → is_Some (I !! k) ∧ k ≠ FREE_MAP_SECTOR ∧ k ≠ ROOT_DIR_SECTOR;
  r_root : ∃ d m, I !! ROOT_DIR_SECTOR = Some d ∧ dir_repr (inode_bytes (secs s) d) m T;
  r_free_map : ∃ d f x ix, I !! FREE_MAP_SECTOR = Some d ∧ d_length d = bitmap_file_size (free_map s) ∧
    free_map_file s = Some f ∧ files s !! f = Some x ∧ inodes s !! f_inode x = Some ix ∧
    i_sector ix = FREE_MAP_SECTOR ∧ deny_write_cnt ix = 0;
  r_root_deny i x : inodes s !! i = Some x → i_sector x = ROOT_DIR_SECTOR → deny_write_cnt x = 0;
}.

(** The bytes of a file hold the bits of [m]; the rest of the last word is
    free. *)
Definition saved_map (m : bitmap) (l : list Z) : Prop :=
  ∃ b, bitmap_ok b ∧ bit_cnt b = bit_cnt m ∧ bits_of b = bits_of m ∧ l = bitmap_write_bytes b.

(** The free map on the disk is the one in memory. *)
Definition saved s (I : gmap Z inode_disk) : Prop :=
  ∃ d, I !! FREE_MAP_SECTOR = Some d ∧ saved_map (free_map s) (inode_bytes (secs s) d).

Definition repr s I T H K : Prop := core s I T H K ∧ saved s I.

(** The bytes of every inode but the free map's are the same. *)
Definition keeps s s' (I : gmap Z inode_disk) : Prop :=
  ∀ k d, I !! k = Some d → k ≠ FREE_MAP_SECTOR → inode_bytes (secs s') d = inode_bytes (secs s) d.

Lemma keeps_refl s I : keeps s s I.
Proof. done. Qed.

Lemma keeps_trans s1 s2 s3 I : keeps s1 s2 I → keeps s2 s3 I → keeps s1 s3 I.
Proof. intros H1 H2 k d ? ?. rewrite (H2 k d), (H1 k d); done. Qed.

Lemma keeps_secs s s' I : secs s' = secs s → keeps s s' I.
Proof. intros E k d _ _. by rewrite E. Qed.

Lemma core_apart s I T H K k d k' d' : core s I T H K → I !! k = Some d → I !! k' = Some d' → k ≠ k' → apart d d'.
Proof.
  intros Hc Hk Hk' Hne. unfold apart. destruct (decide (data_cnt d = O)); [tauto |]. destruct (decide (data_cnt d' = O)); [tauto |].
  destruct (decide (d_start d ≤ d_start d')).
  - destruct (decide (d_start d + Z.of_nat (data_cnt d) ≤ d_start d')); [tauto |]. exfalso. apply Hne.
    apply (r_disjoint _ _ _ _ _ Hc k d k' d' (d_start d')); [done.. | right; lia | right; lia].
  - destruct (decide (d_start d' + Z.of_nat (data_cnt d') ≤ d_start d)); [tauto |]. exfalso. apply Hne.
    apply (r_disjoint _ _ _ _ _ Hc k d k' d' (d_start d)); [done.. | right; lia | right; lia].
Qed.

(** Only the contents of data sectors change, and not those of the root
    directory. *)
Lemma core_touch s s' I T H K L' :
  core s I T H K → touch s s' L' → length L' = length (secs s) →
  (∀ k d, I !! k = Some d → L' !! Z.to_nat k = secs s !! Z.to_nat k) →
  (∀ d, I !! ROOT_DIR_SECTOR = Some d → inode_bytes L' d = inode_bytes (secs s) d) →
  core s' I T H K.
Proof.
  intros [] (Hd & Es & Hn & Em & Ef & El & Ei & Efs & Eds) Hlen Hk Hroot.
  assert (∀ i, refs s' i = refs s i) as Erefs by (intros; unfold refs; by rewrite Efs, Eds).
  assert (∀ i, denies s' i = denies s i) as Eden by (intros; unfold denies; by rewrite Efs).
  split; rewrite ?Es, ?Hlen, ?Em, ?Ef, ?El, ?Ei, ?Efs, ?Eds; try done.
  - intros k d Hkd. destruct (r_disk0 k d Hkd) as (? & ? & ? & ?). rewrite (Hk k d) by done. auto.
  - intros i x Hi. rewrite Erefs, Eden. by apply r_open0.
  - intros a Ha. specialize (r_fresh0 a Ha). lia.
  - destruct r_root0 as (d & m & Hd1 & Hr). exists d, m. split; [done |]. by rewrite Hroot.
Qed.

(** Writing the bytes of an inode other than the root directory. *)
Lemma core_write s s' I T H K L' k d offset P :
  core s I T H K → touch s s' L' → I !! k = Some d → k ≠ ROOT_DIR_SECTOR →
  write_effect (secs s) d offset P L' → core s' I T H K.
Proof.
  intros Hc Ht Hk Hne Hw. pose proof Hw as (Hl & _ & Ho & _). eapply core_touch; [done.. | |].
  - intros k' d' Hk'. apply Ho. destruct (r_disk _ _ _ _ _ Hc _ _ Hk') as (? & _).
    destruct (r_disk _ _ _ _ _ Hc _ _ Hk) as (_ & _ & (_ & ? & _) & _).
    destruct (decide (d_start d ≤ k' < d_start d + Z.of_nat (data_cnt d))) as [Hin|]; [exfalso | lia].
    assert (k = k') as <-.
    { apply (r_disjoint _ _ _ _ _ Hc k d k' d' k'); [done.. | by right | by left]. }
    by apply (r_self _ _ _ _ _ Hc k d).
  - intros d' Hd'. eapply write_effect_apart; [done | | | by eapply core_apart];
      by eapply (r_disk _ _ _ _ _ Hc).
Qed.

Lemma write_keeps s s' I T H K L' k d offset P :
  core s I T H K → touch s s' L' → I !! k = Some d → write_effect (secs s) d offset P L' →
  ∀ k' d', I !! k' = Some d' → k' ≠ k → inode_bytes (secs s') d' = inode_bytes (secs s) d'.
Proof.
  intros Hc (_ & Es & _) Hk Hw k' d' Hk' Hne. rewrite Es.
  eapply write_effect_apart; [done | | | by eapply core_apart]; by eapply (r_disk _ _ _ _ _ Hc).
Qed.
End inv.
