(* ===== verification/FsAlloc.v ===== *)
(** Allocation on the disk (filesys/free-map.c and [inode_create]): allocated
    sectors were free, the free map on the disk follows the one in memory, and
    a new inode is full of zeros. *)
From S2P Require Import Prelude Bytes Bitmap Block Inode FileSys InodeThm FsInv.
Local Open Scope Z_scope.

(** ** Ranges of bits *)

Definition in_run (l : list bool) (start cnt : Z) (v : bool) : Prop :=
  ∀ j, start ≤ j < start + cnt → l !! Z.to_nat j = Some v.

Lemma run_in_run start cnt v l :
  0 ≤ start → 0 ≤ cnt → start + cnt ≤ Z.of_nat (length l) → run start cnt v l ↔ in_run l start cnt v.
Proof.
  intros Hs Hc Hl. unfold run, slice, in_run. split.
  - intros E j Hj. assert (take (Z.to_nat cnt) (drop (Z.to_nat start) l) !! (Z.to_nat (j - start)) = Some v) as H.
    { rewrite E. apply lookup_replicate_2. lia. }
    rewrite lookup_take_lt, lookup_drop in H by lia. rewrite <-H. f_equal. lia.
  - intros H. apply list_eq. intros j. destruct (decide (j < Z.to_nat cnt)%nat).
    + rewrite lookup_take_lt, lookup_drop, lookup_replicate_2 by lia.
      rewrite <-(H (start + Z.of_nat j)) by lia. f_equal. lia.
    + rewrite lookup_take_ge by lia. symmetry. apply lookup_ge_None_2. rewrite length_replicate. lia.
Qed.

Lemma fill_lookup_Z start cnt v l j :
  0 ≤ start → 0 ≤ cnt → start + cnt ≤ Z.of_nat (length l) → 0 ≤ j < Z.of_nat (length l) →
  fill start cnt v l !! Z.to_nat j = if decide (start ≤ j < start + cnt) then Some v else l !! Z.to_nat j.
Proof. intros. rewrite fill_lookup by lia. by rewrite Z2Nat.id by lia. Qed.

Lemma bitmap_all_ok b start cnt :
  bitmap_ok b → 0 ≤ start → 0 ≤ cnt → start + cnt ≤ bit_cnt b → in_run (bits_of b) start cnt true →
  bitmap_all b start cnt = Ok true.
Proof.
  intros Hb Hs Hc Hle Hr. unfold bitmap_all. rewrite bitmap_contains_ok by done. cbn.
  assert (start + cnt ≤ Z.of_nat (length (bits_of b))) by (rewrite bits_of_length; lia).
  pose proof (proj2 (existsb_run start cnt true (bits_of b) Hs Hc ltac:(done))) as E. cbn [negb] in E.
  rewrite E; [done |]. by apply run_in_run.
Qed.

(** [bitmap_scan_and_flip] for free sectors. *)
Lemma scan_free b cnt :
  bitmap_ok b → 0 ≤ cnt →
  (bitmap_scan_and_flip b 0 cnt false = Ok (BITMAP_ERROR, b) ∧
    ∀ j, 0 ≤ j → j + cnt ≤ bit_cnt b → ¬ in_run (bits_of b) j cnt false) ∨
  ∃ r m, bitmap_scan_and_flip b 0 cnt false = Ok (r, m) ∧ 0 ≤ r ∧ r + cnt ≤ bit_cnt b ∧ r ≠ BITMAP_ERROR ∧
    in_run (bits_of b) r cnt false ∧ (∀ j, 0 ≤ j < r → ¬ in_run (bits_of b) j cnt false) ∧
    bitmap_ok m ∧ bit_cnt m = bit_cnt b ∧ bits_of m = fill r cnt true (bits_of b).
Proof.
  intros Hb Hc. pose proof Hb as (Hn & _). unfold bitmap_scan_and_flip.
  assert (Z.of_nat (length (bits_of b)) = bit_cnt b) as Hl by (rewrite bits_of_length; lia).
  destruct (bitmap_scan_ok b 0 cnt false) as (r & E & [[-> Hno] | (Hr & Hle & Hrun & Hfirst)]); [done | lia.. | |]; rewrite E.
  - left. split; [done |]. intros j Hj Hle Hr. apply (Hno j Hj Hle). apply run_in_run; [done.. | lia | done].
  - right. cbn. assert (r ≠ BITMAP_ERROR) by (unfold BITMAP_ERROR; lia). rewrite (proj2 (Z.eqb_neq _ _)) by done.
    destruct (bitmap_set_multiple_ok b r cnt true) as (m & -> & ? & ? & ?); [done.. |].
    exists r, m. split_and!; try done; [apply run_in_run; [done.. | lia | done] |].
    intros j Hj Hjr. apply (Hfirst j Hj), run_in_run; [lia.. | done].
Qed.

Lemma free_map_bytes b :
  bitmap_ok b → Z.of_nat (length (bitmap_write_bytes b)) = bitmap_file_size b ∧ Forall is_byte (bitmap_write_bytes b).
Proof.
  intros Hb. rewrite bitmap_write_bytes_eq, bytes_of_words_length by done. unfold bitmap_file_size.
  rewrite byte_cnt_eq by done. split; [lia | apply bytes_of_words_byte].
Qed.

(** Writing all the bytes of an inode. *)
Lemma full_write (L : list (list Z)) d B L' :
  Forall is_sector L → inode_wf (length L) d → Z.of_nat (length B) = d_length d → write_effect L d 0 B L' → inode_bytes L' d = B.
Proof.
  intros HL Hwf Hl (_ & _ & _ & ->). pose proof (inode_bytes_length L d HL Hwf).
  unfold splice. cbn [Z.to_nat take app]. by rewrite drop_ge, app_nil_r by lia.
Qed.

Section alloc.
Context {D : Type} `{!Device D} `{!DeviceLaws D} (out_of_memory : loc → bool).
Context (memory_suffices : ∀ a, out_of_memory a = false).
Implicit Types s : fs D.

(** What writing the free map needs of the state; [d] is the free map's
    inode. *)
Definition map_ready s (d : inode_disk) : Prop :=
  device_ok (fs_device s) ∧ bitmap_ok (free_map s) ∧ bit_cnt (free_map s) = Z.of_nat (length (secs s)) ∧
  inode_wf (length (secs s)) d ∧ d_length d = bitmap_file_size (free_map s) ∧
  ∃ f x ix, free_map_file s = Some f ∧ files s !! f = Some x ∧ inodes s !! f_inode x = Some ix ∧
    i_data ix = d ∧ deny_write_cnt ix = 0.

Lemma core_map_ready s I T H K : core s I T H K → ∃ d, I !! FREE_MAP_SECTOR = Some d ∧ map_ready s d.
Proof.
  intros Hc. destruct (r_free_map _ _ _ _ _ Hc) as (d & f & x & ix & Hd & Hl & Hf & Hx & Hix & Hs & Hdeny).
  exists d. split; [done |]. destruct (r_map _ _ _ _ _ Hc).
  split_and!; [apply Hc | done | done | by eapply (r_disk _ _ _ _ _ Hc) | done |].
  exists f, x, ix. split_and!; try done. destruct (r_open _ _ _ _ _ Hc _ _ Hix) as [HI _]. rewrite Hs, Hd in HI. by simplify_eq.
Qed.

Lemma free_map_write_ok s d :
  map_ready s d →
  ∃ s' L', free_map_write out_of_memory s = Ok (true, s') ∧ touch s s' L' ∧
    write_effect (secs s) d 0 (bitmap_write_bytes (free_map s)) L'.
Proof.
  intros (Hdev & Hm & Hc & Hwf & Hl & f & x & ix & Hf & Hx & Hix & Hd & Hdeny).
  destruct (free_map_bytes _ Hm) as [Hbl Hby]. pose proof Hwf as (? & _).
  destruct (inode_write_at_ok out_of_memory memory_suffices (f_inode x) ix (bitmap_write_bytes (free_map s))
    (bitmap_file_size (free_map s)) 0 s) as (s' & L' & E & Ht & Hw); [done | done | by rewrite Hd | lia.. | done | done |].
  exists s', L'. rewrite Hd in *. assert (written d (bitmap_file_size (free_map s)) 0 = bitmap_file_size (free_map s)) as Ew
    by (unfold written; lia). rewrite Ew in *. rewrite take_ge in Hw by lia. split_and!; [| done..].
  unfold free_map_write, file_write_at, get_file, mbind, st_bind, st_get, st_lift. rewrite Hf, Hx. cbn. rewrite E.
  unfold bitmap_write, bitmap_file_size. by rewrite Z.eqb_refl.
Qed.

Lemma map_ready_map s d m :
  map_ready s d → bitmap_ok m → bit_cnt m = bit_cnt (free_map s) → map_ready (set_free_map m s) d.
Proof.
  intros (? & ? & ? & ? & ? & ?) ? E. split_and!; try done; cbn; [by rewrite E |].
  unfold bitmap_file_size in *. by rewrite E.
Qed.

Lemma map_ready_touch s s' d L' : map_ready s d → touch s s' L' → length L' = length (secs s) → map_ready s' d.
Proof.
  intros (? & ? & ? & ? & ? & f & x & ix & ?) (Hd & Es & Hn & Em & Ef & El & Ei & Efs & Eds) Hl.
  unfold map_ready. rewrite Es, Hl, Em, Ef, Ei, Efs. split_and!; try done. by exists f, x, ix.
Qed.

(** Writing the map back after a change. *)
Lemma set_and_write s d m :
  map_ready s d → bitmap_ok m → bit_cnt m = bit_cnt (free_map s) →
  ∃ s' L', free_map_write out_of_memory (set_free_map m s) = Ok (true, s') ∧ touch (set_free_map m s) s' L' ∧
    write_effect (secs s) d 0 (bitmap_write_bytes m) L'.
Proof. intros. apply (free_map_write_ok (set_free_map m s)). by apply map_ready_map. Qed.

Lemma free_map_release_ok s d sector cnt :
  map_ready s d → 0 ≤ sector → 0 ≤ cnt → sector + cnt ≤ bit_cnt (free_map s) →
  in_run (bits_of (free_map s)) sector cnt true →
  ∃ m s' L', free_map_release out_of_memory sector cnt s = Ok (tt, s') ∧ bitmap_ok m ∧
    bit_cnt m = bit_cnt (free_map s) ∧ bits_of m = fill sector cnt false (bits_of (free_map s)) ∧
    touch (set_free_map m s) s' L' ∧ write_effect (secs s) d 0 (bitmap_write_bytes m) L'.
Proof.
  intros Hr Hs Hc Hle Hrun. pose proof Hr as (_ & Hm & _).
  destruct (bitmap_set_multiple_ok (free_map s) sector cnt false) as (m & Em & Hmok & Hmc & Hmb); [done.. |].
  destruct (set_and_write s d m Hr Hmok Hmc) as (s' & L' & E & Ht & Hw). exists m, s', L'. split_and!; [| done..].
  unfold free_map_release, mbind, st_bind, st_get, st_assert, st_lift, st_modify.
  rewrite bitmap_all_ok by done. cbn [assert_that]. rewrite Em, E. done.
Qed.

(** ** The state between steps *)

(** The objects in memory are those of [s], and the disk has its size. *)
Definition quiet s s' : Prop :=
  (next_addr s ≤ next_addr s')%positive ∧ free_map_file s' = free_map_file s ∧ open_inodes s' = open_inodes s ∧
  inodes s' = inodes s ∧ files s' = files s ∧ dirs s' = dirs s ∧ length (secs s') = length (secs s) ∧
  bit_cnt (free_map s') = bit_cnt (free_map s).

Lemma quiet_refl s : quiet s s.
Proof. unfold quiet. split_and!; try done. Qed.

Lemma quiet_trans s1 s2 s3 : quiet s1 s2 → quiet s2 s3 → quiet s1 s3.
Proof. intros (?&?&?&?&?&?&?&?) (?&?&?&?&?&?&?&?). unfold quiet. split_and!; congruence || lia. Qed.

Lemma touch_quiet s s' L' : touch s s' L' → length L' = length (secs s) → quiet s s'.
Proof.
  intros (_ & E1 & E2 & E3 & E4 & E5 & E6 & E7 & E8) El. unfold quiet. rewrite E1, E3.
  repeat (split; [assumption |]). reflexivity.
Qed.

Lemma set_map_quiet s m : bit_cnt m = bit_cnt (free_map s) → quiet s (set_free_map m s).
Proof. intros. unfold quiet. split_and!; try done. Qed.

Lemma core_map s I T H K m :
  core s I T H K → bitmap_ok m → bit_cnt m = bit_cnt (free_map s) →
  (∀ k d j, I !! k = Some d → uses k d j → bits_of m !! Z.to_nat j = Some true) → core (set_free_map m s) I T H K.
Proof.
  intros [] Hm Hc Hb. split; try done.
  - cbn. destruct r_map. split; [done | by rewrite Hc].
  - destruct r_free_map as (d & f & x & ix & ? & Hl & Hrest).
    exists d, f, x, ix. split; [done |]. split; [| exact Hrest].
    cbn. unfold bitmap_file_size in *. by rewrite Hc.
Qed.

(** The map written back: [core] becomes [repr]. *)
Lemma core_saved s s' I T H K d L' :
  core s I T H K → I !! FREE_MAP_SECTOR = Some d → touch s s' L' →
  write_effect (secs s) d 0 (bitmap_write_bytes (free_map s)) L' →
  repr s' I T H K ∧ keeps s s' I.
Proof.
  intros Hc Hd Ht Hw. split; [split |].
  - by eapply core_write.
  - exists d. split; [done |]. destruct Ht as (_ & -> & _ & -> & _).
    destruct (core_map_ready _ _ _ _ _ Hc) as (d' & Hd' & _ & Hm & _ & Hwf & Hl & _). assert (d' = d) as -> by congruence.
    exists (free_map s). split_and!; [done.. |]. destruct (free_map_bytes _ Hm) as [Hbl _].
    apply (full_write (secs s)); [apply device_sectors, Hc | done | lia | done].
  - intros k d' Hk Hne. apply (write_keeps s s' I T H K L' FREE_MAP_SECTOR d 0 _ Hc Ht Hd Hw k d' Hk Hne).
Qed.

Lemma bits_in_range s I T H K : core s I T H K → ∀ j (v : bool), bits_of (free_map s) !! Z.to_nat j = Some v → 0 ≤ j →
  j < Z.of_nat (length (secs s)).
Proof.
  intros Hc j v Hj Hp. apply lookup_lt_Some in Hj. rewrite bits_of_length in Hj.
  destruct (r_map _ _ _ _ _ Hc) as [_ <-]. lia.
Qed.

Lemma uses_nonneg s I T H K k d j : core s I T H K → I !! k = Some d → uses k d j → 0 ≤ j < bit_cnt (free_map s).
Proof.
  intros Hc Hk Hu. destruct (r_disk _ _ _ _ _ Hc _ _ Hk) as (? & _ & (? & ? & ?) & _).
  destruct (r_map _ _ _ _ _ Hc) as [_ ->]. destruct Hu; lia.
Qed.

(** Setting bits keeps what is in use in use. *)
Lemma fill_used s I T H K r cnt :
  core s I T H K → 0 ≤ r → 0 ≤ cnt → r + cnt ≤ bit_cnt (free_map s) →
  ∀ k d j, I !! k = Some d → uses k d j → fill r cnt true (bits_of (free_map s)) !! Z.to_nat j = Some true.
Proof.
  intros Hc Hr Hcnt Hle k d j Hk Hu. pose proof (uses_nonneg _ _ _ _ _ _ _ _ Hc Hk Hu).
  assert (Z.of_nat (length (bits_of (free_map s))) = bit_cnt (free_map s)) as Hl by (rewrite bits_of_length; lia).
  rewrite fill_lookup_Z by lia. case_decide; [done |]. by apply (r_used _ _ _ _ _ Hc k d).
Qed.

Lemma free_map_allocate_ok s I T H K cnt :
  repr s I T H K → 0 ≤ cnt →
  ∃ o s', free_map_allocate out_of_memory cnt s = Ok (o, s') ∧ repr s' I T H K ∧ quiet s s' ∧ keeps s s' I ∧
    match o with
    | None => free_map s' = free_map s ∧
        ∀ j, 0 ≤ j → j + cnt ≤ bit_cnt (free_map s) → ¬ in_run (bits_of (free_map s)) j cnt false
    | Some r => 0 ≤ r ∧ r + cnt ≤ bit_cnt (free_map s) ∧ in_run (bits_of (free_map s)) r cnt false ∧
        (∀ j, 0 ≤ j < r → ¬ in_run (bits_of (free_map s)) j cnt false) ∧
        bits_of (free_map s') = fill r cnt true (bits_of (free_map s))
    end.
Proof.
  intros [Hc Hsv] Hcnt. pose proof (r_map _ _ _ _ _ Hc) as [Hm Hn].
  unfold free_map_allocate, mbind at 1, st_bind at 1, st_get at 1.
  destruct (scan_free (free_map s) cnt Hm Hcnt) as [[E Hno] | (r & m & E & Hr & Hle & Hne & Hrun & Hfirst & Hmok & Hmc & Hmb)].
  - exists None, s. split_and!; [| done | apply quiet_refl | done | done | done].
    unfold mbind, st_bind, st_lift, st_modify. rewrite E. rewrite Z.eqb_refl. cbn. by destruct s.
  - assert (core (set_free_map m s) I T H K) as Hc1.
    { apply core_map; [done.. |]. rewrite Hmb. by apply (fill_used s I T H K). }
    destruct (core_map_ready _ _ _ _ _ Hc) as (d & Hd & Hready).
    destruct (set_and_write s d m Hready Hmok Hmc) as (s' & L' & Ew & Ht & Hw).
    destruct (core_saved _ _ _ _ _ _ _ _ Hc1 Hd Ht Hw) as [Hrep Hk].
    exists (Some r), s'. split_and!; [| exact Hrep | | | done | done | done | done |].
    + unfold mbind, st_bind, st_lift, st_modify. rewrite E. cbn [fst snd].
      rewrite (proj2 (Z.eqb_neq _ _)) by done. cbn [negb andb]. change (free_map_file (set_free_map m s)) with (free_map_file s).
      destruct (r_free_map _ _ _ _ _ Hc) as (? & f & ? & ? & ? & ? & Hf & _).
      unfold st_get. cbn. rewrite Hf. cbn. by rewrite Ew.
    + eapply quiet_trans; [by apply set_map_quiet | eapply touch_quiet; [done |]]. apply Hw.
    + intros k dk ? ?. by rewrite (Hk k dk).
    + destruct Ht as (_ & _ & _ & -> & _). done.
Qed.

(** ** Creating an inode *)

Lemma zeros_sector : is_sector (replicate 512 0).
Proof. split; [apply length_replicate |]. by apply Forall_replicate. Qed.

Lemma write_zeros_ok n start s :
  device_ok (fs_device s) → 0 ≤ start → start + Z.of_nat n ≤ Z.of_nat (length (secs s)) →
  ∃ s' L', write_zeros n start s = Ok (tt, s') ∧ touch s s' L' ∧ length L' = length (secs s) ∧
    ∀ j, 0 ≤ j → L' !! Z.to_nat j = if decide (start ≤ j < start + Z.of_nat n) then Some (replicate 512 0) else secs s !! Z.to_nat j.
Proof.
  revert start s. induction n as [|n IH]; intros start s Hd Hs Hle.
  { exists s, (secs s). split_and!; [done | by apply touch_refl | done |]. intros j Hj. by rewrite decide_False by lia. }
  pose proof (device_small s Hd). cbn [write_zeros]. rewrite u32_id by lia.
  destruct (fs_write_ok s start (replicate 512 0)) as (s1 & E1 & Ht1); [done | lia | apply zeros_sector |].
  pose proof Ht1 as (Hd1 & Es1 & _).
  destruct (IH (start + 1) s1) as (s2 & L2 & E2 & Ht2 & Hl2 & Hv2); [done | lia | rewrite Es1, length_insert; lia |].
  exists s2, L2. unfold mbind, st_bind. change (Z.to_nat BLOCK_SECTOR_SIZE) with 512%nat. rewrite E1.
  split_and!; [done | by eapply touch_trans | by rewrite Hl2, Es1, length_insert |].
  intros j Hj. rewrite Hv2 by done. rewrite Es1.
  destruct (decide (start + 1 ≤ j < start + 1 + Z.of_nat n)); [by rewrite decide_True by lia |].
  destruct (decide (j = start)) as [->|].
  - rewrite decide_True, list_lookup_insert_eq by lia. done.
  - rewrite decide_False, list_lookup_insert_ne by lia. done.
Qed.

Definition new_inode (r len : Z) : inode_disk := InodeDisk r len INODE_MAGIC (replicate 500 0).

Lemma new_inode_cnt r len : 0 ≤ len → Z.of_nat (data_cnt (new_inode r len)) = (len + 511) / 512.
Proof. intros. unfold data_cnt, new_inode; cbn. pose proof (Z.div_pos (len + 511) 512). lia. Qed.

Lemma new_inode_ok r len : 0 ≤ r < 4294967296 → 0 ≤ len < 2147483648 → inode_disk_ok (new_inode r len).
Proof.
  intros Hr Hl. split_and!; cbn [new_inode d_start d_length d_magic d_unused]; try (unfold INODE_MAGIC; lia).
  - apply length_replicate.
  - by apply Forall_replicate.
Qed.

(** The bytes of an inode whose sectors are all zero. *)
Lemma zero_bytes L r len :
  inode_wf (length L) (new_inode r len) →
  (∀ j, 0 ≤ j → r ≤ j < r + (len + 511) / 512 → L !! Z.to_nat j = Some (replicate 512 0)) →
  inode_bytes L (new_inode r len) = replicate (Z.to_nat len) 0.
Proof.
  intros Hwf HL. pose proof Hwf as (Hlen & Hr & _). cbn in Hlen, Hr. pose proof (new_inode_cnt r len ltac:(lia)) as Hc.
  set (d := new_inode r len) in *. unfold inode_bytes.
  assert (inode_area L d = replicate (data_cnt d) (replicate 512 0)) as ->.
  { apply list_eq. intros j. destruct (decide (j < data_cnt d)%nat).
    - rewrite area_lookup, lookup_replicate_2 by done. cbn [d_start d new_inode].
      rewrite <-(Nat2Z.id (Z.to_nat r + j)). apply HL; lia.
    - unfold inode_area. rewrite lookup_take_ge by lia. symmetry. apply lookup_ge_None_2. rewrite length_replicate. lia. }
  pose proof (data_cnt_le d ltac:(cbn; lia)) as Hdl. cbn [d_length d new_inode] in *.
  revert Hdl. generalize (data_cnt d) (Z.to_nat len). clear. intros n l Hl.
  assert (concat (replicate n (replicate 512 0)) = replicate (512 * n) 0) as ->.
  { clear. induction n; [done |]. rewrite replicate_S. cbn [concat]. rewrite IHn, <-replicate_add. f_equal. lia. }
  rewrite take_replicate. f_equal. lia.
Qed.

(** What [inode_create] writes once it has the sectors. *)
Lemma write_inode_ok s k r len :
  device_ok (fs_device s) → 0 ≤ k < Z.of_nat (length (secs s)) → 0 ≤ len ≤ 2147483135 →
  0 ≤ r → r + (len + 511) / 512 ≤ Z.of_nat (length (secs s)) → ¬ (r ≤ k < r + (len + 511) / 512) →
  ∃ s1 s2 L', fs_write k (inode_disk_bytes (new_inode r len)) s = Ok (tt, s1) ∧
    write_zeros (Z.to_nat ((len + 511) / 512)) r s1 = Ok (tt, s2) ∧ touch s s2 L' ∧ length L' = length (secs s) ∧
    L' !! Z.to_nat k = Some (inode_disk_bytes (new_inode r len)) ∧
    (∀ j, 0 ≤ j → ¬ uses k (new_inode r len) j → L' !! Z.to_nat j = secs s !! Z.to_nat j) ∧
    inode_wf (length (secs s)) (new_inode r len) ∧ inode_bytes L' (new_inode r len) = replicate (Z.to_nat len) 0.
Proof.
  intros Hd Hk Hlen Hr Hle Hself. pose proof (device_small s Hd). assert (0 ≤ (len + 511) / 512) by (apply Z.div_pos; lia).
  pose proof (new_inode_cnt r len ltac:(lia)) as Hc.
  destruct (fs_write_ok s k (inode_disk_bytes (new_inode r len))) as (s1 & E1 & Ht1); [done.. | apply inode_disk_sector, new_inode_ok; lia |].
  pose proof Ht1 as (Hd1 & Es1 & _).
  destruct (write_zeros_ok (Z.to_nat ((len + 511) / 512)) r s1) as (s2 & L' & E2 & Ht2 & Hl2 & Hv2);
    [done | lia | rewrite Es1, length_insert; lia |].
  rewrite Es1, length_insert in Hl2. rewrite Z2Nat.id in Hv2 by lia.
  assert (inode_wf (length (secs s)) (new_inode r len)) as Hwf.
  { split_and!; cbn [d_length d_start new_inode]; lia. }
  exists s1, s2, L'. split_and!; try done.
  - by eapply touch_trans.
  - rewrite Hv2, decide_False by lia. rewrite Es1, list_lookup_insert_eq by lia. done.
  - intros j Hj Hnu. unfold uses in Hnu. rewrite Hc in Hnu. cbn [d_start new_inode] in Hnu.
    rewrite Hv2, decide_False, Es1 by lia. rewrite list_lookup_insert_ne by lia. done.
  - apply zero_bytes; [by rewrite Hl2 |]. intros j Hj Hin. rewrite Hv2 by done. by rewrite decide_True by lia.
Qed.

(** A new inode [d], number [k], on sectors that no inode uses. *)
Lemma core_add s s' I T H K k d L' :
  core s I T H K → 0 ≤ k < Z.of_nat (length (secs s)) → k ≠ FREE_MAP_SECTOR → k ≠ ROOT_DIR_SECTOR →
  inode_wf (length (secs s)) d → inode_disk_ok d → ¬ (d_start d ≤ k < d_start d + Z.of_nat (data_cnt d)) →
  (∀ k' d' j, I !! k' = Some d' → uses k' d' j → ¬ uses k d j) →
  (∀ j, uses k d j → bits_of (free_map s) !! Z.to_nat j = Some true) →
  touch s s' L' → length L' = length (secs s) → L' !! Z.to_nat k = Some (inode_disk_bytes d) →
  (∀ j, 0 ≤ j → ¬ uses k d j → L' !! Z.to_nat j = secs s !! Z.to_nat j) →
  I !! k = None ∧ core s' (<[k := d]> I) T H (k :: K) ∧
  ∀ k' d', I !! k' = Some d' → inode_bytes (secs s') d' = inode_bytes (secs s) d'.
Proof.
  intros Hc Hk Hk0 Hk1 Hwf Hok Hself Hdis Hbits Ht Hl Hkd Hrest.
  assert (I !! k = None) as HIk.
  { destruct (I !! k) as [d'|] eqn:E; [exfalso | done]. apply (Hdis k d' k E); by left. }
  assert (∀ k' d', I !! k' = Some d' → inode_bytes L' d' = inode_bytes (secs s) d') as Hbytes.
  { intros k' d' Hk'. destruct (r_disk _ _ _ _ _ Hc _ _ Hk') as (? & _ & Hwf' & _). apply same_area; [done.. |].
    intros j Hj. pose proof Hwf' as (_ & ? & _). rewrite <-(Nat2Z.id j). apply Hrest; [lia |].
    apply (Hdis k' d'); [done |]. right. lia. }
  split; [done |]. assert (core s' I T H K) as Hc'.
  { eapply core_touch; [done.. | |].
    - intros k' d' Hk'. destruct (r_disk _ _ _ _ _ Hc _ _ Hk') as (? & _). apply Hrest; [lia |].
      apply (Hdis k' d'); [done | by left].
    - intros d' Hd'. by apply (Hbytes ROOT_DIR_SECTOR). }
  destruct Ht as (_ & Es & _ & Em & _).
  split; [| by rewrite Es]. clear Hc. destruct Hc'. split; try done.
  - intros k' d' [[<- <-]|[? Hk']]%lookup_insert_Some; [| by apply r_disk].
    rewrite Es, Hl, Hkd. done.
  - intros k' d' [[<- <-]|[? Hk']]%lookup_insert_Some; [done | by apply r_self].
  - intros k1 d1 k2 d2 j [[<- <-]|[? Hk1']]%lookup_insert_Some [[<- <-]|[? Hk2]]%lookup_insert_Some Hu1 Hu2; [done | | |].
    + by destruct (Hdis k2 d2 j).
    + by destruct (Hdis k1 d1 j).
    + by apply (r_disjoint k1 d1 k2 d2 j).
  - intros k' d' j [[<- <-]|[? Hk']]%lookup_insert_Some Hu; [rewrite Em; by apply Hbits | by apply (r_used k' d')].
  - intros i x Hi. destruct (r_open i x Hi) as [HI ?]. split; [| done]. rewrite lookup_insert_ne; [done | congruence].
  - intros k' d' [[<- <-]|[? Hk']]%lookup_insert_Some; [do 3 right; left; left |].
    destruct (r_live k' d' Hk') as [?|[?|[?|[?|?]]]]; [by left | by right; left | by right; right; left | | by do 4 right].
    do 3 right. left. by right.
  - intros i x Hi Hr. destruct (r_removed i x Hi Hr) as (? & ? & HK & ?). split_and!; try done.
    destruct (r_open i x Hi) as [HI _]. intros [E|?]%elem_of_cons; [congruence | done].
  - intros nm k' Hnm. destruct (r_names nm k' Hnm) as ([d' HI] & ? & ? & HK). split_and!; try done.
    + apply lookup_insert_is_Some. destruct (decide (k = k')); [by left | right; split; [done | by eexists]].
    + intros [E|?]%elem_of_cons; [congruence | done].
  - intros k' [->|Hk']%elem_of_cons; [by rewrite lookup_insert_eq |].
    destruct (r_pending k' Hk') as ([d' HI] & ? & ?). split_and!; try done.
    apply lookup_insert_is_Some. destruct (decide (k = k')); [by left | right; split; [done | by eexists]].
  - destruct r_root as (d' & m & HI & ?). exists d', m. by rewrite lookup_insert_ne by done.
  - destruct r_free_map as (d' & f & x & ix & HI & ?). exists d', f, x, ix. by rewrite lookup_insert_ne by done.
Qed.

(** The sector [k] is allocated but not used by any inode. *)
Definition reserved s (I : gmap Z inode_disk) (k : Z) : Prop :=
  0 ≤ k ∧ bits_of (free_map s) !! Z.to_nat k = Some true ∧ ∀ k' d', I !! k' = Some d' → ¬ uses k' d' k.

Lemma inode_create_ok s I T H K k len :
  repr s I T H K → reserved s I k → 0 ≤ len ≤ 2147483135 →
  ∃ (r : bool) s', inode_create out_of_memory k len s = Ok (r, s') ∧ quiet s s' ∧ keeps s s' I ∧
    if r then ∃ d, I !! k = None ∧ repr s' (<[k := d]> I) T H (k :: K) ∧ d_length d = len ∧
        inode_bytes (secs s') d = replicate (Z.to_nat len) 0
    else repr s' I T H K ∧ reserved s' I k ∧
      ∀ j, 0 ≤ j → j + (len + 511) / 512 ≤ bit_cnt (free_map s) →
        ¬ in_run (bits_of (free_map s)) j ((len + 511) / 512) false.
Proof.
  intros Hrep (Hk & Hkbit & Hkfree) Hlen. pose proof Hrep as [Hc Hsv].
  assert (k ≠ FREE_MAP_SECTOR ∧ k ≠ ROOT_DIR_SECTOR) as [Hk0 Hk1].
  { split; intros ->.
    - destruct (core_map_ready _ _ _ _ _ Hc) as (d & Hd & _). apply (Hkfree _ d Hd). by left.
    - destruct (r_root _ _ _ _ _ Hc) as (d & ? & Hd & _). apply (Hkfree _ d Hd). by left. }
  pose proof (bits_in_range _ _ _ _ _ Hc k true Hkbit Hk).
  unfold inode_create, mbind, st_bind, st_assert, st_lift. destruct (Z.leb_spec 0 len); [| lia]. cbn [assert_that].
  destruct (fs_malloc_ok out_of_memory memory_suffices s) as (s0 & E0 & Ht0 & _); [apply Hc |]. rewrite E0.
  assert (bytes_to_sectors len = (len + 511) / 512) as Ecnt.
  { rewrite <-(new_inode_cnt 0 len) by lia. by apply (bytes_to_sectors_ok (new_inode 0 len)). }
  assert (length (secs s0) = length (secs s)) as Hl0 by (destruct Ht0 as (_ & -> & _); done).
  assert (repr s0 I T H K) as Hrep0.
  { split.
    - eapply core_touch; [done.. |]. by intros. 
    - destruct Hsv as (d & Hd & Hs). exists d. destruct Ht0 as (_ & -> & _ & -> & _). done. }
  assert (free_map s0 = free_map s) as Em0 by apply Ht0.
  assert (quiet s s0) as Hq0 by (by eapply touch_quiet).
  assert (keeps s s0 I) as Hkeep0 by (apply keeps_secs; apply Ht0).
  rewrite Ecnt. assert (0 ≤ (len + 511) / 512) by (apply Z.div_pos; lia).
  destruct (free_map_allocate_ok s0 I T H K ((len + 511) / 512) Hrep0) as (o & s1 & E1 & Hrep1 & Hq1 & Hkeep1 & Ho); [done |].
  rewrite E1, ?Em0 in *. destruct o as [r|].
  2: { exists false, s1. split_and!; [done | by eapply quiet_trans | by eapply keeps_trans | done | | apply Ho].
       split; [done |]. destruct Ho as [-> _]. by rewrite ?Em0. }
  destruct Ho as (Hr & Hle & Hrun & _ & Hbits). pose proof Hrep1 as [Hc1 Hsv1].
  pose proof (r_map _ _ _ _ _ Hc) as [Hm Hn].
  assert (length (secs s1) = length (secs s)) as Hl1 by (rewrite <-Hl0; apply Hq1).
  assert (Z.of_nat (length (bits_of (free_map s))) = bit_cnt (free_map s)) as Hbl.
  { rewrite bits_of_length. destruct Hm. lia. }
  pose proof (device_small _ (r_device _ _ _ _ _ Hc)).
  assert (¬ (r ≤ k < r + (len + 511) / 512)) as Hself.
  { intros Hin. specialize (Hrun k Hin). congruence. }
  destruct (write_inode_ok s1 k r len) as (s2 & s3 & L3 & E2 & E3 & Ht3 & Hl3 & HL3 & Hrest & Hwf & Hzero);
    [apply Hc1 | lia.. | done |].
  change (InodeDisk r len INODE_MAGIC (replicate 500 0)) with (new_inode r len).
  rewrite E2, E3. pose proof (new_inode_cnt r len ltac:(lia)) as Ec. unfold mret, st_ret.
  assert (∀ j, uses k (new_inode r len) j ↔ j = k ∨ r ≤ j < r + (len + 511) / 512) as Huses by (intros; unfold uses; by rewrite Ec).
  destruct (core_add s1 s3 I T H K k (new_inode r len) L3) as (HIk & Hc3 & Hby); try done.
  - by rewrite Hl1.
  - apply new_inode_ok; lia.
  - by rewrite Ec.
  - intros k' d' j Hk' Hu [->|Hj]%Huses; [by apply (Hkfree k' d') |].
    specialize (Hrun j Hj). pose proof (r_used _ _ _ _ _ Hc k' d' j Hk' Hu). congruence.
  - intros j Hj%Huses. rewrite Hbits, fill_lookup_Z by lia. case_decide; [done |]. by destruct Hj as [->|].
  - exists true, s3. split_and!; [done | | |].
    + eapply quiet_trans; [exact Hq0 |]. eapply quiet_trans; [exact Hq1 |]. by eapply touch_quiet.
    + eapply keeps_trans; [exact Hkeep0 |]. eapply keeps_trans; [exact Hkeep1 |]. intros k' d' Hk' _. by apply (Hby k').
    + exists (new_inode r len). split_and!; [done | split; [done |] | done | by destruct Ht3 as (_ & -> & _)].
      destruct Hsv1 as (d & Hd & Hs). exists d. rewrite lookup_insert_ne by done. split; [done |].
      rewrite (Hby _ _ Hd). destruct Ht3 as (_ & _ & _ & -> & _). done.
Qed.
End alloc.
