(* ===== verification/FsOpen.v ===== *)
(** Opening and closing inodes, files and directories (filesys/inode.c,
    filesys/file.c, filesys/directory.c): the counts of references are exact,
    and the sectors of a removed inode are released with its last reference. *)
From S2P Require Import Prelude Bytes Bitmap Block Inode FileSys InodeThm FsInv FsAlloc.
Local Open Scope Z_scope.

Section open.
Context {D : Type} `{!Device D} `{!DeviceLaws D} (out_of_memory : loc → bool).
Context (memory_suffices : ∀ a, out_of_memory a = false).
Implicit Types s : fs D.
#[local] Arguments held : simpl never.
#[local] Arguments refs : simpl never.
#[local] Arguments denies : simpl never.

Lemma held_cons H i j : held (i :: H) j = ((if decide (j = i) then 1 else 0) + held H j)%nat.
Proof. unfold held. rewrite filter_cons. by repeat case_decide. Qed.

Lemma held_none H i : i ∉ H → held H i = 0%nat.
Proof.
  intros Hn. unfold held. rewrite filter_none; [done |]. by intros x Hx ->.
Qed.

Lemma held_pos H i : i ∈ H → (0 < held H i)%nat.
Proof.
  induction H as [|j H IH]; [by intros ?%elem_of_nil |]. rewrite held_cons.
  intros [->|Hi]%elem_of_cons; [rewrite decide_True by done; lia |]. specialize (IH Hi). lia.
Qed.

Lemma held_le H i : (held H i ≤ length H)%nat.
Proof. apply length_filter. Qed.

Lemma refs_le s i : (refs s i ≤ size (files s) + size (dirs s))%nat.
Proof. unfold refs. pose proof (count_le (λ x, f_inode x = i) (files s)). pose proof (count_le (λ x, dir_inode x = i) (dirs s)). lia. Qed.

Lemma refs_file s f x : files s !! f = Some x → (0 < refs s (f_inode x))%nat.
Proof. intros Hf. unfold refs. pose proof (count_pos (λ y, f_inode y = f_inode x) (files s) f x Hf eq_refl). lia. Qed.

Lemma refs_dir s f x : dirs s !! f = Some x → (0 < refs s (dir_inode x))%nat.
Proof. intros Hf. unfold refs. pose proof (count_pos (λ y, dir_inode y = dir_inode x) (dirs s) f x Hf eq_refl). lia. Qed.

Lemma count_zero {A} (P : A → Prop) `{∀ x, Decision (P x)} (m : gmap loc A) :
  (∀ f x, m !! f = Some x → ¬ P x) → count P m = 0%nat.
Proof.
  intros Hn. unfold count. apply map_size_empty_iff, map_empty. intros f. apply eq_None_not_Some.
  intros [x [Hf Hx]%map_lookup_filter_Some]. by apply (Hn f x).
Qed.

(** An address at which there is nothing has no references. *)
Lemma refs_fresh s I T H K i : core s I T H K → inodes s !! i = None → refs s i = 0%nat ∧ denies s i = 0%nat ∧ held H i = 0%nat.
Proof.
  intros Hc Hi. assert (∀ f x, files s !! f = Some x → f_inode x ≠ i) as Hf.
  { intros f x Hx <-. by destruct (r_file _ _ _ _ _ Hc f x Hx) as [[? ?] _]; simplify_eq. }
  assert (∀ f x, dirs s !! f = Some x → dir_inode x ≠ i) as Hd.
  { intros f x Hx <-. by destruct (r_dir _ _ _ _ _ Hc f x Hx); simplify_eq. }
  unfold refs, denies. rewrite (count_zero _ (files s)), (count_zero _ (dirs s)) by done.
  rewrite count_zero by naive_solver. rewrite held_none; [done |].
  intros Hin. by destruct (r_held _ _ _ _ _ Hc i Hin); simplify_eq.
Qed.

(** ** Changing one open inode *)

(** The references to inode [i] change from [H] to [H'], its counters with
    them. *)
Lemma core_reref s I T H K i x x' H' :
  core s I T H K → inodes s !! i = Some x → i_sector x' = i_sector x → i_data x' = i_data x →
  removed x' = removed x → deny_write_cnt x' = deny_write_cnt x →
  open_cnt x' = Z.of_nat (refs s i + held H' i) → 1 ≤ open_cnt x' →
  (∀ j, j ≠ i → held H' j = held H j) → (∀ j, j ∈ H' → j ∈ H ∨ j = i) →
  core (set_inodes (<[i := x']>) s) I T H' K.
Proof.
  intros [] Hi Es Ed Er Edn Eo Ho Hh Hin.
  assert (∀ j y, <[i := x']> (inodes s) !! j = Some y → ∃ y', inodes s !! j = Some y' ∧ i_sector y = i_sector y' ∧
    i_data y = i_data y' ∧ removed y = removed y' ∧ deny_write_cnt y = deny_write_cnt y') as Hold.
  { intros j y [[<- <-]|[? Hj]]%lookup_insert_Some; [by exists x | by exists y]. }
  assert (∀ j, is_Some (<[i := x']> (inodes s) !! j) ↔ is_Some (inodes s !! j)) as Hdom.
  { intros j. rewrite lookup_insert_is_Some'. split; [intros [<-|?]; [by rewrite Hi | done] | by right]. }
  split; try done; cbn.
  - intros j y Hj. destruct (Hold j y Hj) as (y' & Hy' & -> & -> & _ & ->). destruct (r_open j y' Hy') as (? & Eoc & ? & ?).
    split; [done |]. apply lookup_insert_Some in Hj as [[<- <-]|[? Hj]]; [by split_and!; simplify_eq |].
    simplify_eq. rewrite Hh by done. by split_and!.
  - split; [apply r_list |]. intros j. rewrite Hdom. apply r_list.
  - intros i1 i2 x1 x2 H1 H2 E. destruct (Hold _ _ H1) as (y1 & ? & E1 & _). destruct (Hold _ _ H2) as (y2 & ? & E2 & _).
    apply (r_sector i1 i2 y1 y2); [done.. | congruence].
  - intros f y Hf. rewrite Hdom. by apply (r_file f).
  - intros f y Hf. rewrite Hdom. by apply (r_dir f).
  - intros j Hj. rewrite Hdom. destruct (Hin j Hj) as [?| ->]; [by apply r_held | by rewrite Hi].
  - intros a. rewrite Hdom. apply r_fresh.
  - intros k d Hk. destruct (r_live k d Hk) as [?|[?|[?|[?|(j & y & Hj & Hs & Hrm)]]]]; [by left | by right; left | by right; right; left | by do 3 right; left |].
    do 4 right. destruct (decide (j = i)) as [->|]; [exists i, x' | exists j, y]; cbn.
    + rewrite lookup_insert_eq. simplify_eq. split_and!; congruence.
    + by rewrite lookup_insert_ne.
  - intros j y Hj Hrm. destruct (Hold j y Hj) as (y' & Hy' & -> & _ & Erm & _). apply (r_removed j y' Hy'). congruence.
  - destruct r_free_map as (d & f & y & iy & ? & ? & ? & ? & Hiy & ? & ?).
    destruct (decide (f_inode y = i)) as [Ei|]; [exists d, f, y, x' | exists d, f, y, iy]; split_and!; try done.
    + by rewrite Ei, lookup_insert_eq.
    + rewrite Ei in Hiy. congruence.
    + rewrite Ei in Hiy. congruence.
    + by rewrite lookup_insert_ne.
  - intros j y Hj. destruct (Hold j y Hj) as (y' & Hy' & -> & _ & _ & ->). by apply (r_root_deny j).
Qed.

Lemma saved_secs s s' I : saved s I → secs s' = secs s → free_map s' = free_map s → saved s' I.
Proof. intros (d & Hd & Hs) E1 E2. exists d. by rewrite E1, E2. Qed.

(** Few enough references for the counters. *)
Definition few s (H : list loc) : Prop := Z.of_nat (size (files s) + size (dirs s) + length H) < 2147483646.

Lemma inode_reopen_ok s I T H K i x :
  repr s I T H K → inodes s !! i = Some x → few s H →
  let x' := Inode (i_sector x) (open_cnt x + 1) (removed x) (deny_write_cnt x) (i_data x) in
  inode_reopen (Some i) s = Ok (Some i, set_inodes (<[i := x']>) s) ∧ repr (set_inodes (<[i := x']>) s) I T (i :: H) K.
Proof.
  intros [Hc Hs] Hi Hfew x'. destruct (r_open _ _ _ _ _ Hc i x Hi) as (_ & Eo & Hge & _).
  pose proof (refs_le s i). pose proof (held_le H i). unfold few in Hfew.
  unfold inode_reopen, mbind, st_bind. rewrite (get_inode_ok s i x Hi). rewrite i32_id by lia. split; [done |].
  split; [| done]. apply (core_reref s I T H K i x); try done; cbn [open_cnt x'].
  - rewrite Eo, held_cons, decide_True by done. lia.
  - lia.
  - intros j Hj. by rewrite held_cons, decide_False.
  - intros j [->|Hj]%elem_of_cons; [by right | by left].
Qed.

(** ** Opening *)

Lemma find_open_ok s l k :
  (∀ i, i ∈ l → is_Some (inodes s !! i)) →
  ∃ o, find_open l k s = Ok (o, s) ∧
    match o with
    | Some i => ∃ x, i ∈ l ∧ inodes s !! i = Some x ∧ i_sector x = k
    | None => ∀ i x, i ∈ l → inodes s !! i = Some x → i_sector x ≠ k
    end.
Proof.
  induction l as [|i l IH]; intros Hl.
  { exists None. split; [done |]. by intros i x ?%elem_of_nil. }
  destruct (Hl i) as [x Hx]; [left |]. cbn [find_open]. unfold mbind, st_bind. rewrite (get_inode_ok s i x Hx).
  destruct (Z.eqb_spec (i_sector x) k).
  - exists (Some i). split; [done |]. exists x. split_and!; [left | done..].
  - destruct IH as (o & E & Ho); [intros; apply Hl; by right |]. exists o. split; [done |]. destruct o as [j|].
    + destruct Ho as (y & ? & ?). exists y. split; [by right | done].
    + intros j y [->|Hj]%elem_of_cons Hy; [by simplify_eq | by apply (Ho j)].
Qed.

Lemma core_new_inode s I T H K i k d :
  core s I T H K → I !! k = Some d → (∀ j y, inodes s !! j = Some y → i_sector y ≠ k) →
  inodes s !! i = None → files s !! i = None → dirs s !! i = None → (i < next_addr s)%positive →
  core (set_inodes (<[i := Inode k 1 false 0 d]>) (set_open_inodes (i :: open_inodes s) s)) I T (i :: H) K.
Proof.
  intros Hc Hk Hnew Hi Hf Hd Hlt. destruct (refs_fresh _ _ _ _ _ i Hc Hi) as (Hr & Hdn & Hh).
  destruct Hc. split; try done; cbn.
  - intros j y [[<- <-]|[? Hj]]%lookup_insert_Some.
    + cbn. split_and!; [done | | done | change (denies _ i) with (denies s i); by rewrite Hdn]. rewrite held_cons, decide_True by done.
      change (refs _ i) with (refs s i). lia.
    + destruct (r_open j y Hj) as (? & ? & ? & ?). split_and!; try done. by rewrite held_cons, decide_False.
  - destruct r_list as [Hnd Hl]. split.
    + apply NoDup_cons. split; [| done]. intros [? ?]%Hl. congruence.
    + intros j. rewrite elem_of_cons, lookup_insert_is_Some', Hl. naive_solver.
  - intros i1 i2 x1 x2 [[<- <-]|[? H1]]%lookup_insert_Some [[<- <-]|[? H2]]%lookup_insert_Some E; cbn in E; [done | | |].
    + by destruct (Hnew i2 x2).
    + by destruct (Hnew i1 x1).
    + by apply (r_sector i1 i2 x1 x2).
  - intros f x Hx. destruct (r_file f x Hx) as [? ?]. split; [| done]. apply lookup_insert_is_Some'. by right.
  - intros f x Hx. apply lookup_insert_is_Some'. right. by apply (r_dir f).
  - intros j [->|Hj]%elem_of_cons; apply lookup_insert_is_Some'; [by left | right; by apply r_held].
  - intros a [[<-|?]%lookup_insert_is_Some'|?]; [done | apply r_fresh; tauto..].
  - intros k' d' Hk'. destruct (r_live k' d' Hk') as [?|[?|[?|[?|(j & y & Hj & Hs & Hrm)]]]]; [tauto.. |].
    do 4 right. exists j, y. rewrite lookup_insert_ne; [done | congruence].
  - intros j y [[<- <-]|[? Hj]]%lookup_insert_Some Hrm; [done | by apply (r_removed j)].
  - destruct r_free_map as (d' & f & y & iy & ? & ? & ? & ? & Hiy & ? & ?). exists d', f, y, iy.
    split_and!; try done. rewrite lookup_insert_ne; [done | congruence].
  - intros j y [[<- <-]|[? Hj]]%lookup_insert_Some; [done | by apply (r_root_deny j)].
Qed.

(** What opening an inode leaves alone. *)
Definition same_tables s s' : Prop :=
  secs s' = secs s ∧ free_map s' = free_map s ∧ free_map_file s' = free_map_file s ∧ files s' = files s ∧ dirs s' = dirs s.

Lemma inode_open_ok s I T H K k d :
  repr s I T H K → I !! k = Some d → few s H →
  ∃ i s' x, inode_open out_of_memory k s = Ok (Some i, s') ∧ repr s' I T (i :: H) K ∧ same_tables s s' ∧
    inodes s' !! i = Some x ∧ i_sector x = k ∧ (∀ j, j ≠ i → inodes s' !! j = inodes s !! j) ∧
    match inodes s !! i with Some y => removed x = removed y ∧ i_sector y = k | None => removed x = false end.
Proof.
  intros Hrep Hk Hfew. pose proof Hrep as [Hc Hs]. unfold inode_open, mbind at 1, st_bind at 1, st_get at 1.
  destruct (find_open_ok s (open_inodes s) k) as (o & E & Ho); [intros i; apply (r_list _ _ _ _ _ Hc) |].
  unfold mbind at 1, st_bind at 1. rewrite E. destruct o as [i|].
  - destruct Ho as (x & _ & Hx & Hxk). destruct (inode_reopen_ok s I T H K i x Hrep Hx Hfew) as [-> Hr].
    eexists i, _, (Inode (i_sector x) (open_cnt x + 1) (removed x) (deny_write_cnt x) (i_data x)).
    split; [done |]. split; [exact Hr |]. split; [done |]. split; [by apply lookup_insert_eq |]. split; [done |].
    split; [| by rewrite Hx]. intros j Hj. cbn. by rewrite lookup_insert_ne.
  - assert (∀ j y, inodes s !! j = Some y → i_sector y ≠ k) as Hnew.
    { intros j y Hj. apply (Ho j y); [| done]. by apply (r_list _ _ _ _ _ Hc). }
    destruct (fs_malloc_ok out_of_memory memory_suffices s) as (s1 & E1 & Ht1 & Hn1); [apply Hc |].
    set (i := next_addr s) in *. unfold mbind at 1, st_bind at 1. rewrite E1.
    assert (core s1 I T H K) as Hc1 by (eapply core_touch; [done.. |]; by intros).
    pose proof Ht1 as (_ & Es1 & _ & Em1 & Ef1 & El1 & Ei1 & Efs1 & Eds1).
    assert (∀ a, (is_Some (inodes s !! a) ∨ is_Some (files s !! a) ∨ is_Some (dirs s !! a)) → (a < i)%positive) as Hfr
      by (apply (r_fresh _ _ _ _ _ Hc)).
    assert (inodes s !! i = None ∧ files s !! i = None ∧ dirs s !! i = None) as (Hi1 & Hi2 & Hi3).
    { split_and!; apply eq_None_not_Some; intros ?; assert (i < i)%positive by (apply Hfr; tauto); lia. }
    assert (core (set_inodes (<[i := Inode k 1 false 0 d]>) (set_open_inodes (i :: open_inodes s1) s1)) I T (i :: H) K) as Hc2.
    { apply core_new_inode; try done; rewrite ?Ei1, ?Efs1, ?Eds1; try done. rewrite Hn1. lia. }
    destruct (r_disk _ _ _ _ _ Hc k d Hk) as (Hkr & Hkd & _ & Hok).
    unfold mbind, st_bind, st_modify.
    destruct (fs_read_ok (set_open_inodes (i :: open_inodes s1) s1) k (inode_disk_bytes d)) as (s2 & E2 & Ht2);
      [apply Hc1 | lia | by change (secs s1 !! Z.to_nat k = Some (inode_disk_bytes d)); rewrite Es1 |].
    rewrite E2. unfold put_inode, st_modify. rewrite inode_disk_of_bytes by done. cbn.
    eexists i, _, (Inode k 1 false 0 d). split; [done |].
    pose proof Ht2 as (Hd2 & Es2 & Hn2 & Em2 & Ef2 & El2 & Ei2 & Efs2 & Eds2).
    assert (secs s2 = secs s) as Ess by (rewrite Es2, <-Es1; done).
    split; [split |].
    + eapply core_touch; [exact Hc2 | | reflexivity | done | done].
      unfold touch. cbn. rewrite Em2, Ef2, El2, Ei2, Efs2, Eds2. split_and!; try done.
    + apply (saved_secs s); [done.. |]. cbn. rewrite Em2. done.
    + cbn. split_and!; [unfold same_tables; cbn | apply lookup_insert_eq | done | | by rewrite Hi1].
      * split_and!; [done | by rewrite Em2 | by rewrite Ef2 | by rewrite Efs2 | by rewrite Eds2].
      * intros j Hj. rewrite lookup_insert_ne by done. by rewrite Ei2; cbn; rewrite Ei1.
Qed.

(** ** Closing *)

Lemma write_effect_over (L : list (list Z)) d B1 L1 B2 L2 :
  Forall is_sector L → inode_wf (length L) d → Z.of_nat (length B1) = d_length d → length B2 = length B1 →
  write_effect L d 0 B1 L1 → write_effect L1 d 0 B2 L2 → write_effect L d 0 B2 L2.
Proof.
  intros HL Hwf Hl1 Hl2 (l1 & f1 & o1 & b1) (l2 & f2 & o2 & b2). split_and!; [congruence | done | |].
  - intros k Hk. rewrite o2 by done. by apply o1.
  - rewrite b2, b1. pose proof (inode_bytes_length L d HL Hwf) as Hl. unfold splice. cbn [Z.to_nat take app Nat.add].
    rewrite (drop_ge (inode_bytes L d)) by lia. rewrite (drop_ge (inode_bytes L d)) by lia.
    rewrite !app_nil_r, (drop_ge B1) by lia. by rewrite app_nil_r.
Qed.

(** The last reference to [i] goes; the inode's number too if it was
    removed. *)
Lemma core_close s I T H K i x :
  core s I T (i :: H) K → inodes s !! i = Some x → refs s i = 0%nat → held H i = 0%nat →
  core (set_inodes (delete i) (set_open_inodes (filter (λ j, j ≠ i) (open_inodes s)) s))
    (if removed x then delete (i_sector x) I else I) T H K.
Proof.
  intros Hc Hi Hr Hh.
  set (I' := if removed x then delete (i_sector x) I else I).
  assert (∀ k d, I' !! k = Some d → I !! k = Some d) as Hsub.
  { intros k d. unfold I'. destruct (removed x); [by intros [_ ?]%lookup_delete_Some | done]. }
  assert (∀ k, (removed x = true → k ≠ i_sector x) → I' !! k = I !! k) as Hkeep.
  { intros k Hk. unfold I'. destruct (removed x); [| done]. apply lookup_delete_ne. naive_solver. }
  assert (∀ j y, inodes s !! j = Some y → j ≠ i → i_sector y ≠ i_sector x) as Hother.
  { intros j y Hj Hne E. apply Hne. by apply (r_sector _ _ _ _ _ Hc j i y x). }
  assert (∀ f y, files s !! f = Some y → f_inode y ≠ i) as Hfi.
  { intros f y Hf <-. pose proof (refs_file s f y Hf). lia. }
  assert (∀ f y, dirs s !! f = Some y → dir_inode y ≠ i) as Hdi.
  { intros f y Hf <-. pose proof (refs_dir s f y Hf). lia. }
  assert (removed x = true → i_sector x ≠ FREE_MAP_SECTOR ∧ i_sector x ≠ ROOT_DIR_SECTOR ∧ i_sector x ∉ K ∧
    ∀ nm, T !! nm ≠ Some (i_sector x)) as Hrem by (intros; by apply (r_removed _ _ _ _ _ Hc i)).
  destruct Hc. split; try done; cbn.
  - intros k d Hk. by apply r_disk, Hsub.
  - intros k d Hk. by apply r_self, Hsub.
  - intros k1 d1 k2 d2 j H1 H2. apply r_disjoint; by apply Hsub.
  - intros k d j Hk. apply (r_used k d j), Hsub, Hk.
  - intros j y [Hne Hj]%lookup_delete_Some. destruct (r_open j y Hj) as (HI & Eo & ? & ?). split_and!; try done.
    + rewrite Hkeep; [done |]. intros _. by apply (Hother j).
    + by rewrite held_cons, decide_False in Eo.
  - destruct r_list as [Hnd Hl]. split; [by apply NoDup_filter |]. intros j. rewrite list_elem_of_filter, Hl.
    rewrite lookup_delete_is_Some. naive_solver.
  - intros i1 i2 x1 x2 [_ H1]%lookup_delete_Some [_ H2]%lookup_delete_Some. by apply r_sector.
  - intros f y Hf. destruct (r_file f y Hf) as [? ?]. split; [| done]. apply lookup_delete_is_Some. split; [| done].
    intros E. by apply (Hfi f y Hf).
  - intros f y Hf. apply lookup_delete_is_Some. split; [| by apply (r_dir f)]. intros E. by apply (Hdi f y Hf).
  - intros j Hj. apply lookup_delete_is_Some. split; [| apply r_held; by right].
    intros <-. pose proof (held_pos H i Hj). lia.
  - intros a [[_ ?]%lookup_delete_is_Some|?]; apply r_fresh; tauto.
  - intros k d Hk. pose proof (Hsub k d Hk) as Hk'. destruct (r_live k d Hk') as [?|[?|[?|[?|(j & y & Hj & Hs & Hrm)]]]]; [tauto.. |].
    destruct (decide (j = i)) as [->|].
    + exfalso. rewrite Hi in Hj. injection Hj as <-. unfold I' in Hk. rewrite Hrm, <-Hs in Hk. by rewrite lookup_delete_eq in Hk.
    + do 4 right. exists j, y. by rewrite lookup_delete_ne.
  - intros j y [_ Hj]%lookup_delete_Some. by apply (r_removed j).
  - intros nm k Hnm. destruct (r_names nm k Hnm) as (? & ? & ? & ?). split_and!; try done.
    rewrite Hkeep; [done |]. intros Hrm ->. by apply (proj2 (proj2 (proj2 (Hrem Hrm))) nm).
  - intros k Hk. destruct (r_pending k Hk) as (? & ? & ?). split_and!; try done. rewrite Hkeep; [done |].
    intros Hrm ->. by apply (proj1 (proj2 (proj2 (Hrem Hrm)))).
  - destruct r_root as (d & m & Hd & ?). exists d, m. split; [| done]. rewrite Hkeep; [done |].
    intros Hrm E. by apply (proj1 (proj2 (Hrem Hrm))).
  - destruct r_free_map as (d & f & y & iy & Hd & ? & ? & Hf & ? & ? & ?). exists d, f, y, iy. split_and!; try done.
    + rewrite Hkeep; [done |]. intros Hrm E. by apply (proj1 (Hrem Hrm)).
    + rewrite lookup_delete_ne; [done |]. intros E. by apply (Hfi f y Hf).
  - intros j y [_ Hj]%lookup_delete_Some. by apply (r_root_deny j).
Qed.

(** The objects that refer to inodes, replaced. *)
Definition with_refs (F : gmap loc file) (G : gmap loc dir) s : fs D := set_files (λ _, F) (set_dirs (λ _, G) s).

Definition closed_inodes (I : gmap Z inode_disk) (x : inode) : gmap Z inode_disk :=
  if decide (open_cnt x = 1 ∧ removed x = true) then delete (i_sector x) I else I.

(** An inode that is open before and after has the same number. *)
Definition same_sectors s s' : Prop :=
  ∀ j y y', inodes s !! j = Some y → inodes s' !! j = Some y' → i_sector y' = i_sector y.

(** No inode is opened. *)
Definition shrinks s s' : Prop :=
  ∀ j y', inodes s' !! j = Some y' → ∃ y, inodes s !! j = Some y ∧ i_sector y' = i_sector y.

Lemma shrinks_same s s' : shrinks s s' → same_sectors s s'.
Proof. intros H j y y' Hj Hj'. destruct (H j y' Hj') as (z & ? & ?). congruence. Qed.

Lemma same_shrinks s1 s2 s3 : same_sectors s1 s2 → shrinks s2 s3 → same_sectors s1 s3.
Proof. intros H1 H2 j y y' Hj Hj'. destruct (H2 j y' Hj') as (z & Hz & ->). by apply (H1 j). Qed.

Lemma inode_close_ok s F G I T H K i x :
  repr (with_refs F G s) I T (i :: H) K → inodes s !! i = Some x → few (with_refs F G s) H →
  (∀ f, free_map_file s = Some f → files s !! f = F !! f) →
  ∃ s', inode_close out_of_memory (Some i) s = Ok (tt, s') ∧ repr (with_refs F G s') (closed_inodes I x) T H K ∧
    keeps s s' I ∧ files s' = files s ∧ dirs s' = dirs s ∧ free_map_file s' = free_map_file s ∧
    length (secs s') = length (secs s) ∧ shrinks s s'.
Proof.
  intros [Hc Hsv] Hi Hfew Hff. destruct (r_open _ _ _ _ _ Hc i x Hi) as (HI & Eo & Hge & Hdeny).
  rewrite held_cons, decide_True in Eo by done. unfold few in Hfew.
  pose proof (refs_le (with_refs F G s) i). pose proof (held_le H i).
  unfold inode_close, mbind at 1, st_bind at 1. rewrite (get_inode_ok s i x Hi). rewrite i32_id by lia.
  set (x' := Inode (i_sector x) (open_cnt x - 1) (removed x) (deny_write_cnt x) (i_data x)).
  unfold mbind, st_bind, put_inode, st_modify. destruct (Z.eqb_spec (open_cnt x - 1) 0) as [E0|E0].
  2: { eexists. split; [done |]. unfold closed_inodes. rewrite decide_False by lia. split; [split |].
       - apply (core_reref (with_refs F G s) I T (i :: H) K i x x'); try done; cbn [open_cnt x']; [lia.. | |].
         + intros j Hj. by rewrite held_cons, decide_False.
         + intros j Hj. left. by right.
       - done.
       - cbn. split_and!; try done.
         intros j y'. cbn. intros [[<- <-]|[? Hy']]%lookup_insert_Some; [by exists x | by exists y']. }
  assert (refs (with_refs F G s) i = 0%nat ∧ held H i = 0%nat) as [Hr Hh] by lia.
  pose proof (core_close _ I T H K i x Hc Hi Hr Hh) as Hcl. cbn in Hcl.
  assert (∀ m : gmap loc inode, delete i (<[i := x']> m) = delete i m) as Edel by (intros; apply delete_insert_eq).
  assert (∀ l, with_refs F G (set_inodes (delete i) (set_open_inodes l (set_inodes (<[i := x']>) s))) =
    set_inodes (delete i) (set_open_inodes l (with_refs F G s))) as Est.
  { intros l. unfold with_refs, set_inodes, set_open_inodes, set_files, set_dirs. cbn. by rewrite Edel. }
  unfold closed_inodes. destruct (removed x) eqn:Erem.
  2: { rewrite decide_False by (by intros [??]). eexists. split; [done |].
       split; [split; [by rewrite Est | exact Hsv] |]. split_and!; try done.
       intros j y'. cbn. rewrite Edel. intros [_ ?]%lookup_delete_Some. by exists y'. }
  rewrite decide_True by (split; [lia | done]). set (I' := delete (i_sector x) I) in *.
  set (k := i_sector x) in *. set (d := i_data x) in *.
  destruct (r_removed _ _ _ _ _ Hc i x Hi Erem) as (Hk0 & Hk1 & _). fold k in Hk0, Hk1.
  destruct (core_map_ready _ _ _ _ _ Hc) as (d0 & Hd0 & Hdev & Hm & Hmc & Hwf0 & Hl0 & f & fx & ix & Hf & Hfx & Hix & Hdx & Hdenyx).
  assert (f_inode fx ≠ i) as Hfi by (intros <-; pose proof (refs_file (with_refs F G s) f fx Hfx); lia).
  set (s1 := set_open_inodes (filter (λ j, j ≠ i) (open_inodes s)) (set_inodes (<[i := x']>) s)).
  assert (map_ready s1 d0) as Hready.
  { split_and!; try done. exists f, fx, ix. split_and!; try done; cbn.
    - rewrite (Hff f Hf). exact Hfx.
    - by rewrite lookup_insert_ne. }
  change (bit_cnt (free_map s) = Z.of_nat (length (secs s))) in Hmc.
  assert (Z.of_nat (length (bits_of (free_map s))) = bit_cnt (free_map s)) as Hbl by (rewrite bits_of_length; destruct Hm; lia).
  destruct (r_disk _ _ _ _ _ Hc k d HI) as (Hkr & _ & Hwf & Hdok). change (0 ≤ k < Z.of_nat (length (secs s))) in Hkr.
  pose proof Hwf as (Hwl & Hws & Hwe). change (secs (with_refs F G s)) with (secs s) in *.
  pose proof (r_self _ _ _ _ _ Hc k d HI) as Hself.
  destruct (free_map_release_ok out_of_memory memory_suffices s1 d0 k 1) as (m1 & s2 & L1 & E1 & Hm1 & Hc1 & Hb1 & Ht1 & Hw1);
    [done | lia | lia | change (k + 1 ≤ bit_cnt (free_map s)); lia | |].
  { intros j Hj. assert (j = k) as -> by lia. apply (r_used _ _ _ _ _ Hc k d k HI). by left. }
  assert (map_ready s2 d0) as Hready2.
  { eapply map_ready_touch; [by apply map_ready_map | exact Ht1 | apply Hw1]. }
  change (free_map s1) with (free_map s) in *. change (secs s1) with (secs s) in *.
  assert (free_map s2 = m1 ∧ secs s2 = L1) as [Em2 Es2] by (destruct Ht1 as (_ & ? & _ & ? & _); by split).
  destruct (free_map_release_ok out_of_memory memory_suffices s2 d0 (d_start d) (Z.of_nat (data_cnt d)))
    as (m2 & s3 & L2 & E2 & Hm2 & Hc2 & Hb2 & Ht2 & Hw2); [done | lia | lia | rewrite Em2; lia | |].
  { intros j Hj. rewrite Em2, Hb1, fill_lookup_Z by lia. rewrite decide_False by lia.
    apply (r_used _ _ _ _ _ Hc k d j HI). by right. }
  change (free_map_release _ k 1 _) with (free_map_release out_of_memory k 1 s1).
  rewrite E1, bytes_to_sectors_ok by done. rewrite E2. eexists. split; [done |].
  assert (write_effect (secs s) d0 0 (bitmap_write_bytes m2) L2) as Hw.
  { rewrite Es2 in Hw2. destruct (free_map_bytes m1 Hm1) as [B1 _]. destruct (free_map_bytes m2 Hm2) as [B2 _].
    assert (bitmap_file_size m1 = d_length d0) as F1 by (unfold bitmap_file_size in *; by rewrite Hl0, Hc1).
    assert (bitmap_file_size m2 = d_length d0) as F2 by (rewrite <-F1; unfold bitmap_file_size; by rewrite Hc2, Em2).
    eapply write_effect_over; [apply device_sectors, Hdev | done | | | done | exact Hw2]; lia. }
  destruct Ht2 as (Hd3 & Es3 & Hn3 & Em3 & Ef3 & El3 & Ei3 & Efs3 & Eds3).
  destruct Ht1 as (Hd2 & _ & Hn2 & _ & Ef2 & El2 & Ei2 & Efs2 & Eds2).
  cbn in Hn3, Em3, Ef3, El3, Ei3, Efs3, Eds3, Hn2, Ef2, El2, Ei2, Efs2, Eds2.
  assert (repr (with_refs F G (set_inodes (delete i) s3)) I' T H K ∧
    keeps (with_refs F G s) (with_refs F G (set_inodes (delete i) s3)) I') as [Hrep _].
  { set (b := set_inodes _ _) in Hcl.
    apply (core_saved (set_free_map m2 b) _ I' T H K d0 L2); [apply core_map; [exact Hcl | done | change (free_map b) with (free_map s); congruence |] | | | exact Hw].
    - intros k' d' j Hk' Hu. apply lookup_delete_Some in Hk' as [Hne Hk'].
      pose proof (uses_nonneg _ _ _ _ _ _ _ _ Hc Hk' Hu) as Hjr. change (free_map (with_refs F G s)) with (free_map s) in Hjr.
      rewrite Hb2, Em2, fill_lookup_Z, Hb1.
      + rewrite decide_False, fill_lookup_Z by (lia || (intros ?; apply Hne, (r_disjoint _ _ _ _ _ Hc k d k' d' j HI Hk'); [by right | done])).
        rewrite decide_False; [by apply (r_used _ _ _ _ _ Hc k' d') |].
        intros Hin. assert (j = k) as -> by lia. apply Hne, (r_disjoint _ _ _ _ _ Hc k d k' d' k HI Hk'); [by left | done].
      + lia.
      + lia.
      + rewrite Hb1, fill_length; lia.
      + rewrite Hb1, fill_length; lia.
    - unfold I'. by rewrite lookup_delete_ne.
    - unfold touch. cbn. rewrite Em3, Ef3, El3, Ei3, Ef2, El2, Ei2, Edel. split_and!; try done. cbn in *. lia. }
  split; [exact Hrep |]. cbn. rewrite Efs3, Eds3, Ef3, Efs2, Eds2, Ef2. split_and!; try done.
  - intros k' d' Hk' Hne. change (secs (set_inodes (delete i) s3)) with (secs s3). rewrite Es3.
    eapply write_effect_apart; [exact Hw | done | by eapply (r_disk _ _ _ _ _ Hc) | eapply (core_apart _ _ _ _ _ _ _ _ _ Hc Hd0 Hk'); done].
  - change (secs (set_inodes (delete i) s3)) with (secs s3). rewrite Es3. apply Hw.
  - intros j y'. cbn. rewrite Ei3, Ei2, Edel. intros [_ ?]%lookup_delete_Some. by exists y'.
Qed.
End open.
