(* ===== verification/FsFile.v ===== *)
(** Open files (filesys/file.c) and open directories keep the invariant. *)
From S2P Require Import Prelude Bytes Bitmap Block Inode FileSys InodeThm FsInv FsAlloc FsOpen.
Local Open Scope Z_scope.

Section file.
Context {D : Type} `{!Device D} `{!DeviceLaws D} (out_of_memory : loc → bool).
Context (memory_suffices : ∀ a, out_of_memory a = false).
Implicit Types s : fs D.
#[local] Arguments held : simpl never.
#[local] Arguments refs : simpl never.
#[local] Arguments denies : simpl never.

(** ** The tables of files and directories *)

Lemma core_new_file s I T H K i f :
  core s I T (i :: H) K → files s !! f = None → (f < next_addr s)%positive →
  core (set_files (<[f := File i 0 false]>) s) I T H K.
Proof.
  intros Hc Hf Hlt.
  assert (∀ j, refs (set_files (<[f := File i 0 false]>) s) j = ((if decide (j = i) then 1 else 0) + refs s j)%nat) as Er.
  { intros j. unfold refs; cbn. rewrite count_insert by done. cbn. repeat case_decide; simplify_eq; lia. }
  assert (∀ j, denies (set_files (<[f := File i 0 false]>) s) j = denies s j) as Ed.
  { intros j. unfold denies; cbn. rewrite count_insert by done. cbn. case_decide; [by destruct_and? | done]. }
  assert (is_Some (inodes s !! i)) as Hi by (apply (r_held _ _ _ _ _ Hc); left). destruct Hc. split; try done; cbn.
  - intros j x Hj. destruct (r_open j x Hj) as (? & Eo & ? & ?). rewrite Er, Ed. split_and!; try done.
    rewrite Eo, held_cons. case_decide; lia.
  - intros g x [[<- <-]|[? Hg]]%lookup_insert_Some; [split; [done | cbn; lia] | by apply (r_file g)].
  - intros j Hj. apply r_held. by right.
  - intros a [?|[[<-|?]%lookup_insert_is_Some'|?]]; [apply r_fresh; tauto | done | apply r_fresh; tauto..].
  - destruct r_free_map as (d & g & x & ix & ? & ? & ? & ? & ? & ? & ?). exists d, g, x, ix. split_and!; try done.
    rewrite lookup_insert_ne; [done | congruence].
Qed.

Lemma core_new_dir s I T H K i f :
  core s I T (i :: H) K → dirs s !! f = None → (f < next_addr s)%positive →
  core (set_dirs (<[f := Dir i 0]>) s) I T H K.
Proof.
  intros Hc Hf Hlt.
  assert (∀ j, refs (set_dirs (<[f := Dir i 0]>) s) j = ((if decide (j = i) then 1 else 0) + refs s j)%nat) as Er.
  { intros j. unfold refs; cbn. rewrite (count_insert _ (dirs s)) by done. cbn. repeat case_decide; simplify_eq; lia. }
  assert (is_Some (inodes s !! i)) as Hi by (apply (r_held _ _ _ _ _ Hc); left). destruct Hc. split; try done; cbn.
  - intros j x Hj. destruct (r_open j x Hj) as (? & Eo & ? & ?). rewrite Er. split_and!; try done.
    rewrite Eo, held_cons. case_decide; lia.
  - intros g x [[<- <-]|[? Hg]]%lookup_insert_Some; [done | by apply (r_dir g)].
  - intros j Hj. apply r_held. by right.
  - intros a [?|[?|[<-|?]%lookup_insert_is_Some']]; [apply r_fresh; tauto.. | done | apply r_fresh; tauto].
Qed.

Lemma core_drop_file s I T H K f x :
  core s I T H K → files s !! f = Some x → f_deny_write x = false → free_map_file s ≠ Some f →
  core (set_files (delete f) s) I T (f_inode x :: H) K.
Proof.
  intros Hc Hf Hd Hne.
  assert (∀ j, refs s j = ((if decide (j = f_inode x) then 1 else 0) + refs (set_files (delete f) s) j)%nat) as Er.
  { intros j. unfold refs; cbn. rewrite (count_delete _ (files s) f x Hf). repeat case_decide; simplify_eq; lia. }
  assert (∀ j, denies (set_files (delete f) s) j = denies s j) as Ed.
  { intros j. unfold denies; cbn. rewrite (count_delete _ (files s) f x Hf). case_decide; [| done]. destruct_and?. congruence. }
  pose proof (r_file _ _ _ _ _ Hc f x Hf) as [Hi _]. destruct Hc. split; try done; cbn.
  - intros j y Hj. destruct (r_open j y Hj) as (? & Eo & ? & ?). rewrite Ed. split_and!; try done.
    rewrite Eo, held_cons, Er. case_decide; lia.
  - intros g y [_ Hg]%lookup_delete_Some. by apply (r_file g).
  - intros j [->|Hj]%elem_of_cons; [done | by apply r_held].
  - intros a [?|[[_ ?]%lookup_delete_is_Some|?]]; apply r_fresh; tauto.
  - destruct r_free_map as (d & g & y & ix & ? & ? & Hg & ? & ? & ? & ?). exists d, g, y, ix. split_and!; try done.
    rewrite lookup_delete_ne; [done | congruence].
Qed.

Lemma core_drop_dir s I T H K f x :
  core s I T H K → dirs s !! f = Some x → core (set_dirs (delete f) s) I T (dir_inode x :: H) K.
Proof.
  intros Hc Hf.
  assert (∀ j, refs s j = ((if decide (j = dir_inode x) then 1 else 0) + refs (set_dirs (delete f) s) j)%nat) as Er.
  { intros j. unfold refs; cbn. rewrite (count_delete _ (dirs s) f x Hf). repeat case_decide; simplify_eq; lia. }
  pose proof (r_dir _ _ _ _ _ Hc f x Hf) as Hi. destruct Hc. split; try done; cbn.
  - intros j y Hj. destruct (r_open j y Hj) as (? & Eo & ? & ?). split_and!; try done.
    rewrite Eo, held_cons, Er. case_decide; lia.
  - intros g y [_ Hg]%lookup_delete_Some. by apply (r_dir g).
  - intros j [->|Hj]%elem_of_cons; [done | by apply r_held].
  - intros a [?|[?|[_ ?]%lookup_delete_is_Some]]; apply r_fresh; tauto.
Qed.

(** A file's position. *)
Lemma core_file_pos s I T H K f x p :
  core s I T H K → files s !! f = Some x → 0 ≤ p < 2147483648 →
  core (set_files (<[f := File (f_inode x) p (f_deny_write x)]>) s) I T H K.
Proof.
  intros Hc Hf Hp. set (x' := File _ _ _).
  assert (∀ j, refs (set_files (<[f := x']>) s) j = refs s j) as Er.
  { intros j. unfold refs; cbn. pose proof (count_update (λ y, f_inode y = j) (files s) f x x' Hf) as E. cbn in E. lia. }
  assert (∀ j, denies (set_files (<[f := x']>) s) j = denies s j) as Ed.
  { intros j. unfold denies; cbn. pose proof (count_update (λ y, f_inode y = j ∧ f_deny_write y = true) (files s) f x x' Hf) as E. cbn in E. lia. }
  pose proof (r_file _ _ _ _ _ Hc f x Hf) as [Hi _]. destruct Hc. split; try done; cbn.
  - intros j y Hj. rewrite Er, Ed. by apply r_open.
  - intros g y [[<- <-]|[? Hg]]%lookup_insert_Some; [split; [done | done] | by apply (r_file g)].
  - intros a [?|[[<-|?]%lookup_insert_is_Some'|?]]; apply r_fresh; [tauto | rewrite Hf; eauto | tauto..].
  - destruct r_free_map as (d & g & y & ix & ? & ? & Hg & Hy & Hix & ? & ?).
    destruct (decide (g = f)) as [->|].
    + assert (y = x) as -> by congruence. exists d, f, x', ix. split_and!; try done. by apply lookup_insert_eq.
    + exists d, g, y, ix. split_and!; try done. by rewrite lookup_insert_ne.
Qed.

(** Every file that denies writes is a reference. *)
Lemma denies_le s i : (denies s i ≤ refs s i)%nat.
Proof.
  assert (∀ m : gmap loc file, (count (λ z, f_inode z = i ∧ f_deny_write z = true) m ≤ count (λ z, f_inode z = i) m)%nat) as Hm.
  { intros m. induction m as [|g z m Hg IH] using map_ind; [by rewrite !count_empty |].
    rewrite !count_insert by done. repeat case_decide; destruct_and?; try lia; tauto. }
  unfold denies, refs. specialize (Hm (files s)). lia.
Qed.

(** A file starts or stops denying writes to its inode. *)
Lemma core_deny s I T H K f x y b n :
  core s I T H K → files s !! f = Some x → inodes s !! f_inode x = Some y →
  i_sector y ≠ FREE_MAP_SECTOR → i_sector y ≠ ROOT_DIR_SECTOR →
  (n + (if f_deny_write x then 1 else 0) = deny_write_cnt y + (if b : bool then 1 else 0)) →
  core (set_inodes (<[f_inode x := Inode (i_sector y) (open_cnt y) (removed y) n (i_data y)]>)
    (set_files (<[f := File (f_inode x) (f_pos x) b]>) s)) I T H K.
Proof.
  intros Hc Hf Hy Hne Hne1 Hn. set (x' := File _ _ _). set (y' := Inode _ _ _ _ _). set (s' := set_inodes _ _).
  assert (∀ j, refs s' j = refs s j) as Er.
  { intros j. unfold refs; cbn. pose proof (count_update (λ y, f_inode y = j) (files s) f x x' Hf) as E. cbn in E. lia. }
  assert (∀ j, j ≠ f_inode x → denies s' j = denies s j) as Ed.
  { intros j Hj. unfold denies; cbn. pose proof (count_update (λ y, f_inode y = j ∧ f_deny_write y = true) (files s) f x x' Hf) as E.
    cbn in E. rewrite !decide_False in E by naive_solver. lia. }
  assert (Z.of_nat (denies s' (f_inode x)) = n) as Ei.
  { destruct (r_open _ _ _ _ _ Hc _ y Hy) as (_ & _ & _ & Edn). unfold denies in *; cbn.
    pose proof (count_update (λ z, f_inode z = f_inode x ∧ f_deny_write z = true) (files s) f x x' Hf) as E. cbn in E.
    destruct (f_deny_write x), b; repeat case_decide; destruct_and?; try lia; try tauto; try congruence. }
  assert (∀ j z, <[f_inode x := y']> (inodes s) !! j = Some z → ∃ z', inodes s !! j = Some z' ∧ i_sector z = i_sector z' ∧
    i_data z = i_data z' ∧ removed z = removed z' ∧ open_cnt z = open_cnt z') as Hold.
  { intros j z [[<- <-]|[? Hj]]%lookup_insert_Some; [by exists y | by exists z]. }
  assert (∀ j, is_Some (<[f_inode x := y']> (inodes s) !! j) ↔ is_Some (inodes s !! j)) as Hdom.
  { intros j. rewrite lookup_insert_is_Some'. split; [intros [<-|?]; [by rewrite Hy | done] | by right]. }
  pose proof (r_file _ _ _ _ _ Hc f x Hf) as [_ Hp]. destruct Hc. split; try done; cbn.
  - intros j z Hj. destruct (Hold j z Hj) as (z' & Hz' & -> & -> & _ & ->). destruct (r_open j z' Hz') as (? & ? & ? & ?).
    rewrite Er. split_and!; try done. apply lookup_insert_Some in Hj as [[<- <-]|[Hj ?]]; [done | by rewrite Ed by done; simplify_eq].
  - split; [apply r_list |]. intros j. rewrite Hdom. apply r_list.
  - intros i1 i2 x1 x2 H1 H2 E. destruct (Hold _ _ H1) as (y1 & ? & E1 & _). destruct (Hold _ _ H2) as (y2 & ? & E2 & _).
    apply (r_sector i1 i2 y1 y2); [done.. | congruence].
  - intros g z [[<- <-]|[? Hg]]%lookup_insert_Some; rewrite Hdom; [split; [by exists y | done] | by apply (r_file g)].
  - intros g z Hg. rewrite Hdom. by apply (r_dir g).
  - intros j Hj. rewrite Hdom. by apply r_held.
  - intros a. rewrite Hdom. intros [?|[[<-|?]%lookup_insert_is_Some'|?]]; apply r_fresh; [tauto | rewrite Hf; eauto | tauto..].
  - intros k d Hk. destruct (r_live k d Hk) as [?|[?|[?|[?|(j & z & Hj & Hs & Hrm)]]]]; [tauto.. |].
    do 4 right. destruct (decide (j = f_inode x)) as [->|]; [exists (f_inode x), y' | exists j, z].
    + rewrite lookup_insert_eq. simplify_eq. by split_and!.
    + by rewrite lookup_insert_ne.
  - intros j z Hj Hrm. destruct (Hold j z Hj) as (z' & Hz' & -> & _ & Erm & _). apply (r_removed j z' Hz'). congruence.
  - destruct r_free_map as (d & g & z & iz & ? & ? & Hg & Hz & Hiz & Hs & ?).
    assert (f_inode z ≠ f_inode x) as Hne' by (intros E; rewrite E in Hiz; congruence).
    exists d, g, z, iz. split_and!; try done; rewrite lookup_insert_ne; try done. congruence.
  - intros j z [[<- <-]|[? Hj]]%lookup_insert_Some; [done | by apply (r_root_deny j)].
Qed.

(** ** Opening *)

Lemma fresh_addr s I T H K : core s I T H K →
  inodes s !! next_addr s = None ∧ files s !! next_addr s = None ∧ dirs s !! next_addr s = None.
Proof.
  intros Hc. pose proof (r_fresh _ _ _ _ _ Hc (next_addr s)) as Hfr.
  split_and!; apply eq_None_not_Some; intros ?; assert (next_addr s < next_addr s)%positive by (apply Hfr; tauto); lia.
Qed.

Lemma malloc_repr s I T H K :
  repr s I T H K →
  ∃ s', fs_malloc out_of_memory s = Ok (Some (next_addr s), s') ∧ repr s' I T H K ∧ touch s s' (secs s) ∧
    next_addr s' = Pos.succ (next_addr s).
Proof.
  intros [Hc Hs]. destruct (fs_malloc_ok out_of_memory memory_suffices s) as (s' & E & Ht & En); [apply Hc |].
  exists s'. split_and!; try done. split; [eapply core_touch; [done.. |]; by intros |].
  apply (saved_secs s); [done | apply Ht..].
Qed.

Lemma file_open_ok s I T H K i :
  repr s I T (i :: H) K →
  ∃ f s', file_open out_of_memory (Some i) s = Ok (Some f, s') ∧ repr s' I T H K ∧ files s !! f = None ∧
    files s' = <[f := File i 0 false]> (files s) ∧ dirs s' = dirs s ∧ inodes s' = inodes s ∧ secs s' = secs s ∧
    free_map s' = free_map s ∧ free_map_file s' = free_map_file s.
Proof.
  intros Hrep. destruct (fresh_addr _ _ _ _ _ (proj1 Hrep)) as (_ & Hf & _).
  destruct (malloc_repr s _ _ _ _ Hrep) as (s1 & E1 & [Hc1 Hs1] & Ht1 & En).
  destruct Ht1 as (_ & Es & _ & Em & Ef & _ & Ei & Efs & Eds).
  exists (next_addr s), (set_files (<[next_addr s := File i 0 false]>) s1).
  unfold file_open, mbind, st_bind. rewrite E1. split; [done |]. split.
  - split; [| done]. apply core_new_file; [done | by rewrite Efs | lia].
  - cbn. rewrite Efs, Eds, Ei. split_and!; try done.
Qed.

Lemma dir_open_ok s I T H K i :
  repr s I T (i :: H) K →
  ∃ f s', dir_open out_of_memory (Some i) s = Ok (Some f, s') ∧ repr s' I T H K ∧ dirs s !! f = None ∧
    dirs s' = <[f := Dir i 0]> (dirs s) ∧ files s' = files s ∧ inodes s' = inodes s ∧ secs s' = secs s ∧
    free_map s' = free_map s ∧ free_map_file s' = free_map_file s.
Proof.
  intros Hrep. destruct (fresh_addr _ _ _ _ _ (proj1 Hrep)) as (_ & _ & Hf).
  destruct (malloc_repr s _ _ _ _ Hrep) as (s1 & E1 & [Hc1 Hs1] & Ht1 & En).
  destruct Ht1 as (_ & Es & _ & Em & Ef & _ & Ei & Efs & Eds).
  exists (next_addr s), (set_dirs (<[next_addr s := Dir i 0]>) s1).
  unfold dir_open, mbind, st_bind. rewrite E1. split; [done |]. split.
  - split; [| done]. apply core_new_dir; [done | by rewrite Eds | lia].
  - cbn. rewrite Efs, Eds, Ei. split_and!; try done.
Qed.

(** ** Closing *)

Lemma set_files_refs g s : set_files g s = with_refs (g (files s)) (dirs s) s.
Proof. by destruct s. Qed.

Lemma set_dirs_refs g s : set_dirs g s = with_refs (files s) (g (dirs s)) s.
Proof. by destruct s. Qed.

(** The file [f] is open on inode number [k], which is a user's. *)
Definition file_on s (f : loc) (k : Z) : Prop :=
  ∃ x y, files s !! f = Some x ∧ inodes s !! f_inode x = Some y ∧ i_sector y = k ∧
    k ≠ FREE_MAP_SECTOR ∧ k ≠ ROOT_DIR_SECTOR.

Lemma file_on_not_map s I T H K f k : core s I T H K → file_on s f k → free_map_file s ≠ Some f.
Proof.
  intros Hc (x & y & Hx & Hy & Hk & Hne & _) E.
  destruct (r_free_map _ _ _ _ _ Hc) as (d & g & z & iz & ? & ? & Hg & Hz & Hiz & Hs & _). congruence.
Qed.

Lemma dir_close_ok s I T H K f x :
  repr s I T H K → dirs s !! f = Some x → few s H →
  ∃ s' y, dir_close out_of_memory (Some f) s = Ok (tt, s') ∧ inodes s !! dir_inode x = Some y ∧
    repr s' (closed_inodes I y) T H K ∧ keeps s s' I ∧ files s' = files s ∧ dirs s' = delete f (dirs s) ∧
    shrinks s s'.
Proof.
  intros [Hc Hs] Hf Hfew. destruct (r_dir _ _ _ _ _ Hc f x Hf) as [y Hy].
  pose proof (core_drop_dir s I T H K f x Hc Hf) as Hc'. rewrite set_dirs_refs in Hc'.
  destruct (inode_close_ok out_of_memory memory_suffices s (files s) (delete f (dirs s)) I T H K (dir_inode x) y)
    as (s' & E & Hrep & Hk & Efs & Eds & Ef & _ & Hin); [by split | done | | done |].
  { unfold few in *; cbn. rewrite map_size_delete, Hf. lia. }
  exists (set_dirs (delete f) s'), y. unfold dir_close, get_dir, mbind, st_bind, st_get, st_lift.
  rewrite Hf. cbn [from_option_err]. rewrite E. split; [done |]. rewrite set_dirs_refs, Efs, Eds. by split_and!.
Qed.

Lemma file_allow_write_ok s I T H K f k :
  repr s I T H K → file_on s f k → few s H →
  ∃ s' x, file_allow_write f s = Ok (tt, s') ∧ repr s' I T H K ∧ file_on s' f k ∧ files s !! f = Some x ∧
    files s' = <[f := File (f_inode x) (f_pos x) false]> (files s) ∧ dirs s' = dirs s ∧ secs s' = secs s ∧
    free_map_file s' = free_map_file s ∧
    ∀ j y, inodes s' !! j = Some y → ∃ z, inodes s !! j = Some z ∧ i_sector y = i_sector z ∧ open_cnt y = open_cnt z ∧ removed y = removed z.
Proof.
  intros [Hc Hs] (x & y & Hx & Hy & Hk & Hk0 & Hk1) Hfew.
  unfold file_allow_write, get_file, mbind, st_bind, st_get, st_lift. rewrite Hx. cbn [from_option_err].
  destruct (f_deny_write x) eqn:Hd.
  - destruct (r_open _ _ _ _ _ Hc _ y Hy) as (_ & Eo & _ & Edn).
    pose proof (count_pos (λ z, f_inode z = f_inode x ∧ f_deny_write z = true) (files s) f x Hx (conj eq_refl Hd)) as Hpos.
    fold (denies s (f_inode x)) in Hpos.
    pose proof (denies_le s (f_inode x)) as Hle.
    pose proof (refs_le s (f_inode x)). unfold few in Hfew.
    unfold put_file, inode_allow_write, st_modify, mbind, st_bind, st_assert, st_lift. rewrite (get_inode_ok _ _ y) by done.
    destruct (Z.ltb_spec 0 (deny_write_cnt y)); [| lia]. cbn [assert_that].
    destruct (Z.leb_spec (deny_write_cnt y) (open_cnt y)); [| lia]. cbn [assert_that].
    rewrite i32_id by lia. eexists _, x. split; [done |].
    pose proof (core_deny s I T H K f x y false (deny_write_cnt y - 1) Hc Hx Hy ltac:(congruence) ltac:(congruence) ltac:(rewrite Hd; lia)) as Hc'.
    split; [by split |]. cbn. split_and!; try done.
    + eexists _, _. cbn. rewrite lookup_insert_eq. split; [done |]. cbn. rewrite lookup_insert_eq. by split_and!.
    + intros j z [[<- <-]|[? Hj]]%lookup_insert_Some; [by exists y | by exists z].
  - exists s, x. split_and!; try done; [by exists x, y | | by intros j z ?; exists z].
    symmetry. apply insert_id. rewrite Hx. destruct x; cbn in *. by subst.
Qed.

Lemma file_close_ok s I T H K f k :
  repr s I T H K → file_on s f k → few s H →
  ∃ s' x y, file_close out_of_memory (Some f) s = Ok (tt, s') ∧ files s !! f = Some x ∧ inodes s !! f_inode x = Some y ∧
    repr s' (closed_inodes I y) T H K ∧ keeps s s' I ∧ files s' = delete f (files s) ∧ dirs s' = dirs s ∧ shrinks s s'.
Proof.
  intros Hrep Hon Hfew. destruct (file_allow_write_ok s I T H K f k Hrep Hon Hfew)
    as (s1 & x & E1 & [Hc1 Hs1] & Hon1 & Hx & Efs1 & Eds1 & Es1 & Ef1 & Hin1).
  set (x' := File (f_inode x) (f_pos x) false) in *.
  assert (files s1 !! f = Some x') as Hx1 by (by rewrite Efs1, lookup_insert_eq).
  pose proof (file_on_not_map _ _ _ _ _ _ _ Hc1 Hon1) as Hnm.
  destruct (r_file _ _ _ _ _ Hc1 f x' Hx1) as [[y1 Hy1] _]. destruct (Hin1 _ _ Hy1) as (y & Hy & Ey1 & Ey2 & Ey3).
  pose proof (core_drop_file s1 I T H K f x' Hc1 Hx1 eq_refl Hnm) as Hc'. rewrite set_files_refs in Hc'.
  destruct (inode_close_ok out_of_memory memory_suffices s1 (delete f (files s1)) (dirs s1) I T H K (f_inode x) y1)
    as (s' & E & Hrep' & Hk & Efs & Eds & Ef & _ & Hss); [by split | done | | |].
  { unfold few in *; cbn. rewrite map_size_delete, Hx1, Efs1, Eds1, map_size_insert_Some by (by rewrite Hx). lia. }
  { intros g Hg. rewrite lookup_delete_ne; [done | congruence]. }
  exists (set_files (delete f) s'), x, y. unfold file_close, get_file, mbind, st_bind, st_get, st_lift.
  rewrite E1, Hx1. cbn [from_option_err x' f_inode]. rewrite E. split; [done |].
  rewrite set_files_refs, Efs, Eds. cbn. split_and!; try done.
  - by replace (closed_inodes I y) with (closed_inodes I y1) by (unfold closed_inodes; by rewrite Ey1, Ey2, Ey3).
  - intros k' d' Hk' Hne. change (secs (with_refs _ _ s')) with (secs s'). rewrite (Hk k' d') by done. by rewrite Es1.
  - rewrite Efs1. apply delete_insert_eq.
  - intros j z' Hj'. destruct (Hss j z' Hj') as (z & Hz & ->). destruct (Hin1 j z Hz) as (w & Hw & -> & _). by exists w.
Qed.
End file.
