(* ===== verification/FsDir.v ===== *)
(** The root directory (filesys/directory.c): lookup, addition and removal of
    entries are those of a finite map from names to inode numbers. *)
From S2P Require Import Prelude Bytes Bitmap Block Inode FileSys InodeThm FsInv FsAlloc FsOpen FsFile.
Local Open Scope Z_scope.

(** ** Names in entries *)

Definition c_name (nm : list Z) : Prop := Forall (λ c, 0 < c < 256) nm.

#[export] Instance c_name_dec nm : Decision (c_name nm).
Proof. unfold c_name. apply _. Defined.

Lemma strings_equal_ok a b rest :
  c_name a → c_name b → strings_equal (a ++ [0]) (b ++ 0 :: rest) = Ok (bool_decide (a = b)).
Proof.
  intros Ha. revert b. induction Ha as [|x a Hx Ha IH]; intros b Hb.
  - destruct Hb as [|y b Hy Hb]; [done |]. cbn [app strings_equal]. by destruct (Z.eqb_spec 0 y); [lia |].
  - destruct Hb as [|y b Hy Hb]; cbn [app strings_equal].
    + destruct (Z.eqb_spec x 0); [lia |]. done.
    + destruct (Z.eqb_spec x y) as [->|Hne]; cbn [negb].
      * destruct (Z.eqb_spec y 0); [lia |]. rewrite IH by done. f_equal. apply bool_decide_ext. split; [by intros -> | by intros [= ->]].
      * rewrite bool_decide_false; [done | congruence].
Qed.

Lemma names_prefix e nm k : length e = 20%nat → names e nm k → ∃ rest, drop 4 e = nm ++ 0 :: rest.
Proof.
  intros Hl ((_ & Hn & _) & Ht & _). exists (drop (S (length nm)) (drop 4 e)).
  unfold de_name in Ht. rewrite take_take in Ht. replace (S (length nm) `min` 15)%nat with (S (length nm)) in Ht by lia.
  rewrite cons_middle, app_assoc, <-Ht. symmetry. apply take_drop.
Qed.

Lemma c_name_prefix a b r1 r2 : c_name a → c_name b → a ++ 0 :: r1 = b ++ 0 :: r2 → a = b.
Proof.
  intros Ha. revert b. induction Ha as [|x a Hx Ha IH]; intros b Hb E.
  - destruct Hb as [|y b Hy Hb]; [done |]. injection E as <- _. lia.
  - destruct Hb as [|y b Hy Hb]; injection E as E1 E; [lia |]. f_equal; [done | by apply IH].
Qed.

Lemma names_inj e nm1 k1 nm2 k2 : length e = 20%nat → names e nm1 k1 → names e nm2 k2 → nm1 = nm2 ∧ k1 = k2.
Proof.
  intros Hl H1 H2. destruct (names_prefix e nm1 k1 Hl H1) as [r1 E1]. destruct (names_prefix e nm2 k2 Hl H2) as [r2 E2].
  destruct H1 as ((_ & _ & C1) & _ & <-). destruct H2 as ((_ & _ & C2) & _ & <-). split; [| done].
  eapply (c_name_prefix nm1 nm2); [done.. |]. by rewrite <-E1, <-E2.
Qed.

(** The test of [lookup] on a slot. *)
Lemma entry_is_ok name e nm k :
  length e = 20%nat → c_name name → de_in_use e = true → names e nm k → entry_is name e = Ok (bool_decide (name = nm)).
Proof.
  intros Hl Hname Hu Hn. unfold entry_is. rewrite Hu. destruct (names_prefix e nm k Hl Hn) as [rest ->].
  apply strings_equal_ok; [done |]. apply Hn.
Qed.

(** ** Slots *)

Lemma slot_length B m j : length B = (20 * m)%nat → (j < m)%nat → length (slot B j) = 20%nat.
Proof. intros. unfold slot. rewrite length_take, length_drop. lia. Qed.

Lemma slot_splice B m j j' e :
  length B = (20 * m)%nat → (j < m)%nat → (j' < m)%nat → length e = 20%nat →
  slot (splice B (20 * j) e) j' = if decide (j' = j) then e else slot B j'.
Proof.
  intros HB Hj Hj' He. apply list_eq. intros p. unfold slot. destruct (decide (p < 20)%nat).
  - rewrite lookup_take_lt, lookup_drop, splice_lookup by lia. rewrite He. case_decide as Hin.
    + rewrite decide_True by lia. f_equal. lia.
    + rewrite decide_False by (intros ->; lia). by rewrite lookup_take_lt, lookup_drop by lia.
  - rewrite lookup_take_ge by lia. case_decide; symmetry; [apply lookup_ge_None_2; lia | by rewrite lookup_take_ge by lia].
Qed.

Lemma dir_repr_add B m T j e nm k :
  dir_repr B m T → (j < m)%nat → de_in_use (slot B j) = false → T !! nm = None → names e nm k →
  de_in_use e = true → length e = 20%nat → dir_repr (splice B (20 * j) e) m (<[nm := k]> T).
Proof.
  intros [Hl Hs Ht Hu] Hj Hfree Hnone Hn Huse He.
  assert (∀ j', (j' < m)%nat → slot (splice B (20 * j) e) j' = if decide (j' = j) then e else slot B j') as Hsl
    by (intros; by apply (slot_splice B m)).
  assert (∀ j' k', (j' < m)%nat → de_in_use (slot B j') = true → ¬ names (slot B j') nm k') as Hno.
  { intros j' k' Hj' Hu' Hn'. destruct (Hs j' Hj' Hu') as (nm2 & k2 & Hn2 & ET).
    destruct (names_inj _ _ _ _ _ (slot_length B m j' Hl Hj') Hn' Hn2) as [-> _]. congruence. }
  split.
  - rewrite splice_length; lia.
  - intros j' Hj'. rewrite Hsl by done. case_decide.
    + intros _. exists nm, k. by rewrite lookup_insert_eq.
    + intros Hu'. destruct (Hs j' Hj' Hu') as (nm2 & k2 & Hn2 & ET). exists nm2, k2. split; [done |].
      rewrite lookup_insert_ne; [done | congruence].
  - intros nm2 k2 [[<- <-]|[Hne ET]]%lookup_insert_Some.
    + exists j. rewrite Hsl, decide_True by done. done.
    + destruct (Ht nm2 k2 ET) as (j' & Hj' & Hu' & Hn'). exists j'. rewrite Hsl, decide_False by (done || intros ->; congruence). done.
  - intros nm2 k1 k2 j1 j2 Hj1 Hj2. rewrite !Hsl by done.
    destruct (decide (j1 = j)) as [->|]; [destruct (decide (j2 = j)) as [->|]; [done |] | destruct (decide (j2 = j)) as [->|]].
    + intros _ Hu2 Hn1 Hn2. destruct (names_inj _ _ _ _ _ He Hn Hn1) as [<- _]. by destruct (Hno j2 k2 Hj2 Hu2).
    + intros Hu1 _ Hn1 Hn2. destruct (names_inj _ _ _ _ _ He Hn Hn2) as [<- _]. by destruct (Hno j1 k1 Hj1 Hu1).
    + by apply Hu.
Qed.

Lemma dir_repr_remove B m T j e nm k :
  dir_repr B m T → (j < m)%nat → de_in_use (slot B j) = true → names (slot B j) nm k →
  de_in_use e = false → length e = 20%nat → dir_repr (splice B (20 * j) e) m (delete nm T).
Proof.
  intros [Hl Hs Ht Hu] Hj Huse Hn Hfree He.
  assert (∀ j', (j' < m)%nat → slot (splice B (20 * j) e) j' = if decide (j' = j) then e else slot B j') as Hsl
    by (intros; by apply (slot_splice B m)).
  split.
  - rewrite splice_length; lia.
  - intros j' Hj'. rewrite Hsl by done. case_decide as Hd; [congruence |].
    intros Hu'. destruct (Hs j' Hj' Hu') as (nm2 & k2 & Hn2 & ET). exists nm2, k2. split; [done |].
    rewrite lookup_delete_ne; [done |]. intros <-. apply Hd. by apply (Hu nm k2 k j' j).
  - intros nm2 k2 [Hne ET]%lookup_delete_Some. destruct (Ht nm2 k2 ET) as (j' & Hj' & Hu' & Hn').
    exists j'. rewrite Hsl by done. rewrite decide_False; [done |]. intros ->.
    destruct (names_inj _ _ _ _ _ (slot_length B m j Hl Hj) Hn Hn') as [? _]. done.
  - intros nm2 k1 k2 j1 j2 Hj1 Hj2. rewrite !Hsl by done. repeat case_decide; subst; try congruence. by apply Hu.
Qed.

(** ** A new entry *)

Lemma strlcpy_to_ok old nm :
  length old = 15%nat → (length nm ≤ 14)%nat → strlcpy_to old nm = nm ++ [0] ++ drop (length nm + 1) old.
Proof. intros Hl Hn. unfold strlcpy_to. by rewrite Hl, (take_ge nm) by lia. Qed.

Lemma new_entry_ok e nm k :
  length e = 20%nat → Forall is_byte e → name_ok nm → 0 ≤ k < 4294967296 →
  let e' := bytes_of_u32 k ++ strlcpy_to (de_name e) nm ++ [1] in
  length e' = 20%nat ∧ Forall is_byte e' ∧ de_in_use e' = true ∧ names e' nm k.
Proof.
  intros He Hb Hnm Hk. pose proof Hnm as (_ & Hlen & Hc).
  assert (length (de_name e) = 15%nat) as Hl by (unfold de_name; rewrite length_take, length_drop; lia).
  rewrite strlcpy_to_ok by done. set (N := nm ++ [0] ++ drop (length nm + 1) (de_name e)).
  assert (length N = 15%nat) as HN by (unfold N; rewrite !length_app, length_drop, Hl; cbn; lia).
  assert (de_name (bytes_of_u32 k ++ N ++ [1]) = N) as En.
  { unfold de_name. change (drop 4 (bytes_of_u32 k ++ N ++ [1])) with (N ++ [1]). by rewrite <-HN, take_app_length. }
  split_and!.
  - rewrite !length_app, HN. done.
  - unfold N. rewrite !Forall_app. split_and!; [apply bytes_of_u32_byte | | | | by repeat constructor].
    + eapply Forall_impl; [exact Hc |]. unfold is_byte. lia.
    + by repeat constructor.
    + by apply Forall_drop, Forall_take, Forall_drop.
  - unfold de_in_use. replace ((bytes_of_u32 k ++ N ++ [1]) !!! 19%nat) with 1; [done |].
    symmetry. apply list_lookup_total_correct. rewrite lookup_app_r by (cbn; lia).
    change (19 - length (bytes_of_u32 k))%nat with 15%nat.
    rewrite lookup_app_r by lia. by rewrite HN.
  - split; [done |]. rewrite En. split.
    + unfold N. rewrite app_assoc, take_app_le by (rewrite length_app; cbn; lia). apply take_ge. rewrite length_app; cbn; lia.
    + unfold de_sector. change (take 4 _) with (bytes_of_u32 k). by apply bytes_of_u32_inv.
Qed.

Lemma freed_entry_ok e : length e = 20%nat → Forall is_byte e →
  length (take 19 e ++ [0]) = 20%nat ∧ Forall is_byte (take 19 e ++ [0]) ∧ de_in_use (take 19 e ++ [0]) = false.
Proof.
  intros He Hb. split_and!.
  - rewrite length_app, length_take. change (length [0]) with 1%nat. lia.
  - apply Forall_app. split; [by apply Forall_take | by repeat constructor].
  - unfold de_in_use. replace ((take 19 e ++ [0]) !!! 19%nat) with 0; [done |].
    symmetry. apply list_lookup_total_correct. rewrite lookup_app_r by (rewrite length_take; lia). rewrite length_take.
    by replace (19 - 19 `min` length e)%nat with 0%nat by lia.
Qed.

Section dir.
Context {D : Type} `{!Device D} `{!DeviceLaws D} (out_of_memory : loc → bool).
Context (memory_suffices : ∀ a, out_of_memory a = false).
Implicit Types s : fs D.

(** ** Scanning *)

Lemma scan_dir_ok found q i x m fuel j0 e s :
  device_ok (fs_device s) → inodes s !! i = Some x → inode_wf (length (secs s)) (i_data x) →
  length (inode_bytes (secs s) (i_data x)) = (20 * m)%nat →
  (∀ j, (j < m)%nat → found (slot (inode_bytes (secs s) (i_data x)) j) = Ok (q j)) →
  (m - j0 < fuel)%nat → (j0 ≤ m)%nat → length e = 20%nat →
  ∃ r s', scan_dir out_of_memory fuel found i e (Z.of_nat (20 * j0)) s = Ok (r, s') ∧ touch s s' (secs s) ∧
    ((∃ j, (j0 ≤ j < m)%nat ∧ q j = true ∧
        r = (true, Z.of_nat (20 * j), slot (inode_bytes (secs s) (i_data x)) j)) ∨
     (∀ j, (j0 ≤ j < m)%nat → q j = false) ∧ ∃ e', r = (false, Z.of_nat (20 * m), e') ∧ length e' = 20%nat ∧ (Forall is_byte e → Forall is_byte e')).
Proof.
  revert j0 e s. induction fuel as [|fuel IH]; [lia |]. intros j0 e s Hd Hi Hwf Hl Hq Hf Hj0 He.
  set (B := inode_bytes (secs s) (i_data x)) in *. pose proof (inode_bytes_length _ _ (device_sectors s Hd) Hwf) as HlB.
  fold B in HlB. pose proof Hwf as (Hlr & _). cbn [scan_dir]. rewrite i32_id by lia.
  destruct (inode_read_at_ok out_of_memory memory_suffices i x 20 (Z.of_nat (20 * j0)) s) as (s1 & E1 & Ht1); [done.. | lia | lia |].
  unfold mbind at 1, st_bind at 1. change dir_entry_size with 20. rewrite E1. fold B. rewrite Nat2Z.id.
  change (take (Z.to_nat 20) (drop (20 * j0) B)) with (slot B j0).
  destruct (decide (j0 = m)) as [->|Hne].
  - assert (slot B m = []) as -> by (unfold slot; rewrite drop_ge by lia; apply take_nil). cbn [length Z.of_nat Z.eqb].
    eexists _, s1. split; [done |]. split; [done |]. right. split; [lia |]. exists e. by rewrite drop_0.
  - assert (j0 < m)%nat as Hlt by lia. pose proof (slot_length B m j0 Hl Hlt) as Hsl. rewrite Hsl.
    rewrite (drop_ge e), app_nil_r by lia. cbn [Z.of_nat Z.eqb Pos.eqb Pos.of_succ_nat Pos.succ].
    unfold mbind, st_bind, st_lift. rewrite Hq by done. destruct (q j0) eqn:Eq.
    + eexists _, s1. split; [done |]. split; [done |]. left. exists j0. split_and!; [lia.. | done | done].
    + rewrite u32_id by lia. replace (Z.of_nat (20 * j0) + 20) with (Z.of_nat (20 * S j0)) by lia.
      pose proof Ht1 as (Hd1 & Es1 & _ & _ & _ & _ & Ei1 & _).
      destruct (IH (S j0) (slot B j0) s1) as (r & s' & E & Ht & Hr); [done | by rewrite Ei1 | by rewrite Es1 | by rewrite Es1 | by rewrite Es1 | lia | lia | done |].
      exists r, s'. split; [done |]. rewrite Es1 in Ht, Hr. split; [by eapply touch_trans |].
      assert (Forall is_byte (slot B j0)) as Hby.
      { unfold slot, B, inode_bytes, inode_area. apply Forall_take, Forall_drop, Forall_take.
        rewrite Forall_concat. apply Forall_take, Forall_drop. eapply Forall_impl; [apply (device_sectors s Hd) |]. by intros ? []. }
      destruct Hr as [(j & ? & ? & ?)|(Hno & e' & Er & ? & ?)].
      * left. exists j. split_and!; [lia.. | done | done].
      * right. split; [| exists e'; split_and!; [done | done | intros _; auto]]. intros j Hj. destruct (decide (j = j0)) as [->|]; [done | apply Hno; lia].
Qed.

Lemma bytes_are_bytes s d : device_ok (fs_device s) → Forall is_byte (inode_bytes (secs s) d).
Proof.
  intros Hd. unfold inode_bytes, inode_area. apply Forall_take. rewrite Forall_concat.
  apply Forall_take, Forall_drop. eapply Forall_impl; [apply (device_sectors s Hd) |]. by intros ? [].
Qed.

(** An open handle on the root directory. *)
Definition root_dir s (d : loc) : Prop :=
  ∃ x y, dirs s !! d = Some x ∧ inodes s !! dir_inode x = Some y ∧ i_sector y = ROOT_DIR_SECTOR.

(** ** Changing the directory *)

(** The bytes of every user's inode are the same. *)
Definition keeps_files s s' (I : gmap Z inode_disk) : Prop :=
  ∀ k d, I !! k = Some d → k ≠ FREE_MAP_SECTOR → k ≠ ROOT_DIR_SECTOR → inode_bytes (secs s') d = inode_bytes (secs s) d.

Lemma keeps_keeps_files s s' I : keeps s s' I → keeps_files s s' I.
Proof. intros H k d ? ? _. by apply (H k). Qed.

Lemma keeps_files_trans s1 s2 s3 I : keeps_files s1 s2 I → keeps_files s2 s3 I → keeps_files s1 s3 I.
Proof. intros H1 H2 k d ? ? ?. rewrite (H2 k d), (H1 k d); done. Qed.

(** A write to the root directory that makes it [T']. *)
Lemma core_dir s s' I T H K T' K' d1 off P L' m :
  core s I T H K → touch s s' L' → I !! ROOT_DIR_SECTOR = Some d1 → write_effect (secs s) d1 off P L' →
  dir_repr (inode_bytes L' d1) m T' →
  (∀ k d, I !! k = Some d → (∃ nm, T !! nm = Some k) ∨ k ∈ K → (∃ nm, T' !! nm = Some k) ∨ k ∈ K') →
  (∀ k, (∃ nm, T' !! nm = Some k) ∨ k ∈ K' → (∃ nm, T !! nm = Some k) ∨ k ∈ K) →
  (∀ nm k, T' !! nm = Some k → k ∉ K') → (∀ nm1 nm2 k, T' !! nm1 = Some k → T' !! nm2 = Some k → nm1 = nm2) →
  core s' I T' H K' ∧ keeps_files s s' I ∧ (saved s I → saved s' I).
Proof.
  intros Hc Ht Hd1 Hw Hrepr Hlive Hback Hdis Hinj. pose proof Hw as (Hl & _ & Ho & _).
  pose proof Ht as (Hd & Es & Hn & Em & Ef & El & Ei & Efs & Eds).
  assert (∀ k d, I !! k = Some d → k ≠ ROOT_DIR_SECTOR → inode_bytes L' d = inode_bytes (secs s) d) as Hbytes.
  { intros k d Hk Hne. rewrite <-Es. by apply (write_keeps s s' I T H K L' _ d1 off P Hc Ht Hd1 Hw k d Hk Hne). }
  assert (∀ k d, I !! k = Some d → L' !! Z.to_nat k = secs s !! Z.to_nat k) as Hk.
  { intros k d Hk. apply Ho. destruct (r_disk _ _ _ _ _ Hc _ _ Hk) as (? & _).
    destruct (r_disk _ _ _ _ _ Hc _ _ Hd1) as (_ & _ & (_ & ? & _) & _).
    destruct (decide (d_start d1 ≤ k < d_start d1 + Z.of_nat (data_cnt d1))) as [Hin|]; [exfalso | lia].
    assert (ROOT_DIR_SECTOR = k) as E.
    { apply (r_disjoint _ _ _ _ _ Hc ROOT_DIR_SECTOR d1 k d k); [done.. | by right | by left]. }
    rewrite <-E in Hin. by apply (r_self _ _ _ _ _ Hc _ _ Hd1). }
  assert (∀ i, refs s' i = refs s i) as Erefs by (intros; unfold refs; by rewrite Efs, Eds).
  assert (∀ i, denies s' i = denies s i) as Eden by (intros; unfold denies; by rewrite Efs).
  split_and!.
  - destruct Hc. split; rewrite ?Es, ?Hl, ?Em, ?Ef, ?El, ?Ei, ?Efs, ?Eds; try done.
    + intros k d Hkd. destruct (r_disk k d Hkd) as (? & ? & ? & ?). rewrite (Hk k d) by done. auto.
    + intros i x Hi. rewrite Erefs, Eden. by apply r_open.
    + intros a Ha. specialize (r_fresh a Ha). lia.
    + intros k d Hkd. destruct (r_live k d Hkd) as [?|[?|[?|[?|?]]]]; [tauto | tauto | | | tauto];
        destruct (Hlive k d Hkd) as [?|?]; tauto.
    + intros i x Hi Hrm. destruct (r_removed i x Hi Hrm) as (? & ? & HK & HT).
      assert (¬ ((∃ nm, T' !! nm = Some (i_sector x)) ∨ i_sector x ∈ K')) as Hno.
      { intros [[nm ?]|?]%Hback; [by apply (HT nm) | done]. }
      split_and!; [done | done | tauto |]. intros nm Hnm. apply Hno. left. by exists nm.
    + intros nm k Hnm. destruct (Hback k) as [[nm' Hnm']|HK]; [left; by exists nm | |].
      * destruct (r_names nm' k Hnm') as (? & ? & ? & _). split_and!; try done. by apply (Hdis nm).
      * destruct (r_pending k HK) as (? & ? & ?). split_and!; try done. by apply (Hdis nm).
    + intros k HK. destruct (Hback k) as [[nm' Hnm']|HK']; [by right | |].
      * destruct (r_names nm' k Hnm') as (? & ? & ? & _). by split_and!.
      * by apply r_pending.
    + by exists d1, m.
  - intros k d Hkd _ Hne. rewrite Es. by apply (Hbytes k).
  - intros (d0 & Hd0 & Hs). exists d0. split; [done |]. rewrite Es, Em, (Hbytes FREE_MAP_SECTOR) by done. done.
Qed.

(** An open inode is marked as removed. *)
Lemma core_set_removed s I T H K i x :
  core s I T H (i_sector x :: K) → inodes s !! i = Some x → i_sector x ∉ K →
  core (set_inodes (<[i := Inode (i_sector x) (open_cnt x) true (deny_write_cnt x) (i_data x)]>) s) I T H K.
Proof.
  intros Hc Hi HK. set (x' := Inode _ _ _ _ _).
  assert (∀ j y, <[i := x']> (inodes s) !! j = Some y → ∃ y', inodes s !! j = Some y' ∧ i_sector y = i_sector y' ∧
    i_data y = i_data y' ∧ open_cnt y = open_cnt y' ∧ deny_write_cnt y = deny_write_cnt y') as Hold.
  { intros j y [[<- <-]|[? Hj]]%lookup_insert_Some; [by exists x | by exists y]. }
  assert (∀ j, is_Some (<[i := x']> (inodes s) !! j) ↔ is_Some (inodes s !! j)) as Hdom.
  { intros j. rewrite lookup_insert_is_Some'. split; [intros [<-|?]; [by rewrite Hi | done] | by right]. }
  destruct (r_pending _ _ _ _ _ Hc (i_sector x)) as (_ & Hx0 & Hx1); [left |].
  destruct Hc. split; try done; cbn.
  - intros j y Hj. destruct (Hold j y Hj) as (y' & Hy' & -> & -> & -> & ->). by apply r_open.
  - split; [apply r_list |]. intros j. rewrite Hdom. apply r_list.
  - intros i1 i2 x1 x2 H1 H2 E. destruct (Hold _ _ H1) as (y1 & ? & E1 & _). destruct (Hold _ _ H2) as (y2 & ? & E2 & _).
    apply (r_sector i1 i2 y1 y2); [done.. | congruence].
  - intros f y Hf. rewrite Hdom. by apply (r_file f).
  - intros f y Hf. rewrite Hdom. by apply (r_dir f).
  - intros j Hj. rewrite Hdom. by apply r_held.
  - intros a. rewrite Hdom. apply r_fresh.
  - intros k d Hk. destruct (r_live k d Hk) as [?|[?|[?|[[->|?]%elem_of_cons|(j & y & Hj & Hs & Hrm)]]]]; [tauto.. | | tauto |].
    + do 4 right. exists i, x'. by rewrite lookup_insert_eq.
    + do 4 right. destruct (decide (j = i)) as [->|]; [exists i, x' | exists j, y].
      * rewrite lookup_insert_eq. simplify_eq. by split_and!.
      * by rewrite lookup_insert_ne.
  - intros j y [[<- <-]|[? Hj]]%lookup_insert_Some Hrm; cbn [i_sector x'].
    + split_and!; try done. intros nm Hnm. destruct (r_names nm _ Hnm) as (_ & _ & _ & Hn). apply Hn. left.
    + destruct (r_removed j y Hj Hrm) as (? & ? & HKy & ?). split_and!; try done. intros ?. apply HKy. by right.
  - intros nm k Hnm. destruct (r_names nm k Hnm) as (? & ? & ? & Hn). split_and!; try done. intros ?. apply Hn. by right.
  - intros k HkK. apply r_pending. by right.
  - destruct r_free_map as (d & f & y & iy & ? & ? & ? & ? & Hiy & Hs & ?).
    exists d, f, y, iy. split_and!; try done. rewrite lookup_insert_ne; [done |]. intros E. rewrite <-E in Hiy. congruence.
  - intros j y Hj. destruct (Hold j y Hj) as (y' & Hy' & -> & _ & _ & ->). by apply (r_root_deny j).
Qed.

(** What a handle on the root directory gives. *)
Lemma root_handle s I T H K d :
  core s I T H K → root_dir s d →
  ∃ x y m, dirs s !! d = Some x ∧ inodes s !! dir_inode x = Some y ∧ I !! ROOT_DIR_SECTOR = Some (i_data y) ∧
    dir_repr (inode_bytes (secs s) (i_data y)) m T ∧ inode_wf (length (secs s)) (i_data y) ∧
    d_length (i_data y) = Z.of_nat (20 * m) ∧ deny_write_cnt y = 0.
Proof.
  intros Hc (x & y & Hx & Hy & Hys). destruct (r_open _ _ _ _ _ Hc _ y Hy) as (HI & _). rewrite Hys in HI.
  destruct (r_root _ _ _ _ _ Hc) as (d1 & m & Hd1 & Hrepr). assert (d1 = i_data y) as -> by congruence.
  destruct (r_disk _ _ _ _ _ Hc _ _ Hd1) as (_ & _ & Hwf & _). exists x, y, m. split_and!; try done.
  - pose proof (inode_bytes_length _ _ (device_sectors s (r_device _ _ _ _ _ Hc)) Hwf) as HlB.
    pose proof (dr_length _ _ _ Hrepr). destruct Hwf as (? & _). lia.
  - by apply (r_root_deny _ _ _ _ _ Hc _ y Hy).
Qed.

(** [s'] is reached from [s] by input and output only. *)
Definition only_io s s' : Prop := ∃ L', touch s s' L' ∧ length L' = length (secs s).

Lemma only_io_trans s1 s2 s3 : only_io s1 s2 → only_io s2 s3 → only_io s1 s3.
Proof.
  intros (L2 & Ht2 & Hl2) (L3 & Ht3 & Hl3). exists L3. split; [by eapply touch_trans |].
  destruct Ht2 as (_ & E & _). by rewrite Hl3, E.
Qed.

(** Reading keeps everything. *)
Lemma repr_read s s' I T H K :
  repr s I T H K → touch s s' (secs s) → repr s' I T H K ∧ keeps_files s s' I ∧ only_io s s'.
Proof.
  intros [Hc Hs] Ht. split; [split |].
  - eapply core_touch; [done.. |]. by intros.
  - by apply (saved_secs s); [| apply Ht..].
  - split; [| by exists (secs s)]. intros k d _ _ _. by destruct Ht as (_ & -> & _).
Qed.

(** Writing one entry of the root directory. *)
Lemma root_write_ok s I T H K T' K' i y m j e :
  repr s I T H K → inodes s !! i = Some y → I !! ROOT_DIR_SECTOR = Some (i_data y) →
  d_length (i_data y) = Z.of_nat (20 * m) → deny_write_cnt y = 0 → (j < m)%nat →
  length e = 20%nat → Forall is_byte e →
  dir_repr (splice (inode_bytes (secs s) (i_data y)) (20 * j) e) m T' →
  (∀ k d, I !! k = Some d → (∃ nm, T !! nm = Some k) ∨ k ∈ K → (∃ nm, T' !! nm = Some k) ∨ k ∈ K') →
  (∀ k, (∃ nm, T' !! nm = Some k) ∨ k ∈ K' → (∃ nm, T !! nm = Some k) ∨ k ∈ K) →
  (∀ nm k, T' !! nm = Some k → k ∉ K') → (∀ nm1 nm2 k, T' !! nm1 = Some k → T' !! nm2 = Some k → nm1 = nm2) →
  ∃ s', inode_write_at out_of_memory i e 20 (i32 (Z.of_nat (20 * j))) s = Ok (20, s') ∧
    repr s' I T' H K' ∧ keeps_files s s' I ∧ only_io s s'.
Proof.
  intros [Hc Hs] Hy Hd1 Hm Hdeny Hj Hel Heb Hrepr Hlive Hback Hdis Hinj.
  destruct (r_disk _ _ _ _ _ Hc _ _ Hd1) as (_ & _ & Hwf & _). pose proof Hwf as (Hlr & _).
  rewrite i32_id by lia.
  destruct (inode_write_at_ok out_of_memory memory_suffices i y e 20 (Z.of_nat (20 * j)) s)
    as (s' & L' & E & Ht & Hw); [apply Hc | done | done | lia | rewrite Hel; lia | rewrite Hel; lia | done | done |].
  assert (written (i_data y) 20 (Z.of_nat (20 * j)) = 20) as Ew by (unfold written; lia). rewrite Ew in *.
  rewrite take_ge in Hw by (rewrite Hel; lia). exists s'. split; [done |].
  destruct (core_dir s s' I T H K T' K' (i_data y) (Z.of_nat (20 * j)) e L' m) as (Hc' & Hk' & Hs'); try done.
  { destruct Hw as (_ & _ & _ & ->). by rewrite Nat2Z.id. }
  split_and!; [by split; [| apply Hs'] | done |]. exists L'. split; [done | apply Hw].
Qed.

(** Writing past the last entry stores nothing. *)
Lemma root_write_end s I T H K i y m e :
  repr s I T H K → inodes s !! i = Some y → I !! ROOT_DIR_SECTOR = Some (i_data y) →
  dir_repr (inode_bytes (secs s) (i_data y)) m T →
  d_length (i_data y) = Z.of_nat (20 * m) → deny_write_cnt y = 0 → length e = 20%nat → Forall is_byte e →
  ∃ s', inode_write_at out_of_memory i e 20 (i32 (Z.of_nat (20 * m))) s = Ok (0, s') ∧
    repr s' I T H K ∧ keeps_files s s' I ∧ only_io s s'.
Proof.
  intros [Hc Hs] Hy Hd1 Hrepr Hm Hdeny Hel Heb.
  destruct (r_disk _ _ _ _ _ Hc _ _ Hd1) as (_ & _ & Hwf & _). pose proof Hwf as (Hlr & _).
  rewrite i32_id by lia.
  destruct (inode_write_at_ok out_of_memory memory_suffices i y e 20 (Z.of_nat (20 * m)) s)
    as (s' & L' & E & Ht & Hw); [apply Hc | done | done | lia | rewrite Hel; lia | rewrite Hel; lia | done | done |].
  assert (written (i_data y) 20 (Z.of_nat (20 * m)) = 0) as Ew by (unfold written; lia). rewrite Ew in *.
  change (take (Z.to_nat 0) e) with (@nil Z) in Hw. exists s'. split; [done |].
  destruct (core_dir s s' I T H K T K (i_data y) (Z.of_nat (20 * m)) [] L' m) as (Hc' & Hk' & Hs'); try done.
  { destruct Hw as (_ & _ & _ & ->). by rewrite splice_nil. }
  { intros nm k Hnm ?. by apply (r_names _ _ _ _ _ Hc nm k Hnm). }
  { apply (r_inj _ _ _ _ _ Hc). }
  split_and!; [by split; [| apply Hs'] | done |]. exists L'. split; [done | apply Hw].
Qed.

(** The name sets of [dir_add]. *)
Lemma add_names s I T H K name k :
  core s I T H (k :: K) → k ∉ K → T !! name = None →
  (∀ k' d, I !! k' = Some d → (∃ nm, T !! nm = Some k') ∨ k' ∈ k :: K → (∃ nm, <[name := k]> T !! nm = Some k') ∨ k' ∈ K) ∧
  (∀ k', (∃ nm, <[name := k]> T !! nm = Some k') ∨ k' ∈ K → (∃ nm, T !! nm = Some k') ∨ k' ∈ k :: K) ∧
  (∀ nm k', <[name := k]> T !! nm = Some k' → k' ∉ K) ∧
  (∀ nm1 nm2 k', <[name := k]> T !! nm1 = Some k' → <[name := k]> T !! nm2 = Some k' → nm1 = nm2).
Proof.
  intros Hc HkK HT.
  assert (∀ nm, T !! nm ≠ Some k) as HTk.
  { intros nm Hnm. destruct (r_names _ _ _ _ _ Hc nm k Hnm) as (_ & _ & _ & Hn). apply Hn. left. }
  split_and!.
  - intros k' d' Hk' [[nm Hnm]|[->|?]%elem_of_cons]; [left; exists nm | left; exists name; apply lookup_insert_eq | by right].
    rewrite lookup_insert_ne; [done |]. intros <-. congruence.
  - intros k' [[nm [[<- <-]|[? ?]]%lookup_insert_Some]|?]; [right; left | left; by exists nm | right; by right].
  - intros nm k' [[<- <-]|[? Hnm]]%lookup_insert_Some; [done |]. intros ?.
    destruct (r_names _ _ _ _ _ Hc nm k' Hnm) as (_ & _ & _ & Hn). apply Hn. by right.
  - intros nm1 nm2 k' [[<- <-]|[? H1]]%lookup_insert_Some [[<- E]|[? H2]]%lookup_insert_Some; try done.
    + by destruct (HTk nm2).
    + subst k'. by destruct (HTk nm1).
    + by apply (r_inj _ _ _ _ _ Hc nm1 nm2 k').
Qed.

Lemma pending_range s I T H K k : core s I T H (k :: K) → 0 ≤ k < 4294967296.
Proof.
  intros Hc. destruct (r_pending _ _ _ _ _ Hc k) as ([dk Hdk] & _); [left |].
  destruct (r_disk _ _ _ _ _ Hc _ _ Hdk) as (? & _). pose proof (device_small s (r_device _ _ _ _ _ Hc)). lia.
Qed.

Lemma entry_bytes e name k : length e = 20%nat → Forall is_byte e → name_ok name →
  length (bytes_of_u32 k ++ strlcpy_to (de_name e) name ++ [1]) = 20%nat ∧
  Forall is_byte (bytes_of_u32 k ++ strlcpy_to (de_name e) name ++ [1]).
Proof.
  intros Hl Hb Hn. destruct (new_entry_ok e name 0 Hl Hb Hn) as (Hel & Heb & _); [lia |]. split; [by rewrite length_app in * |].
  rewrite Forall_app in *. split; [apply bytes_of_u32_byte | apply Heb].
Qed.

Lemma root_dir_io s s' d : only_io s s' → root_dir s d → root_dir s' d.
Proof. intros (L' & (_ & _ & _ & _ & _ & _ & Ei & _ & Ed) & _) (x & y & ?). exists x, y. by rewrite Ei, Ed. Qed.

(** ** The operations *)

Context (garbage : list Z) (garbage_length : length garbage = 20%nat) (garbage_bytes : Forall is_byte garbage).

Lemma lookup_entry_ok s I T H K d d1 m name :
  core s I T H K → root_dir s d → c_name name → I !! ROOT_DIR_SECTOR = Some d1 →
  dir_repr (inode_bytes (secs s) d1) m T →
  ∃ o s', lookup_entry out_of_memory garbage d name s = Ok (o, s') ∧ touch s s' (secs s) ∧
    match o with
    | Some (e, ofs) => ∃ j k, ofs = Z.of_nat (20 * j) ∧ (j < m)%nat ∧ e = slot (inode_bytes (secs s) d1) j ∧
        de_in_use e = true ∧ names e name k ∧ T !! name = Some k
    | None => T !! name = None
    end.
Proof.
  intros Hc (x & y & Hx & Hy & Hys) Hname Hd1 Hrepr. pose proof (r_device _ _ _ _ _ Hc) as Hd.
  destruct (r_open _ _ _ _ _ Hc _ y Hy) as (HI & _). rewrite Hys, Hd1 in HI. assert (d1 = i_data y) as -> by congruence.
  destruct (r_disk _ _ _ _ _ Hc _ _ Hd1) as (_ & _ & Hwf & _).
  pose proof (dr_length _ _ _ Hrepr) as Hl. pose proof (inode_bytes_length _ _ (device_sectors s Hd) Hwf) as HlB.
  set (B := inode_bytes (secs s) (i_data y)) in *.
  unfold lookup_entry, get_dir, scan_fuel, inode_length, mbind, st_bind, st_get, st_lift. rewrite Hx. cbn [from_option_err].
  rewrite (get_inode_ok s _ y Hy). cbn [mret st_ret].
  set (q j := match entry_is name (slot B j) with Ok b => b | Err _ => false end).
  assert (∀ j, (j < m)%nat → entry_is name (slot B j) = Ok (q j)) as Hq.
  { intros j Hj. unfold q. destruct (de_in_use (slot B j)) eqn:Hu.
    - destruct (dr_slot _ _ _ Hrepr j Hj Hu) as (nm & k & Hn & _).
      by rewrite (entry_is_ok name _ nm k (slot_length B m j Hl Hj)).
    - unfold entry_is. by rewrite Hu. }
  destruct (scan_dir_ok (entry_is name) q (dir_inode x) y m (S (Z.to_nat (d_length (i_data y)))) 0 garbage s)
    as (r & s' & E & Ht & Hr); [done.. | lia | lia | done |].
  change (Z.of_nat (20 * 0)) with 0 in E. unfold mret, st_ret. rewrite E.
  destruct Hr as [(j & Hj & Hqj & ->)|(Hno & e' & -> & _)].
  - eexists _, s'. split; [done |]. split; [done |]. fold B. exists j. specialize (Hq j ltac:(lia)). rewrite Hqj in Hq.
    destruct (de_in_use (slot B j)) eqn:Hu; [| unfold entry_is in Hq; by rewrite Hu in Hq].
    destruct (dr_slot _ _ _ Hrepr j ltac:(lia) Hu) as (nm & k & Hn & ET).
    rewrite (entry_is_ok name _ nm k (slot_length B m j Hl ltac:(lia))) in Hq by done. injection Hq as ->%bool_decide_eq_true_1.
    exists k. split_and!; done || lia.
  - eexists None, s'. split; [done |]. split; [done |]. apply eq_None_not_Some. intros [k ET].
    destruct (dr_entry _ _ _ Hrepr name k ET) as (j & Hj & Hu & Hn). specialize (Hq j Hj). rewrite Hno in Hq by lia. fold B in Hu, Hn.
    rewrite (entry_is_ok name _ name k (slot_length B m j Hl ltac:(lia))) in Hq by done. by rewrite bool_decide_true in Hq.
Qed.

(** The search of [dir_add] for a free entry. *)
Lemma free_slot_ok s I T H K i y m :
  core s I T H K → inodes s !! i = Some y → inode_wf (length (secs s)) (i_data y) →
  dir_repr (inode_bytes (secs s) (i_data y)) m T → d_length (i_data y) = Z.of_nat (20 * m) →
  ∃ ofs b e s', (n ← scan_fuel i; scan_dir out_of_memory n (λ e, Ok (negb (de_in_use e))) i garbage 0) s =
      Ok (b, Z.of_nat (20 * ofs), e, s') ∧ touch s s' (secs s) ∧ length e = 20%nat ∧ Forall is_byte e ∧
    if b : bool then (ofs < m)%nat ∧ de_in_use (slot (inode_bytes (secs s) (i_data y)) ofs) = false
    else ofs = m ∧ ∀ j, (j < m)%nat → de_in_use (slot (inode_bytes (secs s) (i_data y)) j) = true.
Proof.
  intros Hc Hy Hwf Hrepr Hm. pose proof (r_device _ _ _ _ _ Hc) as Hd. set (B := inode_bytes (secs s) (i_data y)) in *.
  destruct (scan_dir_ok (λ e, Ok (negb (de_in_use e))) (λ j, negb (de_in_use (slot B j))) i y m
    (S (Z.to_nat (d_length (i_data y)))) 0 garbage s) as (r & s' & E & Ht & Hr); [done.. | apply Hrepr | done | lia | lia | done |].
  unfold scan_fuel, inode_length, mbind, st_bind. rewrite (get_inode_ok s i y Hy). cbn [mret st_ret].
  change (Z.of_nat (20 * 0)) with 0 in E. unfold mret, st_ret. rewrite E.
  destruct Hr as [(j & Hj & Hq & ->)|(Hno & e' & -> & He' & Hby)].
  - apply negb_true_iff in Hq. exists j, true, (slot B j), s'. split_and!; [done | done | | | lia | done].
    + by apply (slot_length B m); [apply Hrepr | lia].
    + by apply Forall_take, Forall_drop, (bytes_are_bytes s).
  - exists m, false, e', s'. split_and!; [done.. | by apply Hby | done |].
    intros j Hj. specialize (Hno j ltac:(lia)). by apply negb_false_iff in Hno.
Qed.

(** [dir_add] for an inode [k] that has no name yet. *)
Lemma dir_add_ok s I T H K d name k :
  repr s I T H (k :: K) → k ∉ K → root_dir s d → c_name name →
  ∃ (r : bool) s', dir_add out_of_memory garbage d name k s = Ok (r, s') ∧ keeps_files s s' I ∧ only_io s s' ∧
    if r then name_ok name ∧ T !! name = None ∧ repr s' I (<[name := k]> T) H K
    else repr s' I T H (k :: K) ∧
      (¬ name_ok name ∨ is_Some (T !! name) ∨ ∀ d1 j, I !! ROOT_DIR_SECTOR = Some d1 → 20 * (Z.of_nat j + 1) ≤ d_length d1 →
        de_in_use (slot (inode_bytes (secs s) d1) j) = true).
Proof.
  intros Hrep HkK Hroot Hname. pose proof Hrep as [Hc _]. unfold dir_add.
  change (NAME_MAX <? Z.of_nat (length name)) with (14 <? Z.of_nat (length name)).
  destruct (bool_decide (name = []) || (14 <? Z.of_nat (length name))) eqn:Ebad.
  { exists false, s. split_and!; [done | by intros ? ? ? | exists (secs s); by split; [apply touch_refl, Hc |] | done |].
    left. intros (? & ? & _). apply orb_true_iff in Ebad as [->%bool_decide_eq_true_1|?%Z.ltb_lt]; [done | lia]. }
  apply orb_false_iff in Ebad as [Hne%bool_decide_eq_false_1 Hlen%Z.ltb_ge].
  assert (name_ok name) as Hnm by (split_and!; [done | lia | done]).
  destruct (root_handle _ _ _ _ _ _ Hc Hroot) as (x & y & m & Hx & Hy & Hd1 & Hrepr & Hwf & Hm & Hdeny).
  destruct (lookup_entry_ok s I T H (k :: K) d (i_data y) m name Hc Hroot Hname Hd1 Hrepr) as (o & s1 & E1 & Ht1 & Ho).
  unfold mbind at 1, st_bind at 1. rewrite E1. destruct (repr_read _ _ _ _ _ _ Hrep Ht1) as (Hrep1 & Hk1 & Hio1).
  pose proof Ht1 as (_ & Es1 & _ & _ & _ & _ & Ei1 & _ & Eds1).
  destruct o as [[e ofs]|].
  { destruct Ho as (j & k' & _ & _ & _ & _ & _ & ET). exists false, s1. split_and!; try done. rewrite ET. by right; left. }
  destruct (free_slot_ok s1 I T H (k :: K) (dir_inode x) y m) as (j & b & e & s2 & E2 & Ht2 & Hel & Heb & Hj);
    [apply Hrep1 | by rewrite Ei1 | by rewrite Es1 | by rewrite Es1 | done |].
  destruct (repr_read _ _ _ _ _ _ Hrep1 Ht2) as (Hrep2 & Hk2 & Hio2). pose proof Ht2 as (_ & Es2 & _ & _ & _ & _ & Ei2 & _ & _).
  unfold get_dir, mbind, st_bind, st_get, st_lift in *. rewrite Eds1, Hx. cbn [from_option_err].
  destruct (scan_fuel (dir_inode x) s1) as [[n s0]|]; [| done]. rewrite E2. change dir_entry_size with 20.
  destruct (entry_bytes e name k Hel Heb Hnm) as [Hel' Heb'].
  assert (inodes s2 !! dir_inode x = Some y) as Hy2 by (by rewrite Ei2, Ei1). rewrite Es1 in Es2, Hj.
  destruct b.
  - destruct Hj as [Hj Hfree]. destruct (new_entry_ok e name k Hel Heb Hnm (pending_range _ _ _ _ _ _ Hc)) as (_ & _ & Heu & Hen).
    destruct (add_names s I T H K name k Hc HkK Ho) as (A1 & A2 & A3 & A4).
    destruct (root_write_ok s2 I T H (k :: K) (<[name := k]> T) K (dir_inode x) y m j _ Hrep2 Hy2 Hd1 Hm Hdeny Hj Hel' Heb')
      as (s3 & E3 & Hrep3 & Hk3 & Hio3); try done; [rewrite Es2; by eapply dir_repr_add |].
    rewrite E3. exists true, s3. split_and!; [done | | | done..].
    + by eapply keeps_files_trans, keeps_files_trans.
    + by eapply only_io_trans, only_io_trans.
  - destruct Hj as [-> Hfull].
    destruct (root_write_end s2 I T H (k :: K) (dir_inode x) y m _ Hrep2 Hy2 Hd1 ltac:(by rewrite Es2) Hm Hdeny Hel' Heb')
      as (s3 & E3 & Hrep3 & Hk3 & Hio3). rewrite E3. exists false, s3. split_and!; [done | | | done |].
    + by eapply keeps_files_trans, keeps_files_trans.
    + by eapply only_io_trans, only_io_trans.
    + do 2 right. intros d1 j Hd1' Hj. assert (d1 = i_data y) as -> by congruence. apply Hfull. lia.
Qed.
End dir.
