(* ===== verification/FsOps.v ===== *)
(** The operations of filesys/filesys.c, step by step: the root directory is
    opened, an entry is found, added or removed, and everything that was
    opened or reserved on the way is given back. *)
From S2P Require Import Prelude Bytes Bitmap Block Inode FileSys InodeThm FsInv FsAlloc FsOpen FsFile FsDir.
Local Open Scope Z_scope.

Section ops.
Context {D : Type} `{!Device D} `{!DeviceLaws D} (out_of_memory : loc → bool).
Context (memory_suffices : ∀ a, out_of_memory a = false).
Context (garbage : list Z) (garbage_length : length garbage = 20%nat) (garbage_bytes : Forall is_byte garbage).
Implicit Types s : fs D.
#[local] Arguments held : simpl never.
#[local] Arguments refs : simpl never.
#[local] Arguments denies : simpl never.

(** ** What stays *)

(** Open inodes stay open, with their numbers. *)
Definition grows s s' : Prop := ∀ j y, inodes s !! j = Some y → ∃ y', inodes s' !! j = Some y' ∧ i_sector y' = i_sector y.

Lemma grows_refl s : grows s s.
Proof. intros j y ?. by exists y. Qed.

Lemma grows_trans s1 s2 s3 : grows s1 s2 → grows s2 s3 → grows s1 s3.
Proof. intros H1 H2 j y Hj. destruct (H1 j y Hj) as (y2 & Hy2 & E2). destruct (H2 j y2 Hy2) as (y3 & ? & ?). exists y3. split; [done | congruence]. Qed.

Lemma same_grows s s' : inodes s' = inodes s → grows s s'.
Proof. intros E j y ?. exists y. by rewrite E. Qed.

Lemma grows_same_sectors s1 s2 s3 : grows s1 s2 → same_sectors s2 s3 → same_sectors s1 s3.
Proof. intros H1 H2 j y y' Hj Hj'. destruct (H1 j y Hj) as (y2 & Hy2 & <-). by apply (H2 j y2 y'). Qed.

Lemma only_io_same s s' : only_io s s' → inodes s' = inodes s ∧ files s' = files s ∧ dirs s' = dirs s ∧
  free_map s' = free_map s ∧ free_map_file s' = free_map_file s.
Proof. intros (L' & (_ & _ & _ & ? & ? & _ & ? & ? & ?) & _). done. Qed.

Lemma quiet_same s s' : quiet s s' → inodes s' = inodes s ∧ files s' = files s ∧ dirs s' = dirs s.
Proof. by intros (_ & _ & _ & ? & ? & ? & _). Qed.

Lemma root_dir_grows s s' d : dirs s' !! d = dirs s !! d → grows s s' → root_dir s d → root_dir s' d.
Proof.
  intros Ed Hg (x & y & Hx & Hy & Hs). destruct (Hg _ _ Hy) as (y' & Hy' & Es). exists x, y'. rewrite Ed, Es. done.
Qed.

Lemma file_on_stays s s' I T H K f k :
  core s' I T H K → files s' !! f = files s !! f → same_sectors s s' → file_on s f k → file_on s' f k.
Proof.
  intros Hc Ef Hss (x & y & Hx & Hy & Hk & ?). rewrite <-Ef in Hx.
  destruct (r_file _ _ _ _ _ Hc f x Hx) as [[y' Hy'] _]. exists x, y'. split_and!; try done; [| naive_solver..].
  rewrite (Hss _ _ _ Hy Hy'). done.
Qed.

Lemma removed_not_root s I T H K i y : core s I T H K → inodes s !! i = Some y → i_sector y = ROOT_DIR_SECTOR →
  closed_inodes I y = I.
Proof.
  intros Hc Hi Hs. unfold closed_inodes. rewrite decide_False; [done |]. intros [_ Hr].
  by destruct (r_removed _ _ _ _ _ Hc i y Hi Hr) as (_ & ? & _).
Qed.

Lemma closed_subseteq I y : closed_inodes I y ⊆ I.
Proof. unfold closed_inodes. case_decide; [apply delete_subseteq | done]. Qed.

(** Few references, with room for those the operation makes. *)
Definition few_open s : Prop := Z.of_nat (size (files s) + size (dirs s)) < 2147483600.

Lemma few_open_few s : few_open s → few s [].
Proof. clear. unfold few_open, few. cbn. lia. Qed.

Lemma inode_open_grows s I T H K k d :
  repr s I T H K → I !! k = Some d → few s H →
  ∃ i s' x, inode_open out_of_memory k s = Ok (Some i, s') ∧ repr s' I T (i :: H) K ∧ same_tables s s' ∧ grows s s' ∧
    inodes s' !! i = Some x ∧ i_sector x = k.
Proof.
  intros Hrep Hk Hfew. destruct (inode_open_ok out_of_memory memory_suffices s I T H K k d Hrep Hk Hfew)
    as (i & s' & x & E & Hrep' & Ht & Hx & Hxk & Hother & Hold). exists i, s', x. split_and!; try done.
  intros j y Hj. destruct (decide (j = i)) as [->|]; [| exists y; by rewrite Hother].
  rewrite Hj in Hold. exists x. split; [done |]. destruct Hold. congruence.
Qed.

(** ** The root directory *)

Lemma dir_open_root_ok s I T H K :
  repr s I T H K → few s H →
  ∃ d s', dir_open_root out_of_memory s = Ok (Some d, s') ∧ repr s' I T H K ∧ root_dir s' d ∧ secs s' = secs s ∧
    files s' = files s ∧ dirs s !! d = None ∧ (∃ x, dirs s' = <[d := x]> (dirs s)) ∧ grows s s' ∧ free_map s' = free_map s.
Proof.
  intros Hrep Hfew. pose proof Hrep as [Hc _]. destruct (r_root _ _ _ _ _ Hc) as (d1 & m1 & Hd1 & _).
  destruct (inode_open_grows s I T H K ROOT_DIR_SECTOR d1 Hrep Hd1 Hfew) as (i & s1 & x & E1 & Hrep1 & (Es1 & Em1 & _ & Ef1 & Ed1) & Hg1 & Hx & Hxs).
  destruct (dir_open_ok out_of_memory memory_suffices s1 I T H K i Hrep1) as (d & s2 & E2 & Hrep2 & Hd & Ed2 & Ef2 & Ei2 & Es2 & Em2 & _).
  exists d, s2. unfold dir_open_root, mbind, st_bind. rewrite E1, E2. split_and!; [done | done | | congruence | congruence | congruence | | | congruence].
  - exists (Dir i 0), x. cbn. rewrite Ed2, Ei2, lookup_insert_eq. done.
  - exists (Dir i 0). by rewrite Ed2, Ed1.
  - by eapply grows_trans, same_grows.
Qed.

(** Closing the handle undoes the opening. *)
Lemma root_close_ok s I T H K d dirs0 x :
  repr s I T H K → root_dir s d → few s H → dirs s = <[d := x]> dirs0 → dirs0 !! d = None →
  ∃ s', dir_close out_of_memory (Some d) s = Ok (tt, s') ∧ repr s' I T H K ∧ keeps_files s s' I ∧
    files s' = files s ∧ dirs s' = dirs0 ∧ shrinks s s'.
Proof.
  intros Hrep (x' & y & Hx & Hy & Hys) Hfew Ed Hd.
  destruct (dir_close_ok out_of_memory memory_suffices s I T H K d x' Hrep Hx Hfew) as (s' & y' & E & Hy' & Hrep' & Hk & Ef & Ed' & Hss).
  assert (y' = y) as -> by congruence. rewrite (removed_not_root s I T H K (dir_inode x') y) in Hrep' by (done || apply Hrep).
  exists s'. split_and!; try done; [by apply keeps_keeps_files |]. rewrite Ed', Ed. by apply delete_insert_id.
Qed.

(** ** Opening a file *)

Lemma dir_lookup_ok s I T H K d name :
  repr s I T H K → root_dir s d → c_name name → few s H →
  ∃ o s', dir_lookup out_of_memory garbage d name s = Ok (o, s') ∧ keeps_files s s' I ∧
    files s' = files s ∧ dirs s' = dirs s ∧ grows s s' ∧
    match T !! name with
    | Some k => ∃ i x, o = Some i ∧ repr s' I T (i :: H) K ∧ inodes s' !! i = Some x ∧ i_sector x = k
    | None => o = None ∧ repr s' I T H K
    end.
Proof.
  intros Hrep Hroot Hname Hfew. pose proof Hrep as [Hc _].
  destruct (root_handle _ _ _ _ _ _ Hc Hroot) as (x & y & m & _ & _ & Hd1 & Hrepr & _).
  destruct (lookup_entry_ok out_of_memory memory_suffices garbage garbage_length s I T H K d (i_data y) m name Hc Hroot Hname Hd1 Hrepr)
    as (o & s1 & E1 & Ht1 & Ho). unfold dir_lookup, mbind, st_bind. rewrite E1.
  destruct (repr_read _ _ _ _ _ _ Hrep Ht1) as (Hrep1 & Hk1 & Hio1). destruct (only_io_same _ _ Hio1) as (Ei1 & Ef1 & Ed1 & _).
  destruct o as [[e ofs]|].
  - destruct Ho as (j & k & _ & _ & -> & _ & (_ & _ & ->) & ET). rewrite ET.
    destruct (r_names _ _ _ _ _ Hc name k ET) as ([dk Hdk] & _).
    destruct (inode_open_grows s1 I T H K k dk Hrep1 Hdk) as (i & s2 & z & E2 & Hrep2 & (Es2 & _ & _ & Ef2 & Ed2) & Hg2 & Hz & Hzk).
    { unfold few in *. by rewrite Ef1, Ed1. }
    exists (Some i), s2. split_and!; [done | | congruence | congruence | | by exists i, z].
    + eapply keeps_files_trans; [exact Hk1 |]. intros k' d' _ _ _. by rewrite Es2.
    + by eapply grows_trans; [apply same_grows |].
  - rewrite Ho. exists None, s1. split_and!; try done. by apply same_grows.
Qed.

Lemma file_open_none s I T H K :
  repr s I T H K → ∃ s', file_open out_of_memory None s = Ok (None, s') ∧ repr s' I T H K ∧ touch s s' (secs s).
Proof.
  intros Hrep. destruct (malloc_repr out_of_memory memory_suffices s I T H K Hrep) as (s1 & E1 & Hrep1 & Ht & _).
  exists s1. unfold file_open, mbind, st_bind. rewrite E1. done.
Qed.

Lemma filesys_open_ok s I T name :
  repr s I T [] [] → few_open s → c_name name →
  ∃ o s', filesys_open out_of_memory garbage name s = Ok (o, s') ∧ repr s' I T [] [] ∧ keeps_files s s' I ∧
    dirs s' = dirs s ∧ same_sectors s s' ∧
    match T !! name with
    | Some k => ∃ f i, o = Some f ∧ files s !! f = None ∧ files s' = <[f := File i 0 false]> (files s) ∧ file_on s' f k
    | None => o = None ∧ files s' = files s
    end.
Proof.
  intros Hrep Hfew Hname. unfold few_open in Hfew.
  destruct (dir_open_root_ok s I T [] [] Hrep) as (d & s1 & E1 & Hrep1 & Hroot1 & Es1 & Ef1 & Hd & (xd & Ed1) & Hg1 & _); [unfold few; cbn; lia |].
  assert (size (dirs s1) = S (size (dirs s))) as Hsz1 by (rewrite Ed1; by apply map_size_insert_None).
  destruct (dir_lookup_ok s1 I T [] [] d name Hrep1 Hroot1 Hname) as (o & s2 & E2 & Hk2 & Ef2 & Ed2 & Hg2 & Ho).
  { unfold few; cbn. rewrite Ef1, Hsz1. lia. }
  assert (keeps_files s s2 I) as Hk02.
  { eapply keeps_files_trans; [| exact Hk2]. intros k' d' _ _ _. by rewrite Es1. }
  assert (root_dir s2 d) as Hroot2 by (eapply root_dir_grows; [by rewrite Ed2 | done..]).
  assert (grows s s2) as Hg02 by (by eapply grows_trans).
  unfold filesys_open, mbind, st_bind. rewrite E1, E2. destruct (T !! name) as [k|] eqn:ET.
  - destruct Ho as (i & x & -> & Hrep2 & Hx & Hxk).
    destruct (root_close_ok s2 I T [i] [] d (dirs s) xd Hrep2 Hroot2) as (s3 & E3 & Hrep3 & Hk3 & Ef3 & Ed3 & Hss3); [| congruence | done |].
    { unfold few; cbn. rewrite Ef2, Ef1, Ed2, Hsz1. lia. }
    rewrite E3. destruct (file_open_ok out_of_memory memory_suffices s3 I T [] [] i Hrep3)
      as (f & s4 & E4 & Hrep4 & Hf & Ef4 & Ed4 & Ei4 & Es4 & _). rewrite E4.
    exists (Some f), s4. split_and!; [done | done | | congruence | |].
    + eapply keeps_files_trans; [exact Hk02 |]. eapply keeps_files_trans; [exact Hk3 |]. intros k' d' _ _ _. by rewrite Es4.
    + intros j y y' Hj Hj'. rewrite Ei4 in Hj'. by apply (grows_same_sectors _ _ _ Hg02 (shrinks_same _ _ Hss3) j).
    + exists f, i. split_and!; [done | congruence | congruence |].
      destruct (r_held _ _ _ _ _ (proj1 Hrep3) i) as [x3 Hx3]; [left |].
      destruct (r_names _ _ _ _ _ (proj1 Hrep) name k ET) as (_ & ? & ? & _).
      exists (File i 0 false), x3. rewrite Ef4, Ei4, lookup_insert_eq. split_and!; try done. by rewrite (shrinks_same _ _ Hss3 _ _ _ Hx Hx3).
  - destruct Ho as [-> Hrep2].
    destruct (root_close_ok s2 I T [] [] d (dirs s) xd Hrep2 Hroot2) as (s3 & E3 & Hrep3 & Hk3 & Ef3 & Ed3 & Hss3); [| congruence | done |].
    { unfold few; cbn. rewrite Ef2, Ef1, Ed2, Hsz1. lia. }
    rewrite E3. destruct (file_open_none s3 I T [] [] Hrep3) as (s4 & E4 & Hrep4 & Ht4). rewrite E4.
    destruct Ht4 as (_ & Es4 & _ & _ & _ & _ & Ei4 & Ef4 & Ed4). exists None, s4. split_and!; [done | done | | congruence | | done | congruence].
    + eapply keeps_files_trans; [exact Hk02 |]. eapply keeps_files_trans; [exact Hk3 |]. intros k' d' _ _ _. by rewrite Es4.
    + intros j y y' Hj Hj'. rewrite Ei4 in Hj'. by apply (grows_same_sectors _ _ _ Hg02 (shrinks_same _ _ Hss3) j).
Qed.

(** ** Creating a file *)

(** A reserved sector is given back. *)
Lemma release_ok s I T H K k :
  repr s I T H K → reserved s I k →
  ∃ s', free_map_release out_of_memory k 1 s = Ok (tt, s') ∧ repr s' I T H K ∧ keeps_files s s' I ∧ quiet s s'.
Proof.
  intros [Hc Hs] (Hk & Hbit & Hno). destruct (core_map_ready _ _ _ _ _ Hc) as (d0 & Hd0 & Hready).
  pose proof (bits_in_range _ _ _ _ _ Hc k true Hbit Hk). destruct (r_map _ _ _ _ _ Hc) as [Hm Hmc].
  assert (Z.of_nat (length (bits_of (free_map s))) = bit_cnt (free_map s)) as Hl by (rewrite bits_of_length; destruct Hm; lia).
  destruct (free_map_release_ok out_of_memory memory_suffices s d0 k 1 Hready) as (m & s' & L' & E & Hmok & Hmn & Hmb & Ht & Hw);
    [lia.. | |]. { intros j Hj. by assert (j = k) as -> by lia. }
  assert (core (set_free_map m s) I T H K) as Hc'.
  { apply core_map; [done.. |]. intros k' d' j Hk' Hu. pose proof (uses_nonneg _ _ _ _ _ _ _ _ Hc Hk' Hu).
    rewrite Hmb, fill_lookup_Z by lia. rewrite decide_False; [by apply (r_used _ _ _ _ _ Hc k' d') |].
    intros ?. assert (j = k) as -> by lia. by apply (Hno k' d'). }
  destruct (core_saved _ _ _ _ _ _ _ _ Hc' Hd0 Ht Hw) as [Hrep' Hk']. exists s'. split_and!; [done | done | | ].
  - intros k' d' ? ? _. by apply (Hk' k').
  - eapply quiet_trans; [by apply set_map_quiet | eapply touch_quiet; [done | apply Hw]].
Qed.

(** An inode without a name is forgotten; its data sectors stay allocated. *)
Lemma core_forget s I T H k d :
  core s (<[k := d]> I) T H [k] → I !! k = None → (∀ i x, inodes s !! i = Some x → i_sector x ≠ k) →
  core s I T H [] ∧ reserved s I k ∧ (saved s (<[k := d]> I) → saved s I).
Proof.
  intros Hc Hk Hi. destruct (r_pending _ _ _ _ _ Hc k) as (_ & Hk0 & Hk1); [left |].
  assert (∀ k' d', I !! k' = Some d' → <[k := d]> I !! k' = Some d' ∧ k' ≠ k) as Hsub.
  { intros k' d' Hk'. assert (k ≠ k') by congruence. by rewrite lookup_insert_ne. }
  assert (∀ k', k' ≠ k → <[k := d]> I !! k' = I !! k') as Hkeep by (intros; by apply lookup_insert_ne).
  split_and!.
  - destruct Hc. split; try done.
    + intros k' d' Hk'. by apply r_disk, Hsub.
    + intros k' d' Hk'. by apply r_self, Hsub.
    + intros k1 d1 k2 d2 j H1 H2. apply r_disjoint; by apply Hsub.
    + intros k' d' j Hk'. by apply (r_used k' d' j), Hsub.
    + intros i x Hix. destruct (r_open i x Hix) as (HI & ?). split; [| done]. by rewrite <-(Hkeep (i_sector x)); [| by apply (Hi i)].
    + intros k' d' Hk'. destruct (Hsub k' d' Hk') as [Hk'' Hne].
      destruct (r_live k' d' Hk'') as [?|[?|[?|[[?|?%elem_of_nil]%elem_of_cons|?]]]]; tauto.
    + intros i x Hix Hr. destruct (r_removed i x Hix Hr) as (? & ? & _ & ?). split_and!; try done. by apply not_elem_of_nil.
    + intros nm k' Hnm. destruct (r_names nm k' Hnm) as (HI & ? & ? & Hn). rewrite Hkeep in HI by (intros ->; apply Hn; left).
      split_and!; try done. by apply not_elem_of_nil.
    + by intros k' ?%elem_of_nil.
    + destruct r_root as (d1 & m & Hd1 & ?). exists d1, m. by rewrite <-(Hkeep ROOT_DIR_SECTOR) by done.
    + destruct r_free_map as (d1 & f & x & ix & Hd1 & ?). exists d1, f, x, ix. by rewrite <-(Hkeep FREE_MAP_SECTOR) by done.
  - assert (<[k := d]> I !! k = Some d) as HI by apply lookup_insert_eq. split_and!.
    + destruct (r_disk _ _ _ _ _ Hc _ _ HI) as [? _]. lia.
    + apply (r_used _ _ _ _ _ Hc k d k HI). by left.
    + intros k' d' Hk' Hu. destruct (Hsub k' d' Hk') as [Hk'' Hne].
      apply Hne. apply (r_disjoint _ _ _ _ _ Hc k' d' k d k Hk'' HI); [done | by left].
  - intros (d0 & Hd0 & ?). exists d0. by rewrite <-(Hkeep FREE_MAP_SECTOR) by done.
Qed.

(** What [filesys_create] does between opening and closing the directory. *)
Definition create_body (d : loc) (name : list Z) (initial_size : Z) : FM (bool * Z) :=
  o ← free_map_allocate out_of_memory 1;
  match o with
  | None => mret (false, 0)
  | Some inode_sector =>
      ok ← inode_create out_of_memory inode_sector initial_size;
      if ok : bool then ok ← dir_add out_of_memory garbage d name inode_sector; mret (ok, inode_sector)
      else mret (false, inode_sector)
  end.

(** [cnt] sectors in a row are free. *)
Definition has_run s (cnt : Z) : Prop :=
  ∃ j, 0 ≤ j ∧ j + cnt ≤ bit_cnt (free_map s) ∧ in_run (bits_of (free_map s)) j cnt false.

Definition dir_full s (I : gmap Z inode_disk) : Prop :=
  ∀ d1 j, I !! ROOT_DIR_SECTOR = Some d1 → 20 * (Z.of_nat j + 1) ≤ d_length d1 →
    de_in_use (slot (inode_bytes (secs s) d1) j) = true.

(** A run of [n + 1] sectors leaves one of [n] after the first free sector is
    taken. *)
Lemma has_run_rest (l : list bool) r n j :
  0 ≤ r → 0 ≤ n → 0 ≤ j → r + 1 ≤ Z.of_nat (length l) → j + (n + 1) ≤ Z.of_nat (length l) →
  (∀ p, 0 ≤ p < r → ¬ in_run l p 1 false) → in_run l j (n + 1) false →
  ∃ j', 0 ≤ j' ∧ j' + n ≤ Z.of_nat (length l) ∧ in_run (fill r 1 true l) j' n false.
Proof.
  intros Hr Hn Hj Hrl Hjl Hfirst Hrun.
  assert (r ≤ j) as Hrj.
  { destruct (decide (r ≤ j)); [done | exfalso]. apply (Hfirst j ltac:(lia)). intros p Hp. apply Hrun. lia. }
  exists (j + 1). split_and!; [lia.. |]. intros p Hp. rewrite fill_lookup_Z by lia.
  rewrite decide_False by lia. apply Hrun. lia.
Qed.

Lemma create_body_ok s I T d name len :
  repr s I T [] [] → root_dir s d → c_name name → 0 ≤ len ≤ 2147483135 →
  ∃ r k s', create_body d name len s = Ok ((r, k), s') ∧ quiet s s' ∧ keeps_files s s' I ∧
    if r : bool then name_ok name ∧ T !! name = None ∧ ∃ dk, I !! k = None ∧ d_length dk = len ∧
        inode_bytes (secs s') dk = replicate (Z.to_nat len) 0 ∧ repr s' (<[k := dk]> I) (<[name := k]> T) [] []
    else repr s' I T [] [] ∧ (k = 0 ∨ k ≠ 0 ∧ reserved s' I k) ∧
      (¬ has_run s ((len + 511) / 512 + 1) ∨ ¬ name_ok name ∨ is_Some (T !! name) ∨ dir_full s I).
Proof.
  intros Hrep Hroot Hname Hlen. unfold create_body, mbind, st_bind.
  assert (0 ≤ (len + 511) / 512) by (apply Z.div_pos; lia).
  destruct (free_map_allocate_ok out_of_memory memory_suffices s I T [] [] 1 Hrep) as (o & s1 & E1 & Hrep1 & Hq1 & Hk1 & Ho); [done |].
  rewrite E1. destruct o as [k|].
  2: { exists false, 0, s1. split_and!; [done.. | by apply keeps_keeps_files | done | by left |]. left.
       intros (j & ? & ? & Hj). apply (proj2 Ho j); [lia.. |]. intros p Hp. apply Hj. lia. }
  destruct Ho as (Hk & Hkn & Hrun & Hfirst & Hbits). destruct Hrep as [Hc _]. destruct (r_map _ _ _ _ _ Hc) as [Hm Hmc].
  assert (Z.of_nat (length (bits_of (free_map s))) = bit_cnt (free_map s)) as Hbl by (rewrite bits_of_length; destruct Hm; lia).
  assert (bits_of (free_map s) !! Z.to_nat k = Some false) as Hkf by (apply Hrun; lia).
  assert (reserved s1 I k) as Hres1.
  { split_and!; [done | rewrite Hbits, fill_lookup_Z by lia; by rewrite decide_True by lia |].
    intros k' d' Hk' Hu. pose proof (r_used _ _ _ _ _ Hc k' d' k Hk' Hu). congruence. }
  assert (k ≠ 0) as Hk0.
  { intros ->. destruct (core_map_ready _ _ _ _ _ Hc) as (d0 & Hd0 & _).
    pose proof (r_used _ _ _ _ _ Hc _ d0 0 Hd0 ltac:(by left)). congruence. }
  destruct (inode_create_ok out_of_memory memory_suffices s1 I T [] [] k len Hrep1 Hres1 Hlen) as (r & s2 & E2 & Hq2 & Hk2 & Hr).
  rewrite E2. assert (quiet s s2) as Hq02 by (by eapply quiet_trans).
  assert (keeps_files s s2 I) as Hk02 by (by eapply keeps_files_trans; apply keeps_keeps_files).
  destruct r.
  2: { destruct Hr as (Hrep2 & Hres2 & Hno). exists false, k, s2. split_and!; [done.. | by right |].
       left. intros (j & ? & ? & Hj). destruct (has_run_rest (bits_of (free_map s)) k ((len + 511) / 512) j) as (j' & ? & ? & Hj'); try (done || lia).
       rewrite <-Hbits in Hj'. apply (Hno j'); [done | | done]. destruct Hq1 as (_ & _ & _ & _ & _ & _ & _ & ->). lia. }
  destruct Hr as (dk & HIk & Hrep2 & Hlk & Hbk).
  destruct (quiet_same _ _ Hq02) as (Ei2 & Ef2 & Ed2).
  assert (root_dir s2 d) as Hroot2 by (eapply root_dir_grows; [by rewrite Ed2 | by apply same_grows | done]).
  destruct (dir_add_ok out_of_memory memory_suffices garbage garbage_length garbage_bytes s2 (<[k := dk]> I) T [] [] d name k Hrep2)
    as (r & s3 & E3 & Hk3 & Hio3 & Hr); [by apply not_elem_of_nil | done | done |]. rewrite E3.
  assert (quiet s s3) as Hq03. { eapply quiet_trans; [done |]. destruct Hio3 as (L' & Ht & Hl). by eapply touch_quiet. }
  assert (keeps_files s s3 I) as Hk03.
  { eapply keeps_files_trans; [exact Hk02 |]. intros k' d' Hk'. apply Hk3. rewrite lookup_insert_ne; [done | congruence]. }
  destruct r.
  - destruct Hr as (Hnm & HT & Hrep3). exists true, k, s3. split_and!; try done. exists dk. split_and!; try done.
    rewrite <-Hbk. destruct (r_pending _ _ _ _ _ (proj1 Hrep2) k) as (_ & ? & ?); [left |]. apply (Hk3 k); [apply lookup_insert_eq | done..].
  - destruct Hr as (Hrep3 & Hwhy). destruct (only_io_same _ _ Hio3) as (Ei3 & _).
    destruct (core_forget s3 I T [] k dk (proj1 Hrep3) HIk) as (Hc3 & Hres3 & Hs3).
    { intros i x Hi. rewrite Ei3, Ei2 in Hi. destruct (r_open _ _ _ _ _ Hc i x Hi) as (HI & _). congruence. }
    exists false, k, s3. split_and!; [done.. | split; [done | apply Hs3, Hrep3] | by right |]. right.
    destruct Hwhy as [?|[?|Hfull]]; [by left | by right; left | right; right].
    intros d1 j Hd1 Hj. destruct (r_pending _ _ _ _ _ (proj1 Hrep2) k) as (_ & ? & ?); [left |].
    rewrite <-(Hfull d1 j); [| by rewrite lookup_insert_ne | done]. f_equal. f_equal.
    rewrite (Hk2 ROOT_DIR_SECTOR d1), (Hk1 ROOT_DIR_SECTOR d1) by done. done.
Qed.

Lemma filesys_create_ok s I T name len :
  repr s I T [] [] → few_open s → c_name name → 0 ≤ len ≤ 2147483135 →
  ∃ r s', filesys_create out_of_memory garbage name len s = Ok (r, s') ∧ keeps_files s s' I ∧
    files s' = files s ∧ dirs s' = dirs s ∧ same_sectors s s' ∧
    if r : bool then name_ok name ∧ T !! name = None ∧ ∃ k dk, I !! k = None ∧ d_length dk = len ∧
        inode_bytes (secs s') dk = replicate (Z.to_nat len) 0 ∧ repr s' (<[k := dk]> I) (<[name := k]> T) [] []
    else repr s' I T [] [] ∧
      (¬ has_run s ((len + 511) / 512 + 1) ∨ ¬ name_ok name ∨ is_Some (T !! name) ∨ dir_full s I).
Proof.
  intros Hrep Hfew Hname Hlen. unfold few_open in Hfew.
  destruct (dir_open_root_ok s I T [] [] Hrep) as (d & s1 & E1 & Hrep1 & Hroot1 & Es1 & Ef1 & Hd & (xd & Ed1) & Hg1 & Em1); [unfold few; cbn; lia |].
  assert (size (dirs s1) = S (size (dirs s))) as Hsz1 by (rewrite Ed1; by apply map_size_insert_None).
  destruct (create_body_ok s1 I T d name len Hrep1 Hroot1 Hname Hlen) as (r & k & s2 & E2 & Hq2 & Hk2 & Hr).
  assert (keeps_files s s2 I) as Hk02.
  { eapply keeps_files_trans; [| exact Hk2]. intros k' d' _ _ _. by rewrite Es1. }
  unfold filesys_create, mbind at 1, st_bind at 1. rewrite E1.
  match goal with |- context [(?m ≫= _) s1] => change m with (create_body d name len) end.
  unfold mbind at 1, st_bind at 1. rewrite E2.
  assert (∃ s3, (if negb r && negb (k =? 0) then free_map_release out_of_memory k 1 else mret tt) s2 = Ok (tt, s3) ∧
    keeps_files s2 s3 I ∧ quiet s2 s3 ∧
    if r then s3 = s2 else repr s3 I T [] []) as (s3 & E3 & Hk3 & Hq3 & Hr3).
  { destruct r; cbn [negb andb]; [exists s2; split_and!; try done; apply quiet_refl |].
    destruct Hr as (Hrep2 & [->|[Hk0 Hres]] & _); [exists s2; split_and!; try done; apply quiet_refl |].
    rewrite (proj2 (Z.eqb_neq _ _) Hk0). destruct (release_ok s2 I T [] [] k Hrep2 Hres) as (s3 & ? & ? & ? & ?). by exists s3. }
  destruct (quiet_same _ _ (quiet_trans _ _ _ Hq2 Hq3)) as (Ei3 & Ef3 & Ed3).
  unfold mbind, st_bind. rewrite E3.
  assert (root_dir s3 d) as Hroot3 by (eapply root_dir_grows; [by rewrite Ed3 | by apply same_grows | done]).
  assert (few s3 []) as Hfew3 by (unfold few; cbn; rewrite Ef3, Ed3, Ef1, Hsz1; lia).
  destruct r.
  - subst s3. destruct Hr as (Hnm & HT & dk & HIk & Hlk & Hbk & Hrep2).
    destruct (root_close_ok s2 _ _ [] [] d (dirs s) xd Hrep2 Hroot3 Hfew3) as (s4 & E4 & Hrep4 & Hk4 & Ef4 & Ed4 & Hss4); [congruence | done |].
    rewrite E4. exists true, s4. split_and!; [done | | congruence | done | | done | done |].
    + eapply keeps_files_trans; [exact Hk02 |]. intros k' d' Hk'. apply Hk4. rewrite lookup_insert_ne; [done | congruence].
    + eapply grows_same_sectors; [| by apply shrinks_same]. by eapply grows_trans, same_grows.
    + exists k, dk. split_and!; try done. rewrite <-Hbk. 
      destruct (r_names _ _ _ _ _ (proj1 Hrep2) name k) as (_ & ? & ? & _); [apply lookup_insert_eq |]. apply (Hk4 k); [apply lookup_insert_eq | done..].
  - destruct (root_close_ok s3 I T [] [] d (dirs s) xd Hr3 Hroot3 Hfew3) as (s4 & E4 & Hrep4 & Hk4 & Ef4 & Ed4 & Hss4); [congruence | done |].
    rewrite E4. exists false, s4. split_and!; [done | | congruence | done | | done |].
    + eapply keeps_files_trans; [exact Hk02 |]. by eapply keeps_files_trans.
    + eapply grows_same_sectors; [| by apply shrinks_same]. by eapply grows_trans, same_grows.
    + destruct Hr as (_ & _ & Hwhy). unfold has_run, dir_full in *. by rewrite Em1, Es1 in Hwhy.
Qed.

(** ** Removing a file *)

Lemma inode_remove_ok s I T H K i x :
  repr s I T H (i_sector x :: K) → inodes s !! i = Some x → i_sector x ∉ K →
  ∃ s' x', inode_remove i s = Ok (tt, s') ∧ repr s' I T H K ∧ inodes s' !! i = Some x' ∧ removed x' = true ∧
    i_sector x' = i_sector x ∧ grows s s' ∧ secs s' = secs s ∧ files s' = files s ∧ dirs s' = dirs s.
Proof.
  intros [Hc Hs] Hi HK. unfold inode_remove, mbind, st_bind. rewrite (get_inode_ok s i x Hi).
  eexists _, (Inode (i_sector x) (open_cnt x) true (deny_write_cnt x) (i_data x)). split; [done |].
  split; [split; [by apply core_set_removed | done] |]. cbn. rewrite lookup_insert_eq. split_and!; try done.
  intros j y Hj. cbn. destruct (decide (j = i)) as [->|]; [| exists y; by rewrite lookup_insert_ne].
  simplify_eq. eexists. by rewrite lookup_insert_eq.
Qed.

(** The name sets of [dir_remove]. *)
Lemma remove_names (I : gmap Z inode_disk) (T : gmap (list Z) Z) name k :
  (∀ nm1 nm2 k', T !! nm1 = Some k' → T !! nm2 = Some k' → nm1 = nm2) → T !! name = Some k →
  (∀ k' d, I !! k' = Some d → (∃ nm, T !! nm = Some k') ∨ k' ∈ ([] : list Z) → (∃ nm, delete name T !! nm = Some k') ∨ k' ∈ [k]) ∧
  (∀ k', (∃ nm, delete name T !! nm = Some k') ∨ k' ∈ [k] → (∃ nm, T !! nm = Some k') ∨ k' ∈ ([] : list Z)) ∧
  (∀ nm k', delete name T !! nm = Some k' → k' ∉ [k]) ∧
  (∀ nm1 nm2 k', delete name T !! nm1 = Some k' → delete name T !! nm2 = Some k' → nm1 = nm2).
Proof.
  intros Hinj HT. split_and!.
  - intros k' d _ [[nm Hnm]|?%elem_of_nil]; [| done]. destruct (decide (nm = name)) as [->|]; [right | left].
    + apply list_elem_of_singleton. congruence.
    + exists nm. by rewrite lookup_delete_ne.
  - intros k' [[nm [_ Hnm]%lookup_delete_Some]| ->%list_elem_of_singleton]; left; [by exists nm | by exists name].
  - intros nm k' [Hne Hnm]%lookup_delete_Some ->%list_elem_of_singleton. by apply Hne, (Hinj name nm k).
  - intros nm1 nm2 k' [_ H1]%lookup_delete_Some [_ H2]%lookup_delete_Some. by apply (Hinj nm1 nm2 k').
Qed.

Lemma dir_remove_ok s I T d name :
  repr s I T [] [] → root_dir s d → c_name name → few s [] →
  ∃ s' I', dir_remove out_of_memory garbage d name s = Ok (bool_decide (is_Some (T !! name)), s') ∧ keeps_files s s' I ∧
    files s' = files s ∧ dirs s' = dirs s ∧ same_sectors s s' ∧ I' ⊆ I ∧ repr s' I' (delete name T) [] [].
Proof.
  intros Hrep Hroot Hname Hfew. pose proof Hrep as [Hc _].
  destruct (root_handle _ _ _ _ _ _ Hc Hroot) as (x & y & m & Hx & Hy & Hd1 & Hrepr & Hwf & Hm & Hdeny).
  destruct (lookup_entry_ok out_of_memory memory_suffices garbage garbage_length s I T [] [] d (i_data y) m name Hc Hroot Hname Hd1 Hrepr)
    as (o & s1 & E1 & Ht1 & Ho). unfold dir_remove, mbind, st_bind. rewrite E1.
  destruct (repr_read _ _ _ _ _ _ Hrep Ht1) as (Hrep1 & Hk1 & Hio1). destruct (only_io_same _ _ Hio1) as (Ei1 & Ef1 & Ed1 & _).
  destruct o as [[e ofs]|].
  2: { exists s1, I. rewrite Ho, bool_decide_false by (by intros [??]). rewrite delete_id by done. split_and!; try done.
       by apply (grows_same_sectors s s1 s1); [apply same_grows | intros ????? ; simplify_eq]. }
  destruct Ho as (j & k & -> & Hj & -> & Huse & Hn & ET). pose proof Hn as (_ & _ & ->).
  rewrite bool_decide_true by (by rewrite ET).
  destruct (r_names _ _ _ _ _ Hc name k ET) as ([dk Hdk] & Hk0 & Hk1' & _).
  destruct (inode_open_grows s1 I T [] [] k dk Hrep1 Hdk) as (i & s2 & z & E2 & Hrep2 & (Es2 & _ & _ & Ef2 & Ed2) & Hg2 & Hz & Hzk).
  { unfold few in *. by rewrite Ef1, Ed1. }
  rewrite E2. unfold get_dir, mbind, st_bind, st_get, st_lift. rewrite Ed2, Ed1, Hx. cbn [from_option_err].
  assert (secs s2 = secs s) as Ess2 by (rewrite Es2; apply Ht1).
  destruct (Hg2 (dir_inode x) y) as (y2 & Hy2 & Hys2); [by rewrite Ei1 |].
  destruct (r_open _ _ _ _ _ (proj1 Hrep2) _ _ Hy2) as (HI2 & _).
  destruct (r_open _ _ _ _ _ Hc _ _ Hy) as (HI & _).
  assert (i_sector y = ROOT_DIR_SECTOR) as Hyroot.
  { destruct Hroot as (x' & y' & ? & ? & ?). congruence. }
  assert (i_data y2 = i_data y) as Ey by congruence.
  rewrite <-Ess2, <-Ey in Hrepr, Hn, Huse |- *. rewrite <-Ey in Hd1, Hm.
  assert (Forall is_byte (slot (inode_bytes (secs s2) (i_data y2)) j)) as Hby
    by (apply Forall_take, Forall_drop, bytes_are_bytes, Hrep2).
  destruct (freed_entry_ok _ (slot_length _ m j (dr_length _ _ _ Hrepr) Hj) Hby) as (Hel & Heb & Heu).
  destruct (remove_names I T name k) as (A1 & A2 & A3 & A4); [apply (r_inj _ _ _ _ _ Hc) | done |].
  destruct (root_write_ok out_of_memory memory_suffices s2 I T [i] [] (delete name T) [k] (dir_inode x) y2 m j (take 19 (slot (inode_bytes (secs s2) (i_data y2)) j) ++ [0]) Hrep2 Hy2 Hd1 Hm)
    as (s3 & E3 & Hrep3 & Hk3 & Hio3); try done.
  { apply (r_root_deny _ _ _ _ _ (proj1 Hrep2) _ _ Hy2). congruence. }
  { by apply (dir_repr_remove _ m T j _ name k). }
  change dir_entry_size with 20. rewrite E3. cbn [Z.eqb Pos.eqb negb].
  destruct (only_io_same _ _ Hio3) as (Ei3 & Ef3 & Ed3 & _).
  destruct (inode_remove_ok s3 I (delete name T) [i] [] i z) as (s4 & z' & E4 & Hrep4 & Hz' & _ & _ & Hg4 & Es4 & Ef4 & Ed4);
    [by rewrite Hzk | by rewrite Ei3 | apply not_elem_of_nil |]. rewrite E4.
  assert (with_refs (files s4) (dirs s4) s4 = s4) as Ew by (by destruct s4).
  destruct (inode_close_ok out_of_memory memory_suffices s4 (files s4) (dirs s4) I (delete name T) [] [] i z')
    as (s5 & E5 & Hrep5 & Hk5 & Ef5 & Ed5 & _ & _ & Hss5); [by rewrite Ew | done | | done |].
  { unfold few in *. rewrite Ew, Ef4, Ed4, Ef3, Ed3, Ef2, Ed2, Ef1, Ed1. done. }
  cbn [mret st_ret]. unfold mret, st_ret. rewrite E5. exists s5, (closed_inodes I z').
  assert (with_refs (files s4) (dirs s4) s5 = s5) as Ew5 by (rewrite <-Ef5, <-Ed5; by destruct s5).
  rewrite Ew5 in Hrep5. split_and!; [done | | congruence | congruence | | apply closed_subseteq | done].
  - eapply keeps_files_trans; [exact Hk1 |]. eapply (keeps_files_trans s1 s2); [intros ? ? ? ? ?; by rewrite Es2 |].
    eapply keeps_files_trans; [exact Hk3 |]. eapply (keeps_files_trans s3 s4); [intros ? ? ? ? ?; by rewrite Es4 |].
    by apply keeps_keeps_files.
  - eapply grows_same_sectors; [| by apply shrinks_same].
    apply (grows_trans s s1); [by apply same_grows |]. apply (grows_trans s1 s2); [done |].
    apply (grows_trans s2 s3); [by apply same_grows | done].
Qed.

Lemma filesys_remove_ok s I T name :
  repr s I T [] [] → few_open s → c_name name →
  ∃ s' I', filesys_remove out_of_memory garbage name s = Ok (bool_decide (is_Some (T !! name)), s') ∧ keeps_files s s' I' ∧
    files s' = files s ∧ dirs s' = dirs s ∧ same_sectors s s' ∧ I' ⊆ I ∧ repr s' I' (delete name T) [] [].
Proof.
  intros Hrep Hfew Hname. unfold few_open in Hfew.
  destruct (dir_open_root_ok s I T [] [] Hrep) as (d & s1 & E1 & Hrep1 & Hroot1 & Es1 & Ef1 & Hd & (xd & Ed1) & Hg1 & _); [unfold few; cbn; lia |].
  assert (size (dirs s1) = S (size (dirs s))) as Hsz1 by (rewrite Ed1; by apply map_size_insert_None).
  destruct (dir_remove_ok s1 I T d name Hrep1 Hroot1 Hname) as (s2 & I' & E2 & Hk2 & Ef2 & Ed2 & Hss2 & Hsub & Hrep2).
  { unfold few; cbn. rewrite Ef1, Hsz1. lia. }
  destruct Hroot1 as (x1 & y1 & Hx1 & Hy1 & Hys1).
  destruct (r_dir _ _ _ _ _ (proj1 Hrep2) d x1) as [y2 Hy2]; [by rewrite Ed2 |].
  assert (root_dir s2 d) as Hroot2.
  { exists x1, y2. rewrite Ed2. split_and!; [done.. |]. by rewrite (Hss2 _ _ _ Hy1 Hy2). }
  destruct (root_close_ok s2 I' _ [] [] d (dirs s) xd Hrep2 Hroot2) as (s3 & E3 & Hrep3 & Hk3 & Ef3 & Ed3 & Hss3); [| congruence | done |].
  { unfold few; cbn. rewrite Ef2, Ef1, Ed2, Hsz1. lia. }
  unfold filesys_remove, mbind, st_bind. rewrite E1, E2, E3. exists s3, I'.
  split_and!; [done | | congruence | done | | done | done].
  - eapply keeps_files_trans; [| exact Hk3]. intros k dk Hk Hk0 Hk1. rewrite (Hk2 k dk); [by rewrite Es1 | | done..].
    by eapply lookup_weaken.
  - eapply same_shrinks; [| exact Hss3]. by eapply grows_same_sectors.
Qed.
End ops.
