(* ===== verification/FsIo.v ===== *)
(** Reading, writing, positioning and denying writes through an open file
    (filesys/file.c). *)
From S2P Require Import Prelude Bytes Bitmap Block Inode FileSys InodeThm FsInv FsAlloc FsOpen FsFile FsDir.
Local Open Scope Z_scope.

Section io.
Context {D : Type} `{!Device D} `{!DeviceLaws D} (out_of_memory : loc → bool).
Context (memory_suffices : ∀ a, out_of_memory a = false).
Implicit Types s : fs D.
#[local] Arguments held : simpl never.
#[local] Arguments refs : simpl never.
#[local] Arguments denies : simpl never.

Lemma get_file_ok s f x : files s !! f = Some x → get_file f s = Ok (x, s).
Proof. intros H. unfold get_file, mbind, st_bind, st_get, st_lift. by rewrite H. Qed.

(** The inode of an open file. *)
Lemma file_inode s I T H K f x :
  core s I T H K → files s !! f = Some x →
  ∃ y, inodes s !! f_inode x = Some y ∧ I !! i_sector y = Some (i_data y) ∧
    inode_wf (length (secs s)) (i_data y) ∧ 0 ≤ f_pos x < 2147483648 ∧
    length (inode_bytes (secs s) (i_data y)) = Z.to_nat (d_length (i_data y)) ∧
    Forall is_byte (inode_bytes (secs s) (i_data y)).
Proof.
  intros Hc Hx. destruct (r_file _ _ _ _ _ Hc f x Hx) as [[y Hy] Hp]. destruct (r_open _ _ _ _ _ Hc _ y Hy) as (HI & _).
  destruct (r_disk _ _ _ _ _ Hc _ _ HI) as (_ & _ & Hwf & _). pose proof (r_device _ _ _ _ _ Hc) as Hd.
  exists y. split_and!; try done; try apply Hp.
  - by apply inode_bytes_length; [apply device_sectors |].
  - by apply bytes_are_bytes.
Qed.

(** Only the position of the file [f] changes. *)
Definition moved s s' (f : loc) (x : file) (p : Z) : Prop :=
  files s' = <[f := File (f_inode x) p (f_deny_write x)]> (files s) ∧ inodes s' = inodes s ∧ dirs s' = dirs s.

Lemma repr_move s I T H K f x p :
  repr s I T H K → files s !! f = Some x → 0 ≤ p < 2147483648 →
  ∃ s', put_file f (File (f_inode x) p (f_deny_write x)) s = Ok (tt, s') ∧ repr s' I T H K ∧ moved s s' f x p ∧ secs s' = secs s.
Proof.
  intros [Hc Hs] Hx Hp. eexists. split; [done |]. split_and!; [| done | done].
  split; [by apply core_file_pos | done].
Qed.

Lemma file_read_ok s I T H K f x y size :
  repr s I T H K → files s !! f = Some x → inodes s !! f_inode x = Some y → size < 2147483648 →
  let got := take (Z.to_nat size) (drop (Z.to_nat (f_pos x)) (inode_bytes (secs s) (i_data y))) in
  ∃ s', file_read out_of_memory f size s = Ok (got, s') ∧ repr s' I T H K ∧ secs s' = secs s ∧
    moved s s' f x (f_pos x + Z.of_nat (length got)).
Proof.
  intros Hrep Hx Hy Hsize got. pose proof Hrep as [Hc _].
  destruct (file_inode s I T H K f x Hc Hx) as (y' & Hy' & HI & Hwf & Hp & Hl & _). assert (y' = y) as -> by congruence.
  pose proof Hwf as (? & _).
  destruct (inode_read_at_ok out_of_memory memory_suffices (f_inode x) y size (f_pos x) s) as (s1 & E1 & Ht1); [apply Hc | done.. |].
  fold got in E1. destruct (repr_read _ _ _ _ _ _ Hrep Ht1) as (Hrep1 & _). destruct Ht1 as (_ & Es & _ & _ & _ & _ & Ei & Ef & Ed).
  assert (Z.of_nat (length got) ≤ Z.max 0 (d_length (i_data y) - f_pos x)) by (unfold got; rewrite length_take, length_drop, Hl; lia).
  destruct (repr_move s1 I T H K f x (f_pos x + Z.of_nat (length got)) Hrep1) as (s2 & E2 & Hrep2 & (Ef2 & Ei2 & Ed2) & Es2);
    [by rewrite Ef | lia |]. exists s2.
  unfold file_read, mbind, st_bind. rewrite (get_file_ok s f x Hx), E1, i32_id, E2 by lia.
  split_and!; [done | done | congruence |]. unfold moved. rewrite Ef2, Ei2, Ed2, Ef, Ei, Ed. done.
Qed.

(** Writing the bytes of a file's inode keeps everything else. *)
Lemma repr_write s s' I T H K L' k d offset P :
  repr s I T H K → touch s s' L' → I !! k = Some d → k ≠ FREE_MAP_SECTOR → k ≠ ROOT_DIR_SECTOR →
  write_effect (secs s) d offset P L' →
  repr s' I T H K ∧ ∀ k' d', I !! k' = Some d' → k' ≠ k → inode_bytes (secs s') d' = inode_bytes (secs s) d'.
Proof.
  intros [Hc Hs] Ht Hk Hne Hne1 Hw. pose proof (write_keeps s s' I T H K L' k d offset P Hc Ht Hk Hw) as Hkeep.
  split; [split; [by eapply core_write |] | done].
  destruct Hs as (d0 & Hd0 & E). exists d0. split; [done |]. rewrite (Hkeep _ _ Hd0) by done.
  by destruct Ht as (_ & _ & _ & -> & _).
Qed.

Lemma file_write_ok s I T H K f x y buffer size :
  repr s I T H K → files s !! f = Some x → inodes s !! f_inode x = Some y →
  i_sector y ≠ FREE_MAP_SECTOR → i_sector y ≠ ROOT_DIR_SECTOR → deny_write_cnt y = 0 →
  0 ≤ size ≤ Z.of_nat (length buffer) → Z.of_nat (length buffer) < 2147483648 → Forall is_byte buffer →
  let n := written (i_data y) size (f_pos x) in
  ∃ s', file_write out_of_memory f buffer size s = Ok (n, s') ∧ repr s' I T H K ∧ moved s s' f x (f_pos x + n) ∧
    inode_bytes (secs s') (i_data y) = splice (inode_bytes (secs s) (i_data y)) (Z.to_nat (f_pos x)) (take (Z.to_nat n) buffer) ∧
    ∀ k' d', I !! k' = Some d' → k' ≠ i_sector y → inode_bytes (secs s') d' = inode_bytes (secs s) d'.
Proof.
  intros Hrep Hx Hy Hne Hne1 Hdeny Hsize Hbuf Hby n. pose proof Hrep as [Hc _].
  destruct (file_inode s I T H K f x Hc Hx) as (y' & Hy' & HI & Hwf & Hp & _). assert (y' = y) as -> by congruence.
  pose proof Hwf as (? & _).
  destruct (inode_write_at_ok out_of_memory memory_suffices (f_inode x) y buffer size (f_pos x) s) as (s1 & L' & E1 & Ht1 & Hw);
    [apply Hc | done.. |]. fold n in E1, Hw.
  destruct (repr_write s s1 I T H K L' _ _ _ _ Hrep Ht1 HI Hne Hne1 Hw) as (Hrep1 & Hkeep).
  destruct Ht1 as (_ & Es & _ & _ & _ & _ & Ei & Ef & Ed).
  assert (0 ≤ n ≤ Z.max 0 (d_length (i_data y) - f_pos x)) by (unfold n, written; lia).
  destruct (repr_move s1 I T H K f x (f_pos x + n) Hrep1) as (s2 & E2 & Hrep2 & (Ef2 & Ei2 & Ed2) & Es2); [by rewrite Ef | lia |].
  exists s2. unfold file_write, mbind, st_bind. rewrite (get_file_ok s f x Hx), E1, i32_id, E2 by lia.
  split_and!; [done | done | | rewrite Es2, Es; apply Hw |].
  - unfold moved. rewrite Ef2, Ei2, Ed2, Ef, Ei, Ed. done.
  - intros k' d' Hk' Hne'. rewrite Es2. by apply (Hkeep k').
Qed.

Lemma file_write_denied s f x y buffer size :
  files s !! f = Some x → inodes s !! f_inode x = Some y → deny_write_cnt y ≠ 0 → 0 ≤ f_pos x < 2147483648 →
  file_write out_of_memory f buffer size s = Ok (0, s).
Proof.
  intros Hx Hy Hdeny Hp. unfold file_write, inode_write_at, mbind, st_bind.
  rewrite (get_file_ok s f x Hx), (get_inode_ok s _ y Hy), (proj2 (Z.eqb_neq _ _) Hdeny). cbn [negb mret st_ret].
  unfold mret, st_ret, put_file, st_modify. rewrite i32_id, Z.add_0_r by lia. do 2 f_equal.
  destruct s, x; unfold set_files; cbn in *. f_equal. by apply insert_id.
Qed.

Lemma file_seek_ok s I T H K f x p :
  repr s I T H K → files s !! f = Some x → 0 ≤ p < 2147483648 →
  ∃ s', file_seek f p s = Ok (tt, s') ∧ repr s' I T H K ∧ secs s' = secs s ∧ moved s s' f x p.
Proof.
  intros Hrep Hx Hp. destruct (repr_move s I T H K f x p Hrep Hx Hp) as (s' & E & ? & ? & ?). exists s'.
  unfold file_seek, st_assert, st_lift, mbind, st_bind. destruct (Z.leb_spec 0 p); [| lia]. cbn [assert_that].
  by rewrite (get_file_ok s f x Hx), E.
Qed.

Lemma file_tell_ok s f x : files s !! f = Some x → file_tell f s = Ok (f_pos x, s).
Proof. intros Hx. unfold file_tell, mbind, st_bind. by rewrite (get_file_ok s f x Hx). Qed.

Lemma file_length_ok s f x y :
  files s !! f = Some x → inodes s !! f_inode x = Some y → file_length f s = Ok (d_length (i_data y), s).
Proof. intros Hx Hy. unfold file_length, inode_length, mbind, st_bind. by rewrite (get_file_ok s f x Hx), (get_inode_ok s _ y Hy). Qed.

Lemma file_deny_write_ok s I T H K f k :
  repr s I T H K → file_on s f k → few s H →
  ∃ s' x, file_deny_write f s = Ok (tt, s') ∧ repr s' I T H K ∧ file_on s' f k ∧ files s !! f = Some x ∧
    files s' = <[f := File (f_inode x) (f_pos x) true]> (files s) ∧ dirs s' = dirs s ∧ secs s' = secs s ∧ same_sectors s s'.
Proof.
  intros [Hc Hs] (x & y & Hx & Hy & Hk & Hk0 & Hk1) Hfew. unfold file_deny_write, mbind, st_bind. rewrite (get_file_ok s f x Hx).
  destruct (f_deny_write x) eqn:Hd.
  { exists s, x. split_and!; try done; [by exists x, y | | intros j z z' ??; by simplify_eq].
    symmetry. apply insert_id. rewrite Hx. destruct x; cbn in *. by subst. }
  destruct (r_open _ _ _ _ _ Hc _ y Hy) as (_ & Eo & _ & Edn).
  pose proof (denies_le s (f_inode x)). pose proof (refs_le s (f_inode x)). unfold few in Hfew.
  pose proof (core_deny s I T H K f x y true (deny_write_cnt y + 1) Hc Hx Hy ltac:(congruence) ltac:(congruence) ltac:(rewrite Hd; lia)) as Hc'.
  set (s' := set_inodes _ _) in Hc'.
  assert (inodes s' !! f_inode x = Some (Inode (i_sector y) (open_cnt y) (removed y) (deny_write_cnt y + 1) (i_data y))) as Hy'
    by (cbn; apply lookup_insert_eq).
  destruct (r_open _ _ _ _ _ Hc' _ _ Hy') as (_ & Eo' & _ & Edn'). cbn in Eo', Edn'.
  pose proof (denies_le s' (f_inode x)) as Hle.
  unfold put_file, inode_deny_write, put_inode, st_modify, mbind, st_bind, st_assert, st_lift. rewrite (get_inode_ok _ _ y) by done.
  rewrite i32_id by lia. destruct (Z.leb_spec (deny_write_cnt y + 1) (open_cnt y)) as [_|]; [| exfalso; lia].
  exists s', x. split; [done |]. split; [by split |]. split_and!; try done.
  - exists (File (f_inode x) (f_pos x) true). eexists. cbn. rewrite !lookup_insert_eq. by split_and!.
  - intros j z z' Hj Hj'. cbn in Hj'. apply lookup_insert_Some in Hj' as [[<- <-]|[? Hj']]; [cbn; congruence | congruence].
Qed.
End io.
