(* ===== verification/FsSpec.v ===== *)
(** What the file system promises its callers: a directory of names, the
    contents of files, and open handles; and that filesys.c and file.c
    implement it. *)
From S2P Require Import Prelude Bytes Bitmap Block Inode FileSys InodeThm FsInv FsAlloc FsOpen FsFile FsDir FsOps FsIo.
Local Open Scope Z_scope.

(** ** The specification *)

Record handle := Handle { h_file : Z; h_pos : Z; h_deny : bool }.

(** Files are numbered; the directory names some of them. *)
Record spec := Spec { names_of : gmap (list Z) Z; contents : gmap Z (list Z); handles : gmap loc handle }.

(** The calls a client makes, and what they return. *)
Inductive call :=
| Create (name : list Z) (initial_size : Z)
| Open (name : list Z)
| Remove (name : list Z)
| Read (h : loc) (size : Z)
| Write (h : loc) (buffer : list Z) (size : Z)
| Seek (h : loc) (pos : Z)
| Tell (h : loc)
| Length (h : loc)
| DenyWrite (h : loc)
| AllowWrite (h : loc)
| Close (h : loc).

Inductive answer := ABool (b : bool) | AHandle (h : option loc) | ABytes (l : list Z) | ANumber (n : Z) | AUnit.

(** A file lives while it has a name or an open handle. *)
Definition live (a : spec) : gset Z := map_img (names_of a) ∪ map_img (h_file <$> handles a).

Definition collect (a : spec) : spec :=
  Spec (names_of a) (filter (λ p, p.1 ∈ live a) (contents a)) (handles a).

Definition denied (a : spec) (k : Z) : Prop := ∃ h x, handles a !! h = Some x ∧ h_file x = k ∧ h_deny x = true.

Definition set_handle (h : loc) (x : handle) (a : spec) : spec :=
  Spec (names_of a) (contents a) (<[h := x]> (handles a)).

Inductive spec_step : spec → call → answer → spec → Prop :=
| SCreate a name len k :
    name_ok name → names_of a !! name = None → contents a !! k = None →
    spec_step a (Create name len) (ABool true)
      (Spec (<[name := k]> (names_of a)) (<[k := replicate (Z.to_nat len) 0]> (contents a)) (handles a))
| SCreateFail a name len : spec_step a (Create name len) (ABool false) a
| SOpen a name k h :
    names_of a !! name = Some k → handles a !! h = None →
    spec_step a (Open name) (AHandle (Some h)) (set_handle h (Handle k 0 false) a)
| SOpenMissing a name :
    names_of a !! name = None → spec_step a (Open name) (AHandle None) a
| SRemove a name :
    spec_step a (Remove name) (ABool (bool_decide (is_Some (names_of a !! name))))
      (collect (Spec (delete name (names_of a)) (contents a) (handles a)))
| SRead a h x b size :
    handles a !! h = Some x → contents a !! h_file x = Some b →
    let got := take (Z.to_nat size) (drop (Z.to_nat (h_pos x)) b) in
    spec_step a (Read h size) (ABytes got)
      (set_handle h (Handle (h_file x) (h_pos x + Z.of_nat (length got)) (h_deny x)) a)
| SWrite a h x b buffer size :
    handles a !! h = Some x → contents a !! h_file x = Some b → ¬ denied a (h_file x) →
    let n := Z.max 0 (Z.min size (Z.of_nat (length b) - h_pos x)) in
    spec_step a (Write h buffer size) (ANumber n)
      (Spec (names_of a) (<[h_file x := splice b (Z.to_nat (h_pos x)) (take (Z.to_nat n) buffer)]> (contents a))
        (<[h := Handle (h_file x) (h_pos x + n) (h_deny x)]> (handles a)))
| SWriteDenied a h x buffer size :
    handles a !! h = Some x → denied a (h_file x) → spec_step a (Write h buffer size) (ANumber 0) a
| SSeek a h x pos :
    handles a !! h = Some x → spec_step a (Seek h pos) AUnit (set_handle h (Handle (h_file x) pos (h_deny x)) a)
| STell a h x : handles a !! h = Some x → spec_step a (Tell h) (ANumber (h_pos x)) a
| SLength a h x b :
    handles a !! h = Some x → contents a !! h_file x = Some b →
    spec_step a (Length h) (ANumber (Z.of_nat (length b))) a
| SDeny a h x :
    handles a !! h = Some x → spec_step a (DenyWrite h) AUnit (set_handle h (Handle (h_file x) (h_pos x) true) a)
| SAllow a h x :
    handles a !! h = Some x → spec_step a (AllowWrite h) AUnit (set_handle h (Handle (h_file x) (h_pos x) false) a)
| SClose a h x :
    handles a !! h = Some x →
    spec_step a (Close h) AUnit (collect (Spec (names_of a) (contents a) (delete h (handles a)))).

(** What a client must respect: names are C strings, sizes and positions fit
    their types, buffers are as long as it says, and handles are open. *)
Definition call_ok (a : spec) (c : call) : Prop :=
  match c with
  | Create name len => c_name name ∧ 0 ≤ len ≤ 2147483135
  | Open name | Remove name => c_name name
  | Read h size => is_Some (handles a !! h) ∧ size < 2147483648
  | Write h buffer size => is_Some (handles a !! h) ∧ 0 ≤ size ≤ Z.of_nat (length buffer) ∧
      Z.of_nat (length buffer) < 2147483648 ∧ Forall is_byte buffer
  | Seek h pos => is_Some (handles a !! h) ∧ 0 ≤ pos < 2147483648
  | Tell h | Length h | DenyWrite h | AllowWrite h | Close h => is_Some (handles a !! h)
  end.

Section refine.
Context {D : Type} `{!Device D} `{!DeviceLaws D} (out_of_memory : loc → bool).
Context (memory_suffices : ∀ a, out_of_memory a = false).
Implicit Types s : fs D.
#[local] Arguments held : simpl never.
#[local] Arguments refs : simpl never.
#[local] Arguments denies : simpl never.

(** ** What a state implements *)

(** Numbers 0 and 1 are the free map's and the root directory's. *)
Definition user (k : Z) : Prop := k ≠ FREE_MAP_SECTOR ∧ k ≠ ROOT_DIR_SECTOR.

#[local] Instance user_dec k : Decision (user k).
Proof. unfold user. apply _. Defined.

Definition handle_of (s : fs D) (x : file) : option handle :=
  y ← inodes s !! f_inode x;
  if decide (user (i_sector y)) then Some (Handle (i_sector y) (f_pos x) (f_deny_write x)) else None.

Definition user_handles (s : fs D) : gmap loc handle := omap (handle_of s) (files s).

Definition user_contents (s : fs D) (I : gmap Z inode_disk) : gmap Z (list Z) :=
  inode_bytes (secs s) <$> filter (λ p, user p.1) I.

Definition view (s : fs D) I T : spec := Spec T (user_contents s I) (user_handles s).

Definition implements (s : fs D) (a : spec) : Prop :=
  ∃ I T, repr s I T [] [] ∧ dirs s = ∅ ∧ a = view s I T.

Lemma user_handles_Some s h z :
  user_handles s !! h = Some z ↔
  ∃ x y, files s !! h = Some x ∧ inodes s !! f_inode x = Some y ∧ user (i_sector y) ∧
    z = Handle (i_sector y) (f_pos x) (f_deny_write x).
Proof.
  unfold user_handles, handle_of. rewrite lookup_omap. destruct (files s !! h) as [x|]; [| naive_solver]. cbn.
  destruct (inodes s !! f_inode x) as [y|] eqn:E; cbn; [| naive_solver]. case_decide; naive_solver.
Qed.

Lemma user_contents_Some s I k b :
  user_contents s I !! k = Some b ↔ ∃ d, I !! k = Some d ∧ user k ∧ b = inode_bytes (secs s) d.
Proof.
  unfold user_contents. rewrite lookup_fmap_Some. split.
  - intros (d & <- & [? ?]%map_lookup_filter_Some). by exists d.
  - intros (d & ? & ? & ->). exists d. split; [done |]. by apply map_lookup_filter_Some.
Qed.

(** A handle in [user_handles] is an open file. *)
Lemma handle_file s I T h z :
  core s I T [] [] → user_handles s !! h = Some z →
  ∃ x y, files s !! h = Some x ∧ inodes s !! f_inode x = Some y ∧ user (i_sector y) ∧ file_on s h (i_sector y) ∧
    I !! i_sector y = Some (i_data y) ∧ z = Handle (i_sector y) (f_pos x) (f_deny_write x) ∧
    user_contents s I !! i_sector y = Some (inode_bytes (secs s) (i_data y)).
Proof.
  intros Hc (x & y & Hx & Hy & Hu & ->)%user_handles_Some. destruct (r_open _ _ _ _ _ Hc _ y Hy) as (HI & _).
  exists x, y. split_and!; try done; [exists x, y; by destruct Hu |]. apply user_contents_Some. by exists (i_data y).
Qed.

(** The entry of a file that does not change. *)
Lemma handle_of_same s s' x :
  same_sectors s s' → is_Some (inodes s !! f_inode x) → is_Some (inodes s' !! f_inode x) → handle_of s' x = handle_of s x.
Proof. intros Hss [y Hy] [y' Hy']. unfold handle_of. rewrite Hy, Hy'. cbn. by rewrite (Hss _ _ _ Hy Hy'). Qed.

Lemma user_handles_other s s' I T I' T' H K H' K' h :
  core s I T H K → core s' I' T' H' K' → same_sectors s s' → files s' !! h = files s !! h →
  user_handles s' !! h = user_handles s !! h.
Proof.
  intros Hc Hc' Hss E. unfold user_handles. rewrite !lookup_omap, E. destruct (files s !! h) as [x|] eqn:Ex; [| done]. cbn.
  apply handle_of_same; [done | by apply (r_file _ _ _ _ _ Hc h) | by apply (r_file _ _ _ _ _ Hc' h)].
Qed.

Lemma user_handles_same s s' I T I' T' H K H' K' :
  core s I T H K → core s' I' T' H' K' → same_sectors s s' → files s' = files s → user_handles s' = user_handles s.
Proof. intros Hc Hc' Hss E. apply map_eq. intros h. eapply user_handles_other; [done.. | by rewrite E]. Qed.

(** One file's entry changes, and stays on the same inode. *)
Lemma user_handles_update s s' I T I' T' h x y x' :
  core s I T [] [] → core s' I' T' [] [] → same_sectors s s' → files s !! h = Some x → inodes s !! f_inode x = Some y →
  user (i_sector y) → files s' = <[h := x']> (files s) → f_inode x' = f_inode x →
  user_handles s' = <[h := Handle (i_sector y) (f_pos x') (f_deny_write x')]> (user_handles s).
Proof.
  intros Hc Hc' Hss Hx Hy Hu Ef Ei. apply map_eq. intros g. destruct (decide (g = h)) as [->|].
  - rewrite lookup_insert_eq. apply user_handles_Some. assert (files s' !! h = Some x') as Hx' by (by rewrite Ef, lookup_insert_eq).
    destruct (r_file _ _ _ _ _ Hc' h x' Hx') as [[y' Hy'] _]. exists x', y'. rewrite Ei in Hy'.
    rewrite <-(Hss _ _ _ Hy Hy') in Hu |- *. by rewrite Ei.
  - rewrite lookup_insert_ne by done. eapply user_handles_other; [done.. |]. by rewrite Ef, lookup_insert_ne.
Qed.

Lemma moved_handles s s' I T h x y p :
  repr s I T [] [] → repr s' I T [] [] → files s !! h = Some x → inodes s !! f_inode x = Some y → user (i_sector y) →
  moved s s' h x p → user_handles s' = <[h := Handle (i_sector y) p (f_deny_write x)]> (user_handles s).
Proof.
  intros [Hc _] [Hc' _] Hx Hy Hu (Ef & Ei & _).
  apply (user_handles_update s s' I T I T h x y (File (f_inode x) p (f_deny_write x))); try done.
  intros j z z' Hj Hj'. rewrite Ei in Hj'. congruence.
Qed.

Lemma user_contents_same s s' I :
  (∀ k d, I !! k = Some d → user k → inode_bytes (secs s') d = inode_bytes (secs s) d) →
  user_contents s' I = user_contents s I.
Proof.
  intros Hb. apply map_eq. intros k. apply option_eq. intros b. rewrite !user_contents_Some.
  split; intros (d & Hd & Hu & ->); exists d; rewrite (Hb k d); done.
Qed.

Lemma user_contents_keeps s s' I : keeps_files s s' I → user_contents s' I = user_contents s I.
Proof. intros Hk. apply user_contents_same. intros k d ? []. by apply (Hk k). Qed.

(** What is left on the disk is what lives. *)
Lemma live_contents s s' I I' T' :
  repr s' I' T' [] [] → dirs s' = ∅ → I' ⊆ I → keeps_files s s' I' →
  view s' I' T' = collect (Spec T' (user_contents s I) (user_handles s')).
Proof.
  intros [Hc _] Hdirs Hsub Hk. unfold view, collect. cbn [names_of contents handles]. f_equal.
  set (L := live _).
  assert (∀ k, user k → k ∈ L → is_Some (I' !! k)) as Hlive.
  { intros k Hu [[nm Hnm]%elem_of_map_img|[h Hh]%elem_of_map_img]%elem_of_union; cbn in *.
    - by apply (r_names _ _ _ _ _ Hc nm k).
    - apply lookup_fmap_Some in Hh as (z & <- & Hz). destruct (handle_file _ _ _ _ _ Hc Hz) as (x & y & _ & _ & _ & _ & HI & -> & _).
      by eexists. }
  assert (∀ k d, I' !! k = Some d → user k → k ∈ L) as Hdead.
  { intros k d Hkd Hu. apply elem_of_union.
    destruct (r_live _ _ _ _ _ Hc k d Hkd) as [E|[E|[[nm Hnm]|[?%elem_of_nil|(i & x & Hx & Hxk & Hr)]]]]; try (by destruct Hu).
    - left. apply elem_of_map_img. by exists nm.
    - right. apply elem_of_map_img. destruct (r_open _ _ _ _ _ Hc i x Hx) as (_ & Eo & Hge & _).
      unfold refs in Eo. rewrite Hdirs, (count_empty (λ x, dir_inode x = i)) in Eo. change (held [] i) with 0%nat in Eo.
      destruct (decide (∃ f z, files s' !! f = Some z ∧ f_inode z = i)) as [(f & z & Hz & Ez)|Hno].
      + exists f. cbn. rewrite lookup_fmap_Some. exists (Handle k (f_pos z) (f_deny_write z)). split; [done |].
        apply user_handles_Some. exists z, x. rewrite Ez, Hxk. done.
      + rewrite count_zero in Eo; [lia |]. intros f z Hz Ez. apply Hno. by exists f, z. }
  apply map_eq. intros k. apply option_eq. intros b. rewrite map_lookup_filter_Some, !user_contents_Some. cbn [fst]. split.
  - intros (d & Hd & Hu & ->). split; [| by apply (Hdead k d)]. exists d. assert (I !! k = Some d) by (by eapply lookup_weaken).
    split_and!; [done..|]. apply (Hk k); done || apply Hu.
  - intros [(d & Hd & Hu & ->) HL]. destruct (Hlive k Hu HL) as [d' Hd']. assert (d' = d) as ->.
    { pose proof (lookup_weaken _ _ _ _ Hd' Hsub). congruence. }
    exists d. split_and!; [done..|]. symmetry. apply (Hk k); try done; apply Hu.
Qed.
(** ** The code of a call *)

Context (garbage : list Z) (garbage_length : length garbage = 20%nat) (garbage_bytes : Forall is_byte garbage).

Definition run_call (c : call) : FM (D:=D) answer :=
  match c with
  | Create name len => b ← filesys_create out_of_memory garbage name len; mret (ABool b)
  | Open name => o ← filesys_open out_of_memory garbage name; mret (AHandle o)
  | Remove name => b ← filesys_remove out_of_memory garbage name; mret (ABool b)
  | Read h size => l ← file_read out_of_memory h size; mret (ABytes l)
  | Write h buffer size => n ← file_write out_of_memory h buffer size; mret (ANumber n)
  | Seek h pos => file_seek h pos;; mret AUnit
  | Tell h => n ← file_tell h; mret (ANumber n)
  | Length h => n ← file_length h; mret (ANumber n)
  | DenyWrite h => file_deny_write h;; mret AUnit
  | AllowWrite h => file_allow_write h;; mret AUnit
  | Close h => file_close out_of_memory (Some h);; mret AUnit
  end.

(** ** Every call refines its specification *)

(** The number of files that can be open at once. *)
Definition refines s (a : spec) (c : call) : Prop :=
  ∃ r s' a', run_call c s = Ok (r, s') ∧ spec_step a c r a' ∧ implements s' a' ∧ (size (files s') ≤ S (size (files s)))%nat.

Lemma refine_create s a name len : implements s a → few_open s → call_ok a (Create name len) → refines s a (Create name len).
Proof.
  intros (I & T & Hrep & Hdirs & ->) Hfew [Hname Hlen].
  destruct (filesys_create_ok out_of_memory memory_suffices garbage garbage_length garbage_bytes s I T name len Hrep Hfew Hname Hlen)
    as (r & s' & E & Hk & Ef & Ed & Hss & Hr). exists (ABool r), s'. unfold run_call, mbind, st_bind. rewrite E.
  destruct r.
  - destruct Hr as (Hnm & HT & k & dk & HIk & Hlk & Hbk & Hrep').
    exists (view s' (<[k := dk]> I) (<[name := k]> T)). split_and!; [done | | | by rewrite Ef; lia].
    + unfold view. rewrite (user_handles_same s s' _ _ _ _ _ _ _ _ (proj1 Hrep) (proj1 Hrep')) by done.
      destruct (r_names _ _ _ _ _ (proj1 Hrep') name k) as (_ & Hk0 & Hk1 & _); [apply lookup_insert_eq |].
      assert (user_contents s' (<[k := dk]> I) = <[k := replicate (Z.to_nat len) 0]> (user_contents s I)) as ->.
      { apply map_eq. intros j. apply option_eq. intros b. rewrite user_contents_Some, lookup_insert_Some, user_contents_Some. split.
        - intros (d & [[<- <-]|[? Hd]]%lookup_insert_Some & Hu & ->); [left; by rewrite Hbk | right].
          split; [done |]. exists d. split_and!; try done. apply (Hk j); try done; apply Hu.
        - intros [[<- <-]|[? (d & Hd & Hu & ->)]]; [exists dk | exists d].
          + by rewrite lookup_insert_eq, Hbk.
          + rewrite lookup_insert_ne by done. split_and!; try done. symmetry. apply (Hk j); try done; apply Hu. }
      apply SCreate; [done.. |]. cbn. apply eq_None_not_Some. intros [b (d & Hd & _)%user_contents_Some]. congruence.
    + exists (<[k := dk]> I), (<[name := k]> T). split_and!; [done | by rewrite Ed | done].
  - destruct Hr as [Hrep' _]. exists (view s I T). split_and!; [done | apply SCreateFail | | by rewrite Ef; lia].
    exists I, T. split_and!; [done | by rewrite Ed |]. unfold view. f_equal.
    + symmetry. by apply user_contents_keeps.
    + symmetry. by apply (user_handles_same s s' _ _ _ _ _ _ _ _ (proj1 Hrep) (proj1 Hrep')).
Qed.

Lemma refine_open s a name : implements s a → few_open s → call_ok a (Open name) → refines s a (Open name).
Proof.
  intros (I & T & Hrep & Hdirs & ->) Hfew Hname.
  destruct (filesys_open_ok out_of_memory memory_suffices garbage garbage_length s I T name Hrep Hfew Hname)
    as (o & s' & E & Hrep' & Hk & Ed & Hss & Ho). exists (AHandle o), s', (view s' I T). unfold run_call, mbind, st_bind. rewrite E.
  assert (implements s' (view s' I T)) as Himp by (exists I, T; by rewrite Ed).
  unfold view at 2. rewrite (user_contents_keeps _ _ _ Hk). destruct (T !! name) as [k|] eqn:ET.
  - destruct Ho as (f & i & -> & Hf & Ef & Hon). split_and!; [done | | done | rewrite Ef; rewrite map_size_insert_None by done; lia].
    assert (user_handles s' = <[f := Handle k 0 false]> (user_handles s)) as ->.
    { apply map_eq. intros g. destruct (decide (g = f)) as [->|].
      - rewrite lookup_insert_eq. apply user_handles_Some. destruct Hon as (x & y & Hx & Hy & Hk' & ? & ?). exists x, y.
        rewrite Ef, lookup_insert_eq in Hx. injection Hx as <-. rewrite Hk'. split_and!; try done. by rewrite Ef, lookup_insert_eq.
      - rewrite lookup_insert_ne by done. apply (user_handles_other s s' _ _ _ _ _ _ _ _ _ (proj1 Hrep) (proj1 Hrep') Hss).
        by rewrite Ef, lookup_insert_ne. }
    apply (SOpen (view s I T)); [done |]. cbn. unfold user_handles. by rewrite lookup_omap, Hf.
  - destruct Ho as [-> Ef]. split_and!; [done | | done | rewrite Ef; lia].
    rewrite (user_handles_same s s' _ _ _ _ _ _ _ _ (proj1 Hrep) (proj1 Hrep')) by done. by apply (SOpenMissing (view s I T)).
Qed.

Lemma refine_remove s a name : implements s a → few_open s → call_ok a (Remove name) → refines s a (Remove name).
Proof.
  intros (I & T & Hrep & Hdirs & ->) Hfew Hname.
  destruct (filesys_remove_ok out_of_memory memory_suffices garbage garbage_length s I T name Hrep Hfew Hname)
    as (s' & I' & E & Hk & Ef & Ed & Hss & Hsub & Hrep').
  exists (ABool (bool_decide (is_Some (T !! name)))), s', (view s' I' (delete name T)). unfold run_call, mbind, st_bind. rewrite E.
  split_and!; [done | | exists I', (delete name T); by rewrite Ed | rewrite Ef; lia].
  rewrite (live_contents s s' I I' (delete name T)) by (done || by rewrite Ed).
  rewrite (user_handles_same s s' _ _ _ _ _ _ _ _ (proj1 Hrep) (proj1 Hrep')) by done. apply (SRemove (view s I T)).
Qed.

(** The calls on a handle. *)
Lemma refine_read s a h size : implements s a → call_ok a (Read h size) → refines s a (Read h size).
Proof.
  intros (I & T & Hrep & Hdirs & ->) [[z Hz] Hsize].
  destruct (handle_file _ _ _ _ _ (proj1 Hrep) Hz) as (x & y & Hx & Hy & Hu & _ & HI & -> & Hb).
  destruct (file_read_ok out_of_memory memory_suffices s I T [] [] h x y size Hrep Hx Hy Hsize) as (s' & E & Hrep' & Es & Hm).
  pose proof (moved_handles _ _ _ _ _ _ _ _ Hrep Hrep' Hx Hy Hu Hm) as Eh. destruct Hm as (Ef & _ & Ed).
  eexists _, s', (view s' I T). unfold run_call, mbind, st_bind. rewrite E.
  split_and!; [done | | exists I, T; by rewrite Ed | rewrite Ef, map_size_insert_Some by (by eexists); lia].
  unfold view at 2. rewrite Eh, (user_contents_same s s' I) by (intros; by rewrite Es).
  by apply (SRead (view s I T) h (Handle (i_sector y) (f_pos x) (f_deny_write x))).
Qed.

(** The counter of an inode and the handles that deny writes. *)
Lemma denied_cnt s I T y i :
  repr s I T [] [] → inodes s !! i = Some y → user (i_sector y) →
  if decide (deny_write_cnt y = 0) then ¬ denied (view s I T) (i_sector y) else denied (view s I T) (i_sector y).
Proof.
  intros [Hc _] Hy Hu. destruct (r_open _ _ _ _ _ Hc i y Hy) as (_ & _ & _ & ->). case_decide as E.
  - intros (h & z & Hz & Ez & Hd). cbn in Hz. destruct (handle_file _ _ _ _ _ Hc Hz) as (x & y' & Hx & Hy' & _ & _ & _ & -> & _).
    cbn in Ez, Hd. assert (f_inode x = i) as Ei by (by apply (r_sector _ _ _ _ _ Hc _ _ y' y)).
    pose proof (count_pos (λ z, f_inode z = i ∧ f_deny_write z = true) (files s) h x Hx (conj Ei Hd)) as Hpos.
    fold (denies s i) in Hpos. lia.
  - destruct (count_elem (λ z, f_inode z = i ∧ f_deny_write z = true) (files s)) as (h & x & Hx & Ei & Hd); [fold (denies s i); lia |].
    exists h, (Handle (i_sector y) (f_pos x) (f_deny_write x)). split_and!; try done. apply user_handles_Some. exists x, y. by rewrite Ei.
Qed.

Lemma refine_write s a h buffer size :
  implements s a → call_ok a (Write h buffer size) → refines s a (Write h buffer size).
Proof.
  intros (I & T & Hrep & Hdirs & ->) ([z Hz] & Hsize & Hbuf & Hby). pose proof Hrep as [Hc _].
  destruct (handle_file _ _ _ _ _ Hc Hz) as (x & y & Hx & Hy & Hu & _ & HI & -> & Hb).
  destruct (file_inode s I T [] [] h x Hc Hx) as (y' & Hy' & _ & Hwf & Hp & Hl & _). assert (y' = y) as -> by congruence.
  pose proof (denied_cnt s I T y (f_inode x) Hrep Hy Hu) as Hden. unfold refines, run_call, mbind, st_bind.
  case_decide as Hdeny.
  2: { rewrite (file_write_denied out_of_memory s h x y) by done. eexists _, s, (view s I T).
       split_and!; [done | | by exists I, T | lia].
       by apply (SWriteDenied _ h (Handle (i_sector y) (f_pos x) (f_deny_write x))). }
  pose proof Hu as [Hu0 Hu1].
  destruct (file_write_ok out_of_memory memory_suffices s I T [] [] h x y buffer size Hrep Hx Hy Hu0 Hu1 Hdeny Hsize Hbuf Hby)
    as (s' & E & Hrep' & Hm & Hbytes & Hothers). rewrite E.
  pose proof (moved_handles _ _ _ _ _ _ _ _ Hrep Hrep' Hx Hy Hu Hm) as Eh. destruct Hm as (Ef & _ & Ed).
  eexists _, s', (view s' I T). split_and!; [done | | exists I, T; by rewrite Ed | rewrite Ef, map_size_insert_Some by (by eexists); lia].
  set (n := written (i_data y) size (f_pos x)) in *. set (b := inode_bytes (secs s) (i_data y)) in *.
  assert (user_contents s' I = <[i_sector y := splice b (Z.to_nat (f_pos x)) (take (Z.to_nat n) buffer)]> (user_contents s I)) as Ec.
  { apply map_eq. intros k. apply option_eq. intros c. rewrite user_contents_Some, lookup_insert_Some, user_contents_Some.
    destruct (decide (k = i_sector y)) as [->|Hne]; split.
    - intros (d & Hd & _ & ->). left. assert (d = i_data y) as -> by congruence. done.
    - intros [[_ <-]|[? _]]; [| done]. by exists (i_data y).
    - intros (d & Hd & ? & ->). right. split; [done |]. exists d. rewrite (Hothers k d); done.
    - intros [[? _]|[_ (d & Hd & ? & ->)]]; [done |]. exists d. rewrite (Hothers k d); done. }
  assert (n = Z.max 0 (Z.min size (Z.of_nat (length b) - f_pos x))) as En.
  { unfold n, written. rewrite Hl. destruct Hwf as (? & _). lia. }
  unfold view at 2. rewrite Eh, Ec, En.
  by apply (SWrite (view s I T) h (Handle (i_sector y) (f_pos x) (f_deny_write x)) b).
Qed.

Lemma refine_seek s a h pos : implements s a → call_ok a (Seek h pos) → refines s a (Seek h pos).
Proof.
  intros (I & T & Hrep & Hdirs & ->) [[z Hz] Hp].
  destruct (handle_file _ _ _ _ _ (proj1 Hrep) Hz) as (x & y & Hx & Hy & Hu & _ & HI & -> & Hb).
  destruct (file_seek_ok s I T [] [] h x pos Hrep Hx Hp) as (s' & E & Hrep' & Es & Hm).
  pose proof (moved_handles _ _ _ _ _ _ _ _ Hrep Hrep' Hx Hy Hu Hm) as Eh. destruct Hm as (Ef & _ & Ed).
  eexists _, s', (view s' I T). unfold run_call, mbind, st_bind. rewrite E.
  split_and!; [done | | exists I, T; by rewrite Ed | rewrite Ef, map_size_insert_Some by (by eexists); lia].
  unfold view at 2. rewrite Eh, (user_contents_same s s' I) by (intros; by rewrite Es).
  by apply (SSeek (view s I T) h (Handle (i_sector y) (f_pos x) (f_deny_write x))).
Qed.

Lemma refine_tell s a h : implements s a → call_ok a (Tell h) → refines s a (Tell h).
Proof.
  intros (I & T & Hrep & Hdirs & ->) [z Hz].
  destruct (handle_file _ _ _ _ _ (proj1 Hrep) Hz) as (x & y & Hx & Hy & Hu & _ & HI & -> & Hb).
  eexists _, s, (view s I T). unfold run_call, mbind, st_bind. rewrite (file_tell_ok s h x Hx).
  split_and!; [done | | by exists I, T | lia]. by apply (STell _ h (Handle (i_sector y) (f_pos x) (f_deny_write x))).
Qed.

Lemma refine_length s a h : implements s a → call_ok a (Length h) → refines s a (Length h).
Proof.
  intros (I & T & Hrep & Hdirs & ->) [z Hz].
  destruct (handle_file _ _ _ _ _ (proj1 Hrep) Hz) as (x & y & Hx & Hy & Hu & _ & HI & -> & Hb).
  destruct (file_inode s I T [] [] h x (proj1 Hrep) Hx) as (y' & Hy' & _ & Hwf & Hp & Hl & _). assert (y' = y) as -> by congruence.
  eexists _, s, (view s I T). unfold run_call, mbind, st_bind. rewrite (file_length_ok s h x y Hx Hy).
  split_and!; [done | | by exists I, T | lia]. destruct Hwf as (? & _). rewrite <-(Z2Nat.id (d_length (i_data y))), <-Hl by lia.
  by apply (SLength _ h (Handle (i_sector y) (f_pos x) (f_deny_write x)) _).
Qed.

Lemma refine_deny s a h : implements s a → few_open s → call_ok a (DenyWrite h) → refines s a (DenyWrite h).
Proof.
  intros (I & T & Hrep & Hdirs & ->) Hfew [z Hz].
  destruct (handle_file _ _ _ _ _ (proj1 Hrep) Hz) as (x & y & Hx & Hy & Hu & Hon & HI & -> & Hb).
  destruct (file_deny_write_ok s I T [] [] h (i_sector y) Hrep Hon (few_open_few s Hfew))
    as (s' & x' & E & Hrep' & _ & Hx' & Ef & Ed & Es & Hss). assert (x' = x) as -> by congruence.
  eexists _, s', (view s' I T). unfold run_call, mbind, st_bind. rewrite E.
  split_and!; [done | | exists I, T; by rewrite Ed | rewrite Ef, map_size_insert_Some by (by eexists); lia].
  unfold view at 2. rewrite (user_contents_same s s' I) by (intros; by rewrite Es).
  rewrite (user_handles_update s s' I T I T h x y _ (proj1 Hrep) (proj1 Hrep') Hss Hx Hy Hu Ef) by done.
  by apply (SDeny (view s I T) h (Handle (i_sector y) (f_pos x) (f_deny_write x))).
Qed.

Lemma refine_allow s a h : implements s a → few_open s → call_ok a (AllowWrite h) → refines s a (AllowWrite h).
Proof.
  intros (I & T & Hrep & Hdirs & ->) Hfew [z Hz].
  destruct (handle_file _ _ _ _ _ (proj1 Hrep) Hz) as (x & y & Hx & Hy & Hu & Hon & HI & -> & Hb).
  destruct (file_allow_write_ok s I T [] [] h (i_sector y) Hrep Hon (few_open_few s Hfew))
    as (s' & x' & E & Hrep' & _ & Hx' & Ef & Ed & Es & _ & Hin). assert (x' = x) as -> by congruence.
  assert (same_sectors s s') as Hss.
  { intros j w w' Hw Hw'. destruct (Hin j w' Hw') as (w2 & ? & -> & _). congruence. }
  eexists _, s', (view s' I T). unfold run_call, mbind, st_bind. rewrite E.
  split_and!; [done | | exists I, T; by rewrite Ed | rewrite Ef, map_size_insert_Some by (by eexists); lia].
  unfold view at 2. rewrite (user_contents_same s s' I) by (intros; by rewrite Es).
  rewrite (user_handles_update s s' I T I T h x y _ (proj1 Hrep) (proj1 Hrep') Hss Hx Hy Hu Ef) by done.
  by apply (SAllow (view s I T) h (Handle (i_sector y) (f_pos x) (f_deny_write x))).
Qed.

Lemma refine_close s a h : implements s a → few_open s → call_ok a (Close h) → refines s a (Close h).
Proof.
  intros (I & T & Hrep & Hdirs & ->) Hfew [z Hz].
  destruct (handle_file _ _ _ _ _ (proj1 Hrep) Hz) as (x & y & Hx & Hy & Hu & Hon & HI & Ez & Hb).
  destruct (file_close_ok out_of_memory memory_suffices s I T [] [] h (i_sector y) Hrep Hon (few_open_few s Hfew))
    as (s' & x' & y' & E & _ & _ & Hrep' & Hk & Ef & Ed & Hss).
  exists AUnit, s', (view s' (closed_inodes I y') T). unfold run_call, mbind, st_bind. rewrite E.
  split_and!; [done | | exists (closed_inodes I y'), T; by rewrite Ed | rewrite Ef, map_size_delete, Hx; lia].
  pose proof (closed_subseteq I y') as Hsub.
  assert (keeps_files s s' (closed_inodes I y')) as Hkf.
  { intros k d Hd Hk0 _. apply (Hk k d); [by eapply lookup_weaken | done]. }
  rewrite (live_contents s s' I (closed_inodes I y') T) by (done || by rewrite Ed).
  assert (user_handles s' = delete h (user_handles s)) as ->; [| by apply (SClose (view s I T) h z)].
  apply map_eq. intros g. destruct (decide (g = h)) as [->|].
  - rewrite lookup_delete_eq. unfold user_handles. by rewrite lookup_omap, Ef, lookup_delete_eq.
  - rewrite lookup_delete_ne by done.
    apply (user_handles_other s s' _ _ _ _ _ _ _ _ _ (proj1 Hrep) (proj1 Hrep') (shrinks_same _ _ Hss)). by rewrite Ef, lookup_delete_ne.
Qed.

Lemma call_refines s a c : implements s a → few_open s → call_ok a c → refines s a c.
Proof.
  intros Ha Hfew Hc. destruct c; [by apply refine_create | by apply refine_open | by apply refine_remove | by apply refine_read |
    by apply refine_write | by apply refine_seek | by apply refine_tell | by apply refine_length | by apply refine_deny |
    by apply refine_allow | by apply refine_close].
Qed.
End refine.
