(* ===== verification/FsMount.v ===== *)
(** Starting the file system: the image a device must hold, mounting it, and
    formatting a device. *)
From S2P Require Import Prelude Bytes Bitmap Block Inode FileSys InodeThm FsInv FsAlloc FsOpen FsFile FsDir FsOps FsIo FsSpec.
Local Open Scope Z_scope.

(** The sectors [L] hold a file system with the inodes [I], the root directory
    [T] and the free map [B]. *)
Record image (L : list (list Z)) (B : bitmap) (I : gmap Z inode_disk) (T : gmap (list Z) Z) : Prop := {
  im_disk k d : I !! k = Some d → 0 ≤ k < Z.of_nat (length L) ∧ L !! Z.to_nat k = Some (inode_disk_bytes d) ∧
    inode_wf (length L) d ∧ inode_disk_ok d;
  im_self k d : I !! k = Some d → ¬ (d_start d ≤ k < d_start d + Z.of_nat (data_cnt d));
  im_disjoint k1 d1 k2 d2 j : I !! k1 = Some d1 → I !! k2 = Some d2 → uses k1 d1 j → uses k2 d2 j → k1 = k2;
  im_used k d j : I !! k = Some d → uses k d j → bits_of B !! Z.to_nat j = Some true;
  im_live k d : I !! k = Some d → k = FREE_MAP_SECTOR ∨ k = ROOT_DIR_SECTOR ∨ ∃ nm, T !! nm = Some k;
  im_names nm k : T !! nm = Some k → is_Some (I !! k) ∧ k ≠ FREE_MAP_SECTOR ∧ k ≠ ROOT_DIR_SECTOR;
  im_inj nm1 nm2 k : T !! nm1 = Some k → T !! nm2 = Some k → nm1 = nm2;
  im_root : ∃ d m, I !! ROOT_DIR_SECTOR = Some d ∧ dir_repr (inode_bytes L d) m T;
  im_map : bitmap_ok B ∧ bit_cnt B = Z.of_nat (length L);
  im_saved : ∃ d, I !! FREE_MAP_SECTOR = Some d ∧ d_length d = bitmap_file_size B ∧ saved_map B (inode_bytes L d);
}.

(** The inodes that are found again from the root directory. *)
Definition named (I : gmap Z inode_disk) (T : gmap (list Z) Z) : gmap Z inode_disk :=
  filter (λ p, p.1 = FREE_MAP_SECTOR ∨ p.1 = ROOT_DIR_SECTOR ∨ p.1 ∈ (map_img T : gset Z)) I.

Lemma named_Some I T k d :
  named I T !! k = Some d ↔ I !! k = Some d ∧ (k = FREE_MAP_SECTOR ∨ k = ROOT_DIR_SECTOR ∨ ∃ nm, T !! nm = Some k).
Proof. unfold named. rewrite map_lookup_filter_Some. cbn. by rewrite elem_of_map_img. Qed.

Section mount.
Context {D : Type} `{!Device D} `{!DeviceLaws D} (out_of_memory : loc → bool).
Context (memory_suffices : ∀ a, out_of_memory a = false).
Implicit Types s t : fs D.
#[local] Arguments held : simpl never.
#[local] Arguments refs : simpl never.
#[local] Arguments denies : simpl never.

(** At every moment the device holds an image of the named files. *)
Lemma image_of_repr s I T H K : repr s I T H K → image (secs s) (free_map s) (named I T) T.
Proof.
  intros [Hc (d0 & Hd0 & Hs)]. split.
  - intros k d [Hk _]%named_Some. by apply (r_disk _ _ _ _ _ Hc).
  - intros k d [Hk _]%named_Some. by apply (r_self _ _ _ _ _ Hc).
  - intros k1 d1 k2 d2 j [H1 _]%named_Some [H2 _]%named_Some. by apply (r_disjoint _ _ _ _ _ Hc k1 d1 k2 d2).
  - intros k d j [Hk _]%named_Some. by apply (r_used _ _ _ _ _ Hc k d).
  - by intros k d [_ ?]%named_Some.
  - intros nm k Hnm. destruct (r_names _ _ _ _ _ Hc nm k Hnm) as ([d Hd] & ? & ? & _). split_and!; [| done..].
    exists d. apply named_Some. split; [done |]. right; right. by exists nm.
  - apply (r_inj _ _ _ _ _ Hc).
  - destruct (r_root _ _ _ _ _ Hc) as (d & m & Hd & ?). exists d, m. split; [| done]. apply named_Some. by split; [| right; left].
  - apply (r_map _ _ _ _ _ Hc).
  - destruct (r_free_map _ _ _ _ _ Hc) as (d & _ & _ & _ & Hd & Hl & _). assert (d = d0) as -> by congruence.
    exists d0. split_and!; [| done..]. apply named_Some. by split; [| left].
Qed.

(** ** States without open files *)

Definition blank t : Prop :=
  device_ok (fs_device t) ∧ open_inodes t = [] ∧ inodes t = ∅ ∧ files t = ∅ ∧ dirs t = ∅.

(** Only the free map's file [f] is open, on the inode [i]. *)
Definition only_map t (i f : loc) (d : inode_disk) : Prop :=
  device_ok (fs_device t) ∧ open_inodes t = [i] ∧ inodes t = {[i := Inode FREE_MAP_SECTOR 1 false 0 d]} ∧
  files t = {[f := File i 0 false]} ∧ dirs t = ∅ ∧ (i < next_addr t)%positive ∧ (f < next_addr t)%positive.

Lemma blank_io t t' L' : blank t → touch t t' L' → blank t'.
Proof. intros (Hd & E1 & E2 & E3 & E4) (? & _ & _ & _ & _ & F1 & F2 & F3 & F4). unfold blank. by rewrite F1, F2, F3, F4. Qed.

Lemma only_map_io t t' L' i f d : only_map t i f d → touch t t' L' → only_map t' i f d.
Proof.
  intros (Hd & E1 & E2 & E3 & E4 & ? & ?) (? & _ & ? & _ & _ & F1 & F2 & F3 & F4). unfold only_map.
  rewrite F1, F2, F3, F4. split_and!; try done; lia.
Qed.

(** Opening the free map's file. *)
Lemma open_map_ok t d :
  blank t → secs t !! 0%nat = Some (inode_disk_bytes d) → inode_disk_ok d →
  ∃ i f t1 t2, inode_open out_of_memory FREE_MAP_SECTOR t = Ok (Some i, t1) ∧ file_open out_of_memory (Some i) t1 = Ok (Some f, t2) ∧
    only_map t2 i f d ∧ secs t2 = secs t ∧ free_map t2 = free_map t.
Proof.
  intros (Hd & E1 & E2 & E3 & E4) H0 Hok. set (i := next_addr t).
  destruct (fs_malloc_ok out_of_memory memory_suffices t Hd) as (t1 & F1 & Ht1 & Hn1).
  pose proof Ht1 as (Hd1 & Es1 & _ & Em1 & _ & El1 & Ei1 & Ef1 & Edir1).
  destruct (fs_read_ok (set_open_inodes (i :: open_inodes t1) t1) FREE_MAP_SECTOR (inode_disk_bytes d)) as (t2 & F2 & Ht2);
    [done | done | change (secs t1 !! 0%nat = Some (inode_disk_bytes d)); by rewrite Es1 |].
  pose proof Ht2 as (Hd2 & Es2 & Hn2 & Em2 & _ & El2 & Ei2 & Ef2 & Edir2).
  set (t3 := set_inodes (<[i := Inode FREE_MAP_SECTOR 1 false 0 d]>) t2).
  destruct (fs_malloc_ok out_of_memory memory_suffices t3 Hd2) as (t4 & F4 & Ht4 & Hn4). set (f := next_addr t3) in *.
  pose proof Ht4 as (Hd4 & Es4 & _ & Em4 & _ & El4 & Ei4 & Ef4 & Edir4).
  exists i, f, t3, (set_files (<[f := File i 0 false]>) t4). split_and!.
  - unfold inode_open, mbind at 1, st_bind at 1, st_get at 1. rewrite E1. cbn [find_open].
    unfold mbind, st_bind, mret, st_ret. rewrite F1. fold i. unfold st_modify. rewrite F2. unfold put_inode, st_modify.
    by rewrite inode_disk_of_bytes.
  - unfold file_open, mbind, st_bind. by rewrite F4.
  - cbn in *. unfold only_map; cbn. rewrite El4, Ei4, Ef4, Edir4; cbn. rewrite El2, Ei2, Ef2, Edir2; cbn.
    rewrite El1, Ei1, Ef1, Edir1, E1, E2, E3, E4. split_and!; try done; unfold i, f in *; cbn in *; lia.
  - change (secs (set_files _ t4)) with (secs t4). rewrite Es4. change (secs t3) with (secs t2). rewrite Es2. exact Es1.
  - change (free_map (set_files _ t4)) with (free_map t4). rewrite Em4. change (free_map t3) with (free_map t2). rewrite Em2. exact Em1.
Qed.

(** ** Mounting *)

Lemma core_boot t L B I T i f d :
  image L B I T → only_map t i f d → secs t = L → free_map_file t = Some f → I !! FREE_MAP_SECTOR = Some d →
  bitmap_ok (free_map t) → bit_cnt (free_map t) = bit_cnt B → bits_of (free_map t) = bits_of B →
  repr t I T [] [].
Proof.
  intros Him (Hd & El & Ei & Ef & Ed & Hi & Hf) EL Emf Hd0 Hok Hcnt Hbits. destruct Him.
  destruct im_saved0 as (d' & Hd' & Hl & B' & HB'). assert (d' = d) as -> by congruence.
  assert (∀ j x, inodes t !! j = Some x → j = i ∧ x = Inode FREE_MAP_SECTOR 1 false 0 d) as Honly.
  { intros j x. rewrite Ei. by intros [-> ->]%lookup_singleton_Some. }
  assert (bitmap_file_size (free_map t) = bitmap_file_size B) as Efs by (unfold bitmap_file_size; by rewrite Hcnt).
  split; [split; rewrite ?EL, ?El, ?Ei, ?Ef, ?Ed, ?Hbits, ?Hcnt, ?Efs; try done |].
  - split; [done | apply im_map0].
  - intros j x [<- <-]%lookup_singleton_Some. cbn. split_and!; [done | | done |].
    + unfold refs. rewrite Ef, Ed, count_empty, <-insert_empty, count_insert, count_empty by done. cbn. by rewrite decide_True.
    + unfold denies. rewrite Ef, <-insert_empty, count_insert, count_empty by done. cbn. by rewrite decide_False by (by intros [??]).
  - split; [apply NoDup_singleton |]. intros j. rewrite list_elem_of_singleton, lookup_singleton_is_Some. split; congruence.
  - intros i1 i2 x1 x2 [<- _]%lookup_singleton_Some [<- _]%lookup_singleton_Some. done.
  - intros g x [<- <-]%lookup_singleton_Some. cbn. rewrite lookup_singleton_eq. by split.
  - intros j ?%elem_of_nil. done.
  - intros a [<-%lookup_singleton_is_Some | [<-%lookup_singleton_is_Some | [??]]]; done.
  - intros k dk Hk. destruct (im_live0 k dk Hk) as [?|[?|?]]; tauto.
  - intros j x [<- <-]%lookup_singleton_Some. done.
  - intros nm k Hnm. destruct (im_names0 nm k Hnm) as (? & ? & ?). split_and!; try done. apply not_elem_of_nil.
  - intros k ?%elem_of_nil. done.
  - exists d, f, (File i 0 false). eexists. rewrite !lookup_singleton_eq. split_and!; try done.
  - intros j x [<- <-]%lookup_singleton_Some. done.
  - exists d. split; [done |]. rewrite EL. exists B'. by rewrite Hcnt, Hbits.
Qed.
Lemma only_map_handles t i f d : only_map t i f d → user_handles t = ∅.
Proof.
  intros (_ & _ & Ei & Ef & _). apply map_eq. intros h. rewrite lookup_empty. apply eq_None_not_Some.
  intros [z (x & y & Hx & Hy & [? _] & _)%user_handles_Some]. rewrite Ef in Hx. apply lookup_singleton_Some in Hx as [<- <-].
  cbn in Hy. rewrite Ei, lookup_singleton_eq in Hy. by injection Hy as <-.
Qed.

Lemma free_map_open_ok t B I T :
  image (secs t) B I T → blank t → bitmap_ok (free_map t) → bit_cnt (free_map t) = bit_cnt B →
  ∃ t', free_map_open out_of_memory t = Ok (tt, t') ∧ repr t' I T [] [] ∧ secs t' = secs t ∧ dirs t' = ∅ ∧ user_handles t' = ∅ ∧
    size (files t') = 1%nat.
Proof.
  intros Him Hblank Hok Hcnt. destruct (im_saved _ _ _ _ Him) as (d & Hd & Hl & B' & HB' & Hc' & Hb' & Hbytes).
  destruct (im_disk _ _ _ _ Him _ _ Hd) as (_ & H0 & Hwf & Hdok).
  destruct (open_map_ok t d Hblank H0 Hdok) as (i & f & t1 & t2 & E1 & E2 & Honly & Es2 & Em2).
  set (t3 := set_free_map_file (Some f) t2).
  assert (only_map t3 i f d) as Honly3 by exact Honly. pose proof Honly3 as (Hd3 & _ & Ei3 & Ef3 & Edir3 & _).
  set (size := bitmap_file_size (free_map t)). assert (size = d_length d) as Esize by (rewrite Hl; unfold size, bitmap_file_size; by rewrite Hcnt).
  pose proof Hwf as (Hlen & _).
  destruct (inode_read_at_ok out_of_memory memory_suffices i (Inode FREE_MAP_SECTOR 1 false 0 d) size 0 t3) as (t4 & E4 & Ht4);
    [done | by rewrite Ei3, lookup_singleton_eq | change (secs t3) with (secs t2); by rewrite Es2 | lia | lia |].
  change (secs t3) with (secs t2) in E4, Ht4. rewrite Es2 in E4, Ht4. cbn [i_data] in E4.
  pose proof (inode_bytes_length (secs t) d (device_sectors t (proj1 Hblank)) Hwf) as Hbl.
  change (drop (Z.to_nat 0) ?l) with l in E4. rewrite take_ge, Hbytes in E4 by (rewrite Hbl, Esize; lia).
  destruct (bitmap_read_ok B' (free_map t) HB' Hok ltac:(congruence)) as (m & E5 & Hmok & Hmc & Hmb).
  pose proof (only_map_io t3 t4 _ i f d Honly3 Ht4) as Honly4. pose proof Ht4 as (_ & Es4 & _ & Em4 & Eff4 & _).
  exists (set_free_map m t4). split_and!.
  - unfold free_map_open, mbind, st_bind. rewrite E1, E2. unfold st_modify. fold t3. unfold st_get.
    change (free_map t3) with (free_map t2). rewrite Em2. fold size. unfold file_read_at, mbind, st_bind.
    rewrite (get_file_ok t3 f (File i 0 false)) by (by rewrite Ef3, lookup_singleton_eq). cbn [f_inode].
    rewrite E4. unfold st_lift. by rewrite E5.
  - apply (core_boot _ (secs t) B I T i f d); try done; cbn; congruence.
  - exact Es4.
  - apply Honly4.
  - exact (only_map_handles (set_free_map m t4) i f d Honly4).
  - change (files (set_free_map m t4)) with (files t4). destruct Honly4 as (_ & _ & _ & -> & _). apply map_size_singleton.
Qed.

(** ** Closing *)

(** Closing the free map's file leaves the device as it is. *)
Lemma free_map_close_ok s f x y :
  free_map_file s = Some f → files s !! f = Some x → f_deny_write x = false → inodes s !! f_inode x = Some y →
  removed y = false → 1 ≤ open_cnt y < 2147483648 →
  ∃ s', free_map_close out_of_memory s = Ok (tt, s') ∧ fs_device s' = fs_device s ∧ free_map s' = free_map s ∧
    files s' = delete f (files s) ∧ dirs s' = dirs s ∧
    (open_cnt y = 1 → inodes s' = delete (f_inode x) (inodes s) ∧ open_inodes s' = filter (λ j, j ≠ f_inode x) (open_inodes s)).
Proof.
  intros Hf Hx Hdeny Hy Hrem Hcnt. unfold free_map_close, mbind at 1, st_bind at 1, st_get at 1. rewrite Hf.
  unfold file_close, file_allow_write, mbind, st_bind. rewrite !(get_file_ok s f x Hx), Hdeny.
  unfold mret, st_ret. rewrite (get_file_ok s f x Hx). unfold inode_close, mbind, st_bind.
  rewrite (get_inode_ok s _ y Hy), i32_id by lia. unfold put_inode, st_modify. rewrite Hrem.
  destruct (Z.eqb_spec (open_cnt y - 1) 0) as [E|E]; eexists; (split; [done |]); cbn; split_and!; try done; intros E'; [| lia].
  by rewrite delete_insert_eq.
Qed.

Lemma only_map_close s i f d :
  only_map s i f d → free_map_file s = Some f →
  ∃ s', free_map_close out_of_memory s = Ok (tt, s') ∧ blank s' ∧ secs s' = secs s ∧ free_map s' = free_map s.
Proof.
  intros (Hd & El & Ei & Ef & Ed & _) Hf.
  destruct (free_map_close_ok s f (File i 0 false) (Inode FREE_MAP_SECTOR 1 false 0 d)) as (s' & E & Edev & Em & Efs & Eds & Hin);
    [done | by rewrite Ef, lookup_singleton_eq | done | by rewrite Ei, lookup_singleton_eq | done | cbn; lia |].
  destruct (Hin eq_refl) as [Ei' El']. exists s'. split_and!; [done | | unfold secs; by rewrite Edev | done].
  unfold blank. rewrite Edev, Ei', El', Efs, Eds, El, Ei, Ef, Ed. split_and!; try done.
  - cbn [f_inode]. by rewrite filter_cons_False by (by intros []).
  - apply delete_singleton_eq.
  - apply delete_singleton_eq.
Qed.

(** [filesys_done] in any state. *)
Lemma filesys_done_ok s I T H K :
  repr s I T H K → few s H → ∃ s', filesys_done out_of_memory s = Ok (tt, s') ∧ fs_device s' = fs_device s.
Proof.
  intros [Hc _] Hfew. destruct (r_free_map _ _ _ _ _ Hc) as (d & f & x & y & _ & _ & Hf & Hx & Hy & Hys & Hdeny).
  destruct (r_open _ _ _ _ _ Hc _ y Hy) as (_ & Eo & Hge & Edn).
  pose proof (refs_le s (f_inode x)). pose proof (held_le H (f_inode x)). unfold few in Hfew.
  destruct (free_map_close_ok s f x y) as (s' & E & ? & _); [done.. | | done | | lia |].
  - destruct (f_deny_write x) eqn:E; [exfalso | done].
    pose proof (count_pos (λ z, f_inode z = f_inode x ∧ f_deny_write z = true) (files s) f x Hx (conj eq_refl E)) as Hpos.
    fold (denies s (f_inode x)) in Hpos. lia.
  - destruct (removed y) eqn:E; [exfalso | done]. by destruct (r_removed _ _ _ _ _ Hc _ y Hy E) as (? & _).
  - by exists s'.
Qed.
End mount.
