(* ===== verification/FsFormat.v ===== *)
(** Formatting a device ([do_format] in filesys/filesys.c) and starting the
    file system ([filesys_init]). *)
From S2P Require Import Prelude Bytes Bitmap Block Inode FileSys InodeThm FsInv FsAlloc FsOpen FsFile FsDir FsOps FsIo FsSpec FsMount.
Local Open Scope Z_scope.

Lemma bitmap_mark_ok b i :
  bitmap_ok b → 0 ≤ i < bit_cnt b →
  ∃ b', bitmap_mark b i = Ok b' ∧ bitmap_ok b' ∧ bit_cnt b' = bit_cnt b ∧ bits_of b' = <[Z.to_nat i := true]> (bits_of b).
Proof.
  intros Hb Hi. destruct (bitmap_set_ok b i true Hb Hi) as (b' & E & ?). exists b'. split; [| done].
  unfold bitmap_set in E. destruct (Z.ltb_spec i (bit_cnt b)); [done | lia].
Qed.

(** The sectors that the free map's file takes on a device of [n] sectors. *)
Definition map_sectors (n : Z) : Z := (4 * ((n + 31) / 32) + 511) / 512.

Lemma map_file_size b : bitmap_ok b → bitmap_file_size b = 4 * ((bit_cnt b + 31) / 32).
Proof.
  intros Hb. unfold bitmap_file_size. rewrite byte_cnt_eq by done. destruct Hb as (Hc & Hl & _).
  rewrite Hl, elem_cnt_eq by done. assert (0 ≤ (bit_cnt b + 31) / 32) by (apply Z.div_pos; lia). lia.
Qed.

Lemma map_sectors_fit n : 4 ≤ n → 1 ≤ map_sectors n ∧ 2 + map_sectors n + 1 ≤ n.
Proof. intros. unfold map_sectors. split; Z.to_euclidean_division_equations; lia. Qed.

(** A directory of [m] entries that are all zero names nothing. *)
Lemma zero_dir m : dir_repr (replicate (20 * m) 0) m ∅.
Proof.
  assert (∀ j, (j < m)%nat → de_in_use (slot (replicate (20 * m) 0) j) = false) as Hno.
  { intros j Hj. unfold slot. rewrite drop_replicate, take_replicate. replace (20 `min` (20 * m - 20 * j))%nat with 20%nat by lia. done. }
  split; [apply length_replicate | | by intros | ]; intros; match goal with H : de_in_use _ = true, Hj : (_ < m)%nat |- _ => by rewrite Hno in H end.
Qed.

Section format.
Context {D : Type} `{!Device D} `{!DeviceLaws D} (out_of_memory : loc → bool).
Context (memory_suffices : ∀ a, out_of_memory a = false) (heap_words : nat → Z).
Implicit Types s t : fs D.
#[local] Arguments held : simpl never.
#[local] Arguments refs : simpl never.
#[local] Arguments denies : simpl never.

(** ** The free map in memory *)

Lemma free_map_init_ok t :
  blank t → 2 ≤ Z.of_nat (length (secs t)) ≤ 4294967264 →
  ∃ t', free_map_init out_of_memory heap_words t = Ok (tt, t') ∧ blank t' ∧ secs t' = secs t ∧ bitmap_ok (free_map t') ∧
    free_map_file t' = free_map_file t ∧
    bit_cnt (free_map t') = Z.of_nat (length (secs t)) ∧
    bits_of (free_map t') = true :: true :: replicate (length (secs t) - 2) false.
Proof.
  intros Hblank Hn. pose proof (proj1 Hblank) as Hd. destruct (device_ok_size _ Hd) as [En _]. fold (secs t) in En.
  destruct (fs_malloc_ok out_of_memory memory_suffices t Hd) as (t1 & E1 & Ht1 & _).
  destruct (fs_malloc_ok out_of_memory memory_suffices t1) as (t2 & E2 & Ht2 & _); [apply Ht1 |].
  set (n := Z.of_nat (length (secs t))) in *.
  destruct (bitmap_create_ok n ((λ i, u32 (heap_words i)) <$> seq 0 (Z.to_nat (elem_cnt n)))) as [(b & Eb & Hb & Hbc & Hbb) _]; [lia | |].
  { split; [by rewrite length_fmap, length_seq |]. apply Forall_fmap, Forall_true. intros i. apply u32_range. }
  destruct (bitmap_mark_ok b 0) as (b1 & F1 & Hb1 & Hc1 & Hbits1); [done | lia |].
  destruct (bitmap_mark_ok b1 1) as (b2 & F2 & Hb2 & Hc2 & Hbits2); [done | lia |].
  pose proof (touch_trans _ _ _ _ _ Ht1 Ht2) as Ht. pose proof Ht as (_ & Es & _ & _ & Ef & _).
  exists (set_free_map b2 t2). split_and!; try done.
  - unfold free_map_init, mbind, st_bind, st_get, st_lift, st_modify. rewrite E1, E2.
    rewrite <-En. cbn [bool_decide fmap option_fmap option_map is_Some].
    change (bool_decide (is_Some (Some (next_addr t)))) with true. fold n. rewrite Eb. unfold FREE_MAP_SECTOR, ROOT_DIR_SECTOR.
    by rewrite F1, F2.
  - exact (blank_io t t2 _ Hblank Ht).
  - change (secs t2 = secs t). rewrite Es. by destruct Ht1 as (_ & -> & _).
  - cbn. lia.
  - cbn. rewrite Hbits2, Hbits1, Hbb. unfold n. rewrite Nat2Z.id. by destruct (length (secs t)) as [|[|m]] eqn:El; [lia | lia |];
      cbn; rewrite Nat.sub_0_r.
Qed.

(** ** Allocation of the first sectors *)

Lemma first_fit m j cnt :
  bitmap_ok m → 0 ≤ cnt → 0 ≤ j → j + cnt ≤ bit_cnt m → in_run (bits_of m) j cnt false →
  (∀ p, 0 ≤ p < j → ¬ in_run (bits_of m) p cnt false) →
  ∃ m', bitmap_scan_and_flip m 0 cnt false = Ok (j, m') ∧ j ≠ BITMAP_ERROR ∧ bitmap_ok m' ∧ bit_cnt m' = bit_cnt m ∧
    bits_of m' = fill j cnt true (bits_of m).
Proof.
  intros Hm Hcnt Hj Hle Hrun Hfirst. destruct (scan_free m cnt Hm Hcnt) as [[_ Hno]|(r & m' & E & Hr & Hrle & Hne & Hrr & Hrf & ? & ? & ?)].
  - by destruct (Hno j).
  - assert (r = j) as ->; [| by exists m'].
    destruct (Z.lt_trichotomy r j) as [?|[?|?]]; [by destruct (Hfirst r) | done | by destruct (Hrf j)].
Qed.

(** [free_map_allocate] before the free map has a file, and after. *)
Lemma allocate_memory t m' j cnt :
  free_map_file t = None → bitmap_scan_and_flip (free_map t) 0 cnt false = Ok (j, m') → j ≠ BITMAP_ERROR →
  free_map_allocate out_of_memory cnt t = Ok (Some j, set_free_map m' t).
Proof.
  intros Hf E Hj. unfold free_map_allocate, mbind, st_bind, st_get, st_lift, st_modify. rewrite E.
  rewrite (proj2 (Z.eqb_neq _ _) Hj). cbn [negb andb]. change (free_map_file (set_free_map m' t)) with (free_map_file t). by rewrite Hf.
Qed.

Lemma allocate_saved t d m' j cnt :
  map_ready t d → bitmap_scan_and_flip (free_map t) 0 cnt false = Ok (j, m') → j ≠ BITMAP_ERROR → bitmap_ok m' →
  bit_cnt m' = bit_cnt (free_map t) →
  ∃ t' L', free_map_allocate out_of_memory cnt t = Ok (Some j, t') ∧ touch (set_free_map m' t) t' L' ∧
    write_effect (secs t) d 0 (bitmap_write_bytes m') L'.
Proof.
  intros Hready E Hj Hm Hc. destruct (set_and_write out_of_memory memory_suffices t d m' Hready Hm Hc) as (t' & L' & E' & Ht & Hw).
  exists t', L'. split_and!; [| done..]. destruct Hready as (_ & _ & _ & _ & _ & f & ? & ? & Hf & _).
  unfold free_map_allocate, mbind, st_bind, st_get, st_lift, st_modify. rewrite E.
  rewrite (proj2 (Z.eqb_neq _ _) Hj). cbn [negb andb]. change (free_map_file (set_free_map m' t)) with (free_map_file t). rewrite Hf.
  change (bool_decide (is_Some (Some f))) with true. cbn [negb andb]. by rewrite E'.
Qed.

Lemma inode_create_raw t ta tb a k r len :
  fs_malloc out_of_memory t = Ok (Some a, ta) → free_map_allocate out_of_memory ((len + 511) / 512) ta = Ok (Some r, tb) →
  device_ok (fs_device tb) → 0 ≤ k < Z.of_nat (length (secs tb)) → 0 ≤ len ≤ 2147483135 →
  0 ≤ r → r + (len + 511) / 512 ≤ Z.of_nat (length (secs tb)) → ¬ (r ≤ k < r + (len + 511) / 512) →
  ∃ t' L', inode_create out_of_memory k len t = Ok (true, t') ∧ touch tb t' L' ∧ length L' = length (secs tb) ∧
    L' !! Z.to_nat k = Some (inode_disk_bytes (new_inode r len)) ∧
    (∀ j, 0 ≤ j → ¬ uses k (new_inode r len) j → L' !! Z.to_nat j = secs tb !! Z.to_nat j) ∧
    inode_wf (length (secs tb)) (new_inode r len) ∧ inode_bytes L' (new_inode r len) = replicate (Z.to_nat len) 0.
Proof.
  intros E1 E2 Hd Hk Hlen Hr Hle Hself.
  destruct (write_inode_ok tb k r len Hd Hk Hlen Hr Hle Hself) as (t1 & t2 & L' & E3 & E4 & Ht & H).
  exists t2, L'. split; [| done]. unfold inode_create, mbind, st_bind, st_assert, st_lift.
  destruct (Z.leb_spec 0 len); [| lia]. cbn [assert_that]. rewrite E1.
  assert (bytes_to_sectors len = (len + 511) / 512) as ->.
  { rewrite <-(new_inode_cnt 0 len) by lia. by apply (bytes_to_sectors_ok (new_inode 0 len)). }
  rewrite E2. fold (new_inode r len). by rewrite E3, E4.
Qed.
(** ** Formatting *)

(** The bits of a new free map, with the first [k] sectors in use. *)
Definition first_bits (n k : Z) : list bool := replicate (Z.to_nat k) true ++ replicate (Z.to_nat (n - k)) false.

Lemma first_bits_lookup n k j :
  0 ≤ k ≤ n → 0 ≤ j < n → first_bits n k !! Z.to_nat j = Some (bool_decide (j < k)).
Proof.
  intros Hk Hj. unfold first_bits. destruct (decide (j < k)).
  - rewrite lookup_app_l, bool_decide_true by (rewrite ?length_replicate; lia). apply lookup_replicate_2. lia.
  - rewrite lookup_app_r, bool_decide_false by (rewrite ?length_replicate; lia). rewrite length_replicate. apply lookup_replicate_2. lia.
Qed.

Lemma first_bits_length n k : 0 ≤ k ≤ n → Z.of_nat (length (first_bits n k)) = n.
Proof. intros. unfold first_bits. rewrite length_app, !length_replicate. lia. Qed.

(** Taking [cnt] sectors after the first [k]. *)
Lemma first_bits_take m n k cnt :
  bitmap_ok m → bit_cnt m = n → bits_of m = first_bits n k → 0 ≤ k → 1 ≤ cnt → k + cnt ≤ n →
  ∃ m', bitmap_scan_and_flip m 0 cnt false = Ok (k, m') ∧ k ≠ BITMAP_ERROR ∧ bitmap_ok m' ∧ bit_cnt m' = n ∧
    bits_of m' = first_bits n (k + cnt).
Proof.
  intros Hm Hn Hb Hk Hc Hle.
  destruct (first_fit m k cnt) as (m' & E & Hne & Hok & Hcnt & Hbits); try done; try lia.
  - intros j Hj. rewrite Hb, first_bits_lookup by lia. by rewrite bool_decide_false by lia.
  - intros p Hp Hrun. specialize (Hrun p ltac:(lia)). rewrite Hb, first_bits_lookup in Hrun by lia.
    by rewrite bool_decide_true in Hrun by lia.
  - exists m'. split_and!; [done.. | by rewrite Hcnt |]. rewrite Hbits, Hb. apply list_eq. intros j.
    destruct (decide (Z.of_nat j < n)).
    + rewrite <-(Nat2Z.id j). rewrite fill_lookup_Z, !first_bits_lookup by (rewrite ?first_bits_length; lia).
      case_decide; f_equal; [by rewrite bool_decide_true by lia | apply bool_decide_ext; lia].
    + pose proof (first_bits_length n k ltac:(lia)). pose proof (first_bits_length n (k + cnt) ltac:(lia)).
      rewrite !lookup_ge_None_2; [done | lia |]. rewrite fill_length; lia.
Qed.

(** The state of a new file system: the free map is on the disk, and the first
    [k] sectors are in use. *)
Record formatting t (n k : Z) (i f : loc) (d0 : inode_disk) : Prop := {
  fo_only : only_map t i f d0;
  fo_file : free_map_file t = Some f;
  fo_map : bitmap_ok (free_map t) ∧ bit_cnt (free_map t) = n ∧ bits_of (free_map t) = first_bits n k;
  fo_size : Z.of_nat (length (secs t)) = n;
  fo_inode : secs t !! 0%nat = Some (inode_disk_bytes d0) ∧ inode_wf (length (secs t)) d0 ∧ inode_disk_ok d0;
}.

Lemma formatting_ready t n k i f d0 :
  formatting t n k i f d0 → d_length d0 = bitmap_file_size (free_map t) → map_ready t d0.
Proof.
  intros [(Hd & _ & Ei & Ef & _) Hf (Hm & Hc & _) Hn (_ & Hwf & _)] Hl. split_and!; try done; [by rewrite Hc |].
  exists f, (File i 0 false). eexists. rewrite Ef, Ei, !lookup_singleton_eq. by split_and!.
Qed.

Lemma free_map_create_ok t n :
  blank t → free_map_file t = None → bitmap_ok (free_map t) → bit_cnt (free_map t) = n →
  bits_of (free_map t) = first_bits n 2 → Z.of_nat (length (secs t)) = n → 4 ≤ n ≤ 4294967264 →
  let len := 4 * ((n + 31) / 32) in
  ∃ t' i f, free_map_create out_of_memory t = Ok (tt, t') ∧ formatting t' n (2 + map_sectors n) i f (new_inode 2 len).
Proof.
  intros Hblank Hf Hm Hc Hb Hn Hrange len. pose proof (map_sectors_fit n ltac:(lia)) as [Hs1 Hs2].
  assert (0 ≤ (n + 31) / 32 ≤ 134217728) by (split; [apply Z.div_pos; lia | apply Z.div_le_upper_bound; lia]).
  assert (0 ≤ len ≤ 2147483135) as Hlen by (unfold len; lia).
  destruct (fs_malloc_ok out_of_memory memory_suffices t (proj1 Hblank)) as (t1 & E1 & Ht1 & _).
  pose proof Ht1 as (Hd1 & Es1 & _ & Em1 & Ef1 & _).
  destruct (first_bits_take (free_map t) n 2 (map_sectors n)) as (m & Esc & Hne & Hmok & Hmc & Hmb); [done.. | lia | lia |].
  pose proof (allocate_memory t1 m 2 (map_sectors n) ltac:(congruence) ltac:(by rewrite Em1) Hne) as E2.
  destruct (inode_create_raw t t1 (set_free_map m t1) (next_addr t) FREE_MAP_SECTOR 2 len E1 E2)
    as (t2 & L2 & E3 & Ht2 & Hl2 & H0 & Hrest & Hwf & _); try done.
  { change (secs (set_free_map m t1)) with (secs t1). rewrite Es1. unfold FREE_MAP_SECTOR. lia. }
  { change (secs (set_free_map m t1)) with (secs t1). rewrite Es1. change ((len + 511) / 512) with (map_sectors n). lia. }
  { unfold FREE_MAP_SECTOR. lia. }
  change (secs (set_free_map m t1)) with (secs t1) in Hl2, Hwf. rewrite Es1 in Hl2, Hwf.
  pose proof Ht2 as (_ & Es2 & _ & Em2 & _).
  assert (blank t2) as Hblank2. { apply (blank_io (set_free_map m t1) t2 L2); [| done]. exact (blank_io t t1 _ Hblank Ht1). }
  assert (inode_disk_ok (new_inode 2 len)) as Hdok by (apply new_inode_ok; lia).
  destruct (open_map_ok out_of_memory memory_suffices t2 (new_inode 2 len) Hblank2) as (i & f & t3 & t4 & E4 & E5 & Honly & Es4 & Em4);
    [rewrite Es2; exact H0 | done |].
  assert (formatting (set_free_map_file (Some f) t4) n (2 + map_sectors n) i f (new_inode 2 len)) as Hfo.
  { assert (secs (set_free_map_file (Some f) t4) = L2) as EL by (change (secs t4 = L2); by rewrite Es4).
    assert (free_map (set_free_map_file (Some f) t4) = m) as EM by (cbn; by rewrite Em4, Em2).
    split; rewrite ?EL, ?EM, ?Hl2; try done. }
  destruct (free_map_write_ok out_of_memory memory_suffices _ _ (formatting_ready _ _ _ _ _ _ Hfo
    ltac:(rewrite map_file_size by apply Hfo; destruct Hfo as [_ _ (_ & -> & _)]; done))) as (t5 & L5 & E6 & Ht5 & Hw5).
  exists t5, i, f. split.
  - unfold free_map_create, mbind, st_bind, st_get. rewrite map_file_size, Hc by done. fold len. rewrite E3. cbn [negb].
    rewrite E4, E5. unfold st_modify. by rewrite E6.
  - pose proof Ht5 as (_ & Es5 & _ & Em5 & Ef5 & _). destruct Hfo as [Ho Hff Hfm Hfn (Hf0 & Hfwf & _)].
    destruct Hw5 as (Hl5 & _ & Hout & _).
    split; rewrite ?Es5, ?Hl5, ?Em5, ?Ef5; try done; [by eapply only_map_io |].
    split_and!; [rewrite Hout; [done | cbn; lia] | done..].
Qed.
(** The two inodes of a new file system. *)
Definition first_inodes (d0 d1 : inode_disk) : gmap Z inode_disk := {[FREE_MAP_SECTOR := d0; ROOT_DIR_SECTOR := d1]}.

Lemma first_inodes_Some d0 d1 k d :
  first_inodes d0 d1 !! k = Some d ↔ k = FREE_MAP_SECTOR ∧ d = d0 ∨ k = ROOT_DIR_SECTOR ∧ d = d1.
Proof.
  unfold first_inodes. rewrite lookup_insert_Some, lookup_singleton_Some. unfold FREE_MAP_SECTOR, ROOT_DIR_SECTOR. naive_solver lia.
Qed.

Lemma first_image L m n len k :
  bitmap_ok m → bit_cnt m = n → bits_of m = first_bits n (k + 1) → Z.of_nat (length L) = n → k + 1 ≤ n →
  bitmap_file_size m = len → 2 + (len + 511) / 512 = k → 0 ≤ len ≤ 2147483135 →
  let d0 := new_inode 2 len in let d1 := new_inode k 320 in
  L !! Z.to_nat FREE_MAP_SECTOR = Some (inode_disk_bytes d0) → L !! Z.to_nat ROOT_DIR_SECTOR = Some (inode_disk_bytes d1) →
  inode_wf (length L) d0 → inode_wf (length L) d1 → inode_disk_ok d0 → inode_disk_ok d1 →
  saved_map m (inode_bytes L d0) → inode_bytes L d1 = replicate 320 0 →
  image L m (first_inodes d0 d1) ∅.
Proof.
  intros Hm Hc Hb Hn Hk Hsize Ek Hlen d0 d1 H0 H1 Hwf0 Hwf1 Hok0 Hok1 Hsaved Hzero.
  assert (0 ≤ (len + 511) / 512) by (apply Z.div_pos; lia).
  assert (Z.of_nat (data_cnt d0) = k - 2) as C0 by (unfold d0; rewrite new_inode_cnt; lia).
  assert (Z.of_nat (data_cnt d1) = 1) as C1 by done. unfold FREE_MAP_SECTOR, ROOT_DIR_SECTOR in *.
  split; try (intros; by simplify_map_eq).
  - intros j d [[-> ->]|[-> ->]]%first_inodes_Some; unfold FREE_MAP_SECTOR, ROOT_DIR_SECTOR; split_and!; done || lia.
  - intros j d [[-> ->]|[-> ->]]%first_inodes_Some; rewrite ?C0, ?C1; cbn; unfold FREE_MAP_SECTOR, ROOT_DIR_SECTOR; lia.
  - intros k1 e1 k2 e2 j [[-> ->]|[-> ->]]%first_inodes_Some [[-> ->]|[-> ->]]%first_inodes_Some; try done;
      unfold uses; rewrite C0, C1; cbn; unfold FREE_MAP_SECTOR, ROOT_DIR_SECTOR; lia.
  - intros j d p [[-> ->]|[-> ->]]%first_inodes_Some Hu; unfold uses in Hu; rewrite ?C0, ?C1 in Hu; cbn in Hu;
      unfold FREE_MAP_SECTOR, ROOT_DIR_SECTOR in Hu; rewrite Hb, first_bits_lookup by lia; by rewrite bool_decide_true by lia.
  - intros j d [[-> ->]|[-> ->]]%first_inodes_Some; [by left | by right; left].
  - exists d1, 16%nat. split; [apply first_inodes_Some; by right |]. rewrite Hzero. apply (zero_dir 16).
  - exists d0. split_and!; [apply first_inodes_Some; by left | by rewrite Hsize | done].
Qed.

Lemma root_create_ok t n i f :
  let len := 4 * ((n + 31) / 32) in
  formatting t n (2 + map_sectors n) i f (new_inode 2 len) → 4 ≤ n ≤ 4294967264 →
  ∃ t' d1, dir_create out_of_memory ROOT_DIR_SECTOR 16 t = Ok (true, t') ∧ only_map t' i f (new_inode 2 len) ∧
    free_map_file t' = Some f ∧ image (secs t') (free_map t') (first_inodes (new_inode 2 len) d1) ∅.
Proof.
  intros len Hfo Hrange. pose proof (map_sectors_fit n ltac:(lia)) as [Hs1 Hs2].
  assert (0 ≤ (n + 31) / 32 ≤ 134217728) by (split; [apply Z.div_pos; lia | apply Z.div_le_upper_bound; lia]).
  assert (0 ≤ len ≤ 2147483135) as Hlen by (unfold len; lia). set (d0 := new_inode 2 len) in *. set (k := 2 + map_sectors n) in *.
  pose proof Hfo as [Honly Hf (Hm & Hc & Hb) Hn (H0 & Hwf & Hok)].
  assert (bitmap_file_size (free_map t) = len) as Hsize by (rewrite map_file_size, Hc by done; done).
  destruct (fs_malloc_ok out_of_memory memory_suffices t (proj1 Honly)) as (t1 & E1 & Ht1 & _).
  pose proof Ht1 as (Hd1 & Es1 & _ & Em1 & Ef1 & _).
  destruct (first_bits_take (free_map t) n k 1) as (m & Esc & Hne & Hmok & Hmc & Hmb); [done.. | lia | lia | lia |].
  pose proof (formatting_ready _ _ _ _ _ _ Hfo ltac:(done)) as Hready. pose proof (map_ready_touch _ _ _ _ Hready Ht1 eq_refl) as Hready1.
  destruct (allocate_saved t1 d0 m k 1 Hready1 ltac:(by rewrite Em1) Hne Hmok ltac:(congruence)) as (t2 & L2 & E2 & Ht2 & Hw2).
  rewrite Es1 in Hw2. pose proof Hw2 as (Hl2 & _ & Hout2 & _). pose proof Ht2 as (Hd2 & Es2 & _ & Em2 & Ef2 & _).
  destruct (inode_create_raw t t1 t2 (next_addr t) ROOT_DIR_SECTOR k 320 E1 E2 Hd2) as (t3 & L3 & E3 & Ht3 & Hl3 & H1 & Hrest & Hwf1 & Hzero).
  { rewrite Es2, Hl2. unfold ROOT_DIR_SECTOR. lia. }
  { lia. }
  { lia. }
  { rewrite Es2, Hl2. change ((320 + 511) / 512) with 1. lia. }
  { unfold ROOT_DIR_SECTOR. lia. }
  pose proof Ht3 as (_ & Es3 & _ & Em3 & Ef3 & _). rewrite Es2 in Hl3, Hrest, Hwf1.
  assert (∀ j, 0 ≤ j → j ≠ ROOT_DIR_SECTOR → j ≠ k → L3 !! Z.to_nat j = L2 !! Z.to_nat j) as Hrest'.
  { intros j ? ? ?. apply Hrest; [done |]. unfold uses. change (Z.of_nat (data_cnt (new_inode k 320))) with 1. cbn. lia. }
  assert (Z.of_nat (data_cnt d0) = map_sectors n) as C0 by (unfold d0; rewrite new_inode_cnt by lia; done).
  exists t3, (new_inode k 320). split_and!; [exact E3 | | rewrite Ef3, Ef2; cbn; by rewrite Ef1 |].
  - apply (only_map_io t2 t3 L3); [| done]. apply (only_map_io (set_free_map m t1) t2 L2); [| done].
    exact (only_map_io t t1 _ _ _ _ Honly Ht1).
  - assert (free_map t3 = m) as -> by (by rewrite Em3, Em2). rewrite Es3.
    assert (inode_bytes L3 d0 = bitmap_write_bytes m) as Hbytes.
    { transitivity (inode_bytes L2 d0).
      - apply same_area; [done | by rewrite Hl2 |]. intros j Hj. cbn in Hj. rewrite <-(Nat2Z.id j). apply Hrest'; unfold ROOT_DIR_SECTOR; lia.
      - destruct (free_map_bytes m Hmok) as [Hbl _].
        apply (full_write (secs t)); [by apply device_sectors, Honly | done | | exact Hw2].
        rewrite Hbl, map_file_size, Hmc by done. done. }
    apply (first_image L3 m n len k); try done; try lia.
    + rewrite map_file_size, Hmc by done. done.
    + unfold FREE_MAP_SECTOR. rewrite Hrest' by (unfold ROOT_DIR_SECTOR; lia). rewrite Hout2; [done | cbn; lia].
    + by rewrite Hl3, Hl2.
    + by rewrite Hl3.
    + apply new_inode_ok; lia.
    + by exists m.
Qed.

Lemma do_format_ok t n :
  blank t → free_map_file t = None → bitmap_ok (free_map t) → bit_cnt (free_map t) = n →
  bits_of (free_map t) = first_bits n 2 → Z.of_nat (length (secs t)) = n → 4 ≤ n ≤ 4294967264 →
  ∃ t' d0 d1, do_format out_of_memory t = Ok (tt, t') ∧ blank t' ∧ image (secs t') (free_map t') (first_inodes d0 d1) ∅.
Proof.
  intros Hblank Hf Hm Hc Hb Hn Hrange.
  destruct (free_map_create_ok t n) as (t1 & i & f & E1 & Hfo); [done.. |].
  destruct (root_create_ok t1 n i f Hfo Hrange) as (t2 & d1 & E2 & Honly & Hf2 & Him).
  destruct (only_map_close out_of_memory t2 i f _ Honly Hf2) as (t3 & E3 & Hblank3 & Es3 & Em3).
  exists t3. eexists _, d1. unfold do_format, mbind, st_bind. rewrite E1, E2. cbn [negb]. rewrite E3.
  split_and!; [done | done |]. rewrite Es3, Em3. exact Him.
Qed.

(** ** Starting *)

(** The memory of a kernel that has just started; [d] stands for whatever
    [fs_device] is then. *)
Definition boot_state (d : D) : fs D := Fs d (Bitmap 0 []) None [] ∅ ∅ ∅ 1%positive.

Lemma boot_blank d : device_ok d → blank (boot_state d).
Proof. intros. by split_and!. Qed.

Lemma filesys_init_format d0 d :
  device_ok d → 4 ≤ Z.of_nat (length (sectors d)) ≤ 4294967264 →
  ∃ t k0 k1, filesys_init out_of_memory heap_words (Some d) true (boot_state d0) = Ok (tt, t) ∧ repr t (first_inodes k0 k1) ∅ [] [] ∧
    dirs t = ∅ ∧ user_handles t = ∅ ∧ size (files t) = 1%nat.
Proof.
  intros Hd Hn. destruct (free_map_init_ok (boot_state d) (boot_blank d Hd)) as (t1 & E1 & Hblank1 & Es1 & Hm1 & Hf1 & Hc1 & Hb1);
    [change (secs (boot_state d)) with (sectors d); lia |]. change (secs (boot_state d)) with (sectors d) in *.
  destruct (do_format_ok t1 (Z.of_nat (length (sectors d)))) as (t2 & k0 & k1 & E2 & Hblank2 & Him); try done.
  { rewrite Hb1. unfold first_bits. change (Z.to_nat 2) with 2%nat. cbn. do 3 f_equal. lia. }
  { by rewrite Es1. }
  destruct (free_map_open_ok out_of_memory memory_suffices t2 (free_map t2) _ _ Him Hblank2) as (t3 & E3 & Hrep & _ & Hdirs & Hh & Hsz);
    [apply Him | done |].
  exists t3, k0, k1. split_and!; try done. unfold filesys_init, mbind, st_bind, inode_init, st_modify.
  change (set_open_inodes [] (set_device d (boot_state d0))) with (boot_state d). by rewrite E1, E2, E3.
Qed.

Lemma filesys_init_mount d0 d B I T :
  device_ok d → image (sectors d) B I T → 2 ≤ Z.of_nat (length (sectors d)) →
  ∃ t, filesys_init out_of_memory heap_words (Some d) false (boot_state d0) = Ok (tt, t) ∧ repr t I T [] [] ∧ secs t = sectors d ∧
    dirs t = ∅ ∧ user_handles t = ∅ ∧ size (files t) = 1%nat.
Proof.
  intros Hd Him Hn. destruct (im_map _ _ _ _ Him) as [HB HBc]. pose proof HB as [HBr _].
  destruct (free_map_init_ok (boot_state d) (boot_blank d Hd)) as (t1 & E1 & Hblank1 & Es1 & Hm1 & _ & Hc1 & _);
    [change (secs (boot_state d)) with (sectors d); lia |]. change (secs (boot_state d)) with (sectors d) in *.
  destruct (free_map_open_ok out_of_memory memory_suffices t1 B I T) as (t2 & E2 & Hrep & Es2 & Hdirs & Hh & Hsz);
    [by rewrite Es1 | done | done | lia |].
  exists t2. split_and!; try done; [| by rewrite Es2]. unfold filesys_init, mbind, st_bind, inode_init, st_modify.
  change (set_open_inodes [] (set_device d (boot_state d0))) with (boot_state d). rewrite E1. unfold mret, st_ret. by rewrite E2.
Qed.
End format.
