(* ===== verification/FsThm.v ===== *)
(** The properties of the file system: a newly formatted device is an empty
    file system, client programs see the specification of FsSpec, a mounted
    device holds what was there before, and what a failed creation leaves
    behind. *)
From S2P Require Import Prelude Bytes Bitmap Block Inode FileSys InodeThm FsInv FsAlloc FsOpen FsFile FsDir FsOps FsIo FsSpec FsMount FsFormat.
Local Open Scope Z_scope.

(** ** Client programs *)

(** A program makes calls and goes on as their answers tell it. *)
Inductive client := Done | Do (c : call) (next : answer → client).

Inductive spec_run : spec → client → list answer → spec → Prop :=
| RDone a : spec_run a Done [] a
| RDo a c next r a' rs a'' :
    spec_step a c r a' → spec_run a' (next r) rs a'' → spec_run a (Do c next) (r :: rs) a''.

(** The program respects the specification whatever it answers. *)
Fixpoint client_ok (a : spec) (p : client) : Prop :=
  match p with
  | Done => True
  | Do c next => call_ok a c ∧ ∀ r a', spec_step a c r a' → client_ok a' (next r)
  end.

(** The program makes at most [n] calls. *)
Fixpoint at_most (n : nat) (p : client) : Prop :=
  match p, n with
  | Done, _ => True
  | Do _ _, O => False
  | Do _ next, S n => ∀ r, at_most n (next r)
  end.

Section thm.
Context {D : Type} `{!Device D} `{!DeviceLaws D} (out_of_memory : loc → bool).
Context (memory_suffices : ∀ a, out_of_memory a = false) (heap_words : nat → Z).
Implicit Types s : fs D.

Lemma format_implements d0 d :
  device_ok d → 4 ≤ Z.of_nat (length (sectors d)) ≤ 4294967264 →
  ∃ t, filesys_init out_of_memory heap_words (Some d) true (boot_state d0) = Ok (tt, t) ∧ implements t (Spec ∅ ∅ ∅) ∧ size (files t) = 1%nat.
Proof.
  intros Hd Hn. destruct (filesys_init_format out_of_memory memory_suffices heap_words d0 d Hd Hn) as (t & k0 & k1 & E & Hrep & Hdirs & Hh & Hsz).
  exists t. split_and!; try done. exists (first_inodes k0 k1), ∅. split_and!; try done. unfold view. f_equal; try done.
Qed.

(** C27: [filesys_init (true)] turns a device of four sectors or more, whatever
    it and the kernel's memory hold, into an empty file system; without a device
    for the file system it panics. *)
Theorem filesys_format_correct d0 d :
  device_ok d → 4 ≤ Z.of_nat (length (sectors d)) ≤ 4294967264 →
  (∃ t, filesys_init out_of_memory heap_words (Some d) true (boot_state d0) = Ok (tt, t) ∧ implements t (Spec ∅ ∅ ∅)) ∧
  filesys_init out_of_memory heap_words None true (boot_state d0) = Err KernelPanic.
Proof. intros Hd Hn. split; [| done]. destruct (format_implements d0 d Hd Hn) as (t & ? & ? & _). by exists t. Qed.

(** C26: What was in the file system is there after the machine is restarted:
    [filesys_done] succeeds, and [filesys_init (false)] on the device finds
    every named file with its bytes; files that had lost their names are gone. *)
Theorem filesys_remount d0 s a :
  implements s a → few_open s →
  ∃ s' t, filesys_done out_of_memory s = Ok (tt, s') ∧
    filesys_init out_of_memory heap_words (Some (fs_device s')) false (boot_state d0) = Ok (tt, t) ∧
    implements t (collect (Spec (names_of a) (contents a) ∅)).
Proof.
  intros (I & T & Hrep & Hdirs & ->) Hfew. pose proof Hrep as [Hc _].
  destruct (filesys_done_ok out_of_memory s I T [] [] Hrep (few_open_few s Hfew)) as (s' & E & Edev).
  destruct (filesys_init_mount out_of_memory memory_suffices heap_words d0 (fs_device s) (free_map s) (named I T) T)
    as (t & E2 & Hrep2 & Es2 & Hdirs2 & Hh & _); [apply Hc | by eapply image_of_repr | |].
  { destruct (r_root _ _ _ _ _ Hc) as (d & m & Hd & _). destruct (r_disk _ _ _ _ _ Hc _ _ Hd) as (Hr & _).
    unfold ROOT_DIR_SECTOR in Hr. unfold secs in Hr. lia. }
  exists s', t. rewrite Edev. split_and!; [done.. |]. exists (named I T), T. split_and!; [done.. |].
  assert (named I T ⊆ I) as Hsub by apply map_filter_subseteq.
  rewrite (live_contents s t I (named I T) T Hrep2 Hdirs2 Hsub), Hh; [done |]. intros k d _ _ _. unfold secs in *. by rewrite Es2.
Qed.

Context (garbage : list Z) (garbage_length : length garbage = 20%nat) (garbage_bytes : Forall is_byte garbage).

Fixpoint run_client (p : client) : FM (D:=D) (list answer) :=
  match p with
  | Done => mret []
  | Do c next => r ← run_call out_of_memory garbage c; rs ← run_client (next r); mret (r :: rs)
  end.

Lemma client_refines n s a p :
  implements s a → client_ok a p → at_most n p → Z.of_nat (size (files s) + n) < 2147483600 →
  ∃ rs s' a', run_client p s = Ok (rs, s') ∧ spec_run a p rs a' ∧ implements s' a'.
Proof.
  revert s a p. induction n as [|n IH]; intros s a [|c next] Ha Hok Hn Hfew; try done;
    try (exists [], s, a; split_and!; [done | constructor | done]).
  destruct Hok as [Hc Hnext].
  assert (few_open s) as Hopen.
  { destruct Ha as (I & T & _ & Hdirs & _). unfold few_open. rewrite Hdirs, map_size_empty. lia. }
  destruct (call_refines out_of_memory memory_suffices garbage garbage_length garbage_bytes s a c Ha Hopen Hc)
    as (r & s1 & a1 & E1 & Hstep & Ha1 & Hsz).
  destruct (IH s1 a1 (next r) Ha1 (Hnext r a1 Hstep) (Hn r)) as (rs & s2 & a2 & E2 & Hrun & Ha2); [lia |].
  exists (r :: rs), s2, a2. cbn. unfold mbind, st_bind. rewrite E1, E2. split_and!; [done | by eapply RDo | done].
Qed.

(** C25: The file system refines its specification: from a state that implements
    a directory, contents and open handles, any client program that respects
    it (an adaptive sequence of create, open, remove, read, write, seek, tell,
    length, deny, allow and close) runs without a failure and gets answers
    that the specification allows. *)
Theorem filesys_refines n s a p :
  implements s a → client_ok a p → at_most n p → Z.of_nat (size (files s) + n) < 2147483600 →
  ∃ rs s' a', run_client p s = Ok (rs, s') ∧ spec_run a p rs a' ∧ implements s' a'.
Proof. apply client_refines. Qed.

(** C28: [filesys_create] succeeds whenever the name is new and valid, a
    directory entry is free, and the sectors of the inode and its data fit
    into a free run. *)
Theorem filesys_create_succeeds s I T name len :
  repr s I T [] [] → few_open s → name_ok name → 0 ≤ len ≤ 2147483135 →
  T !! name = None → has_run s ((len + 511) / 512 + 1) → ¬ dir_full s I →
  ∃ s', filesys_create out_of_memory garbage name len s = Ok (true, s') ∧ dirs s' = dirs s ∧
    ∃ k d, repr s' (<[k := d]> I) (<[name := k]> T) [] [] ∧ inode_bytes (secs s') d = replicate (Z.to_nat len) 0.
Proof.
  intros Hrep Hfew Hname Hlen HT Hrun Hfull. pose proof Hname as (_ & _ & Hc).
  destruct (filesys_create_ok out_of_memory memory_suffices garbage garbage_length garbage_bytes s I T name len Hrep Hfew Hc Hlen)
    as (r & s' & E & _ & _ & Ed & _ & Hr). destruct r.
  - destruct Hr as (_ & _ & k & d & _ & _ & Hb & Hrep'). exists s'. split_and!; [done.. |]. by exists k, d.
  - destruct Hr as [_ [?|[?|[[? ?]|?]]]]; done || congruence.
Qed.
End thm.

(** ** A device of a few sectors *)

Definition blank_disk (n : nat) : ramdisk := replicate n (replicate 512 0).

Lemma blank_disk_ok n : (n < 100)%nat → @device_ok _ ramdisk_device ramdisk_laws (blank_disk n).
Proof.
  intros Hn. split; [unfold blank_disk; rewrite length_replicate; lia |].
  apply Forall_replicate. apply zeros_sector.
Qed.

Definition no_garbage : list Z := replicate 20 0.

Lemma no_garbage_bytes : Forall is_byte no_garbage.
Proof. by apply Forall_replicate. Qed.

Definition formatted (n : nat) : fs ramdisk :=
  match filesys_init (λ _, false) (λ _, 0) (Some (blank_disk n)) true (boot_state (blank_disk n)) with Ok (_, t) => t | Err _ => boot_state [] end.

Lemma formatted_ok n : (4 ≤ n < 100)%nat → implements (formatted n) (Spec ∅ ∅ ∅) ∧ size (files (formatted n)) = 1%nat.
Proof.
  intros Hn. destruct (format_implements (λ _, false) (λ _, eq_refl) (λ _, 0) (blank_disk n) (blank_disk n) (blank_disk_ok n ltac:(lia))) as (t & E & ? & ?).
  { change (sectors (blank_disk n)) with (blank_disk n). unfold blank_disk. rewrite length_replicate. lia. }
  unfold formatted. by rewrite E.
Qed.

(** Create a file, write to it, remove its name, and read it through the
    handle that is still open. *)
Definition example_name : list Z := [97; 98].

Definition example_client : client :=
  Do (Create example_name 600) (λ _,
  Do (Open example_name) (λ r,
  match r with
  | AHandle (Some h) =>
      Do (Seek h 510) (λ _,
      Do (Write h [1; 2; 3; 4] 4) (λ _,
      Do (Remove example_name) (λ _,
      Do (Seek h 509) (λ _,
      Do (Read h 4) (λ _,
      Do (Close h) (λ _, Done))))))
  | _ => Done
  end)).

Definition answers {A B} (o : outcome (A * B)) : option A := match o with Ok (r, _) => Some r | Err _ => None end.

Example example_client_runs :
  answers (run_client (λ _, false) no_garbage example_client (formatted 8)) =
    Some [ABool true; AHandle (Some 39%positive); AUnit; ANumber 4; ABool true; AUnit; ABytes [0; 1; 2; 3]; AUnit].
Proof. vm_compute. reflexivity. Qed.

(** Every step keeps the other handles and names its own. *)
Lemma step_keeps_handle a c r a' h :
  spec_step a c r a' → is_Some (handles a !! h) → c ≠ Close h → is_Some (handles a' !! h).
Proof.
  intros Hs Hh Hc. destruct Hs; cbn; try done; rewrite ?lookup_insert_is_Some'; try (by right).
  rewrite lookup_delete_ne; [done | congruence].
Qed.

Lemma example_client_ok : client_ok (Spec ∅ ∅ ∅) example_client.
Proof.
  assert (c_name example_name) as Hname by (by repeat constructor).
  unfold example_client. cbn [client_ok call_ok]. split; [split; [done | lia] |]. intros _ a1 _. split; [done |].
  intros r a2 H2. destruct r as [|[h|]| | |]; try done.
  assert (is_Some (handles a2 !! h)) as Hh by (inversion H2; subst; cbn; by rewrite lookup_insert_eq). clear H2.
  repeat (cbn [client_ok call_ok]; split; [split_and?; (done || lia || by repeat constructor) |];
    intros ? ? Hs; apply (step_keeps_handle _ _ _ _ h) in Hs; [| done | done]; clear Hh; rename Hs into Hh).
  split; [done |]. by intros.
Qed.

Lemma filesys_refines_witness :
  ∃ rs s' a', run_client (λ _, false) no_garbage example_client (formatted 8) = Ok (rs, s') ∧
    spec_run (Spec ∅ ∅ ∅) example_client rs a' ∧ implements s' a'.
Proof.
  destruct (formatted_ok 8 ltac:(lia)) as [Ha Hsz].
  assert (at_most 8 example_client) as Hn by (cbn; intros _ [|[h|]| | |]; cbn; by intros).
  assert (Z.of_nat (size (files (formatted 8)) + 8) < 2147483600) as Hfew by (rewrite Hsz; lia).
  exact (filesys_refines (λ _, false) (λ _, eq_refl) no_garbage eq_refl no_garbage_bytes 8 _ _ _ Ha example_client_ok Hn Hfew).
Defined.

Lemma filesys_format_correct_witness :
  ∃ t, filesys_init (λ _, false) (λ _, -1) (Some (blank_disk 4)) true (boot_state []) = Ok (tt, t) ∧ implements t (Spec ∅ ∅ ∅).
Proof. apply (filesys_format_correct (λ _, false) (λ _, eq_refl) (λ _, -1)); [apply blank_disk_ok; lia | by vm_compute]. Defined.

Lemma formatted_few n : (4 ≤ n < 100)%nat → few_open (formatted n).
Proof.
  intros Hn. destruct (formatted_ok n Hn) as [(I & T & _ & Hdirs & _) Hsz]. unfold few_open. rewrite Hsz, Hdirs, map_size_empty. lia.
Qed.

(** A disk of eight sectors with one file. *)
Definition one_file : client := Do (Create example_name 600) (λ _, Done).
Definition created : fs ramdisk :=
  match run_client (λ _, false) no_garbage one_file (formatted 8) with Ok (_, t) => t | Err _ => formatted 8 end.

Lemma created_ok : few_open created ∧
  ∃ k, implements created (Spec {[example_name := k]} {[k := replicate 600 0]} ∅).
Proof.
  split; [by vm_compute |]. destruct (formatted_ok 8 ltac:(lia)) as [Ha Hsz].
  assert (client_ok (Spec ∅ ∅ ∅) one_file) as Hok by (split; [split; [by repeat constructor | lia] | done]).
  assert (Z.of_nat (size (files (formatted 8)) + 1) < 2147483600) as Hfew by (rewrite Hsz; lia).
  destruct (client_refines (λ _, false) (λ _, eq_refl) no_garbage eq_refl no_garbage_bytes 1 _ _ _ Ha Hok (λ _, I) Hfew)
    as (rs & s' & a' & E & Hrun & H).
  assert (match run_client (λ _, false) no_garbage one_file (formatted 8) with Ok (rs, _) => rs | Err _ => [] end = [ABool true])
    as Hrs by (by vm_compute).
  unfold created. rewrite E in Hrs |- *. subst rs. inversion Hrun as [|? ? ? ? ? ? ? Hs Hd]; subst.
  inversion Hd; subst. inversion Hs; subst. eexists. exact H.
Qed.

Lemma collect_one name k (b : list Z) :
  collect (Spec {[name := k]} {[k := b]} ∅) = Spec {[name := k]} {[k := b]} ∅.
Proof.
  unfold collect. f_equal. apply map_filter_singleton_True. unfold live. cbn [names_of handles fst].
  rewrite map_img_singleton_L. set_solver.
Qed.

Lemma filesys_remount_witness :
  ∃ k s' t, filesys_done (λ _, false) created = Ok (tt, s') ∧
    filesys_init (λ _, false) (λ _, 0) (Some (fs_device s')) false (boot_state []) = Ok (tt, t) ∧
    implements t (Spec {[example_name := k]} {[k := replicate 600 0]} ∅).
Proof.
  destruct created_ok as (Hfew & k & Ha).
  destruct (filesys_remount (λ _, false) (λ _, eq_refl) (λ _, 0) [] created _ Ha Hfew) as (s' & t & E & E2 & H).
  exists k, s', t. split; [exact E |]. split; [exact E2 |].
  cbn [names_of contents] in H. rewrite collect_one in H. exact H.
Defined.

(** The state after formatting, with its inodes. *)
Lemma root_inode (t : fs ramdisk) d0 d1 :
  repr t (first_inodes d0 d1) ∅ [] [] → d1 = inode_disk_of (secs t !!! 1%nat).
Proof.
  intros [Hc _]. destruct (r_disk _ _ _ _ _ Hc ROOT_DIR_SECTOR d1) as (_ & Hs & _ & Hok); [apply first_inodes_Some; by right |].
  change (Z.to_nat ROOT_DIR_SECTOR) with 1%nat in Hs. by rewrite (list_lookup_total_correct _ _ _ Hs), inode_disk_of_bytes.
Qed.

Lemma formatted_repr n :
  (4 ≤ n < 100)%nat → ∃ d0, repr (formatted n) (first_inodes d0 (inode_disk_of (secs (formatted n) !!! 1%nat))) ∅ [] [].
Proof.
  intros Hn. destruct (filesys_init_format (λ _, false) (λ _, eq_refl) (λ _, 0) (blank_disk n) (blank_disk n) (blank_disk_ok n ltac:(lia)))
    as (t & d0 & d1 & E & Hrep & _).
  { change (sectors (blank_disk n)) with (blank_disk n). unfold blank_disk. rewrite length_replicate. lia. }
  assert (formatted n = t) as -> by (unfold formatted; by rewrite E). exists d0. by rewrite <-(root_inode t d0 d1 Hrep).
Qed.

Lemma filesys_create_succeeds_witness :
  ∃ s', filesys_create (λ _, false) no_garbage example_name 600 (formatted 8) = Ok (true, s') ∧ dirs s' = dirs (formatted 8) ∧
    ∃ I k d, repr s' (<[k := d]> I) (<[example_name := k]> ∅) [] [] ∧ inode_bytes (secs s') d = replicate 600 0.
Proof.
  destruct (formatted_repr 8 ltac:(lia)) as (d0 & Hrep).
  destruct (filesys_create_succeeds (λ _, false) (λ _, eq_refl) no_garbage eq_refl no_garbage_bytes (formatted 8) _ _
    example_name 600 Hrep (formatted_few 8 ltac:(lia))) as (s' & E & Hd & k & d & H).
  - by repeat constructor.
  - lia.
  - apply lookup_empty.
  - exists 4. split_and!; [lia | by vm_compute |]. intros j Hj. change ((600 + 511) / 512 + 1) with 3 in Hj.
    assert (j = 4 ∨ j = 5 ∨ j = 6) as [-> |[-> | ->]] by lia; by vm_compute.
  - intros Hfull. specialize (Hfull _ 0%nat ltac:(apply first_inodes_Some; by right) ltac:(by vm_compute)). by vm_compute in Hfull.
  - exists s'. split_and!; [done.. |]. by eexists _, k, d.
Defined.

(** ** A failed creation *)

(** The sectors that the free map marks as used. *)
Definition used_sectors (s : fs ramdisk) : nat := length (filter (λ b, b = true) (bits_of (free_map s))).

(** Sixteen files fill the root directory. *)
Fixpoint create_files (n : nat) : client :=
  match n with O => Done | S n => Do (Create [Z.of_nat (65 + n)] 0) (λ _, create_files n) end.

Lemma create_files_ok n a : (n ≤ 16)%nat → client_ok a (create_files n) ∧ at_most n (create_files n).
Proof.
  revert a. induction n as [|n IH]; intros a Hn; [done |]. cbn [create_files client_ok at_most call_ok]. split_and!.
  - repeat constructor; lia.
  - lia.
  - lia.
  - intros _ a' _. apply IH. lia.
  - intros _. apply (IH a). lia.
Qed.

Definition full_directory : fs ramdisk :=
  match run_client (λ _, false) no_garbage (create_files 16) (formatted 40) with Ok (_, t) => t | Err _ => formatted 40 end.

Lemma full_directory_ok : ∃ a, implements full_directory a.
Proof.
  destruct (formatted_ok 40 ltac:(lia)) as [Ha Hsz].
  destruct (create_files_ok 16 (Spec ∅ ∅ ∅) ltac:(lia)) as [Hok Hn].
  assert (Z.of_nat (size (files (formatted 40)) + 16) < 2147483600) as Hfew by (rewrite Hsz; lia).
  destruct (client_refines (λ _, false) (λ _, eq_refl) no_garbage eq_refl no_garbage_bytes 16 _ _ _ Ha Hok Hn Hfew)
    as (rs & s' & a' & E & _ & H). exists a'. unfold full_directory. by rewrite E.
Qed.

Lemma full_directory_few : few_open full_directory.
Proof. vm_compute. reflexivity. Qed.

(** One more creation, of a file of one sector. *)
Lemma create_in_full :
  (used_sectors full_directory,
    match filesys_create (λ _, false) no_garbage example_name 512 full_directory with
    | Ok (b, s) => Some (b, used_sectors s) | Err _ => None end) = (20%nat, Some (false, 21%nat)).
Proof. vm_compute. reflexivity. Qed.

(** A creation that fails because the directory is full gives its inode
    sector back, but not the sectors of its data: the file system is the same
    for its clients, and one more sector is used for ever. *)
Lemma filesys_create_leaks :
  ∃ s s' a, implements s a ∧ filesys_create (λ _, false) no_garbage example_name 512 s = Ok (false, s') ∧ implements s' a ∧
    used_sectors s' = S (used_sectors s).
Proof.
  destruct full_directory_ok as [a Ha]. pose proof full_directory_few as Hfew.
  assert (call_ok a (Create example_name 512)) as Hc by (split; [by repeat constructor | lia]).
  pose proof create_in_full as Hcomp. revert Ha Hfew Hcomp. generalize full_directory as s. intros s Ha Hfew [= Hu Hcomp].
  destruct (refine_create (λ _, false) (λ _, eq_refl) no_garbage eq_refl no_garbage_bytes s a _ _ Ha Hfew Hc)
    as (r & s' & a' & E & Hstep & Ha' & _). cbn [run_call] in E. unfold mbind, st_bind in E.
  destruct (filesys_create _ _ _ _ _) as [[b s'']|] eqn:Ec; [| done]. injection E as <- <-. injection Hcomp as -> Hu'.
  exists s, s'', a. inversion Hstep; subst. split_and!; [done.. |]. by rewrite Hu', Hu.
Qed.
